(* ===== verification/_CoqProject ===== *)
-Q . S2P
Prelude.v
Text.v
TextFacts.v
Spooler.v
SpoolerFacts.v
Destid.v
QueueStatus.v
Media.v
Printer.v
PprdrvExit.v
Question.v
QueueAccept.v
PpopJobs.v
PpopPrinters.v
Load.v
Ipp.v
Main.v
Sample.v
Change.v
Refine.v
RefineCommands.v
RefineMain.v
Invariants.v
Effects.v
Consistency.v
ConsistentExit.v
ConsistentCommands.v
PropDaemon.v
PropRetry.v
CancelEffect.v
PropPrinter.v
PropExit.v
PropText.v
PropQueue.v
DriverOutput.v
PropOutput.v
JobFile.v
Pages.v
PropPages.v
PropSheets.v
QueueFile.v
PropQueueFile.v
Utf8.v
PropUtf8.v
Containers.v
PropContainers.v
IppObject.v
IppReply.v
SampleIpp.v
PropIppRequest.v
IppWire.v
PropIppReply.v
RequestAttrs.v
PropRequestAttrs.v
Acl.v
PropAcl.v
Tokens.v
ReadPpd.v
PropReadPpd.v
Ppd.v
PropPpd.v
PropTokens.v
Programs.v
Fonts.v
PropFonts.v
TrueType.v
TrueTypeOut.v
PropOutlines.v
PropTrueType.v
Document.v
Resources.v
Capable.v
Things.v
Insertions.v
Sections.v
PropReader.v
PropSections.v
PropFeatures.v
PropCapable.v
PropThings.v
