(* ===== verification/Prelude.v ===== *)
(** The PPR print spooler: a model of its core, in C under src/, and the
    theorems that make it correct.

    * The program

    ppr takes a PostScript job, splits it into files and leaves them, with a
    queue file that describes the job, in the spool directory.  The daemon pprd
    keeps the queue: it gives jobs to printers and groups of printers, starts a
    pprdrv process for a job on a printer, and judges by its exit code what
    becomes of both.  Users and operators reach it through commands of ppop,
    ppad and the IPP server, which arrive on a pipe and a socket.  pprdrv puts
    the job together again for the printer it is sent to: which pages, in which
    order, how many copies, on which sheets, with the code for the printer's
    features from its PPD file, and with the fonts and other resources the
    printer lacks; and writes it, through a buffer and possibly a protocol, to
    an interface program.

    * The model of pprd (src/pprd/)

    The daemon is a state record ([Spooler.pprd]: the queue, printers, groups,
    media, questions, flags, and the world with its files and a trace of what
    the daemon does to it) and routines in the monad [M] of this file, which
    return, throw (gu_Throw) or stop: fatal(), undefined behaviour, or fuel.
    Overflow of the ints that are checked with [c_int], an index outside an
    array and a division by zero are undefined behaviour; the fields of queue
    entries are kept at their widths.  Each C function is a definition of the
    same name.

    - Text: character classes, gu_sscanf(), printing, padded fields, lines,
      ppr_fnamef(), parse_qfname() (src/libgu/gu_sscanf.c, padded.c, getline.c,
      gu_strsep.c; src/libppr/ppr_fnamef.c, parse_qfname.c, jobid.c).
    - Spooler: constants, records, arrays, files and the other system calls
      (pprd.h, pprd.c, include/global_structs.h).
    - Destid (pprd_destid.c); QueueStatus (pprd_statedirs.c, libppr/
      spool_state.c, pprd_queue.c) and QueueAccept (pprd_queue.c); Media
      (pprd_media.c); Printer (pprd_alert.c, pprd_respond.c, pprd_printer.c,
      pprdrv_start()); PprdrvExit (pprd_pprdrv.c); Question (pprd_question.c);
      PpopJobs, PpopPrinters (pprd_ppop.c); Load (pprd_load.c); Ipp
      (pprd_ipp.c).
    - Main: ppad_remind() (pprd_remind.c), and the main loop as [handle], one
      input (a command, a tick, a child that has ended) at a time, and as the
      relation [step] (pprd.c).

    * The model of pprdrv (src/pprdrv/)

    - DriverOutput: the write buffer, TBCP and its decoder, the quoting of
      strings and of PPD values (pprdrv_buf.c, src/ppr/tbcp2bin.c).  What each
      write() will accept is a list in the state.
    - Pages: the mask of pages (libppr/pagemask.c); page_computations(),
      select_copies_method(), make_pagetable(), copy_pages() of pprdrv.c,
      signature() of pprdrv_signature.c, compute_charge() of libppr/charge.c.
    - ReadPpd, Ppd: finding and reading a PPD file with its includes
      (libppr/readppd.c), the statements the driver knows, and the tables of
      code and fonts (pprdrv_ppd.c).
    - Fonts: PFB files and Macintosh TrueType fonts (pprdrv_pfb.c,
      pprdrv_mactt.c).  TrueType, TrueTypeOut: the library that makes PostScript
      fonts of TrueType files (src/libttf/, nonppr_misc/ps_type3/ps_type3.c),
      and send_font_tt() of pprdrv_tt.c.
    - Document: the reader of lines, features put in and taken out (pprdrv.c,
      pprdrv_ppd.c); Resources: fonts, procedure sets and other resources
      (pprdrv_res.c, libppr/findres.c); Insertions: what the driver puts in of
      its own (pprdrv_notppd.c, pprdrv_userparams.c, pprdrv_nup.c,
      pprdrv_media.c, pprdrv_req.c, pprdrv_patch.c, pprdrv_custom_hook.c);
      Sections: the copying of header, prolog, setup, pages and trailer
      (pprdrv.c).  The driver's variables are the record [doc].
    - Capable: whether the printer can print the job (pprdrv_capable.c): what it
      lacks, the substitution of fonts, and what the log and the queue file say.

    * The model of ppr (src/ppr/)

    - Things: the resources, media and requirements a document names, what is
      concluded of them and written to the queue file (ppr_res.c, ppr_media.c,
      ppr_req.c), the levels of nesting (ppr_nest.c), and the division of a job
      by its pages (ppr_split.c).

    * Files and libraries

    - JobFile: struct QEntryFile (include/global_structs.h).  QueueFile: the
      writing and the reading of the queue file (libppr/qentryfile_save.c,
      qentryfile_load.c, libgu/gu_dtostr.c).
    - Utf8: the decoder of UTF-8 (libgu/gu_utf8_decode.c, gu_utf8_put.c).
    - Containers: hash tables and growing arrays (libgu/gu_pch.c, gu_pca.c) over
      an explicit store of buckets and slots, and the finite maps and lists they
      stand for.
    - IppObject, IppReply, RequestAttrs: IPP requests read, claimed from,
      answered (libppr/ipp_obj.c, ipp_to_str.c, ipp_str_to.c, ipp_req_attrs.c);
      IppWire: the encoding of RFC 2910, for comparison; SampleIpp: examples.
    - Acl: patterns, users and access lists (nonppr_misc/wildmat/gu_wildmat.c,
      libppr/username_match.c, acl.c).
    - Tokens: C strings in a buffer, the words of a comment, and quoted names
      (libppr/tokenize.c, quote.c).

    * The theorems

    - The daemon as a whole.  Change is an abstract specification: a relation of
      the changes the tables may undergo (a job arrives, is removed, gets
      another status; a printer is started, exits, ...).  Change and the Refine
      files show that every routine, and so every turn of the main loop, makes
      only such changes; Invariants draws from it what holds in every state the
      daemon reaches; the Consistent files show that jobs and printers point at
      each other.  PropDaemon has the theorems; the limit of active printers is
      one for the printers at work on a job, not for a counter alone.
    - PropRetry: a printer that waits to be tried again is tried in time, and
      then prints, is short of resources, or has nothing to do.
    - Effects, CancelEffect and PropQueue: the order of the queue, the removal of
      jobs, and that canceling, a loop over a queue it shortens, ends and takes
      exactly the jobs it should.
    - Effects and PropPrinter: status, start of jobs, groups, stopping; PropExit:
      exit codes and retries.
    - PropText: state files, first lines of queue files, names and padded fields
      are read back as they were written; commands are carried out in order.
    - PropQueueFile: a whole queue file is read back.
    - PropOutput: the data arrives at the pipe whole and in order, the buffer
      never holds too much, TBCP and the quoting are undone by their readers.
    - PropPages, PropSheets: from a list of pages to the sheets: the mask holds
      the pages named, the table the pages of the mask, every copy has every
      page once, a folded signature reads in order, copies are as many as were
      asked for, and charged are the sheets that page_computations() counts.
    - PropUtf8: the decoder reads the encoding of RFC 2279, and nothing else.
    - PropContainers: hash tables and arrays do what maps and lists do.
    - PropIppRequest, PropIppReply, PropRequestAttrs: a request is read within
      its length, a reply is read back as it was built (attributes without a
      value are not sent), a claimed value is the one its tag announces, the
      attributes asked for are answered.
    - PropAcl, PropTokens: patterns and lists admit whom they describe, by a
      reading of patterns, codes and hosts of its own; a quoted name is one word
      again.
    - PropReadPpd, PropPpd: PPD files are read to their end, and what they give
      for a feature is found, among the other statements of the file.
    - Programs: equal programs, programs that return.  PropFonts: what is sent of
      fonts.  PropOutlines: the conversion of a TrueType font returns, every
      contour is drawn once, and inner ones with the outer one they lie in most
      closely.  PropTrueType: the font in the sfnts array has the
      tables of the file.
    - PropReader, PropSections: every line of a job is read at last, a page is
      sent whole under its new number, with the documents embedded in it.  PropFeatures: the code of the printer's
      PPD file takes the place of the job's.
    - PropCapable: a job is turned away exactly when there is a reason, and what
      was counted is the reason given.
    - PropThings: what ppr lists of a job's resources and requirements pprdrv
      reads; after rationalize_resources() every resource has a place to come
      from; a divided job has every page once.

    Theorems that show a defect of the program, which the code shares, are among
    them (PropOutput.other_characters_are_garbled,
    PropSheets.special_order_copies_never_end,
    PropTrueType.fewer_tables_are_lost,
    PropCapable.turned_away_without_a_reason, and others).

    * Bounds and fuel

    Loops without a structural measure take fuel: gu_sscanf() the length of its
    format, of which every turn takes a character; readers of lines and of
    records the length of their text plus one; the canceling loop the length of
    the queue plus one, as a job is removed or passed over in every turn
    (PropQueue.cancel_takes_the_idle_jobs_that_match shows that it is enough);
    the parser of page lists the length of the list plus one; the loop over the
    sheets their number; the loop of copies an argument, of which
    PropSheets.collated_copies_are_all_sent says how much is enough; the parser
    of IPP attributes the bytes to come plus one, the draining of a request the
    bytes left; the loop over the keys of a table more than its size
    (PropContainers.iteration_visits_every_key_once); the matcher of patterns
    their length plus one; the reader of PPD files an argument, of which
    PropReadPpd.ppd_files_are_read_to_the_end says that enough of it exists;
    dgetline() more than the characters left
    (PropSections.every_line_is_read_at_last); the substitution of a font the
    length of its file plus one, for every turn takes a line; the resources of a
    comment the words of it plus one (PropThings.every_list_of_resources_ends);
    fonts their length plus one; the contours of a glyph their number plus one, which the proof of
    PropOutlines.every_contour_is_drawn_once shows to be enough; flags and
    components of a glyph, and the search in the directory of a font, at most
    the bytes that are there, behind which the program would read what is not
    its own.  What runs out of fuel stops with [SFuel], and never counts as
    success.

    * What is assumed

    Ints that only count (ids of processes, times, sizes of texts, pages and
    sheets) are not bounded.  The output buffer is the text in it with the count
    of the space left, as the program keeps it.  What gu_alloc() leaves in
    printers[] is a parameter, [Spooler.printers_memory].  write(), fdopen(), opendir() and accept() succeed in the daemon;
    fork() is seen from the parent.  read() gives at least a byte unless the
    input is at its end.  Memory is never short, and pools are not modelled.  A
    char is signed, as on the machines the program was written for, an int has
    its low byte first, and a left shift of an int wraps.  A float is the decimal
    it is written as; decimals of up to fifteen digits compare as the doubles
    they are read into.  The message a vprintf() would make, where a routine
    takes a format, is an argument.  Tokens point into the line they were taken
    from; no routine that is modelled writes into the line while it uses them.
    The output of the custom hook's process is a parameter.

    * Not modelled

    Of pprd: the listener, the log and becoming a daemon, which are system calls
    around the handlers.  Of pprdrv: banner pages, the feedback of printers, its
    timeouts, and the comments on progress.  ppr's options and its parser of the
    Document Structuring Conventions, ppop, ppad, the interfaces, filters, the servers of other protocols, SNMP,
    and the copies of Tcl, PCRE, MD5 and snprintf. *)
From stdpp Require Export base list strings gmap pretty relations.
From Stdlib Require Export ZArith Lia.
From Stdlib Require Export Strings.Ascii.

Open Scope Z_scope.

(** * Machine integers *)

Definition unsigned_wrap (w : Z) (z : Z) : Z := z mod 2 ^ w.

Definition signed_wrap (w : Z) (z : Z) : Z :=
  (z + 2 ^ (w - 1)) mod 2 ^ w - 2 ^ (w - 1).

(** [unsigned char], [unsigned short], [unsigned int], [INT16_T], [int]. *)
Definition u8 : Z → Z := unsigned_wrap 8.

Definition u16 : Z → Z := unsigned_wrap 16.

Definition u32 : Z → Z := unsigned_wrap 32.

Definition i16 : Z → Z := signed_wrap 16.

Definition i32 : Z → Z := signed_wrap 32.

Lemma unsigned_wrap_small w z : 0 ≤ z < 2 ^ w → unsigned_wrap w z = z.
Proof. apply Z.mod_small. Qed.

Lemma signed_wrap_small w z :
  1 ≤ w → - 2 ^ (w - 1) ≤ z < 2 ^ (w - 1) → signed_wrap w z = z.
Proof.
  intros Hw Hz. unfold signed_wrap.
  assert (2 ^ w = 2 * 2 ^ (w - 1)) as E.
  { rewrite <- Z.pow_succ_r by lia. f_equal. lia. }
  rewrite E, Z.mod_small by lia. lia.
Qed.

Lemma u8_small z : 0 ≤ z < 256 → u8 z = z.
Proof. intros H. apply unsigned_wrap_small. exact H. Qed.

Lemma u16_small z : 0 ≤ z < 65536 → u16 z = z.
Proof. intros H. apply unsigned_wrap_small. exact H. Qed.

Lemma u32_small z : 0 ≤ z < 4294967296 → u32 z = z.
Proof. intros H. apply unsigned_wrap_small. exact H. Qed.

Lemma i16_small z : -32768 ≤ z < 32768 → i16 z = z.
Proof. intros H. apply signed_wrap_small; [lia | exact H]. Qed.

Lemma i32_small z : -2147483648 ≤ z < 2147483648 → i32 z = z.
Proof. intros H. apply signed_wrap_small; [lia | exact H]. Qed.

Lemma u8_range z : 0 ≤ u8 z < 256.
Proof. apply Z.mod_pos_bound. reflexivity. Qed.

(** * Effects

    A routine of a daemon reads and writes the daemon's state and then
    returns, throws with gu_Throw(), or ends the process: through fatal()
    or, in the cases the C language leaves undefined, in no way the source
    determines. *)
Inductive stop :=
| SFatal (code : Z) (msg : string)
| SUndef (why : string)
| SFuel.

Inductive outcome (S A : Type) :=
| Done (a : A) (s : S)
| Thrown (msg : string) (s : S)
| Stopped (r : stop).
Arguments Done {S A} _ _.
Arguments Thrown {S A} _ _.
Arguments Stopped {S A} _.

Definition M (S A : Type) : Type := S → outcome S A.

#[export] Instance M_ret S : MRet (M S) := λ A a s, Done a s.

#[export] Instance M_bind S : MBind (M S) := λ A B f m s,
  match m s with
  | Done a s' => f a s'
  | Thrown e s' => Thrown e s'
  | Stopped r => Stopped r
  end.

Section operations.
Context {S : Type}.

Definition gets {A} (f : S → A) : M S A := λ s, Done (f s) s.

Definition modify (f : S → S) : M S unit := λ s, Done tt (f s).

Definition gu_Throw {A} (msg : string) : M S A := λ s, Thrown msg s.

Definition fatal {A} (code : Z) (msg : string) : M S A :=
  λ s, Stopped (SFatal code msg).

Definition undef {A} (why : string) : M S A := λ s, Stopped (SUndef why).

(** gu_Try { m } gu_Catch { h }: the handler runs in the state the throw
    left, for longjmp() undoes no assignment to the global state. *)
Definition gu_Try {A} (m : M S A) (h : string → M S A) : M S A := λ s,
  match m s with
  | Thrown e s' => h e s'
  | o => o
  end.

(** A signed int: overflow is undefined. *)
Definition c_int (z : Z) : M S Z :=
  if (-2147483648 <=? z) && (z <? 2147483648) then mret z
  else undef "signed overflow".

Definition when (b : bool) (m : M S unit) : M S unit :=
  if b then m else mret tt.

(** for(x = lo; x < lo + n; x++) body: the body gives [None] to go on and
    [Some b] to break out with [b]; the loop gives [None] when it ran to
    the end. *)
Fixpoint for_loop {B} (n : nat) (x : Z) (body : Z → M S (option B))
    : M S (option B) :=
  match n with
  | O => mret None
  | Datatypes.S n' =>
      r ← body x;
      match r with
      | Some b => mret (Some b)
      | None => for_loop n' (x + 1) body
      end
  end.

Definition for_each (n : nat) (x : Z) (body : Z → M S unit) : M S unit :=
  r ← for_loop n x (λ y, body y;; mret (None (A := unit)));
  mret tt.
End operations.

(** * Weakest preconditions

    [wp m Q X F s]: from [s] the routine either returns [a] in a state with
    [Q a], or throws in a state with [X], or stops for a reason with [F].
    [F := λ _, False] is total correctness, [F := λ _, True] partial
    correctness, and [no_undef] excludes undefined behaviour. *)
Section wp.
Context {S : Type}.

Definition wp {A} (m : M S A) (Q : A → S → Prop) (X : string → S → Prop)
    (F : stop → Prop) (s : S) : Prop :=
  match m s with
  | Done a s' => Q a s'
  | Thrown e s' => X e s'
  | Stopped r => F r
  end.

Lemma wp_mono {A} (m : M S A) (Q Q' : A → S → Prop) X X' F F' s :
  wp m Q X F s →
  (∀ a s', Q a s' → Q' a s') →
  (∀ e s', X e s' → X' e s') →
  (∀ r, F r → F' r) →
  wp m Q' X' F' s.
Proof. unfold wp. destruct (m s); auto. Qed.

Lemma wp_ret {A} (a : A) Q X F (s : S) : wp (mret a) Q X F s ↔ Q a s.
Proof. done. Qed.

Lemma wp_bind {A B} (m : M S A) (f : A → M S B) Q X F s :
  wp (m ≫= f) Q X F s ↔ wp m (λ a s', wp (f a) Q X F s') X F s.
Proof. unfold wp, mbind, M_bind. destruct (m s); done. Qed.

Lemma wp_gets {A} (f : S → A) Q X F s : wp (gets f) Q X F s ↔ Q (f s) s.
Proof. done. Qed.

Lemma wp_modify (f : S → S) Q X F s : wp (modify f) Q X F s ↔ Q tt (f s).
Proof. done. Qed.

Lemma wp_throw {A} msg (Q : A → S → Prop) X F s :
  wp (gu_Throw msg) Q X F s ↔ X msg s.
Proof. done. Qed.

Lemma wp_fatal {A} c msg (Q : A → S → Prop) X F s :
  wp (fatal c msg) Q X F s ↔ F (SFatal c msg).
Proof. done. Qed.

Lemma wp_undef {A} why (Q : A → S → Prop) X F s :
  wp (undef why) Q X F s ↔ F (SUndef why).
Proof. done. Qed.

Lemma wp_try {A} (m : M S A) h Q X F s :
  wp (gu_Try m h) Q X F s ↔ wp m Q (λ e s', wp (h e) Q X F s') F s.
Proof. unfold wp, gu_Try. destruct (m s); done. Qed.

Lemma wp_c_int z Q X F s :
  (-2147483648 ≤ z < 2147483648 → Q z s) →
  (¬ (-2147483648 ≤ z < 2147483648) → F (SUndef "signed overflow")) →
  wp (c_int z) Q X F s.
Proof.
  intros HQ HF. unfold wp, c_int.
  destruct ((-2147483648 <=? z) && (z <? 2147483648)) eqn:E.
  - apply andb_true_iff in E as [? ?]. apply HQ. lia.
  - apply HF. intros ?. apply andb_false_iff in E. lia.
Qed.

Lemma wp_when (b : bool) (m : M S unit) Q X F s :
  (b = true → wp m Q X F s) → (b = false → Q tt s) →
  wp (when b m) Q X F s.
Proof. intros Ht Hf. destruct b; [by apply Ht | by apply Hf]. Qed.

(** The loop rule: [I y] holds whenever the loop variable is [y]. *)
Lemma wp_for {B} (I : Z → S → Prop) n lo (body : Z → M S (option B)) Q X F s :
  I lo s →
  (∀ y s', lo ≤ y < lo + Z.of_nat n → I y s' →
    wp (body y) (λ r s'', match r with
                          | None => I (y + 1) s''
                          | Some b => Q (Some b) s''
                          end) X F s') →
  (∀ s', I (lo + Z.of_nat n) s' → Q None s') →
  wp (for_loop n lo body) Q X F s.
Proof.
  revert lo s. induction n as [|n IH]; intros lo s HI Hbody Hend.
  - apply wp_ret, Hend. by rewrite Z.add_0_r.
  - simpl. apply wp_bind. eapply wp_mono; [apply Hbody; [lia | done] | | auto | auto].
    intros [b|] s' Hs'; [done|].
    apply IH; [done | |].
    + intros y s'' Hy. apply Hbody. lia.
    + intros s'' HI'. apply Hend. by replace (lo + Z.of_nat (Datatypes.S n))
        with (lo + 1 + Z.of_nat n) by lia.
Qed.

Lemma wp_for_each (I : Z → S → Prop) n lo (body : Z → M S unit) Q X F s :
  I lo s →
  (∀ y s', lo ≤ y < lo + Z.of_nat n → I y s' →
    wp (body y) (λ _ s'', I (y + 1) s'') X F s') →
  (∀ s', I (lo + Z.of_nat n) s' → Q tt s') →
  wp (for_each n lo body) Q X F s.
Proof.
  intros HI Hbody Hend. unfold for_each. apply wp_bind.
  apply (wp_for I); [done | |].
  - intros y s' Hy Hs'. apply wp_bind.
    eapply wp_mono; [by apply Hbody | | auto | auto]. auto.
  - intros s' Hs'. apply wp_ret. auto.
Qed.

(** Running a routine step by step. *)
Lemma bind_done {A B} (m : M S A) (f : A → M S B) s a s' :
  m s = Done a s' → (m ≫= f) s = f a s'.
Proof. unfold mbind, M_bind. by intros ->. Qed.

Lemma bind_gets {A B} (f : S → A) (g : A → M S B) s : (gets f ≫= g) s = g (f s) s.
Proof. done. Qed.

Lemma bind_modify {B} (f : S → S) (g : unit → M S B) s : (modify f ≫= g) s = g tt (f s).
Proof. done. Qed.

Lemma bind_ret {A B} (a : A) (g : A → M S B) s : (mret a ≫= g) s = g a s.
Proof. done. Qed.

Lemma bind_assoc {A B C} (m : M S A) (f : A → M S B) (g : B → M S C) s :
  ((m ≫= f) ≫= g) s = (m ≫= λ a, f a ≫= g) s.
Proof. unfold mbind, M_bind. by destruct (m s). Qed.

Lemma for_each_step n lo (body : Z → M S unit) s s' :
  body lo s = Done tt s' → for_each (Datatypes.S n) lo body s = for_each n (lo + 1) body s'.
Proof. intros H. unfold for_each. simpl. unfold mbind, M_bind. by rewrite H. Qed.
End wp.

(** Taking the steps that only read or write the state. *)
Ltac run := repeat first [rewrite bind_gets | rewrite bind_modify | rewrite bind_ret
                         | rewrite bind_assoc]; cbn beta iota delta [id].

(** A routine keeps [I]: in every state it hands back, by a return or by a
    throw. *)
Definition keeps {S A} (I : S → Prop) (m : M S A) : Prop :=
  ∀ s, I s → wp m (λ _, I) (λ _, I) (λ _, True) s.

Definition no_undef (r : stop) : Prop :=
  match r with
  | SFatal _ _ => True
  | SUndef _ | SFuel => False
  end.

Definition never (r : stop) : Prop := False.

(** * Ranges *)

Definition in_u (w z : Z) : Prop := 0 ≤ z < 2 ^ w.

Definition in_s (w z : Z) : Prop := - 2 ^ (w - 1) ≤ z < 2 ^ (w - 1).

Lemma unsigned_wrap_range w z : 0 ≤ w → in_u w (unsigned_wrap w z).
Proof. intros Hw. apply Z.mod_pos_bound, Z.pow_pos_nonneg; lia. Qed.

Lemma signed_wrap_range w z : 1 ≤ w → in_s w (signed_wrap w z).
Proof.
  intros Hw. unfold in_s, signed_wrap.
  assert (2 ^ w = 2 * 2 ^ (w - 1)) as E.
  { rewrite <- Z.pow_succ_r by lia. f_equal. lia. }
  assert (0 < 2 ^ (w - 1)) by (apply Z.pow_pos_nonneg; lia).
  pose proof (Z.mod_pos_bound (z + 2 ^ (w - 1)) (2 ^ w)). lia.
Qed.

Lemma i16_range z : in_s 16 (i16 z).
Proof. by apply signed_wrap_range. Qed.

Lemma in_u_bits w z : 0 ≤ w → in_u w z ↔ 0 ≤ z ∧ ∀ i, w ≤ i → Z.testbit z i = false.
Proof.
  intros Hw. unfold in_u. split.
  - intros [H1 H2]. split; [done|]. intros i Hi.
    destruct (decide (z = 0)) as [->|]; [apply Z.testbit_0_l|].
    apply Z.bits_above_log2; [done|].
    apply Z.lt_le_trans with w; [|done]. apply Z.log2_lt_pow2; lia.
  - intros [H1 H2]. split; [done|].
    rewrite <- (Z.mod_small z (2 ^ (Z.log2 z + 1 + w))).
    + assert (z = z mod 2 ^ w) as E.
      { apply Z.bits_inj'. intros i Hi.
        destruct (decide (i < w)).
        - by rewrite Z.mod_pow2_bits_low.
        - rewrite Z.mod_pow2_bits_high by lia. apply H2. lia. }
      assert (z < 2 ^ w).
      { rewrite E. apply Z.mod_pos_bound, Z.pow_pos_nonneg; lia. }
      rewrite Z.mod_small; [done|]. split; [done|].
      apply Z.lt_le_trans with (2 ^ w); [done|].
      apply Z.pow_le_mono_r; [lia|]. pose proof (Z.log2_nonneg z). lia.
    + split; [done|]. destruct (decide (z = 0)) as [->|].
      * apply Z.pow_pos_nonneg; [lia|]. simpl. lia.
      * apply Z.log2_lt_pow2; lia.
Qed.

Lemma lor_in_u w a b : 0 ≤ w → in_u w a → in_u w b → in_u w (Z.lor a b).
Proof.
  intros Hw [Ha Ha']%(in_u_bits w) [Hb Hb']%(in_u_bits w); [|done..].
  apply in_u_bits; [done|]. split; [by apply Z.lor_nonneg|].
  intros i Hi. by rewrite Z.lor_spec, Ha', Hb'.
Qed.

Lemma land_in_u w a b : 0 ≤ w → in_u w a → in_u w (Z.land a b).
Proof.
  intros Hw [Ha Ha']%(in_u_bits w); [|done].
  apply in_u_bits; [done|]. split; [apply Z.land_nonneg; by left|].
  intros i Hi. by rewrite Z.land_spec, Ha'.
Qed.

Lemma ldiff_in_u w a b : 0 ≤ w → in_u w a → in_u w (Z.ldiff a b).
Proof.
  intros Hw [Ha Ha']%(in_u_bits w); [|done].
  apply in_u_bits; [done|]. split; [apply Z.ldiff_nonneg; by left|].
  intros i Hi. by rewrite Z.ldiff_spec, Ha'.
Qed.
