(* ===== verification/Text.v ===== *)
(** C strings as libgu and libppr handle them: the ASCII character classes,
    gu_sscanf(), the fixed-format printers it reads back, ppr_fnamef(), the
    blank-padded records, queue file names and job ids.

    A C string is a [string] with no NUL in it; a pointer into one is the rest
    of the string.  Signed overflow while reading digits is undefined in C, and
    the model says so. *)
From S2P Require Import Prelude.

(** A message of the source, with a backquote for each double quote. *)
Fixpoint dq (s : string) : string :=
  match s with
  | EmptyString => EmptyString
  | String c s' =>
      String (if Ascii.eqb c "`" then ascii_of_N 34 else c) (dq s')
  end.

(** * Character classes (libgu/gu_isspace.c, gu_isdigit.c, gu_isxdigit.c) *)

Definition code (c : ascii) : Z := Z.of_N (N_of_ascii c).

Definition chr (n : Z) : ascii := ascii_of_N (Z.to_N n).

(** The C type char is signed. *)
Definition schar (c : ascii) : Z := if code c <? 128 then code c else code c - 256.

(** A C string ends before its first NUL. *)
Definition not_nul (c : ascii) : bool := negb (code c =? 0).

Definition gu_ascii_isspace (c : ascii) : bool :=
  let k := code c in
  (k =? 32) || (k =? 9) || (k =? 11) || (k =? 12) || (k =? 13) || (k =? 10).

Definition gu_ascii_isdigit (c : ascii) : bool :=
  (48 <=? code c) && (code c <=? 57).

Definition gu_ascii_digit_value (c : ascii) : Z :=
  if gu_ascii_isdigit c then code c - 48 else -1.

Definition gu_ascii_isxdigit (c : ascii) : bool :=
  gu_ascii_isdigit c
  || ((97 <=? code c) && (code c <=? 102))
  || ((65 <=? code c) && (code c <=? 70)).

Definition gu_ascii_xdigit_value (c : ascii) : Z :=
  if gu_ascii_isdigit c then code c - 48
  else if (97 <=? code c) && (code c <=? 102) then code c - 97 + 10
  else if (65 <=? code c) && (code c <=? 70) then code c - 65 + 10
  else -1.

(** * String scanning *)

(** The characters up to the first one outside [f], and the rest. *)
Fixpoint span (f : ascii → bool) (s : string) : string * string :=
  match s with
  | EmptyString => (EmptyString, EmptyString)
  | String c s' =>
      if f c then let '(a, b) := span f s' in (String c a, b)
      else (EmptyString, s)
  end.

Definition c_string (s : string) : string := (span not_nul s).1.

Definition drop_while (f : ascii → bool) (s : string) : string := (span f s).2.

(** [n] characters at most. *)
Fixpoint str_take (n : nat) (s : string) : string :=
  match n, s with
  | O, _ | _, EmptyString => EmptyString
  | S n', String c s' => String c (str_take n' s')
  end.

Fixpoint str_drop (n : nat) (s : string) : string :=
  match n, s with
  | O, _ => s
  | _, EmptyString => EmptyString
  | S n', String _ s' => str_drop n' s'
  end.

Definition strlen (s : string) : Z := Z.of_nat (String.length s).

Definition chars (s : string) : list ascii := String.list_ascii_of_string s.

Definition of_chars (l : list ascii) : string := String.string_of_list_ascii l.

(** strcspn(s, " \t\n") splits at the first blank. *)
Definition not_blank (c : ascii) : bool :=
  negb ((code c =? 32) || (code c =? 9) || (code c =? 10)).

(** * Numbers *)

Definition digits_value (base : Z) (value : ascii → Z) (ds : string) : Z :=
  fold_left (λ acc c, acc * base + value c) (chars ds) 0.

Definition digit_char (upper : bool) (d : Z) : ascii :=
  if d <? 10 then chr (48 + d)
  else if upper then chr (55 + d) else chr (87 + d).

Fixpoint fmt_go (fuel : nat) (upper : bool) (base n : Z) (acc : string) : string :=
  match fuel with
  | O => acc
  | S fuel' =>
      let acc' := String (digit_char upper (n mod base)) acc in
      if n / base =? 0 then acc' else fmt_go fuel' upper base (n / base) acc'
  end.

(** One digit too many is enough: a base is at least two. *)
Definition fmt_u (upper : bool) (base n : Z) : string :=
  fmt_go (Z.to_nat (Z.log2 n + 1)) upper base n EmptyString.

(** printf's [%d] and [%0<w>X]. *)
Definition fmt_d (n : Z) : string :=
  if n <? 0 then String "-" (fmt_u false 10 (- n)) else fmt_u false 10 n.

Fixpoint zeros (n : nat) : string :=
  match n with O => EmptyString | S n' => String "0" (zeros n') end.

Definition fmt_X (width : Z) (n : Z) : string :=
  let s := fmt_u true 16 n in
  zeros (Z.to_nat (width - strlen s)) +:+ s.

Fixpoint spaces (n : nat) : string :=
  match n with O => EmptyString | S n' => String " " (spaces n') end.

(** * gu_sscanf() (libgu/gu_sscanf.c)

    The values stored through the pointer arguments come back as a list, in
    the order of the stores.  [va] holds the array sizes that [%@s] takes from
    the argument list.  [VDec] is the text of a [%f] number; what float it is
    rounded to is the platform's business. *)
Inductive scanval :=
| VInt (n : Z)
| VStr (s : string)
| VDec (sign whole : Z) (fraction : string).

#[export] Instance scanval_eq_dec : EqDecision scanval.
Proof. solve_decision. Defined.

Inductive scan_result :=
| Scanned (count : Z) (vals : list scanval)
| ScanThrow (msg : string)
| ScanUndef.

(** One conversion on the input at [str]: the rest of the input and what was
    stored, or the jump to break_break when the input does not match. *)
Inductive conversion :=
| Conv (rest : string) (stored : list scanval)
| ConvBreak
| ConvThrow (msg : string)
| ConvUndef.

Record scan_spec := mkSpec {
  sp_suppress : bool;
  sp_maxextlen : Z;
  sp_islong : bool;
  sp_isshort : bool;
}.

Definition store (suppress : bool) (v : scanval) : list scanval :=
  if suppress then [] else [v].

Definition take_sign (str : string) : Z * string :=
  match str with
  | String c s => if Ascii.eqb c "-" then (-1, s) else (1, str)
  | EmptyString => (1, str)
  end.

Definition int_max : Z := 2147483647.

Definition long_max : Z := 9223372036854775807.

Definition conv_d (sp : scan_spec) (str : string) : conversion :=
  let '(sign, s) := take_sign str in
  let '(ds, rest) := span gu_ascii_isdigit s in
  match ds with
  | EmptyString => ConvBreak
  | _ =>
      let v := digits_value 10 gu_ascii_digit_value ds in
      if (if sp_islong sp then long_max else int_max) <? v then ConvUndef
      else
        let v' := v * sign in
        Conv rest (store (sp_suppress sp)
          (VInt (if sp_islong sp then v' else if sp_isshort sp then i16 v' else v')))
  end.

Definition conv_u (sp : scan_spec) (str : string) : conversion :=
  let '(ds, rest) := span gu_ascii_isdigit str in
  match ds with
  | EmptyString => ConvBreak
  | _ =>
      if sp_islong sp then ConvThrow "gu_sscanf(): %lu not implemented"
      else
        let v := u32 (digits_value 10 gu_ascii_digit_value ds) in
        Conv rest (store (sp_suppress sp)
          (VInt (if sp_isshort sp then u16 v else v)))
  end.

Definition conv_x (sp : scan_spec) (str : string) : conversion :=
  let '(ds, rest) := span gu_ascii_isxdigit str in
  let v := digits_value 16 gu_ascii_xdigit_value ds in
  let v' := if sp_islong sp then unsigned_wrap 64 v
            else if sp_isshort sp then u16 (u32 v) else u32 v in
  Conv rest (store (sp_suppress sp) (VInt v')).

Definition conv_f (sp : scan_spec) (str : string) : conversion :=
  let '(sign, s) := take_sign str in
  let '(ds, rest) := span gu_ascii_isdigit s in
  match ds with
  | EmptyString => ConvBreak
  | _ =>
      let whole := digits_value 10 gu_ascii_digit_value ds in
      if int_max <? whole then ConvUndef
      else
        let '(fraction, rest') :=
          match rest with
          | String c s' =>
              if Ascii.eqb c "." then span gu_ascii_isdigit s'
              else (EmptyString, rest)
          | EmptyString => (EmptyString, rest)
          end in
        Conv rest' (store (sp_suppress sp) (VDec sign whole fraction))
  end.

(** [%s]: what fits is copied, the rest of the word is eaten. *)
Definition conv_s (sp : scan_spec) (str : string) : conversion :=
  let '(word, rest) := span (λ c, negb (gu_ascii_isspace c)) str in
  if sp_suppress sp then Conv rest []
  else if sp_maxextlen sp <? 1 then
    ConvThrow "gu_sscanf(): field width for %s is less than one"
  else Conv rest [VStr (str_take (Z.to_nat (sp_maxextlen sp - 1)) word)].

Definition is_quote (c : ascii) : bool := (code c =? 34) || (code c =? 39).

(** The closing quote, if there is one, is stepped over. *)
Definition skip_quote (s : string) : string :=
  match s with
  | String c s' => if is_quote c then s' else s
  | EmptyString => s
  end.

Definition up_to_quote (q : ascii) (s : string) : string * string :=
  span (λ c, negb (Ascii.eqb c q)) s.

Definition conv_W (str : string) : conversion :=
  let '(word, rest) :=
    match str with
    | String c s => if is_quote c then up_to_quote c s else span not_blank str
    | EmptyString => (EmptyString, EmptyString)
    end in
  Conv (skip_quote rest) [VStr word].

Definition rtrim (s : string) : string :=
  of_chars (rev (chars (drop_while gu_ascii_isspace (of_chars (rev (chars s)))))).

Definition conv_A (str : string) : conversion :=
  let '(word, rest) :=
    match str with
    | String c s =>
        if is_quote c then up_to_quote c s
        else let w := rtrim str in (w, str_drop (String.length w) str)
    | EmptyString => (EmptyString, EmptyString)
    end in
  Conv (skip_quote rest) [VStr word].

Definition conv_T (str : string) : conversion :=
  let '(line, rest) := span (λ c, negb (code c =? 10)) str in
  Conv rest [VStr line].

Definition conv_S (str : string) : conversion :=
  let '(word, rest) := span not_blank str in Conv rest [VStr word].

Definition conv_U (str : string) : conversion :=
  let '(ds, rest) := span gu_ascii_isdigit str in
  let v := digits_value 10 gu_ascii_digit_value ds in
  if long_max <? v then ConvUndef else Conv rest [VInt v].

Definition conv_percent (str : string) : conversion :=
  match str with
  | String c s => if Ascii.eqb c "%" then Conv s [] else ConvBreak
  | EmptyString => ConvBreak
  end.

(** Does the conversion add one to the count?  Only [%%] does not. *)
Definition counts (t : ascii) : bool := negb (Ascii.eqb t "%").

Definition convert (t : ascii) (sp : scan_spec) (offset : Z) (str : string) : conversion :=
  if Ascii.eqb t "%" then conv_percent str
  else if Ascii.eqb t "d" then conv_d sp str
  else if Ascii.eqb t "u" then conv_u sp str
  else if Ascii.eqb t "x" then conv_x sp str
  else if Ascii.eqb t "f" then conv_f sp str
  else if Ascii.eqb t "s" then conv_s sp str
  else if Ascii.eqb t "S" then conv_S str
  else if Ascii.eqb t "W" then conv_W str
  else if Ascii.eqb t "T" then conv_T str
  else if Ascii.eqb t "A" then conv_A str
  else if Ascii.eqb t "n" then Conv str [VInt offset]
  else if Ascii.eqb t "U" then conv_U str
  else ConvThrow "gu_sscanf(): unrecognized format".

(** What stands between a [%] and its conversion letter.  The loop over the
    size modifiers runs past the end of a format that has no letter. *)
Definition scan_flags (pattern : string) (va : list Z)
    : option (scan_spec * ascii * string * list Z) :=
  let '(suppress, p1) :=
    match pattern with
    | String c p => if Ascii.eqb c "*" then (true, p) else (false, pattern)
    | EmptyString => (false, pattern)
    end in
  let '(width, p2, va') :=
    match p1 with
    | String c p =>
        if Ascii.eqb c "@" then (hd 0 va, p, tl va)
        else let '(ds, p') := span gu_ascii_isdigit p1 in
             (digits_value 10 gu_ascii_digit_value ds, p', va)
    | EmptyString => (0, p1, va)
    end in
  let '(mods, p3) := span (λ c, Ascii.eqb c "l" || Ascii.eqb c "h") p2 in
  match p3 with
  | EmptyString => None
  | String t p4 =>
      Some (mkSpec suppress width
              (existsb (Ascii.eqb "l") (chars mods))
              (existsb (Ascii.eqb "h") (chars mods)), t, p4, va')
  end.

(** The loop that lasts as long as pattern and string both last.  Every
    iteration uses up a character of the pattern, so its length is fuel. *)
Fixpoint scan_loop (fuel : nat) (len : Z) (pattern str : string) (va : list Z)
    (count : Z) (vals : list scanval) : scan_result :=
  match fuel, pattern, str with
  | O, _, _ | _, EmptyString, _ | _, _, EmptyString => Scanned count vals
  | S fuel', String c p, String d s =>
      if Ascii.eqb c "%" then
        match scan_flags p va with
        | None => ScanUndef
        | Some (sp, t, p', va') =>
            match convert t sp (len - strlen str) str with
            | Conv rest stored =>
                scan_loop fuel' len p' rest va'
                  (if counts t then count + 1 else count) (vals ++ stored)
            | ConvBreak => Scanned count vals
            | ConvThrow msg => ScanThrow msg
            | ConvUndef => ScanUndef
            end
        end
      else if gu_ascii_isspace c then
        scan_loop fuel' len p (drop_while gu_ascii_isspace str) va count vals
      else if Ascii.eqb c d then scan_loop fuel' len p s va count vals
      else Scanned count vals
  end.

Definition gu_sscanf (input format : string) (va : list Z) : scan_result :=
  scan_loop (String.length format) (strlen input) format input va 0 [].

Example gu_sscanf_test :
  gu_sscanf "101 -102 103	  201   1b2 1b3  4000.00042 smith"
            "%d %ld %hd %u %x %hx %f %10s" []
  = Scanned 8 [VInt 101; VInt (-102); VInt 103; VInt 201; VInt 434; VInt 435;
               VDec 1 4000 "00042"; VStr "smith"].
Proof. reflexivity. Qed.

Example gu_sscanf_test_suppress :
  gu_sscanf "one 2 3three" "%@s %*d %*d%@s" [10; 5]
  = Scanned 4 [VStr "one"; VStr "thre"].
Proof. reflexivity. Qed.

(** * ppr_fnamef() (libppr/ppr_fnamef.c) *)

(** The arguments of the printf-like routines.  [AStruct] is a pointer to a
    structure passed where the format wants a string. *)
Inductive farg :=
| AS (s : string)
| AD (n : Z)
| AStruct (index : Z).

Inductive fname_result :=
| Fname (name : string)
| FnameThrow (msg : string).

Definition MAX_PPR_PATH : Z := 128.

Definition fname_item (str : string) (target : string) (space_left : Z)
    (k : string → Z → fname_result) : fname_result :=
  if space_left <? strlen str then FnameThrow "ppr_fnamef(): overflow"
  else k (target +:+ str) (space_left - strlen str).

Fixpoint fnamef_loop (pattern : string) (va : list farg) (target : string)
    (space_left : Z) : fname_result :=
  match pattern with
  | EmptyString => Fname target
  | String "%" p =>
      match p, va with
      | String "l" (String "d" p'), AD n :: va' =>
          fname_item (fmt_d n) target space_left (fnamef_loop p' va')
      | String "d" p', AD n :: va' =>
          fname_item (fmt_d n) target space_left (fnamef_loop p' va')
      | String "s" p', AS s :: va' =>
          fname_item s target space_left (fnamef_loop p' va')
      | _, _ => FnameThrow "ppr_fnamef(): unrecognized format"
      end
  | String c p =>
      if space_left <? 1 then FnameThrow "ppr_fnamef(): overflow in pattern"
      else fnamef_loop p va (target +:+ String c EmptyString) (space_left - 1)
  end.

Definition ppr_fnamef (pattern : string) (va : list farg) : fname_result :=
  fnamef_loop pattern va EmptyString (MAX_PPR_PATH - 1).

(** * Queue file names and job ids (libppr/parse_qfname.c, jobid.c) *)

(** strrchr(buffer, c): the parts before and after the last [c]. *)
Fixpoint split_last (c : ascii) (s : string) : option (string * string) :=
  match s with
  | EmptyString => None
  | String d s' =>
      match split_last c s' with
      | Some (a, b) => Some (String d a, b)
      | None => if Ascii.eqb c d then Some (EmptyString, s') else None
      end
  end.

Inductive qfname_result :=
| QfName (destname : string) (id subid : Z)
| QfBad (destname : string) (stored : list scanval)
| QfUndef.

(** On failure the caller's destname points at the buffer all the same: the
    whole name when there is no hyphen, what precedes the hyphen otherwise;
    and id and subid hold what the scan stored before it gave up. *)
Definition parse_qfname (buffer : string) : qfname_result :=
  match split_last "-" buffer with
  | None => QfBad buffer []
  | Some (destname, ptr) =>
      match gu_sscanf ptr "%hd.%hd" [] with
      | Scanned 2 [VInt id; VInt subid] =>
          if (id <? 0) || (subid <? 0) then QfBad destname [VInt id; VInt subid]
          else QfName destname id subid
      | Scanned _ vals => QfBad destname vals
      | ScanThrow _ | ScanUndef => QfUndef
      end
  end.

Definition qfname (destname : string) (id subid : Z) : string :=
  destname +:+ "-" +:+ fmt_d id +:+ "." +:+ fmt_d subid.

(** jobid() prints into a buffer of its own that only ever grows; the result
    and the new size of the buffer. *)
Definition jobid (storage_size : Z) (destname : string) (id subid : Z)
    : string * Z :=
  let needed := strlen destname + 10 in
  let size := Z.max storage_size needed in
  let room := Z.to_nat (size - 1) in
  let storage := str_take room (destname +:+ "-" +:+ fmt_d id) in
  if 0 <? subid then (str_take room (storage +:+ "." +:+ fmt_d subid), size)
  else (storage, size).

(** * Blank-padded strings (libgu/padded.c) *)

Fixpoint ASCIIZ_to_padded (asciiz : string) (len : nat) : string :=
  match len with
  | O => EmptyString
  | S len' =>
      match asciiz with
      | EmptyString => spaces len
      | String c s => String c (ASCIIZ_to_padded s len')
      end
  end.

Definition is_space (c : ascii) : bool := Ascii.eqb c " ".

(** Trailing blanks are clipped. *)
Definition padded_to_ASCIIZ (padded : string) : string :=
  of_chars (rev (chars (drop_while is_space (of_chars (rev (chars padded)))))).

Fixpoint padded_cmp (p1 p2 : string) : bool :=
  match p1, p2 with
  | String a p1', String b p2' => Ascii.eqb a b && padded_cmp p1' p2'
  | _, _ => true
  end.

Definition tolower (c : ascii) : ascii :=
  if (65 <=? code c) && (code c <=? 90) then chr (code c + 32) else c.

Fixpoint padded_icmp (p1 p2 : string) : bool :=
  match p1, p2 with
  | String a p1', String b p2' =>
      Ascii.eqb (tolower a) (tolower b) && padded_icmp p1' p2'
  | _, _ => true
  end.

(** * Lines and words (libgu/getline.c, gu_strsep.c, torf.c; gu.h) *)

(** fgets() up to and including the newline: a line and what follows it. *)
Definition fgets_line (s : string) : string * string :=
  let '(a, b) := span (λ c, negb (code c =? 10)) s in
  match b with
  | String nl b' => (a +:+ String nl EmptyString, b')
  | EmptyString => (a, EmptyString)
  end.

(** Every line gu_getline() returns until end of file, trailing white space
    stripped.  A line has a character at least, so the length is fuel. *)
Fixpoint gu_getlines (fuel : nat) (s : string) : list string :=
  match fuel, s with
  | O, _ | _, EmptyString => []
  | S fuel', _ =>
      let '(line, rest) := fgets_line s in rtrim line :: gu_getlines fuel' rest
  end.

Definition file_lines (content : string) : list string :=
  gu_getlines (String.length content) content.

(** Repeated gu_strsep(&p, delim) until it returns NULL. *)
Fixpoint gu_strsep_all (delim : ascii) (s : string) : list string :=
  match s with
  | EmptyString => [EmptyString]
  | String c s' =>
      if Ascii.eqb c delim then EmptyString :: gu_strsep_all delim s'
      else match gu_strsep_all delim s' with
           | w :: ws => String c w :: ws
           | [] => [String c EmptyString]
           end
  end.

Definition is_blank (c : ascii) : bool := (code c =? 32) || (code c =? 9).

Definition lmatch (a b : string) : bool := String.prefix b a.

Definition lmatchp (a b : string) : option string :=
  if String.prefix b a then Some (drop_while is_blank (str_drop (String.length b) a))
  else None.

(** The first letter decides. *)
Definition gu_torf_setBOOL (s : string) : option bool :=
  match drop_while is_blank s with
  | String c _ =>
      if existsb (Ascii.eqb c) ["y"; "Y"; "t"; "T"]%char then Some true
      else if existsb (Ascii.eqb c) ["n"; "N"; "f"; "F"]%char then Some false
      else None
  | EmptyString => None
  end.
