(* ===== verification/TextFacts.v ===== *)
(** Facts about the text routines: what the printers print is what
    gu_sscanf() reads. *)
From S2P Require Import Prelude.
From S2P Require Import Text.

(** * Strings as lists of characters *)

Lemma str_cons_app c s t : String c s +:+ t = String c (s +:+ t).
Proof. done. Qed.

Lemma str_nil_app t : EmptyString +:+ t = t.
Proof. done. Qed.

Lemma chars_app s t : chars (s +:+ t) = chars s ++ chars t.
Proof. induction s as [|c s IH]; [done|]. rewrite str_cons_app. simpl. by rewrite IH. Qed.

Lemma chars_of_chars l : chars (of_chars l) = l.
Proof. apply String.list_ascii_of_string_of_list_ascii. Qed.

Lemma of_chars_chars s : of_chars (chars s) = s.
Proof. apply String.string_of_list_ascii_of_string. Qed.

Lemma str_app_nil_r s : s +:+ EmptyString = s.
Proof. induction s as [|c s IH]; [done|]. by rewrite !str_cons_app, IH. Qed.

Lemma str_app_assoc s t u : (s +:+ t) +:+ u = s +:+ (t +:+ u).
Proof. induction s as [|c s IH]; [done|]. by rewrite !str_cons_app, IH. Qed.

Lemma strlen_app s t : strlen (s +:+ t) = strlen s + strlen t.
Proof.
  unfold strlen. induction s as [|c s IH]; [done|].
  rewrite str_cons_app. simpl String.length. lia.
Qed.

Lemma strlen_nonneg s : 0 ≤ strlen s.
Proof. unfold strlen. lia. Qed.

Lemma length_app_str s t : String.length (s +:+ t) = (String.length s + String.length t)%nat.
Proof. induction s as [|c s IH]; [done|]. simpl. by f_equal. Qed.

Lemma str_drop_app s t : str_drop (String.length s) (s +:+ t) = t.
Proof. induction s; [done|]. simpl. done. Qed.

Lemma code_range a : 0 ≤ code a < 256.
Proof. by destruct a as [[] [] [] [] [] [] [] []]. Qed.

Lemma code_of_chr n : 0 ≤ n < 256 → code (chr n) = n.
Proof.
  intros Hn. unfold code, chr. rewrite N_ascii_embedding by lia. lia.
Qed.

Lemma chr_of_code a : chr (code a) = a.
Proof. by destruct a as [[] [] [] [] [] [] [] []]. Qed.

Lemma str_take_app s t : str_take (String.length s) (s +:+ t) = s.
Proof.
  induction s as [|c s IH]; [by destruct t|]. rewrite str_cons_app. simpl. by rewrite IH.
Qed.

Lemma str_take_drop n s : str_take n s +:+ str_drop n s = s.
Proof.
  revert s. induction n as [|n IH]; intros [|c s]; try done. simpl. rewrite str_cons_app. by rewrite IH.
Qed.

(** Filling the low bits. *)
Lemma lor_low x k d : 0 ≤ k → 0 ≤ d < 2 ^ k → Z.lor (x * 2 ^ k) d = x * 2 ^ k + d.
Proof.
  intros Hk Hd. assert (d = d mod 2 ^ k) as Ed by (symmetry; by apply Z.mod_small).
  rewrite <- Z.shiftl_mul_pow2 by done. rewrite <- Z.add_nocarry_lor; [done|].
  apply Z.bits_inj'. intros n Hn. rewrite Z.land_spec, Z.bits_0.
  destruct (Z.lt_ge_cases n k).
  - by rewrite Z.shiftl_spec_low.
  - rewrite Ed, Z.mod_pow2_bits_high by lia. apply andb_false_r.
Qed.

Lemma schar_range c : -128 ≤ schar c < 128.
Proof.
  pose proof (code_range c). unfold schar. destruct (Z.ltb_spec (code c) 128); lia.
Qed.

Lemma str_drop_drop n m s : str_drop n (str_drop m s) = str_drop (m + n) s.
Proof.
  revert m. induction s as [|c s IH]; intros [|m]; simpl; try done. by destruct n.
Qed.

Lemma length_str_drop n s : (String.length (str_drop n s) ≤ String.length s)%nat.
Proof. revert n. induction s as [|c s IH]; intros [|n]; simpl; try lia. specialize (IH n). lia. Qed.

(** * Digits *)

Definition starts_outside (f : ascii → bool) (s : string) : Prop :=
  match s with
  | EmptyString => True
  | String c _ => f c = false
  end.

Lemma span_app f s t :
  Forall (λ c, f c = true) (chars s) → starts_outside f t →
  span f (s +:+ t) = (s, t).
Proof.
  induction s as [|c s IH]; intros Hs Ht.
  - destruct t as [|d t]; [done|]. simpl in *. by rewrite Ht.
  - inversion Hs as [|? ? Hc Hs']; subst. rewrite str_cons_app. simpl.
    by rewrite Hc, IH.
Qed.

Lemma digit_cases d :
  0 ≤ d < 16 →
  d = 0 ∨ d = 1 ∨ d = 2 ∨ d = 3 ∨ d = 4 ∨ d = 5 ∨ d = 6 ∨ d = 7 ∨ d = 8 ∨
  d = 9 ∨ d = 10 ∨ d = 11 ∨ d = 12 ∨ d = 13 ∨ d = 14 ∨ d = 15.
Proof. lia. Qed.

Lemma digit_char_dec up d :
  0 ≤ d < 10 →
  gu_ascii_isdigit (digit_char up d) = true ∧
  gu_ascii_digit_value (digit_char up d) = d.
Proof.
  intros Hd. pose proof (digit_cases d ltac:(lia)) as H.
  destruct up; destruct_or! H; subst d; lia || done.
Qed.

Lemma digit_char_hex up d :
  0 ≤ d < 16 →
  gu_ascii_isxdigit (digit_char up d) = true ∧
  gu_ascii_xdigit_value (digit_char up d) = d.
Proof.
  intros Hd. pose proof (digit_cases d ltac:(lia)) as H.
  destruct up; destruct_or! H; subst d; lia || done.
Qed.

Section fmt.
Context (up : bool) (b : Z) (isd : ascii → bool) (val : ascii → Z).
Context (b_ge : 2 ≤ b).
Context (digit_ok : ∀ d, 0 ≤ d < b →
  isd (digit_char up d) = true ∧ val (digit_char up d) = d).

Lemma fmt_go_digits fuel n acc :
  0 ≤ n → Forall (λ c, isd c = true) (chars acc) →
  Forall (λ c, isd c = true) (chars (fmt_go fuel up b n acc)).
Proof.
  revert n acc. induction fuel as [|fuel IH]; intros n acc Hn Hacc; [done|].
  assert (Forall (λ c, isd c = true)
            (chars (String (digit_char up (n mod b)) acc))) as Hacc'.
  { constructor; [|done]. apply digit_ok, Z.mod_pos_bound. lia. }
  simpl. destruct (n / b =? 0); [done|].
  apply IH; [|done]. apply Z.div_pos; lia.
Qed.

Lemma fmt_go_value fuel n acc :
  0 ≤ n < b ^ Z.of_nat fuel → (0 < fuel)%nat →
  fold_left (λ a c, a * b + val c) (chars (fmt_go fuel up b n acc)) 0
  = fold_left (λ a c, a * b + val c) (chars acc) n.
Proof.
  revert n acc. induction fuel as [|fuel IH]; intros n acc Hn Hf; [lia|].
  assert (val (digit_char up (n mod b)) = n mod b) as Hv.
  { apply digit_ok, Z.mod_pos_bound. lia. }
  pose proof (Z.div_mod n b ltac:(lia)) as Hdm.
  assert (0 ≤ n / b) as Hq by (apply Z.div_pos; lia).
  simpl. destruct (Z.eqb_spec (n / b) 0) as [E|E].
  - simpl. rewrite Hv. f_equal. rewrite E in Hdm. lia.
  - rewrite Nat2Z.inj_succ, Z.pow_succ_r in Hn by lia.
    assert (n / b < b ^ Z.of_nat fuel) by (apply Z.div_lt_upper_bound; lia).
    destruct fuel as [|fuel]; [simpl in *; lia|].
    rewrite IH by lia. simpl. rewrite Hv. f_equal. lia.
Qed.

Lemma fmt_fuel n : 0 ≤ n → n < b ^ Z.of_nat (Z.to_nat (Z.log2 n + 1)).
Proof.
  intros Hn. pose proof (Z.log2_nonneg n). rewrite Z2Nat.id by lia.
  apply Z.lt_le_trans with (2 ^ (Z.log2 n + 1)).
  - destruct (Z.eq_dec n 0) as [->|]; [by vm_compute|].
    apply Z.log2_spec. lia.
  - apply Z.pow_le_mono_l. lia.
Qed.

Lemma fmt_u_digits n :
  0 ≤ n → Forall (λ c, isd c = true) (chars (fmt_u up b n)).
Proof. intros Hn. apply fmt_go_digits; [done|constructor]. Qed.

Lemma fmt_u_value n : 0 ≤ n → digits_value b val (fmt_u up b n) = n.
Proof.
  intros Hn. unfold digits_value, fmt_u. pose proof (Z.log2_nonneg n).
  rewrite fmt_go_value; [done | split; [done | by apply fmt_fuel] | lia].
Qed.

Lemma fmt_go_cons fuel n acc : ∃ c s, fmt_go (S fuel) up b n acc = String c s.
Proof.
  revert n acc. induction fuel as [|fuel IH]; intros n acc.
  - simpl. destruct (_ =? 0); eauto.
  - cbn [fmt_go]. destruct (_ =? 0); [eauto|]. apply IH.
Qed.

Lemma fmt_u_cons n : 0 ≤ n → ∃ c s, fmt_u up b n = String c s ∧ isd c = true.
Proof.
  intros Hn. pose proof (fmt_u_digits n Hn) as HF. revert HF. unfold fmt_u.
  pose proof (Z.log2_nonneg n). rewrite Z2Nat.inj_add by lia.
  rewrite Nat.add_comm. change (Z.to_nat 1) with 1%nat. simpl Nat.add.
  destruct (fmt_go_cons (Z.to_nat (Z.log2 n)) n EmptyString) as (c & s & ->).
  intros HF. inversion HF; eauto.
Qed.
End fmt.

Lemma digits_value_zeros b val k s :
  val "0"%char = 0 → digits_value b val (zeros k +:+ s) = digits_value b val s.
Proof.
  intros H0. unfold digits_value. induction k as [|k IH]; [done|].
  change (zeros (S k) +:+ s) with (String "0" (zeros k +:+ s)).
  simpl. by rewrite H0.
Qed.

(** * Reading back what was printed *)

Lemma dec_digits : ∀ d, 0 ≤ d < 10 →
  gu_ascii_isdigit (digit_char false d) = true ∧
  gu_ascii_digit_value (digit_char false d) = d.
Proof. apply digit_char_dec. Qed.

Lemma hex_digits : ∀ d, 0 ≤ d < 16 →
  gu_ascii_isxdigit (digit_char true d) = true ∧
  gu_ascii_xdigit_value (digit_char true d) = d.
Proof. apply digit_char_hex. Qed.

Lemma take_sign_fmt n s :
  take_sign (fmt_d n +:+ s) =
  (if n <? 0 then -1 else 1, fmt_u false 10 (Z.abs n) +:+ s).
Proof.
  unfold fmt_d. destruct (Z.ltb_spec n 0).
  - by rewrite str_cons_app, Z.abs_neq by lia.
  - rewrite Z.abs_eq by lia.
    destruct (fmt_u_cons false 10 _ _ ltac:(lia) dec_digits n) as (c & u & -> & Hc);
      [done|].
    rewrite str_cons_app. simpl. destruct (Ascii.eqb_spec c "-"); [by subst|done].
Qed.

Lemma conv_d_fmt sp n rest :
  sp_suppress sp = false → sp_islong sp = false →
  Z.abs n ≤ int_max → starts_outside gu_ascii_isdigit rest →
  conv_d sp (fmt_d n +:+ rest)
  = Conv rest [VInt (if sp_isshort sp then i16 n else n)].
Proof.
  intros Hs Hl Hn Hr. unfold conv_d. rewrite take_sign_fmt.
  pose proof (fmt_u_digits false 10 _ _ ltac:(lia) dec_digits (Z.abs n)) as Hd.
  rewrite span_app by (done || by apply Hd; lia).
  destruct (fmt_u_cons false 10 _ _ ltac:(lia) dec_digits (Z.abs n))
    as (c & u & E & Hc); [lia|].
  rewrite E, <- E.
  rewrite (fmt_u_value false 10 _ _ ltac:(lia) dec_digits) by lia.
  rewrite Hl, Hs, (proj2 (Z.ltb_ge _ _)) by done. simpl.
  replace (Z.abs n * (if n <? 0 then -1 else 1)) with n; [done|].
  destruct (Z.ltb_spec n 0); lia.
Qed.

Lemma fmt_X_span width n rest :
  0 ≤ n → starts_outside gu_ascii_isxdigit rest →
  span gu_ascii_isxdigit (fmt_X width n +:+ rest) = (fmt_X width n, rest).
Proof.
  intros Hn Hr. apply span_app; [|done]. unfold fmt_X.
  rewrite chars_app. apply Forall_app. split.
  - induction (Z.to_nat _) as [|k IH]; constructor; [done|apply IH].
  - by apply (fmt_u_digits true 16 _ _ ltac:(lia) hex_digits).
Qed.

Lemma fmt_X_value width n :
  0 ≤ n → digits_value 16 gu_ascii_xdigit_value (fmt_X width n) = n.
Proof.
  intros Hn. unfold fmt_X. rewrite digits_value_zeros by done.
  by rewrite (fmt_u_value true 16 _ _ ltac:(lia) hex_digits).
Qed.

Lemma conv_x_fmt sp width n rest :
  sp_suppress sp = false → sp_islong sp = false → 0 ≤ n →
  starts_outside gu_ascii_isxdigit rest →
  conv_x sp (fmt_X width n +:+ rest)
  = Conv rest [VInt (if sp_isshort sp then u16 (u32 n) else u32 n)].
Proof.
  intros Hs Hl Hn Hr. unfold conv_x.
  rewrite fmt_X_span, fmt_X_value, Hl, Hs by done. done.
Qed.

(** One turn of the scanning loop, for the directives the spooler uses. *)
Lemma digit_not_space c : gu_ascii_isdigit c = true → gu_ascii_isspace c = false.
Proof. unfold gu_ascii_isdigit, gu_ascii_isspace. lia. Qed.

Lemma fmt_d_cons n : ∃ c s, fmt_d n = String c s ∧ gu_ascii_isspace c = false.
Proof.
  unfold fmt_d. destruct (Z.ltb_spec n 0) as [H|H]; [by eexists _, _|].
  destruct (fmt_u_cons false 10 _ _ ltac:(lia) dec_digits n H) as (c & u & E & Hc).
  exists c, u. split; [done|]. by apply digit_not_space.
Qed.

Section turns.
Context (f : nat) (len : Z) (va : list Z) (count : Z) (vals : list scanval).

Lemma turn_space p s :
  starts_outside gu_ascii_isspace s →
  scan_loop (S f) len (String " " p) (String " " s) va count vals
  = scan_loop f len p s va count vals.
Proof.
  intros Hs. simpl. f_equal. unfold drop_while. simpl.
  destruct s as [|c s]; [done|]. simpl in *. by rewrite Hs.
Qed.

Lemma turn_char c p s :
  Ascii.eqb c "%" = false → gu_ascii_isspace c = false →
  scan_loop (S f) len (String c p) (String c s) va count vals
  = scan_loop f len p s va count vals.
Proof. intros H1 H2. simpl. by rewrite H1, H2, Ascii.eqb_refl. Qed.

Lemma turn_d p n rest :
  Z.abs n ≤ int_max → starts_outside gu_ascii_isdigit rest →
  scan_loop (S f) len (String "%" (String "d" p)) (fmt_d n +:+ rest) va count vals
  = scan_loop f len p rest va (count + 1) (vals ++ [VInt n]).
Proof.
  intros Hn Hr. destruct (fmt_d_cons n) as (c & s & E & _).
  rewrite E, str_cons_app. cbn [scan_loop]. rewrite <- str_cons_app, <- E. simpl.
  change (convert _ _ _ _) with (conv_d (mkSpec false 0 false false) (fmt_d n +:+ rest)).
  by rewrite conv_d_fmt.
Qed.

Lemma turn_hd p n rest :
  -32768 ≤ n ≤ 32767 → starts_outside gu_ascii_isdigit rest →
  scan_loop (S f) len (String "%" (String "h" (String "d" p)))
    (fmt_d n +:+ rest) va count vals
  = scan_loop f len p rest va (count + 1) (vals ++ [VInt n]).
Proof.
  intros Hn Hr. destruct (fmt_d_cons n) as (c & s & E & _).
  rewrite E, str_cons_app. cbn [scan_loop]. rewrite <- str_cons_app, <- E. simpl.
  change (convert _ _ _ _) with (conv_d (mkSpec false 0 false true) (fmt_d n +:+ rest)).
  rewrite conv_d_fmt; [|done..| unfold int_max; lia | done].
  simpl. by rewrite i16_small by lia.
Qed.
End turns.

(** * Queue file names *)

Lemma split_last_none c s :
  Forall (λ d, Ascii.eqb c d = false) (chars s) → split_last c s = None.
Proof.
  induction s as [|d s IH]; [done|]. intros H. inversion H as [|? ? Hd Hs]; subst.
  simpl. by rewrite IH, Hd.
Qed.

Lemma split_last_app c a b :
  Forall (λ d, Ascii.eqb c d = false) (chars b) →
  split_last c (a +:+ String c b) = Some (a, b).
Proof.
  intros Hb. induction a as [|d a IH].
  - rewrite str_nil_app. simpl. by rewrite split_last_none, Ascii.eqb_refl.
  - rewrite str_cons_app. simpl. by rewrite IH.
Qed.

Lemma fmt_d_nonneg_digits n :
  0 ≤ n → Forall (λ c, gu_ascii_isdigit c = true) (chars (fmt_d n)).
Proof.
  intros Hn. unfold fmt_d. rewrite (proj2 (Z.ltb_ge _ _)) by lia.
  by apply (fmt_u_digits false 10 _ _ ltac:(lia) dec_digits).
Qed.

Lemma digit_not_hyphen c : gu_ascii_isdigit c = true → Ascii.eqb "-" c = false.
Proof. intros H. destruct (Ascii.eqb_spec "-" c); [by subst|done]. Qed.

Lemma parse_qfname_fmt destname id subid :
  0 ≤ id ≤ 32767 → 0 ≤ subid ≤ 32767 →
  parse_qfname (qfname destname id subid) = QfName destname id subid.
Proof.
  intros Hi Hs. unfold parse_qfname, qfname.
  change ("-" +:+ fmt_d id +:+ "." +:+ fmt_d subid)
    with (String "-" (fmt_d id +:+ String "." (fmt_d subid))).
  rewrite split_last_app.
  - unfold gu_sscanf. change (String.length "%hd.%hd") with 7%nat.
    generalize (strlen (fmt_d id +:+ String "." (fmt_d subid))); intros len.
    rewrite turn_hd by (lia || done).
    rewrite turn_char by done.
    rewrite <- (str_app_nil_r (fmt_d subid)) at 1.
    rewrite turn_hd by (lia || done). simpl.
    by rewrite !(proj2 (Z.ltb_ge _ _)) by lia.
  - rewrite chars_app. apply Forall_app. split; [|constructor; [done|]];
      (eapply Forall_impl; [apply fmt_d_nonneg_digits; lia | apply digit_not_hyphen]).
Qed.

(** * Padded strings *)

Lemma str_take_ge n s : (String.length s ≤ n)%nat → str_take n s = s.
Proof.
  revert n. induction s as [|c s IH]; intros [|n] H; simpl in *; try done; [lia|].
  f_equal. apply IH. lia.
Qed.

Lemma padded_split s len :
  ∃ k, ASCIIZ_to_padded s len = str_take len s +:+ spaces k.
Proof.
  revert s. induction len as [|len IH]; intros [|c s].
  - by exists O.
  - by exists O.
  - by exists (S len).
  - destruct (IH s) as [k Hk]. exists k. simpl. by rewrite Hk.
Qed.

Lemma padded_length s len : strlen (ASCIIZ_to_padded s len) = Z.of_nat len.
Proof.
  revert s. induction len as [|len IH]; intros [|c s]; try done.
  - assert (∀ k, strlen (spaces k) = Z.of_nat k) as Hk; [|apply Hk].
    intros k. induction k as [|k IHk]; [done|].
    unfold strlen in *. simpl String.length. lia.
  - specialize (IH s). unfold strlen in *. simpl String.length. lia.
Qed.

Lemma drop_while_app f s t :
  Forall (λ c, f c = true) (chars s) → drop_while f (s +:+ t) = drop_while f t.
Proof.
  unfold drop_while. induction s as [|c s IH]; intros H; [done|].
  inversion H as [|? ? Hc Hs]; subst. rewrite str_cons_app. simpl. rewrite Hc, <- IH by done.
  by destruct (span f (s +:+ t)).
Qed.

Lemma chars_spaces k : chars (spaces k) = replicate k " "%char.
Proof. induction k as [|k IH]; simpl; [done|]. by rewrite IH. Qed.

Lemma of_chars_app l l' : of_chars (l ++ l') = of_chars l +:+ of_chars l'.
Proof. induction l as [|c l IH]; simpl; [done|]. by rewrite str_cons_app, <- IH. Qed.

Lemma padded_to_ASCIIZ_spaces s k :
  padded_to_ASCIIZ (s +:+ spaces k) = padded_to_ASCIIZ s.
Proof.
  unfold padded_to_ASCIIZ. do 3 f_equal.
  rewrite chars_app, chars_spaces, rev_app_distr, of_chars_app.
  apply drop_while_app. rewrite chars_of_chars.
  apply List.Forall_rev, Forall_replicate. done.
Qed.

(** * Lengths *)

Lemma fmt_go_length up b fuel (k : nat) n acc :
  2 ≤ b → 0 ≤ n < b ^ Z.of_nat k → (1 ≤ k)%nat →
  strlen (fmt_go fuel up b n acc) ≤ Z.of_nat k + strlen acc.
Proof.
  intros Hb. revert k n acc. induction fuel as [|fuel IH]; intros k n acc Hn Hk; simpl; [lia|].
  assert (∀ c, strlen (String c acc) = 1 + strlen acc) as Hc
    by (intros c; unfold strlen; simpl String.length; lia).
  destruct (Z.eqb_spec (n / b) 0) as [|Hne]; [rewrite Hc; lia|].
  destruct k as [|[|k]]; [lia| |].
  - rewrite Z.div_small in Hne by (rewrite <- (Z.pow_1_r b); simpl in Hn; lia). done.
  - etransitivity; [apply (IH (S k)); [|lia]|rewrite Hc; lia].
    split; [apply Z.div_pos; lia|]. apply Z.div_lt_upper_bound; [lia|].
    rewrite <- Z.pow_succ_r by lia. replace (Z.succ (Z.of_nat (S k))) with (Z.of_nat (S (S k))) by lia.
    lia.
Qed.

Lemma fmt_u_length up b (k : nat) n :
  2 ≤ b → 0 ≤ n < b ^ Z.of_nat k → (1 ≤ k)%nat → strlen (fmt_u up b n) ≤ Z.of_nat k.
Proof.
  intros Hb Hn Hk. pose proof (fmt_go_length up b (Z.to_nat (Z.log2 n + 1)) k n EmptyString Hb Hn Hk).
  unfold fmt_u. change (strlen EmptyString) with 0 in *. lia.
Qed.

Lemma strlen_zeros n : strlen (zeros n) = Z.of_nat n.
Proof. unfold strlen. induction n as [|n IH]; simpl; lia. Qed.

Lemma strlen_spaces n : strlen (spaces n) = Z.of_nat n.
Proof. unfold strlen. induction n as [|n IH]; simpl; lia. Qed.

Lemma fmt_X_length (w : nat) n :
  0 ≤ n < 16 ^ Z.of_nat w → (1 ≤ w)%nat → strlen (fmt_X (Z.of_nat w) n) = Z.of_nat w.
Proof.
  intros Hn Hw. unfold fmt_X. rewrite strlen_app, strlen_zeros.
  pose proof (fmt_u_length true 16 w n ltac:(lia) Hn Hw).
  pose proof (strlen_nonneg (fmt_u true 16 n)). lia.
Qed.

Lemma fmt_X_length_Z w n : 1 ≤ w → 0 ≤ n < 16 ^ w → strlen (fmt_X w n) = w.
Proof.
  intros Hw Hn. pose proof (fmt_X_length (Z.to_nat w) n) as L.
  rewrite Z2Nat.id in L by lia. apply L; [done | lia].
Qed.

Lemma fmt_d_length n : Z.abs n ≤ int_max → strlen (fmt_d n) ≤ 11.
Proof.
  intros Hn. unfold fmt_d, int_max in *.
  assert (∀ m, 0 ≤ m ≤ 2147483647 → strlen (fmt_u false 10 m) ≤ 10) as Hu
    by (intros m Hm; apply (fmt_u_length false 10 10); [lia | simpl; lia | lia]).
  destruct (Z.ltb_spec n 0).
  - change (String "-" (fmt_u false 10 (- n))) with ("-" +:+ fmt_u false 10 (- n)).
    rewrite strlen_app. change (strlen "-") with 1. specialize (Hu (- n)). lia.
  - specialize (Hu n). lia.
Qed.

(** * More turns of the scanning loop *)

Lemma fmt_X_cons width n : 0 ≤ n → ∃ c s, fmt_X width n = String c s.
Proof.
  intros Hn. unfold fmt_X. destruct (Z.to_nat _) as [|k]; simpl.
  - destruct (fmt_u_cons true 16 _ _ ltac:(lia) hex_digits n Hn) as (c & u & -> & _).
    by exists c, u.
  - by eexists _, _.
Qed.

Section hex_turns.
Context (f : nat) (len : Z) (va : list Z) (count : Z) (vals : list scanval).

Lemma turn_x p width n rest :
  0 ≤ n → starts_outside gu_ascii_isxdigit rest →
  scan_loop (S f) len (String "%" (String "x" p)) (fmt_X width n +:+ rest) va count vals
  = scan_loop f len p rest va (count + 1) (vals ++ [VInt (u32 n)]).
Proof.
  intros Hn Hr. destruct (fmt_X_cons width n Hn) as (c & s & E).
  rewrite E, str_cons_app. cbn [scan_loop]. rewrite <- str_cons_app, <- E. simpl.
  change (convert _ _ _ _) with (conv_x (mkSpec false 0 false false) (fmt_X width n +:+ rest)).
  by rewrite conv_x_fmt.
Qed.

Lemma turn_hx p width n rest :
  0 ≤ n → starts_outside gu_ascii_isxdigit rest →
  scan_loop (S f) len (String "%" (String "h" (String "x" p))) (fmt_X width n +:+ rest) va count vals
  = scan_loop f len p rest va (count + 1) (vals ++ [VInt (u16 (u32 n))]).
Proof.
  intros Hn Hr. destruct (fmt_X_cons width n Hn) as (c & s & E).
  rewrite E, str_cons_app. cbn [scan_loop]. rewrite <- str_cons_app, <- E. simpl.
  change (convert _ _ _ _) with (conv_x (mkSpec false 0 false true) (fmt_X width n +:+ rest)).
  by rewrite conv_x_fmt.
Qed.
End hex_turns.

Lemma conv_d_long n rest :
  Z.abs n ≤ long_max → starts_outside gu_ascii_isdigit rest →
  conv_d (mkSpec false 0 true false) (fmt_d n +:+ rest) = Conv rest [VInt n].
Proof.
  intros Hn Hr. unfold conv_d. rewrite take_sign_fmt.
  pose proof (fmt_u_digits false 10 _ _ ltac:(lia) dec_digits (Z.abs n)) as Hd.
  rewrite span_app by (done || by apply Hd; lia).
  destruct (fmt_u_cons false 10 _ _ ltac:(lia) dec_digits (Z.abs n))
    as (c & u & E & Hc); [lia|].
  rewrite E, <- E.
  rewrite (fmt_u_value false 10 _ _ ltac:(lia) dec_digits) by lia.
  cbn [sp_islong sp_suppress]. rewrite (proj2 (Z.ltb_ge _ _)) by done. simpl.
  replace (Z.abs n * (if n <? 0 then -1 else 1)) with n; [done|].
  destruct (Z.ltb_spec n 0); lia.
Qed.

Definition word (s : string) : Prop :=
  s ≠ EmptyString ∧ Forall (λ c, gu_ascii_isspace c = false) (chars s).

Lemma starts_outside_fmt_d n rest : starts_outside gu_ascii_isspace (fmt_d n +:+ rest).
Proof. destruct (fmt_d_cons n) as (c & s & -> & Hc). exact Hc. Qed.

Section more_turns.
Context (f : nat) (len : Z) (va : list Z) (count : Z) (vals : list scanval).

Lemma turn_spaced p s :
  starts_outside gu_ascii_isspace s →
  scan_loop (S f) len (String " " p) (" " +:+ s) va count vals = scan_loop f len p s va count vals.
Proof. apply turn_space. Qed.

Lemma turn_d_end n :
  Z.abs n ≤ int_max →
  scan_loop (S f) len (String "%" (String "d" EmptyString)) (fmt_d n) va count vals
  = Scanned (count + 1) (vals ++ [VInt n]).
Proof.
  intros Hn. rewrite <- (str_app_nil_r (fmt_d n)), turn_d by done. by destruct f.
Qed.

Lemma turn_ld p n rest :
  Z.abs n ≤ long_max → starts_outside gu_ascii_isdigit rest →
  scan_loop (S f) len (String "%" (String "l" (String "d" p))) (fmt_d n +:+ rest) va count vals
  = scan_loop f len p rest va (count + 1) (vals ++ [VInt n]).
Proof.
  intros Hn Hr. destruct (fmt_d_cons n) as (c & s & E & _).
  rewrite E, str_cons_app. cbn [scan_loop]. rewrite <- str_cons_app, <- E. simpl.
  change (convert _ _ _ _) with (conv_d (mkSpec false 0 true false) (fmt_d n +:+ rest)).
  by rewrite conv_d_long.
Qed.

Lemma turn_u_end n :
  0 ≤ n < 4294967296 →
  scan_loop (S f) len (String "%" (String "u" EmptyString)) (fmt_u false 10 n) va count vals
  = Scanned (count + 1) (vals ++ [VInt n]).
Proof.
  intros Hn. destruct (fmt_u_cons false 10 _ _ ltac:(lia) dec_digits n) as (c & u & E & Hc); [lia|].
  rewrite E. cbn [scan_loop]. rewrite <- E. simpl.
  change (convert _ _ _ _) with (conv_u (mkSpec false 0 false false) (fmt_u false 10 n)).
  unfold conv_u.
  pose proof (span_app gu_ascii_isdigit (fmt_u false 10 n) EmptyString) as Es.
  rewrite str_app_nil_r in Es.
  rewrite Es by (done || by apply (fmt_u_digits false 10 _ _ ltac:(lia) dec_digits); lia).
  rewrite E, <- E. rewrite (fmt_u_value false 10 _ _ ltac:(lia) dec_digits) by lia.
  simpl. unfold u32. rewrite unsigned_wrap_small by done. by destruct f.
Qed.

Lemma turn_S p w rest :
  word w → starts_outside not_blank rest →
  scan_loop (S f) len (String "%" (String "S" p)) (w +:+ rest) va count vals
  = scan_loop f len p rest va (count + 1) (vals ++ [VStr w]).
Proof.
  intros [Hne Hw] Hr. destruct w as [|c w]; [done|].
  rewrite str_cons_app. cbn [scan_loop]. rewrite <- str_cons_app. simpl.
  change (convert _ _ _ _) with (conv_S (String c w +:+ rest)). unfold conv_S.
  rewrite span_app; [done | | done]. eapply Forall_impl; [exact Hw|].
  intros d Hd. unfold not_blank. apply negb_true_iff.
  destruct d as [[] [] [] [] [] [] [] []]; try reflexivity; discriminate Hd.
Qed.

Lemma turn_T_end v :
  v ≠ EmptyString → Forall (λ c, code c ≠ 10) (chars v) →
  scan_loop (S f) len (String "%" (String "T" EmptyString)) v va count vals
  = Scanned (count + 1) (vals ++ [VStr v]).
Proof.
  intros Hne Hv. destruct v as [|c v]; [done|]. cbn [scan_loop]. simpl.
  change (convert _ _ _ _) with (conv_T (String c v)). unfold conv_T.
  pose proof (span_app (λ c, negb (code c =? 10)) (String c v) EmptyString) as E.
  rewrite str_app_nil_r in E. rewrite E; [by destruct f | | done].
  eapply Forall_impl; [exact Hv|]. intros d Hd. by apply negb_true_iff, Z.eqb_neq.
Qed.
End more_turns.

(** A space at the end of a line goes. *)
Lemma rtrim_space s c : gu_ascii_isspace c = true → rtrim (s +:+ String c EmptyString) = rtrim s.
Proof.
  intros Hc. unfold rtrim. rewrite chars_app, rev_app_distr. simpl.
  unfold drop_while. simpl. rewrite Hc. by destruct (span _ _).
Qed.

Lemma code_chr n : 0 ≤ n < 256 → code (chr n) = n.
Proof.
  intros Hn. unfold code, chr. rewrite N_ascii_embedding by lia. lia.
Qed.
