(* ===== verification/Spooler.v ===== *)
(** The state of the spooler daemon pprd (src/pprd/pprd.c, pprd.h,
    include/global_structs.h): its constants, its records and arrays, the
    system around it, and the primitive operations the routines are made of. *)
From S2P Require Import Prelude.
From S2P Require Import Text.

(** * Constants (pprd.h, global_defines.h, global_structs.h, interface.h,
      respond.h, util_exits.h, pprd_media.c, pprd_question.c) *)

Definition TICK_INTERVAL : Z := 5.
Definition RETRY_MULTIPLIER : Z := 30.
Definition MIN_RETRY : Z := 600.
Definition ENGAGED_RETRY : Z := 60.
Definition MAX_ACTIVE : Z := 15.
Definition STARVING_RETRY_INTERVAL : Z := 5.
Definition ENGAGED_NAG_TIME : Z := 20.
Definition QUEUE_SIZE_INITIAL : Z := 200.
Definition QUEUE_SIZE_GROWBY : Z := 50.
Definition QUEUE_SIZE_MAX : Z := 10000.

Definition MAX_PRINTERS : Z := 250.
Definition MAX_GROUPS : Z := 150.
Definition MAX_GROUPSIZE : Z := 8.
Definition MAX_BINS : Z := 10.
Definition MAX_BINNAME : nat := 16.
Definition MAX_MEDIANAME : nat := 16.
Definition MAX_DOCMEDIA : nat := 4.
Definition MAX_MEDIA : Z := 20.
Definition MAX_ACTIVE_QUESTIONS : Z := 10.
Definition MAX_LAUNCHES_PER_TICK : Z := 3.

Definition PRNSTATUS_IDLE : Z := 0.
Definition PRNSTATUS_PRINTING : Z := 1.
Definition PRNSTATUS_CANCELING : Z := 2.
Definition PRNSTATUS_SEIZING : Z := 3.
Definition PRNSTATUS_FAULT : Z := 4.
Definition PRNSTATUS_ENGAGED : Z := 5.
Definition PRNSTATUS_STARVED : Z := 6.
Definition PRNSTATUS_STOPT : Z := 7.
Definition PRNSTATUS_STOPPING : Z := 8.
Definition PRNSTATUS_HALTING : Z := 9.
Definition PRNSTATUS_DELETED : Z := 10.
Definition PRNSTATUS_DELIBERATELY_DOWN : Z := 7.

Definition STATUS_WAITING : Z := -1.
Definition STATUS_HELD : Z := -2.
Definition STATUS_WAITING4MEDIA : Z := -3.
Definition STATUS_ARRESTED : Z := -4.
Definition STATUS_CANCEL : Z := -5.
Definition STATUS_SEIZING : Z := -6.
Definition STATUS_STRANDED : Z := -7.
Definition STATUS_FINISHED : Z := -8.
Definition STATUS_FUNDS : Z := -9.
Definition STATUS_RECEIVING : Z := -10.

Definition JOB_FLAG_QUESTION_UNANSWERED : Z := 8.
Definition JOB_FLAG_QUESTION_ASKING_NOW : Z := 16.

Definition QUEUEID_WILDCARD : Z := -1.
Definition WILDCARD_JOBID : Z := -1.
Definition WILDCARD_SUBID : Z := -1.

Definition EXIT_PRINTED : Z := 0.
Definition EXIT_PRNERR : Z := 1.
Definition EXIT_PRNERR_NORETRY : Z := 2.
Definition EXIT_JOBERR : Z := 3.
Definition EXIT_SIGNAL : Z := 4.
Definition EXIT_ENGAGED : Z := 5.
Definition EXIT_STARVED : Z := 6.
Definition EXIT_PRNERR_NORETRY_ACCESS_DENIED : Z := 7.
Definition EXIT_PRNERR_NOT_RESPONDING : Z := 8.
Definition EXIT_PRNERR_NORETRY_BAD_SETTINGS : Z := 9.
Definition EXIT_PRNERR_NO_SUCH_ADDRESS : Z := 10.
Definition EXIT_PRNERR_NORETRY_NO_SUCH_ADDRESS : Z := 11.
Definition EXIT_INCAPABLE : Z := 50.

Definition RESP_FINISHED : Z := 0.
Definition RESP_ARRESTED : Z := 1.
Definition RESP_CANCELED : Z := 2.
Definition RESP_CANCELED_PRINTING : Z := 3.
Definition RESP_CANCELED_BADDEST : Z := 4.
Definition RESP_CANCELED_REJECTING : Z := 5.
Definition RESP_STRANDED_PRINTER_INCAPABLE : Z := 9.
Definition RESP_STRANDED_GROUP_INCAPABLE : Z := 10.

Definition EXIT_OK_DATA : Z := -1.
Definition EXIT_OK : Z := 0.
Definition EXIT_BADDEST : Z := 1.
Definition EXIT_BADJOB : Z := 2.
Definition EXIT_BADBIN : Z := 3.
Definition EXIT_PRNONLY : Z := 6.
Definition EXIT_CANTWAIT : Z := 7.
Definition EXIT_ALREADY : Z := 8.
Definition EXIT_INTERNAL : Z := 10.
Definition EXIT_NOTPOSSIBLE : Z := 22.

Definition SIGTERM : Z := 15.
Definition SIGUSR1 : Z := 10.

(** * Records *)

(** [setter eta f] is the function that replaces the field [f]: the record
    rebuilt from its fields, with the new value in the place of [f]. *)
Ltac setter eta f :=
  let v := fresh "v" in
  let r := fresh "r" in
  intros v r;
  let e := eval cbv beta delta [eta] in (eta r) in
  let e' := eval pattern (f r) in e in
  lazymatch e' with
  | ?F _ => let t := eval cbv beta in (F v) in exact t
  end.

(** A queue entry as pprd stores it.  [q_media] is the array
    media[MAX_DOCMEDIA], [-1] in its unused places. *)
Record QEntry := mkQEntry {
  q_destid : Z;
  q_id : Z;
  q_subid : Z;
  q_priority : Z;
  q_sequence_number : Z;
  q_status : Z;
  q_flags : Z;
  q_resend_message_at : Z;
  q_media : list Z;
  q_pass : Z;
  q_never : Z;
  q_notnow : Z;
}.

Definition eta_QEntry (r : QEntry) : QEntry :=
  mkQEntry (q_destid r) (q_id r) (q_subid r) (q_priority r)
    (q_sequence_number r) (q_status r) (q_flags r) (q_resend_message_at r)
    (q_media r) (q_pass r) (q_never r) (q_notnow r).

Definition set_q_destid : Z → QEntry → QEntry :=
  ltac:(setter eta_QEntry q_destid).
Definition set_q_priority : Z → QEntry → QEntry :=
  ltac:(setter eta_QEntry q_priority).
Definition set_q_status : Z → QEntry → QEntry :=
  ltac:(setter eta_QEntry q_status).
Definition set_q_flags : Z → QEntry → QEntry :=
  ltac:(setter eta_QEntry q_flags).
Definition set_q_resend_message_at : Z → QEntry → QEntry :=
  ltac:(setter eta_QEntry q_resend_message_at).
Definition set_q_pass : Z → QEntry → QEntry :=
  ltac:(setter eta_QEntry q_pass).
Definition set_q_never : Z → QEntry → QEntry :=
  ltac:(setter eta_QEntry q_never).
Definition set_q_notnow : Z → QEntry → QEntry :=
  ltac:(setter eta_QEntry q_notnow).

(** What is kept of a printer over a restart.  A gu_boolean is an int: the
    file the structure is read back from may hold any. *)
Record PRINTER_SPOOL_STATE := mkPState {
  ps_accepting : Z;
  ps_previous_status : Z;
  ps_status : Z;
  ps_next_error_retry : Z;
  ps_next_engaged_retry : Z;
  ps_countdown : Z;
  ps_printer_state_change_time : Z;
  ps_protected : Z;
  ps_job_count : Z;
}.

Definition eta_PRINTER_SPOOL_STATE (r : PRINTER_SPOOL_STATE) : PRINTER_SPOOL_STATE :=
  mkPState (ps_accepting r) (ps_previous_status r) (ps_status r)
    (ps_next_error_retry r) (ps_next_engaged_retry r) (ps_countdown r)
    (ps_printer_state_change_time r) (ps_protected r) (ps_job_count r).

Definition set_ps_accepting : Z → PRINTER_SPOOL_STATE → PRINTER_SPOOL_STATE :=
  ltac:(setter eta_PRINTER_SPOOL_STATE ps_accepting).
Definition set_ps_previous_status : Z → PRINTER_SPOOL_STATE → PRINTER_SPOOL_STATE :=
  ltac:(setter eta_PRINTER_SPOOL_STATE ps_previous_status).
Definition set_ps_status : Z → PRINTER_SPOOL_STATE → PRINTER_SPOOL_STATE :=
  ltac:(setter eta_PRINTER_SPOOL_STATE ps_status).
Definition set_ps_next_error_retry : Z → PRINTER_SPOOL_STATE → PRINTER_SPOOL_STATE :=
  ltac:(setter eta_PRINTER_SPOOL_STATE ps_next_error_retry).
Definition set_ps_next_engaged_retry : Z → PRINTER_SPOOL_STATE → PRINTER_SPOOL_STATE :=
  ltac:(setter eta_PRINTER_SPOOL_STATE ps_next_engaged_retry).
Definition set_ps_countdown : Z → PRINTER_SPOOL_STATE → PRINTER_SPOOL_STATE :=
  ltac:(setter eta_PRINTER_SPOOL_STATE ps_countdown).
Definition set_ps_printer_state_change_time : Z → PRINTER_SPOOL_STATE → PRINTER_SPOOL_STATE :=
  ltac:(setter eta_PRINTER_SPOOL_STATE ps_printer_state_change_time).
Definition set_ps_protected : Z → PRINTER_SPOOL_STATE → PRINTER_SPOOL_STATE :=
  ltac:(setter eta_PRINTER_SPOOL_STATE ps_protected).
Definition set_ps_job_count : Z → PRINTER_SPOOL_STATE → PRINTER_SPOOL_STATE :=
  ltac:(setter eta_PRINTER_SPOOL_STATE ps_job_count).

(** What is kept of a group over a restart. *)
Record GROUP_SPOOL_STATE := mkGState {
  gs_accepting : Z;
  gs_held : Z;
  gs_printer_state_change_time : Z;
  gs_protected : Z;
  gs_job_count : Z;
}.

Definition eta_GROUP_SPOOL_STATE (r : GROUP_SPOOL_STATE) : GROUP_SPOOL_STATE :=
  mkGState (gs_accepting r) (gs_held r) (gs_printer_state_change_time r)
    (gs_protected r) (gs_job_count r).

Definition set_gs_accepting : Z → GROUP_SPOOL_STATE → GROUP_SPOOL_STATE :=
  ltac:(setter eta_GROUP_SPOOL_STATE gs_accepting).
Definition set_gs_held : Z → GROUP_SPOOL_STATE → GROUP_SPOOL_STATE :=
  ltac:(setter eta_GROUP_SPOOL_STATE gs_held).
Definition set_gs_printer_state_change_time : Z → GROUP_SPOOL_STATE → GROUP_SPOOL_STATE :=
  ltac:(setter eta_GROUP_SPOOL_STATE gs_printer_state_change_time).
Definition set_gs_protected : Z → GROUP_SPOOL_STATE → GROUP_SPOOL_STATE :=
  ltac:(setter eta_GROUP_SPOOL_STATE gs_protected).
Definition set_gs_job_count : Z → GROUP_SPOOL_STATE → GROUP_SPOOL_STATE :=
  ltac:(setter eta_GROUP_SPOOL_STATE gs_job_count).

(** Printer alert settings; a NULL pointer is [None]. *)
Record ALERT := mkAlert {
  al_interval : Z;
  al_method : option string;
  al_address : option string;
}.

(** A printer.  [p_bins] holds bins[] and media[] side by side, so nbins is
    its length; a media id of [-1] is an empty bin. *)
Record Printer := mkPrinter {
  p_name : option string;
  p_spool_state : PRINTER_SPOOL_STATE;
  p_alert : ALERT;
  p_charge_per_duplex : Z;
  p_charge_per_simplex : Z;
  p_bins : list (string * Z);
  p_AutoSelect_exists : bool;
  p_cancel_job : bool;
  p_hold_job : bool;
  p_job_pid : Z;
  p_job_destid : Z;
  p_job_id : Z;
  p_job_subid : Z;
  p_ppop_pid : Z;
}.

Definition eta_Printer (r : Printer) : Printer :=
  mkPrinter (p_name r) (p_spool_state r) (p_alert r) (p_charge_per_duplex r)
    (p_charge_per_simplex r) (p_bins r) (p_AutoSelect_exists r)
    (p_cancel_job r) (p_hold_job r) (p_job_pid r) (p_job_destid r)
    (p_job_id r) (p_job_subid r) (p_ppop_pid r).

Definition set_p_name : option string → Printer → Printer :=
  ltac:(setter eta_Printer p_name).
Definition set_p_spool_state : PRINTER_SPOOL_STATE → Printer → Printer :=
  ltac:(setter eta_Printer p_spool_state).
Definition set_p_alert : ALERT → Printer → Printer :=
  ltac:(setter eta_Printer p_alert).
Definition set_p_charge_per_duplex : Z → Printer → Printer :=
  ltac:(setter eta_Printer p_charge_per_duplex).
Definition set_p_charge_per_simplex : Z → Printer → Printer :=
  ltac:(setter eta_Printer p_charge_per_simplex).
Definition set_p_bins : list (string * Z) → Printer → Printer :=
  ltac:(setter eta_Printer p_bins).
Definition set_p_AutoSelect_exists : bool → Printer → Printer :=
  ltac:(setter eta_Printer p_AutoSelect_exists).
Definition set_p_cancel_job : bool → Printer → Printer :=
  ltac:(setter eta_Printer p_cancel_job).
Definition set_p_hold_job : bool → Printer → Printer :=
  ltac:(setter eta_Printer p_hold_job).
Definition set_p_job_pid : Z → Printer → Printer :=
  ltac:(setter eta_Printer p_job_pid).
Definition set_p_job_destid : Z → Printer → Printer :=
  ltac:(setter eta_Printer p_job_destid).
Definition set_p_job_id : Z → Printer → Printer :=
  ltac:(setter eta_Printer p_job_id).
Definition set_p_job_subid : Z → Printer → Printer :=
  ltac:(setter eta_Printer p_job_subid).
Definition set_p_ppop_pid : Z → Printer → Printer :=
  ltac:(setter eta_Printer p_ppop_pid).

(** A group.  [g_printers] is printers[], so members is its length. *)
Record Group := mkGroup {
  g_name : option string;
  g_spool_state : GROUP_SPOOL_STATE;
  g_printers : list Z;
  g_last : Z;
  g_rotate : bool;
  g_deleted : bool;
}.

Definition eta_Group (r : Group) : Group :=
  mkGroup (g_name r) (g_spool_state r) (g_printers r) (g_last r) (g_rotate r)
    (g_deleted r).

Definition set_g_name : option string → Group → Group :=
  ltac:(setter eta_Group g_name).
Definition set_g_spool_state : GROUP_SPOOL_STATE → Group → Group :=
  ltac:(setter eta_Group g_spool_state).
Definition set_g_printers : list Z → Group → Group :=
  ltac:(setter eta_Group g_printers).
Definition set_g_last : Z → Group → Group := ltac:(setter eta_Group g_last).
Definition set_g_rotate : bool → Group → Group :=
  ltac:(setter eta_Group g_rotate).
Definition set_g_deleted : bool → Group → Group :=
  ltac:(setter eta_Group g_deleted).

(** A slot of active_question[]. *)
Record active_question_slot := mkAQ {
  aq_pid : Z;
  aq_destid : Z;
  aq_id : Z;
  aq_subid : Z;
}.

(** The daemon's variables.  queue_entries, printer_count, group_count and
    media_count are the lengths of the lists.  [t_newent] is the automatic
    variable newent of queue_accept_queuefile(), the one job structure outside
    the queue array; [t_reply_file] says whether reply_file is open. *)
Record tables := mkTables {
  t_queue : list QEntry;
  t_queue_size : Z;
  t_printers : list Printer;
  t_groups : list Group;
  t_media : list string;
  t_active_printers : Z;
  t_starving_printers : Z;
  t_lock_level : Z;
  t_hungry_countdown : Z;
  t_hungry_x : Z;
  t_active_question : list active_question_slot;
  t_active_questions : Z;
  t_launches_this_tick : Z;
  t_outstanding_questions : Z;
  t_newent : QEntry;
  t_reply_pid : Z;
  t_reply_file : bool;
}.

Definition eta_tables (r : tables) : tables :=
  mkTables (t_queue r) (t_queue_size r) (t_printers r) (t_groups r)
    (t_media r) (t_active_printers r) (t_starving_printers r) (t_lock_level r)
    (t_hungry_countdown r) (t_hungry_x r) (t_active_question r)
    (t_active_questions r) (t_launches_this_tick r)
    (t_outstanding_questions r) (t_newent r) (t_reply_pid r) (t_reply_file r).

Definition set_t_queue : list QEntry → tables → tables :=
  ltac:(setter eta_tables t_queue).
Definition set_t_queue_size : Z → tables → tables :=
  ltac:(setter eta_tables t_queue_size).
Definition set_t_printers : list Printer → tables → tables :=
  ltac:(setter eta_tables t_printers).
Definition set_t_groups : list Group → tables → tables :=
  ltac:(setter eta_tables t_groups).
Definition set_t_media : list string → tables → tables :=
  ltac:(setter eta_tables t_media).
Definition set_t_active_printers : Z → tables → tables :=
  ltac:(setter eta_tables t_active_printers).
Definition set_t_starving_printers : Z → tables → tables :=
  ltac:(setter eta_tables t_starving_printers).
Definition set_t_lock_level : Z → tables → tables :=
  ltac:(setter eta_tables t_lock_level).
Definition set_t_hungry_countdown : Z → tables → tables :=
  ltac:(setter eta_tables t_hungry_countdown).
Definition set_t_hungry_x : Z → tables → tables :=
  ltac:(setter eta_tables t_hungry_x).
Definition set_t_active_question : list active_question_slot → tables → tables :=
  ltac:(setter eta_tables t_active_question).
Definition set_t_active_questions : Z → tables → tables :=
  ltac:(setter eta_tables t_active_questions).
Definition set_t_launches_this_tick : Z → tables → tables :=
  ltac:(setter eta_tables t_launches_this_tick).
Definition set_t_outstanding_questions : Z → tables → tables :=
  ltac:(setter eta_tables t_outstanding_questions).
Definition set_t_newent : QEntry → tables → tables :=
  ltac:(setter eta_tables t_newent).
Definition set_t_reply_pid : Z → tables → tables :=
  ltac:(setter eta_tables t_reply_pid).
Definition set_t_reply_file : bool → tables → tables :=
  ltac:(setter eta_tables t_reply_file).

(** * What the daemon is built with, and finds

    The constants of config.h, which Configure writes.  [to_cents] is the C
    expression (int)(x * 100.0 + 0.5) on a number that [%f] read: the platform's
    floating point rounds it.  [printers_memory] is what gu_alloc() leaves in a
    slot of printers[] that was never used. *)
Class PPRConfig := {
  QUEUEDIR : string;
  DATADIR : string;
  PRCONF : string;
  GRCONF : string;
  PRINTERS_PERSISTENT_STATEDIR : string;
  PRINTERS_PURGABLE_STATEDIR : string;
  GROUPS_PERSISTENT_STATEDIR : string;
  TEMPDIR : string;
  USER_PPR : string;
  to_cents : scanval → Z;
  printers_memory : Printer;
}.

(** What the daemon does to the rest of the system, in order.  A format ends in
    a newline where the source's does; it is left out here, and one inside a
    format is written as a blank. *)
Inductive event :=
| EvState (fmt : string) (args : list farg)
| EvError (fmt : string) (args : list farg)
| EvDebug (fmt : string) (args : list farg)
| EvStderr (fmt : string) (args : list farg)
| EvAlert (printer : string) (dateflag : bool) (fmt : string) (args : list farg)
| EvReply (fmt : string) (args : list farg)
| EvReplyFile (content : string)
| EvKill (pid signal : Z)
| EvExec (program : string) (argv : list farg)
| EvMail (address : string) (fmt : string) (args : list farg).

(** The system around the daemon: the files by name, the names that can't be
    opened for writing, the results fork(), pipe() and kill() will have, the
    clock, the inode change times, the size of jobid()'s buffer, and what was
    done so far. *)
Record world := mkWorld {
  w_files : gmap string string;
  w_denied : gset string;
  w_syscalls : list Z;
  w_now : Z;
  w_ctimes : gmap string Z;
  w_jobid_size : Z;
  w_trace : list event;
}.

Definition eta_world (r : world) : world :=
  mkWorld (w_files r) (w_denied r) (w_syscalls r) (w_now r) (w_ctimes r)
    (w_jobid_size r) (w_trace r).

Definition set_w_files : gmap string string → world → world :=
  ltac:(setter eta_world w_files).
Definition set_w_syscalls : list Z → world → world :=
  ltac:(setter eta_world w_syscalls).
Definition set_w_now : Z → world → world := ltac:(setter eta_world w_now).
Definition set_w_jobid_size : Z → world → world :=
  ltac:(setter eta_world w_jobid_size).
Definition set_w_trace : list event → world → world :=
  ltac:(setter eta_world w_trace).

Record pprd := mkPprd {
  tb : tables;
  io : world;
}.

Definition on_tb (f : tables → tables) (s : pprd) : pprd := mkPprd (f (tb s)) (io s).

Definition on_io (f : world → world) (s : pprd) : pprd := mkPprd (tb s) (f (io s)).

Definition P : Type → Type := M pprd.

(** * Views of the state *)

Definition queue (s : pprd) : list QEntry := t_queue (tb s).
Definition printers (s : pprd) : list Printer := t_printers (tb s).
Definition groups (s : pprd) : list Group := t_groups (tb s).
Definition media (s : pprd) : list string := t_media (tb s).
Definition queue_entries (s : pprd) : Z := Z.of_nat (length (queue s)).
Definition printer_count (s : pprd) : Z := Z.of_nat (length (printers s)).
Definition group_count (s : pprd) : Z := Z.of_nat (length (groups s)).
Definition media_count (s : pprd) : Z := Z.of_nat (length (media s)).

Definition p_status (p : Printer) : Z := ps_status (p_spool_state p).
Definition p_nbins (p : Printer) : Z := Z.of_nat (length (p_bins p)).
Definition g_members (g : Group) : Z := Z.of_nat (length (g_printers g)).

Definition truth (b : Z) : bool := negb (b =? 0).
Definition of_bool (b : bool) : Z := if b then 1 else 0.

(** * Primitive operations *)

Definition modify_tb (f : tables → tables) : P unit := modify (on_tb f).
Definition modify_io (f : world → world) : P unit := modify (on_io f).

Definition emit (e : event) : P unit :=
  modify_io (λ w, set_w_trace (w_trace w ++ [e]) w).

Definition state_update (fmt : string) (args : list farg) : P unit :=
  emit (EvState fmt args).
Definition error (fmt : string) (args : list farg) : P unit :=
  emit (EvError fmt args).
Definition debug (fmt : string) (args : list farg) : P unit :=
  emit (EvDebug fmt args).
Definition fprintf_reply (fmt : string) (args : list farg) : P unit :=
  emit (EvReply fmt args).

(** The next result of a system call; [-1] when the supply is used up. *)
Definition syscall : P Z := λ s,
  Done (hd (-1) (w_syscalls (io s)))
       (on_io (λ w, set_w_syscalls (tl (w_syscalls w)) w) s).

Definition time : P Z := gets (λ s, w_now (io s)).

(** lock() and unlock() (pprd.c) only count. *)
Definition lock : P unit :=
  modify_tb (λ t, set_t_lock_level (t_lock_level t + 1) t).
Definition unlock : P unit :=
  modify_tb (λ t, set_t_lock_level (t_lock_level t - 1) t).

(** An array access: C does not check the index. *)
Definition at_index {A} (l : list A) (i : Z) : option A :=
  if 0 <=? i then l !! Z.to_nat i else None.

Definition upd_index {A} (i : Z) (f : A → A) (l : list A) : list A :=
  alter f (Z.to_nat i) l.

Definition get_printer (i : Z) : P Printer := λ s,
  match at_index (printers s) i with
  | Some p => Done p s
  | None => Stopped (SUndef "printers[] out of bounds")
  end.

Definition upd_printer (i : Z) (f : Printer → Printer) : P unit :=
  get_printer i;;
  modify_tb (λ t, set_t_printers (upd_index i f (t_printers t)) t).

Definition upd_pstate (i : Z) (f : PRINTER_SPOOL_STATE → PRINTER_SPOOL_STATE) : P unit :=
  upd_printer i (λ p, set_p_spool_state (f (p_spool_state p)) p).

(** groups[] is calloc()ed: what lies beyond group_count is zero. *)
Definition zero_group : Group :=
  mkGroup None (mkGState 0 0 0 0 0) [] 0 false false.

Definition get_group (i : Z) : P Group := λ s,
  if (0 <=? i) && (i <? MAX_GROUPS) then
    Done (default zero_group (groups s !! Z.to_nat i)) s
  else Stopped (SUndef "groups[] out of bounds").

Definition upd_group (i : Z) (f : Group → Group) : P unit :=
  get_group i;;
  modify_tb (λ t, set_t_groups (upd_index i f (t_groups t)) t).

Definition upd_gstate (i : Z) (f : GROUP_SPOOL_STATE → GROUP_SPOOL_STATE) : P unit :=
  upd_group i (λ g, set_g_spool_state (f (g_spool_state g)) g).

(** A pointer to a job structure: into the queue array, or to newent. *)
Inductive jobptr :=
| Jq (x : Z)
| Jnew.

Definition job_get (j : jobptr) : P QEntry := λ s,
  match j with
  | Jnew => Done (t_newent (tb s)) s
  | Jq x =>
      match at_index (queue s) x with
      | Some e => Done e s
      | None => Stopped (SUndef "queue[] out of bounds")
      end
  end.

Definition job_upd (j : jobptr) (f : QEntry → QEntry) : P unit :=
  job_get j;;
  match j with
  | Jnew => modify_tb (λ t, set_t_newent (f (t_newent t)) t)
  | Jq x => modify_tb (λ t, set_t_queue (upd_index x f (t_queue t)) t)
  end.

(** for(x = 0; x < queue_entries; x++), in the loops that leave when they
    change the length. *)
Definition for_queue {B} (body : Z → P (option B)) : P (option B) :=
  n ← gets queue;
  for_loop (length n) 0 body.

Definition is_job (destid id subid : Z) (e : QEntry) : bool :=
  (q_destid e =? destid) && (q_id e =? id) && (q_subid e =? subid).

(** A NULL pointer where a string is needed. *)
Definition cstr (s : option string) : P string :=
  match s with
  | Some x => mret x
  | None => undef "NULL string"
  end.

(** * Files *)

Definition fname (pattern : string) (va : list farg) : P string :=
  match ppr_fnamef pattern va with
  | Fname n => mret n
  | FnameThrow msg => gu_Throw msg
  end.

Definition read_file (n : string) : P (option string) :=
  gets (λ s, w_files (io s) !! n).

(** Can the file be opened for writing, by open() or fopen()? *)
Definition writable (n : string) : P bool :=
  gets (λ s, negb (bool_decide (n ∈ w_denied (io s)))).

Definition set_file (n content : string) : P unit :=
  modify_io (λ w, set_w_files (<[n := content]> (w_files w)) w).

Definition unlink (n : string) : P unit :=
  modify_io (λ w, set_w_files (delete n (w_files w)) w).

(** rename() fails when the old name does not exist. *)
Definition rename (old new : string) : P unit :=
  modify_io (λ w,
    match w_files w !! old with
    | Some c => set_w_files (<[new := c]> (delete old (w_files w))) w
    | None => w
    end).

(** open(O_RDWR), write() over the start, close(). *)
Definition overwrite (old new : string) : string :=
  new +:+ str_drop (String.length new) old.

(** kill() with its result. *)
Definition kill (pid sig : Z) : P Z :=
  emit (EvKill pid sig);; syscall.

(** fork() as its parent sees it: a process id, or [-1].  The child's side is
    recorded where the parent forks, as the program the child becomes. *)
Definition fork : P Z :=
  v ← syscall;
  mret (if 0 <? v then v else -1).

(** * Job ids *)

Definition jobid_str (destname : string) (id subid : Z) : P string := λ s,
  let '(str, size) := jobid (w_jobid_size (io s)) destname id subid in
  Done str (on_io (set_w_jobid_size size) s).
