(* ===== verification/SpoolerFacts.v ===== *)
(** Weakest preconditions of the primitive operations of Spooler.v, and facts
    about C arrays. *)
From S2P Require Import Prelude.
From S2P Require Import Text.
From S2P Require Import Spooler.

(** * Arrays *)

Lemma at_index_Some {A} (l : list A) i a :
  at_index l i = Some a ↔ 0 ≤ i ∧ l !! Z.to_nat i = Some a.
Proof.
  unfold at_index. destruct (Z.leb_spec 0 i); split; intros E;
    [done | by destruct E | done | lia].
Qed.

Lemma at_index_lt {A} (l : list A) i a :
  at_index l i = Some a → 0 ≤ i < Z.of_nat (length l).
Proof. intros [Hi E%lookup_lt_Some]%at_index_Some. lia. Qed.

Lemma at_index_ge {A} (l : list A) i :
  0 ≤ i < Z.of_nat (length l) → is_Some (at_index l i).
Proof.
  intros Hi. unfold at_index. destruct (Z.leb_spec 0 i); [|lia].
  apply lookup_lt_is_Some_2. lia.
Qed.

Lemma at_index_upd {A} (l : list A) i f a :
  at_index l i = Some a → at_index (upd_index i f l) i = Some (f a).
Proof.
  intros [Hi E]%at_index_Some. apply at_index_Some. split; [done|].
  unfold upd_index. by rewrite list_lookup_alter_eq, E.
Qed.

Lemma at_index_upd_ne {A} (l : list A) i j f :
  0 ≤ i → i ≠ j → at_index (upd_index i f l) j = at_index l j.
Proof.
  intros Hi Hij. unfold at_index, upd_index. destruct (Z.leb_spec 0 j); [|done].
  apply list_lookup_alter_ne. lia.
Qed.

Lemma upd_index_compose {A} x (f g : A → A) l :
  upd_index x f (upd_index x g l) = upd_index x (λ a, f (g a)) l.
Proof.
  unfold upd_index. generalize (Z.to_nat x). induction l as [|b l IH]; [done|].
  intros [|n]; [done|]. exact (f_equal (cons b) (IH n)).
Qed.

Lemma length_upd_index {A} (l : list A) i f : length (upd_index i f l) = length l.
Proof. apply length_alter. Qed.

(** * The primitive operations *)

Lemma wp_get_printer i Q X F s :
  (∀ p, at_index (printers s) i = Some p → Q p s) →
  (at_index (printers s) i = None → F (SUndef "printers[] out of bounds")) →
  wp (get_printer i) Q X F s.
Proof.
  intros HQ HF. unfold wp, get_printer.
  destruct (at_index (printers s) i); auto.
Qed.

Lemma wp_upd_printer i f (Q : unit → pprd → Prop) X F s :
  (∀ p, at_index (printers s) i = Some p →
    Q tt (on_tb (λ t, set_t_printers (upd_index i f (t_printers t)) t) s)) →
  (at_index (printers s) i = None → F (SUndef "printers[] out of bounds")) →
  wp (upd_printer i f) Q X F s.
Proof.
  intros HQ HF. apply wp_bind, wp_get_printer; [|done].
  intros p Hp. apply wp_modify. eauto.
Qed.

Lemma wp_get_group i Q X F s :
  (0 ≤ i < MAX_GROUPS → Q (default zero_group (groups s !! Z.to_nat i)) s) →
  (¬ 0 ≤ i < MAX_GROUPS → F (SUndef "groups[] out of bounds")) →
  wp (get_group i) Q X F s.
Proof.
  intros HQ HF. unfold wp, get_group.
  destruct ((0 <=? i) && (i <? MAX_GROUPS)) eqn:E.
  - apply andb_true_iff in E as [? ?]. apply HQ. lia.
  - apply HF. intros ?. apply andb_false_iff in E. lia.
Qed.

Lemma wp_upd_group i f (Q : unit → pprd → Prop) X F s :
  (0 ≤ i < MAX_GROUPS →
    Q tt (on_tb (λ t, set_t_groups (upd_index i f (t_groups t)) t) s)) →
  (¬ 0 ≤ i < MAX_GROUPS → F (SUndef "groups[] out of bounds")) →
  wp (upd_group i f) Q X F s.
Proof.
  intros HQ HF. apply wp_bind, wp_get_group; [|done].
  intros Hi. apply wp_modify. eauto.
Qed.

Lemma wp_job_get_q x Q X F s :
  (∀ e, at_index (queue s) x = Some e → Q e s) →
  (at_index (queue s) x = None → F (SUndef "queue[] out of bounds")) →
  wp (job_get (Jq x)) Q X F s.
Proof.
  intros HQ HF. unfold wp, job_get. destruct (at_index (queue s) x); auto.
Qed.

Lemma wp_job_get_new Q X F s :
  Q (t_newent (tb s)) s → wp (job_get Jnew) Q X F s.
Proof. done. Qed.

Lemma wp_job_upd_q x f (Q : unit → pprd → Prop) X F s :
  (∀ e, at_index (queue s) x = Some e →
    Q tt (on_tb (λ t, set_t_queue (upd_index x f (t_queue t)) t) s)) →
  (at_index (queue s) x = None → F (SUndef "queue[] out of bounds")) →
  wp (job_upd (Jq x) f) Q X F s.
Proof.
  intros HQ HF. apply wp_bind, wp_job_get_q; [|done].
  intros e He. apply wp_modify. eauto.
Qed.

Lemma wp_job_upd_new f (Q : unit → pprd → Prop) X F s :
  Q tt (on_tb (λ t, set_t_newent (f (t_newent t)) t) s) →
  wp (job_upd Jnew f) Q X F s.
Proof. done. Qed.

Lemma wp_job_get j Q X F s :
  (∀ e, Q e s) → (∀ r, F r) → wp (job_get j) Q X F s.
Proof. intros HQ HF. destruct j; [apply wp_job_get_q | apply wp_job_get_new]; auto. Qed.

Lemma wp_syscall Q X F s :
  (∀ v s', tb s' = tb s → Q v s') → wp syscall Q X F s.
Proof. intros HQ. by apply HQ. Qed.

(** fork() gives its parent a process id or [-1]. *)
Lemma wp_fork Q X F s :
  (∀ pid s', tb s' = tb s → pid = -1 ∨ 0 < pid → Q pid s') → wp fork Q X F s.
Proof.
  intros HQ. apply wp_bind, wp_syscall. intros v s' E. apply wp_ret, HQ; [done|].
  destruct (Z.ltb_spec 0 v); [by right | by left].
Qed.

(** * Looking for a job *)

(** The loops that act on the first job that passes a test: the state is as it
    was until there is one. *)
Lemma wp_first_job {B} (test : QEntry → bool) (body : Z → P (option B)) Q X F s :
  (∀ x e, at_index (queue s) x = Some e → test e = true →
    Forall (λ e', test e' = false) (take (Z.to_nat x) (queue s)) →
    wp (body x) (λ r s', match r with Some b => Q (Some b) s' | None => False end) X F s) →
  (Forall (λ e, test e = false) (queue s) → Q None s) →
  wp (for_queue (λ x, e ← job_get (Jq x); if test e then body x else mret None)) Q X F s.
Proof.
  intros Hbody Hnone. apply wp_bind, wp_gets.
  apply (wp_for (λ x s', s' = s ∧ 0 ≤ x ∧
    Forall (λ e, test e = false) (take (Z.to_nat x) (queue s)))).
  - repeat split; [lia | constructor].
  - intros x s' Hx (-> & _ & Hbefore). apply wp_bind, wp_job_get_q.
    + intros e He. destruct (test e) eqn:Ht.
      * eapply wp_mono; [by apply (Hbody x e) | | auto | auto]. by intros [b|] s'.
      * apply wp_ret. repeat split; [lia|]. apply at_index_Some in He as [_ He].
        replace (Z.to_nat (x + 1)) with (S (Z.to_nat x)) by lia.
        rewrite (take_S_r _ _ e He). apply Forall_app. by repeat constructor.
    + intros Hno. destruct (at_index_ge (queue s) x) as [e He]; [lia | congruence].
  - intros s' (-> & _ & Hall). apply Hnone.
    rewrite firstn_all2 in Hall by lia. done.
Qed.

Lemma is_job_true d i j e :
  is_job d i j e = true ↔ q_destid e = d ∧ q_id e = i ∧ q_subid e = j.
Proof. unfold is_job. rewrite !andb_true_iff, !Z.eqb_eq. tauto. Qed.

(** The loops that only look for the job. *)
Lemma wp_find_job (test : QEntry → bool) (Q : option Z → pprd → Prop) X F s :
  (∀ x e, at_index (queue s) x = Some e → test e = true →
    Forall (λ e', test e' = false) (take (Z.to_nat x) (queue s)) → Q (Some x) s) →
  (Forall (λ e, test e = false) (queue s) → Q None s) →
  wp (for_queue (λ x, e ← job_get (Jq x); mret (if test e then Some x else None))) Q X F s.
Proof.
  intros Hfound Hnone.
  assert (for_queue (λ x, e ← job_get (Jq x); mret (if test e then Some x else None)) s
          = for_queue (λ x, e ← job_get (Jq x); if test e then mret (Some x) else mret None) s)
    as E.
  { unfold for_queue, mbind, M_bind, gets. generalize (length (queue s)) 0.
    intros n. induction n as [|n IH]; intros z; [done|].
    simpl. unfold mbind, M_bind. destruct (at_index (queue s) z) as [e|]; [|done].
    destruct (test e); [done|]. simpl. apply IH. }
  unfold wp. rewrite E. apply wp_first_job; [|done]. intros x e He Ht Hb. by apply (Hfound x e).
Qed.
