(* ===== verification/Destid.v ===== *)
(** Destination ids (src/pprd/pprd_destid.c): printers are numbered from 0,
    groups from MAX_PRINTERS. *)
From S2P Require Import Prelude.
From S2P Require Import Text.
From S2P Require Import Spooler.
From S2P Require Import SpoolerFacts.

(** printers IDs run from 0 to (printer_count - 1) *)
Definition destid_is_group (s : pprd) (id : Z) : bool := printer_count s <=? id.

Definition destid_is_printer (s : pprd) (id : Z) : bool := id <? printer_count s.

Definition destid_to_gindex (destid : Z) : P Z :=
  let answer := destid - MAX_PRINTERS in
  if (answer <? 0) || (MAX_GROUPS <=? answer)
  then fatal 1 "destid_to_gindex(): assertion failed"
  else mret answer.

Definition destid_by_gindex (gindex : Z) : P Z :=
  if (gindex <? 0) || (MAX_GROUPS <=? gindex)
  then fatal 1 "destid_by_gindex(): assertion failed"
  else mret (gindex + MAX_PRINTERS).

Definition is_group (destid : Z) : P bool := gets (λ s, destid_is_group s destid).

Definition invalid_name : string := "<invalid>".

Definition destid_to_name (destid : Z) : P string :=
  g ← is_group destid;
  if (g : bool) then
    group_index ← destid_to_gindex destid;
    n ← gets group_count;
    if group_index <? n then
      gr ← get_group group_index;
      if g_deleted gr then mret invalid_name else cstr (g_name gr)
    else mret invalid_name
  else
    n ← gets printer_count;
    if (0 <=? destid) && (destid <? n) then
      p ← get_printer destid;
      if p_status p =? PRNSTATUS_DELETED then mret invalid_name
      else cstr (p_name p)
    else mret invalid_name.

(** The search loops; [x] is the index of the head of the list. *)
Fixpoint find_printer (l : list Printer) (x : Z) (name : string) : P Z :=
  match l with
  | [] => mret (-1)
  | p :: l' =>
      if p_status p =? PRNSTATUS_DELETED then find_printer l' (x + 1) name
      else
        n ← cstr (p_name p);
        if String.eqb n name then mret x else find_printer l' (x + 1) name
  end.

Fixpoint find_group (l : list Group) (x : Z) (name : string) : P Z :=
  match l with
  | [] => mret (-1)
  | g :: l' =>
      if g_deleted g then find_group l' (x + 1) name
      else
        n ← cstr (g_name g);
        if String.eqb n name then destid_by_gindex x
        else find_group l' (x + 1) name
  end.

Definition destid_by_printer (name : string) : P Z :=
  l ← gets printers; find_printer l 0 name.

Definition destid_by_group (name : string) : P Z :=
  l ← gets groups; find_group l 0 name.

(** A group hides a printer of the same name. *)
Definition destid_by_name (name : string) : P Z :=
  ret ← destid_by_group name;
  if ret =? -1 then destid_by_printer name else mret ret.

Definition destid_by_name_reversed (name : string) : P Z :=
  ret ← destid_by_printer name;
  if ret =? -1 then destid_by_group name else mret ret.

Fixpoint index_from (x : Z) (v : Z) (l : list Z) : Z :=
  match l with
  | [] => -1
  | w :: l' => if w =? v then x else index_from (x + 1) v l'
  end.

Definition destid_get_member_offset (destid prnid : Z) : P Z :=
  g ← is_group destid;
  if (g : bool) then
    gindex ← destid_to_gindex destid;
    cl ← get_group gindex;
    mret (index_from 0 prnid (g_printers cl))
  else fatal 1 "destid_get_member_offset(): assertion failed".

Definition destid_printer_bit (destid prnid : Z) : P Z :=
  if prnid =? destid then mret 1
  else
    g ← is_group destid;
    if (g : bool) then
      off ← destid_get_member_offset destid prnid;
      mret (if off =? -1 then 0 else Z.shiftl 1 off)
    else mret 0.

Definition destid_accepting (destid : Z) : P bool :=
  g ← is_group destid;
  if (g : bool) then
    gindex ← destid_to_gindex destid;
    cl ← get_group gindex;
    mret (truth (gs_accepting (g_spool_state cl)))
  else
    p ← get_printer destid;
    mret (truth (ps_accepting (p_spool_state p))).

(** * Facts about the lookups *)

Lemma wp_destid_to_name d Q X F s :
  (∀ n, Q n s) → (∀ r, F r) → wp (destid_to_name d) Q X F s.
Proof.
  intros HQ HF. apply wp_bind, wp_gets.
  destruct (destid_is_group s d).
  - apply wp_bind. unfold destid_to_gindex. destruct (_ || _); [apply HF|].
    apply wp_ret, wp_bind, wp_gets. destruct (_ <? _); [|apply HQ].
    apply wp_bind, wp_get_group; [|auto]. intros _.
    destruct (g_deleted _); [apply HQ|].
    destruct (g_name _); [apply HQ | apply HF].
  - apply wp_bind, wp_gets. destruct (_ && _); [|apply HQ].
    apply wp_bind, wp_get_printer; [|auto]. intros p _.
    destruct (_ =? _); [apply HQ|]. destruct (p_name p); [apply HQ | apply HF].
Qed.
