(* ===== verification/QueueStatus.v ===== *)
(** The spool_state files (src/libppr/spool_state.c, src/pprd/pprd_statedirs.c):
    what the daemon remembers of a printer or a group over a restart; and the
    states of jobs (src/pprd/pprd_queue.c): files, the first line of the queue
    file, and the removal of a job. *)
From S2P Require Import Prelude.
From S2P Require Import Text.
From S2P Require Import Spooler.
From S2P Require Import Destid.

Section spool_state.
Context `{PPRConfig}.

Definition newline : ascii := chr 10.

Fixpoint join_ints (l : list Z) : string :=
  match l with
  | [] => EmptyString
  | [n] => fmt_d n
  | n :: l' => fmt_d n +:+ String " " (join_ints l')
  end.

(** "%d %d %d %d %d %d %d %d %d\n" *)
Definition printer_state_line (p : PRINTER_SPOOL_STATE) : string :=
  join_ints [ps_accepting p; ps_previous_status p; ps_status p;
             ps_next_error_retry p; ps_next_engaged_retry p; ps_countdown p;
             ps_printer_state_change_time p; ps_protected p; ps_job_count p]
  +:+ String newline EmptyString.

(** "%d %d %d %d %d\n" *)
Definition group_state_line (g : GROUP_SPOOL_STATE) : string :=
  join_ints [gs_accepting g; gs_held g; gs_printer_state_change_time g;
             gs_protected g; gs_job_count g]
  +:+ String newline EmptyString.

(** gu_snprintf() into temp[128] cuts the line off at 127 characters. *)
Definition snprintf128 (s : string) : string := str_take 127 s.

Definition save_to (n line : string) : P unit :=
  w ← writable n;
  if (w : bool) then set_file n (snprintf128 line)
  else fatal 0 "can't create spool_state file for write".

Definition printer_spool_state_save (pstate : PRINTER_SPOOL_STATE) (prnname : string)
    : P unit :=
  n ← fname "%s/%s/spool_state" [AS PRINTERS_PERSISTENT_STATEDIR; AS prnname];
  save_to n (printer_state_line pstate).

Definition group_spool_state_save (gstate : GROUP_SPOOL_STATE) (grpname : string)
    : P unit :=
  n ← fname "%s/%s/spool_state" [AS GROUPS_PERSISTENT_STATEDIR; AS grpname];
  save_to n (group_state_line gstate).

Definition printer_state_default : PRINTER_SPOOL_STATE :=
  mkPState 1 PRNSTATUS_IDLE PRNSTATUS_IDLE 0 0 0 0 0 0.

Definition group_state_default : GROUP_SPOOL_STATE := mkGState 1 0 0 0 0.

(** What the scan stored goes into the fields in order; those it did not reach
    keep the defaults. *)
Definition printer_state_of (vals : list scanval) : PRINTER_SPOOL_STATE :=
  let d := printer_state_default in
  let nth k dflt := match vals !! k with Some (VInt n) => n | _ => dflt end in
  mkPState (nth 0%nat (ps_accepting d)) (nth 1%nat (ps_previous_status d))
    (nth 2%nat (ps_status d)) (nth 3%nat (ps_next_error_retry d))
    (nth 4%nat (ps_next_engaged_retry d)) (nth 5%nat (ps_countdown d))
    (nth 6%nat (ps_printer_state_change_time d)) (nth 7%nat (ps_protected d))
    (nth 8%nat (ps_job_count d)).

Definition group_state_of (vals : list scanval) : GROUP_SPOOL_STATE :=
  let d := group_state_default in
  let nth k dflt := match vals !! k with Some (VInt n) => n | _ => dflt end in
  mkGState (nth 0%nat (gs_accepting d)) (nth 1%nat (gs_held d))
    (nth 2%nat (gs_printer_state_change_time d)) (nth 3%nat (gs_protected d))
    (nth 4%nat (gs_job_count d)).

Definition printer_state_format : string := "%d %d %d %d %d %d %d %d %d".

Definition group_state_format : string := "%d %d %d %d %d".

(** The structure and the return value.  A missing file means the defaults; a
    file that fills the buffer of 128 bytes, or does not hold all the numbers,
    is an error. *)
Definition load_state {T} (format : string) (n_fields : Z) (dflt : T)
    (of_vals : list scanval → T) (n : string) : P (T * Z) :=
  f ← read_file n;
  match f with
  | None => mret (dflt, 0)
  | Some data =>
      if 128 <=? strlen data then mret (dflt, -1)
      else
        match gu_sscanf data format [] with
        | Scanned count vals =>
            mret (of_vals vals, if count =? n_fields then 0 else -1)
        | ScanThrow msg => gu_Throw msg
        | ScanUndef => undef "gu_sscanf(): number out of range"
        end
  end.

Definition printer_spool_state_load (prnname : string) : P (PRINTER_SPOOL_STATE * Z) :=
  n ← fname "%s/%s/spool_state" [AS PRINTERS_PERSISTENT_STATEDIR; AS prnname];
  load_state printer_state_format 9 printer_state_default printer_state_of n.

Definition group_spool_state_load (grpname : string) : P (GROUP_SPOOL_STATE * Z) :=
  n ← fname "%s/%s/spool_state" [AS GROUPS_PERSISTENT_STATEDIR; AS grpname];
  load_state group_state_format 5 group_state_default group_state_of n.
End spool_state.

(** * The queue array and the jobs' files (src/pprd/pprd_queue.c, first part):
    removing a job, rewriting its PPRD: line, changing its status. *)

Section queue_status.
Context `{PPRConfig}.

Definition unlink_job_file (pattern dir queuename : string) (id subid : Z) : P unit :=
  filename ← fname pattern [AS dir; AS queuename; AD id; AD subid];
  unlink filename.

Definition delete_job_files (queuename : string) (id subid : Z) : P unit :=
  unlink_job_file "%s/%s-%d.%d" QUEUEDIR queuename id subid;;
  unlink_job_file "%s/%s-%d.%d-comments" DATADIR queuename id subid;;
  unlink_job_file "%s/%s-%d.%d-pages" DATADIR queuename id subid;;
  unlink_job_file "%s/%s-%d.%d-text" DATADIR queuename id subid;;
  unlink_job_file "%s/%s-%d.%d-log" DATADIR queuename id subid;;
  unlink_job_file "%s/%s-%d.%d-infile" DATADIR queuename id subid;;
  unlink_job_file "%s/%s-%d.%d-barbar" DATADIR queuename id subid;;
  unlink_job_file "%s/%s-%d.%d-cmdline" DATADIR queuename id subid.

Definition save_group_state (gindex : Z) : P unit :=
  g ← get_group gindex;
  n ← cstr (g_name g);
  group_spool_state_save (g_spool_state g) n.

Definition save_printer_state (prnid : Z) : P unit :=
  p ← get_printer prnid;
  n ← cstr (p_name p);
  printer_spool_state_save (p_spool_state p) n.

Definition job_count_adjust (destid increment : Z) (flush : bool) : P unit :=
  grp ← is_group destid;
  if (grp : bool) then
    gindex ← destid_to_gindex destid;
    g ← get_group gindex;
    c ← c_int (gs_job_count (g_spool_state g) + increment);
    upd_gstate gindex (set_gs_job_count c);;
    when flush (save_group_state gindex)
  else
    p ← get_printer destid;
    c ← c_int (ps_job_count (p_spool_state p) + increment);
    upd_pstate destid (set_ps_job_count c);;
    when flush (save_printer_state destid).

Definition remove_queue_entry (x : Z) : P unit :=
  modify_tb (λ t, set_t_queue (delete (Z.to_nat x) (t_queue t)) t).

Definition queue_dequeue_job (destid id subid : Z) : P unit :=
  destname ← destid_to_name destid;
  full_job_id ← jobid_str destname id subid;
  state_update "DEL %s" [AS full_job_id];;
  lock;;
  for_queue (λ x,
    e ← job_get (Jq x);
    if is_job destid id subid e then
      delete_job_files destname id subid;;
      remove_queue_entry x;;
      job_count_adjust destid (-1) true;;
      mret (Some tt)
    else mret None);;
  unlock.

(** "PPRD: %02X %08X %02X %04X" with blanks up to 63 characters, and a
    newline.  A negative priority prints as eight digits. *)
Definition pprd_status (status : Z) : Z :=
  if 0 <=? status then 0 else status * -1.

Definition pprd_line (job : QEntry) : string :=
  "PPRD: " +:+ fmt_X 2 (u32 (q_priority job))
  +:+ " " +:+ fmt_X 8 (q_sequence_number job)
  +:+ " " +:+ fmt_X 2 (pprd_status (q_status job))
  +:+ " " +:+ fmt_X 4 (q_flags job)
  +:+ spaces 38 +:+ String newline EmptyString.

(** The write of 64 bytes to an open file is taken to succeed. *)
Definition queue_write_status_and_flags (j : jobptr) : P unit :=
  job ← job_get j;
  destname ← destid_to_name (q_destid job);
  filename ← fname "%s/%s-%d.%d" [AS QUEUEDIR; AS destname; AD (q_id job); AD (q_subid job)];
  contents ← read_file filename;
  w ← writable filename;
  match contents, (w : bool) with
  | Some old, true =>
      let buf := pprd_line job in
      if strlen buf =? 64 then set_file filename (overwrite old buf)
      else gu_Throw "Length of PPRD line is not 64 bytes!"
  | _, _ =>
      error (dq "%s(): can't open `%s`, errno=%d (%s)")
        [AS "queue_write_status_and_flags"; AS filename]
  end.

Definition status_string (status : Z) : option string :=
  if status =? STATUS_WAITING then Some "waiting for printer"
  else if status =? STATUS_HELD then Some "held"
  else if status =? STATUS_SEIZING then Some "being seized"
  else if status =? STATUS_WAITING4MEDIA then Some "waiting for media"
  else if status =? STATUS_ARRESTED then Some "arrested"
  else if status =? STATUS_STRANDED then Some "stranded"
  else if status =? STATUS_CANCEL then Some "being canceled"
  else if status =? STATUS_RECEIVING then Some "receiving job"
  else None.

Definition queue_p_job_new_status (j : jobptr) (newstat : Z) : P unit :=
  job_upd j (set_q_status (i16 newstat));;
  queue_write_status_and_flags j;;
  job ← job_get j;
  match status_string (q_status job) with
  | Some str =>
      destname ← destid_to_name (q_destid job);
      full ← jobid_str destname (q_id job) (q_subid job);
      state_update "JST %s %s" [AS full; AS str]
  | None =>
      if q_status job <? 0
      then fatal 0 "queue_p_job_new_status(): assertion failed"
      else
        destname ← destid_to_name (q_destid job);
        full ← jobid_str destname (q_id job) (q_subid job);
        prn ← destid_to_name (q_status job);
        state_update "JST %s printing on %s" [AS full; AS prn]
  end.

(** The result is the index of the job in the queue. *)
Definition queue_job_new_status (destid id subid newstat : Z) : P Z :=
  lock;;
  r ← for_queue (λ x,
    e ← job_get (Jq x);
    if is_job destid id subid e then
      queue_p_job_new_status (Jq x) newstat;;
      mret (Some x)
    else mret None);
  match r with
  | None => fatal 0 "queue_job_new_status(): job not found in queue"
  | Some x => unlock;; mret x
  end.
End queue_status.
