(* ===== verification/Media.v ===== *)
(** Media (src/pprd/pprd_media.c): the media table, the list of mounted media
    a printer keeps over a restart, and the notnow bits and wait reasons that
    follow from what is mounted where. *)
From S2P Require Import Prelude.
From S2P Require Import Text.
From S2P Require Import Spooler.
From S2P Require Import Destid.
From S2P Require Import QueueStatus.

Section media.
Context `{PPRConfig}.

Definition media_name_of (table : list string) (mediaid : Z) : string :=
  if mediaid =? -1 then EmptyString
  else default invalid_name (at_index table mediaid).

Definition get_media_name (mediaid : Z) : P string :=
  gets (λ s, media_name_of (media s) mediaid).

Fixpoint find_string (x : Z) (l : list string) (name : string) : option Z :=
  match l with
  | [] => None
  | m :: l' => if String.eqb m name then Some x else find_string (x + 1) l' name
  end.

Definition get_media_id (medianame : string) : P Z :=
  if String.eqb medianame EmptyString then mret (-1)
  else
    table ← gets media;
    match find_string 0 table medianame with
    | Some x => mret x
    | None =>
        let x := Z.of_nat (length table) in
        if x =? MAX_MEDIA then fatal 0 "get_media_id(): media array overflow"
        else modify_tb (λ t, set_t_media (t_media t ++ [medianame]) t);; mret x
    end.

(** A record of the file mounted: a bin name and a medium name, padded. *)
Definition mounted_record (table : list string) (bin : string * Z) : string :=
  ASCIIZ_to_padded bin.1 MAX_BINNAME
  +:+ ASCIIZ_to_padded (media_name_of table bin.2) MAX_MEDIANAME.

Definition mounted_contents (table : list string) (bins : list (string * Z)) : string :=
  foldr (λ b rest, mounted_record table b +:+ rest) EmptyString bins.

Definition media_mounted_save (prnid : Z) : P unit :=
  name ← destid_to_name prnid;
  n ← fname "%s/%s/mounted" [AS PRINTERS_PERSISTENT_STATEDIR; AS name];
  w ← writable n;
  if (w : bool) then
    p ← get_printer prnid;
    table ← gets media;
    set_file n (mounted_contents table (p_bins p))
  else fatal 0 (dq ("media_mounted_save(): can't open `" +:+ n +:+ "`")).

(** fread() of whole records: what is left over at the end is not read. *)
Fixpoint mounted_records (fuel : nat) (data : string) : list (string * string) :=
  match fuel with
  | O => []
  | S fuel' =>
      if strlen data <? Z.of_nat (MAX_BINNAME + MAX_MEDIANAME) then []
      else (str_take MAX_BINNAME data,
            str_take MAX_MEDIANAME (str_drop MAX_BINNAME data))
             :: mounted_records fuel' (str_drop (MAX_BINNAME + MAX_MEDIANAME) data)
  end.

(** The first bin of that name gets the medium. *)
Fixpoint set_bin (bin : string) (id : Z) (bins : list (string * Z)) : list (string * Z) :=
  match bins with
  | [] => []
  | (b, m) :: bins' =>
      if String.eqb b bin then (b, id) :: bins' else (b, m) :: set_bin bin id bins'
  end.

Definition has_bin (bin : string) (bins : list (string * Z)) : bool :=
  existsb (λ b, String.eqb b.1 bin) bins.

Definition recover_record (prnid : Z) (r : string * string) : P unit :=
  p ← get_printer prnid;
  let abin := padded_to_ASCIIZ r.1 in
  when (has_bin abin (p_bins p))
    (id ← get_media_id (padded_to_ASCIIZ r.2);
     upd_printer prnid (λ q, set_p_bins (set_bin abin id (p_bins q)) q)).

Fixpoint recover_records (prnid : Z) (l : list (string * string)) : P unit :=
  match l with
  | [] => mret tt
  | r :: l' => recover_record prnid r;; recover_records prnid l'
  end.

Definition media_mounted_recover (prnid : Z) : P unit :=
  name ← destid_to_name prnid;
  n ← fname "%s/%s/mounted" [AS PRINTERS_PERSISTENT_STATEDIR; AS name];
  f ← read_file n;
  match f with
  | None => mret tt
  | Some data =>
      recover_records prnid (mounted_records (String.length data) data)
  end.

(** * The hooks *)

(** Does the printer hold every medium the job names? *)
Definition required_media (job : QEntry) : list Z :=
  let fix before_unused l :=
    match l with
    | [] => []
    | m :: l' => if m =? -1 then [] else m :: before_unused l'
    end in
  before_unused (take MAX_DOCMEDIA (q_media job)).

Definition in_a_bin (p : Printer) (m : Z) : bool :=
  existsb (λ b, m =? b.2) (p_bins p).

Definition printer_has_media (p : Printer) (job : QEntry) : bool :=
  (p_nbins p =? 0) || p_AutoSelect_exists p
  || forallb (in_a_bin p) (required_media job).

Definition hasmedia (prnid : Z) (job : QEntry) : P bool :=
  p ← get_printer prnid;
  mret (printer_has_media p job).

(** for(x = 0; x < members; x++) if(test(printers[x])) mask |= 1 << x; *)
Fixpoint mask_of (test : Z → P bool) (x : Z) (l : list Z) (mask : Z) : P Z :=
  match l with
  | [] => mret mask
  | prnid :: l' =>
      b ← test prnid;
      mask_of test (x + 1) l'
        (if (b : bool) then Z.lor mask (Z.shiftl 1 x) else mask)
  end.

Definition printer_is_down (prnid : Z) : P bool :=
  p ← get_printer prnid;
  mret (PRNSTATUS_DELIBERATELY_DOWN <=? p_status p).

Definition stoptmask (destid : Z) : P Z :=
  g ← is_group destid;
  if (g : bool) then
    gindex ← destid_to_gindex destid;
    gr ← get_group gindex;
    mask_of printer_is_down 0 (g_printers gr) 0
  else
    down ← printer_is_down destid;
    mret (of_bool down).

(** The status of a job that is waiting for something. *)
Definition wait_reason_group (members notnow stopt : Z) : Z :=
  let allmask := Z.shiftl 1 members - 1 in
  if (Z.lor notnow stopt =? allmask) && negb (stopt =? allmask)
  then STATUS_WAITING4MEDIA else STATUS_WAITING.

Definition wait_reason_printer (notnow stopt : Z) : Z :=
  if negb (notnow =? 0) && (stopt =? 0)
  then STATUS_WAITING4MEDIA else STATUS_WAITING.

Definition media_set_job_wait_reason (j : jobptr) (stopt_members_mask : Z)
    (inqueue : bool) : P unit :=
  job ← job_get j;
  when ((q_status job =? STATUS_WAITING) || (q_status job =? STATUS_WAITING4MEDIA))
    (g ← is_group (q_destid job);
     new_status ←
       (if (g : bool) then
          gindex ← destid_to_gindex (q_destid job);
          gr ← get_group gindex;
          mret (wait_reason_group (g_members gr) (q_notnow job) stopt_members_mask)
        else mret (wait_reason_printer (q_notnow job) stopt_members_mask));
     when (negb (new_status =? q_status job))
       (if inqueue then queue_p_job_new_status j new_status
        else job_upd j (set_q_status new_status))).

(** for(x = 0; x < queue_entries; x++) if(queue[x].destid == destid) body; *)
Definition for_jobs_of (destid : Z) (body : Z → P unit) : P unit :=
  for_queue (λ x,
    e ← job_get (Jq x);
    when (q_destid e =? destid) (body x);;
    mret (None (A := unit)));;
  mret tt.

Definition media_startstop_update_waitreason2 (destid : Z) : P unit :=
  stopt ← stoptmask destid;
  for_jobs_of destid (λ x, media_set_job_wait_reason (Jq x) stopt true).

Definition for_groups (body : Z → P unit) : P unit :=
  n ← gets groups;
  for_each (length n) 0 body.

Definition media_startstop_update_waitreason (prnid : Z) : P unit :=
  lock;;
  media_startstop_update_waitreason2 prnid;;
  for_groups (λ g,
    g_destid ← destid_by_gindex g;
    off ← destid_get_member_offset g_destid prnid;
    when (negb (off =? -1)) (media_startstop_update_waitreason2 g_destid));;
  unlock.

Definition media_update_notnow2 (destid prnbit prnid : Z) : P unit :=
  stopt ← stoptmask destid;
  for_jobs_of destid (λ x,
    e ← job_get (Jq x);
    has ← hasmedia prnid e;
    (if (has : bool)
     then job_upd (Jq x) (λ q, set_q_notnow (Z.land (q_notnow q) (Z.lxor 255 prnbit)) q)
     else job_upd (Jq x) (λ q, set_q_notnow (u8 (Z.lor (q_notnow q) prnbit)) q));;
    media_set_job_wait_reason (Jq x) stopt true).

Definition media_update_notnow (prnid : Z) : P unit :=
  lock;;
  media_update_notnow2 prnid 1 prnid;;
  for_groups (λ g,
    g_destid ← destid_by_gindex g;
    prnbit ← destid_printer_bit g_destid prnid;
    when (negb (prnbit =? 0)) (media_update_notnow2 g_destid prnbit prnid));;
  unlock.

Fixpoint set_notnow_bits (j : jobptr) (x : Z) (l : list Z) : P unit :=
  match l with
  | [] => mret tt
  | prnid :: l' =>
      nj ← job_get j;
      has ← hasmedia prnid nj;
      when (negb has)
        (job_upd j (λ q, set_q_notnow (u8 (Z.lor (q_notnow q) (Z.shiftl 1 x))) q));;
      set_notnow_bits j (x + 1) l'
  end.

Definition media_set_notnow_for_job (j : jobptr) (inqueue : bool) : P unit :=
  nj ← job_get j;
  g ← is_group (q_destid nj);
  (if (g : bool) then
     gindex ← destid_to_gindex (q_destid nj);
     gptr ← get_group gindex;
     job_upd j (set_q_notnow 0);;
     set_notnow_bits j 0 (g_printers gptr)
   else
     has ← hasmedia (q_destid nj) nj;
     job_upd j (set_q_notnow (of_bool (negb has))));;
  stopt ← stoptmask (q_destid nj);
  media_set_job_wait_reason j stopt inqueue.
End media.
