(* ===== verification/Printer.v ===== *)
(** Telling people: mail to the operator about a printer's faults and its
    recovery (src/pprd/pprd_alert.c) and the responder that tells a user what
    became of a job (src/pprd/pprd_respond.c); and the printers: their status,
    the choice and the start of jobs, retries (src/pprd/pprd_printer.c,
    pprdrv_start() of pprd_pprdrv.c). *)
From S2P Require Import Prelude.
From S2P Require Import Text.
From S2P Require Import Spooler.
From S2P Require Import Destid.
From S2P Require Import QueueStatus.

Section alert.
Context `{PPRConfig}.

(** alert() of libppr appends to the printer's alerts file. *)
Definition alert (prnname : string) (dateflag : bool) (fmt : string) (args : list farg)
    : P unit := emit (EvAlert prnname dateflag fmt args).

(** In no-retry mode, or every [frequency] retries, or, when that is
    negative, at the one retry it names. *)
Definition alert_due (frequency n : Z) : bool :=
  (n =? 0)
  || ((frequency <? 0) && (n =? frequency * -1))
  || ((0 <? frequency) && (Z.rem n frequency =? 0)).

(** The pipe and the process for sendmail; what is written to it follows.
    fdopen() is taken to succeed. *)
Definition with_sendmail (function : string) (address : option string)
    (message : string → P unit) : P unit :=
  pipe ← syscall;
  if negb (pipe =? 0) then error "%s(): pipe() failed, errno=%d (%s)" [AS function]
  else
    pid ← fork;
    if pid =? -1 then error "%s(): fork() failed, errno=%d (%s)" [AS function]
    else (addr ← cstr address; message addr).

Definition alert_printer_failed (prn : option string) (frequency : Z)
    (method address : option string) (n : Z) : P unit :=
  if frequency =? 0 then mret tt
  else
    m ← cstr method;
    if String.eqb m "none" then mret tt
    else
      when (alert_due frequency n)
        (with_sendmail "alert_printer_failed" address (λ addr,
           name ← cstr prn;
           logname ← fname "%s/%s/alerts" [AS PRINTERS_PURGABLE_STATEDIR; AS name];
           logfile ← read_file logname;
           emit (EvMail addr
             (if 0 <? frequency then "Subject: Faults on %s"
              else "Subject: Faults on %s (first and final notice)")
             [AS name; AS (default EmptyString logfile)]))).

Definition alert_printer_working (prn : option string) (frequency : Z)
    (method address : option string) (n : Z) : P unit :=
  if 0 <=? frequency then mret tt
  else if n <? frequency * -1 then mret tt
  else
    m ← cstr method;
    if String.eqb m "none" then mret tt
    else
      with_sendmail "alert_printer_working" address (λ addr,
        name ← cstr prn;
        emit (EvMail addr "Subject: Recovery of %s"
          (if n =? 1 then [AS name] else [AS name; AD n]))).

(** ** Responders *)

Definition responder_child_hook (pid wstat : Z) : P bool := mret false.

(** What the child passes on of the printer's charges; snprintf() into
    char[8]. *)
Definition charge_args (prnid : Z) : P (string * string) := λ s,
  match at_index (printers s) prnid with
  | Some p => Done (str_take 7 (fmt_d (p_charge_per_duplex p)),
                    str_take 7 (fmt_d (p_charge_per_simplex p))) s
  | None => Done (EmptyString, EmptyString) s
  end.

Definition respond2 (destname : string) (id subid prnid : Z) (prnname : string)
    (response_code : Z) : P unit :=
  let job := str_take 255 (qfname destname id subid) in
  filename ← fname "%s/%s" [AS QUEUEDIR; AS job];
  qfile ← read_file filename;
  match qfile with
  | None => emit (EvStderr (dq "Can't open `%s`, errno=%d (%s)") [AS filename])
  | Some _ =>
      pid ← fork;
      if pid =? -1
      then error "%s(): can't fork(), errno=%d (%s)" [AS "respond2"]
      else
        charges ← charge_args prnid;
        emit (EvExec "ppr-respond"
          [AS job; AD response_code; AS destname; AS prnname;
           AS charges.1; AS charges.2])
  end.

Definition respond (destid id subid prnid response : Z) : P unit :=
  destname ← destid_to_name destid;
  prnname ← (if 0 <=? prnid then destid_to_name prnid else mret EmptyString);
  respond2 destname id subid prnid prnname response.
End alert.

(** * Printers (src/pprd/pprd_printer.c and pprdrv_start() of pprd_pprdrv.c):
    the status of a printer, starting a job on it, and looking for a job or a
    printer to start. *)

Section printer.
Context `{PPRConfig}.

(** The job a printer is printing, as jobid() writes it. *)
Definition printing_jobid (p : Printer) : P string :=
  destname ← destid_to_name (p_job_destid p);
  jobid_str destname (p_job_id p) (p_job_subid p).

(** The source passes the address of the structure where the format wants the
    printer's name. *)
Definition pst_with_job (prnid : Z) (p : Printer) (fmt : string) (more : list farg) : P unit :=
  job ← printing_jobid p;
  state_update fmt (AStruct prnid :: AS job :: more).

Definition pst_update (prnid : Z) (p : Printer) : P unit :=
  let st := p_spool_state p in
  let status := ps_status st in
  if status =? PRNSTATUS_PRINTING then
    pst_with_job prnid p "PST %s printing %s %d" [AD (ps_next_error_retry st)]
  else if status =? PRNSTATUS_IDLE then state_update "PST %s idle" [AStruct prnid]
  else if status =? PRNSTATUS_CANCELING then
    pst_with_job prnid p "PST %s canceling %s" []
  else if status =? PRNSTATUS_SEIZING then
    pst_with_job prnid p "PST %s seizing %s" []
  else if status =? PRNSTATUS_FAULT then
    state_update "PST %s fault %d %d"
      [AStruct prnid; AD (ps_next_error_retry st); AD (ps_countdown st)]
  else if status =? PRNSTATUS_ENGAGED then
    state_update "PST %s engaged %d %d"
      [AStruct prnid; AD (ps_next_engaged_retry st); AD (ps_countdown st)]
  else if status =? PRNSTATUS_STARVED then state_update "PST %s starved" [AStruct prnid]
  else if status =? PRNSTATUS_STOPT then state_update "PST %s stopt" [AStruct prnid]
  else if status =? PRNSTATUS_STOPPING then
    pst_with_job prnid p "PST %s stopping (printing %s)" []
  else if status =? PRNSTATUS_HALTING then
    pst_with_job prnid p "PST %s halting (printing %s)" []
  else mret tt.

Definition enter_status (newstatus now : Z) (st : PRINTER_SPOOL_STATE) : PRINTER_SPOOL_STATE :=
  set_ps_printer_state_change_time (i32 now)
    (set_ps_status newstatus (set_ps_previous_status (ps_status st) st)).

(** ppop wstop waits for a SIGUSR1. *)
Definition tell_waiting_ppop (prnid : Z) : P unit :=
  p ← get_printer prnid;
  when ((p_status p =? PRNSTATUS_STOPT) && negb (p_ppop_pid p =? 0))
    (kill (p_ppop_pid p) SIGUSR1;;
     upd_printer prnid (set_p_ppop_pid 0)).

Definition printer_new_status (prnid newstatus : Z) : P unit :=
  lock;;
  p ← get_printer prnid;
  if p_status p =? PRNSTATUS_DELETED then
    error "%s(): attempt to change state of deleted printer" [AS "printer_new_status"];;
    unlock
  else
    now ← time;
    upd_pstate prnid (enter_status newstatus now);;
    save_printer_state prnid;;
    tell_waiting_ppop prnid;;
    p' ← get_printer prnid;
    pst_update prnid p';;
    unlock.

(** ** Starting pprdrv *)

Definition starve (prnid : Z) : P Z :=
  printer_new_status prnid PRNSTATUS_STARVED;;
  modify_tb (λ t, set_t_starving_printers (t_starving_printers t + 1) t);;
  mret (-1).

Definition remember_job (pid : Z) (job : QEntry) (p : Printer) : Printer :=
  set_p_job_subid (q_subid job)
    (set_p_job_id (q_id job)
      (set_p_job_destid (q_destid job) (set_p_job_pid pid p))).

(** The group remembers which member was used last. *)
Definition mark_last_used (destid prnid : Z) : P unit :=
  g ← is_group destid;
  when g
    (gindex ← destid_to_gindex destid;
     off ← destid_get_member_offset destid prnid;
     upd_group gindex (set_g_last off)).

Definition pprdrv_exec (prnid : Z) (job : QEntry) : P unit :=
  name ← destid_to_name prnid;
  destname ← destid_to_name (q_destid job);
  emit (EvExec "pprdrv"
    [AS name; AS (str_take 127 (qfname destname (q_id job) (q_subid job)));
     AS (fmt_d (q_pass job))]).

Definition pprdrv_start (prnid : Z) (j : jobptr) : P Z :=
  job ← job_get j;
  if negb (q_status job =? STATUS_WAITING)
  then fatal 0 "pprdrv_start(): assertion failed: job->status != STATUS_WAITING"
  else
  p ← get_printer prnid;
  if negb (p_status p =? PRNSTATUS_IDLE)
  then fatal 0 "pprdrv_start(): assertion failed: printer not idle"
  else
  t ← gets tb;
  if t_lock_level t =? 0 then fatal 0 "pprdrv_start(): tables not locked"
  else if t_active_printers t =? MAX_ACTIVE then starve prnid
  else if negb (ps_previous_status (p_spool_state p) =? PRNSTATUS_STARVED)
          && (MAX_ACTIVE <=? t_active_printers t + t_starving_printers t)
  then starve prnid
  else
  pid ← fork;
  if pid =? -1 then
    name ← destid_to_name prnid;
    error (dq "%s(): Couldn't fork, printer `%s` not started")
      [AS "pprdrv_start"; AS name];;
    starve prnid
  else
    pprdrv_exec prnid job;;
    modify_tb (λ t, set_t_active_printers (t_active_printers t + 1) t);;
    upd_printer prnid (remember_job pid job);;
    printer_new_status prnid PRNSTATUS_PRINTING;;
    queue_job_new_status (q_destid job) (q_id job) (q_subid job) prnid;;
    mark_last_used (q_destid job) prnid;;
    mret 0.

(** 0: started; -1: the printer can't start now; -2: it can't print this job. *)
Definition printer_start (prnid : Z) (j : jobptr) : P Z :=
  job ← job_get j;
  if negb (q_status job =? STATUS_WAITING)
  then fatal 0 "printer_start(): assertion failed: job->status != STATUS_WAITING"
  else
  t ← gets tb;
  if t_lock_level t =? 0 then fatal 0 "printer_start(): tables not locked"
  else
  p ← get_printer prnid;
  if negb (p_status p =? PRNSTATUS_IDLE) then mret (-1)
  else
  g ← is_group (q_destid job);
  held ← (if (g : bool) then
            gindex ← destid_to_gindex (q_destid job);
            gr ← get_group gindex;
            mret (truth (gs_held (g_spool_state gr)))
          else mret false);
  if (held : bool) then mret (-2)
  else
  bitmask ← destid_printer_bit (q_destid job) prnid;
  if negb (Z.land (q_notnow job) bitmask =? 0) then mret (-2)
  else if negb (Z.land (q_never job) bitmask =? 0) then mret (-2)
  else
  retval ← pprdrv_start prnid j;
  if negb (retval =? 0) && negb (retval =? -1)
  then fatal 0 "printer_start(): assertion_failed: pprdrv_start() return"
  else mret retval.

(** ** Looking for work *)

Definition may_print (prnid : Z) (e : QEntry) : P bool :=
  if negb (q_status e =? STATUS_WAITING) then mret false
  else if q_destid e =? prnid then mret true
  else
    g ← is_group (q_destid e);
    if (g : bool) then
      off ← destid_get_member_offset (q_destid e) prnid;
      mret (negb (off =? -1))
    else mret false.

Definition printer_look_for_work (prnid : Z) : P unit :=
  lock;;
  p ← get_printer prnid;
  if negb (p_status p =? PRNSTATUS_IDLE)
  then fatal 0 "printer_look_for_work(): assertion failed: printer is not idle"
  else
  for_queue (λ x,
    e ← job_get (Jq x);
    b ← may_print prnid e;
    if (b : bool) then
      r ← printer_start prnid (Jq x);
      mret (if r =? -2 then None else Some tt)
    else mret None);;
  unlock.

(** for(y = 0; y < groups[gindex].members; y++) *)
Definition for_members (gindex : Z) (body : Z → P unit) : P unit :=
  g ← get_group gindex;
  for_each (length (g_printers g)) 0 (λ y,
    g' ← get_group gindex;
    match at_index (g_printers g') y with
    | Some prnid => body prnid
    | None => undef "group member"
    end).

Definition group_look_for_work (gindex : Z) : P unit :=
  for_members gindex (λ prnid,
    p ← get_printer prnid;
    when (p_status p =? PRNSTATUS_IDLE) (printer_look_for_work prnid)).

(** Try the members in turn, from the one after [y]. *)
Fixpoint try_members (n : nat) (gindex : Z) (y : Z) (j : jobptr) : P unit :=
  match n with
  | O => mret tt
  | S n' =>
      cl ← get_group gindex;
      let y' := Z.rem (y + 1) (g_members cl) in
      match at_index (g_printers cl) y' with
      | None => undef "group member"
      | Some prnid =>
          r ← printer_start prnid j;
          if r =? 0 then mret tt else try_members n' gindex y' j
      end
  end.

Definition printer_try_start_suitable_4_this_job (j : jobptr) : P unit :=
  lock;;
  job ← job_get j;
  if negb (q_status job =? STATUS_WAITING)
  then fatal 0 "printer_try_start_suitable_4_this_job(): assertion failed"
  else
  g ← is_group (q_destid job);
  (if (g : bool) then
     gindex ← destid_to_gindex (q_destid job);
     cl ← get_group gindex;
     try_members (length (g_printers cl)) gindex
       (if g_rotate cl then g_last cl else -1) j
   else printer_start (q_destid job) j;; mret tt);;
  unlock.

(** ** Retries *)

Definition retry_expired (x : Z) : P bool :=
  p ← get_printer x;
  let st := p_spool_state p in
  if ((ps_status st =? PRNSTATUS_FAULT) && negb (ps_next_error_retry st =? 0))
     || (ps_status st =? PRNSTATUS_ENGAGED)
  then
    c ← c_int (ps_countdown st - TICK_INTERVAL);
    upd_pstate x (set_ps_countdown c);;
    mret (c <=? 0)
  else mret false.

(** The while loop over the starving printers; it counts to printer_count. *)
Definition feed_one : P (option unit) :=
  t ← gets tb;
  if (t_starving_printers t =? 0) || negb (t_active_printers t <? MAX_ACTIVE)
  then mret (Some tt)
  else
    n ← gets printer_count;
    modify_tb (λ t, if n <=? t_hungry_x t then set_t_hungry_x 0 t else t);;
    hx ← gets (λ s, t_hungry_x (tb s));
    p ← get_printer hx;
    when (p_status p =? PRNSTATUS_STARVED)
      (printer_new_status hx PRNSTATUS_IDLE;;
       modify_tb (λ t, set_t_starving_printers (t_starving_printers t - 1) t);;
       printer_look_for_work hx);;
    modify_tb (λ t, set_t_hungry_x (t_hungry_x t + 1) t);;
    mret None.

Definition printer_tick : P unit :=
  n ← gets printers;
  for_each (length n) 0 (λ x,
    b ← retry_expired x;
    when b (printer_new_status x PRNSTATUS_IDLE;; printer_look_for_work x));;
  modify_tb (λ t, set_t_hungry_countdown (t_hungry_countdown t - TICK_INTERVAL) t);;
  c ← gets (λ s, t_hungry_countdown (tb s));
  when (c <=? 0)
    (modify_tb (set_t_hungry_countdown STARVING_RETRY_INTERVAL);;
     for_loop (length n) 0 (λ _, feed_one);;
     mret tt).
End printer.
