(* ===== verification/PprdrvExit.v ===== *)
(** The end of a pprdrv process (src/pprd/pprd_pprdrv.c): what its exit status
    means for the job, for the printer and for the people concerned. *)
From S2P Require Import Prelude.
From S2P Require Import Text.
From S2P Require Import Spooler.
From S2P Require Import Destid.
From S2P Require Import QueueStatus.
From S2P Require Import Printer.

(** * Wait statuses (<sys/wait.h> as Linux has it) *)

Definition WTERMSIG (wstat : Z) : Z := Z.land wstat 127.
Definition WIFEXITED (wstat : Z) : bool := WTERMSIG wstat =? 0.
Definition WEXITSTATUS (wstat : Z) : Z := Z.land (Z.shiftr wstat 8) 255.
Definition WIFSIGNALED (wstat : Z) : bool :=
  negb (WTERMSIG wstat =? 0) && negb (WTERMSIG wstat =? 127).
Definition WCOREDUMP (wstat : Z) : bool := negb (Z.land wstat 128 =? 0).
Definition WIFSTOPPED (wstat : Z) : bool := Z.land wstat 255 =? 127.
Definition WSTOPSIG (wstat : Z) : Z := WEXITSTATUS wstat.

Section pprdrv_exit.
Context `{PPRConfig}.

Definition printer_alert (prnid : Z) (dateflag : bool) (fmt : string) (args : list farg)
    : P unit :=
  p ← get_printer prnid;
  name ← cstr (p_name p);
  alert name dateflag fmt args.

(** The exit code the rest of the routine works on. *)
Definition decode_wstat (prnid wstat : Z) : P Z :=
  if WIFEXITED wstat then mret (WEXITSTATUS wstat)
  else if WIFSIGNALED wstat then
    if WCOREDUMP wstat then
      printer_alert prnid false
        "Internal error, pprdrv core dumped after receiving signal %d (%s)."
        [AD (WSTOPSIG wstat)];;
      mret EXIT_PRNERR_NORETRY
    else mret EXIT_SIGNAL
  else if WIFSTOPPED wstat then
    printer_alert prnid true "Mischief afoot, pprdrv stopt by signal %d (%s)."
      [AD (WSTOPSIG wstat)];;
    mret EXIT_PRNERR_NORETRY
  else
    printer_alert prnid true
      "Bizaar pprdrv malfunction, exit status not understood." [];;
    mret EXIT_PRNERR_NORETRY.

(** respond() about the job the printer was printing. *)
Definition respond_printing (prnid response : Z) : P unit :=
  p ← get_printer prnid;
  respond (p_job_destid p) (p_job_id p) (p_job_subid p) prnid response.

(** The job went through: the printer works, so its retry counts start anew. *)
Definition printer_succeeded (prnid : Z) : P unit :=
  p ← get_printer prnid;
  let a := p_alert p in
  alert_printer_working (p_name p) (al_interval a) (al_method a) (al_address a)
    (ps_next_error_retry (p_spool_state p));;
  upd_pstate prnid (λ st, set_ps_next_engaged_retry 0 (set_ps_next_error_retry 0 st)).

(** The printer can't print the job.  The job is searched for by id and subid
    alone.  The result is the job's next status. *)
Definition exit_incapable (prnid : Z) : P Z :=
  p ← get_printer prnid;
  let id := p_job_id p in
  let subid := p_job_subid p in
  lock;;
  found ← for_queue (λ y,
    e ← job_get (Jq y);
    mret (if (q_id e =? id) && (q_subid e =? subid) then Some y else None));
  match found with
  | None => fatal 0 "pprdrv_exited(): job missing from array"
  | Some y =>
      g ← is_group (p_job_destid p);
      job_status ←
        (if negb g then
           job_upd (Jq y) (λ e, set_q_never (Z.lor (q_never e) 1) e);;
           respond_printing prnid RESP_STRANDED_PRINTER_INCAPABLE;;
           mret STATUS_STRANDED
         else
           bit ← destid_printer_bit (p_job_destid p) prnid;
           job_upd (Jq y) (λ e, set_q_never (u8 (Z.lor (q_never e) bit)) e);;
           gindex ← destid_to_gindex (p_job_destid p);
           gr ← get_group gindex;
           e ← job_get (Jq y);
           if q_never e =? Z.shiftl 1 (g_members gr) - 1 then
             job_upd (Jq y) (λ e, set_q_pass (i16 (q_pass e + 1)) e);;
             e' ← job_get (Jq y);
             if 2 <? q_pass e' then
               respond_printing prnid RESP_STRANDED_GROUP_INCAPABLE;;
               mret STATUS_STRANDED
             else job_upd (Jq y) (set_q_never 0);; mret STATUS_WAITING
           else mret STATUS_WAITING);
      unlock;;
      mret job_status
  end.

(** pprdrv says it was told to stop.  That was meant if the printer is halting,
    seizing or canceling; otherwise the printer is at fault. *)
Definition exit_signal (prnid wstat : Z) : P Z :=
  p ← get_printer prnid;
  if (p_status p =? PRNSTATUS_HALTING) || (p_status p =? PRNSTATUS_SEIZING)
     || (p_status p =? PRNSTATUS_CANCELING)
  then mret EXIT_SIGNAL
  else
    (if WIFSIGNALED wstat then
       if WSTOPSIG wstat =? 0 then
         printer_alert prnid true
           "Printing aborted because pprdrv died.  The stated reason for its death (killed by signal 0) is nonsense but may indicate that dynamic linking failed due to a problem with the shared library search path."
           []
       else
         printer_alert prnid true
           "Printing aborted because pprdrv was killed by signal %d (%s). This was not expected and the cause is unknown."
           [AD (WSTOPSIG wstat)]
     else
       printer_alert prnid true
         "Unexpected pprdrv shutdown.  It claims to have received a signal to terminate." []);;
    mret EXIT_PRNERR.

(** The first switch: the exit code to go on with, the job's status and the
    printer's. *)
Definition act_on_exit_code (prnid wstat estat : Z) : P (Z * Z * Z) :=
  if estat =? EXIT_PRINTED then
    upd_printer prnid (set_p_cancel_job false);;
    respond_printing prnid RESP_FINISHED;;
    printer_succeeded prnid;;
    mret (estat, STATUS_WAITING, PRNSTATUS_IDLE)
  else if estat =? EXIT_JOBERR then
    respond_printing prnid RESP_ARRESTED;;
    printer_succeeded prnid;;
    mret (estat, STATUS_ARRESTED, PRNSTATUS_IDLE)
  else if estat =? EXIT_INCAPABLE then
    job_status ← exit_incapable prnid;
    mret (estat, job_status, PRNSTATUS_IDLE)
  else if estat =? EXIT_ENGAGED then
    p ← get_printer prnid;
    n ← c_int (ps_next_engaged_retry (p_spool_state p) + 1);
    upd_pstate prnid (λ st, set_ps_countdown ENGAGED_RETRY (set_ps_next_engaged_retry n st));;
    mret (estat, STATUS_WAITING, PRNSTATUS_ENGAGED)
  else if estat =? EXIT_STARVED then
    modify_tb (λ t, set_t_starving_printers (t_starving_printers t + 1) t);;
    mret (estat, STATUS_WAITING, PRNSTATUS_STARVED)
  else if estat =? EXIT_SIGNAL then
    estat' ← exit_signal prnid wstat;
    mret (estat', STATUS_WAITING, PRNSTATUS_IDLE)
  else if (estat =? EXIT_PRNERR) || (estat =? EXIT_PRNERR_NOT_RESPONDING)
          || (estat =? EXIT_PRNERR_NO_SUCH_ADDRESS) then
    mret (EXIT_PRNERR, STATUS_WAITING, PRNSTATUS_IDLE)
  else if (estat =? EXIT_PRNERR_NORETRY) || (estat =? EXIT_PRNERR_NORETRY_ACCESS_DENIED)
          || (estat =? EXIT_PRNERR_NORETRY_BAD_SETTINGS)
          || (estat =? EXIT_PRNERR_NORETRY_NO_SUCH_ADDRESS) then
    mret (EXIT_PRNERR_NORETRY, STATUS_WAITING, PRNSTATUS_IDLE)
  else
    printer_alert prnid false "Unrecognized exit code %d returned by pprdrv." [AD estat];;
    mret (EXIT_PRNERR, STATUS_WAITING, PRNSTATUS_IDLE).

(** The wait before the [n]th retry. *)
Definition retry_countdown (n : Z) : Z :=
  let c := n * RETRY_MULTIPLIER in
  if MIN_RETRY <? c then MIN_RETRY else c.

(** The second switch: the printer's next status. *)
Definition act_on_printer_error (prnid estat prn_status : Z) : P Z :=
  if estat =? EXIT_PRNERR_NORETRY then
    printer_alert prnid false "Printer placed in fault mode, no auto-retry." [];;
    upd_pstate prnid (λ st, set_ps_countdown 0 (set_ps_next_error_retry 0 st));;
    mret PRNSTATUS_FAULT
  else if estat =? EXIT_PRNERR then
    printer_alert prnid false "Printer placed in auto-retry mode." [];;
    p ← get_printer prnid;
    n ← c_int (ps_next_error_retry (p_spool_state p) + 1);
    c_int (n * RETRY_MULTIPLIER);;
    upd_pstate prnid (λ st, set_ps_countdown (retry_countdown n) (set_ps_next_error_retry n st));;
    mret PRNSTATUS_FAULT
  else mret prn_status.

Definition post_failure_alert (prnid prn_status : Z) : P unit :=
  when (prn_status =? PRNSTATUS_FAULT)
    (p ← get_printer prnid;
     let a := p_alert p in
     alert_printer_failed (p_name p) (al_interval a) (al_method a) (al_address a)
       (ps_next_error_retry (p_spool_state p))).

(** Remove the job, or put it in its new state and look for another printer. *)
Definition dispose_of_job (prnid estat job_status : Z) : P unit :=
  p ← get_printer prnid;
  if (estat =? EXIT_PRINTED) || p_cancel_job p then
    queue_dequeue_job (p_job_destid p) (p_job_id p) (p_job_subid p);;
    upd_printer prnid (set_p_cancel_job false)
  else
    x ← queue_job_new_status (p_job_destid p) (p_job_id p) (p_job_subid p) job_status;
    when (job_status =? STATUS_WAITING) (printer_try_start_suitable_4_this_job (Jq x)).

Definition settle_printer (prnid prn_status : Z) : P unit :=
  p ← get_printer prnid;
  let prn_status' :=
    if (p_status p =? PRNSTATUS_STOPPING) || (p_status p =? PRNSTATUS_HALTING)
    then PRNSTATUS_STOPT else prn_status in
  printer_new_status prnid prn_status';;
  p' ← get_printer prnid;
  when (p_status p' =? PRNSTATUS_IDLE) (printer_look_for_work prnid).

Definition pprdrv_exited (prnid wstat : Z) : P unit :=
  upd_printer prnid (set_p_job_pid 0);;
  modify_tb (λ t, set_t_active_printers (t_active_printers t - 1) t);;
  code ← decode_wstat prnid wstat;
  '(estat, job_status, prn_status0) ← act_on_exit_code prnid wstat code;
  prn_status ← act_on_printer_error prnid estat prn_status0;
  post_failure_alert prnid prn_status;;
  p ← get_printer prnid;
  let job_status' := if p_hold_job p then STATUS_HELD else job_status in
  upd_printer prnid (set_p_hold_job false);;
  when (p_cancel_job p) (respond_printing prnid RESP_CANCELED_PRINTING);;
  dispose_of_job prnid estat job_status';;
  settle_printer prnid prn_status.

(** Was it a pprdrv? *)
Definition pprdrv_child_hook (pid wstat : Z) : P bool :=
  n ← gets printers;
  r ← for_loop (length n) 0 (λ x,
    p ← get_printer x;
    if p_job_pid p =? pid then pprdrv_exited x wstat;; mret (Some tt)
    else mret None);
  mret (match r with Some _ => true | None => false end).

Definition pprdrv_kill (prnid : Z) : P unit :=
  p ← get_printer prnid;
  if p_job_pid p <=? 0 then
    error "%s(): assertion failed, printers[%d].pid = %ld"
      [AS "pprdrv_kill"; AD prnid; AD (p_job_pid p)]
  else
    r ← kill (p_job_pid p) SIGTERM;
    when (r =? -1)
      (error "%s(): kill(%ld, SIGTERM) failed, errno=%d (%s)"
         [AS "pprdrv_kill"; AD (p_job_pid p)]).
End pprdrv_exit.
