(* ===== verification/Question.v ===== *)
(** Questions (src/pprd/pprd_question.c): a limited number of processes ask
    users about their jobs, and ask again after a while. *)
From S2P Require Import Prelude.
From S2P Require Import Text.
From S2P Require Import Spooler.
From S2P Require Import Destid.
From S2P Require Import QueueStatus.
From S2P Require Import PprdrvExit.

Section question.
Context `{PPRConfig}.

Definition aq_set_pid (pid : Z) (a : active_question_slot) : active_question_slot :=
  mkAQ pid (aq_destid a) (aq_id a) (aq_subid a).

Definition modify_slot (x : Z) (f : active_question_slot → active_question_slot) : P unit :=
  modify_tb (λ t, set_t_active_question (upd_index x f (t_active_question t)) t).

Definition question_init : P unit :=
  modify_tb (λ t, set_t_active_question (map (aq_set_pid 0) (t_active_question t)) t).

Fixpoint find_slot (pid x : Z) (l : list active_question_slot) : option (Z * active_question_slot) :=
  match l with
  | [] => None
  | a :: l' => if aq_pid a =? pid then Some (x, a) else find_slot pid (x + 1) l'
  end.

Definition has_flag (flags f : Z) : bool := negb (Z.land flags f =? 0).

Definition add_flag (f : Z) (e : QEntry) : QEntry :=
  set_q_flags (Z.lor (q_flags e) f) e.

Definition drop_flag (f : Z) (e : QEntry) : QEntry :=
  set_q_flags (Z.ldiff (q_flags e) f) e.

(** When fork() fails its [-1] stays in the slot. *)
Definition question_launch (j : jobptr) : P Z :=
  slots ← gets (λ s, t_active_question (tb s));
  match find_slot 0 0 slots with
  | None => fatal 0 "question_launch(): assertion failed"
  | Some (x, _) =>
      pid ← fork;
      modify_slot x (aq_set_pid pid);;
      if pid =? -1 then
        error "%s(): fork() failed, errno=%d (%s)" [AS "question_launch"];;
        mret (-1)
      else
        job ← job_get j;
        destname ← destid_to_name (q_destid job);
        emit (EvExec "pprd-question"
          [AS (str_take 255 (qfname destname (q_id job) (q_subid job)))]);;
        job_upd j (add_flag JOB_FLAG_QUESTION_ASKING_NOW);;
        modify_slot x (λ a, mkAQ (aq_pid a) (q_destid job) (q_id job) (q_subid job));;
        modify_tb (λ t, set_t_launches_this_tick (t_launches_this_tick t + 1)
                          (set_t_active_questions (t_active_questions t + 1) t));;
        mret 0
  end.

(** The loop goes on while all of these hold. *)
Definition may_ask_more (count : Z) (t : tables) : bool :=
  (count <? t_outstanding_questions t)
  && (t_active_questions t <? MAX_ACTIVE_QUESTIONS)
  && (t_launches_this_tick t <? MAX_LAUNCHES_PER_TICK).

(** The count, when the loop got to the end of the queue. *)
Fixpoint ask_questions (n : nat) (x count time_now : Z) : P (option Z) :=
  match n with
  | O => mret (Some count)
  | S n' =>
      go ← gets (λ s, may_ask_more count (tb s));
      if (go : bool) then
        e ← job_get (Jq x);
        if has_flag (q_flags e) JOB_FLAG_QUESTION_UNANSWERED then
          when (negb (has_flag (q_flags e) JOB_FLAG_QUESTION_ASKING_NOW)
                && (q_resend_message_at e <=? time_now))
            (question_launch (Jq x);; mret tt);;
          ask_questions n' (x + 1) (count + 1) time_now
        else ask_questions n' (x + 1) count time_now
      else mret None
  end.

Definition question_look_for_work : P unit :=
  t ← gets tb;
  when (0 <? t_outstanding_questions t)
    (time_now ← time;
     lock;;
     r ← ask_questions (length (t_queue t)) 0 0 time_now;
     (match r with
      | Some count => modify_tb (set_t_outstanding_questions count)
      | None => mret tt
      end);;
     unlock).

Definition question_job (j : jobptr) : P unit :=
  lock;;
  modify_tb (λ t, set_t_outstanding_questions (t_outstanding_questions t + 1) t);;
  t ← gets tb;
  when (t_active_questions t <? MAX_ACTIVE_QUESTIONS) (question_launch j;; mret tt);;
  unlock.

Definition question_answered (wstat : Z) (y : Z) (e : QEntry) : P unit :=
  if negb (has_flag (q_flags e) JOB_FLAG_QUESTION_ASKING_NOW)
  then fatal 0 "question_child_hook(): assertion failed: ASKING_NOW not set"
  else
    time_now ← time;
    let delay := if WIFEXITED wstat && (WEXITSTATUS wstat =? 0) then 300 else 60 in
    job_upd (Jq y) (set_q_resend_message_at (time_now + delay));;
    job_upd (Jq y) (drop_flag JOB_FLAG_QUESTION_ASKING_NOW).

Definition question_child_hook (pid wstat : Z) : P bool :=
  lock;;
  slots ← gets (λ s, t_active_question (tb s));
  retval ←
    match find_slot pid 0 slots with
    | None => mret false
    | Some (x, a) =>
        for_queue (λ y,
          e ← job_get (Jq y);
          if is_job (aq_destid a) (aq_id a) (aq_subid a) e
          then question_answered wstat y e;; mret (Some tt)
          else mret None);;
        modify_slot x (aq_set_pid 0);;
        modify_tb (λ t, set_t_active_questions (t_active_questions t - 1) t);;
        question_look_for_work;;
        mret true
    end;
  unlock;;
  mret retval.

Definition question_tick : P unit :=
  modify_tb (set_t_launches_this_tick 0);;
  question_look_for_work.

Definition question_on_off (j : jobptr) (on_off : bool) : P unit :=
  job_upd j (set_q_resend_message_at 0);;
  (if on_off then
     job_upd j (add_flag JOB_FLAG_QUESTION_UNANSWERED);;
     job ← job_get j;
     when (negb (has_flag (q_flags job) JOB_FLAG_QUESTION_ASKING_NOW)) (question_job j)
   else job_upd j (drop_flag JOB_FLAG_QUESTION_UNANSWERED));;
  queue_write_status_and_flags j.
End question.
