(* ===== verification/QueueAccept.v ===== *)
(** Receiving a job (src/pprd/pprd_queue.c, second part): reading its queue
    file, giving it its place in the queue, and starting it. *)
From S2P Require Import Prelude.
From S2P Require Import Text.
From S2P Require Import Spooler.
From S2P Require Import Destid.
From S2P Require Import QueueStatus.
From S2P Require Import Media.
From S2P Require Import Printer.
From S2P Require Import Question.

Section queue_accept.
Context `{PPRConfig}.

(** ** Reading the queue file *)

Definition modify_newent (f : QEntry → QEntry) : P unit := job_upd Jnew f.

(** The scan stores what it reads, and a line it can't read to the end leaves
    what it read so far.  [%hx] stores 16 bits into a signed field. *)
Definition store_pprd (k : nat) (v : Z) (e : QEntry) : QEntry :=
  match k with
  | 0%nat => set_q_priority (i16 v) e
  | 1%nat =>
      mkQEntry (q_destid e) (q_id e) (q_subid e) (q_priority e) (u32 v)
        (q_status e) (q_flags e) (q_resend_message_at e) (q_media e) (q_pass e) (q_never e)
        (q_notnow e)
  | 2%nat => set_q_status (i16 v) e
  | _ => set_q_flags (u16 v) e
  end.

Fixpoint store_scan (k : nat) (vals : list scanval) (e : QEntry) : QEntry :=
  match vals with
  | VInt v :: vals' => store_scan (S k) vals' (store_pprd k v e)
  | _ => e
  end.

Definition pprd_format : string := "PPRD: %hx %x %hx %hx".

Definition media_format : string := "Media: %@s".

Definition store_medium (media_index : nat) (id : Z) (e : QEntry) : QEntry :=
  mkQEntry (q_destid e) (q_id e) (q_subid e) (q_priority e)
    (q_sequence_number e) (q_status e) (q_flags e) (q_resend_message_at e)
    (<[media_index := i16 id]> (q_media e)) (q_pass e) (q_never e) (q_notnow e).

Definition scanned {A} (r : scan_result) (k : Z → list scanval → P A) : P A :=
  match r with
  | Scanned n vals => k n vals
  | ScanThrow msg => gu_Throw msg
  | ScanUndef => undef "gu_sscanf()"
  end.

Definition read_media_line (media_index : nat) (line : string) : P nat :=
  if (media_index <? MAX_DOCMEDIA)%nat then
    scanned (gu_sscanf line media_format [Z.of_nat MAX_MEDIANAME + 1]) (λ n vals,
      match vals with
      | [VStr tmedia] =>
          id ← get_media_id tmedia;
          modify_newent (store_medium media_index id);;
          mret (S media_index)
      | _ => mret media_index
      end)
  else mret media_index.

(** The while loop over the lines: was there a PPRD line, and how many media
    are there? *)
Fixpoint read_lines (lines : list string) (pprd_line_seen : bool) (media_index : nat)
    : P (bool * nat) :=
  match lines with
  | [] => mret (pprd_line_seen, media_index)
  | line :: lines' =>
      scanned (gu_sscanf line pprd_format []) (λ n vals,
        modify_newent (store_scan 0 vals);;
        if n =? 4 then
          modify_newent (λ e, set_q_status (i16 (q_status e * -1)) e);;
          read_lines lines' true media_index
        else
          media_index' ← read_media_line media_index line;
          read_lines lines' pprd_line_seen media_index')
  end.

Fixpoint clear_media (n : nat) (media_index : nat) : P unit :=
  match n with
  | O => mret tt
  | S n' => modify_newent (store_medium media_index (-1));; clear_media n' (S media_index)
  end.

Definition read_queue_file (qfname : string) : P unit :=
  qfname_path ← fname "%s/%s" [AS QUEUEDIR; AS qfname];
  f ← read_file qfname_path;
  match f with
  | None => gu_Throw (dq ("can't open `" +:+ qfname_path +:+ "`"))
  | Some content =>
      '(seen, media_index) ← read_lines (file_lines content) false 0%nat;
      if negb seen then gu_Throw "no PPRD line"
      else clear_media (MAX_DOCMEDIA - media_index) media_index
  end.

(** What the queue file does not say. *)
Definition fresh_job (pass : Z) (e : QEntry) : QEntry :=
  let e' := set_q_notnow 0 (set_q_never 0 (set_q_resend_message_at 0 (set_q_pass pass e))) in
  if q_status e' =? 0 then set_q_status STATUS_WAITING e' else e'.

(** ** The place in the queue *)

(** Does the new job go before [e]? *)
Definition goes_before (new e : QEntry) : bool :=
  (q_priority e <? q_priority new)
  || ((q_priority new =? q_priority e)
      && (q_sequence_number new <? q_sequence_number e)).

(** The place, and the number of jobs for the same destination before it. *)
Fixpoint find_place (new : QEntry) (l : list QEntry) (x destmates_passed : Z) : Z * Z :=
  match l with
  | [] => (x, destmates_passed)
  | e :: l' =>
      if goes_before new e then (x, destmates_passed)
      else find_place new l' (x + 1)
             (if q_destid e =? q_destid new then destmates_passed + 1
              else destmates_passed)
  end.

Definition insert_at {A} (x : Z) (a : A) (l : list A) : list A :=
  take (Z.to_nat x) l ++ a :: drop (Z.to_nat x) l.

Definition grow_queue : P unit :=
  t ← gets tb;
  when (Z.of_nat (length (t_queue t)) =? t_queue_size t)
    (if t_queue_size t + QUEUE_SIZE_GROWBY <=? QUEUE_SIZE_MAX
     then modify_tb (set_t_queue_size (t_queue_size t + QUEUE_SIZE_GROWBY))
     else gu_Throw "queue array overflow").

Definition reload_entry : P Z :=
  new ← job_get Jnew;
  r ← for_queue (λ x,
    e ← job_get (Jq x);
    mret (if is_job (q_destid new) (q_id new) (q_subid new) e then Some x else None));
  match r with
  | None => gu_Throw ("can't find job " +:+ fmt_d (q_id new) +:+ " in queue array")
  | Some x => job_upd (Jq x) (λ _, new);; mret x
  end.

Definition insert_entry (destname : string) (job_is_new : bool) : P Z :=
  grow_queue;;
  new ← job_get Jnew;
  q ← gets queue;
  let '(x, destmates_passed) := find_place new q 0 0 in
  modify_tb (λ t, set_t_queue (insert_at x new (t_queue t)) t);;
  job_count_adjust (q_destid new) 1 job_is_new;;
  full ← jobid_str destname (q_id new) (q_subid new);
  state_update "JOB %s %d %d" [AS full; AD x; AD destmates_passed];;
  mret x.

(** ** The routine *)

Definition refuse_bad_destination (destname : string) (job_is_new : bool) : P unit :=
  new ← job_get Jnew;
  if q_destid new =? -1 then
    if job_is_new then
      respond2 destname (q_id new) (q_subid new) (-1) destname RESP_CANCELED_BADDEST;;
      gu_Throw (dq ("destination `" +:+ destname +:+ "` does not exist"))
    else gu_Throw (dq ("destination `" +:+ destname +:+ "` no longer exists"))
  else
    accepting ← (if job_is_new then destid_accepting (q_destid new) else mret true);
    when (negb accepting)
      (respond (q_destid new) (q_id new) (q_subid new) (-1) RESP_CANCELED_REJECTING;;
       gu_Throw (dq ("destination `" +:+ destname +:+ "` is not accepting jobs"))).

(** Tell the question system, and try to start a printer. *)
Definition announce_job (x : Z) (job_is_new : bool) : P unit :=
  e ← job_get (Jq x);
  when (has_flag (q_flags e) JOB_FLAG_QUESTION_UNANSWERED
        && negb (q_status e =? STATUS_RECEIVING)) (question_job (Jq x));;
  e' ← job_get (Jq x);
  when (job_is_new && (q_status e' =? STATUS_WAITING))
    (printer_try_start_suitable_4_this_job (Jq x)).

Definition accept_body (qfname destname : string) (job_is_new reload_job : bool) : P unit :=
  destid ← destid_by_name destname;
  modify_newent (set_q_destid (i16 destid));;
  refuse_bad_destination destname job_is_new;;
  read_queue_file qfname;;
  new ← job_get Jnew;
  g ← is_group (q_destid new);
  modify_newent (fresh_job (if (g : bool) then 1 else 0));;
  lock;;
  media_set_notnow_for_job Jnew false;;
  t ← gets tb;
  if t_queue_size t <? Z.of_nat (length (t_queue t))
  then fatal 1 "queue_accept_queuefile(): assertion failed"
  else
  x ← (if reload_job then reload_entry else insert_entry destname job_is_new);
  announce_job x job_is_new;;
  unlock.

Definition store_jobname (id subid : Z) (e : QEntry) : QEntry :=
  mkQEntry (q_destid e) (i16 id) (i16 subid) (q_priority e) (q_sequence_number e)
    (q_status e) (q_flags e) (q_resend_message_at e) (q_media e) (q_pass e)
    (q_never e) (q_notnow e).

(** What parse_qfname() stored before it failed. *)
Definition store_bad_jobname (vals : list scanval) (e : QEntry) : QEntry :=
  match vals with
  | VInt id :: VInt subid :: _ => store_jobname id subid e
  | VInt id :: _ => store_jobname id (q_subid e) e
  | _ => e
  end.

Definition accept_failed (qfname destname gu_exception : string) : P unit :=
  error "%s(): failed to enqueue %s: %s"
    [AS "queue_accept_queuefile"; AS qfname; AS gu_exception];;
  new ← job_get Jnew;
  delete_job_files destname (q_id new) (q_subid new).

(** newent is not initialised: what it holds to begin with is what [t_newent]
    held before. *)
Definition queue_accept_queuefile (qfname : string) (job_is_new reload_job : bool) : P unit :=
  match parse_qfname qfname with
  | QfUndef => undef "parse_qfname()"
  | QfBad destname vals =>
      modify_newent (store_bad_jobname vals);;
      gu_Try (gu_Throw "can't parse queue file name") (accept_failed qfname destname)
  | QfName destname id subid =>
      modify_newent (store_jobname id subid);;
      gu_Try (accept_body qfname destname job_is_new reload_job)
        (accept_failed qfname destname)
  end.

Definition queue_new_job (command : string) : P unit :=
  match lmatchp command "j " with
  | None => error "%s(): bad j command: %s" [AS "queue_new_job"; AS command]
  | Some qfname => queue_accept_queuefile qfname true false
  end.

Definition queue_reload_job (command : string) : P unit :=
  match lmatchp command "J " with
  | None => error "%s(): bad J command: %s" [AS "queue_reload_job"; AS command]
  | Some qfname => queue_accept_queuefile qfname true true
  end.
End queue_accept.
