(* ===== verification/PpopJobs.v ===== *)
(** The commands ppop sends about jobs (src/pprd/pprd_ppop.c): list, hold,
    release, cancel, purge, move, rush, and turning a question on or off. *)
From S2P Require Import Prelude.
From S2P Require Import Text.
From S2P Require Import Spooler.
From S2P Require Import Destid.
From S2P Require Import QueueStatus.
From S2P Require Import Media.
From S2P Require Import Printer.
From S2P Require Import PprdrvExit.
From S2P Require Import Question.
From S2P Require Import QueueAccept.

Section ppop_jobs.
Context `{PPRConfig}.

(** ** Replies *)

Definition reply_code (n : Z) : P unit := fprintf_reply "%d" [AD n].

Definition reply (fmt : string) (args : list farg) : P unit :=
  fprintf_reply (dq fmt) args.

Definition reply_with (n : Z) (fmt : string) (args : list farg) : P unit :=
  reply_code n;; reply fmt args.

(** A reply that names a job. *)
Definition reply_job (n : Z) (fmt destname : string) (id subid : Z) : P unit :=
  reply_code n;;
  full ← jobid_str destname id subid;
  reply fmt [AS full].

(** Look the destination up, or say that there is none. *)
Definition with_destination (fmt destname : string) (k : Z → P unit) : P unit :=
  destid ← destid_by_name destname;
  if destid =? -1 then reply_with EXIT_BADDEST fmt [AS destname] else k destid.

Definition wildcard (pattern v : Z) : bool := (pattern =? -1) || (v =? pattern).

(** ** ppop list *)

Definition list_job (e : QEntry) : P unit :=
  name ← destid_to_name (q_destid e);
  n ← fname "%s/%s-%d.%d" [AS QUEUEDIR; AS name; AD (q_id e); AD (q_subid e)];
  f ← read_file n;
  match f with
  | None => error (dq "%s(): can't open `%s`, errno=%d (%s)") [AS "ppop_list"; AS n]
  | Some contents =>
      ctimes ← gets (λ s, w_ctimes (io s));
      let ctime := if q_status e =? STATUS_ARRESTED then default 0 (ctimes !! n) else 0 in
      printer ← (if 0 <=? q_status e then destid_to_name (q_status e) else mret "?");
      fprintf_reply "%s %d %d %d %d %s %d %d %d %ld"
        [AS name; AD (q_id e); AD (q_subid e); AD (q_priority e); AD (q_status e);
         AS printer; AD (q_never e); AD (q_notnow e); AD (q_pass e); AD ctime];;
      emit (EvReplyFile contents);;
      fprintf_reply ".." [];;
      fprintf_reply "." []
  end.

Definition list_jobs (destid id subid : Z) : P unit :=
  reply_code EXIT_OK_DATA;;
  lock;;
  for_queue (λ x,
    e ← job_get (Jq x);
    when (wildcard destid (q_destid e) && wildcard id (q_id e)
          && wildcard subid (q_subid e)) (list_job e);;
    mret (None (A := unit)));;
  unlock.

Definition ppop_list (command : string) : P unit :=
  scanned (gu_sscanf command "l %S %d %d" []) (λ _ vals,
    match vals with
    | [VStr destname; VInt id; VInt subid] =>
        if String.eqb destname "all" || String.eqb destname "any"
        then list_jobs QUEUEID_WILDCARD id subid
        else
          with_destination "Destination `%s` does not exist." destname
            (λ destid, list_jobs destid id subid)
    | _ => error "%s(): invalid list command: %s" [AS "ppop_list"; AS command]
    end).

(** ** ppop hold, ppop release *)

(** Take the job away from the printer it is printing on. *)
Definition seize_job (function : string) (x prnid : Z) : P unit :=
  queue_p_job_new_status (Jq x) STATUS_SEIZING;;
  printer_new_status prnid PRNSTATUS_SEIZING;;
  upd_printer prnid (set_p_hold_job true);;
  p ← get_printer prnid;
  if p_job_pid p <=? 0 then
    error "%s(): assertion failed, printers[%d].pid = %ld"
      [AS function; AD prnid; AD (p_job_pid p)]
  else pprdrv_kill prnid.

(** The index is the job's status, which is STATUS_CANCEL. *)
Definition hold_instead_of_cancel (x : Z) (e : QEntry) : P unit :=
  printer_new_status (q_status e) PRNSTATUS_SEIZING;;
  upd_printer (q_status e) (set_p_cancel_job false);;
  upd_printer (q_status e) (set_p_hold_job true);;
  queue_p_job_new_status (Jq x) STATUS_SEIZING.

Definition hold_job (destname : string) (id subid x : Z) : P unit :=
  e ← job_get (Jq x);
  let status := q_status e in
  let say n fmt := reply_job n fmt destname id subid in
  if (status =? STATUS_WAITING) || (status =? STATUS_WAITING4MEDIA) then
    reply_code EXIT_OK;;
    queue_p_job_new_status (Jq x) STATUS_HELD
  else if status =? STATUS_HELD then
    say EXIT_ALREADY "The print job `%s` is already held."
  else if status =? STATUS_ARRESTED then
    say EXIT_ALREADY "The print job `%s` is arrested."
  else if status =? STATUS_SEIZING then
    say EXIT_ALREADY
      "The print job `%s` is already undergoing a transition to the held state."
  else if status =? STATUS_CANCEL then
    say EXIT_OK "Converting outstanding cancel order for job `%s` to a hold order.";;
    hold_instead_of_cancel x e
  else if status =? STATUS_RECEIVING then
    reply_with EXIT_NOTPOSSIBLE "Not implemented for not-yet-received jobs." []
  else if 0 <=? status then
    reply_code EXIT_OK;;
    full ← jobid_str destname id subid;
    prn ← destid_to_name status;
    reply "Seizing job `%s` which is printing on `%s`." [AS full; AS prn];;
    seize_job "ppop_hold_release" x status
  else
    reply_code EXIT_INTERNAL;;
    full ← jobid_str destname id subid;
    reply "Internal pprd error: job `%s` has unknown status %d." [AS full; AD status].

(** Make a job wait, and start it if a printer will have it. *)
Definition requeue_job (x : Z) : P unit :=
  queue_p_job_new_status (Jq x) STATUS_WAITING;;
  media_set_notnow_for_job (Jq x) true;;
  e ← job_get (Jq x);
  when (q_status e =? STATUS_WAITING) (printer_try_start_suitable_4_this_job (Jq x)).

Definition release_job (destname : string) (id subid x : Z) : P unit :=
  e ← job_get (Jq x);
  let status := q_status e in
  let say n fmt := reply_job n fmt destname id subid in
  if (status =? STATUS_HELD) || (status =? STATUS_ARRESTED) then
    reply_code EXIT_OK;; requeue_job x
  else if status =? STATUS_SEIZING then
    say EXIT_ALREADY
      "The print job `%s` can't be released until an outstanding hold order has been fully executed."
  else if status =? STATUS_RECEIVING then
    reply_with EXIT_NOTPOSSIBLE "Not implemented for not-yet-received jobs." []
  else say EXIT_ALREADY "The print job `%s` is not being held.".

(** Act on the first job that matches. *)
Definition on_first_job (destid id subid : Z) (body : Z → P unit) : P bool :=
  lock;;
  r ← for_queue (λ x,
    e ← job_get (Jq x);
    if (q_destid e =? destid) && (q_id e =? id) && wildcard subid (q_subid e)
    then body x;; mret (Some tt)
    else mret None);
  unlock;;
  mret (match r with Some _ => true | None => false end).

Definition ppop_hold_release (command : string) (action : Z) : P unit :=
  scanned (gu_sscanf (str_drop 1 command) " %S %d %d" []) (λ _ vals,
    match vals with
    | [VStr destname; VInt id; VInt subid] =>
        with_destination "The destination `%s` does not exist." destname (λ destid,
          found ← on_first_job destid id subid
            (if action =? 0 then hold_job destname id subid
             else release_job destname id subid);
          when (negb found)
            (reply_job EXIT_BADJOB "The print job `%s` does not exist."
               destname id subid))
    | _ => error (dq "%s(): invalid `h`, or `r` command") [AS "ppop_hold_release"]
    end).

(** ** ppop cancel, ppop purge *)

Definition cancel_printing_job (x prnid : Z) : P unit :=
  p ← get_printer prnid;
  when (p_status p =? PRNSTATUS_PRINTING) (printer_new_status prnid PRNSTATUS_CANCELING);;
  upd_printer prnid (set_p_cancel_job true);;
  queue_p_job_new_status (Jq x) STATUS_CANCEL;;
  pprdrv_kill prnid.

(** The job is going to be held: cancel it instead.  The queue does not say
    which printer has it. *)
Definition cancel_seizing_job (function : string) (x : Z) (e : QEntry) : P unit :=
  n ← gets printers;
  r ← for_loop (length n) 0 (λ prnid,
    p ← get_printer prnid;
    if is_job (p_job_destid p) (p_job_id p) (p_job_subid p) e then
      when (p_status p =? PRNSTATUS_SEIZING)
        (printer_new_status prnid PRNSTATUS_CANCELING);;
      upd_printer prnid (set_p_hold_job false);;
      upd_printer prnid (set_p_cancel_job true);;
      queue_p_job_new_status (Jq x) STATUS_CANCEL;;
      mret (Some tt)
    else mret None);
  match r with
  | Some _ => mret tt
  | None =>
      error "%s(): couldn't find printer that job is printing on"
        [AS function]
  end.

Definition remove_idle_job (e : QEntry) (inform : bool) : P unit :=
  when (inform && negb (q_status e =? STATUS_ARRESTED))
    (respond (q_destid e) (q_id e) (q_subid e) (-1) RESP_CANCELED);;
  queue_dequeue_job (q_destid e) (q_id e) (q_subid e).

Definition job_matches (destid id subid : Z) (e : QEntry) : bool :=
  wildcard destid (q_destid e) && wildcard id (q_id e) && wildcard subid (q_subid e).

(** Was the job taken out of the queue? *)
Definition cancel_one (function : string) (x : Z) (e : QEntry) (inform : bool) : P bool :=
  let status := q_status e in
  if 0 <=? status then cancel_printing_job x status;; mret false
  else if status =? STATUS_CANCEL then mret false
  else if status =? STATUS_SEIZING then cancel_seizing_job function x e;; mret false
  else remove_idle_job e inform;; mret true.

(** for(x = 0; x < queue_entries; x++) with an x-- for a job that is removed;
    every turn moves on or shortens the queue.  The result is the number of
    jobs canceled. *)
Fixpoint cancel_jobs (function : string) (fuel : nat) (destid id subid : Z) (inform : bool)
    (x canceled_count : Z) : P Z :=
  match fuel with
  | O => λ _, Stopped SFuel
  | S fuel' =>
      n ← gets queue_entries;
      if x <? n then
        e ← job_get (Jq x);
        if job_matches destid id subid e then
          removed ← cancel_one function x e inform;
          cancel_jobs function fuel' destid id subid inform
            (if (removed : bool) then x else x + 1) (canceled_count + 1)
        else
          cancel_jobs function fuel' destid id subid inform (x + 1) canceled_count
      else mret canceled_count
  end.

Definition cancel_all (function : string) (destid id subid : Z) (inform : bool) : P Z :=
  lock;;
  q ← gets queue;
  canceled_count ← cancel_jobs function (S (length q)) destid id subid inform 0 0;
  unlock;;
  mret canceled_count.

Definition ppop_cancel_purge (command : string) : P unit :=
  scanned (gu_sscanf command "c %S %d %d %d" []) (λ _ vals,
    match vals with
    | [VStr destname; VInt id; VInt subid; VInt inform] =>
        destid ← destid_by_name destname;
        if (destid =? -1) && negb (String.eqb destname "all")
           && negb (String.eqb destname "any")
        then reply_with EXIT_BADDEST "The destination `%s` does not exist." [AS destname]
        else
          canceled_count ←
            cancel_all "ppop_cancel_purge" destid id subid (truth inform);
          if (canceled_count =? 0) && negb (id =? -1) && negb (subid =? -1) then
            reply_job EXIT_BADJOB "The print job `%s` does not exist." destname id subid
          else reply_code EXIT_OK_DATA;; reply_code canceled_count
    | _ => error "%s(): invalid command: %s" [AS "ppop_cancel_purge"; AS command]
    end).
End ppop_jobs.

(** * The commands of ppop that change a job's place (src/pprd/pprd_ppop.c):
    move to another destination, rush to the front or to the end; and ppop's
    command to turn a job's question on or off. *)

Section ppop_move.
Context `{PPRConfig}.

(** ** ppop move *)

Definition move_file_list : list string :=
  ["comments"; "pages"; "text"; "log"; "infile"; "barbar"].

Definition rename_job_file (new_destname : string) (e : QEntry) (suffix : string) : P unit :=
  destname ← destid_to_name (q_destid e);
  oldname ← fname "%s/%s-%d.%d-%s"
    [AS DATADIR; AS destname; AD (q_id e); AD (q_subid e); AS suffix];
  newname ← fname "%s/%s-%d.%d-%s"
    [AS DATADIR; AS new_destname; AD (q_id e); AD (q_subid e); AS suffix];
  rename oldname newname.

Fixpoint rename_job_files (new_destname : string) (e : QEntry) (l : list string) : P unit :=
  match l with
  | [] => mret tt
  | suffix :: l' =>
      rename_job_file new_destname e suffix;; rename_job_files new_destname e l'
  end.

(** Tell the queue monitors, and rename the job's files. *)
Definition relocate_files (e : QEntry) (new_destname : string) (rank2 : Z) : P unit :=
  destname ← destid_to_name (q_destid e);
  full ← jobid_str destname (q_id e) (q_subid e);
  state_update "MOV %s %s %d" [AS full; AS new_destname; AD rank2];;
  oldname ← fname "%s/%s-%d.%d" [AS QUEUEDIR; AS destname; AD (q_id e); AD (q_subid e)];
  newname ← fname "%s/%s-%d.%d" [AS QUEUEDIR; AS new_destname; AD (q_id e); AD (q_subid e)];
  rename oldname newname;;
  rename_job_files new_destname e move_file_list.

(** fopen(name, "a") and fprintf(). *)
Definition append_file (n text : string) : P unit :=
  w ← writable n;
  when w
    (old ← read_file n;
     set_file n (default EmptyString old +:+ text)).

Definition move_note (destname new_destname : string) : string :=
  dq ("Job moved from destination `" +:+ destname +:+ "` to `" +:+ new_destname +:+ "`.")
  +:+ String (chr 10) EmptyString.

(** Start over: no printer is ruled out, and the first pass. *)
Definition reset_job (x : Z) : P unit :=
  e ← job_get (Jq x);
  when (q_status e =? STATUS_STRANDED) (queue_p_job_new_status (Jq x) STATUS_WAITING);;
  g ← is_group (q_destid e);
  job_upd (Jq x) (λ q, set_q_pass (of_bool g) (set_q_never 0 q));;
  media_set_notnow_for_job (Jq x) true;;
  e' ← job_get (Jq x);
  when (q_status e' =? STATUS_WAITING) (printer_try_start_suitable_4_this_job (Jq x)).

(** The next rank among the jobs of the new destination. *)
Definition move_one (x : Z) (e : QEntry) (destname new_destname : string)
    (new_destid rank2 : Z) : P Z :=
  rank2' ←
    (if q_destid e =? new_destid then mret rank2
     else
       relocate_files e new_destname rank2;;
       job_upd (Jq x) (set_q_destid (i16 new_destid));;
       mret (rank2 + 1));
  logname ← fname "%s/%s-%d.%d-log"
    [AS DATADIR; AS new_destname; AD (q_id e); AD (q_subid e)];
  append_file logname (move_note destname new_destname);;
  reset_job x;;
  mret rank2'.

(** The loop over the queue: how many jobs were moved, and how many were not
    because they are printing. *)
Fixpoint move_jobs (n : nat) (destname new_destname : string)
    (destid id subid new_destid x rank2 moved printing : Z) : P (Z * Z) :=
  match n with
  | O => mret (moved, printing)
  | S n' =>
      e ← job_get (Jq x);
      if (q_destid e =? destid) && wildcard id (q_id e) && wildcard subid (q_subid e) then
        if 0 <=? q_status e then
          move_jobs n' destname new_destname destid id subid new_destid
            (x + 1) rank2 moved (printing + 1)
        else
          rank2' ← move_one x e destname new_destname new_destid rank2;
          move_jobs n' destname new_destname destid id subid new_destid
            (x + 1) rank2' (moved + 1) printing
      else
        move_jobs n' destname new_destname destid id subid new_destid (x + 1)
          (if q_destid e =? new_destid then rank2 + 1 else rank2) moved printing
  end.

Definition reply_moved (destname : string) (id subid moved printing : Z) : P unit :=
  (if moved =? 0 then
     if id =? -1 then
       reply_with EXIT_BADJOB "No jobs are queued for `%s`." [AS destname]
     else if 0 <? printing then reply_code EXIT_OK
     else reply_job EXIT_BADJOB "Job `%s` does not exist." destname id subid
   else if moved =? 1 then reply_with EXIT_OK "1 file was moved." []
   else reply_with EXIT_OK "%d files where moved." [AD moved]);;
  when (0 <? printing)
    (if printing =? 1
     then reply "1 file was not moved because it was being printed." []
     else reply "%d files were not moved because they were being printed." [AD printing]).

Definition ppop_move (command : string) : P unit :=
  scanned (gu_sscanf command "m %S %d %d %S" []) (λ _ vals,
    match vals with
    | [VStr destname; VInt id; VInt subid; VStr new_destname] =>
        with_destination "No printer or group is called `%s`." destname (λ destid,
        with_destination "No printer or group is called `%s`." new_destname (λ new_destid,
          lock;;
          q ← gets queue;
          '(moved, printing) ← move_jobs (length q) destname new_destname
             destid id subid new_destid 0 0 0 0;
          unlock;;
          reply_moved destname id subid moved printing))
    | _ => error (dq "%s(): invalid `m` command") [AS "ppop_move"]
    end).

(** ** ppop rush *)

(** The job at [x] slides to the front or to the end of the queue. *)
Definition rush_queue (x : Z) (newpos : Z) (q : list QEntry) : list QEntry :=
  match at_index q x with
  | None => q
  | Some t =>
      let rest := delete (Z.to_nat x) q in
      if newpos =? 0 then set_q_priority 101 t :: rest
      else rest ++ [set_q_priority 1 t]
  end.

Definition rush_job (destname : string) (newpos x : Z) : P unit :=
  reply_code EXIT_OK;;
  e ← job_get (Jq x);
  full ← jobid_str destname (q_id e) (q_subid e);
  state_update "RSH %s" [AS full];;
  modify_tb (λ t, set_t_queue (rush_queue x newpos (t_queue t)) t).

Definition ppop_rush (command : string) : P unit :=
  scanned (gu_sscanf command "U %S %d %d %d" []) (λ _ vals,
    match vals with
    | [VStr destname; VInt id; VInt subid; VInt newpos] =>
        with_destination "No printer or group is called `%s`." destname (λ destid,
          found ← on_first_job destid id subid (rush_job destname newpos);
          when (negb found)
            (reply_job EXIT_BADJOB "Queue entry `%s` does not exist." destname id subid))
    | _ => error (dq "%s(): invalid `U` command") [AS "ppop_rush"]
    end).

(** ** Questions *)

Definition ppop_modify_question (command : string) : P unit :=
  scanned (gu_sscanf command "q %S %d %d %d" []) (λ _ vals,
    match vals with
    | [VStr destname; VInt id; VInt subid; VInt on_off] =>
        with_destination "No printer or group is called `%s`." destname (λ destid,
          found ← on_first_job destid id subid (λ x,
            reply_code EXIT_OK;; question_on_off (Jq x) (truth on_off));
          when (negb found)
            (reply_job EXIT_BADJOB "Queue entry `%s` does not exist." destname id subid))
    | _ => error (dq "%s(): invalid `q` command") [AS "ppop_modify_question"]
    end).
End ppop_move.
