(* ===== verification/PpopPrinters.v ===== *)
(** The commands ppop sends about printers and groups (src/pprd/pprd_ppop.c):
    status, start, stop, halt, media, mount, accept, reject, destinations; and
    the dispatcher. *)
From S2P Require Import Prelude.
From S2P Require Import Text.
From S2P Require Import Spooler.
From S2P Require Import Destid.
From S2P Require Import QueueStatus.
From S2P Require Import Media.
From S2P Require Import Printer.
From S2P Require Import PprdrvExit.
From S2P Require Import QueueAccept.
From S2P Require Import PpopJobs.

Section ppop_printers.
Context `{PPRConfig}.

(** ** ppop status *)

Definition has_job (status : Z) : bool :=
  (status =? PRNSTATUS_PRINTING) || (status =? PRNSTATUS_CANCELING)
  || (status =? PRNSTATUS_STOPPING) || (status =? PRNSTATUS_HALTING)
  || (status =? PRNSTATUS_SEIZING).

Definition ppop_status_do_printer (prnid : Z) : P unit :=
  p ← get_printer prnid;
  let st := p_spool_state p in
  name ← destid_to_name prnid;
  (if has_job (ps_status st) then
     destname ← destid_to_name (p_job_destid p);
     fprintf_reply "%s %d %d %d %s %d %d"
       [AS name; AD (ps_status st);
        AD (ps_next_error_retry st + ps_next_engaged_retry st);
        AD (ps_countdown st); AS destname; AD (p_job_id p); AD (p_job_subid p)]
   else
     fprintf_reply "%s %d %d %d ? 0 0 ?"
       [AS name; AD (ps_status st);
        AD (if ps_status st =? PRNSTATUS_ENGAGED then ps_next_engaged_retry st
            else ps_next_error_retry st);
        AD (ps_countdown st)]);;
  n ← fname "%s/%s/device_status" [AS PRINTERS_PURGABLE_STATEDIR; AS name];
  statusfile ← read_file n;
  (match statusfile with
   | Some messages => emit (EvReplyFile messages)
   | None => mret tt
   end);;
  fprintf_reply "." [].

Definition for_printers (body : Z → P unit) : P unit :=
  n ← gets printers;
  for_each (length n) 0 body.

Definition ppop_status (command : string) : P unit :=
  scanned (gu_sscanf command "s %S" []) (λ _ vals,
    match vals with
    | [VStr destname] =>
        if String.eqb destname "all" then
          reply_code EXIT_OK_DATA;;
          lock;;
          for_printers (λ x,
            p ← get_printer x;
            when (negb (p_status p =? PRNSTATUS_DELETED)) (ppop_status_do_printer x));;
          unlock
        else
          with_destination "The destination `%s` does not exist." destname (λ destid,
            reply_code EXIT_OK_DATA;;
            g ← is_group destid;
            lock;;
            (if (g : bool) then
               x ← destid_to_gindex destid;
               for_members x ppop_status_do_printer
             else ppop_status_do_printer destid);;
            unlock)
    | _ => error (dq "%s(): invalid `s` command") [AS "ppop_status"]
    end).

(** ** ppop start, stop, halt, wstop *)

Definition undefined_state (prnname : string) : P unit :=
  reply_with EXIT_INTERNAL
    "Internal pprd error: printer `%s` is in an undefined state." [AS prnname].

(** The status changes, and with it what jobs wait for. *)
Definition change_status (prnid newstatus : Z) : P unit :=
  printer_new_status prnid newstatus;;
  media_startstop_update_waitreason prnid.

Definition release_waiting_ppop (prnid : Z) : P unit :=
  p ← get_printer prnid;
  when (0 <? p_ppop_pid p)
    (kill (p_ppop_pid p) SIGUSR1;;
     upd_printer prnid (set_p_ppop_pid 0)).

Definition start_printer (prnname : string) (prnid : Z) : P unit :=
  p ← get_printer prnid;
  let status := p_status p in
  if (status =? PRNSTATUS_IDLE) || (status =? PRNSTATUS_CANCELING)
     || (status =? PRNSTATUS_SEIZING) || (status =? PRNSTATUS_ENGAGED)
     || (status =? PRNSTATUS_STARVED) then
    reply_with EXIT_ALREADY "The printer `%s` is not stopt." [AS prnname]
  else if status =? PRNSTATUS_PRINTING then
    reply_with EXIT_ALREADY "The printer `%s` is already printing." [AS prnname]
  else if (status =? PRNSTATUS_FAULT) || (status =? PRNSTATUS_STOPT) then
    reply_code EXIT_OK;;
    change_status prnid PRNSTATUS_IDLE;;
    printer_look_for_work prnid
  else if status =? PRNSTATUS_HALTING then
    reply_with EXIT_NOTPOSSIBLE
      "There is an outstanding halt command for the printer `%s`." [AS prnname]
  else if status =? PRNSTATUS_STOPPING then
    reply_code EXIT_OK;;
    release_waiting_ppop prnid;;
    change_status prnid PRNSTATUS_PRINTING
  else undefined_state prnname.

(** [halt]: now, or when the job is done.  The result is delayed_action. *)
Definition stop_printer (prnname : string) (prnid : Z) (halt : bool) : P bool :=
  p ← get_printer prnid;
  let status := p_status p in
  if (status =? PRNSTATUS_FAULT) || (status =? PRNSTATUS_IDLE)
     || (status =? PRNSTATUS_ENGAGED) || (status =? PRNSTATUS_STARVED) then
    reply_code EXIT_OK;;
    change_status prnid PRNSTATUS_STOPT;;
    mret false
  else if status =? PRNSTATUS_HALTING then
    reply_with EXIT_ALREADY "The printer `%s` is already halting." [AS prnname];;
    mret false
  else if status =? PRNSTATUS_STOPT then
    reply_with EXIT_ALREADY "The printer `%s` is already stopt." [AS prnname];;
    mret false
  else if (status =? PRNSTATUS_CANCELING) || (status =? PRNSTATUS_SEIZING) then
    change_status prnid PRNSTATUS_HALTING;;
    mret true
  else if (status =? PRNSTATUS_STOPPING) && negb halt then
    reply_with EXIT_ALREADY "The printer `%s` is already stopping." [AS prnname];;
    mret false
  else if (status =? PRNSTATUS_STOPPING) || (status =? PRNSTATUS_PRINTING) then
    (if halt then printer_new_status prnid PRNSTATUS_HALTING;; pprdrv_kill prnid
     else printer_new_status prnid PRNSTATUS_STOPPING);;
    media_startstop_update_waitreason prnid;;
    mret true
  else undefined_state prnname;; mret false.

(** The printer will stop later.  With [wait] the reply file is closed without
    a signal, and ppop gets its signal when the printer has stopt. *)
Definition reply_delayed (prnname : string) (prnid : Z) (wait : bool) : P unit :=
  if wait then
    p ← get_printer prnid;
    if negb (p_ppop_pid p =? 0) then
      reply_with EXIT_CANTWAIT
        "Another process is already using the notify feature for the printer `%s`."
        [AS prnname]
    else
      reply_code EXIT_OK;;
      modify_tb (set_t_reply_file false);;
      t ← gets tb;
      upd_printer prnid (set_p_ppop_pid (i32 (t_reply_pid t)))
  else reply_code EXIT_OK.

Definition ppop_start_stop_wstop_halt (command : string) (action : Z) : P unit :=
  scanned (gu_sscanf (str_drop 1 command) " %S" []) (λ _ vals,
    match vals with
    | [VStr prnname] =>
        prnid ← destid_by_name_reversed prnname;
        if prnid =? -1 then
          reply_with EXIT_BADDEST "The printer `%s` does not exist." [AS prnname]
        else
          g ← is_group prnid;
          if (g : bool) then
            reply_with EXIT_PRNONLY "`%s` is a group of printers, not a printer."
              [AS prnname]
          else
            lock;;
            delayed_action ←
              (if Z.land action 3 =? 0 then start_printer prnname prnid;; mret false
               else stop_printer prnname prnid (Z.land action 3 =? 2));
            when delayed_action
              (reply_delayed prnname prnid (negb (Z.land action 128 =? 0)));;
            unlock
    | _ =>
        error (dq "%s(): invalid `t`, `p`, ,`P`, or `b` command")
          [AS "ppop_start_stop_wstop_halt"]
    end).

(** ** ppop media, ppop mount *)

Fixpoint list_bins (bins : list (string * Z)) : P unit :=
  match bins with
  | [] => mret tt
  | (bin, m) :: bins' =>
      medium ← get_media_name m;
      fprintf_reply "%s %s" [AS bin; AS medium];;
      list_bins bins'
  end.

Definition media_wanted (destid x : Z) (group : bool) : P bool :=
  if (destid =? -1) || (x =? destid) then mret true
  else if group then
    off ← destid_get_member_offset destid x;
    mret (negb (off =? -1))
  else mret false.

Definition list_media (destid : Z) (group : bool) : P unit :=
  reply_code EXIT_OK_DATA;;
  for_printers (λ x,
    b ← media_wanted destid x group;
    when b
      (p ← get_printer x;
       name ← cstr (p_name p);
       fprintf_reply "%s %d" [AS name; AD (p_nbins p)];;
       list_bins (p_bins p))).

Definition ppop_media (command : string) : P unit :=
  scanned (gu_sscanf command "f %S" []) (λ _ vals,
    match vals with
    | [VStr destname] =>
        if String.eqb destname "all" then list_media (-1) false
        else
          with_destination "The destination `%s` does not exist." destname (λ destid,
            g ← is_group destid;
            list_media destid g)
    | _ => error (dq "%s(): invalid `f` command") [AS "ppop_media"]
    end).

Definition mount_medium (printer : string) (printer_id : Z) (binname medianame : string)
    : P unit :=
  p ← get_printer printer_id;
  if negb (has_bin binname (p_bins p)) then
    reply_with EXIT_BADBIN "`%s` does not have a bin called `%s`."
      [AS printer; AS binname]
  else
    id ← get_media_id medianame;
    upd_printer printer_id (λ q, set_p_bins (set_bin binname id (p_bins q)) q);;
    reply_code EXIT_OK;;
    media_update_notnow printer_id;;
    p' ← get_printer printer_id;
    when (p_status p' =? PRNSTATUS_IDLE) (printer_look_for_work printer_id);;
    media_mounted_save printer_id;;
    state_update "MOUNT %s %s %s" [AS printer; AS binname; AS medianame].

Definition mount_on (printer binname medianame : string) : P unit :=
  printer_id ← destid_by_name_reversed printer;
  if printer_id =? -1 then
    reply_with EXIT_BADDEST "Printer `%s` does not exist." [AS printer]
  else
    g ← is_group printer_id;
    if (g : bool) then reply_with EXIT_PRNONLY "`%s` is not a printer." [AS printer]
    else mount_medium printer printer_id binname medianame.

(** A command without a medium unmounts the bin. *)
Definition ppop_mount (command : string) : P unit :=
  scanned (gu_sscanf command "M %S %@s %@s"
             [Z.of_nat MAX_BINNAME + 1; Z.of_nat MAX_MEDIANAME + 1]) (λ _ vals,
    match vals with
    | [VStr printer; VStr binname] => mount_on printer binname EmptyString
    | [VStr printer; VStr binname; VStr medianame] => mount_on printer binname medianame
    | _ => error (dq "%s(): invalid `M` command") [AS "ppop_mount"]
    end).

(** ** ppop accept, ppop reject *)

Definition set_accepting (destid action : Z) : P unit :=
  g ← is_group destid;
  now ← time;
  if (g : bool) then
    gindex ← destid_to_gindex destid;
    upd_gstate gindex (λ st,
      set_gs_printer_state_change_time (i32 now) (set_gs_accepting action st));;
    save_group_state gindex
  else
    upd_pstate destid (λ st,
      set_ps_printer_state_change_time (i32 now) (set_ps_accepting action st));;
    save_printer_state destid.

Definition ppop_accept_reject (command : string) (action : Z) : P unit :=
  scanned (gu_sscanf (str_drop 1 command) " %S" []) (λ _ vals,
    match vals with
    | [VStr destname] =>
        with_destination "`%s` is not a valid destination." destname (λ destid,
          set_accepting destid action;;
          reply_code EXIT_OK)
    | _ => error (dq "%s(): invalid `A` or `R` command") [AS "ppop_accept_reject"]
    end).

(** ** ppop destination *)

Definition ppop_dest_show_printer (prnid : Z) : P unit :=
  p ← get_printer prnid;
  name ← cstr (p_name p);
  fprintf_reply "%s 0 %d %d"
    [AS name; AD (ps_accepting (p_spool_state p)); AD (ps_protected (p_spool_state p))].

Definition ppop_dest_show_group (groupnum : Z) : P unit :=
  g ← get_group groupnum;
  name ← cstr (g_name g);
  fprintf_reply "%s 1 %d %d"
    [AS name; AD (gs_accepting (g_spool_state g)); AD (gs_protected (g_spool_state g))].

Definition show_all_destinations : P unit :=
  reply_code EXIT_OK_DATA;;
  for_printers (λ x,
    p ← get_printer x;
    when (negb (p_status p =? PRNSTATUS_DELETED)) (ppop_dest_show_printer x));;
  for_groups (λ x,
    g ← get_group x;
    when (negb (g_deleted g)) (ppop_dest_show_group x)).

Definition ppop_dest (command : string) : P unit :=
  scanned (gu_sscanf (str_drop 1 command) " %S" []) (λ _ vals,
    match vals with
    | [VStr destname] =>
        if String.eqb destname "all" then show_all_destinations
        else
          with_destination "`%s` is not a valid destination." destname (λ destid,
            reply_code EXIT_OK_DATA;;
            g ← is_group destid;
            if (g : bool) then
              gindex ← destid_to_gindex destid;
              ppop_dest_show_group gindex
            else ppop_dest_show_printer destid)
    | _ => error (dq "%s(): invalid `D` command") [AS "ppop_dest"]
    end).

(** ** The dispatcher *)

(** atol(), which glibc holds within the bounds of a long. *)
Definition atol (s : string) : Z :=
  let s' := drop_while gu_ascii_isspace s in
  let '(sign, ds) :=
    match s' with
    | String c r =>
        if Ascii.eqb c "-" then (-1, r) else if Ascii.eqb c "+" then (1, r) else (1, s')
    | EmptyString => (1, s')
    end in
  let v := sign * digits_value 10 gu_ascii_digit_value (span gu_ascii_isdigit ds).1 in
  Z.max (- long_max - 1) (Z.min long_max v).

Definition first_char (s : string) : option ascii :=
  match s with
  | String c _ => Some c
  | EmptyString => None
  end.

Definition is_digit_or_space (c : ascii) : bool := gu_ascii_isdigit c || Ascii.eqb c " ".

Definition ppop_command_switch (command ppop_command : string) : P unit :=
  match first_char ppop_command with
  | Some "l"%char => ppop_list ppop_command
  | Some "s"%char => ppop_status ppop_command
  | Some "t"%char => ppop_start_stop_wstop_halt ppop_command 0
  | Some "p"%char => ppop_start_stop_wstop_halt ppop_command 1
  | Some "P"%char => ppop_start_stop_wstop_halt ppop_command 129
  | Some "b"%char => ppop_start_stop_wstop_halt ppop_command 2
  | Some "h"%char => ppop_hold_release ppop_command 0
  | Some "r"%char => ppop_hold_release ppop_command 1
  | Some "c"%char => ppop_cancel_purge ppop_command
  | Some "f"%char => ppop_media ppop_command
  | Some "M"%char => ppop_mount ppop_command
  | Some "A"%char => ppop_accept_reject ppop_command 1
  | Some "R"%char => ppop_accept_reject ppop_command 0
  | Some "D"%char => ppop_dest ppop_command
  | Some "m"%char => ppop_move ppop_command
  | Some "U"%char => ppop_rush ppop_command
  | Some "q"%char => ppop_modify_question ppop_command
  | _ => error "unknown command: %s" [AS command]
  end.

(** The reply file is created, empty; what is written to it are the
    [EvReply] and [EvReplyFile] events.  fdopen() is taken to succeed, and the
    memory pools are not modelled. *)
Definition ppop_dispatch (command : string) : P unit :=
  let pid := atol command in
  modify_tb (set_t_reply_pid pid);;
  if pid =? 0 then error "%s(): no PID for reply" [AS "ppop_dispatch"]
  else
    reply_fname ← fname "%s/ppr-ppop-%ld" [AS TEMPDIR; AD pid];
    exists_already ← read_file reply_fname;
    w ← writable reply_fname;
    match exists_already, (w : bool) with
    | None, true =>
        set_file reply_fname EmptyString;;
        modify_tb (set_t_reply_file true);;
        ppop_command_switch command (drop_while is_digit_or_space command);;
        t ← gets tb;
        when (t_reply_file t)
          (modify_tb (set_t_reply_file false);;
           r ← kill (i32 (t_reply_pid t)) SIGUSR1;
           when (r =? -1)
             (debug "%s(): kill(%ld, SIGUSR1) failed, errno=%d (%s), deleting reply file"
                [AS "ppop_dispatch"; AD (t_reply_pid t)];;
              unlink reply_fname))
    | _, _ =>
        error (dq "%s(): can't open `%s`, errno=%d (%s)")
          [AS "ppop_dispatch"; AS reply_fname]
    end.
End ppop_printers.
