(* ===== verification/Load.v ===== *)
(** Loading the configuration (src/pprd/pprd_load.c): printers, groups and the
    queue at startup, and a printer or a group whose configuration changed. *)
From S2P Require Import Prelude.
From S2P Require Import Text.
From S2P Require Import Spooler.
From S2P Require Import Destid.
From S2P Require Import QueueStatus.
From S2P Require Import Media.
From S2P Require Import Printer.
From S2P Require Import QueueAccept.

Section load.
Context `{PPRConfig}.

(** A directory that exists already is as good as a new one. *)
Definition mkdir (n : string) : P unit :=
  r ← syscall;
  when (negb (r =? 0)) (fatal 0 "mkdir() failed").

(** ** A printer *)

Definition is_comment (line : string) : bool :=
  match line with
  | String c _ => Ascii.eqb c ";" || Ascii.eqb c "#"
  | EmptyString => false
  end.

(** "Alert: %d %S %S" stores what it can read. *)
Definition alert_of (old : ALERT) (vals : list scanval) : ALERT :=
  match vals with
  | VInt i :: VStr m :: VStr a :: _ => mkAlert i (Some m) (Some a)
  | VInt i :: VStr m :: _ => mkAlert i (Some m) None
  | VInt i :: _ => mkAlert i None None
  | _ => mkAlert (al_interval old) None None
  end.

Definition add_bin (bin : string) (p : Printer) : Printer :=
  let p' := set_p_bins (p_bins p ++ [(bin, -1)]) p in
  if String.eqb bin "AutoSelect" then set_p_AutoSelect_exists true p' else p'.

Definition set_charges (x1 : scanval) (x2 : option scanval) (p : Printer) : Printer :=
  set_p_spool_state (set_ps_protected 1 (p_spool_state p))
    (set_p_charge_per_simplex (to_cents (default x1 x2))
      (set_p_charge_per_duplex (to_cents x1) p)).

Definition charge_line (prnid : Z) (line : string) : P unit :=
  scanned (gu_sscanf line "Charge: %f %f" []) (λ _ vals,
    match vals with
    | [] => mret tt
    | x1 :: more => upd_printer prnid (set_charges x1 (head more))
    end).

Definition printer_conf_line (prnid : Z) (prnname line : string) : P unit :=
  if is_comment line then mret tt
  else if lmatch line "Alert:" then
    scanned (gu_sscanf line "Alert: %d %S %S" []) (λ _ vals,
      upd_printer prnid (λ p, set_p_alert (alert_of (p_alert p) vals) p))
  else if lmatch line "Bin:" then
    p ← get_printer prnid;
    if p_nbins p <? MAX_BINS then
      scanned (gu_sscanf line "Bin: %S" []) (λ _ vals,
        match vals with
        | [VStr bin] => upd_printer prnid (add_bin bin)
        | _ => mret tt
        end)
    else error (dq "Printer `%s` has too many bins.") [AS prnname]
  else charge_line prnid line.

Fixpoint printer_conf_lines (prnid : Z) (prnname : string) (lines : list string) : P unit :=
  match lines with
  | [] => mret tt
  | line :: lines' =>
      printer_conf_line prnid prnname line;;
      printer_conf_lines prnid prnname lines'
  end.

(** The fields load_printer() sets; job_pid and the job it names stay. *)
Definition clear_printer (prnname : string) (p : Printer) : Printer :=
  mkPrinter (Some prnname) (p_spool_state p) (mkAlert 0 None None) 0 0 [] false
    false false (p_job_pid p) (p_job_destid p) (p_job_id p) (p_job_subid p) 0.

Definition loaded_state (now : Z) (st : PRINTER_SPOOL_STATE) : PRINTER_SPOOL_STATE :=
  set_ps_protected 0
    (set_ps_printer_state_change_time (i32 now) (set_ps_job_count 0 st)).

(** What killing pprd did to a printer. *)
Definition status_after_restart (prnid status : Z) : P unit :=
  if (status =? PRNSTATUS_PRINTING) || (status =? PRNSTATUS_CANCELING)
     || (status =? PRNSTATUS_SEIZING) then printer_new_status prnid PRNSTATUS_IDLE
  else if status =? PRNSTATUS_HALTING then printer_new_status prnid PRNSTATUS_STOPT
  else mret tt.

Definition load_printer (prnid : Z) (prnname : string) : P unit :=
  n ← fname "%s/%s" [AS PRCONF; AS prnname];
  conf ← read_file n;
  match conf with
  | None => fatal 0 "load_printer(): can't open printer config file"
  | Some text =>
      upd_printer prnid (clear_printer prnname);;
      '(st, r) ← printer_spool_state_load prnname;
      when (r =? -1)
        (error (dq "saved printer spool state of `%s` was invalid") [AS prnname]);;
      now ← time;
      upd_pstate prnid (λ _, loaded_state now st);;
      status_after_restart prnid (ps_status st);;
      printer_conf_lines prnid prnname (file_lines text);;
      d1 ← fname "%s/%s" [AS PRINTERS_PERSISTENT_STATEDIR; AS prnname];
      mkdir d1;;
      d2 ← fname "%s/%s" [AS PRINTERS_PURGABLE_STATEDIR; AS prnname];
      mkdir d2
  end.

(** printers[] is not initialised: a new slot holds junk.  load_printers()
    counts the slot when it is loaded; nothing looks at the count before. *)
Definition new_printer_slot : P unit :=
  modify_tb (λ t, set_t_printers (t_printers t ++ [printers_memory]) t).

Definition hidden_file (n : string) : bool :=
  match n with String "." _ => true | _ => false end.

Definition backup_file (n : string) : bool :=
  match last (chars n) with Some c => Ascii.eqb c "~" | None => false end.

(** The loops take what readdir() returns; opendir() is taken to succeed. *)
Fixpoint load_printers_from (x : Z) (entries : list string) : P unit :=
  match entries with
  | [] => mret tt
  | d_name :: entries' =>
      if hidden_file d_name || backup_file d_name then load_printers_from x entries'
      else if x =? MAX_PRINTERS then error "%s(): too many printers" [AS "load_printers"]
      else
        new_printer_slot;;
        load_printer x d_name;;
        media_mounted_recover x;;
        media_mounted_save x;;
        load_printers_from (x + 1) entries'
  end.

Definition load_printers (entries : list string) : P unit :=
  modify_tb (set_t_printers []);;
  load_printers_from 0 entries.

(** ** A printer whose configuration changed *)

(** The index of the printer of that name, or of the end, and the index of the
    first deleted slot on the way. *)
Fixpoint find_printer_slot (name : string) (x first_deleted : Z) (l : list Printer)
    : P (Z * Z) :=
  match l with
  | [] => mret (x, first_deleted)
  | p :: l' =>
      if p_status p =? PRNSTATUS_DELETED then
        find_printer_slot name (x + 1)
          (if first_deleted =? -1 then x else first_deleted) l'
      else
        n ← cstr (p_name p);
        if String.eqb n name then mret (x, first_deleted)
        else find_printer_slot name (x + 1) first_deleted l'
  end.

(** The strings are freed. *)
Definition free_printer (p : Printer) : Printer :=
  set_p_name None (set_p_alert (mkAlert (al_interval (p_alert p)) None None) p).

(** The printer may now print jobs it couldn't print before. *)
Definition clear_never_bits (prnid : Z) : P unit :=
  for_queue (λ x,
    e ← job_get (Jq x);
    prnbit ← (if q_destid e =? prnid then mret 1
              else destid_printer_bit (q_destid e) prnid);
    when (negb (prnbit =? 0))
      (job_upd (Jq x) (λ q, set_q_never (Z.land (q_never q) (Z.lxor 255 prnbit)) q);;
       when (q_status e =? STATUS_STRANDED) (queue_p_job_new_status (Jq x) STATUS_WAITING));;
    mret (None (A := unit)));;
  mret tt.

Definition reload_printer (prnid : Z) (printer : string) (is_new : bool) : P unit :=
  state_update "PRNRELOAD %s" [AS printer];;
  saved ← get_printer prnid;
  load_printer prnid printer;;
  media_mounted_recover prnid;;
  media_mounted_save prnid;;
  when (negb is_new)
    (upd_pstate prnid (set_ps_status (p_status saved));;
     upd_printer prnid (set_p_ppop_pid (p_ppop_pid saved));;
     clear_never_bits prnid;;
     media_update_notnow prnid;;
     p ← get_printer prnid;
     when (p_status p =? PRNSTATUS_IDLE) (printer_look_for_work prnid)).

Definition delete_printer (prnid : Z) (printer : string) (is_new : bool) : P unit :=
  if is_new then
    error (dq "attempt to delete printer `%s` which never existed") [AS printer]
  else
    state_update "PRNDELETE %s" [AS printer];;
    upd_pstate prnid (set_ps_status PRNSTATUS_DELETED).

Definition new_printer_config (printer : string) : P unit :=
  lock;;
  l ← gets printers;
  '(x, first_deleted) ← find_printer_slot printer 0 (-1) l;
  n ← gets printer_count;
  let is_new := x =? n in
  when (negb is_new) (upd_printer x free_printer);;
  let prnid := if is_new && negb (first_deleted =? -1) then first_deleted else x in
  if prnid =? MAX_PRINTERS then
    error "%s(): too many printers" [AS "new_printer_config"];;
    unlock
  else
    when (prnid =? n) new_printer_slot;;
    conf_name ← fname "%s/%s" [AS PRCONF; AS printer];
    testopen ← read_file conf_name;
    (match testopen with
     | None => delete_printer prnid printer is_new
     | Some _ => reload_printer prnid printer is_new
     end);;
    unlock.

(** ** A group *)

Record group_conf := mkGroupConf {
  gc_members : list Z;
  gc_protected : bool;
  gc_rotate : bool;
}.

Definition add_member (grpname extract : string) (c : group_conf) : P group_conf :=
  if MAX_GROUPSIZE <=? Z.of_nat (length (gc_members c)) then
    error (dq "group `%s` exceeds %d member limit") [AS grpname; AD MAX_GROUPSIZE];;
    mret c
  else
    prnid ← destid_by_printer extract;
    if prnid =? -1 then
      error (dq "group `%s`:  member `%s` does not exist") [AS grpname; AS extract];;
      mret c
    else
      p ← get_printer prnid;
      mret (mkGroupConf (gc_members c ++ [prnid])
              (gc_protected c || truth (ps_protected (p_spool_state p)))
              (gc_rotate c)).

Definition rotate_line (line : string) (c : group_conf) : P group_conf :=
  match lmatchp line "Rotate:" with
  | None => mret c
  | Some extract =>
      match gu_torf_setBOOL extract with
      | Some b => mret (mkGroupConf (gc_members c) (gc_protected c) b)
      | None => fatal 0 "Invalid Rotate option"
      end
  end.

Definition group_conf_line (grpname line : string) (c : group_conf) : P group_conf :=
  scanned (gu_sscanf line "Printer: %S" []) (λ _ vals,
    match vals with
    | [VStr extract] => add_member grpname extract c
    | _ => rotate_line line c
    end).

Fixpoint group_conf_lines (grpname : string) (lines : list string) (c : group_conf)
    : P group_conf :=
  match lines with
  | [] => mret c
  | line :: lines' =>
      c' ← group_conf_line grpname line c;
      group_conf_lines grpname lines' c'
  end.

Definition loaded_gstate (now : Z) (protected : bool) (st : GROUP_SPOOL_STATE)
    : GROUP_SPOOL_STATE :=
  set_gs_protected (of_bool protected)
    (set_gs_printer_state_change_time (i32 now) (set_gs_job_count 0 st)).

Definition load_group (gindex : Z) (grpname : string) : P unit :=
  conf_fname ← fname "%s/%s" [AS GRCONF; AS grpname];
  conf ← read_file conf_fname;
  match conf with
  | None => fatal 0 "load_group(): can't open group config file"
  | Some text =>
      '(st, r) ← group_spool_state_load grpname;
      when (r =? -1)
        (error (dq "saved group spool state of `%s` was invalid") [AS grpname]);;
      now ← time;
      c ← group_conf_lines grpname (file_lines text) (mkGroupConf [] false true);
      upd_group gindex (λ _,
        mkGroup (Some grpname) (loaded_gstate now (gc_protected c) st)
          (gc_members c) (-1) (gc_rotate c) false);;
      d ← fname "%s/%s" [AS GROUPS_PERSISTENT_STATEDIR; AS grpname];
      mkdir d
  end.

Definition new_group_slot : P unit :=
  modify_tb (λ t, set_t_groups (t_groups t ++ [zero_group]) t).

Fixpoint load_groups_from (x : Z) (entries : list string) : P unit :=
  match entries with
  | [] => mret tt
  | d_name :: entries' =>
      if hidden_file d_name || backup_file d_name then load_groups_from x entries'
      else if x =? MAX_GROUPS then error "%s(): too many groups" [AS "load_groups"]
      else
        new_group_slot;;
        load_group x d_name;;
        load_groups_from (x + 1) entries'
  end.

Definition load_groups (entries : list string) : P unit :=
  modify_tb (set_t_groups []);;
  load_groups_from 0 entries.

Fixpoint find_group_slot (name : string) (x first_deleted : Z) (l : list Group)
    : P (Z * Z) :=
  match l with
  | [] => mret (x, first_deleted)
  | g :: l' =>
      if g_deleted g then
        find_group_slot name (x + 1)
          (if first_deleted =? -1 then x else first_deleted) l'
      else
        n ← cstr (g_name g);
        if String.eqb n name then mret (x, first_deleted)
        else find_group_slot name (x + 1) first_deleted l'
  end.

(** The jobs of the group start over: its members may have changed. *)
Definition reset_group_jobs (destid : Z) : P unit :=
  for_queue (λ x,
    e ← job_get (Jq x);
    when (q_destid e =? destid)
      (media_set_notnow_for_job (Jq x) true;;
       job_upd (Jq x) (set_q_never 0));;
    mret (None (A := unit)));;
  mret tt.

(** The loop variable of the loop over the queue is the one that held the
    group's index: group_look_for_work() gets the number of queue entries. *)
Definition reload_group (gindex : Z) (group : string) : P unit :=
  state_update "GRPRELOAD %s" [AS group];;
  load_group gindex group;;
  destid ← destid_by_gindex gindex;
  reset_group_jobs destid;;
  x ← gets queue_entries;
  group_look_for_work x.

Definition delete_group (gindex : Z) (group : string) (is_new : bool) : P unit :=
  if is_new then
    error (dq "attempt to delete group `%s` which never existed") [AS group]
  else
    state_update "GRPDELETE %s" [AS group];;
    upd_group gindex (set_g_deleted true).

(** The group is counted before it is known whether there is room. *)
Definition new_group_config (group : string) : P unit :=
  lock;;
  l ← gets groups;
  '(x, first_deleted) ← find_group_slot group 0 (-1) l;
  n ← gets group_count;
  let is_new := x =? n in
  when (negb is_new) (upd_group x (set_g_name None));;
  when (is_new && (first_deleted =? -1)) new_group_slot;;
  let gindex := if is_new && negb (first_deleted =? -1) then first_deleted else x in
  if gindex =? MAX_GROUPS then
    unlock;;
    error "%s(): too many groups" [AS "new_group_config"]
  else
    conf_name ← fname "%s/%s" [AS GRCONF; AS group];
    testopen ← read_file conf_name;
    (match testopen with
     | None => delete_group gindex group is_new
     | Some _ => reload_group gindex group
     end);;
    unlock.

(** ** The queue *)

Fixpoint accept_existing (entries : list string) : P unit :=
  match entries with
  | [] => mret tt
  | d_name :: entries' =>
      when (negb (hidden_file d_name)) (queue_accept_queuefile d_name false false);;
      accept_existing entries'
  end.

Definition initialize_queue (entries : list string) : P unit :=
  modify_tb (λ t, set_t_queue_size QUEUE_SIZE_INITIAL (set_t_queue [] t));;
  accept_existing entries;;
  np ← gets printers;
  for_each (length np) 0 save_printer_state;;
  for_groups save_group_state;;
  for_each (length np) 0 (λ iii,
    p ← get_printer iii;
    when (p_status p =? PRNSTATUS_IDLE) (printer_look_for_work iii)).
End load.
