(* ===== verification/Ipp.v ===== *)
(** The operations the IPP server asks for (src/pprd/pprd_ipp.c). *)
From S2P Require Import Prelude.
From S2P Require Import Text.
From S2P Require Import Spooler.
From S2P Require Import Destid.
From S2P Require Import QueueStatus.
From S2P Require Import Media.
From S2P Require Import Printer.
From S2P Require Import PprdrvExit.
From S2P Require Import PpopJobs.
From S2P Require Import PpopPrinters.

Definition IPP_OK : Z := 0.
Definition IPP_BAD_REQUEST : Z := 1024.
Definition IPP_NOT_POSSIBLE : Z := 1026.
Definition IPP_NOT_FOUND : Z := 1030.
Definition IPP_INTERNAL_ERROR : Z := 1280.
Definition IPP_OPERATION_NOT_SUPPORTED : Z := 1281.

Definition IPP_CANCEL_JOB : Z := 8.
Definition IPP_HOLD_JOB : Z := 12.
Definition IPP_RELEASE_JOB : Z := 13.
Definition IPP_PAUSE_PRINTER : Z := 16.
Definition IPP_RESUME_PRINTER : Z := 17.
Definition IPP_PURGE_JOBS : Z := 18.
Definition CUPS_ACCEPT_JOBS : Z := 16392.
Definition CUPS_REJECT_JOBS : Z := 16393.
Definition CUPS_MOVE_JOB : Z := 16397.

(** struct PPRD_CALL_RETVAL *)
Record PPRD_CALL_RETVAL := new_retval {
  status_code : Z;
  extra_code : Z;
}.

Section ipp.
Context `{PPRConfig}.

(** atoi() is atol() cut down to an int. *)
Definition atoi (s : string) : Z := i32 (atol s).

Definition ipp_cancel_job_core (destid jobid : Z) : P PPRD_CALL_RETVAL :=
  n ← cancel_all "ipp_cancel_job_core" destid jobid (-1) true;
  mret (new_retval (if n =? 0 then IPP_NOT_FOUND else IPP_OK) 0).

Definition ipp_cancel_job (command_args : string) : P PPRD_CALL_RETVAL :=
  ipp_cancel_job_core QUEUEID_WILDCARD (atoi command_args).

(** Act on the first job of that number, whatever its destination. *)
Definition on_job_number (job_id : Z) (body : Z → P PPRD_CALL_RETVAL) : P PPRD_CALL_RETVAL :=
  lock;;
  r ← for_queue (λ x,
    e ← job_get (Jq x);
    if q_id e =? job_id then retval ← body x; mret (Some retval) else mret None);
  unlock;;
  mret (default (new_retval IPP_NOT_FOUND 0) r).

Definition ipp_hold_one (x : Z) : P PPRD_CALL_RETVAL :=
  e ← job_get (Jq x);
  let status := q_status e in
  if (status =? STATUS_WAITING) || (status =? STATUS_WAITING4MEDIA) then
    queue_p_job_new_status (Jq x) STATUS_HELD;;
    mret (new_retval IPP_OK 0)
  else if status =? STATUS_HELD then mret (new_retval IPP_OK 1)
  else if status =? STATUS_ARRESTED then mret (new_retval IPP_NOT_POSSIBLE 0)
  else if status =? STATUS_SEIZING then mret (new_retval IPP_OK 1)
  else if status =? STATUS_CANCEL then
    hold_instead_of_cancel x e;;
    mret (new_retval IPP_OK 0)
  else if status =? STATUS_RECEIVING then mret (new_retval IPP_OK 0)
  else if 0 <=? status then
    seize_job "ipp_hold_job" x status;;
    mret (new_retval IPP_OK 0)
  else mret (new_retval IPP_INTERNAL_ERROR 0).

Definition ipp_hold_job (command_args : string) : P PPRD_CALL_RETVAL :=
  on_job_number (atoi command_args) ipp_hold_one.

Definition ipp_release_one (x : Z) : P PPRD_CALL_RETVAL :=
  e ← job_get (Jq x);
  let status := q_status e in
  if status =? STATUS_HELD then
    requeue_job x;;
    mret (new_retval IPP_OK 0)
  else if status =? STATUS_ARRESTED then mret (new_retval IPP_NOT_POSSIBLE 0)
  else if status =? STATUS_SEIZING then mret (new_retval IPP_NOT_POSSIBLE 0)
  else if status =? STATUS_RECEIVING then mret (new_retval IPP_OK 0)
  else mret (new_retval IPP_OK 1).

Definition ipp_release_job (command_args : string) : P PPRD_CALL_RETVAL :=
  on_job_number (atoi command_args) ipp_release_one.

(** ** Printers and groups by name *)

Inductive ipp_target :=
| TGroup (name : string)
| TPrinter (name : string)
| TBad.

Definition target_of (args : string) : ipp_target :=
  match lmatchp args "group" with
  | Some p => TGroup p
  | None =>
      match lmatchp args "printer" with
      | Some p => TPrinter p
      | None => TBad
      end
  end.

(** Go on with the destination id, if there is one. *)
Definition if_found (lookup : P Z) (k : Z → P PPRD_CALL_RETVAL) : P PPRD_CALL_RETVAL :=
  destid ← lookup;
  if destid =? -1 then mret (new_retval IPP_NOT_FOUND 0) else k destid.

Definition set_held (held : bool) (destid : Z) : P Z :=
  gindex ← destid_to_gindex destid;
  now ← time;
  upd_gstate gindex (λ st,
    set_gs_printer_state_change_time (i32 now) (set_gs_held (of_bool held) st));;
  save_group_state gindex;;
  mret gindex.

Definition printer_undefined (command_args : string) (status : Z) : P PPRD_CALL_RETVAL :=
  error (dq "printer `%s` is in undefined state %d") [AS command_args; AD status];;
  mret (new_retval IPP_INTERNAL_ERROR 0).

Definition pause_printer (command_args : string) (prnid : Z) : P PPRD_CALL_RETVAL :=
  p ← get_printer prnid;
  let status := p_status p in
  if (status =? PRNSTATUS_FAULT) || (status =? PRNSTATUS_IDLE)
     || (status =? PRNSTATUS_ENGAGED) || (status =? PRNSTATUS_STARVED) then
    change_status prnid PRNSTATUS_STOPT;;
    mret (new_retval IPP_OK 0)
  else if (status =? PRNSTATUS_HALTING) || (status =? PRNSTATUS_STOPT)
          || (status =? PRNSTATUS_STOPPING) then mret (new_retval IPP_OK 1)
  else if (status =? PRNSTATUS_CANCELING) || (status =? PRNSTATUS_SEIZING) then
    change_status prnid PRNSTATUS_HALTING;;
    mret (new_retval IPP_OK 0)
  else if status =? PRNSTATUS_PRINTING then
    printer_new_status prnid PRNSTATUS_HALTING;;
    pprdrv_kill prnid;;
    media_startstop_update_waitreason prnid;;
    mret (new_retval IPP_OK 0)
  else printer_undefined command_args status.

Definition ipp_pause_printer (command_args : string) : P PPRD_CALL_RETVAL :=
  match target_of command_args with
  | TGroup p =>
      if_found (destid_by_group p) (λ destid,
        set_held true destid;;
        mret (new_retval IPP_OK 0))
  | TPrinter p => if_found (destid_by_printer p) (pause_printer command_args)
  | TBad => mret (new_retval IPP_INTERNAL_ERROR 0)
  end.

Definition resume_printer (command_args : string) (prnid : Z) : P PPRD_CALL_RETVAL :=
  p ← get_printer prnid;
  let status := p_status p in
  if (status =? PRNSTATUS_IDLE) || (status =? PRNSTATUS_CANCELING)
     || (status =? PRNSTATUS_SEIZING) || (status =? PRNSTATUS_ENGAGED)
     || (status =? PRNSTATUS_STARVED) || (status =? PRNSTATUS_PRINTING) then
    mret (new_retval IPP_OK 1)
  else if (status =? PRNSTATUS_FAULT) || (status =? PRNSTATUS_STOPT) then
    change_status prnid PRNSTATUS_IDLE;;
    printer_look_for_work prnid;;
    mret (new_retval IPP_OK 0)
  else if status =? PRNSTATUS_HALTING then mret (new_retval IPP_NOT_POSSIBLE 0)
  else if status =? PRNSTATUS_STOPPING then
    change_status prnid PRNSTATUS_PRINTING;;
    mret (new_retval IPP_OK 0)
  else printer_undefined command_args status.

Definition ipp_resume_printer (command_args : string) : P PPRD_CALL_RETVAL :=
  match target_of command_args with
  | TGroup p =>
      if_found (destid_by_group p) (λ destid,
        gindex ← set_held false destid;
        group_look_for_work gindex;;
        mret (new_retval IPP_OK 0))
  | TPrinter p => if_found (destid_by_printer p) (resume_printer command_args)
  | TBad => mret (new_retval IPP_INTERNAL_ERROR 0)
  end.

(** The name looked up is the whole argument, "group" or "printer" included. *)
Definition ipp_purge_jobs (command_args : string) : P PPRD_CALL_RETVAL :=
  let purge destid := ipp_cancel_job_core destid WILDCARD_JOBID in
  match target_of command_args with
  | TGroup _ => if_found (destid_by_group command_args) purge
  | TPrinter _ => if_found (destid_by_printer command_args) purge
  | TBad => mret (new_retval IPP_INTERNAL_ERROR 0)
  end.

(** A printer is looked up among the groups. *)
Definition cups_accept_or_reject_jobs (command_args : string) (accepting : bool)
    : P PPRD_CALL_RETVAL :=
  now ← time;
  match target_of command_args with
  | TGroup p =>
      if_found (destid_by_group p) (λ destid,
        gindex ← destid_to_gindex destid;
        upd_gstate gindex (λ st,
          set_gs_printer_state_change_time (i32 now)
            (set_gs_accepting (of_bool accepting) st));;
        save_group_state gindex;;
        mret (new_retval IPP_OK 0))
  | TPrinter p =>
      if_found (destid_by_group p) (λ destid,
        upd_pstate destid (λ st,
          set_ps_printer_state_change_time (i32 now)
            (set_ps_accepting (of_bool accepting) st));;
        save_printer_state destid;;
        mret (new_retval IPP_OK 0))
  | TBad => mret (new_retval IPP_BAD_REQUEST 0)
  end.

(** ** Moving a job *)

Definition cups_move_one (x : Z) (q : QEntry) (new_destid rank2 : Z) : P unit :=
  new_destname ← destid_to_name new_destid;
  when (negb (q_destid q =? new_destid)) (relocate_files q new_destname rank2);;
  logname ← fname "%s/%s-%d.%d-log"
    [AS DATADIR; AS new_destname; AD (q_id q); AD (q_subid q)];
  destname ← destid_to_name (q_destid q);
  append_file logname (move_note destname new_destname);;
  job_upd (Jq x) (set_q_destid (i16 new_destid));;
  reset_job x.

(** The result, and whether the routine gets to its unlock(): it returns from
    within the loop when the job is printing. *)
Fixpoint cups_move_loop (n : nat) (job_id new_destid x rank2 : Z) : P (Z * bool) :=
  match n with
  | O => mret (IPP_NOT_FOUND, true)
  | S n' =>
      q ← job_get (Jq x);
      if negb (q_id q =? job_id) then
        cups_move_loop n' job_id new_destid (x + 1)
          (if q_destid q =? new_destid then rank2 + 1 else rank2)
      else if 0 <=? q_status q then mret (IPP_NOT_POSSIBLE, false)
      else cups_move_one x q new_destid rank2;; mret (IPP_OK, true)
  end.

Definition is_digit (c : ascii) : bool := gu_ascii_isdigit c.

Definition cups_move_job (command_args : string) : P PPRD_CALL_RETVAL :=
  let job_id := atoi command_args in
  let p := drop_while is_space (drop_while is_digit command_args) in
  let move new_destid :=
    lock;;
    q ← gets queue;
    '(code, unlocks) ← cups_move_loop (length q) job_id new_destid 0 0;
    when unlocks unlock;;
    mret (new_retval code 0) in
  match target_of p with
  | TGroup new_destname => if_found (destid_by_group new_destname) move
  | TPrinter new_destname => if_found (destid_by_printer new_destname) move
  | TBad => mret (new_retval IPP_INTERNAL_ERROR 0)
  end.

(** ** The dispatcher *)

(** lmatchsp(): a word, then white space, which is skipped. *)
Definition lmatchsp (a b : string) : option string :=
  match str_drop (String.length b) a with
  | String c _ as rest =>
      if String.prefix b a && gu_ascii_isspace c then Some (drop_while is_blank rest)
      else None
  | EmptyString => None
  end.

Definition ipp_operation (operation_id : Z) (p : string) : P PPRD_CALL_RETVAL :=
  if operation_id =? IPP_CANCEL_JOB then ipp_cancel_job p
  else if operation_id =? IPP_HOLD_JOB then ipp_hold_job p
  else if operation_id =? IPP_RELEASE_JOB then ipp_release_job p
  else if operation_id =? IPP_PAUSE_PRINTER then ipp_pause_printer p
  else if operation_id =? IPP_RESUME_PRINTER then ipp_resume_printer p
  else if operation_id =? IPP_PURGE_JOBS then ipp_purge_jobs p
  else if operation_id =? CUPS_ACCEPT_JOBS then cups_accept_or_reject_jobs p true
  else if operation_id =? CUPS_REJECT_JOBS then cups_accept_or_reject_jobs p false
  else if operation_id =? CUPS_MOVE_JOB then cups_move_job p
  else
    error "unsupported operation: 0x%.2x (%s)" [AD operation_id];;
    mret (new_retval IPP_OPERATION_NOT_SUPPORTED 0).

Definition ipp_dispatch (command : string) : P PPRD_CALL_RETVAL :=
  match lmatchsp command "IPP" with
  | None =>
      error "%s(): command missing" [AS "ipp_dispatch"];;
      mret (new_retval IPP_INTERNAL_ERROR 0)
  | Some p =>
      ipp_operation (atoi p) (drop_while is_space (drop_while is_digit p))
  end.
End ipp.
