(* ===== verification/Main.v ===== *)
(** Nagging the operator (src/pprd/pprd_remind.c), and the main loop: commands,
    the clock, and children that have ended (src/pprd/pprd.c). *)
From S2P Require Import Prelude.
From S2P Require Import Text.
From S2P Require Import Spooler.
From S2P Require Import Destid.
From S2P Require Import Printer.
From S2P Require Import PprdrvExit.
From S2P Require Import Question.
From S2P Require Import QueueAccept.
From S2P Require Import PpopPrinters.
From S2P Require Import Load.
From S2P Require Import Ipp.

Section remind.
Context `{PPRConfig}.

Definition engaged_minutes (next_engaged_retry : Z) : Z :=
  Z.quot (next_engaged_retry * ENGAGED_RETRY) 60.

(** The quick scan. *)
Definition nag_about (p : Printer) : bool :=
  let st := p_spool_state p in
  let interval := Z.abs (al_interval (p_alert p)) in
  ((ps_status st =? PRNSTATUS_FAULT)
   && ((interval <? ps_next_engaged_retry st) || (ps_next_error_retry st =? 0)))
  || ((ps_status st =? PRNSTATUS_ENGAGED)
      && (20 <? engaged_minutes (ps_next_engaged_retry st))).

(** A line of the letter. *)
Definition nag_line (address : string) (p : Printer) : P unit :=
  let st := p_spool_state p in
  let interval := Z.abs (al_interval (p_alert p)) in
  let retry := ps_next_error_retry st in
  if (ps_status st =? PRNSTATUS_FAULT) && ((retry =? 0) || (interval <? retry)) then
    name ← cstr (p_name p);
    if 0 <? retry then
      emit (EvMail address (dq "The printer `%s` has suffered %d faults.") [AS name; AD retry])
    else
      emit (EvMail address
        (dq "The printer `%s` has suffered a fault from which it can not recover on its own.")
        [AS name])
  else
    when ((ps_status st =? PRNSTATUS_ENGAGED)
          && (ENGAGED_NAG_TIME <? engaged_minutes (ps_next_engaged_retry st)))
      (name ← cstr (p_name p);
       emit (EvMail address
         (dq "The printer `%s` has been otherwise engaged or off line for %d minutes.")
         [AS name; AD (engaged_minutes (ps_next_engaged_retry st))])).

Definition ppad_remind : P unit :=
  l ← gets printers;
  if negb (existsb nag_about l) then mret tt
  else
    pipe ← syscall;
    if negb (pipe =? 0) then
      error "%s(): pipe() failed, errno=%d (%s)" [AS "ppad_remind"]
    else
      pid ← fork;
      if pid =? -1 then
        error "%s(): fork() failed, errno=%d (%s)" [AS "ppad_remind"]
      else
        emit (EvMail USER_PPR "Subject: Remaining printer problems" []);;
        for_printers (λ x, p ← get_printer x; nag_line USER_PPR p).
End remind.

(** * The main loop (src/pprd/pprd.c): what arrives, and which routine sees to
    it. *)

Section main.
Context `{PPRConfig}.

(** ** Children *)

Definition report_child (pid wstat : Z) : P unit :=
  if WIFSIGNALED wstat then
    error "Process %ld was killed by signal %d (%s)%s" [AD pid; AD (WTERMSIG wstat)]
  else when (negb (WIFEXITED wstat)) (error "Process %ld met a mysterious end" [AD pid]).

Definition child_hooks (pid wstat : Z) : P unit :=
  claimed ← pprdrv_child_hook pid wstat;
  if (claimed : bool) then mret tt
  else
    report_child pid wstat;;
    claimed ← question_child_hook pid wstat;
    if (claimed : bool) then mret tt
    else
      claimed ← responder_child_hook pid wstat;
      when (negb claimed) (debug "process %ld unclaimed" [AD pid]).

(** What waitpid() returns; the loop ends when that is not a process id. *)
Fixpoint reapchild (exits : list (Z * Z)) : P unit :=
  match exits with
  | [] => mret tt
  | (pid, wstat) :: exits' =>
      when (0 <? pid) (child_hooks pid wstat;; reapchild exits')
  end.

(** ** The clock *)

Definition tick : P unit :=
  printer_tick;;
  question_tick.

(** ** Commands *)

(** "NP name" or "NG name"; a shorter command is read past its end. *)
Definition new_config (ptr : string) : P unit :=
  if strlen ptr <? 3 then undef "command too short"
  else
    match ptr with
    | String _ (String c _) =>
        if Ascii.eqb c "P" then new_printer_config (str_drop 3 ptr)
        else new_group_config (str_drop 3 ptr)
    | _ => undef "command too short"
    end.

Definition fifo_command (ptr : string) : P unit :=
  match first_char ptr with
  | Some "j"%char => queue_new_job ptr
  | Some "J"%char => queue_reload_job ptr
  | Some "n"%char => ppad_remind
  | Some "N"%char => new_config ptr
  | _ => ppop_dispatch ptr
  end.

Fixpoint fifo_commands (l : list string) : P unit :=
  match l with
  | [] => mret tt
  | ptr :: l' => fifo_command ptr;; fifo_commands l'
  end.

(** The buffer without its last character, if that is a newline. *)
Definition chomp (buffer : string) : option string :=
  match rev (chars buffer) with
  | c :: l => if code c =? 10 then Some (of_chars (rev l)) else None
  | [] => None
  end.

(** The argument is what read() put into the buffer, 256 characters at most. *)
Definition do_fifo_command (buffer : string) : P unit :=
  match chomp buffer with
  | None => error "ignoring malformed command(s) from pipe" []
  | Some commands => fifo_commands (gu_strsep_all (chr 10) commands)
  end.

Definition socket_command (buffer : string) : P PPRD_CALL_RETVAL :=
  match chomp buffer with
  | None =>
      error "ignoring malformed command from Unix-domain socket" [];;
      mret (new_retval IPP_BAD_REQUEST 0)
  | Some command =>
      match first_char command with
      | Some "I"%char => ipp_dispatch command
      | _ =>
          error "unrecognized command received on Unix-domain socket: %s" [AS command];;
          mret (new_retval IPP_OPERATION_NOT_SUPPORTED 0)
      end
  end.

(** accept(), read(), write() and close() are taken to succeed. *)
Definition do_socket_command (buffer : string) : P unit :=
  result ← socket_command buffer;
  fprintf_reply "%d %d" [AD (status_code result); AD (extra_code result)].

(** ** The loop *)

(** What a turn of the main loop finds, with the time it is then, and what the
    system calls of that turn will return. *)
Inductive input :=
| InFifo (buffer : string)
| InSocket (buffer : string)
| InChildren (exits : list (Z * Z))
| InTick.

Definition handle (i : input) : P unit :=
  match i with
  | InFifo buffer => do_fifo_command buffer
  | InSocket buffer => do_socket_command buffer
  | InChildren exits => reapchild exits
  | InTick => tick
  end.

Definition startup (prconf_entries grconf_entries queuedir_entries : list string) : P unit :=
  state_update "STARTUP" [];;
  question_init;;
  load_printers prconf_entries;;
  load_groups grconf_entries;;
  initialize_queue queuedir_entries.

(** The world as it is when a turn begins: the processes around the daemon may
    have changed everything but what the daemon has done and what is in its
    memory. *)
Definition world_changes (w w' : world) : Prop :=
  w_trace w' = w_trace w ∧ w_jobid_size w' = w_jobid_size w.

(** A turn.  An exception that nobody catches ends the daemon, as fatal()
    does, so only a return leads to a next state. *)
Inductive step : pprd → pprd → Prop :=
| step_turn s w i u s' :
    world_changes (io s) w →
    handle i (mkPprd (tb s) w) = Done u s' →
    step s s'.
End main.
