(* ===== verification/Sample.v ===== *)
(** A small installation, on which the theorems' hypotheses are seen to hold:
    two printers, a group of both, and their files. *)
From S2P Require Import Prelude.
From S2P Require Import Text.
From S2P Require Import Spooler.
From S2P Require Import Destid.
From S2P Require Import QueueStatus.
From S2P Require Import Media.
From S2P Require Import Printer.
From S2P Require Import Question.
From S2P Require Import QueueAccept.
From S2P Require Import Load.
From S2P Require Import Main.

Definition zero_printer : Printer :=
  mkPrinter None (mkPState 0 0 0 0 0 0 0 0 0) (mkAlert 0 None None) 0 0 [] false
    false false 0 0 0 0 0.

Definition sample_config : PPRConfig := {|
  QUEUEDIR := "/spool/queue";
  DATADIR := "/spool/jobs";
  PRCONF := "/etc/printers";
  GRCONF := "/etc/groups";
  PRINTERS_PERSISTENT_STATEDIR := "/lib/printers";
  PRINTERS_PURGABLE_STATEDIR := "/run/printers";
  GROUPS_PERSISTENT_STATEDIR := "/lib/groups";
  TEMPDIR := "/tmp";
  USER_PPR := "ppr";
  to_cents := λ v, match v with VDec s w _ => s * w * 100 | _ => 0 end;
  printers_memory := zero_printer
|}.

#[export] Existing Instance sample_config.

Definition line (s : string) : string := s +:+ String (chr 10) EmptyString.

Definition zero_entry : QEntry := mkQEntry 0 0 0 0 0 0 0 0 [0; 0; 0; 0] 0 0 0.

(** A queue file: the PPRD line and the media the job needs. *)
Definition sample_job (priority sequence status : Z) (media : list string) : string :=
  pprd_line (mkQEntry 0 0 0 priority sequence (- status) 0 0 [] 0 0 0)
  +:+ foldr (λ m rest, line ("Media: " +:+ m) +:+ rest) EmptyString media.

Definition sample_files : gmap string string :=
  <["/etc/printers/apple" := line "Bin: upper" +:+ line "Bin: lower"]>
  (<["/etc/printers/pear" := line "Bin: tray"]>
  (<["/etc/groups/fruit" := line "Printer: apple" +:+ line "Printer: pear"]>
  (<["/spool/queue/fruit-7.0" := sample_job 50 100 STATUS_WAITING []]>
  (<["/spool/queue/pear-8.0" := sample_job 50 101 STATUS_WAITING ["Letter"]]>
  ∅)))).

(** [forks] are the results of the system calls to come. *)
Definition sample_world (files : gmap string string) (calls : list Z) : world :=
  mkWorld files ∅ calls 1000 ∅ 0 [].

Definition boot_state (files : gmap string string) (calls : list Z) : pprd :=
  mkPprd
    (mkTables [] 0 [] [] [] 0 0 0 0 0 (repeat (mkAQ 0 0 0 0) 10) 0 0 0 zero_entry 0 false)
    (sample_world files calls).

(** What a routine that returns leaves behind. *)
Definition after {A} (m : P A) (s : pprd) : pprd :=
  match m s with
  | Done _ s' | Thrown _ s' => s'
  | Stopped _ => s
  end.

Definition returns {A} (m : P A) (s : pprd) : bool :=
  match m s with Done _ _ => true | _ => false end.

Definition stops {A} (m : P A) (s : pprd) : option stop :=
  match m s with Stopped r => Some r | _ => None end.

Definition mkdirs : list Z := [0; 0; 0; 0; 0].

Definition sample_startup : P unit :=
  startup ["."; "apple"; "pear"; "pear~"] ["fruit"] ["."; ".."].

(** Two idle printers, no jobs. *)
Definition idle_state : pprd :=
  Eval vm_compute in after sample_startup (boot_state sample_files mkdirs).

Definition with_calls (calls : list Z) (s : pprd) : pprd := on_io (set_w_syscalls calls) s.

Definition set_files (files : gmap string string) (s : pprd) : pprd :=
  on_io (set_w_files files) s.

(** A job has come for the group and is printing, as process 501. *)
Definition printing_state : pprd :=
  Eval vm_compute in after (queue_new_job "j fruit-7.0") (with_calls [501] idle_state).

(** A job for the group waits, and the tables are locked. *)
Definition waiting_job : QEntry :=
  mkQEntry 250 7 0 50 100 STATUS_WAITING 0 0 [-1; -1; -1; -1] 1 0 0.

Definition waiting_state : pprd :=
  Eval vm_compute in
  on_tb (λ t, set_t_lock_level 1 (set_t_queue [waiting_job] t)) (with_calls [501] idle_state).

(** As many printers print as may. *)
Definition busy_state : pprd :=
  Eval vm_compute in on_tb (set_t_active_printers MAX_ACTIVE) waiting_state.

(** The first printer in another status. *)
Definition with_status (st : PRINTER_SPOOL_STATE) (s : pprd) : pprd :=
  on_tb (λ t, set_t_printers (upd_index 0 (set_p_spool_state st) (t_printers t)) t) s.

Definition deleted_state : pprd :=
  Eval vm_compute in with_status (mkPState 1 0 PRNSTATUS_DELETED 0 0 0 0 0 0) idle_state.

(** Its third retry is due in five seconds. *)
Definition fault_state : pprd :=
  Eval vm_compute in with_status (mkPState 1 1 PRNSTATUS_FAULT 3 0 5 0 0 0) idle_state.

Definition first_printer (s : pprd) : Printer := default zero_printer (printers s !! 0%nat).
