(* ===== verification/Change.v ===== *)
(** An abstract view of the daemon: the kinds of change its tables undergo, as
    a step relation, and what it means for a routine to make only such
    changes, or to leave a part of the tables alone; and the order of the queue.
    Invariants are proved of the changes, once for each kind. *)
From S2P Require Import Prelude.
From S2P Require Import Text.
From S2P Require Import Spooler.
From S2P Require Import SpoolerFacts.
From S2P Require Import QueueStatus.
From S2P Require Import Media.
From S2P Require Import Printer.
From S2P Require Import Question.
From S2P Require Import QueueAccept.
From S2P Require Import PpopJobs.

(** * Queue entries keep to the widths of their fields *)

Record wf_entry (e : QEntry) : Prop := {
  wf_destid : in_s 16 (q_destid e);
  wf_id : in_s 16 (q_id e);
  wf_subid : in_s 16 (q_subid e);
  wf_priority : in_s 16 (q_priority e);
  wf_sequence_number : in_u 32 (q_sequence_number e);
  wf_status : in_s 16 (q_status e);
  wf_flags : in_u 16 (q_flags e);
  wf_media : length (q_media e) = MAX_DOCMEDIA ∧ Forall (in_s 16) (q_media e);
  wf_pass : in_s 16 (q_pass e);
  wf_never : in_u 8 (q_never e);
  wf_notnow : in_u 8 (q_notnow e);
}.

Definition keeps_wf (f : QEntry → QEntry) : Prop := ∀ e, wf_entry e → wf_entry (f e).

Ltac wf_setter :=
  let e := fresh "e" in
  let H := fresh "H" in
  intros e H; destruct H; constructor; simpl; try assumption.

Lemma keeps_wf_compose f g :
  keeps_wf f → keeps_wf g → keeps_wf (λ e, f (g e)).
Proof. intros Hf Hg e He. auto. Qed.

Lemma wf_set_status v : in_s 16 v → keeps_wf (set_q_status v).
Proof. intros. wf_setter. Qed.

Lemma wf_set_destid v : in_s 16 v → keeps_wf (set_q_destid v).
Proof. intros. wf_setter. Qed.

Lemma wf_set_priority v : in_s 16 v → keeps_wf (set_q_priority v).
Proof. intros. wf_setter. Qed.

Lemma wf_set_pass v : in_s 16 v → keeps_wf (set_q_pass v).
Proof. intros. wf_setter. Qed.

Lemma wf_set_flags v : in_u 16 v → keeps_wf (set_q_flags v).
Proof. intros. wf_setter. Qed.

Lemma wf_set_never v : in_u 8 v → keeps_wf (set_q_never v).
Proof. intros. wf_setter. Qed.

Lemma wf_set_notnow v : in_u 8 v → keeps_wf (set_q_notnow v).
Proof. intros. wf_setter. Qed.

Lemma wf_set_resend v : keeps_wf (set_q_resend_message_at v).
Proof. wf_setter. Qed.

(** * The kinds of change *)

Section change.
Context `{PPRConfig}.

Inductive change : tables → tables → Prop :=
(* counters that guard nothing, and what belongs to the command at hand *)
| ch_lock n t : change t (set_t_lock_level n t)
| ch_hungry_countdown n t : change t (set_t_hungry_countdown n t)
| ch_hungry_x n t : change t (set_t_hungry_x n t)
| ch_starving n t : change t (set_t_starving_printers n t)
| ch_launches n t : change t (set_t_launches_this_tick n t)
| ch_outstanding n t : change t (set_t_outstanding_questions n t)
| ch_reply_pid n t : change t (set_t_reply_pid n t)
| ch_reply_file b t : change t (set_t_reply_file b t)
(* the queue *)
| ch_newent f t : keeps_wf f → change t (set_t_newent (f (t_newent t)) t)
| ch_job x f t : keeps_wf f → change t (set_t_queue (upd_index x f (t_queue t)) t)
| ch_reload x t :
    change t (set_t_queue (upd_index x (λ _, t_newent t) (t_queue t)) t)
| ch_insert x t :
    Z.of_nat (length (t_queue t)) < t_queue_size t →
    change t (set_t_queue (insert_at x (t_newent t) (t_queue t)) t)
| ch_remove n t : change t (set_t_queue (delete n (t_queue t)) t)
| ch_rush x newpos t : change t (set_t_queue (rush_queue x newpos (t_queue t)) t)
| ch_grow t :
    t_queue_size t + QUEUE_SIZE_GROWBY ≤ QUEUE_SIZE_MAX →
    change t (set_t_queue_size (t_queue_size t + QUEUE_SIZE_GROWBY) t)
(* printers *)
| ch_printer i f t :
    (∀ p, p_job_pid (f p) = p_job_pid p) →
    change t (set_t_printers (upd_index i f (t_printers t)) t)
| ch_start i pid job t :
    0 < pid → t_active_printers t ≠ MAX_ACTIVE →
    change t (set_t_printers (upd_index i (remember_job pid job) (t_printers t))
                (set_t_active_printers (t_active_printers t + 1) t))
| ch_exit i p t :
    at_index (t_printers t) i = Some p → p_job_pid p ≠ 0 →
    change t (set_t_active_printers (t_active_printers t - 1)
                (set_t_printers (upd_index i (set_p_job_pid 0) (t_printers t)) t))
| ch_new_printer t :
    Z.of_nat (length (t_printers t)) ≠ MAX_PRINTERS →
    change t (set_t_printers (t_printers t ++ [printers_memory]) t)
(* groups *)
| ch_group i f t :
    (∀ g, g_printers (f g) = g_printers g) →
    change t (set_t_groups (upd_index i f (t_groups t)) t)
| ch_load_group i g t :
    Z.of_nat (length (g_printers g)) ≤ MAX_GROUPSIZE →
    Forall (λ m, 0 ≤ m < Z.of_nat (length (t_printers t))) (g_printers g) →
    change t (set_t_groups (upd_index i (λ _, g) (t_groups t)) t)
| ch_new_group t : change t (set_t_groups (t_groups t ++ [zero_group]) t)
(* the tables are allocated at startup *)
| ch_init_printers t : t_groups t = [] → change t (set_t_printers [] t)
| ch_init_groups t : change t (set_t_groups [] t)
| ch_init_queue t :
    change t (set_t_queue_size QUEUE_SIZE_INITIAL (set_t_queue [] t))
(* media *)
| ch_media m t :
    m ≠ EmptyString → m ∉ t_media t → Z.of_nat (length (t_media t)) ≠ MAX_MEDIA →
    change t (set_t_media (t_media t ++ [m]) t)
(* questions *)
| ch_launch x a pid f t :
    find_slot 0 0 (t_active_question t) = Some (x, a) →
    0 < pid → aq_pid (f (aq_set_pid pid a)) = pid →
    t_active_questions t < MAX_ACTIVE_QUESTIONS →
    change t (set_t_active_questions (t_active_questions t + 1)
                (set_t_active_question
                   (upd_index x (λ b, f (aq_set_pid pid b)) (t_active_question t)) t))
| ch_launch_failed x a t :
    find_slot 0 0 (t_active_question t) = Some (x, a) →
    change t (set_t_active_question (upd_index x (aq_set_pid (-1)) (t_active_question t)) t)
| ch_answered pid x a t :
    find_slot pid 0 (t_active_question t) = Some (x, a) → 0 < pid →
    change t (set_t_active_questions (t_active_questions t - 1)
                (set_t_active_question (upd_index x (aq_set_pid 0) (t_active_question t)) t)).

(** * Routines that make only such changes *)

Definition tb_steps (t : tables) (s' : pprd) : Prop := rtc change t (tb s').

Lemma tb_steps_trans t s s' : tb_steps t s → tb_steps (tb s) s' → tb_steps t s'.
Proof. unfold tb_steps. intros. by transitivity (tb s). Qed.

(** Whether it returns or throws. *)
Definition refines {A} (m : P A) : Prop :=
  ∀ s, wp m (λ _, tb_steps (tb s)) (λ _, tb_steps (tb s)) (λ _, True) s.

End change.

Create HintDb refines discriminated.

Section refines.
Context `{PPRConfig}.

Lemma refines_ret {A} (a : A) : refines (mret a).
Proof. intros s. apply wp_ret, rtc_refl. Qed.

Lemma refines_bind {A B} (m : P A) (f : A → P B) :
  refines m → (∀ a, refines (f a)) → refines (m ≫= f).
Proof.
  intros Hm Hf s. apply wp_bind.
  eapply wp_mono; [apply Hm | | auto | auto].
  intros a s' Hs'. eapply wp_mono; [apply Hf | | | auto];
    intros ? s'' ?; by apply (tb_steps_trans _ s').
Qed.

(** What follows a look at the state may use what was seen. *)
Lemma refines_bind_gets {A B} (g : pprd → A) (f : A → P B) :
  (∀ s, wp (f (g s)) (λ _, tb_steps (tb s)) (λ _, tb_steps (tb s)) (λ _, True) s) →
  refines (gets g ≫= f).
Proof. intros Hf s. apply wp_bind, wp_gets, Hf. Qed.

Lemma refines_gets {A} (g : pprd → A) : refines (gets g).
Proof. intros s. apply wp_gets, rtc_refl. Qed.

Lemma refines_fatal {A} c msg : refines (fatal (A := A) c msg).
Proof. intros s. by apply wp_fatal. Qed.

Lemma refines_undef {A} why : refines (undef (A := A) why).
Proof. intros s. by apply wp_undef. Qed.

Lemma refines_throw {A} msg : refines (gu_Throw (A := A) msg).
Proof. intros s. apply wp_throw, rtc_refl. Qed.

Lemma refines_c_int z : refines (c_int z).
Proof. intros s. apply wp_c_int; [intros; apply rtc_refl | done]. Qed.

Lemma refines_when b (m : P unit) : refines m → refines (when b m).
Proof. destruct b; [done | intros; apply refines_ret]. Qed.

Lemma refines_try {A} (m : P A) h :
  refines m → (∀ e, refines (h e)) → refines (gu_Try m h).
Proof.
  intros Hm Hh s. apply wp_try.
  eapply wp_mono; [apply Hm | auto | | auto].
  intros e s' Hs'. eapply wp_mono; [apply Hh | | | auto];
    intros ? s'' ?; by apply (tb_steps_trans _ s').
Qed.

Lemma refines_for {B} n lo (body : Z → P (option B)) :
  (∀ y, refines (body y)) → refines (for_loop n lo body).
Proof.
  revert lo. induction n as [|n IH]; intros lo Hb; simpl; [apply refines_ret|].
  apply refines_bind; [apply Hb|]. intros [b|]; [apply refines_ret | auto].
Qed.

Lemma refines_for_each n lo (body : Z → P unit) :
  (∀ y, refines (body y)) → refines (for_each n lo body).
Proof.
  intros Hb. apply refines_bind; [|intros; apply refines_ret].
  apply refines_for. intros y. apply refines_bind; [apply Hb | intros; apply refines_ret].
Qed.

Lemma refines_for_queue {B} (body : Z → P (option B)) :
  (∀ y, refines (body y)) → refines (for_queue body).
Proof.
  intros Hb. apply refines_bind; [apply refines_gets|].
  intros. by apply refines_for.
Qed.

(** ** The primitive operations *)

Lemma refines_io f : refines (modify_io f).
Proof. intros s. apply wp_modify, rtc_refl. Qed.

Lemma refines_tb f : (∀ t, change t (f t)) → refines (modify_tb f).
Proof. intros Hf s. apply wp_modify, rtc_once, Hf. Qed.

Lemma refines_read {A} (m : P A) :
  (∀ s, match m s with Done _ s' | Thrown _ s' => tb s' = tb s | Stopped _ => True end) →
  refines m.
Proof.
  intros Hm s. specialize (Hm s). unfold wp, tb_steps.
  destruct (m s); rewrite ?Hm; done || apply rtc_refl.
Qed.

Lemma refines_syscall : refines syscall.
Proof. by apply refines_read. Qed.

Lemma refines_jobid_str d i j : refines (jobid_str d i j).
Proof.
  apply refines_read. intros s. unfold jobid_str.
  by destruct (jobid (w_jobid_size (io s)) d i j).
Qed.

Lemma refines_get_printer i : refines (get_printer i).
Proof.
  apply refines_read. intros s. unfold get_printer. by destruct (at_index (printers s) i).
Qed.

Lemma refines_get_group i : refines (get_group i).
Proof.
  apply refines_read. intros s. unfold get_group.
  by destruct ((0 <=? i) && (i <? MAX_GROUPS)).
Qed.

Lemma refines_job_get j : refines (job_get j).
Proof.
  apply refines_read. intros s. destruct j as [x|]; simpl; [|done].
  by destruct (at_index (queue s) x).
Qed.

Lemma refines_cstr o : refines (cstr o).
Proof. destruct o; [apply refines_ret | apply refines_undef]. Qed.

Lemma refines_fname pat va : refines (fname pat va).
Proof. unfold fname. destruct (ppr_fnamef pat va); [apply refines_ret | apply refines_throw]. Qed.

Lemma refines_upd_printer i f :
  (∀ p, p_job_pid (f p) = p_job_pid p) → refines (upd_printer i f).
Proof.
  intros Hf. apply refines_bind; [apply refines_get_printer|]. intros _.
  apply refines_tb. intros t. by apply ch_printer.
Qed.

Lemma refines_upd_pstate i f : refines (upd_pstate i f).
Proof. by apply refines_upd_printer. Qed.

Lemma refines_upd_group i f :
  (∀ g, g_printers (f g) = g_printers g) → refines (upd_group i f).
Proof.
  intros Hf. apply refines_bind; [apply refines_get_group|]. intros _.
  apply refines_tb. intros t. by apply ch_group.
Qed.

Lemma refines_upd_gstate i f : refines (upd_gstate i f).
Proof. by apply refines_upd_group. Qed.

Lemma refines_job_upd j f : keeps_wf f → refines (job_upd j f).
Proof.
  intros Hf. apply refines_bind; [apply refines_job_get|]. intros _.
  destruct j; apply refines_tb; intros t; by constructor.
Qed.
End refines.

#[export] Hint Resolve refines_ret refines_gets refines_fatal refines_undef
  refines_throw refines_c_int refines_io refines_syscall refines_jobid_str
  refines_get_printer refines_get_group refines_job_get refines_cstr
  refines_fname refines_upd_pstate refines_upd_gstate : refines.

(** Widths of the values the routines store. *)
Ltac in_range :=
  lazymatch goal with
  | |- in_s 16 (i16 _) => apply i16_range
  | |- in_u _ (u8 _) => apply (unsigned_wrap_range 8); lia
  | |- in_u _ (u16 _) => apply (unsigned_wrap_range 16); lia
  | |- in_u _ (u32 _) => apply (unsigned_wrap_range 32); lia
  | |- in_s _ (of_bool ?b) => destruct b; done
  | |- in_u _ (of_bool ?b) => destruct b; done
  | |- in_u _ (Z.lor _ _) => apply lor_in_u; [lia | in_range | in_range]
  | |- in_u _ (Z.land _ _) => apply land_in_u; [lia | in_range]
  | |- in_u _ (Z.ldiff _ _) => apply ldiff_in_u; [lia | in_range]
  | _ => first [assumption | done]
  end.

Ltac solve_wf := wf_setter; in_range.

(** Walk through a routine: its binds, tests and loops, down to the routines
    whose lemmas the database has. *)
Ltac refine_step :=
  lazymatch goal with
  | |- ∀ _, _ => intro
  | |- refines (_ ≫= _) => apply refines_bind
  | |- refines (when _ _) => apply refines_when
  | |- refines (gu_Try _ _) => apply refines_try
  | |- refines (for_loop _ _ _) => apply refines_for
  | |- refines (for_each _ _ _) => apply refines_for_each
  | |- refines (for_queue _) => apply refines_for_queue
  | |- refines (if ?b then _ else _) => destruct b
  | |- refines (match ?x with _ => _ end) => destruct x
  | |- refines (let _ := _ in _) => cbv zeta
  | |- refines (modify_tb _) => solve [apply refines_tb; constructor]
  | |- refines (upd_printer _ _) => apply refines_upd_printer; done
  | |- refines (upd_group _ _) => apply refines_upd_group; done
  | |- refines (job_upd _ _) => apply refines_job_upd; solve [solve_wf]
  | |- refines _ => solve [eauto 2 with refines]
  end.

Ltac refine_routine := repeat refine_step.

(** * Routines that only look at the tables *)

Definition reads {A} (m : P A) : Prop :=
  ∀ s, wp m (λ _ s', tb s' = tb s) (λ _ s', tb s' = tb s) (λ _, True) s.

Create HintDb reads discriminated.

Section reads.
Context `{PPRConfig}.

Lemma reads_refines {A} (m : P A) : reads m → refines m.
Proof.
  intros Hm s. eapply wp_mono; [apply Hm | | | auto];
    intros ? s' E; unfold tb_steps; rewrite E; apply rtc_refl.
Qed.

Lemma reads_ret {A} (a : A) : reads (mret a).
Proof. by intros s. Qed.

Lemma reads_gets {A} (g : pprd → A) : reads (gets g).
Proof. by intros s. Qed.

Lemma reads_io f : reads (modify_io f).
Proof. by intros s. Qed.

Lemma reads_fatal {A} c msg : reads (fatal (A := A) c msg).
Proof. by intros s. Qed.

Lemma reads_undef {A} why : reads (undef (A := A) why).
Proof. by intros s. Qed.

Lemma reads_throw {A} msg : reads (gu_Throw (A := A) msg).
Proof. by intros s. Qed.

Lemma reads_syscall : reads syscall.
Proof. by intros s. Qed.

Lemma reads_c_int z : reads (c_int z).
Proof. intros s. by apply wp_c_int. Qed.

Lemma reads_bind {A B} (m : P A) (f : A → P B) :
  reads m → (∀ a, reads (f a)) → reads (m ≫= f).
Proof.
  intros Hm Hf s. apply wp_bind. eapply wp_mono; [apply Hm | | auto | auto].
  intros a s' E. eapply wp_mono; [apply Hf | | | auto]; simpl; by intros ? ? ->.
Qed.

Lemma reads_when b (m : P unit) : reads m → reads (when b m).
Proof. destruct b; [done | intros; apply reads_ret]. Qed.

Lemma reads_get_printer i : reads (get_printer i).
Proof. intros s. unfold wp, get_printer. by destruct (at_index (printers s) i). Qed.

Lemma reads_get_group i : reads (get_group i).
Proof. intros s. unfold wp, get_group. by destruct ((0 <=? i) && (i <? MAX_GROUPS)). Qed.

Lemma reads_job_get j : reads (job_get j).
Proof.
  intros s. unfold wp. destruct j as [x|]; simpl; [|done].
  by destruct (at_index (queue s) x).
Qed.

Lemma reads_cstr o : reads (cstr o).
Proof. by destruct o; intros ?. Qed.

Lemma reads_fname pat va : reads (fname pat va).
Proof. unfold fname. by destruct (ppr_fnamef pat va); intros ?. Qed.

Lemma reads_jobid_str d i j : reads (jobid_str d i j).
Proof.
  intros s. unfold wp, jobid_str. by destruct (jobid (w_jobid_size (io s)) d i j).
Qed.

(** The tables a reading routine hands on are the ones it was given. *)
Lemma wp_bind_reads {A B} (m : P A) (f : A → P B) Q X F s :
  reads m →
  (∀ a s', tb s' = tb s → wp (f a) Q X F s') →
  (∀ e s', tb s' = tb s → X e s') →
  (∀ r, F r) →
  wp (m ≫= f) Q X F s.
Proof.
  intros Hm Hf HX HF. apply wp_bind.
  eapply wp_mono; [apply Hm | intros; by apply Hf | intros; by apply HX | auto].
Qed.

(** Go on after a routine that makes changes. *)
Lemma wp_bind_refines {A B} (m : P A) (f : A → P B) t s :
  refines m → tb_steps t s →
  (∀ a s', tb_steps t s' →
    wp (f a) (λ _, tb_steps t) (λ _, tb_steps t) (λ _, True) s') →
  wp (m ≫= f) (λ _, tb_steps t) (λ _, tb_steps t) (λ _, True) s.
Proof.
  intros Hm Hs Hf. apply wp_bind.
  eapply wp_mono; [apply Hm | | | auto].
  - intros a s' ?. apply Hf. by apply (tb_steps_trans _ s).
  - intros e s' ?. by apply (tb_steps_trans _ s).
Qed.

Lemma wp_refines {A} (m : P A) t s :
  refines m → tb_steps t s →
  wp m (λ _, tb_steps t) (λ _, tb_steps t) (λ _, True) s.
Proof.
  intros Hm Hs. eapply wp_mono; [apply Hm | | | auto];
    intros ? s' ?; by apply (tb_steps_trans _ s).
Qed.
End reads.

#[export] Hint Resolve reads_ret reads_gets reads_io reads_fatal reads_undef
  reads_throw reads_syscall reads_c_int reads_get_printer reads_get_group
  reads_job_get reads_cstr reads_fname reads_jobid_str : reads.

#[export] Hint Extern 1 (reads (emit _)) => apply reads_io : reads.
#[export] Hint Extern 1 (reads (state_update _ _)) => apply reads_io : reads.
#[export] Hint Extern 1 (reads (error _ _)) => apply reads_io : reads.
#[export] Hint Extern 1 (reads (debug _ _)) => apply reads_io : reads.
#[export] Hint Extern 1 (reads (fprintf_reply _ _)) => apply reads_io : reads.
#[export] Hint Extern 1 (reads (set_file _ _)) => apply reads_io : reads.
#[export] Hint Extern 1 (reads (unlink _)) => apply reads_io : reads.
#[export] Hint Extern 1 (reads (rename _ _)) => apply reads_io : reads.

Ltac read_step :=
  lazymatch goal with
  | |- ∀ _, _ => intro
  | |- reads (_ ≫= _) => apply reads_bind
  | |- reads (when _ _) => apply reads_when
  | |- reads (if ?b then _ else _) => destruct b
  | |- reads (match ?x with _ => _ end) => destruct x
  | |- reads (let _ := _ in _) => cbv zeta
  | |- reads _ => solve [eauto 2 with reads]
  end.

Ltac read_routine := repeat read_step.

(** * Frames: what a routine leaves alone.  [frames V m] says that [m] does not
    change the part [V] of the tables, whether it returns or throws. *)

Definition frames {X A} (V : tables → X) (m : P A) : Prop :=
  ∀ s, wp m (λ _ s', V (tb s') = V (tb s)) (λ _ s', V (tb s') = V (tb s)) (λ _, True) s.

Create HintDb frames discriminated.

Section frames.
Context {X : Type} (V : tables → X).

Lemma frames_reads {A} (m : P A) : reads m → frames V m.
Proof.
  intros Hm s. eapply wp_mono; [apply Hm | | | auto]; intros ? s' E; simpl; by rewrite E.
Qed.

Lemma frames_bind {A B} (m : P A) (f : A → P B) :
  frames V m → (∀ a, frames V (f a)) → frames V (m ≫= f).
Proof.
  intros Hm Hf s. apply wp_bind. eapply wp_mono; [apply Hm | | auto | auto].
  intros a s' E. eapply wp_mono; [apply Hf | | | auto]; simpl; intros ? ? E'; by rewrite E'.
Qed.

Lemma frames_when b (m : P unit) : frames V m → frames V (when b m).
Proof. destruct b; [done | by intros ? ?]. Qed.

Lemma frames_try {A} (m : P A) h :
  frames V m → (∀ e, frames V (h e)) → frames V (gu_Try m h).
Proof.
  intros Hm Hh s. apply wp_try. eapply wp_mono; [apply Hm | auto | | auto].
  intros a s' E. eapply wp_mono; [apply Hh | | | auto]; simpl; intros ? ? E'; by rewrite E'.
Qed.

Lemma frames_for {B} n lo (body : Z → P (option B)) :
  (∀ y, frames V (body y)) → frames V (for_loop n lo body).
Proof.
  revert lo. induction n as [|n IH]; intros lo Hb; simpl; [by intros ?|].
  apply frames_bind; [apply Hb|]. intros [b|]; [by intros ? | auto].
Qed.

Lemma frames_for_each n lo (body : Z → P unit) :
  (∀ y, frames V (body y)) → frames V (for_each n lo body).
Proof.
  intros Hb. apply frames_bind; [|by intros ? ?].
  apply frames_for. intros y. apply frames_bind; [apply Hb | by intros ? ?].
Qed.

Lemma frames_for_queue {B} (body : Z → P (option B)) :
  (∀ y, frames V (body y)) → frames V (for_queue body).
Proof.
  intros Hb. apply frames_bind; [by intros ?|]. intros. by apply frames_for.
Qed.

Lemma frames_tb f : (∀ t, V (f t) = V t) → frames V (modify_tb f).
Proof. intros Hf s. apply wp_modify. apply Hf. Qed.

Lemma frames_upd_printer i f :
  (∀ t, V (set_t_printers (upd_index i f (t_printers t)) t) = V t) →
  frames V (upd_printer i f).
Proof. intros Hf s. apply wp_upd_printer; [|done]. intros p _. apply Hf. Qed.

Lemma frames_upd_pstate i f :
  (∀ l t, V (set_t_printers l t) = V t) → frames V (upd_pstate i f).
Proof. intros Hf. apply frames_upd_printer. auto. Qed.

Lemma frames_upd_group i f :
  (∀ t, V (set_t_groups (upd_index i f (t_groups t)) t) = V t) →
  frames V (upd_group i f).
Proof. intros Hf s. apply wp_upd_group; [|done]. intros _. apply Hf. Qed.

Lemma frames_job_upd j f :
  (∀ l t, V (set_t_queue l t) = V t) → (∀ e t, V (set_t_newent e t) = V t) →
  frames V (job_upd j f).
Proof.
  intros Hq Hn s. destruct j.
  - apply wp_job_upd_q; [|done]. intros e _. apply Hq.
  - apply wp_job_upd_new. apply Hn.
Qed.

Lemma wp_bind_frames {A B} (m : P A) (f : A → P B) Q Y F s :
  frames V m →
  (∀ a s', V (tb s') = V (tb s) → wp (f a) Q Y F s') →
  (∀ e s', V (tb s') = V (tb s) → Y e s') →
  (∀ r, F r) →
  wp (m ≫= f) Q Y F s.
Proof.
  intros Hm Hf HX HF. apply wp_bind.
  eapply wp_mono; [apply Hm | intros; by apply Hf | intros; by apply HX | auto].
Qed.
End frames.

(** What two analyses say of one routine. *)
Lemma wp_and {A} (m : P A) Q1 Q2 X1 X2 F1 F2 s :
  wp m Q1 X1 F1 s → wp m Q2 X2 F2 s →
  wp m (λ a s', Q1 a s' ∧ Q2 a s') (λ e s', X1 e s' ∧ X2 e s')
    (λ r, F1 r ∧ F2 r) s.
Proof. unfold wp. destruct (m s); auto. Qed.

#[export] Hint Extern 3 (frames _ _) =>
  apply frames_reads; solve [eauto 2 with reads] : frames.

Ltac frame_step :=
  lazymatch goal with
  | |- ∀ _, _ => intro
  | |- frames _ (_ ≫= _) => apply frames_bind
  | |- frames _ (when _ _) => apply frames_when
  | |- frames _ (gu_Try _ _) => apply frames_try
  | |- frames _ (for_loop _ _ _) => apply frames_for
  | |- frames _ (for_each _ _ _) => apply frames_for_each
  | |- frames _ (for_queue _) => apply frames_for_queue
  | |- frames _ (if ?b then _ else _) => destruct b
  | |- frames _ (match ?x with _ => _ end) => destruct x
  | |- frames _ (let _ := _ in _) => cbv zeta
  | |- frames _ (modify_tb _) => solve [apply frames_tb; done]
  | |- frames _ (upd_printer _ _) => 
      solve [apply frames_upd_printer; intros; first [done | apply length_upd_index]]
  | |- frames _ (upd_pstate _ _) => 
      solve [apply frames_upd_printer; intros; first [done | apply length_upd_index]]
  | |- frames _ (upd_group _ _) => 
      solve [apply frames_upd_group; intros; first [done | apply length_upd_index]]
  | |- frames _ (upd_gstate _ _) => 
      solve [apply frames_upd_group; intros; first [done | apply length_upd_index]]
  | |- frames _ (job_upd _ _) => solve [apply frames_job_upd; done]
  | |- frames _ _ => solve [eauto 2 with frames]
  end.

Ltac frame_routine := repeat frame_step.

(** * The order of the queue: the place a new job gets, and what a rush does. *)

(** * Rush *)

Lemma alter_Permutation {A} f n (l : list A) a :
  l !! n = Some a → alter f n l ≡ₚ f a :: delete n l.
Proof.
  revert n. induction l as [|b l IH]; intros [|n] E; simplify_eq/=; [done|].
  change (alter f (S n) (b :: l)) with (b :: alter f n l).
  rewrite (IH n E). apply Permutation_swap.
Qed.

Definition rush_priority (newpos : Z) : Z := if newpos =? 0 then 101 else 1.

(** No job is lost or doubled, and one job's priority changes. *)
Lemma rush_queue_Permutation x newpos q :
  rush_queue x newpos q ≡ₚ
    match at_index q x with
    | Some _ => upd_index x (set_q_priority (rush_priority newpos)) q
    | None => q
    end.
Proof.
  unfold rush_queue, rush_priority. destruct (at_index q x) as [e|] eqn:E; [|done].
  apply at_index_Some in E as [_ E]. unfold upd_index. rewrite (alter_Permutation _ _ _ e E).
  destruct (newpos =? 0); [done|]. apply Permutation_sym, Permutation_cons_append.
Qed.

(** * The order of the queue *)

(** A job that should print before another is before it: a greater priority
    goes first, and the earlier of two jobs of one priority. *)
Definition in_order (l : list QEntry) : Prop :=
  ∀ x y e e', (x < y)%nat → l !! x = Some e → l !! y = Some e' → goes_before e' e = false.

Lemma goes_before_trans a b c :
  goes_before a b = false → goes_before b c = false → goes_before a c = false.
Proof.
  unfold goes_before. rewrite !orb_false_iff, !andb_false_iff, !Z.ltb_ge, !Z.eqb_neq. lia.
Qed.

Lemma goes_before_asym a b : goes_before a b = true → goes_before b a = false.
Proof.
  unfold goes_before. rewrite orb_true_iff, andb_true_iff, orb_false_iff, andb_false_iff,
    !Z.ltb_lt, !Z.ltb_ge, Z.eqb_eq, Z.eqb_neq. lia.
Qed.

(** What the search passes over, and where it ends. *)
Lemma find_place_spec new l x n :
  ∃ k, (k ≤ length l)%nat ∧
    (find_place new l x n).1 = x + Z.of_nat k ∧
    (find_place new l x n).2
      = n + Z.of_nat (length (filter (λ e, q_destid e = q_destid new) (take k l))) ∧
    Forall (λ e, goes_before new e = false) (take k l) ∧
    (∀ e, l !! k = Some e → goes_before new e = true).
Proof.
  revert x n. induction l as [|e l IH]; intros x n; simpl.
  - exists 0%nat. simpl. repeat split; [lia | lia | lia | constructor | done].
  - destruct (goes_before new e) eqn:E.
    + exists 0%nat. simpl. repeat split; [lia | lia | lia | constructor |].
      by intros ? [= <-].
    + destruct (IH (x + 1) (if q_destid e =? q_destid new then n + 1 else n))
        as (k & Hk & -> & -> & Hall & Hend).
      exists (S k). simpl. repeat split; [lia | lia | | by constructor | done].
      rewrite filter_cons. destruct (Z.eqb_spec (q_destid e) (q_destid new));
        destruct (decide (q_destid e = q_destid new)); simpl; try done; lia.
Qed.

Lemma insert_at_lookup {A} k (a : A) l y :
  (k ≤ length l)%nat →
  insert_at (Z.of_nat k) a l !! y
  = if decide (y < k)%nat then l !! y else if decide (y = k) then Some a else l !! (y - 1)%nat.
Proof.
  intros Hk. unfold insert_at. rewrite Nat2Z.id.
  assert (length (take k l) = k) as El by (rewrite length_take; lia).
  destruct (decide (y < k)%nat).
  - rewrite lookup_app_l by lia. by apply lookup_take_lt.
  - rewrite lookup_app_r by lia. rewrite El. destruct (decide (y = k)) as [->|Hne].
    + by rewrite Nat.sub_diag.
    + replace (y - k)%nat with (S (y - k - 1)) by lia. simpl.
      rewrite lookup_drop. f_equal. lia.
Qed.

(** In an ordered queue everything from the place on goes after the new job. *)
Lemma in_order_after l k new :
  in_order l → (∀ e, l !! k = Some e → goes_before new e = true) →
  ∀ y e, (k ≤ y)%nat → l !! y = Some e → goes_before e new = false.
Proof.
  intros Hl Hk y e Hy He. assert (is_Some (l !! k)) as [a Ha].
  { apply lookup_lt_is_Some_2. apply lookup_lt_Some in He. lia. }
  specialize (Hk a Ha). destruct (decide (k = y)) as [->|Hne].
  - simplify_eq. by apply goes_before_asym.
  - apply (goes_before_trans e a new); [|by apply goes_before_asym].
    apply (Hl k y a e); [lia | done | done].
Qed.

Lemma find_place_in_order new l :
  in_order l → in_order (insert_at (find_place new l 0 0).1 new l).
Proof.
  intros Hl. destruct (find_place_spec new l 0 0) as (k & Hk & -> & _ & Hbefore & Hend).
  rewrite Z.add_0_l. intros x y e e' Hxy. rewrite !insert_at_lookup by done.
  pose proof (in_order_after l k new Hl Hend) as Hafter.
  assert (∀ z a, (z < k)%nat → l !! z = Some a → goes_before new a = false) as Hb.
  { intros z a Hz Ha. rewrite Forall_forall in Hbefore. apply Hbefore.
    apply list_elem_of_lookup_2 with z. by rewrite lookup_take_lt. }
  destruct (decide (x < k)%nat), (decide (y < k)%nat); try lia.
  - apply Hl. lia.
  - destruct (decide (y = k)); [intros Ha [= <-]; by apply (Hb x)|].
    apply Hl. lia.
  - destruct (decide (x = k)), (decide (y = k)); try lia.
    + intros [= <-] Ha. apply (Hafter (y - 1)%nat); [lia | done].
    + apply Hl. lia.
Qed.

Lemma insert_at_Permutation {A} x (a : A) l : insert_at x a l ≡ₚ a :: l.
Proof. unfold insert_at. by rewrite <- Permutation_middle, take_drop. Qed.
