(* ===== verification/Refine.v ===== *)
(** Every routine of the daemon makes only the changes of Change.v: the
    routines of the queue, of media, of printers, of questions and of the
    commands about jobs. *)
From S2P Require Import Prelude.
From S2P Require Import Text.
From S2P Require Import Spooler.
From S2P Require Import SpoolerFacts.
From S2P Require Import Destid.
From S2P Require Import QueueStatus.
From S2P Require Import Media.
From S2P Require Import Printer.
From S2P Require Import PprdrvExit.
From S2P Require Import Question.
From S2P Require Import QueueAccept.
From S2P Require Import PpopJobs.
From S2P Require Import Change.

(** * Looking things up *)

Lemma reads_time : reads time.
Proof. apply reads_gets. Qed.

Lemma reads_read_file n : reads (read_file n).
Proof. apply reads_gets. Qed.

Lemma reads_writable n : reads (writable n).
Proof. apply reads_gets. Qed.

Lemma reads_is_group d : reads (is_group d).
Proof. apply reads_gets. Qed.

Lemma reads_fork : reads fork.
Proof. unfold fork. read_routine. Qed.

Lemma reads_kill pid sig : reads (kill pid sig).
Proof. unfold kill. read_routine. Qed.

Lemma reads_destid_to_gindex d : reads (destid_to_gindex d).
Proof. unfold destid_to_gindex. read_routine. Qed.

Lemma reads_destid_by_gindex g : reads (destid_by_gindex g).
Proof. unfold destid_by_gindex. read_routine. Qed.
#[export] Hint Resolve reads_time reads_read_file reads_writable reads_is_group
  reads_fork reads_kill reads_destid_to_gindex reads_destid_by_gindex : reads.

Lemma reads_destid_to_name d : reads (destid_to_name d).
Proof. unfold destid_to_name. read_routine. Qed.

Lemma reads_find_printer l x n : reads (find_printer l x n).
Proof. revert x. induction l; intros; simpl; read_routine; auto. Qed.

Lemma reads_find_group l x n : reads (find_group l x n).
Proof. revert x. induction l; intros; simpl; read_routine; auto. Qed.
#[export] Hint Resolve reads_destid_to_name reads_find_printer reads_find_group : reads.

Lemma reads_destid_by_printer n : reads (destid_by_printer n).
Proof. unfold destid_by_printer. read_routine. Qed.

Lemma reads_destid_by_group n : reads (destid_by_group n).
Proof. unfold destid_by_group. read_routine. Qed.
#[export] Hint Resolve reads_destid_by_printer reads_destid_by_group : reads.

Lemma reads_destid_by_name n : reads (destid_by_name n).
Proof. unfold destid_by_name. read_routine. Qed.

Lemma reads_destid_by_name_reversed n : reads (destid_by_name_reversed n).
Proof. unfold destid_by_name_reversed. read_routine. Qed.

Lemma reads_destid_get_member_offset d p : reads (destid_get_member_offset d p).
Proof. unfold destid_get_member_offset. read_routine. Qed.
#[export] Hint Resolve reads_destid_by_name reads_destid_by_name_reversed
  reads_destid_get_member_offset : reads.

Lemma reads_destid_printer_bit d p : reads (destid_printer_bit d p).
Proof. unfold destid_printer_bit. read_routine. Qed.

Lemma reads_destid_accepting d : reads (destid_accepting d).
Proof. unfold destid_accepting. read_routine. Qed.
#[export] Hint Resolve reads_destid_printer_bit reads_destid_accepting : reads.

#[export] Hint Extern 3 (refines _) =>
  apply reads_refines; solve [eauto 2 with reads] : refines.

Lemma refines_lock `{PPRConfig} : refines lock.
Proof. unfold lock. refine_routine. Qed.

Lemma refines_unlock `{PPRConfig} : refines unlock.
Proof. unfold unlock. refine_routine. Qed.

#[export] Hint Resolve refines_lock refines_unlock : refines.

Section refine.
Context `{PPRConfig}.

(** * The queue's status routines *)

Lemma refines_save_to n l : refines (save_to n l).
Proof. unfold save_to. refine_routine. Qed.
Hint Resolve refines_save_to : refines.

Lemma refines_save_group_state g : refines (save_group_state g).
Proof. unfold save_group_state, group_spool_state_save. refine_routine. Qed.

Lemma refines_save_printer_state g : refines (save_printer_state g).
Proof. unfold save_printer_state, printer_spool_state_save. refine_routine. Qed.
Hint Resolve refines_save_group_state refines_save_printer_state : refines.

Lemma refines_delete_job_files n i j : refines (delete_job_files n i j).
Proof. unfold delete_job_files, unlink_job_file. refine_routine. Qed.

Lemma refines_job_count_adjust d i f : refines (job_count_adjust d i f).
Proof. unfold job_count_adjust. refine_routine. Qed.

Lemma refines_remove_queue_entry x : refines (remove_queue_entry x).
Proof. unfold remove_queue_entry. refine_routine. Qed.
Hint Resolve refines_delete_job_files refines_job_count_adjust
  refines_remove_queue_entry : refines.

Lemma refines_queue_dequeue_job d i j : refines (queue_dequeue_job d i j).
Proof. unfold queue_dequeue_job. refine_routine. Qed.

Lemma refines_queue_write_status_and_flags j : refines (queue_write_status_and_flags j).
Proof. unfold queue_write_status_and_flags. refine_routine. Qed.
Hint Resolve refines_queue_dequeue_job refines_queue_write_status_and_flags : refines.

Lemma refines_queue_p_job_new_status j st : refines (queue_p_job_new_status j st).
Proof. unfold queue_p_job_new_status. refine_routine. Qed.
Hint Resolve refines_queue_p_job_new_status : refines.

Lemma refines_queue_job_new_status d i j st : refines (queue_job_new_status d i j st).
Proof. unfold queue_job_new_status. refine_routine. Qed.
Hint Resolve refines_queue_job_new_status : refines.
End refine.

#[export] Hint Resolve refines_save_group_state refines_save_printer_state
  refines_delete_job_files refines_job_count_adjust refines_queue_dequeue_job
  refines_queue_write_status_and_flags refines_queue_p_job_new_status
  refines_queue_job_new_status : refines.

Section refine_media.
Context `{PPRConfig}.

(** * Media *)

Lemma reads_get_media_name m : reads (get_media_name m).
Proof. apply reads_gets. Qed.
Hint Resolve reads_get_media_name : reads.

Lemma find_string_none x l n : find_string x l n = None → n ∉ l.
Proof.
  revert x. induction l as [|m l IH]; simpl; intros x; [intros _; apply not_elem_of_nil|].
  destruct (String.eqb_spec m n) as [->|]; [done|].
  intros E%IH. by apply not_elem_of_cons.
Qed.

Lemma refines_get_media_id n : refines (get_media_id n).
Proof.
  unfold get_media_id. destruct (String.eqb_spec n EmptyString); [refine_routine|].
  apply refines_bind_gets. intros s.
  destruct (find_string 0 (media s) n) eqn:E; [apply wp_ret, rtc_refl|].
  destruct (Z.eqb_spec (Z.of_nat (length (media s))) MAX_MEDIA); [by apply wp_fatal|].
  apply wp_bind, wp_modify, wp_ret, rtc_once, ch_media; [done | | done].
  by eapply find_string_none.
Qed.
Hint Resolve refines_get_media_id : refines.

Lemma refines_media_mounted_save p : refines (media_mounted_save p).
Proof. unfold media_mounted_save. refine_routine. Qed.

Lemma refines_recover_records p l : refines (recover_records p l).
Proof. induction l; simpl; unfold recover_record; refine_routine; auto. Qed.
Hint Resolve refines_recover_records : refines.

Lemma refines_media_mounted_recover p : refines (media_mounted_recover p).
Proof. unfold media_mounted_recover. refine_routine. Qed.

Lemma reads_hasmedia p j : reads (hasmedia p j).
Proof. unfold hasmedia. read_routine. Qed.

Lemma reads_mask_of test x l m :
  (∀ p, reads (test p)) → reads (mask_of test x l m).
Proof. intros Ht. revert x m. induction l; intros; simpl; read_routine; auto. Qed.
Hint Resolve reads_hasmedia reads_mask_of : reads.

Lemma reads_printer_is_down p : reads (printer_is_down p).
Proof. unfold printer_is_down. read_routine. Qed.
Hint Resolve reads_printer_is_down : reads.

Lemma reads_stoptmask d : reads (stoptmask d).
Proof. unfold stoptmask. read_routine. Qed.
Hint Resolve reads_stoptmask : reads.

Lemma wait_reason_group_range m n s : in_s 16 (wait_reason_group m n s).
Proof. unfold wait_reason_group. by destruct (_ && _). Qed.

Lemma wait_reason_printer_range n s : in_s 16 (wait_reason_printer n s).
Proof. unfold wait_reason_printer. by destruct (_ && _). Qed.

Lemma refines_media_set_job_wait_reason j m b :
  refines (media_set_job_wait_reason j m b).
Proof.
  unfold media_set_job_wait_reason.
  apply refines_bind; [auto with refines|]. intros job. apply refines_when.
  assert (∀ st, in_s 16 st → refines
    (when (negb (st =? q_status job))
      (if b then queue_p_job_new_status j st else job_upd j (set_q_status st)))).
  { intros st Hst. refine_routine. }
  intros s. apply wp_bind, wp_gets. rewrite wp_bind.
  apply (wp_mono _ (λ st s', tb s' = tb s ∧ in_s 16 st) _ (λ _ _, False) _ (λ _, True));
    [| |done|done].
  - destruct (destid_is_group s (q_destid job)).
    + apply wp_bind. unfold destid_to_gindex.
      destruct (_ || _); [by apply wp_fatal|].
      apply wp_ret, wp_bind. unfold wp, get_group.
      destruct (_ && _); [|done]. simpl. split; [done | apply wait_reason_group_range].
    + apply wp_ret. split; [done | apply wait_reason_printer_range].
  - intros st s' [E Hst]. unfold tb_steps. rewrite <- E. by apply H0.
Qed.
Hint Resolve refines_media_set_job_wait_reason : refines.

Lemma refines_for_jobs_of d body : (∀ x, refines (body x)) → refines (for_jobs_of d body).
Proof. intros Hb. unfold for_jobs_of. refine_routine. Qed.

Lemma refines_for_groups body : (∀ x, refines (body x)) → refines (for_groups body).
Proof. intros Hb. unfold for_groups. refine_routine. Qed.

Lemma refines_media_startstop_update_waitreason p :
  refines (media_startstop_update_waitreason p).
Proof.
  unfold media_startstop_update_waitreason, media_startstop_update_waitreason2.
  repeat first [refine_step | apply refines_for_jobs_of | apply refines_for_groups].
Qed.

Lemma refines_media_update_notnow p : refines (media_update_notnow p).
Proof.
  unfold media_update_notnow, media_update_notnow2.
  repeat first [refine_step | apply refines_for_jobs_of | apply refines_for_groups].
Qed.

Lemma refines_set_notnow_bits j x l : refines (set_notnow_bits j x l).
Proof. revert x. induction l; intros; simpl; refine_routine; auto. Qed.
Hint Resolve refines_set_notnow_bits : refines.

Lemma refines_media_set_notnow_for_job j b : refines (media_set_notnow_for_job j b).
Proof. unfold media_set_notnow_for_job. refine_routine. Qed.
End refine_media.

#[export] Hint Resolve reads_get_media_name reads_hasmedia reads_stoptmask : reads.
#[export] Hint Resolve refines_get_media_id
  refines_media_mounted_save refines_media_mounted_recover
  refines_media_set_job_wait_reason
  refines_media_startstop_update_waitreason refines_media_update_notnow
  refines_media_set_notnow_for_job : refines.

(** * Every routine of the daemon makes only the changes of Change.v: starting
    and ending pprdrv, questions, and receiving jobs. *)

Section refine_jobs.
Context `{PPRConfig}.

(** * Alerts and responses *)

Lemma reads_alert n d f a : reads (alert n d f a).
Proof. apply reads_io. Qed.

Lemma reads_with_sendmail f a msg :
  (∀ x, reads (msg x)) → reads (with_sendmail f a msg).
Proof. intros Hm. unfold with_sendmail. read_routine; auto. Qed.
Hint Resolve reads_alert reads_with_sendmail : reads.

Lemma reads_alert_printer_failed p f m a n : reads (alert_printer_failed p f m a n).
Proof.
  unfold alert_printer_failed. read_routine. apply reads_with_sendmail. read_routine.
Qed.

Lemma reads_alert_printer_working p f m a n : reads (alert_printer_working p f m a n).
Proof.
  unfold alert_printer_working. read_routine; apply reads_with_sendmail; read_routine.
Qed.

Lemma reads_charge_args p : reads (charge_args p).
Proof. intros s. unfold wp, charge_args. by destruct (at_index (printers s) p). Qed.
Hint Resolve reads_charge_args : reads.

Lemma reads_respond2 d i j p n r : reads (respond2 d i j p n r).
Proof. unfold respond2. read_routine. Qed.
Hint Resolve reads_respond2 : reads.

Lemma reads_respond d i j p r : reads (respond d i j p r).
Proof. unfold respond. read_routine. Qed.

(** * Printers *)

Lemma reads_pst_update i p : reads (pst_update i p).
Proof. unfold pst_update, pst_with_job, printing_jobid. read_routine. Qed.
Hint Resolve reads_pst_update : reads.

Lemma refines_printer_new_status p st : refines (printer_new_status p st).
Proof. unfold printer_new_status, tell_waiting_ppop. refine_routine. Qed.
Hint Resolve refines_printer_new_status : refines.

Lemma refines_starve p : refines (starve p).
Proof. unfold starve. refine_routine. Qed.
Hint Resolve refines_starve : refines.

Lemma reads_pprdrv_exec p j : reads (pprdrv_exec p j).
Proof. unfold pprdrv_exec. read_routine. Qed.

Lemma refines_mark_last_used d p : refines (mark_last_used d p).
Proof. unfold mark_last_used. refine_routine. Qed.
Hint Resolve refines_mark_last_used : refines.

(** The end of a successful start, from the moment fork() has returned. *)
Lemma refines_started {A} prnid job pid (k : unit → P A) s :
  0 < pid → t_active_printers (tb s) ≠ MAX_ACTIVE →
  (∀ u, refines (k u)) →
  wp (pprdrv_exec prnid job;;
      modify_tb (λ t, set_t_active_printers (t_active_printers t + 1) t);;
      upd_printer prnid (remember_job pid job) ≫= k)
    (λ _, tb_steps (tb s)) (λ _, tb_steps (tb s)) (λ _, True) s.
Proof.
  intros Hpid Hact Hk.
  apply wp_bind_reads; [apply reads_pprdrv_exec | | | done].
  2: { intros e s' E. unfold tb_steps. rewrite E. apply rtc_refl. }
  intros [] s' E. apply wp_bind, wp_modify, wp_bind, wp_upd_printer; [|done].
  intros p _. apply wp_refines; [apply Hk|].
  apply rtc_once. simpl. rewrite E. by apply ch_start.
Qed.

Lemma refines_pprdrv_start p j : refines (pprdrv_start p j).
Proof.
  unfold pprdrv_start. apply refines_bind; [auto with refines|]. intros job.
  destruct (negb (q_status job =? STATUS_WAITING)); [auto with refines|].
  apply refines_bind; [auto with refines|]. intros pr.
  destruct (negb (p_status pr =? PRNSTATUS_IDLE)); [auto with refines|].
  apply refines_bind_gets. intros s.
  destruct (t_lock_level (tb s) =? 0); [by apply wp_fatal|].
  destruct (Z.eqb_spec (t_active_printers (tb s)) MAX_ACTIVE); [apply refines_starve|].
  destruct (_ && _); [apply refines_starve|].
  apply wp_bind, wp_fork. intros pid s' E Hpid. rewrite <- E.
  destruct (Z.eqb_spec pid (-1)).
  - assert (refines (name ← destid_to_name p;
      error (dq "%s(): Couldn't fork, printer `%s` not started")
        [AS "pprdrv_start"; AS name];; starve p)) as R by refine_routine.
    apply R.
  - apply refines_started; [lia | by rewrite E |]. intros []. refine_routine.
Qed.
Hint Resolve refines_pprdrv_start : refines.

Lemma refines_printer_start p j : refines (printer_start p j).
Proof. unfold printer_start. refine_routine. Qed.
Hint Resolve refines_printer_start : refines.

Lemma reads_may_print p e : reads (may_print p e).
Proof. unfold may_print. read_routine. Qed.
Hint Resolve reads_may_print : reads.

Lemma refines_printer_look_for_work p : refines (printer_look_for_work p).
Proof. unfold printer_look_for_work. refine_routine. Qed.
Hint Resolve refines_printer_look_for_work : refines.

Lemma refines_for_members g body : (∀ p, refines (body p)) → refines (for_members g body).
Proof. intros Hb. unfold for_members. refine_routine. Qed.

Lemma refines_group_look_for_work g : refines (group_look_for_work g).
Proof. apply refines_for_members. refine_routine. Qed.

Lemma refines_try_members n g y j : refines (try_members n g y j).
Proof. revert y. induction n; intros; simpl; refine_routine; auto. Qed.
Hint Resolve refines_try_members : refines.

Lemma refines_printer_try_start_suitable_4_this_job j :
  refines (printer_try_start_suitable_4_this_job j).
Proof. unfold printer_try_start_suitable_4_this_job. refine_routine. Qed.
Hint Resolve refines_printer_try_start_suitable_4_this_job : refines.

Lemma refines_feed_one : refines feed_one.
Proof.
  unfold feed_one. repeat first [refine_step | apply refines_tb; intros t; destruct (_ <=? _)].
  - constructor.
  - pose proof (ch_lock (t_lock_level t) t) as C. by destruct t.
Qed.
Hint Resolve refines_feed_one : refines.

Lemma refines_printer_tick : refines printer_tick.
Proof. unfold printer_tick, retry_expired. refine_routine. Qed.

(** * The end of pprdrv *)

Lemma reads_printer_alert p d f a : reads (printer_alert p d f a).
Proof. unfold printer_alert. read_routine. Qed.
Hint Resolve reads_printer_alert : reads.

Lemma reads_decode_wstat p w : reads (decode_wstat p w).
Proof. unfold decode_wstat. read_routine. Qed.

Lemma reads_respond_printing p r : reads (respond_printing p r).
Proof. unfold respond_printing. read_routine. apply reads_respond. Qed.
Hint Resolve reads_alert_printer_failed reads_alert_printer_working
  reads_decode_wstat reads_respond_printing : reads.

Lemma refines_printer_succeeded p : refines (printer_succeeded p).
Proof. unfold printer_succeeded. refine_routine. Qed.

Lemma wf_never_1 : keeps_wf (λ e, set_q_never (Z.lor (q_never e) 1) e).
Proof. solve_wf. Qed.

Lemma refines_exit_incapable p : refines (exit_incapable p).
Proof.
  unfold exit_incapable.
  repeat first [refine_step | apply refines_job_upd, wf_never_1].
Qed.

Lemma reads_exit_signal p w : reads (exit_signal p w).
Proof. unfold exit_signal. read_routine. Qed.
Hint Resolve refines_printer_succeeded refines_exit_incapable : refines.
Hint Resolve reads_exit_signal : reads.

Lemma refines_act_on_exit_code p w c : refines (act_on_exit_code p w c).
Proof. unfold act_on_exit_code. refine_routine. Qed.

Lemma refines_act_on_printer_error p c st : refines (act_on_printer_error p c st).
Proof. unfold act_on_printer_error. refine_routine. Qed.

Lemma reads_post_failure_alert p st : reads (post_failure_alert p st).
Proof. unfold post_failure_alert. read_routine. Qed.

Lemma refines_dispose_of_job p c st : refines (dispose_of_job p c st).
Proof. unfold dispose_of_job. refine_routine. Qed.

Lemma refines_settle_printer p st : refines (settle_printer p st).
Proof. unfold settle_printer. refine_routine. Qed.
Hint Resolve refines_act_on_exit_code refines_act_on_printer_error
  refines_dispose_of_job refines_settle_printer : refines.
Hint Resolve reads_post_failure_alert : reads.

(** The printer is one whose pprdrv was running. *)
Lemma refines_pprdrv_exited i w s p :
  at_index (printers s) i = Some p → p_job_pid p ≠ 0 →
  wp (pprdrv_exited i w) (λ _, tb_steps (tb s)) (λ _, tb_steps (tb s)) (λ _, True) s.
Proof.
  intros Hp Hpid. apply wp_bind, wp_upd_printer; [|done].
  intros q _. apply wp_bind, wp_modify, wp_refines.
  - refine_routine.
  - apply rtc_once. simpl. by apply ch_exit with p.
Qed.

Lemma refines_pprdrv_child_hook pid w : 0 < pid → refines (pprdrv_child_hook pid w).
Proof.
  intros Hpid. unfold pprdrv_child_hook. apply refines_bind; [auto with refines|].
  intros l. apply refines_bind; [|refine_routine]. apply refines_for. intros x s.
  apply wp_bind, wp_get_printer; [|done]. intros p Hp.
  destruct (Z.eqb_spec (p_job_pid p) pid); [|apply wp_ret, rtc_refl].
  rewrite wp_bind. eapply wp_mono; [eapply refines_pprdrv_exited | | auto | auto].
  - done.
  - lia.
  - intros a s' Hs'. by apply wp_ret.
Qed.

Lemma reads_pprdrv_kill p : reads (pprdrv_kill p).
Proof. unfold pprdrv_kill. read_routine. Qed.
End refine_jobs.

#[export] Hint Resolve reads_alert reads_alert_printer_failed
  reads_alert_printer_working reads_respond2 reads_respond reads_pprdrv_kill : reads.
#[export] Hint Resolve refines_printer_new_status refines_printer_look_for_work
  refines_group_look_for_work refines_printer_try_start_suitable_4_this_job
  refines_printer_tick : refines.
