(* ===== verification/RefineCommands.v ===== *)
(** Every routine of the daemon makes only the changes of Change.v: questions,
    receiving jobs, commands and the main loop. *)
From S2P Require Import Prelude.
From S2P Require Import Text.
From S2P Require Import Spooler.
From S2P Require Import SpoolerFacts.
From S2P Require Import Destid.
From S2P Require Import QueueStatus.
From S2P Require Import Media.
From S2P Require Import Printer.
From S2P Require Import PprdrvExit.
From S2P Require Import Question.
From S2P Require Import QueueAccept.
From S2P Require Import PpopJobs.
From S2P Require Import PpopPrinters.
From S2P Require Import Load.
From S2P Require Import Ipp.
From S2P Require Import Main.
From S2P Require Import Change.
From S2P Require Import Refine.

Section refine_questions.
Context `{PPRConfig}.

(** * Questions *)

Lemma wf_add_flag f : in_u 16 f → keeps_wf (add_flag f).
Proof. intros Hf. unfold add_flag. solve_wf. Qed.

Lemma wf_drop_flag f : keeps_wf (drop_flag f).
Proof. unfold drop_flag. solve_wf. Qed.

(** The tables after a launch: the slot, the counters and the job's flag. *)
Lemma launched_steps j x a pid job f t :
  find_slot 0 0 (t_active_question t) = Some (x, a) → 0 < pid →
  t_active_questions t < MAX_ACTIVE_QUESTIONS → keeps_wf f →
  rtc change t
    (set_t_launches_this_tick (t_launches_this_tick t + 1)
      (set_t_active_questions (t_active_questions t + 1)
        (set_t_active_question
          (upd_index x (λ b, mkAQ (aq_pid b) (q_destid job) (q_id job) (q_subid job))
            (upd_index x (aq_set_pid pid) (t_active_question t)))
          (match j with
           | Jq y => set_t_queue (upd_index y f (t_queue t)) t
           | Jnew => set_t_newent (f (t_newent t)) t
           end)))).
Proof.
  intros Hx Hpid Hact Hf. rewrite upd_index_compose.
  eapply rtc_l.
  { apply (ch_launch x a pid (λ b, mkAQ (aq_pid b) (q_destid job) (q_id job) (q_subid job)) t);
      done. }
  eapply rtc_l; [apply (ch_launches (t_launches_this_tick t + 1))|].
  apply rtc_once. destruct j as [y|].
  - by apply (ch_job y f).
  - by apply (ch_newent f).
Qed.

Lemma refines_question_launch j s :
  t_active_questions (tb s) < MAX_ACTIVE_QUESTIONS →
  wp (question_launch j) (λ _, tb_steps (tb s)) (λ _, tb_steps (tb s)) (λ _, True) s.
Proof.
  intros Hact. apply wp_bind, wp_gets.
  destruct (find_slot 0 0 (t_active_question (tb s))) as [[x a]|] eqn:Hx; [|done].
  apply wp_bind, wp_fork. intros pid s1 E1 Hpid. apply wp_bind, wp_modify.
  destruct (Z.eqb_spec pid (-1)) as [->|].
  - apply wp_refines; [refine_routine|]. apply rtc_once. simpl. rewrite E1.
    by eapply ch_launch_failed.
  - destruct Hpid as [|Hpid]; [done|].
    apply wp_bind, wp_job_get; [|done]. intros job.
    apply wp_bind, wp_destid_to_name; [|done]. intros destname.
    apply wp_bind, wp_modify, wp_bind.
    assert (keeps_wf (add_flag JOB_FLAG_QUESTION_ASKING_NOW)) as Hwf
      by (apply wf_add_flag; done).
    destruct j as [y|].
    + apply wp_job_upd_q; [|done]. intros e _. apply wp_bind, wp_modify, wp_bind, wp_modify, wp_ret.
      rewrite <- E1 in *. exact (launched_steps (Jq y) x a pid job _ _ Hx Hpid Hact Hwf).
    + apply wp_job_upd_new, wp_bind, wp_modify, wp_bind, wp_modify, wp_ret.
      rewrite <- E1 in *. exact (launched_steps Jnew x a pid job _ _ Hx Hpid Hact Hwf).
Qed.

Lemma refines_ask_questions n x c now : refines (ask_questions n x c now).
Proof.
  revert x c. induction n as [|n IH]; intros x c; simpl; [apply refines_ret|].
  apply refines_bind_gets. intros s.
  destruct (may_ask_more c (tb s)) eqn:Hgo; [|apply wp_ret, rtc_refl].
  apply andb_true_iff in Hgo as [[_ Hact]%andb_true_iff _].
  apply wp_bind, wp_job_get; [|done]. intros e.
  destruct (has_flag (q_flags e) JOB_FLAG_QUESTION_UNANSWERED); [|apply IH].
  apply wp_bind, wp_when.
  - intros _. apply wp_bind. eapply wp_mono; [apply refines_question_launch; lia | | auto | auto].
    intros r s' Hs'. apply wp_ret. by apply wp_refines.
  - intros _. apply IH.
Qed.
Hint Resolve refines_ask_questions : refines.

Lemma refines_question_look_for_work : refines question_look_for_work.
Proof. unfold question_look_for_work. refine_routine. Qed.

Lemma refines_question_job j : refines (question_job j).
Proof.
  unfold question_job. apply refines_bind; [auto with refines|]. intros _.
  apply refines_bind; [refine_routine|]. intros _.
  apply refines_bind_gets. intros s. apply wp_bind, wp_when.
  - intros Hact. apply wp_bind.
    eapply wp_mono; [apply refines_question_launch; lia | | auto | auto].
    intros r s' Hs'. apply wp_ret, wp_refines; [auto with refines | done].
  - intros _. apply refines_unlock.
Qed.
Hint Resolve refines_question_look_for_work refines_question_job : refines.

Lemma refines_question_answered w y e : refines (question_answered w y e).
Proof.
  unfold question_answered.
  repeat first [refine_step | apply refines_job_upd, wf_drop_flag].
Qed.

Lemma frames_question_answered w y e :
  frames t_active_question (question_answered w y e).
Proof. unfold question_answered. frame_routine. Qed.

Lemma refines_question_child_hook pid w : 0 < pid → refines (question_child_hook pid w).
Proof.
  intros Hpid. unfold question_child_hook. apply refines_bind; [auto with refines|].
  intros _. apply refines_bind_gets. intros s.
  destruct (find_slot pid 0 (t_active_question (tb s))) as [[x a]|] eqn:Hx.
  - assert (∀ y, refines (e ← job_get (Jq y);
      if is_job (aq_destid a) (aq_id a) (aq_subid a) e
      then question_answered w y e;; mret (Some tt) else mret None)) as R.
    { intros y. refine_routine. apply refines_question_answered. }
    assert (∀ y, frames t_active_question (e ← job_get (Jq y);
      if is_job (aq_destid a) (aq_id a) (aq_subid a) e
      then question_answered w y e;; mret (Some tt) else mret None)) as Fr.
    { intros y. frame_routine. apply frames_question_answered. }
    rewrite wp_bind. apply wp_bind. eapply wp_mono.
    + exact (wp_and _ _ _ _ _ _ _ _ (refines_for_queue _ R s) (frames_for_queue _ _ Fr s)).
    + simpl. intros r s1 [Hs1 E1]. apply wp_bind, wp_modify, wp_bind, wp_modify.
      assert (tb_steps (tb s) (on_tb (λ t, set_t_active_questions (t_active_questions t - 1) t)
        (on_tb (λ t, set_t_active_question (upd_index x (aq_set_pid 0) (t_active_question t)) t) s1)))
        as Hs2.
      { apply (tb_steps_trans _ s1); [done|]. apply rtc_once.
        apply (ch_answered pid x a); [by rewrite E1 | done]. }
      apply wp_bind.
      eapply wp_mono; [apply wp_refines; [apply refines_question_look_for_work | exact Hs2]
                      | | auto | auto].
      intros [] s3 Hs3.
      apply wp_ret, wp_refines; [refine_routine | done].
    + simpl. intros e s1 [??]. done.
    + done.
  - apply wp_bind, wp_ret, wp_refines; [refine_routine | apply rtc_refl].
Qed.

Lemma refines_question_tick : refines question_tick.
Proof. unfold question_tick. refine_routine. Qed.

Lemma refines_question_on_off j b : refines (question_on_off j b).
Proof.
  unfold question_on_off.
  repeat first [refine_step | apply refines_job_upd, wf_drop_flag
               | apply refines_job_upd, wf_add_flag; done].
Qed.

Lemma refines_question_init_slots (t : tables) :
  map aq_pid (map (aq_set_pid 0) (t_active_question t))
  = replicate (length (t_active_question t)) 0.
Proof. induction (t_active_question t); [done | simpl; by f_equal]. Qed.
End refine_questions.

#[export] Hint Resolve refines_question_job refines_question_on_off
  refines_question_tick : refines.

Section refine_accept.
Context `{PPRConfig}.

(** * Receiving jobs *)

Lemma keeps_wf_compose2 f g : keeps_wf f → keeps_wf g → keeps_wf (f ∘ g).
Proof. intros Hf Hg e He. apply Hf, Hg, He. Qed.

Lemma wf_store_pprd k v : keeps_wf (store_pprd k v).
Proof. destruct k as [|[|[|k]]]; simpl; solve_wf. Qed.

Lemma wf_store_scan k vals : keeps_wf (store_scan k vals).
Proof.
  revert k. induction vals as [|[v| |] vals IH]; intros k e He; simpl; try done.
  by apply IH, wf_store_pprd.
Qed.

Lemma wf_store_medium k m : keeps_wf (store_medium k m).
Proof.
  intros e He. pose proof (wf_media e He) as [Hl Hm].
  destruct He; constructor; simpl; try assumption. split; [by rewrite length_insert|].
  apply Forall_insert; [done | apply i16_range].
Qed.

Lemma wf_store_jobname i j : keeps_wf (store_jobname i j).
Proof. solve_wf. Qed.

Lemma wf_fresh_job (b : bool) : keeps_wf (fresh_job (if b then 1 else 0)).
Proof.
  intros e He. unfold fresh_job.
  assert (wf_entry (set_q_notnow 0 (set_q_never 0 (set_q_resend_message_at 0
    (set_q_pass (if b then 1 else 0) e))))) as He'.
  { apply wf_set_notnow; [done|]. apply wf_set_never; [done|]. apply wf_set_resend.
    apply wf_set_pass; [by destruct b | done]. }
  destruct (_ =? 0); [|done]. by apply wf_set_status.
Qed.

Lemma refines_scanned {A} r (k : Z → list scanval → P A) :
  (∀ n vals, refines (k n vals)) → refines (scanned r k).
Proof. intros Hk. unfold scanned. refine_routine. Qed.

Lemma refines_modify_newent f : keeps_wf f → refines (modify_newent f).
Proof. apply refines_job_upd. Qed.

Lemma refines_read_media_line k line : refines (read_media_line k line).
Proof.
  unfold read_media_line.
  repeat first [refine_step | apply refines_scanned
               | apply refines_modify_newent, wf_store_medium].
Qed.
Hint Resolve refines_read_media_line : refines.

Lemma refines_read_lines lines b k : refines (read_lines lines b k).
Proof.
  revert b k. induction lines as [|line lines IH]; intros b k; simpl; [refine_routine|].
  apply refines_scanned. intros n vals.
  apply refines_bind; [apply refines_modify_newent, wf_store_scan|]. intros _.
  destruct (n =? 4).
  - apply refines_bind; [|auto].
    apply refines_modify_newent. intros e He. apply wf_set_status; [apply i16_range | done].
  - apply refines_bind; [auto with refines | auto].
Qed.

Lemma refines_clear_media n k : refines (clear_media n k).
Proof.
  revert k. induction n; intros k; simpl; [refine_routine|].
  apply refines_bind; [apply refines_modify_newent, wf_store_medium | auto].
Qed.
Hint Resolve refines_read_lines refines_clear_media : refines.

Lemma refines_read_queue_file n : refines (read_queue_file n).
Proof. unfold read_queue_file. refine_routine. Qed.

Lemma refines_reload_entry : refines reload_entry.
Proof.
  unfold reload_entry. intros s. apply wp_bind, wp_job_get_new.
  assert (∀ y, reads (e ← job_get (Jq y);
    mret (if is_job (q_destid (t_newent (tb s))) (q_id (t_newent (tb s)))
               (q_subid (t_newent (tb s))) e then Some y else None))) as R.
  { intros y. read_routine. }
  apply (wp_bind_frames (λ t, t)); [|intros r s' E|intros e s' E; unfold tb_steps; rewrite E; apply rtc_refl|done].
  - apply frames_for_queue. intros y. apply frames_reads, R.
  - simpl in E. unfold tb_steps. rewrite <- E. destruct r as [x|]; [|apply rtc_refl].
    apply wp_bind, wp_job_upd_q; [|done]. intros e _. apply wp_ret, rtc_once.
    apply ch_reload.
Qed.

(** After grow_queue() there is room. *)
Lemma grow_queue_spec s :
  Z.of_nat (length (t_queue (tb s))) ≤ t_queue_size (tb s) →
  wp grow_queue
    (λ _ s', tb_steps (tb s) s' ∧ Z.of_nat (length (t_queue (tb s'))) < t_queue_size (tb s'))
    (λ _, tb_steps (tb s)) (λ _, True) s.
Proof.
  intros Hle. apply wp_bind, wp_gets, wp_when.
  - intros E. destruct (Z.leb_spec (t_queue_size (tb s) + QUEUE_SIZE_GROWBY) QUEUE_SIZE_MAX).
    + apply wp_modify. split; [apply rtc_once; by apply ch_grow|].
      simpl. unfold QUEUE_SIZE_GROWBY. lia.
    + apply wp_throw, rtc_refl.
  - intros E. split; [apply rtc_refl | lia].
Qed.

Lemma refines_insert_entry d b s :
  Z.of_nat (length (t_queue (tb s))) ≤ t_queue_size (tb s) →
  wp (insert_entry d b) (λ _, tb_steps (tb s)) (λ _, tb_steps (tb s)) (λ _, True) s.
Proof.
  intros Hle. apply wp_bind.
  eapply wp_mono; [by apply grow_queue_spec | | auto | auto].
  intros _ s' [Hs' Hlt]. apply wp_bind, wp_job_get_new, wp_bind, wp_gets.
  destruct (find_place _ _ _ _) as [x r]. apply wp_bind, wp_modify, wp_refines; [refine_routine|].
  apply (tb_steps_trans _ s'); [done|]. apply rtc_once. by apply ch_insert.
Qed.
Hint Resolve refines_read_queue_file refines_reload_entry : refines.

Lemma refines_refuse_bad_destination d b : refines (refuse_bad_destination d b).
Proof. unfold refuse_bad_destination. refine_routine. Qed.

Lemma refines_announce_job x b : refines (announce_job x b).
Proof. unfold announce_job. refine_routine. Qed.
Hint Resolve refines_refuse_bad_destination refines_announce_job : refines.

Lemma refines_accept_body q d b1 b2 : refines (accept_body q d b1 b2).
Proof.
  unfold accept_body.
  do 8 (apply refines_bind; [first
    [ apply refines_modify_newent; first [apply wf_set_destid, i16_range | apply wf_fresh_job]
    | auto with refines ] | intros ?]).
  apply refines_bind; [auto with refines | intros _].
  apply refines_bind_gets. intros s.
  destruct (Z.ltb_spec (t_queue_size (tb s)) (Z.of_nat (length (t_queue (tb s)))));
    [by apply wp_fatal|].
  rewrite wp_bind. destruct b2.
  - eapply wp_mono; [apply refines_reload_entry | | auto | auto].
    intros x s' Hs'. apply wp_refines; [refine_routine | done].
  - eapply wp_mono; [by apply refines_insert_entry | | auto | auto].
    intros x s' Hs'. apply wp_refines; [refine_routine | done].
Qed.

Lemma wf_store_bad_jobname vals : keeps_wf (store_bad_jobname vals).
Proof.
  intros e He. unfold store_bad_jobname.
  destruct vals as [|[i| |] [|[j| |] vals]]; try done; by apply wf_store_jobname.
Qed.

Lemma refines_accept_failed q d e : refines (accept_failed q d e).
Proof. unfold accept_failed. refine_routine. Qed.
Hint Resolve refines_accept_body refines_accept_failed : refines.

Lemma refines_queue_accept_queuefile q b1 b2 : refines (queue_accept_queuefile q b1 b2).
Proof.
  unfold queue_accept_queuefile.
  repeat first [refine_step | apply refines_modify_newent;
    first [apply wf_store_jobname | apply wf_store_bad_jobname]].
Qed.
End refine_accept.


#[export] Hint Resolve refines_queue_accept_queuefile : refines.

Lemma refines_queue_new_job `{PPRConfig} c : refines (queue_new_job c).
Proof. unfold queue_new_job. refine_routine. Qed.

Lemma refines_queue_reload_job `{PPRConfig} c : refines (queue_reload_job c).
Proof. unfold queue_reload_job. refine_routine. Qed.

#[export] Hint Resolve refines_queue_new_job refines_queue_reload_job : refines.

(** * Every routine of the daemon makes only the changes of Change.v: commands,
    loading, and the main loop. *)

Section refine_ppop.
Context `{PPRConfig}.

(** * ppop's commands about jobs *)

Lemma reads_reply_code n : reads (reply_code n).
Proof. apply reads_io. Qed.

Lemma reads_reply f a : reads (reply f a).
Proof. apply reads_io. Qed.
Hint Resolve reads_reply_code reads_reply : reads.

Lemma reads_reply_with n f a : reads (reply_with n f a).
Proof. unfold reply_with. read_routine. Qed.

Lemma reads_reply_job n f d i j : reads (reply_job n f d i j).
Proof. unfold reply_job. read_routine. Qed.
Hint Resolve reads_reply_with reads_reply_job : reads.

Lemma refines_with_destination f d k :
  (∀ x, refines (k x)) → refines (with_destination f d k).
Proof. intros Hk. unfold with_destination. refine_routine. Qed.

Lemma reads_list_job e : reads (list_job e).
Proof. unfold list_job. read_routine. Qed.
Hint Resolve reads_list_job : reads.

Lemma refines_list_jobs d i j : refines (list_jobs d i j).
Proof. unfold list_jobs. refine_routine. Qed.
Hint Resolve refines_list_jobs : refines.

Lemma refines_ppop_list c : refines (ppop_list c).
Proof.
  unfold ppop_list.
  apply refines_scanned; repeat first [refine_step | apply refines_with_destination].
Qed.

Lemma refines_seize_job f x p : refines (seize_job f x p).
Proof. unfold seize_job. refine_routine. Qed.

Lemma refines_hold_instead_of_cancel x e : refines (hold_instead_of_cancel x e).
Proof. unfold hold_instead_of_cancel. refine_routine. Qed.
Hint Resolve refines_seize_job refines_hold_instead_of_cancel : refines.

Lemma refines_hold_job d i j x : refines (hold_job d i j x).
Proof. unfold hold_job. refine_routine. Qed.

Lemma refines_requeue_job x : refines (requeue_job x).
Proof. unfold requeue_job. refine_routine. Qed.
Hint Resolve refines_hold_job refines_requeue_job : refines.

Lemma refines_release_job d i j x : refines (release_job d i j x).
Proof. unfold release_job. refine_routine. Qed.
Hint Resolve refines_release_job : refines.

Lemma refines_on_first_job d i j body :
  (∀ x, refines (body x)) → refines (on_first_job d i j body).
Proof. intros Hb. unfold on_first_job. refine_routine. Qed.

Lemma refines_ppop_hold_release c a : refines (ppop_hold_release c a).
Proof.
  unfold ppop_hold_release.
  apply refines_scanned; repeat first
    [refine_step | apply refines_with_destination | apply refines_on_first_job
    | destruct (a =? 0)].
Qed.

Lemma refines_cancel_printing_job x p : refines (cancel_printing_job x p).
Proof. unfold cancel_printing_job. refine_routine. Qed.

Lemma refines_cancel_seizing_job f x e : refines (cancel_seizing_job f x e).
Proof. unfold cancel_seizing_job. refine_routine. Qed.

Lemma refines_remove_idle_job e b : refines (remove_idle_job e b).
Proof. unfold remove_idle_job. refine_routine. Qed.
Hint Resolve refines_cancel_printing_job refines_cancel_seizing_job
  refines_remove_idle_job : refines.

Lemma refines_cancel_one f x e b : refines (cancel_one f x e b).
Proof. unfold cancel_one. refine_routine. Qed.
Hint Resolve refines_cancel_one : refines.

Lemma refines_cancel_jobs f n d i j b x c : refines (cancel_jobs f n d i j b x c).
Proof.
  revert x c. induction n as [|n IH]; intros x c; simpl; [done|].
  repeat first [refine_step | apply IH].
Qed.
Hint Resolve refines_cancel_jobs : refines.

Lemma refines_cancel_all f d i j b : refines (cancel_all f d i j b).
Proof. unfold cancel_all. refine_routine. Qed.
Hint Resolve refines_cancel_all : refines.

Lemma refines_ppop_cancel_purge c : refines (ppop_cancel_purge c).
Proof. unfold ppop_cancel_purge. apply refines_scanned. refine_routine. Qed.

(** * Moving and rushing *)

Lemma reads_rename_job_files d e l : reads (rename_job_files d e l).
Proof. induction l; simpl; unfold rename_job_file; read_routine; auto. Qed.
Hint Resolve reads_rename_job_files : reads.

Lemma reads_relocate_files e d r : reads (relocate_files e d r).
Proof. unfold relocate_files. read_routine. Qed.

Lemma reads_append_file n t : reads (append_file n t).
Proof. unfold append_file. read_routine. Qed.
Hint Resolve reads_relocate_files reads_append_file : reads.

Lemma wf_reset (b : bool) : keeps_wf (λ q, set_q_pass (of_bool b) (set_q_never 0 q)).
Proof. intros e He. apply wf_set_pass; [by destruct b | by apply wf_set_never]. Qed.

Lemma refines_reset_job x : refines (reset_job x).
Proof.
  unfold reset_job. repeat first [refine_step | apply refines_job_upd, wf_reset].
Qed.
Hint Resolve refines_reset_job : refines.

Lemma refines_move_one x e d n i r : refines (move_one x e d n i r).
Proof. unfold move_one. refine_routine. Qed.
Hint Resolve refines_move_one : refines.

Lemma refines_move_jobs n d nd a i j b x r m p :
  refines (move_jobs n d nd a i j b x r m p).
Proof.
  revert x r m p. induction n as [|n IH]; intros; simpl; refine_routine; apply IH.
Qed.

Lemma reads_reply_moved d i j m p : reads (reply_moved d i j m p).
Proof. unfold reply_moved. read_routine. Qed.
Hint Resolve refines_move_jobs : refines.
Hint Resolve reads_reply_moved : reads.

Lemma refines_ppop_move c : refines (ppop_move c).
Proof.
  unfold ppop_move.
  apply refines_scanned; repeat first [refine_step | apply refines_with_destination].
Qed.

Lemma refines_ppop_rush c : refines (ppop_rush c).
Proof.
  unfold ppop_rush, rush_job.
  apply refines_scanned; repeat first
    [refine_step | apply refines_with_destination | apply refines_on_first_job].
Qed.

Lemma refines_ppop_modify_question c : refines (ppop_modify_question c).
Proof.
  unfold ppop_modify_question.
  apply refines_scanned; repeat first
    [refine_step | apply refines_with_destination | apply refines_on_first_job].
Qed.

(** * ppop's commands about printers *)

Lemma reads_ppop_status_do_printer p : reads (ppop_status_do_printer p).
Proof. unfold ppop_status_do_printer. read_routine. Qed.
Hint Resolve reads_ppop_status_do_printer : reads.

Lemma refines_for_printers body : (∀ x, refines (body x)) → refines (for_printers body).
Proof. intros Hb. unfold for_printers. refine_routine. Qed.

Lemma refines_ppop_status c : refines (ppop_status c).
Proof.
  unfold ppop_status.
  apply refines_scanned; repeat first
    [refine_step | apply refines_with_destination | apply refines_for_printers
    | apply refines_for_members].
Qed.

Lemma reads_undefined_state n : reads (undefined_state n).
Proof. apply reads_reply_with. Qed.

Lemma refines_change_status p st : refines (change_status p st).
Proof. unfold change_status. refine_routine. Qed.

Lemma refines_release_waiting_ppop p : refines (release_waiting_ppop p).
Proof. unfold release_waiting_ppop. refine_routine. Qed.
Hint Resolve reads_undefined_state : reads.
Hint Resolve refines_change_status refines_release_waiting_ppop : refines.

Lemma refines_start_printer n p : refines (start_printer n p).
Proof. unfold start_printer. refine_routine. Qed.

Lemma refines_stop_printer n p b : refines (stop_printer n p b).
Proof. unfold stop_printer. refine_routine. Qed.

Lemma refines_reply_delayed n p b : refines (reply_delayed n p b).
Proof. unfold reply_delayed. refine_routine. Qed.
Hint Resolve refines_start_printer refines_stop_printer refines_reply_delayed : refines.

Lemma refines_ppop_start_stop_wstop_halt c a : refines (ppop_start_stop_wstop_halt c a).
Proof. unfold ppop_start_stop_wstop_halt. apply refines_scanned. refine_routine. Qed.

Lemma reads_list_bins l : reads (list_bins l).
Proof. induction l as [|[b m] l IH]; simpl; read_routine; auto. Qed.

Lemma reads_media_wanted d x b : reads (media_wanted d x b).
Proof. unfold media_wanted. read_routine. Qed.
Hint Resolve reads_list_bins reads_media_wanted : reads.

Lemma refines_list_media d b : refines (list_media d b).
Proof.
  unfold list_media. repeat first [refine_step | apply refines_for_printers].
Qed.
Hint Resolve refines_list_media : refines.

Lemma refines_ppop_media c : refines (ppop_media c).
Proof.
  unfold ppop_media.
  apply refines_scanned; repeat first [refine_step | apply refines_with_destination].
Qed.

Lemma refines_mount_medium n p b m : refines (mount_medium n p b m).
Proof. unfold mount_medium. refine_routine. Qed.
Hint Resolve refines_mount_medium : refines.

Lemma refines_ppop_mount c : refines (ppop_mount c).
Proof. unfold ppop_mount, mount_on. apply refines_scanned. refine_routine. Qed.

Lemma refines_set_accepting d a : refines (set_accepting d a).
Proof. unfold set_accepting. refine_routine. Qed.
Hint Resolve refines_set_accepting : refines.

Lemma refines_ppop_accept_reject c a : refines (ppop_accept_reject c a).
Proof.
  unfold ppop_accept_reject.
  apply refines_scanned; repeat first [refine_step | apply refines_with_destination].
Qed.

Lemma reads_ppop_dest_show_printer p : reads (ppop_dest_show_printer p).
Proof. unfold ppop_dest_show_printer. read_routine. Qed.

Lemma reads_ppop_dest_show_group p : reads (ppop_dest_show_group p).
Proof. unfold ppop_dest_show_group. read_routine. Qed.
Hint Resolve reads_ppop_dest_show_printer reads_ppop_dest_show_group : reads.

Lemma refines_ppop_dest c : refines (ppop_dest c).
Proof.
  unfold ppop_dest, show_all_destinations.
  apply refines_scanned; repeat first
    [refine_step | apply refines_with_destination | apply refines_for_printers
    | apply refines_for_groups].
Qed.
Hint Resolve refines_ppop_list refines_ppop_hold_release refines_ppop_cancel_purge
  refines_ppop_move refines_ppop_rush refines_ppop_modify_question
  refines_ppop_status refines_ppop_start_stop_wstop_halt refines_ppop_media
  refines_ppop_mount refines_ppop_accept_reject refines_ppop_dest : refines.

Lemma refines_ppop_command_switch c p : refines (ppop_command_switch c p).
Proof.
  unfold ppop_command_switch.
  destruct (first_char p) as [[[] [] [] [] [] [] [] []]|]; auto 2 with refines.
Qed.
Hint Resolve refines_ppop_command_switch : refines.

Lemma refines_ppop_dispatch c : refines (ppop_dispatch c).
Proof. unfold ppop_dispatch. refine_routine. Qed.
End refine_ppop.

#[export] Hint Resolve reads_relocate_files reads_append_file : reads.
#[export] Hint Resolve refines_cancel_all refines_hold_instead_of_cancel refines_seize_job
  refines_requeue_job refines_reset_job refines_change_status refines_ppop_dispatch : refines.
