(* ===== verification/RefineMain.v ===== *)
(** The daemon refines the changes of Change.v: IPP operations, loading, and
    the main loop as a whole. *)
From S2P Require Import Prelude.
From S2P Require Import Text.
From S2P Require Import Spooler.
From S2P Require Import SpoolerFacts.
From S2P Require Import Destid.
From S2P Require Import QueueStatus.
From S2P Require Import Media.
From S2P Require Import Printer.
From S2P Require Import PprdrvExit.
From S2P Require Import Question.
From S2P Require Import QueueAccept.
From S2P Require Import PpopJobs.
From S2P Require Import PpopPrinters.
From S2P Require Import Load.
From S2P Require Import Ipp.
From S2P Require Import Main.
From S2P Require Import Change.
From S2P Require Import Refine.
From S2P Require Import RefineCommands.

Section refine_ipp.
Context `{PPRConfig}.

Lemma refines_if_found l k :
  refines l → (∀ d, refines (k d)) → refines (if_found l k).
Proof. intros Hl Hk. unfold if_found. refine_routine. Qed.

Lemma refines_on_job_number n body :
  (∀ x, refines (body x)) → refines (on_job_number n body).
Proof. intros Hb. unfold on_job_number. refine_routine. Qed.

Lemma refines_ipp_cancel_job_core d j : refines (ipp_cancel_job_core d j).
Proof. unfold ipp_cancel_job_core. refine_routine. Qed.

Lemma refines_ipp_hold_one x : refines (ipp_hold_one x).
Proof. unfold ipp_hold_one. refine_routine. Qed.

Lemma refines_ipp_release_one x : refines (ipp_release_one x).
Proof. unfold ipp_release_one. refine_routine. Qed.

Lemma refines_set_held b d : refines (set_held b d).
Proof. unfold set_held. refine_routine. Qed.

Lemma refines_pause_printer c p : refines (pause_printer c p).
Proof. unfold pause_printer, printer_undefined. refine_routine. Qed.

Lemma refines_resume_printer c p : refines (resume_printer c p).
Proof. unfold resume_printer, printer_undefined. refine_routine. Qed.

Lemma refines_cups_move_one x q d r : refines (cups_move_one x q d r).
Proof. unfold cups_move_one. refine_routine. Qed.
Hint Resolve refines_ipp_cancel_job_core refines_ipp_hold_one refines_ipp_release_one
  refines_set_held refines_pause_printer refines_resume_printer refines_cups_move_one
  : refines.

Lemma refines_cups_move_loop n j d x r : refines (cups_move_loop n j d x r).
Proof.
  revert x r. induction n as [|n IH]; intros; simpl; refine_routine; apply IH.
Qed.
Hint Resolve refines_cups_move_loop : refines.

Ltac refine_ipp :=
  repeat first [refine_step | apply refines_if_found | apply refines_on_job_number].

Lemma refines_cups_move_job c : refines (cups_move_job c).
Proof. unfold cups_move_job. refine_ipp. Qed.

Lemma refines_ipp_operation o c : refines (ipp_operation o c).
Proof.
  unfold ipp_operation, ipp_cancel_job, ipp_hold_job, ipp_release_job,
    ipp_pause_printer, ipp_resume_printer, ipp_purge_jobs,
    cups_accept_or_reject_jobs.
  repeat (destruct (_ =? _); [solve [refine_ipp | apply refines_cups_move_job]|]).
  refine_ipp.
Qed.
Hint Resolve refines_ipp_operation : refines.

Lemma refines_ipp_dispatch c : refines (ipp_dispatch c).
Proof. unfold ipp_dispatch. refine_routine. Qed.
End refine_ipp.

#[export] Hint Resolve refines_ipp_dispatch : refines.

Section refine_load.
Context `{PPRConfig}.

(** * Loading *)

Lemma reads_mkdir n : reads (mkdir n).
Proof. unfold mkdir. read_routine. Qed.

Lemma reads_load_state {T} f n (d : T) o file : reads (load_state f n d o file).
Proof. unfold load_state. read_routine. Qed.
Hint Resolve reads_mkdir reads_load_state : reads.

Lemma reads_printer_spool_state_load n : reads (printer_spool_state_load n).
Proof. unfold printer_spool_state_load. read_routine. Qed.

Lemma reads_group_spool_state_load n : reads (group_spool_state_load n).
Proof. unfold group_spool_state_load. read_routine. Qed.
Hint Resolve reads_printer_spool_state_load reads_group_spool_state_load : reads.

Lemma add_bin_pid b p : p_job_pid (add_bin b p) = p_job_pid p.
Proof. unfold add_bin. by destruct (String.eqb b "AutoSelect"). Qed.

Lemma refines_printer_conf_line p n l : refines (printer_conf_line p n l).
Proof.
  unfold printer_conf_line, charge_line.
  repeat first [refine_step | apply refines_scanned
               | apply refines_upd_printer; intros; apply add_bin_pid].
Qed.

Lemma refines_printer_conf_lines p n l : refines (printer_conf_lines p n l).
Proof.
  induction l; simpl; refine_routine. apply refines_printer_conf_line.
Qed.

Lemma refines_status_after_restart p st : refines (status_after_restart p st).
Proof. unfold status_after_restart. refine_routine. Qed.
Hint Resolve refines_printer_conf_lines refines_status_after_restart : refines.

Lemma refines_load_printer p n : refines (load_printer p n).
Proof. unfold load_printer. refine_routine. Qed.
Hint Resolve refines_load_printer : refines.

Lemma wp_new_printer_slot (Q : unit → pprd → Prop) X F s :
  Q tt (on_tb (λ t, set_t_printers (t_printers t ++ [printers_memory]) t) s) →
  wp new_printer_slot Q X F s.
Proof. done. Qed.

Lemma reads_find_printer_slot n x d l : reads (find_printer_slot n x d l).
Proof. revert x d. induction l; intros; simpl; read_routine; auto. Qed.

Lemma refines_clear_never_bits p : refines (clear_never_bits p).
Proof. unfold clear_never_bits. refine_routine. Qed.
Hint Resolve refines_clear_never_bits : refines.

Lemma refines_reload_printer p n b : refines (reload_printer p n b).
Proof. unfold reload_printer. refine_routine. Qed.

Lemma refines_delete_printer p n b : refines (delete_printer p n b).
Proof. unfold delete_printer. refine_routine. Qed.
Hint Resolve refines_reload_printer refines_delete_printer : refines.

Lemma refines_when_new_printer_slot (b : bool) s :
  (b = true → printer_count s ≠ MAX_PRINTERS) →
  wp (when b new_printer_slot) (λ _, tb_steps (tb s)) (λ _, tb_steps (tb s)) (λ _, True) s.
Proof.
  intros Hb. apply wp_when.
  - intros E. apply wp_new_printer_slot, rtc_once. apply ch_new_printer. by apply Hb.
  - intros _. apply rtc_refl.
Qed.

Lemma refines_new_printer_config n : refines (new_printer_config n).
Proof.
  unfold new_printer_config. apply refines_bind; [auto with refines|]. intros _.
  apply refines_bind; [auto with refines|]. intros l.
  apply refines_bind; [apply reads_refines, reads_find_printer_slot|]. intros [x fd].
  apply refines_bind_gets. intros s. cbv zeta.
  assert (frames (λ t, length (t_printers t))
    (when (negb (x =? printer_count s)) (upd_printer x free_printer))) as Fr.
  { apply frames_when, frames_upd_printer. intros t. simpl. apply length_upd_index. }
  assert (refines (when (negb (x =? printer_count s)) (upd_printer x free_printer))) as R.
  { refine_routine. }
  apply wp_bind. eapply wp_mono; [exact (wp_and _ _ _ _ _ _ _ _ (R s) (Fr s)) | | by intros e s' [??] | done].
  intros [] s' [Hs' El]. simpl in El.
  destruct (Z.eqb_spec (if (x =? printer_count s) && negb (fd =? -1) then fd else x) MAX_PRINTERS)
    as [|Hmax]; [apply wp_refines; [refine_routine | done]|].
  apply wp_bind. eapply wp_mono; [apply refines_when_new_printer_slot | | | auto].
  - intros E%Z.eqb_eq E'. apply Hmax. rewrite E, <- E'. unfold printer_count, printers.
    by rewrite El.
  - intros [] s'' Hs''. apply wp_refines; [refine_routine | by apply (tb_steps_trans _ s')].
  - intros e s'' Hs''. by apply (tb_steps_trans _ s').
Qed.

(** ** Groups *)

Definition good_conf (s : pprd) (c : group_conf) : Prop :=
  Z.of_nat (length (gc_members c)) ≤ MAX_GROUPSIZE
  ∧ Forall (λ m, 0 ≤ m < printer_count s) (gc_members c).

Lemma wp_find_printer l x n Q X F s :
  0 ≤ x →
  (∀ r, r = -1 ∨ x ≤ r < x + Z.of_nat (length l) → Q r s) → (∀ r, F r) →
  wp (find_printer l x n) Q X F s.
Proof.
  revert x. induction l as [|p l IH]; intros x Hx HQ HF; simpl.
  - apply wp_ret, HQ. by left.
  - destruct (_ =? _).
    + apply IH; [lia | | done]. intros r Hr. apply HQ. simpl. lia.
    + destruct (p_name p) as [m|]; [|apply wp_bind; apply HF].
      apply wp_bind, wp_ret. destruct (String.eqb m n).
      * apply wp_ret, HQ. simpl. lia.
      * apply IH; [lia | | done]. intros r Hr. apply HQ. simpl. lia.
Qed.

Lemma group_conf_line_good g line c s :
  good_conf s c →
  wp (group_conf_line g line c)
    (λ c' s', tb s' = tb s ∧ good_conf s c') (λ _ s', tb s' = tb s) (λ _, True) s.
Proof.
  intros Hc. unfold group_conf_line, scanned.
  destruct (gu_sscanf line "Printer: %S" []) as [k vals|msg|]; [|done|done].
  assert (wp (rotate_line line c)
    (λ c' s', tb s' = tb s ∧ good_conf s c') (λ _ s', tb s' = tb s) (λ _, True) s) as Hr.
  { unfold rotate_line. destruct (lmatchp line "Rotate:"); [|done].
    by destruct (gu_torf_setBOOL _). }
  destruct vals as [|[ |extract|] [|]]; try exact Hr.
  unfold add_member. destruct (Z.leb_spec MAX_GROUPSIZE (Z.of_nat (length (gc_members c)))).
  { done. }
  apply wp_bind, wp_bind, wp_gets, wp_find_printer; [lia | | done].
  intros r Hr'. destruct (Z.eqb_spec r (-1)); [done|].
  destruct Hr' as [|Hr']; [done|].
  apply wp_bind, wp_get_printer; [|done]. intros p _. apply wp_ret. split; [done|].
  destruct Hc as [Hl Hm]. split; simpl.
  - rewrite length_app. simpl. lia.
  - apply Forall_app. split; [done|]. constructor; [|constructor].
    unfold printer_count. lia.
Qed.

Lemma group_conf_lines_good g lines c s :
  good_conf s c →
  wp (group_conf_lines g lines c)
    (λ c' s', tb s' = tb s ∧ good_conf s c') (λ _ s', tb s' = tb s) (λ _, True) s.
Proof.
  revert c s. induction lines as [|line lines IH]; intros c s Hc; simpl; [done|].
  apply wp_bind. eapply wp_mono; [by apply group_conf_line_good | | auto | auto].
  intros c' s' [E Hc']. eapply wp_mono; [apply IH | | | auto].
  - unfold good_conf, printer_count, printers in *. by rewrite E.
  - intros c'' s'' [E' Hc'']. split; [congruence|].
    unfold good_conf, printer_count, printers in *. by rewrite <- E.
  - simpl. intros e s'' E'. congruence.
Qed.

Lemma refines_load_group g n : refines (load_group g n).
Proof.
  unfold load_group. apply refines_bind; [auto with refines|]. intros cf.
  apply refines_bind; [auto with refines|]. intros [text|]; [|auto with refines].
  apply refines_bind; [auto with refines|]. intros [st r].
  apply refines_bind; [refine_routine|]. intros _.
  apply refines_bind; [auto with refines|]. intros now s.
  apply wp_bind. eapply wp_mono; [apply group_conf_lines_good; split; [done|constructor] | | | auto].
  - intros c s' [E [Hl Hm]]. apply wp_bind, wp_upd_group; [|done]. intros _.
    apply wp_refines; [refine_routine|]. apply rtc_once. rewrite <- E.
    apply ch_load_group; simpl; [done|]. unfold printer_count, printers in Hm.
    by rewrite E.
  - intros e s' E. unfold tb_steps. rewrite E. apply rtc_refl.
Qed.
Hint Resolve refines_load_group : refines.

Lemma reads_find_group_slot n x d l : reads (find_group_slot n x d l).
Proof. revert x d. induction l; intros; simpl; read_routine; auto. Qed.

Lemma refines_reset_group_jobs d : refines (reset_group_jobs d).
Proof. unfold reset_group_jobs. refine_routine. Qed.
Hint Resolve refines_reset_group_jobs : refines.

Lemma refines_new_group_slot : refines new_group_slot.
Proof. unfold new_group_slot. refine_routine. Qed.
Hint Resolve refines_new_group_slot : refines.
Hint Resolve reads_find_group_slot : reads.

Lemma refines_new_group_config n : refines (new_group_config n).
Proof. unfold new_group_config, delete_group, reload_group. refine_routine. Qed.

Lemma refines_load_groups_from x l : refines (load_groups_from x l).
Proof. revert x. induction l; intros; simpl; refine_routine; auto. Qed.

Lemma refines_accept_existing l : refines (accept_existing l).
Proof. induction l; simpl; refine_routine; auto. Qed.
Hint Resolve refines_load_groups_from refines_accept_existing : refines.

Lemma refines_initialize_queue l : refines (initialize_queue l).
Proof.
  unfold initialize_queue. repeat first [refine_step | apply refines_for_groups].
Qed.
End refine_load.

#[export] Hint Resolve refines_new_printer_config refines_new_group_config
  refines_load_printer refines_initialize_queue : refines.

(** * Startup *)

Definition printers_length (t : tables) : nat := length (t_printers t).

Section startup.
Context `{PPRConfig}.

Lemma frames_printer_new_status p st :
  frames printers_length (printer_new_status p st).
Proof.
  unfold printer_new_status, tell_waiting_ppop, save_printer_state,
    printer_spool_state_save, save_to, pst_update, pst_with_job, printing_jobid, lock, unlock.
  frame_routine.
Qed.
Hint Resolve frames_printer_new_status : frames.

Lemma frames_printer_conf_line p n l : frames printers_length (printer_conf_line p n l).
Proof.
  unfold printer_conf_line, charge_line, scanned. frame_routine.
Qed.

Lemma frames_printer_conf_lines p n l : frames printers_length (printer_conf_lines p n l).
Proof. induction l; simpl; frame_routine. apply frames_printer_conf_line. Qed.
Hint Resolve frames_printer_conf_lines : frames.
Hint Resolve reads_mkdir reads_printer_spool_state_load : reads.

Lemma frames_load_printer p n : frames printers_length (load_printer p n).
Proof. unfold load_printer, status_after_restart. frame_routine. Qed.

Lemma frames_get_media_id n : frames printers_length (get_media_id n).
Proof. unfold get_media_id. frame_routine. Qed.
Hint Resolve frames_get_media_id : frames.

Lemma frames_recover_records p l : frames printers_length (recover_records p l).
Proof. induction l; simpl; unfold recover_record; frame_routine; done. Qed.
Hint Resolve frames_recover_records : frames.

Lemma frames_media_mounted_recover p : frames printers_length (media_mounted_recover p).
Proof. unfold media_mounted_recover. frame_routine. Qed.
Hint Resolve frames_load_printer frames_media_mounted_recover : frames.

Lemma reads_media_mounted_save p : reads (media_mounted_save p).
Proof. unfold media_mounted_save. read_routine. Qed.
Hint Resolve reads_media_mounted_save : reads.

Lemma refines_load_printers_from x l s :
  printer_count s = x →
  wp (load_printers_from x l) (λ _, tb_steps (tb s)) (λ _, tb_steps (tb s)) (λ _, True) s.
Proof.
  revert x s. induction l as [|n l IH]; intros x s Hx; simpl; [apply rtc_refl|].
  destruct (_ || _); [by apply IH|].
  destruct (Z.eqb_spec x MAX_PRINTERS); [apply rtc_refl|].
  apply wp_bind, wp_new_printer_slot.
  assert (refines (load_printer x n;; media_mounted_recover x;; media_mounted_save x)) as R.
  { refine_routine. }
  assert (frames printers_length
    (load_printer x n;; media_mounted_recover x;; media_mounted_save x)) as Fr.
  { frame_routine. }
  set (s1 := on_tb _ s).
  assert (tb_steps (tb s) s1) as Hs1.
  { apply rtc_once, ch_new_printer. unfold printer_count, printers in Hx. congruence. }
  pose proof (wp_and _ _ _ _ _ _ _ _ (R s1) (Fr s1)) as W.
  unfold wp, mbind, M_bind in W |- *.
  destruct (load_printer x n s1) as [[] s2|e s2|r]; [| |done].
  2: { apply (tb_steps_trans _ s1); tauto. }
  destruct (media_mounted_recover x s2) as [[] s3|e s3|r]; [| |done].
  2: { apply (tb_steps_trans _ s1); tauto. }
  destruct (media_mounted_save x s3) as [[] s4|e s4|r]; [| |done].
  2: { apply (tb_steps_trans _ s1); tauto. }
  destruct W as [Hs4 El]. simpl in El.
  assert (printer_count s4 = x + 1) as Hx4.
  { unfold printer_count, printers, printers_length in *. rewrite El. subst s1. simpl.
    rewrite length_app. simpl. lia. }
  assert (tb_steps (tb s) s4) as Hs by (by apply (tb_steps_trans _ s1)).
  eapply wp_mono; [by apply (IH (x + 1) s4) | | | auto];
    intros ? s5 ?; by apply (tb_steps_trans _ s4).
Qed.

(** What the program begins with: no tables, no processes. *)
Record booting (s : pprd) : Prop := {
  boot_queue : t_queue (tb s) = [];
  boot_printers : t_printers (tb s) = [];
  boot_groups : t_groups (tb s) = [];
  boot_media : t_media (tb s) = [];
  boot_size : t_queue_size (tb s) = 0;
  boot_active : t_active_printers (tb s) = 0;
  boot_questions : t_active_questions (tb s) = 0;
  boot_slots : map aq_pid (t_active_question (tb s))
               = replicate (Z.to_nat MAX_ACTIVE_QUESTIONS) 0;
  boot_newent : wf_entry (t_newent (tb s));
}.

Lemma question_init_id s :
  map aq_pid (t_active_question (tb s)) = replicate (Z.to_nat MAX_ACTIVE_QUESTIONS) 0 →
  wp question_init (λ _ s', tb s' = tb s) (λ _ _, False) (λ _, False) s.
Proof.
  intros Hp. apply wp_modify. simpl.
  assert (map (aq_set_pid 0) (t_active_question (tb s)) = t_active_question (tb s)) as ->.
  { revert Hp. generalize (Z.to_nat MAX_ACTIVE_QUESTIONS).
    induction (t_active_question (tb s)) as [|[] l IH]; intros [|k]; try done.
    simpl. intros [= -> Hp]. f_equal. by apply (IH k). }
  by destruct (tb s).
Qed.

Lemma refines_startup ps gs qs s :
  booting s →
  wp (startup ps gs qs) (λ _, tb_steps (tb s)) (λ _, tb_steps (tb s)) (λ _, True) s.
Proof.
  intros Hb. apply wp_bind, wp_modify, wp_bind.
  eapply wp_mono; [apply question_init_id, (boot_slots s Hb) | | done | done].
  intros [] s1 E1. simpl in E1. apply wp_bind, wp_bind, wp_modify.
  assert (tb_steps (tb s) (on_tb (set_t_printers []) s1)) as Hs2.
  { apply rtc_once. simpl. rewrite E1. apply ch_init_printers, (boot_groups s Hb). }
  eapply wp_mono; [by apply refines_load_printers_from | | | auto].
  - intros [] s3 Hs3.
    assert (refines (load_groups gs;; initialize_queue qs)) as R.
    { unfold load_groups. refine_routine. apply refines_load_groups_from. }
    apply wp_refines; [exact R|]. by apply (tb_steps_trans _ (on_tb (set_t_printers []) s1)).
  - intros e s3 Hs3. by apply (tb_steps_trans _ (on_tb (set_t_printers []) s1)).
Qed.

(** * The main loop *)

Lemma reads_nag_line a p : reads (nag_line a p).
Proof. unfold nag_line. read_routine. Qed.
Hint Resolve reads_nag_line : reads.

Lemma refines_ppad_remind : refines ppad_remind.
Proof. unfold ppad_remind. repeat first [refine_step | apply refines_for_printers]. Qed.

Lemma reads_report_child pid w : reads (report_child pid w).
Proof. unfold report_child. read_routine. Qed.

Lemma reads_responder_child_hook pid w : reads (responder_child_hook pid w).
Proof. apply reads_ret. Qed.
Hint Resolve reads_report_child reads_responder_child_hook : reads.
Hint Resolve refines_ppad_remind : refines.

Lemma refines_child_hooks pid w : 0 < pid → refines (child_hooks pid w).
Proof.
  intros Hpid. unfold child_hooks.
  repeat first [refine_step | by apply refines_pprdrv_child_hook
               | by apply refines_question_child_hook].
Qed.

Lemma refines_reapchild l : refines (reapchild l).
Proof.
  induction l as [|[pid w] l IH]; simpl; [refine_routine|].
  destruct (Z.ltb_spec 0 pid); [|apply refines_ret].
  apply refines_bind; [by apply refines_child_hooks | done].
Qed.

Lemma refines_fifo_command c : refines (fifo_command c).
Proof.
  unfold fifo_command, new_config.
  destruct (first_char c) as [[[] [] [] [] [] [] [] []]|]; try solve [auto 2 with refines].
  refine_routine.
Qed.

Lemma refines_do_fifo_command b : refines (do_fifo_command b).
Proof.
  unfold do_fifo_command. destruct (chomp b) as [c|]; [|refine_routine].
  induction (gu_strsep_all (chr 10) c); simpl; [refine_routine|].
  apply refines_bind; [apply refines_fifo_command | done].
Qed.

Lemma refines_do_socket_command b : refines (do_socket_command b).
Proof.
  unfold do_socket_command, socket_command.
  apply refines_bind; [|refine_routine].
  destruct (chomp b) as [c|]; [|refine_routine].
  destruct (first_char c) as [[[] [] [] [] [] [] [] []]|]; refine_routine.
Qed.

Lemma refines_handle i : refines (handle i).
Proof.
  destruct i; simpl; [apply refines_do_fifo_command | apply refines_do_socket_command
                     | apply refines_reapchild | unfold tick; refine_routine].
Qed.
End startup.
