(* ===== verification/Invariants.v ===== *)
(** What holds of the daemon's tables in every state it reaches: the invariant
    of the changes of Change.v, and with it of startup and of every turn of the
    main loop. *)
From S2P Require Import Prelude.
From S2P Require Import Text.
From S2P Require Import Spooler.
From S2P Require Import SpoolerFacts.
From S2P Require Import Printer.
From S2P Require Import Question.
From S2P Require Import QueueAccept.
From S2P Require Import PpopJobs.
From S2P Require Import Main.
From S2P Require Import Change.
From S2P Require Import RefineMain.

(** * The invariant *)

Definition asking (a : active_question_slot) : bool := 0 <? aq_pid a.

(** How many printers a pprdrv is at work for. *)
Definition at_work (p : Printer) : Prop := p_job_pid p ≠ 0.

Definition working (l : list Printer) : Z := Z.of_nat (length (filter at_work l)).

Fixpoint count_asking (l : list active_question_slot) : Z :=
  match l with
  | [] => 0
  | a :: l' => of_bool (asking a) + count_asking l'
  end.

Definition members_ok (t : tables) (g : Group) : Prop :=
  Z.of_nat (length (g_printers g)) ≤ MAX_GROUPSIZE
  ∧ Forall (λ m, 0 ≤ m < Z.of_nat (length (t_printers t))) (g_printers g).

Record inv (t : tables) : Prop := {
  inv_queue : Z.of_nat (length (t_queue t)) ≤ t_queue_size t;
  inv_queue_size : t_queue_size t ≤ QUEUE_SIZE_MAX;
  inv_entries : Forall wf_entry (t_queue t);
  inv_newent : wf_entry (t_newent t);
  inv_active : t_active_printers t ≤ MAX_ACTIVE;
  inv_printers : Z.of_nat (length (t_printers t)) ≤ MAX_PRINTERS;
  inv_members : Forall (members_ok t) (t_groups t);
  inv_media : NoDup (t_media t) ∧ (EmptyString ∉ t_media t)
              ∧ Z.of_nat (length (t_media t)) ≤ MAX_MEDIA;
  inv_slots : Z.of_nat (length (t_active_question t)) = MAX_ACTIVE_QUESTIONS;
  inv_slot_pids : Forall (λ a, -1 ≤ aq_pid a) (t_active_question t);
  inv_questions : t_active_questions t = count_asking (t_active_question t);
}.

(** The printers that print have been counted. *)
Definition all_counted (t : tables) : Prop := working (t_printers t) ≤ t_active_printers t.

(** * Lists *)

Section lists.
Context {A : Type} (Q : A → Prop).

Lemma Forall_upd_index i f (l : list A) :
  Forall Q l → (∀ a, Q a → Q (f a)) → Forall Q (upd_index i f l).
Proof. intros Hl Hf. apply Forall_alter; [done|]. intros a _. apply Hf. Qed.

Lemma Forall_upd_index_const i b (l : list A) :
  Forall Q l → Q b → Forall Q (upd_index i (λ _, b) l).
Proof. intros Hl Hb. by apply Forall_upd_index. Qed.

Lemma Forall_insert_at x b (l : list A) :
  Forall Q l → Q b → Forall Q (insert_at x b l).
Proof.
  intros Hl Hb. unfold insert_at. apply Forall_app. split; [by apply Forall_take|].
  constructor; [done | by apply Forall_drop].
Qed.

Lemma length_insert_at x b (l : list A) : length (insert_at x b l) = S (length l).
Proof. unfold insert_at. rewrite length_app, length_take. simpl. rewrite length_drop. lia. Qed.

Lemma length_delete_le n (l : list A) : (length (delete n l) ≤ length l)%nat.
Proof. apply sublist_length, sublist_delete. Qed.
End lists.

Lemma length_rush_queue x newpos q : length (rush_queue x newpos q) = length q.
Proof.
  unfold rush_queue. destruct (at_index q x) as [e|] eqn:E; [|done].
  apply at_index_Some in E as [_ E].
  destruct (newpos =? 0); [|rewrite length_app]; simpl;
    rewrite length_delete by (by eexists); apply lookup_lt_Some in E; lia.
Qed.

Lemma Forall_rush_queue x newpos q :
  Forall wf_entry q → Forall wf_entry (rush_queue x newpos q).
Proof.
  intros Hq. unfold rush_queue. destruct (at_index q x) as [e|] eqn:E; [|done].
  apply at_index_Some in E as [_ E].
  assert (wf_entry e) by (eapply Forall_lookup_1; done).
  destruct (newpos =? 0).
  - constructor; [by apply wf_set_priority | by apply Forall_delete].
  - apply Forall_app. split; [by apply Forall_delete|].
    constructor; [by apply wf_set_priority | constructor].
Qed.

(** * Question slots *)

Lemma find_slot_spec pid x l y a :
  find_slot pid x l = Some (y, a) →
  aq_pid a = pid ∧ x ≤ y ∧ l !! Z.to_nat (y - x) = Some a.
Proof.
  revert x. induction l as [|b l IH]; intros x; simpl; [done|].
  destruct (Z.eqb_spec (aq_pid b) pid).
  - intros [= <- <-]. by rewrite Z.sub_diag.
  - intros (Ha & Hy & Hl)%IH. repeat split; [done | lia |].
    replace (Z.to_nat (y - x)) with (S (Z.to_nat (y - (x + 1)))) by lia. done.
Qed.

Lemma count_asking_alter l n a f :
  l !! n = Some a →
  count_asking (alter f n l)
  = count_asking l - of_bool (asking a) + of_bool (asking (f a)).
Proof.
  revert n. induction l as [|b l IH]; intros [|n] E; simplify_eq/=; [lia|].
  change (of_bool (asking b) + count_asking (alter f n l)
          = of_bool (asking b) + count_asking l - of_bool (asking a) + of_bool (asking (f a))).
  rewrite (IH n E). lia.
Qed.

Lemma count_asking_upd pid l y a f :
  find_slot pid 0 l = Some (y, a) →
  count_asking (upd_index y f l)
  = count_asking l - of_bool (asking a) + of_bool (asking (f a)).
Proof.
  intros (_ & _ & E)%find_slot_spec. rewrite Z.sub_0_r in E. by apply count_asking_alter.
Qed.

(** The count never exceeds the number of slots. *)
Lemma count_asking_le l : 0 ≤ count_asking l ≤ Z.of_nat (length l).
Proof. induction l as [|a l IH]; simpl; [lia|]. destruct (asking a); simpl; lia. Qed.

(** * Printers at work *)

Definition busy (p : Printer) : Z := if decide (at_work p) then 1 else 0.

Lemma working_cons p l : working (p :: l) = busy p + working l.
Proof. unfold working, busy. rewrite filter_cons. destruct (decide (at_work p)); simpl; lia. Qed.

Lemma working_app l l' : working (l ++ l') = working l + working l'.
Proof. unfold working. rewrite filter_app, length_app. lia. Qed.

Lemma working_nonneg l : 0 ≤ working l.
Proof. unfold working. lia. Qed.

Lemma working_alter l n p f :
  l !! n = Some p → working (alter f n l) = working l - busy p + busy (f p).
Proof.
  revert n. induction l as [|q l IH]; intros [|n] E; simplify_eq/=.
  - rewrite !working_cons. lia.
  - change (working (q :: alter f n l) = working (q :: l) - busy p + busy (f p)).
    rewrite !working_cons, (IH n E). lia.
Qed.

Lemma busy_range p : 0 ≤ busy p ≤ 1.
Proof. unfold busy. destruct (decide _); lia. Qed.

Lemma alter_nothing (f : Printer → Printer) (n : nat) (l : list Printer) : l !! n = None → alter f n l = l.
Proof.
  revert n. induction l as [|q l IH]; intros [|n] E; try done.
  change (q :: alter f n l = q :: l). f_equal. by apply IH.
Qed.

Lemma working_upd_le i f l n :
  (∀ p, busy (f p) ≤ busy p + n) → 0 ≤ n → working (upd_index i f l) ≤ working l + n.
Proof.
  intros Hf Hn. unfold upd_index. destruct (l !! Z.to_nat i) as [p|] eqn:E.
  - rewrite (working_alter _ _ _ _ E). specialize (Hf p). lia.
  - rewrite alter_nothing by done. lia.
Qed.

(** What starts is counted, and what ends was at work. *)
Lemma change_counted `{PPRConfig} t t' :
  p_job_pid printers_memory = 0 → all_counted t → change t t' → all_counted t'.
Proof.
  intros Hz Hc C. unfold all_counted in *.
  destruct C as
    [ | | | | | | | | | | | | | | | i f t Hf | i pid job t Hpid Hmax | i p t Hi Hp | t Hmax
    | | | | t Hnil | | | | | | ]; simpl; try done.
  - pose proof (working_upd_le i f (t_printers t) 0) as W. unfold busy, at_work in W.
    etrans; [apply W | lia]; [intros p; rewrite Hf; lia | done].
  - etrans; [apply (working_upd_le i _ _ 1)|]; [|lia..].
    intros p. pose proof (busy_range (remember_job pid job p)). pose proof (busy_range p). lia.
  - apply at_index_Some in Hi as [_ Hi]. unfold upd_index. rewrite (working_alter _ _ _ _ Hi).
    assert (busy p = 1) as -> by (unfold busy, at_work; by rewrite decide_True).
    assert (busy (set_p_job_pid 0 p) = 0) as -> by (unfold busy, at_work; by rewrite decide_False by (simpl; lia)).
    lia.
  - rewrite working_app, working_cons. unfold busy, at_work. rewrite decide_False by lia. simpl. unfold working at 2. simpl. lia.
  - pose proof (working_nonneg (t_printers t)). unfold working at 1. simpl. lia.
Qed.

(** * The changes keep the invariant *)

Lemma members_ok_mono t t' g :
  (length (t_printers t) ≤ length (t_printers t'))%nat → members_ok t g → members_ok t' g.
Proof.
  intros Hle [Hl Hm]. split; [done|]. eapply Forall_impl; [exact Hm|]. simpl. lia.
Qed.

Lemma members_mono t t' l :
  (length (t_printers t) ≤ length (t_printers t'))%nat →
  Forall (members_ok t) l → Forall (members_ok t') l.
Proof. intros Hle Hl. eapply Forall_impl; [exact Hl|]. intros g. by apply members_ok_mono. Qed.

Lemma members_update t i f :
  Forall (members_ok t) (t_groups t) → (∀ g, g_printers (f g) = g_printers g) →
  Forall (members_ok t) (upd_index i f (t_groups t)).
Proof.
  intros Hm Hf. apply Forall_upd_index; [done|]. intros g. unfold members_ok. by rewrite Hf.
Qed.

Lemma slots_update pid y a f l :
  find_slot pid 0 l = Some (y, a) → -1 ≤ aq_pid (f a) →
  Forall (λ b, -1 ≤ aq_pid b) l → Forall (λ b, -1 ≤ aq_pid b) (upd_index y f l).
Proof.
  intros (_ & _ & E)%find_slot_spec Hf Hl. rewrite Z.sub_0_r in E.
  apply Forall_alter; [done|]. intros b Hb _. by simplify_eq.
Qed.

Lemma media_extend l m :
  NoDup l ∧ (EmptyString ∉ l) ∧ Z.of_nat (length l) ≤ MAX_MEDIA →
  m ≠ EmptyString → m ∉ l → Z.of_nat (length l) ≠ MAX_MEDIA →
  NoDup (l ++ [m]) ∧ (EmptyString ∉ l ++ [m]) ∧ Z.of_nat (length (l ++ [m])) ≤ MAX_MEDIA.
Proof.
  intros (Hd & He & Hl) Hm Hin Hmax. repeat split.
  - apply NoDup_app. repeat split; [done | | apply NoDup_singleton].
    intros x Hx ->%list_elem_of_singleton. done.
  - rewrite elem_of_app, list_elem_of_singleton. by intros [|<-].
  - rewrite length_app. simpl. lia.
Qed.

Ltac inv_field :=
  first
  [ assumption
  | lia
  | rewrite length_upd_index; assumption
  | rewrite length_rush_queue; assumption
  | apply Forall_rush_queue; assumption
  | apply Forall_delete; assumption
  | apply Forall_upd_index; assumption
  | apply Forall_upd_index_const; assumption
  | apply Forall_insert_at; assumption
  | match goal with
    | H : Forall (members_ok _) _ |- _ =>
        refine (members_mono _ _ _ _ H); simpl; rewrite ?length_upd_index, ?length_app; lia
    end
  | constructor ].

Lemma change_inv `{PPRConfig} t t' : inv t → change t t' → inv t'.
Proof.
  intros [Hq Hs He Hn Ha Hp Hm Hd Hl Hpid Hc] C.
  destruct C as
    [ | | | | | | | | f t Hf | x f t Hf | | x t Hlt | n t | | t Hle | | | | t Hmax
    | i f t Hf | i g t Hg1 Hg2 | t | t Hnil | | t | m t Hne Hni Hmax
    | x a pid f t Hx Hpos Hf Hact | x a t Hx | pid x a t Hx Hpos ];
    constructor; simpl; try solve [inv_field].
  - by apply Hf.
  - rewrite length_insert_at. lia.
  - pose proof (length_delete_le n (t_queue t)). lia.
  - unfold QUEUE_SIZE_GROWBY. lia.
  - rewrite length_app. simpl. lia.
  - apply (members_mono t); [done|]. by apply members_update.
  - by apply Forall_upd_index_const.
  - apply Forall_app. split; [done|]. constructor; [|constructor]. by split.
  - by rewrite Hnil.
  - done.
  - done.
  - by apply media_extend.
  - eapply slots_update; [done | lia | done].
  - erewrite count_asking_upd by done. apply find_slot_spec in Hx as (Hpa & _ & _).
    unfold asking. rewrite Hpa, Hf, Hc. destruct (Z.ltb_spec 0 pid); simpl; lia.
  - eapply slots_update; [done | done | done].
  - erewrite count_asking_upd by done. apply find_slot_spec in Hx as (Hpa & _ & _).
    unfold asking. rewrite Hpa. simpl. lia.
  - eapply slots_update; [done | done | done].
  - erewrite count_asking_upd by done. apply find_slot_spec in Hx as (Hpa & _ & _).
    unfold asking. rewrite Hpa. destruct (Z.ltb_spec 0 pid); simpl; lia.
Qed.

Lemma tb_steps_inv `{PPRConfig} t s : inv t → tb_steps t s → inv (tb s).
Proof.
  intros Hi Hs. unfold tb_steps in Hs. induction Hs as [|t1 t2 t3 Hc _ IH]; [done|].
  apply IH. by apply (change_inv t1).
Qed.

Lemma tb_steps_counted `{PPRConfig} t s :
  p_job_pid printers_memory = 0 → all_counted t → tb_steps t s → all_counted (tb s).
Proof.
  intros Hz Hi Hs. unfold tb_steps in Hs. induction Hs as [|t1 t2 t3 Hc _ IH]; [done|].
  apply IH. by apply (change_counted t1).
Qed.

(** * Reachable states *)

Section reachable.
Context `{PPRConfig}.

Lemma booting_inv s : booting s → inv (tb s).
Proof.
  intros [Hq Hp Hg Hm Hsz Ha Hqs Hsl Hn].
  constructor; rewrite ?Hq, ?Hp, ?Hg, ?Hm, ?Hsz, ?Ha, ?Hqs; try done.
  - split; [by apply NoDup_nil|]. split; [apply not_elem_of_nil | done].
  - rewrite <- (length_map aq_pid), Hsl. done.
  - assert (Forall (λ p, -1 ≤ p) (map aq_pid (t_active_question (tb s)))) as F.
    { rewrite Hsl. by apply Forall_replicate. }
    exact (proj1 (Forall_map _ _ _) F).
  - revert Hsl. generalize (Z.to_nat MAX_ACTIVE_QUESTIONS).
    induction (t_active_question (tb s)) as [|a l IH]; intros [|k]; try done.
    simpl. intros [= Ea El]. unfold asking. rewrite Ea. simpl. by apply (IH k).
Qed.

(** A state between two turns of the main loop. *)
Inductive reachable : pprd → Prop :=
| reach_startup s ps gs qs s' :
    booting s → startup ps gs qs s = Done tt s' → reachable s'
| reach_step s s' : reachable s → step s s' → reachable s'.

Lemma reachable_inv s : reachable s → inv (tb s).
Proof.
  induction 1 as [s ps gs qs s' Hb E | s s' _ IH Hstep].
  - pose proof (refines_startup ps gs qs s Hb) as R. unfold wp in R. rewrite E in R.
    apply (tb_steps_inv (tb s)); [by apply booting_inv | done].
  - destruct Hstep as [s w i [] s' _ E].
    pose proof (refines_handle i (mkPprd (tb s) w)) as R. unfold wp in R. rewrite E in R.
    by apply (tb_steps_inv (tb s)).
Qed.

(** What becomes of the tables in every turn holds in every reachable state. *)
Lemma reachable_counted s : p_job_pid printers_memory = 0 → reachable s → all_counted (tb s).
Proof.
  intros Hz. induction 1 as [s ps gs qs s' Hb E | s s' _ IH Hstep].
  - pose proof (refines_startup ps gs qs s Hb) as R. unfold wp in R. rewrite E in R.
    apply (tb_steps_counted (tb s)); [done | | done]. destruct Hb as [_ Hp _ _ _ Ha _ _ _].
    unfold all_counted. by rewrite Hp, Ha.
  - destruct Hstep as [s w i [] s' _ E].
    pose proof (refines_handle i (mkPprd (tb s) w)) as R. unfold wp in R. rewrite E in R.
    by apply (tb_steps_counted (tb s)).
Qed.
End reachable.
