(* ===== verification/Effects.v ===== *)
(** What printer_new_status() and the routines that give a job a status do,
    exactly, and that nothing else changes; which routines leave the printers
    alone; and what the start of a job does. *)
From S2P Require Import Prelude.
From S2P Require Import Text.
From S2P Require Import Spooler.
From S2P Require Import SpoolerFacts.
From S2P Require Import Destid.
From S2P Require Import QueueStatus.
From S2P Require Import Media.
From S2P Require Import Printer.
From S2P Require Import PprdrvExit.
From S2P Require Import Change.
From S2P Require Import Refine.

(** A printer in its new status; whoever waited for it to stop has been told. *)
Definition entered (st now : Z) (p : Printer) : Printer :=
  let q := set_p_spool_state (enter_status st now (p_spool_state p)) p in
  if (st =? PRNSTATUS_STOPT) && negb (p_ppop_pid p =? 0) then set_p_ppop_pid 0 q else q.

(** Everything but the printers and the lock. *)
Definition besides_printers (t : tables) : tables := set_t_printers [] (set_t_lock_level 0 t).

Definition status_entered (i st now : Z) (s s' : pprd) : Prop :=
  printers s' = upd_index i (entered st now) (printers s)
  ∧ besides_printers (tb s') = besides_printers (tb s).

Section effect.
Context `{PPRConfig}.

Lemma reads_save_to n l : reads (save_to n l).
Proof. unfold save_to. read_routine. Qed.
Hint Resolve reads_save_to : reads.

Lemma reads_save_printer_state i : reads (save_printer_state i).
Proof. unfold save_printer_state, printer_spool_state_save. read_routine. Qed.

Lemma reads_save_group_state i : reads (save_group_state i).
Proof. unfold save_group_state, group_spool_state_save. read_routine. Qed.

Lemma p_status_enter st now p :
  p_status (set_p_spool_state (enter_status st now (p_spool_state p)) p) = st.
Proof. done. Qed.

Lemma upd_index_entered_told i st now l p :
  at_index l i = Some p → (st =? PRNSTATUS_STOPT) && negb (p_ppop_pid p =? 0) = true →
  upd_index i (set_p_ppop_pid 0)
    (upd_index i (λ p, set_p_spool_state (enter_status st now (p_spool_state p)) p) l)
  = upd_index i (entered st now) l.
Proof.
  intros [_ Hp]%at_index_Some Hb. rewrite upd_index_compose. unfold upd_index.
  apply list_eq. intros n. destruct (decide (n = Z.to_nat i)) as [->|Hne].
  - rewrite !list_lookup_alter_eq, Hp. simpl. unfold entered. by rewrite Hb.
  - by rewrite !list_lookup_alter_ne by done.
Qed.

Lemma upd_index_entered_untold i st now l p :
  at_index l i = Some p → (st =? PRNSTATUS_STOPT) && negb (p_ppop_pid p =? 0) = false →
  upd_index i (λ p, set_p_spool_state (enter_status st now (p_spool_state p)) p) l
  = upd_index i (entered st now) l.
Proof.
  intros [_ Hp]%at_index_Some Hb. unfold upd_index.
  apply list_eq. intros n. destruct (decide (n = Z.to_nat i)) as [->|Hne].
  - rewrite !list_lookup_alter_eq, Hp. simpl. unfold entered. by rewrite Hb.
  - by rewrite !list_lookup_alter_ne by done.
Qed.

(** The change of status happens before anything can throw; the lock is not
    released when something does. *)
Lemma wp_printer_new_status i st p s (Q : unit → pprd → Prop) X :
  at_index (printers s) i = Some p → p_status p ≠ PRNSTATUS_DELETED →
  (∀ s', status_entered i st (w_now (io s)) s s' →
    t_lock_level (tb s') = t_lock_level (tb s) → Q tt s') →
  (∀ e s', besides_printers (tb s') = besides_printers (tb s) →
    (∃ f, printers s' = upd_index i f (printers s) ∧
      ∀ q, p_status (f q) = st ∧ p_job_pid (f q) = p_job_pid q
           ∧ p_job_destid (f q) = p_job_destid q ∧ p_job_id (f q) = p_job_id q
           ∧ p_job_subid (f q) = p_job_subid q) → X e s') →
  wp (printer_new_status i st) Q X (λ _, True) s.
Proof.
  intros Hp Hd HQ HX. unfold printer_new_status.
  apply wp_bind, wp_modify, wp_bind, wp_get_printer; [|done].
  intros p' Hp'. assert (p' = p) as -> by (unfold printers in *; simpl in *; congruence).
  destruct (Z.eqb_spec (p_status p) PRNSTATUS_DELETED); [done|].
  apply wp_bind, wp_gets, wp_bind, wp_upd_printer; [|done]. intros _ _.
  set (g := λ p, set_p_spool_state (enter_status st (w_now (io s)) (p_spool_state p)) p).
  change (λ p, set_p_spool_state _ p) with g.
  apply wp_bind_reads; [apply reads_save_printer_state | | | done].
  2: { intros e s' E. apply HX; [by rewrite E|]. exists g. split; [|done].
       unfold printers. by rewrite E. }
  intros _ s1 E1. assert (printers s1 = upd_index i g (printers s)) as Ep
    by (unfold printers; by rewrite E1).
  assert (at_index (printers s1) i = Some (g p)) as Hg1
    by (rewrite Ep; by apply at_index_upd).
  unfold tell_waiting_ppop.
  apply wp_bind, wp_bind, wp_get_printer; [|done]. intros q Hq.
  assert (q = g p) as -> by congruence.
  assert (∀ b s2 f, printers s2 = upd_index i f (printers s) →
    besides_printers (tb s2) = besides_printers (tb s) →
    t_lock_level (tb s2) = t_lock_level (tb s) + 1 →
    (∀ q, p_status (f q) = st ∧ p_job_pid (f q) = p_job_pid q
           ∧ p_job_destid (f q) = p_job_destid q ∧ p_job_id (f q) = p_job_id q
           ∧ p_job_subid (f q) = p_job_subid q) →
    upd_index i f (printers s) = upd_index i (entered st (w_now (io s))) (printers s) →
    b = tt → wp (p' ← get_printer i; pst_update i p';; unlock) Q X (λ _, True) s2) as Hrest.
  { intros _ s2 f E2 Eb El Hf Hent _. apply wp_bind, wp_get_printer; [|done]. intros q _.
    apply wp_bind_reads; [apply reads_pst_update | | | done].
    - intros _ s3 E3. apply wp_modify, HQ; unfold status_entered, printers, besides_printers in *.
      + simpl. rewrite E3. split; [congruence|]. etransitivity; [|exact Eb]. done.
      + simpl. rewrite E3. lia.
    - intros e s3 E3. apply HX; [by rewrite E3|]. exists f. split; [|done].
      unfold printers in *. by rewrite E3. }
  apply wp_when.
  - intros Hb. apply wp_bind_reads; [apply reads_kill | | | done].
    2: { intros e s2 E2. apply HX; [by rewrite E2, E1|]. exists g. split; [|done].
         unfold printers. by rewrite E2, E1. }
    intros _ s2 E2. apply wp_upd_printer; [|done]. intros _ _.
    apply (Hrest tt _ (λ q, set_p_ppop_pid 0 (g q))).
    + unfold printers. simpl. rewrite E2, E1. simpl. apply upd_index_compose.
    + simpl. by rewrite E2, E1.
    + simpl. by rewrite E2, E1.
    + done.
    + rewrite <- upd_index_compose. by apply (upd_index_entered_told i st _ _ p).
    + done.
  - intros Hb. apply (Hrest tt _ g).
    + done.
    + by rewrite E1.
    + by rewrite E1.
    + done.
    + by apply (upd_index_entered_untold i st _ _ p).
    + done.
Qed.

(** A deleted printer keeps its status. *)
Lemma wp_printer_new_status_deleted i st p s (Q : unit → pprd → Prop) X F :
  at_index (printers s) i = Some p → p_status p = PRNSTATUS_DELETED →
  (∀ s', tb s' = tb s → Q tt s') →
  wp (printer_new_status i st) Q X F s.
Proof.
  intros Hp Hd HQ. unfold printer_new_status.
  apply wp_bind, wp_modify, wp_bind. unfold wp at 1, get_printer. simpl.
  unfold printers in *. simpl. rewrite Hp, Hd. simpl. apply HQ. simpl.
  unfold error, emit. destruct (tb s). unfold set_t_lock_level. simpl. f_equal. lia.
Qed.
End effect.

(** * What the routines that change or remove a job do to the queue, exactly. *)

(** Everything but the queue and the lock. *)
Definition besides_queue (t : tables) : tables := set_t_queue [] (set_t_lock_level 0 t).

(** The first job that passes the test. *)
Definition first_at (test : QEntry → bool) (q : list QEntry) (x : Z) : Prop :=
  (∃ e, at_index q x = Some e ∧ test e = true) ∧
  Forall (λ e, test e = false) (take (Z.to_nat x) q).

Lemma first_at_unique test q x y : first_at test q x → first_at test q y → x = y.
Proof.
  assert (∀ x y, first_at test q x → first_at test q y → ¬ x < y) as Hlt.
  { intros a b [(e & He & Ht) _] [_ Hb] Hab. apply at_index_Some in He as [Ha He].
    rewrite Forall_forall in Hb. rewrite (Hb e) in Ht; [done|].
    apply list_elem_of_lookup_2 with (Z.to_nat a). rewrite lookup_take_lt by lia. done. }
  intros Hx Hy. destruct (Z.lt_trichotomy x y) as [H|[H|H]]; [|done|];
    [by destruct (Hlt x y) | by destruct (Hlt y x)].
Qed.

Section effect.
Context `{PPRConfig}.

Lemma reads_write_status j : reads (queue_write_status_and_flags j).
Proof. unfold queue_write_status_and_flags. read_routine. Qed.
Hint Resolve reads_write_status : reads.

(** The status changes first; what follows only reports it. *)
Lemma wp_queue_p_job_new_status x st s (Q : unit → pprd → Prop) X :
  (∀ s', queue s' = upd_index x (set_q_status (i16 st)) (queue s) →
    set_t_queue [] (tb s') = set_t_queue [] (tb s) → Q tt s' ∧ ∀ e, X e s') →
  wp (queue_p_job_new_status (Jq x) st) Q X (λ _, True) s.
Proof.
  intros HQ. unfold queue_p_job_new_status.
  apply wp_bind, wp_job_upd_q; [|done]. intros _ _. set (s1 := on_tb _ s).
  assert (∀ s', tb s' = tb s1 → Q tt s' ∧ ∀ e, X e s') as HQ'.
  { intros s' E. apply HQ; [unfold queue; by rewrite E | by rewrite E]. }
  assert (∀ (m : P unit), reads m → wp m Q X (λ _, True) s1) as Hr.
  { intros m Hm. eapply wp_mono; [apply Hm | | | done].
    - intros [] s' E. by apply HQ'.
    - intros e s' E. by apply HQ'. }
  apply Hr. read_routine.
Qed.

(** The first job of that name gets the status. *)
Lemma wp_queue_job_new_status d i j st s (Q : Z → pprd → Prop) X :
  (∀ x s', first_at (is_job d i j) (queue s) x →
    queue s' = upd_index x (set_q_status (i16 st)) (queue s) →
    besides_queue (tb s') = besides_queue (tb s) →
    t_lock_level (tb s') = t_lock_level (tb s) → Q x s') →
  (∀ e x s', first_at (is_job d i j) (queue s) x →
    queue s' = upd_index x (set_q_status (i16 st)) (queue s) →
    besides_queue (tb s') = besides_queue (tb s) → X e s') →
  wp (queue_job_new_status d i j st) Q X (λ _, True) s.
Proof.
  intros HQ HX. unfold queue_job_new_status. apply wp_bind, wp_modify, wp_bind.
  apply wp_first_job; [|done]. intros x e He Ht Hbefore. apply wp_bind.
  assert (first_at (is_job d i j) (queue s) x) as Hx by (split; [by exists e | done]).
  apply wp_queue_p_job_new_status. intros s' Eq Eb.
  assert (besides_queue (tb s') = besides_queue (tb s)) as Eb'
    by (apply (f_equal (set_t_lock_level 0)) in Eb; exact Eb).
  split.
  - apply wp_ret, wp_bind, wp_modify, wp_ret. apply HQ; [done | done | exact Eb' |].
    apply (f_equal t_lock_level) in Eb. simpl in *. lia.
  - intros e'. by apply (HX e' x).
Qed.
End effect.

(** * What the routines about printers leave alone: the printers, while jobs are
    given new wait reasons; the members of groups, while jobs are started. *)

Section printers.
Context `{PPRConfig}.

Hint Resolve reads_write_status reads_save_printer_state : reads.

Lemma printers_lock : frames t_printers lock.
Proof. by apply frames_tb. Qed.

Lemma printers_unlock : frames t_printers unlock.
Proof. by apply frames_tb. Qed.
Hint Resolve printers_lock printers_unlock : frames.

Lemma printers_queue_p_job_new_status j st :
  frames t_printers (queue_p_job_new_status j st).
Proof. unfold queue_p_job_new_status. frame_routine. Qed.
Hint Resolve printers_queue_p_job_new_status : frames.

Lemma printers_media_set_job_wait_reason j m b :
  frames t_printers (media_set_job_wait_reason j m b).
Proof. unfold media_set_job_wait_reason. frame_routine. Qed.
Hint Resolve printers_media_set_job_wait_reason : frames.

Lemma printers_update_waitreason2 d :
  frames t_printers (media_startstop_update_waitreason2 d).
Proof. unfold media_startstop_update_waitreason2, for_jobs_of. frame_routine. Qed.
Hint Resolve printers_update_waitreason2 : frames.

Lemma printers_update_waitreason p :
  frames t_printers (media_startstop_update_waitreason p).
Proof. unfold media_startstop_update_waitreason, for_groups. frame_routine. Qed.

(** ** The members of groups, and which groups are held *)

Definition membership (g : Group) : list Z * Z := (g_printers g, gs_held (g_spool_state g)).

Definition members_of (t : tables) : list (list Z * Z) := map membership (t_groups t).

Lemma members_upd i f l :
  (∀ g, membership (f g) = membership g) → map membership (upd_index i f l) = map membership l.
Proof.
  intros Hf. unfold upd_index. generalize (Z.to_nat i).
  induction l as [|g l IH]; intros [|n]; simpl; [done..|by f_equal|]. f_equal. apply IH.
Qed.

Lemma same_membership s s' i :
  members_of (tb s') = members_of (tb s) →
  membership (default zero_group (groups s' !! i)) = membership (default zero_group (groups s !! i)).
Proof.
  unfold members_of, groups. intros E. apply (f_equal (λ l, l !! i)) in E.
  change (map membership) with (fmap (M := list) membership) in E.
  rewrite !list_lookup_fmap in E.
  destruct (t_groups (tb s') !! i), (t_groups (tb s) !! i); simpl in *; congruence.
Qed.

Lemma members_lock : frames members_of lock.
Proof. by apply frames_tb. Qed.

Lemma members_unlock : frames members_of unlock.
Proof. by apply frames_tb. Qed.
Hint Resolve members_lock members_unlock : frames.
Hint Resolve reads_pst_update : reads.

Lemma members_upd_group i f :
  (∀ g, membership (f g) = membership g) → frames members_of (upd_group i f).
Proof. intros Hf. apply frames_upd_group. intros t. by apply members_upd. Qed.

Lemma members_printer_new_status i st : frames members_of (printer_new_status i st).
Proof. unfold printer_new_status, tell_waiting_ppop. frame_routine. Qed.
Hint Resolve members_printer_new_status : frames.

Lemma members_starve i : frames members_of (starve i).
Proof. unfold starve. frame_routine. Qed.

Lemma members_queue_p_job_new_status j st :
  frames members_of (queue_p_job_new_status j st).
Proof. unfold queue_p_job_new_status. frame_routine. Qed.
Hint Resolve members_starve members_queue_p_job_new_status : frames.

Lemma members_queue_job_new_status d i j st :
  frames members_of (queue_job_new_status d i j st).
Proof. unfold queue_job_new_status. frame_routine. Qed.

Lemma members_mark_last_used d i : frames members_of (mark_last_used d i).
Proof.
  unfold mark_last_used. repeat (first [apply members_upd_group; done | frame_step]).
Qed.
Hint Resolve members_queue_job_new_status members_mark_last_used reads_pprdrv_exec : frames reads.

Lemma members_pprdrv_start i j : frames members_of (pprdrv_start i j).
Proof. unfold pprdrv_start. frame_routine. Qed.
Hint Resolve members_pprdrv_start : frames.

Lemma members_printer_start i j : frames members_of (printer_start i j).
Proof. unfold printer_start. frame_routine. Qed.
End printers.

(** * What starting a job does, exactly: when a printer starves, what changes
    when it takes the job on, and which jobs it does not take. *)

(** All the printers that may print do, or those that wait have a claim on the
    rest. *)
Definition no_room (t : tables) (p : Printer) : bool :=
  (t_active_printers t =? MAX_ACTIVE)
  || (negb (ps_previous_status (p_spool_state p) =? PRNSTATUS_STARVED)
      && (MAX_ACTIVE <=? t_active_printers t + t_starving_printers t)).

Definition starved (i : Z) (s s' : pprd) : Prop :=
  printers s' = upd_index i (entered PRNSTATUS_STARVED (w_now (io s))) (printers s)
  ∧ queue s' = queue s
  ∧ t_active_printers (tb s') = t_active_printers (tb s)
  ∧ t_starving_printers (tb s') = t_starving_printers (tb s) + 1.

Definition started (i : Z) (e : QEntry) (s s' : pprd) : Prop :=
  ∃ pid x, 0 < pid
  ∧ printers s' = upd_index i
      (λ q, entered PRNSTATUS_PRINTING (w_now (io s)) (remember_job pid e q)) (printers s)
  ∧ first_at (is_job (q_destid e) (q_id e) (q_subid e)) (queue s) x
  ∧ queue s' = upd_index x (set_q_status (i16 i)) (queue s)
  ∧ t_active_printers (tb s') = t_active_printers (tb s) + 1
  ∧ t_starving_printers (tb s') = t_starving_printers (tb s).

(** The bit of a job's masks that stands for the printer. *)
Definition printer_bit (s : pprd) (destid prnid : Z) : Z :=
  if prnid =? destid then 1
  else if destid_is_group s destid then
    let off := index_from 0 prnid
      (g_printers (default zero_group (groups s !! Z.to_nat (destid - MAX_PRINTERS)))) in
    if off =? -1 then 0 else Z.shiftl 1 off
  else 0.

Definition group_held (s : pprd) (destid : Z) : bool :=
  destid_is_group s destid
  && truth (gs_held (g_spool_state
       (default zero_group (groups s !! Z.to_nat (destid - MAX_PRINTERS))))).

(** Is there something against this job on this printer? *)
Definition unsuitable (s : pprd) (e : QEntry) (prnid : Z) : bool :=
  group_held s (q_destid e)
  || negb (Z.land (q_notnow e) (printer_bit s (q_destid e) prnid) =? 0)
  || negb (Z.land (q_never e) (printer_bit s (q_destid e) prnid) =? 0).

Section start.
Context `{PPRConfig}.

Lemma upd_index_ext {A} i (f g : A → A) l : (∀ a, f a = g a) → upd_index i f l = upd_index i g l.
Proof.
  intros Hfg. unfold upd_index. apply list_eq. intros n.
  destruct (decide (n = Z.to_nat i)) as [->|Hne].
  - rewrite !list_lookup_alter_eq. destruct (l !! Z.to_nat i); simpl; [by rewrite Hfg | done].
  - by rewrite !list_lookup_alter_ne.
Qed.

Lemma wp_starve i p s s0 :
  at_index (printers s) i = Some p → p_status p ≠ PRNSTATUS_DELETED →
  tb s = tb s0 → w_now (io s) = w_now (io s0) →
  wp (starve i) (λ r s', r = -1 ∧ starved i s0 s') (λ _ _, True) (λ _, True) s.
Proof.
  intros Hp Hd Et En. unfold starve. apply wp_bind, (wp_printer_new_status i _ p); [done..| |done].
  intros s1 [Ep Eb] _. apply wp_bind, wp_modify, wp_ret. split; [done|].
  unfold starved, printers, queue in *. simpl. rewrite Ep, Et, En.
  repeat split.
  - apply (f_equal t_queue) in Eb. simpl in Eb. congruence.
  - apply (f_equal t_active_printers) in Eb. simpl in Eb. congruence.
  - apply (f_equal t_starving_printers) in Eb. simpl in Eb. rewrite Eb, Et. done.
Qed.

Definition now_reads {A} (m : P A) : Prop :=
  ∀ s, wp m (λ _ s', tb s' = tb s ∧ w_now (io s') = w_now (io s)) (λ _ _, True) (λ _, True) s.

Lemma now_bind {A B} (m : P A) (f : A → P B) :
  now_reads m → (∀ a, now_reads (f a)) → now_reads (m ≫= f).
Proof.
  intros Hm Hf s. apply wp_bind. eapply wp_mono; [apply Hm | | auto | auto].
  intros a s' [E1 E2]. eapply wp_mono; [apply Hf | | auto | auto].
  simpl. intros b s2 [-> ->]. done.
Qed.

Lemma now_destid_to_name d : now_reads (destid_to_name d).
Proof.
  intros s. unfold destid_to_name, is_group. apply wp_bind, wp_gets.
  destruct (destid_is_group s d).
  - apply wp_bind. unfold destid_to_gindex. destruct (_ || _); [done|].
    apply wp_ret, wp_bind, wp_gets. destruct (_ <? _); [|done].
    apply wp_bind, wp_get_group; [|done]. intros _.
    destruct (g_deleted _); [done|]. by destruct (g_name _).
  - apply wp_bind, wp_gets. destruct (_ && _); [|done].
    apply wp_bind, wp_get_printer; [|done]. intros p _.
    destruct (_ =? _); [done|]. by destruct (p_name p).
Qed.

Lemma wp_fork_now Q X F s :
  (∀ pid s', tb s' = tb s → w_now (io s') = w_now (io s) → pid = -1 ∨ 0 < pid → Q pid s') →
  wp fork Q X F s.
Proof.
  intros HQ. apply wp_bind. unfold syscall, wp. apply HQ; [done | done |].
  destruct (Z.ltb_spec 0 (hd (-1) (w_syscalls (io s)))); [by right | by left].
Qed.

Lemma now_exec i e : now_reads (pprdrv_exec i e).
Proof.
  unfold pprdrv_exec. apply now_bind; [apply now_destid_to_name|]. intros n.
  apply now_bind; [apply now_destid_to_name|]. by intros d s.
Qed.

Lemma core_mark_last_used_all d i (V : tables → list QEntry * list Printer * Z * Z) :
  (∀ l t, V (set_t_groups l t) = V t) → frames V (mark_last_used d i).
Proof.
  intros HV. unfold mark_last_used.
  repeat (first [apply frames_upd_group; auto | frame_step]).
Qed.

(** After fork() gave a process. *)
Lemma wp_after_fork i p e pid s s0 :
  at_index (printers s) i = Some p → p_status p ≠ PRNSTATUS_DELETED → 0 < pid →
  tb s = set_t_active_printers (t_active_printers (tb s0) + 1) (tb s0) →
  w_now (io s) = w_now (io s0) →
  wp (upd_printer i (remember_job pid e);;
      printer_new_status i PRNSTATUS_PRINTING;;
      queue_job_new_status (q_destid e) (q_id e) (q_subid e) i;;
      mark_last_used (q_destid e) i;;
      mret 0)
    (λ r s', r = 0 ∧ started i e s0 s') (λ _ _, True) (λ _, True) s.
Proof.
  intros Hp Hd Hpid Et En. apply wp_bind, wp_upd_printer; [|done]. intros _ _.
  set (s1 := on_tb _ s).
  assert (at_index (printers s1) i = Some (remember_job pid e p)) as Hp1 by by apply at_index_upd.
  apply wp_bind, (wp_printer_new_status i _ (remember_job pid e p)); [done | done | | done].
  intros s2 [Ep Eb] _. apply wp_bind, wp_queue_job_new_status; [|done].
  intros x s3 Hx Eq Eb3 _.
  apply (wp_bind_frames (λ t, (t_queue t, t_printers t, t_active_printers t, t_starving_printers t)));
    [by apply core_mark_last_used_all | | done | done].
  intros _ s4 E4. apply wp_ret. split; [done|]. injection E4 as E4q E4p E4a E4s.
  assert (queue s2 = queue s0) as Eq2.
  { apply (f_equal t_queue) in Eb. simpl in Eb. unfold queue. by rewrite Eb, Et. }
  exists pid, x. split; [done|]. split; [|split; [|split; [|split]]].
  - unfold printers in *. rewrite E4p. apply (f_equal t_printers) in Eb3. simpl in Eb3.
    rewrite Eb3, Ep. simpl. rewrite Et, En. simpl.
    apply (upd_index_compose i (entered PRNSTATUS_PRINTING (w_now (io s0))) (remember_job pid e)).
  - by rewrite <- Eq2.
  - unfold queue in *. by rewrite E4q, Eq, Eq2.
  - rewrite E4a. apply (f_equal t_active_printers) in Eb, Eb3. simpl in Eb, Eb3.
    by rewrite Eb3, Eb, Et.
  - rewrite E4s. apply (f_equal t_starving_printers) in Eb, Eb3. simpl in Eb, Eb3.
    by rewrite Eb3, Eb, Et.
Qed.

Lemma wp_pprdrv_start i j p e s :
  at_index (printers s) i = Some p →
  wp (job_get j) (λ e' s', e' = e ∧ s' = s) (λ _ _, True) (λ _, True) s →
  wp (pprdrv_start i j)
    (λ r s', p_status p = PRNSTATUS_IDLE ∧ q_status e = STATUS_WAITING ∧
             ((r = 0 ∧ started i e s s' ∧ no_room (tb s) p = false)
              ∨ (r = -1 ∧ starved i s s')))
    (λ _ _, True) (λ _, True) s.
Proof.
  intros Hp Hj. unfold pprdrv_start. apply wp_bind.
  eapply wp_mono; [exact Hj | | done | done]. intros e' s' [-> ->].
  destruct (Z.eqb_spec (q_status e) STATUS_WAITING) as [Hw|]; simpl; [|done].
  apply wp_bind, wp_get_printer; [|done]. intros q Hq. assert (q = p) as -> by congruence.
  destruct (Z.eqb_spec (p_status p) PRNSTATUS_IDLE) as [Hi|]; simpl; [|done].
  assert (p_status p ≠ PRNSTATUS_DELETED) as Hd by by rewrite Hi.
  apply wp_bind, wp_gets. destruct (_ =? 0); [done|].
  assert (∀ s1, tb s1 = tb s → w_now (io s1) = w_now (io s) →
    wp (starve i) (λ r s', p_status p = PRNSTATUS_IDLE ∧ q_status e = STATUS_WAITING ∧
             ((r = 0 ∧ started i e s s' ∧ no_room (tb s) p = false)
              ∨ (r = -1 ∧ starved i s s'))) (λ _ _, True) (λ _, True) s1) as Hstarve.
  { intros s1 E1 E2. eapply wp_mono; [apply (wp_starve i p s1 s) | | done | done]; try done.
    - unfold printers in *. by rewrite E1.
    - intros r s' Hr. split; [done|]. split; [done|]. by right. }
  destruct (t_active_printers (tb s) =? MAX_ACTIVE) eqn:Hmax; [by apply Hstarve|].
  destruct (negb _ && _) eqn:Hres; [by apply Hstarve|].
  apply wp_bind, wp_fork_now. intros pid s1 E1 E2 Hpid.
  destruct (Z.eqb_spec pid (-1)) as [->|Hne].
  - apply wp_bind. eapply wp_mono; [apply now_destid_to_name | | done | done].
    intros n s2 [E3 E4]. apply wp_bind, wp_modify. apply Hstarve; simpl; congruence.
  - apply wp_bind. eapply wp_mono; [apply now_exec | | done | done].
    intros _ s2 [E3 E4]. apply wp_bind, wp_modify.
    eapply wp_mono; [apply (wp_after_fork i p e _ _ s) | | done | done]; try done.
    + unfold printers in *. simpl. by rewrite E3, E1.
    + lia.
    + simpl. by rewrite E3, E1.
    + simpl. congruence.
    + intros r s' [Hr Hs']. split; [done|]. split; [done|]. left. split; [done|]. split; [done|].
      unfold no_room. by rewrite Hmax, Hres.
Qed.

(** ** Suitability *)

Lemma wp_destid_to_gindex d Q X s :
  Q (d - MAX_PRINTERS) s → wp (destid_to_gindex d) Q X (λ _, True) s.
Proof. intros HQ. unfold destid_to_gindex. by destruct (_ || _). Qed.

Lemma wp_get_group_default i Q X s :
  Q (default zero_group (groups s !! Z.to_nat i)) s →
  wp (get_group i) Q X (λ _, True) s.
Proof. intros HQ. by apply wp_get_group. Qed.

Lemma wp_destid_printer_bit d i Q X s :
  Q (printer_bit s d i) s → wp (destid_printer_bit d i) Q X (λ _, True) s.
Proof.
  intros HQ. unfold destid_printer_bit, printer_bit in *.
  destruct (i =? d); [done|]. apply wp_bind, wp_gets.
  destruct (destid_is_group s d) eqn:Hg; [|done].
  apply wp_bind. unfold destid_get_member_offset. apply wp_bind, wp_gets. rewrite Hg.
  apply wp_bind, wp_destid_to_gindex, wp_bind, wp_get_group_default, wp_ret, wp_ret. done.
Qed.

Lemma wp_group_held d Q X s :
  Q (group_held s d) s →
  wp (if destid_is_group s d then
        gindex ← destid_to_gindex d;
        gr ← get_group gindex;
        mret (truth (gs_held (g_spool_state gr)))
      else mret false) Q X (λ _, True) s.
Proof.
  intros HQ. unfold group_held in HQ. destruct (destid_is_group s d); [|done].
  apply wp_bind, wp_destid_to_gindex, wp_bind, wp_get_group_default, wp_ret. done.
Qed.

Lemma wp_printer_start i j p e s :
  at_index (printers s) i = Some p →
  wp (job_get j) (λ e' s', e' = e ∧ s' = s) (λ _ _, True) (λ _, True) s →
  wp (printer_start i j)
    (λ r s', q_status e = STATUS_WAITING ∧
      if negb (p_status p =? PRNSTATUS_IDLE) then r = -1 ∧ s' = s
      else if unsuitable s e i then r = -2 ∧ s' = s
      else (r = 0 ∧ started i e s s' ∧ no_room (tb s) p = false) ∨ (r = -1 ∧ starved i s s'))
    (λ _ _, True) (λ _, True) s.
Proof.
  intros Hp Hj. unfold printer_start. apply wp_bind.
  eapply wp_mono; [exact Hj | | done | done]. intros e' s' [-> ->].
  destruct (Z.eqb_spec (q_status e) STATUS_WAITING) as [Hw|]; simpl; [|done].
  apply wp_bind, wp_gets. destruct (_ =? 0); [done|].
  apply wp_bind, wp_get_printer; [|done]. intros q Hq. assert (q = p) as -> by congruence.
  destruct (p_status p =? PRNSTATUS_IDLE) eqn:Hi; simpl; [|done].
  apply wp_bind, wp_gets, wp_bind, wp_group_held. unfold unsuitable.
  destruct (group_held s (q_destid e)); [done|].
  apply wp_bind, wp_destid_printer_bit.
  destruct (negb (Z.land (q_notnow e) _ =? 0)); [done|].
  destruct (negb (Z.land (q_never e) _ =? 0)); [done|].
  apply wp_bind. eapply wp_mono; [by apply wp_pprdrv_start | | done | done].
  intros r s' (_ & _ & Hr). destruct (_ && _); [done|]. by apply wp_ret.
Qed.
End start.
