(* ===== verification/Consistency.v ===== *)
(** The queue and the printers agree: a job that is marked as printing on a
    printer is the job that printer has, and no two jobs are on one printer.
    Which routines keep it so, and what the others need. *)
From S2P Require Import Prelude.
From S2P Require Import Text.
From S2P Require Import Spooler.
From S2P Require Import SpoolerFacts.
From S2P Require Import Destid.
From S2P Require Import QueueStatus.
From S2P Require Import Media.
From S2P Require Import Printer.
From S2P Require Import PprdrvExit.
From S2P Require Import Question.
From S2P Require Import PpopPrinters.
From S2P Require Import Change.
From S2P Require Import Refine.
From S2P Require Import Effects.

(** * The invariant *)

Definition key (e : QEntry) : Z * Z * Z := (q_destid e, q_id e, q_subid e).

Definition pkey (p : Printer) : Z * Z * Z := (p_job_destid p, p_job_id p, p_job_subid p).

(** No job is marked as printing on printer [i]. *)
Definition nothing_on (i : Z) (t : tables) : Prop :=
  Forall (λ e, q_status e ≠ i) (t_queue t).

Definition job_ok (l : list Printer) (e : QEntry) : Prop :=
  0 ≤ q_status e →
  ∃ p, at_index l (q_status e) = Some p ∧ has_job (p_status p) = true ∧ pkey p = key e.

(** A printer with a pprdrv process is at work. *)
Definition printer_ok (p : Printer) : Prop :=
  0 < p_job_pid p → has_job (p_status p) = true.

Record consistent (t : tables) : Prop := {
  con_count : Z.of_nat (length (t_printers t)) ≤ MAX_PRINTERS;
  con_keys : NoDup (map key (t_queue t));
  con_jobs : Forall (job_ok (t_printers t)) (t_queue t);
  con_printers : Forall printer_ok (t_printers t);
}.

(** Two jobs on one printer are one and the same. *)
Lemma consistent_same_job t x y e e' :
  consistent t → t_queue t !! x = Some e → t_queue t !! y = Some e' →
  0 ≤ q_status e → q_status e = q_status e' → x = y.
Proof.
  intros [_ Hk Hj _] Hx Hy Hs E. rewrite Forall_forall in Hj.
  destruct (Hj e) as (p & Hp & _ & Kp); [by eapply list_elem_of_lookup_2 | done |].
  destruct (Hj e') as (p' & Hp' & _ & Kp'); [by eapply list_elem_of_lookup_2 | lia |].
  assert (key e = key e') as K by (rewrite <- E in Hp'; congruence).
  apply (NoDup_lookup (key <$> t_queue t) x y (key e)); [exact Hk | |].
  - by rewrite list_lookup_fmap, Hx.
  - rewrite K. by rewrite list_lookup_fmap, Hy.
Qed.

(** A printer that is not at work has no job. *)
Lemma consistent_nothing_on t i p :
  consistent t → at_index (t_printers t) i = Some p → has_job (p_status p) = false →
  nothing_on i t.
Proof.
  intros [_ _ Hj _] Hp Hs. unfold nothing_on. eapply Forall_impl; [exact Hj|].
  intros e He <-. pose proof (at_index_lt _ _ _ Hp) as Hi.
  destruct (He (proj1 Hi)) as (p' & Hp' & Hs' & _). congruence.
Qed.

Lemma consistent_no_process t i p :
  consistent t → at_index (t_printers t) i = Some p → has_job (p_status p) = false →
  p_job_pid p ≤ 0.
Proof.
  intros [_ _ _ Hp] Hi Hs. apply at_index_Some in Hi as [_ Hi].
  pose proof (Forall_lookup_1 _ _ _ _ Hp Hi) as Hok. unfold printer_ok in Hok.
  destruct (Z.le_gt_cases (p_job_pid p) 0) as [|Hgt]; [done|].
  rewrite Hs in Hok. by specialize (Hok Hgt).
Qed.

(** ** Changes that keep it *)

(** Entries keep their keys, and their status or take a negative one. *)
Definition tame (f : QEntry → QEntry) : Prop :=
  ∀ e, key (f e) = key e ∧ (q_status (f e) = q_status e ∨ q_status (f e) < 0).

Lemma map_key_upd x f l :
  (∀ e, key (f e) = key e) → map key (upd_index x f l) = map key l.
Proof.
  intros Hf. unfold upd_index. generalize (Z.to_nat x).
  induction l as [|e l IH]; intros [|n]; simpl; [done..|by f_equal|].
  f_equal. apply IH.
Qed.

Lemma consistent_job x f t :
  tame f → consistent t → consistent (set_t_queue (upd_index x f (t_queue t)) t).
Proof.
  intros Hf [Hc Hk Hj Hp]. constructor; simpl; [done | | | done].
  - rewrite map_key_upd; [done|]. intros e. apply Hf.
  - apply Forall_alter; [done|]. intros e _ He Hs.
    destruct (Hf e) as [Kf [Es|]]; [|lia]. rewrite Es in *.
    destruct (He Hs) as (p & ? & ? & ?). exists p. by rewrite Kf.
Qed.

Lemma nothing_on_job i x f t :
  0 ≤ i → tame f → nothing_on i t →
  nothing_on i (set_t_queue (upd_index x f (t_queue t)) t).
Proof.
  intros Hi Hf Hn. apply Forall_alter; [done|]. intros e _ He.
  destruct (Hf e) as [_ [->|]]; [done | lia].
Qed.

(** A printer that has no job may change as it likes, if it is not left idle
    with a process; one that has a job keeps it, and stays at work. *)
Lemma consistent_printer i f p t :
  at_index (t_printers t) i = Some p → printer_ok (f p) →
  nothing_on i t ∨ (has_job (p_status (f p)) = true ∧ pkey (f p) = pkey p) →
  consistent t → consistent (set_t_printers (upd_index i f (t_printers t)) t).
Proof.
  intros Hp Hok Hf [Hc Hk Hj Hps]. pose proof (at_index_lt _ _ _ Hp) as Hi.
  constructor; simpl; [by rewrite length_upd_index | done | |].
  - rewrite Forall_forall in Hj |- *. intros e He Hs.
    destruct (Hj e He Hs) as (q & Hq & Hb & Kq).
    destruct (decide (i = q_status e)) as [->|Hne].
    + destruct Hf as [Hn|[Hb' Kf]].
      * unfold nothing_on in Hn. rewrite Forall_forall in Hn. by destruct (Hn e He).
      * exists (f p). rewrite (at_index_upd _ _ _ p) by done.
        repeat split; [done|]. rewrite Kf. congruence.
    + exists q. by rewrite at_index_upd_ne by (lia || done).
  - apply at_index_Some in Hp as [_ Hp].
    apply Forall_alter; [done|]. intros q Hq _. by simplify_eq.
Qed.

Lemma map_key_delete n l : map key (delete n l) `sublist_of` map key l.
Proof. apply (fmap_sublist key), sublist_delete. Qed.

Lemma consistent_remove n t :
  consistent t → consistent (set_t_queue (delete n (t_queue t)) t).
Proof.
  intros [Hc Hk Hj Hp]. constructor; simpl; [done | | by apply Forall_delete | done].
  eapply sublist_NoDup; [exact Hk | apply map_key_delete].
Qed.

(** A job goes to the printer that has taken it on. *)
Lemma consistent_assign x i e p t :
  at_index (t_queue t) x = Some e → at_index (t_printers t) i = Some p →
  has_job (p_status p) = true → pkey p = key e →
  consistent t → consistent (set_t_queue (upd_index x (set_q_status i) (t_queue t)) t).
Proof.
  intros [_ Hx]%at_index_Some Hp Hb Kp [Hc Hk Hj Hps].
  constructor; simpl; [done | | | done].
  - by rewrite map_key_upd.
  - apply Forall_alter; [done|]. intros e' He' _ Hs. simplify_eq. by exists p.
Qed.

(** ** A test for it *)

Definition job_okb (l : list Printer) (e : QEntry) : bool :=
  (q_status e <? 0)
  || match at_index l (q_status e) with
     | Some p => has_job (p_status p) && bool_decide (pkey p = key e)
     | None => false
     end.

Definition printer_okb (p : Printer) : bool := (p_job_pid p <=? 0) || has_job (p_status p).

Definition consistentb (t : tables) : bool :=
  (Z.of_nat (length (t_printers t)) <=? MAX_PRINTERS)
  && bool_decide (NoDup (map key (t_queue t)))
  && forallb (job_okb (t_printers t)) (t_queue t)
  && forallb printer_okb (t_printers t).

Lemma consistentb_true t : consistentb t = true → consistent t.
Proof.
  unfold consistentb. rewrite !andb_true_iff, !forallb_forall, Z.leb_le, bool_decide_eq_true.
  intros [[[Hc Hk] Hj] Hp]. constructor; [done | done | |]; rewrite Forall_forall.
  - intros e He%list_elem_of_In Hs. specialize (Hj e He). unfold job_okb in Hj.
    apply orb_true_iff in Hj as [Hj|Hj]; [lia|].
    destruct (at_index _ _) as [p|]; [|done].
    apply andb_true_iff in Hj as [? ?%bool_decide_eq_true_1]. by exists p.
  - intros p Hin%list_elem_of_In. specialize (Hp p Hin). unfold printer_okb in Hp. intros Hpid.
    apply orb_true_iff in Hp as [Hp|Hp]; [lia | done].
Qed.

(** * The routines of printers and of the queue keep the consistency of
    Consistency.v: starting a job, looking for one, the clock, and the end of
    a pprdrv process. *)

(** ** The states *)

(** A printer that has just lost its job, and is not to get another. *)
Definition resting (i : Z) (s : pprd) : Prop :=
  nothing_on i (tb s) ∧
  ∃ p, at_index (printers s) i = Some p ∧ p_status p ≠ PRNSTATUS_IDLE ∧ p_job_pid p ≤ 0.

Definition con (o : option Z) (s : pprd) : Prop :=
  consistent (tb s) ∧ match o with Some i => resting i s | None => True end.

Definition core (t : tables) : list QEntry * list Printer := (t_queue t, t_printers t).

(** From a state with [Pre] the routine gets to consistent ones. *)
Definition leads {A} (Pre : pprd → Prop) (o : option Z) (m : P A) : Prop :=
  ∀ s, Pre s → wp m (λ _, con o) (λ _, con o) (λ _, True) s.

(** The printer as the routine has just seen it. *)
Definition con_at (o : option Z) (i : Z) (p : Printer) (s : pprd) : Prop :=
  con o s ∧ at_index (printers s) i = Some p.

Create HintDb con discriminated.

Section leads.
Context (o : option Z).

Lemma con_core s s' : core (tb s') = core (tb s) → con o s → con o s'.
Proof.
  intros E [[Hc Hk Hj Hp] Hr]. unfold core in E. injection E as Eq Ep.
  split; [by constructor; rewrite ?Eq, ?Ep|].
  destruct o as [i|]; [|done]. destruct Hr as [Hn Hr]. split.
  - unfold nothing_on. by rewrite Eq.
  - unfold printers in *. by rewrite Ep.
Qed.

Lemma con_at_core i p s s' : core (tb s') = core (tb s) → con_at o i p s → con_at o i p s'.
Proof.
  intros E [Hs Hp]. split; [by apply (con_core s)|].
  unfold core in E. injection E as _ Ep. unfold printers in *. by rewrite Ep.
Qed.

(** A condition that what does not touch the queue nor the printers keeps. *)
Definition local (Pre : pprd → Prop) : Prop :=
  (∀ s, Pre s → con o s) ∧ (∀ s s', core (tb s') = core (tb s) → Pre s → Pre s').

Lemma local_con : local (con o).
Proof. split; [done | apply con_core]. Qed.

Lemma local_con_at i p : local (con_at o i p).
Proof. split; [by intros ? [] | intros ? ?; apply con_at_core]. Qed.

Lemma leads_ret {A} Pre (a : A) : local Pre → leads Pre o (mret a).
Proof. intros [Hl _] s Hs. by apply wp_ret, Hl. Qed.

Lemma leads_bind {A B} Pre (m : P A) (f : A → P B) :
  leads Pre o m → (∀ a, leads (con o) o (f a)) → leads Pre o (m ≫= f).
Proof.
  intros Hm Hf s Hs. apply wp_bind. eapply wp_mono; [by apply Hm | | auto | auto].
  intros a s' Hs'. by apply Hf.
Qed.

Lemma leads_bind_frames {A B} Pre (m : P A) (f : A → P B) :
  local Pre → frames core m → (∀ a, leads Pre o (f a)) → leads Pre o (m ≫= f).
Proof.
  intros [Hl Hloc] Hm Hf s Hs.
  apply (wp_bind_frames core); [done | | | done].
  - intros a s' E. apply Hf. by apply (Hloc s).
  - intros e s' E. apply Hl. by apply (Hloc s).
Qed.

Lemma leads_bind_get_printer {B} i (f : Printer → P B) :
  (∀ p, leads (con_at o i p) o (f p)) → leads (con o) o (get_printer i ≫= f).
Proof.
  intros Hf s Hs. apply wp_bind, wp_get_printer; [|done]. intros p Hp. by apply Hf.
Qed.

Lemma leads_weaken {A} i p (m : P A) : leads (con o) o m → leads (con_at o i p) o m.
Proof. intros Hm s [Hs _]. by apply Hm. Qed.

Lemma leads_frames {A} Pre (m : P A) : local Pre → frames core m → leads Pre o m.
Proof.
  intros [Hl Hloc] Hm s Hs. eapply wp_mono; [apply Hm | | | auto];
    intros ? s' E; apply Hl; by apply (Hloc s).
Qed.

Lemma leads_when Pre (b : bool) m :
  local Pre → (b = true → leads Pre o m) → leads Pre o (when b m).
Proof. destruct b; [auto | intros; by apply leads_ret]. Qed.

Lemma leads_for {B} n lo (body : Z → P (option B)) :
  (∀ y, leads (con o) o (body y)) → leads (con o) o (for_loop n lo body).
Proof.
  revert lo. induction n as [|n IH]; intros lo Hb; simpl; [apply leads_ret, local_con|].
  apply leads_bind; [apply Hb|]. intros [b|]; [apply leads_ret, local_con | auto].
Qed.

Lemma leads_for_each n lo (body : Z → P unit) :
  (∀ y, leads (con o) o (body y)) → leads (con o) o (for_each n lo body).
Proof.
  intros Hb. apply leads_bind; [|intros; apply leads_ret, local_con].
  apply leads_for. intros y.
  apply leads_bind; [apply Hb | intros; apply leads_ret, local_con].
Qed.

Lemma leads_for_queue {B} (body : Z → P (option B)) :
  (∀ y, leads (con o) o (body y)) → leads (con o) o (for_queue body).
Proof.
  intros Hb. apply leads_bind; [by intros s Hs|]. intros. by apply leads_for.
Qed.

(** ** Changes to a job or a printer *)

Lemma resting_job s i x f :
  resting i s → tame f →
  resting i (on_tb (λ t, set_t_queue (upd_index x f (t_queue t)) t) s).
Proof.
  intros [Hn (p & Hp & Hr)] Hf. pose proof (at_index_lt _ _ _ Hp) as Hi. split.
  - apply nothing_on_job; [lia | done | done].
  - by exists p.
Qed.

Lemma leads_job_upd j f : tame f → leads (con o) o (job_upd j f).
Proof.
  intros Hf s Hs. destruct j as [x|].
  - apply wp_job_upd_q; [|done]. intros e _. destruct Hs as [Hc Hr].
    split; [by apply (consistent_job x f)|]. destruct o; [by apply resting_job | done].
  - apply wp_job_upd_new. by apply (con_core s).
Qed.

(** What stays of a printer whose settings or counters change. *)
Definition same_work (p q : Printer) : Prop :=
  p_status q = p_status p ∧ pkey q = pkey p ∧ p_job_pid q = p_job_pid p.

Lemma con_printer s i f p :
  con o s → at_index (printers s) i = Some p → same_work p (f p) →
  con o (on_tb (λ t, set_t_printers (upd_index i f (t_printers t)) t) s).
Proof.
  intros [Hc Hr] Hp (Es & Ek & Epid). split.
  - apply (consistent_printer i f p); [done | | | done].
    + unfold printer_ok. rewrite Es, Epid. destruct Hc as [_ _ _ Hps].
      apply at_index_Some in Hp as [_ Hp]. exact (Forall_lookup_1 _ _ _ _ Hps Hp).
    + destruct (has_job (p_status p)) eqn:Hb.
      * right. by rewrite Es, Ek.
      * left. by eapply consistent_nothing_on.
  - destruct o as [k|]; [|done]. destruct Hr as [Hn (q & Hq & Hi & Hpid)].
    split; [done|]. pose proof (at_index_lt _ _ _ Hp) as Hlt.
    destruct (decide (i = k)) as [->|Hne].
    + assert (q = p) as -> by congruence. exists (f p). unfold printers, on_tb. simpl.
      rewrite (at_index_upd _ _ _ p) by done. by rewrite Es, Epid.
    + exists q. unfold printers, on_tb. simpl. by rewrite at_index_upd_ne by (lia || done).
Qed.

Lemma leads_upd_printer i f :
  (∀ p, same_work p (f p)) → leads (con o) o (upd_printer i f).
Proof.
  intros Hf s Hs. apply wp_upd_printer; [|done]. intros p Hp. by apply (con_printer s i f p).
Qed.
End leads.

#[export] Hint Extern 2 (frames core _) =>
  apply frames_reads; solve [eauto 2 with reads] : con.

Lemma core_lock : frames core lock.
Proof. by apply frames_tb. Qed.

Lemma core_unlock : frames core unlock.
Proof. by apply frames_tb. Qed.
#[export] Hint Resolve local_con local_con_at core_lock core_unlock : con.
#[export] Hint Resolve core_lock core_unlock : frames.

(** A routine that changes neither the queue nor the printers. *)
Ltac core_frame :=
  solve [eauto 2 with con | frame_routine | apply frames_tb; intros; by case_match].

Ltac con_step :=
  lazymatch goal with
  | |- ∀ _, _ => intro
  | |- leads (con _) _ (get_printer _ ≫= _) => apply leads_bind_get_printer
  | |- leads _ _ (_ ≫= _) =>
      first [apply leads_bind_frames; [eauto 2 with con | core_frame |]
            | apply leads_bind]
  | |- leads _ _ (mret _) => apply leads_ret; eauto 2 with con
  | |- leads _ _ (when _ _) => apply leads_when; [solve [eauto 2 with con] |]
  | |- leads (con _) _ (for_loop _ _ _) => apply leads_for
  | |- leads (con _) _ (for_each _ _ _) => apply leads_for_each
  | |- leads (con _) _ (for_queue _) => apply leads_for_queue
  | |- leads _ _ (if ?b then _ else _) => destruct b eqn:?
  | |- leads _ _ (match ?x with _ => _ end) => destruct x eqn:?
  | |- leads _ _ (let _ := _ in _) => cbv zeta
  | |- leads (con _) _ (upd_printer _ _) => apply leads_upd_printer; done
  | |- leads (con _) _ (upd_pstate _ _) => apply leads_upd_printer; done
  | |- leads (con _) _ (job_upd _ _) =>
      apply leads_job_upd; solve [intros ?; split; [done | auto]]
  | |- leads (con _) _ _ =>
      first [solve [eauto 2 with con] | apply leads_frames; [eauto 2 with con | core_frame]]
  | |- leads _ _ _ =>
      first [solve [eauto 2 with con]
            | apply leads_frames; [eauto 2 with con | core_frame]
            | apply leads_weaken]
  end.

Ltac con_routine := repeat con_step.

(** The tests a routine has made show that the printer is not at work. *)
Ltac not_at_work :=
  match goal with
  | H : _ = true |- has_job (p_status ?p) = false =>
      rewrite ?orb_true_iff, ?Z.eqb_eq in H; destruct_or?; rewrite H; reflexivity
  end.

Section routines.
Context `{PPRConfig}.

(** ** A printer's new status *)

(** Which status is [Some i]'s business: it must not become idle. *)
Definition may_enter (o : option Z) (i st : Z) : Prop :=
  match o with Some k => k ≠ i ∨ st ≠ PRNSTATUS_IDLE | None => True end.

Lemma con_entered o i st p f s s' :
  con o s → at_index (printers s) i = Some p → may_enter o i st →
  has_job st = true ∨ (nothing_on i (tb s) ∧ p_job_pid p ≤ 0) →
  printers s' = upd_index i f (printers s) →
  besides_printers (tb s') = besides_printers (tb s) →
  p_status (f p) = st → pkey (f p) = pkey p → p_job_pid (f p) = p_job_pid p →
  con o s'.
Proof.
  intros [Hc Hr] Hp Hm Hst Ep Eb Es Ek Epid.
  assert (t_queue (tb s') = t_queue (tb s)) as Eq
    by (by apply (f_equal t_queue) in Eb).
  apply (con_core o (on_tb (λ t, set_t_printers (upd_index i f (t_printers t)) t) s)).
  { unfold core. simpl. rewrite Eq. f_equal. exact Ep. }
  split.
  - apply (consistent_printer i f p); [done | | | done].
    + unfold printer_ok. rewrite Es, Epid. destruct Hst as [->|[_ ?]]; [done | lia].
    + destruct Hst as [Hst|[Hn _]]; [right; by rewrite Es | by left].
  - destruct o as [k|]; [|done]. destruct Hr as [Hn (q & Hq & Hi & Hpid)].
    split; [done|]. pose proof (at_index_lt _ _ _ Hp) as Hlt.
    destruct (decide (i = k)) as [->|Hne].
    + assert (q = p) as -> by congruence. exists (f p).
      unfold printers, on_tb. simpl. rewrite (at_index_upd _ _ _ p) by done.
      rewrite Es, Epid. by destruct Hm as [|Hm].
    + exists q. unfold printers, on_tb. simpl. by rewrite at_index_upd_ne by (lia || done).
Qed.

Lemma con_printer_new_status o i st p s :
  con o s → at_index (printers s) i = Some p → may_enter o i st →
  has_job st = true ∨ (nothing_on i (tb s) ∧ p_job_pid p ≤ 0) →
  wp (printer_new_status i st) (λ _, con o) (λ _, con o) (λ _, True) s.
Proof.
  intros Hs Hp Hm Hst. destruct (decide (p_status p = PRNSTATUS_DELETED)) as [Hd|Hd].
  - apply (wp_printer_new_status_deleted i st p); [done..|].
    intros s' E. apply (con_core o s); [by rewrite E | done].
  - apply (wp_printer_new_status i st p); [done..| |].
    + intros s' [Ep Eb] _. apply (con_entered o i st p (entered st (w_now (io s))) s); try done;
        unfold entered; by destruct (_ && _).
    + intros _ s' Eb (f & Ep & Hf). destruct (Hf p) as (? & ? & ? & ? & ?).
      apply (con_entered o i st p f s); try done. unfold pkey. congruence.
Qed.

Lemma leads_new_status_work i st :
  has_job st = true → leads (con None) None (printer_new_status i st).
Proof.
  intros Hst s Hs. destruct (at_index (printers s) i) as [p|] eqn:Hp.
  - apply (con_printer_new_status None i st p); [done..|by left].
  - apply wp_bind, wp_modify, wp_bind, wp_get_printer; [|done].
    intros p Hp'. unfold printers in *. simpl in Hp'. congruence.
Qed.

(** A printer that is not at work takes any status. *)
Lemma leads_new_status_at o i st p :
  has_job (p_status p) = false → may_enter o i st →
  leads (con_at o i p) o (printer_new_status i st).
Proof.
  intros Hst Hm s [Hs Hp]. apply (con_printer_new_status o i st p); [done..|]. right.
  destruct Hs as [Hc _]. split; [by eapply consistent_nothing_on | by eapply consistent_no_process].
Qed.

(** ** The queue *)

Lemma reads_queue_write_status_and_flags j : reads (queue_write_status_and_flags j).
Proof. unfold queue_write_status_and_flags. read_routine. Qed.
Hint Resolve reads_queue_write_status_and_flags reads_save_printer_state
  reads_save_group_state : reads.

Lemma reads_unlink_job_file p d q i j : reads (unlink_job_file p d q i j).
Proof. unfold unlink_job_file. read_routine. Qed.
Hint Resolve reads_unlink_job_file : reads.

Lemma reads_delete_job_files q i j : reads (delete_job_files q i j).
Proof. unfold delete_job_files. read_routine. Qed.
Hint Resolve reads_delete_job_files : reads.

Lemma leads_queue_p_job_new_status o j st :
  i16 st < 0 → leads (con o) o (queue_p_job_new_status j st).
Proof.
  intros Hst. unfold queue_p_job_new_status. apply leads_bind.
  { apply leads_job_upd. intros e. split; [done | by right]. }
  con_routine.
Qed.

Lemma leads_queue_job_new_status o d i j st :
  i16 st < 0 → leads (con o) o (queue_job_new_status d i j st).
Proof.
  intros Hst. unfold queue_job_new_status. con_routine.
  by apply leads_queue_p_job_new_status.
Qed.

Lemma leads_job_count_adjust o d i f : leads (con o) o (job_count_adjust d i f).
Proof. unfold job_count_adjust. con_routine. Qed.
Hint Resolve leads_job_count_adjust : con.

Lemma leads_remove_queue_entry o x : leads (con o) o (remove_queue_entry x).
Proof.
  intros s [Hc Hr]. apply wp_modify. split; [by apply consistent_remove|].
  destruct o as [k|]; [|done]. destruct Hr as [Hn Hr]. split; [by apply Forall_delete | done].
Qed.
Hint Resolve leads_remove_queue_entry : con.

Lemma leads_queue_dequeue_job o d i j : leads (con o) o (queue_dequeue_job d i j).
Proof. unfold queue_dequeue_job. con_routine. Qed.
Hint Resolve leads_queue_dequeue_job : con.

(** ** Starting a job *)

(** An idle printer takes on a job. *)
Lemma con_engage o i p f s s' :
  con o s → at_index (printers s) i = Some p → p_status p = PRNSTATUS_IDLE →
  printers s' = upd_index i f (printers s) → t_queue (tb s') = t_queue (tb s) →
  has_job (p_status (f p)) = true → con o s'.
Proof.
  intros [Hc Hr] Hp Hst Ep Eq Hb.
  assert (nothing_on i (tb s)) as Hno
    by (eapply consistent_nothing_on; [done | done | by rewrite Hst]).
  apply (con_core o (on_tb (λ t, set_t_printers (upd_index i f (t_printers t)) t) s)).
  { unfold core. simpl. rewrite Eq. f_equal. exact Ep. }
  split.
  - apply (consistent_printer i f p); [done | by intros ? | by left | done].
  - destruct o as [k|]; [|done]. destruct Hr as [Hn (q & Hq & Hi & Hpid)].
    split; [done|]. exists q. pose proof (at_index_lt _ _ _ Hp) as Hlt.
    unfold printers, on_tb. simpl. rewrite at_index_upd_ne; [done | lia |].
    intros ->. assert (q = p) as -> by congruence. done.
Qed.

(** The job of a printer that is at work gets the printer's number. *)
Lemma con_assign_job o d i j prn q s :
  con o s → at_index (printers s) prn = Some q → has_job (p_status q) = true →
  pkey q = (d, i, j) → o ≠ Some prn →
  wp (queue_job_new_status d i j prn) (λ _, con o) (λ _, con o) (λ _, True) s.
Proof.
  intros Hs Hq Hb Kq Ho. unfold queue_job_new_status.
  assert (con_at o prn q (on_tb (λ t, set_t_lock_level (t_lock_level t + 1) t) s)) as Hs1
    by (by apply (con_at_core o prn q s)).
  apply wp_bind, wp_modify, wp_bind, wp_bind, wp_gets.
  apply (wp_for (λ _, con_at o prn q)); [done | |].
  - intros x s' _ Hs'. clear s Hs Hs1 Hq. rename s' into s. destruct Hs' as [Hs Hq].
    apply wp_bind, wp_job_get_q; [|done]. intros e He.
    destruct (is_job d i j e) eqn:Hjob; [|done].
    apply wp_bind. unfold queue_p_job_new_status.
    assert (con o (on_tb (λ t, set_t_queue (upd_index x (set_q_status (i16 prn)) (t_queue t)) t) s))
      as Hs'.
    { destruct Hs as [Hc Hr]. pose proof (at_index_lt _ _ _ Hq) as Hlt.
      pose proof (con_count _ Hc) as Hcount.
      rewrite i16_small by (unfold printers, MAX_PRINTERS in *; lia).
      split; [|destruct o as [k|]; [|done]].
      - apply (consistent_assign x prn e q); try done. rewrite Kq. unfold key.
        unfold is_job in Hjob. rewrite !andb_true_iff, !Z.eqb_eq in Hjob.
        by destruct Hjob as [[-> ->] ->].
      - destruct Hr as [Hn Hr]. split; [|done]. apply Forall_alter; [done|].
        intros e' _ _. simpl. by intros ->. }
    apply wp_bind, wp_job_upd_q; [|done]. intros _ _.
    eapply wp_mono; [| | intros e' s'; exact id | done].
    + apply (leads_frames o (con o)); [apply local_con | | exact Hs'].
      frame_routine.
    + intros a s' Hs2. apply wp_ret, wp_bind, wp_modify, wp_ret. by apply (con_core o s').
  - intros s' [Hs' _]. done.
Qed.

Lemma leads_starve o i p :
  has_job (p_status p) = false → leads (con_at o i p) o (starve i).
Proof.
  intros Hp. unfold starve. apply leads_bind.
  - apply leads_new_status_at; [done|]. destruct o; [by right | done].
  - con_routine.
Qed.

Lemma core_mark_last_used d i : frames core (mark_last_used d i).
Proof. unfold mark_last_used. frame_routine. Qed.
Hint Resolve core_mark_last_used : con.
Hint Resolve reads_pprdrv_exec : reads.

Lemma leads_started o i p pid job :
  p_status p = PRNSTATUS_IDLE →
  leads (con_at o i p) o
     (upd_printer i (remember_job pid job);;
      printer_new_status i PRNSTATUS_PRINTING;;
      queue_job_new_status (q_destid job) (q_id job) (q_subid job) i;;
      mark_last_used (q_destid job) i;;
      mret 0).
Proof.
  intros Hst s [Hs Hp]. assert (o ≠ Some i) as Ho.
  { intros ->. destruct Hs as [_ [_ (q & Hq & ? & _)]]. congruence. }
  apply wp_bind, wp_upd_printer; [|done]. intros _ _.
  set (s1 := on_tb _ s). assert (at_index (printers s1) i = Some (remember_job pid job p)) as Hp1
    by (by apply at_index_upd).
  apply wp_bind, (wp_printer_new_status i _ (remember_job pid job p)); [done | | |].
  { change (p_status p ≠ PRNSTATUS_DELETED). by rewrite Hst. }
  - intros s2 [Ep Eb] _.
    pose (f := λ q, entered PRNSTATUS_PRINTING (w_now (io s1)) (remember_job pid job q)).
    assert (printers s2 = upd_index i f (printers s)) as Ep2
      by (rewrite Ep; apply (upd_index_compose i _ (remember_job pid job))).
    apply wp_bind. eapply wp_mono.
    + apply (con_assign_job o _ _ _ i (f p)); [| | done | done | done].
      * apply (con_engage o i p f s); try done. by apply (f_equal t_queue) in Eb.
      * rewrite Ep2. by apply at_index_upd.
    + intros a s3 Hs3. revert s3 Hs3. change (leads (con o) o (mark_last_used (q_destid job) i;; mret 0)).
      con_routine.
    + done.
    + done.
  - intros e s2 Eb (f & Ep & Hf).
    apply (con_engage o i p (λ q, f (remember_job pid job q)) s); [done.. | | |].
    + rewrite Ep. apply (upd_index_compose i f (remember_job pid job)).
    + by apply (f_equal t_queue) in Eb.
    + by destruct (Hf (remember_job pid job p)) as [-> _].
Qed.

Ltac idle_printer :=
  match goal with
  | H : negb (p_status ?p =? PRNSTATUS_IDLE) = false |- _ =>
      apply negb_false_iff, Z.eqb_eq in H; rewrite H; reflexivity
  end.

Lemma leads_pprdrv_start o i j : leads (con o) o (pprdrv_start i j).
Proof.
  unfold pprdrv_start.
  repeat (first
    [ solve [apply leads_starve; idle_printer]
    | solve [apply leads_started; idle_printer]
    | con_step ]).
Qed.
Hint Resolve leads_pprdrv_start : con.

Lemma leads_printer_start o i j : leads (con o) o (printer_start i j).
Proof. unfold printer_start. con_routine. Qed.
Hint Resolve leads_printer_start reads_may_print : con reads.

Lemma leads_printer_look_for_work o i : leads (con o) o (printer_look_for_work i).
Proof. unfold printer_look_for_work. con_routine. Qed.
Hint Resolve leads_printer_look_for_work : con.

Lemma leads_for_members o g body :
  (∀ i, leads (con o) o (body i)) → leads (con o) o (for_members g body).
Proof. intros Hb. unfold for_members. con_routine. Qed.

Lemma leads_group_look_for_work o g : leads (con o) o (group_look_for_work g).
Proof. apply leads_for_members. con_routine. Qed.

Lemma leads_try_members o n g y j : leads (con o) o (try_members n g y j).
Proof. revert y. induction n as [|n IH]; intros y; simpl; con_routine. Qed.
Hint Resolve leads_group_look_for_work leads_try_members : con.

Lemma leads_printer_try_start o j :
  leads (con o) o (printer_try_start_suitable_4_this_job j).
Proof. unfold printer_try_start_suitable_4_this_job. con_routine. Qed.
Hint Resolve leads_printer_try_start : con.

Ltac con_command :=
  repeat (first
    [ lazymatch goal with
      | |- leads (con_at _ _ _) _ (printer_new_status _ _) =>
          apply leads_new_status_at; [solve [not_at_work] | exact I]
      end
    | con_step ]).

(** ** The clock *)

Definition retrying (st : PRINTER_SPOOL_STATE) : bool :=
  ((ps_status st =? PRNSTATUS_FAULT) && negb (ps_next_error_retry st =? 0))
  || (ps_status st =? PRNSTATUS_ENGAGED).

Lemma retrying_no_job st : retrying st = true → has_job (ps_status st) = false.
Proof.
  unfold retrying, has_job.
  rewrite orb_true_iff, andb_true_iff, !Z.eqb_eq. by intros [[-> _]| ->].
Qed.

(** The printer whose time has come is not at work. *)
Lemma wp_retry_expired x s :
  con None s →
  wp (retry_expired x) (λ b s', con None s' ∧
      (b = true → ∃ p, at_index (printers s') x = Some p ∧ has_job (p_status p) = false))
    (λ _, con None) (λ _, True) s.
Proof.
  intros Hs. unfold retry_expired. apply wp_bind, wp_get_printer; [|done]. intros p Hp.
  fold (retrying (p_spool_state p)). cbv zeta.
  destruct (retrying (p_spool_state p)) eqn:Hr; [|by apply wp_ret].
  apply wp_bind, wp_c_int; [|done]. intros _.
  apply wp_bind, wp_upd_printer; [|done]. intros _ _. apply wp_ret. split.
  - by apply (con_printer None s x _ p).
  - intros _. eexists. split; [by apply at_index_upd|]. by apply retrying_no_job in Hr.
Qed.

Lemma leads_retry x :
  leads (con None) None
    (b ← retry_expired x;
     when b (printer_new_status x PRNSTATUS_IDLE;; printer_look_for_work x)).
Proof.
  intros s Hs. apply wp_bind. eapply wp_mono; [by apply wp_retry_expired | | auto | auto].
  intros b s' [Hs' Hb]. apply wp_when; [|done]. intros E.
  destruct (Hb E) as (p & Hp & Hst). apply wp_bind.
  eapply wp_mono; [apply (leads_new_status_at None x _ p); done | | auto | auto].
  intros a s2. apply leads_printer_look_for_work.
Qed.

Lemma leads_feed_one : leads (con None) None feed_one.
Proof. unfold feed_one. con_command. Qed.
Hint Resolve leads_feed_one : con.

Lemma leads_printer_tick : leads (con None) None printer_tick.
Proof. unfold printer_tick. repeat (first [apply leads_retry | con_step]). Qed.
End routines.

#[export] Hint Resolve reads_queue_write_status_and_flags reads_save_printer_state
  reads_save_group_state reads_unlink_job_file reads_delete_job_files
  reads_may_print reads_pprdrv_exec : reads.
#[export] Hint Resolve leads_job_count_adjust leads_queue_dequeue_job
  leads_printer_look_for_work leads_group_look_for_work leads_printer_try_start
  leads_printer_tick core_mark_last_used : con.
