(* ===== verification/ConsistentExit.v ===== *)
(** The end of a pprdrv process keeps the consistency of Consistency.v: by the
    time the printer is given a new status, its job is no longer marked as
    printing on it. *)
From S2P Require Import Prelude.
From S2P Require Import Text.
From S2P Require Import Spooler.
From S2P Require Import SpoolerFacts.
From S2P Require Import Destid.
From S2P Require Import QueueStatus.
From S2P Require Import Media.
From S2P Require Import Printer.
From S2P Require Import PprdrvExit.
From S2P Require Import PpopPrinters.
From S2P Require Import Change.
From S2P Require Import Refine.
From S2P Require Import Effects.
From S2P Require Import Consistency.

(** ** Results *)

(** What the routine returns has [Q]. *)
Definition gives {A} (Q : A → Prop) (m : P A) : Prop :=
  ∀ s, wp m (λ a _, Q a) (λ _ _, True) (λ _, True) s.

Section gives.
Context {A : Type} (Q : A → Prop).

Lemma gives_bind {B} (m : P B) (f : B → P A) : (∀ b, gives Q (f b)) → gives Q (m ≫= f).
Proof.
  intros Hf s. apply wp_bind. unfold wp at 1. destruct (m s) as [b s' | |]; [|done..].
  apply Hf.
Qed.

Lemma gives_bind_from {B} (Q' : B → Prop) (m : P B) (f : B → P A) :
  (∀ s, wp m (λ b _, Q' b) (λ _ _, True) (λ _, True) s) →
  (∀ b, Q' b → gives Q (f b)) → gives Q (m ≫= f).
Proof.
  intros Hm Hf s. apply wp_bind. specialize (Hm s). unfold wp in Hm |- * at 1.
  destruct (m s) as [b s' | |]; [|done..]. by apply Hf.
Qed.

Lemma gives_ret a : Q a → gives Q (mret a).
Proof. by intros Ha s. Qed.

Lemma gives_if (b : bool) (m1 m2 : P A) :
  gives Q m1 → gives Q m2 → gives Q (if b then m1 else m2).
Proof. by destruct b. Qed.

Lemma gives_stop c msg : gives Q (fatal c msg).
Proof. by intros s. Qed.
End gives.

(** The job's next status, which never claims that it is printing. *)
Definition lets_go (r : Z * Z * Z) : Prop := i16 r.1.2 < 0.

Ltac give_step :=
  lazymatch goal with
  | |- ∀ _, _ => intro
  | |- gives _ (_ ≫= _) => apply gives_bind
  | |- gives _ (mret _) => apply gives_ret; done
  | |- gives _ (fatal _ _) => apply gives_stop
  | |- gives _ (if ?b then _ else _) => destruct b
  | |- gives _ (match ?x with _ => _ end) => destruct x
  | |- gives _ (let _ := _ in _) => cbv zeta
  end.

(** ** The printer whose process has ended *)

Definition at_work (i : Z) (t : tables) : option (Z * (Z * Z * Z) * Z) :=
  (λ p, (p_status p, pkey p, p_job_pid p)) <$> at_index (t_printers t) i.

Definition exiting (i : Z) (s : pprd) : Prop :=
  con None s ∧ ∃ p, at_index (printers s) i = Some p
    ∧ has_job (p_status p) = true ∧ p_job_pid p ≤ 0.

Lemma at_work_upd i k f l :
  (∀ p, same_work p (f p)) →
  (λ p, (p_status p, pkey p, p_job_pid p)) <$> at_index (upd_index k f l) i
  = (λ p, (p_status p, pkey p, p_job_pid p)) <$> at_index l i.
Proof.
  intros Hf. unfold at_index, upd_index. destruct (Z.leb_spec 0 i); [|done].
  destruct (decide (Z.to_nat k = Z.to_nat i)) as [->|Hne].
  - rewrite list_lookup_alter_eq. destruct (l !! Z.to_nat i) as [p|]; simpl; [|done].
    by destruct (Hf p) as (-> & -> & ->).
  - by rewrite list_lookup_alter_ne.
Qed.

Ltac work_frame :=
  repeat (first
    [ lazymatch goal with
      | |- frames (at_work _) (upd_printer _ _) =>
          apply frames_upd_printer; intros; apply at_work_upd; done
      | |- frames (at_work _) (upd_pstate _ _) =>
          apply frames_upd_printer; intros; apply at_work_upd; done
      end
    | frame_step ]).

Lemma exiting_frames i s s' :
  exiting i s → con None s' → at_work i (tb s') = at_work i (tb s) → exiting i s'.
Proof.
  intros [_ (p & Hp & Hb & Hpid)] Hs' E. split; [done|].
  unfold at_work in E. unfold printers in Hp. rewrite Hp in E. simpl in E.
  unfold printers. destruct (at_index (t_printers (tb s')) i) as [q|]; [|done].
  simpl in E. injection E as Es _ _ _ Epid. exists q. by rewrite Es, Epid.
Qed.

(** A routine that keeps the state consistent and lets the printer be. *)
Lemma wp_exiting {A} i (m : P A) s :
  exiting i s → leads (con None) None m → frames (at_work i) m →
  wp m (λ _, exiting i) (λ _, con None) (λ _, True) s.
Proof.
  intros Hs Hm Hf. eapply wp_mono; [apply wp_and; [apply (Hm s), Hs | apply Hf] | | |].
  - intros a s' [Hc E]. by apply (exiting_frames i s).
  - by intros e s' [? _].
  - done.
Qed.

(** ** The job leaves the printer *)

Section jobs.
Context (i : Z) (t : tables).

(** Only the printer's own job can be marked as printing on it. *)
Lemma nothing_on_if p :
  consistent t → at_index (t_printers t) i = Some p →
  Forall (λ e, key e ≠ pkey p) (t_queue t) → nothing_on i t.
Proof.
  intros [_ _ Hj _] Hp Hno. unfold nothing_on. rewrite Forall_forall in *.
  intros e He <-. pose proof (at_index_lt _ _ _ Hp) as Hi.
  destruct (Hj e He (proj1 Hi)) as (q & Hq & _ & Kq).
  apply (Hno e He). congruence.
Qed.

Lemma other_keys x e :
  consistent t → t_queue t !! x = Some e →
  ∀ y e', t_queue t !! y = Some e' → y ≠ x → key e' ≠ key e.
Proof.
  intros [_ Hk _ _] Hx y e' Hy Hne K. apply Hne.
  apply (NoDup_lookup (key <$> t_queue t) y x (key e)); [exact Hk | |];
    rewrite list_lookup_fmap, ?Hx, ?Hy; simpl; congruence.
Qed.

Lemma nothing_on_removed x e p :
  consistent t → at_index (t_printers t) i = Some p →
  t_queue t !! x = Some e → key e = pkey p →
  nothing_on i (set_t_queue (delete x (t_queue t)) t).
Proof.
  intros Hc Hp Hx K. pose proof (consistent_remove x t Hc) as Hc'.
  revert Hc'. set (t' := set_t_queue _ t). intros Hc'.
  pose proof (at_index_lt _ _ _ Hp) as Hi.
  unfold nothing_on. rewrite Forall_forall. intros e' He' Hst.
  destruct Hc' as [_ _ Hj _]. rewrite Forall_forall in Hj.
  destruct (Hj e' He') as (q & Hq & _ & Kq); [lia|]. rewrite Hst in Hq.
  assert (q = p) as -> by (unfold t' in Hq; simpl in Hq; congruence).
  apply list_elem_of_lookup in He' as [y Hy]. simpl in Hy.
  destruct (decide (y < x)%nat) as [Hlt|Hge].
  - rewrite list_lookup_delete_lt in Hy by done.
    apply (other_keys x e Hc Hx y e' Hy); [lia | congruence].
  - rewrite list_lookup_delete_ge in Hy by lia.
    apply (other_keys x e Hc Hx (S y) e' Hy); [lia | congruence].
Qed.

Lemma nothing_on_released x e p st :
  consistent t → at_index (t_printers t) i = Some p →
  at_index (t_queue t) x = Some e → key e = pkey p → st < 0 →
  nothing_on i (set_t_queue (upd_index x (set_q_status st) (t_queue t)) t).
Proof.
  intros Hc Hp [_ Hx]%at_index_Some K Hst. pose proof (at_index_lt _ _ _ Hp) as Hi.
  unfold nothing_on. rewrite Forall_forall. intros e' He' Hs.
  apply list_elem_of_lookup in He' as [y Hy]. unfold upd_index in Hy. simpl in Hy.
  destruct (decide (y = Z.to_nat x)) as [->|Hne].
  - rewrite list_lookup_alter_eq, Hx in Hy. simplify_eq/=. lia.
  - rewrite list_lookup_alter_ne in Hy by done.
    pose proof (con_jobs _ Hc) as Hj. rewrite Forall_forall in Hj.
    destruct (Hj e') as (q & Hq & _ & Kq); [by eapply list_elem_of_lookup_2 | lia |].
    apply (other_keys _ e Hc Hx y e' Hy Hne). congruence.
Qed.
End jobs.

Lemma is_job_key d i j e : is_job d i j e = true ↔ key e = (d, i, j).
Proof.
  rewrite is_job_true. unfold key. split; [by intros (-> & -> & ->) | by intros [= -> -> ->]].
Qed.

Lemma no_job_key d i j l :
  Forall (λ e, is_job d i j e = false) l → Forall (λ e, key e ≠ (d, i, j)) l.
Proof. intros Hl. eapply Forall_impl; [exact Hl|]. intros e He K%is_job_key. congruence. Qed.

Section exit.
Context `{PPRConfig}.

Lemma con_some_none i s : con (Some i) s → con None s.
Proof. by intros [? _]. Qed.

Lemma exiting_resting i s s' :
  exiting i s → consistent (tb s') → printers s' = printers s → nothing_on i (tb s') →
  con (Some i) s'.
Proof.
  intros [_ (p & Hp & Hb & Hpid)] Hc Ep Hn. split; [done|]. split; [done|].
  exists p. rewrite Ep. repeat split; [done | | done]. intros E. by rewrite E in Hb.
Qed.

(** From here on the printer has no job, or an exception has ended it all. *)
Definition lets_go_of {A} (i : Z) (m : P A) (s : pprd) : Prop :=
  wp m (λ _, con (Some i)) (λ _, con None) (λ _, True) s.

Lemma lets_go_leads {A} i (m : P A) s :
  con (Some i) s → leads (con (Some i)) (Some i) m → lets_go_of i m s.
Proof.
  intros Hs Hm. eapply wp_mono; [by apply Hm | auto | | auto].
  intros e s'. apply con_some_none.
Qed.

Lemma exiting_core i s s' : core (tb s') = core (tb s) → exiting i s → exiting i s'.
Proof.
  intros E [Hc Hp]. split; [by apply (con_core None s)|].
  unfold core in E. injection E as _ Ep. unfold printers in *. by rewrite Ep.
Qed.

Lemma lets_go_dequeue i p s :
  exiting i s → at_index (printers s) i = Some p →
  lets_go_of i (queue_dequeue_job (p_job_destid p) (p_job_id p) (p_job_subid p)) s.
Proof.
  intros Hs Hp. unfold lets_go_of, queue_dequeue_job.
  assert (∀ s', tb s' = tb s → exiting i s' ∧ at_index (printers s') i = Some p) as Hsame.
  { intros s' E. split; [|unfold printers in *; by rewrite E].
    apply (exiting_core i s); [by rewrite E | done]. }
  assert (∀ s', tb s' = tb s → con None s') as Hnone by (intros s' E; by destruct (Hsame s' E) as [[? _] _]).
  apply wp_bind_reads; [eauto with reads | | auto | done]. intros name s1 E1.
  apply wp_bind_reads; [eauto with reads | | intros; apply Hnone; congruence | done].
  intros full s2 E2. apply wp_bind, wp_modify, wp_bind, wp_modify.
  set (s3 := on_tb _ _). assert (core (tb s3) = core (tb s)) as E3
    by (unfold s3; simpl; by rewrite E2, E1).
  clearbody s3.
  apply (exiting_core i s s3) in Hs as Hs3; [|done].
  assert (at_index (printers s3) i = Some p) as Hp3
    by (pose proof (f_equal snd E3) as Ep; unfold printers in *; simpl in Ep; by rewrite Ep).
  clear E3 Hsame Hnone Hs Hp E1 E2 s1 s2 s.
  apply wp_bind, wp_first_job.
  - intros x e He K%is_job_key _.
    apply wp_bind_reads; [apply reads_delete_job_files | | | done].
    2: { intros e' s' E. apply (con_core None s3); [by rewrite E | apply Hs3]. }
    intros _ s4 E4. apply wp_bind, wp_modify.
    apply wp_bind. eapply wp_mono; [apply (lets_go_leads i) | | done | done].
    + apply (exiting_resting i s3); [done | | exact (f_equal t_printers E4) |].
      * apply consistent_remove. rewrite E4. apply Hs3.
      * simpl. rewrite E4. apply at_index_Some in He as [_ He].
        apply (nothing_on_removed i _ _ e p); [apply Hs3 | done | done | done].
    + apply leads_job_count_adjust.
    + intros a s6 Hs6. apply wp_ret, wp_modify. by apply (con_core (Some i) s6).
  - intros Hno%no_job_key. apply wp_modify. apply (con_core (Some i) s3); [done|].
    apply (exiting_resting i s3); [done | apply Hs3 | done|].
    apply (nothing_on_if i _ p); [apply Hs3 | done | done].
Qed.

Lemma lets_go_new_status i p st s :
  exiting i s → at_index (printers s) i = Some p → i16 st < 0 →
  lets_go_of i (queue_job_new_status (p_job_destid p) (p_job_id p) (p_job_subid p) st) s.
Proof.
  intros Hs Hp Hst. unfold lets_go_of, queue_job_new_status.
  apply wp_bind, wp_modify. set (s1 := on_tb _ _).
  apply (exiting_core i s s1) in Hs as Hs1; [|done].
  assert (at_index (printers s1) i = Some p) as Hp1 by done.
  clearbody s1. clear Hs Hp s. apply wp_bind, wp_first_job; [|done].
  intros x e He K%is_job_key _. unfold queue_p_job_new_status.
  apply wp_bind, wp_bind, wp_job_upd_q; [|done]. intros _ _. set (s2 := on_tb _ _).
  assert (con (Some i) s2) as Hs2.
  { apply (exiting_resting i s1); [done | | done |].
    - apply (consistent_job x _ (tb s1)); [|apply Hs1]. intros e'. split; [done | by right].
    - apply (nothing_on_released i _ x e p); [apply Hs1 | done..]. }
  eapply wp_mono; [apply (lets_go_leads i); [exact Hs2|] | | done | done].
  - apply leads_frames; [apply local_con | frame_routine].
  - intros a s3 Hs3. apply wp_ret, wp_bind, wp_modify, wp_ret.
    by apply (con_core (Some i) s3).
Qed.

Lemma lets_go_dispose i p c st s :
  exiting i s → at_index (printers s) i = Some p → i16 st < 0 →
  lets_go_of i (dispose_of_job i c st) s.
Proof.
  intros Hs Hp Hst. unfold lets_go_of, dispose_of_job.
  apply wp_bind, wp_get_printer; [|done]. intros q Hq.
  assert (q = p) as -> by congruence. destruct (_ || _); apply wp_bind.
  - eapply wp_mono; [by apply lets_go_dequeue | | auto | auto].
    intros a s' Hs'. apply (lets_go_leads i); [done|]. con_routine.
  - eapply wp_mono; [by apply lets_go_new_status | | auto | auto].
    intros x s' Hs'. apply (lets_go_leads i); [done|].
    con_routine.
Qed.

Lemma con_settle i st s :
  con (Some i) s → wp (settle_printer i st) (λ _, con None) (λ _, con None) (λ _, True) s.
Proof.
  intros Hs. unfold settle_printer. apply wp_bind, wp_get_printer; [|done]. intros p Hp.
  apply wp_bind. eapply wp_mono; [apply (con_printer_new_status None i _ p) | | auto | auto].
  - by apply (con_some_none i).
  - done.
  - done.
  - right. destruct Hs as [_ [Hn (q & Hq & _ & Hpid)]].
    assert (q = p) as -> by congruence. done.
  - intros a s' Hs'. revert s' Hs'.
    change (leads (con None) None (p' ← get_printer i;
      when (p_status p' =? PRNSTATUS_IDLE) (printer_look_for_work i))).
    con_routine.
Qed.

(** ** What the exit code makes of it *)

Hint Resolve reads_printer_alert reads_decode_wstat reads_respond_printing
  reads_post_failure_alert reads_exit_signal reads_alert_printer_working : reads.

Lemma leads_printer_succeeded o k : leads (con o) o (printer_succeeded k).
Proof. unfold printer_succeeded. con_routine. Qed.
Hint Resolve leads_printer_succeeded : con.

Lemma leads_exit_incapable o k : leads (con o) o (exit_incapable k).
Proof. unfold exit_incapable. con_routine. Qed.
Hint Resolve leads_exit_incapable : con.

Lemma leads_act_on_exit_code o k w c : leads (con o) o (act_on_exit_code k w c).
Proof. unfold act_on_exit_code. con_routine. Qed.

Lemma leads_act_on_printer_error o k c st : leads (con o) o (act_on_printer_error k c st).
Proof. unfold act_on_printer_error. con_routine. Qed.

Lemma work_lock i : frames (at_work i) lock.
Proof. by apply frames_tb. Qed.

Lemma work_unlock i : frames (at_work i) unlock.
Proof. by apply frames_tb. Qed.
Hint Resolve work_lock work_unlock : frames.

Lemma work_act_on_exit_code i k w c : frames (at_work i) (act_on_exit_code k w c).
Proof. unfold act_on_exit_code, printer_succeeded, exit_incapable. work_frame. Qed.

Lemma work_act_on_printer_error i k c st : frames (at_work i) (act_on_printer_error k c st).
Proof. unfold act_on_printer_error. work_frame. Qed.

Lemma gives_exit_incapable k : gives (λ st, i16 st < 0) (exit_incapable k).
Proof.
  unfold exit_incapable. do 6 give_step. give_step; [|give_step].
  do 2 give_step. apply (gives_bind_from _ (λ st, i16 st < 0)).
  - apply (gives_if (λ st, i16 st < 0)); repeat give_step.
  - intros st Hst. give_step. intros _. by apply gives_ret.
Qed.

Lemma gives_act_on_exit_code k w c : gives lets_go (act_on_exit_code k w c).
Proof.
  unfold act_on_exit_code. repeat (first
    [ lazymatch goal with
      | |- gives _ (exit_incapable _ ≫= _) =>
          apply (gives_bind_from _ (λ st, i16 st < 0)); [apply gives_exit_incapable|];
          intros; apply gives_ret; done
      end
    | give_step ]).
Qed.

(** ** The whole of it *)

Lemma con_pprdrv_exited i p w s :
  con None s → at_index (printers s) i = Some p → 0 < p_job_pid p →
  wp (pprdrv_exited i w) (λ _, con None) (λ _, con None) (λ _, True) s.
Proof.
  intros [Hc _] Hp Hpid. unfold pprdrv_exited.
  apply wp_bind, wp_upd_printer; [|done]. intros _ _. apply wp_bind, wp_modify.
  set (s1 := on_tb _ _).
  assert (exiting i s1) as Hs1.
  { pose proof (con_printers _ Hc) as Hps. apply at_index_Some in Hp as Hl. destruct Hl as [_ Hl].
    pose proof (Forall_lookup_1 _ _ _ _ Hps Hl Hpid) as Hb. split.
    - apply (con_core None (on_tb (λ t, set_t_printers (upd_index i (set_p_job_pid 0) (t_printers t)) t) s));
        [done|]. split; [|done].
      apply (consistent_printer i _ p); [done | by intros ? | by right | done].
    - exists (set_p_job_pid 0 p). repeat split; [by apply at_index_upd | done | done]. }
  clearbody s1. clear Hc Hp Hpid s.
  apply wp_bind. eapply wp_mono; [apply (wp_exiting i); [done | |] | | auto | auto].
  { con_routine. } { frame_routine. }
  intros code s2 Hs2. apply wp_bind.
  eapply wp_mono; [apply wp_and; [apply (wp_exiting i); [exact Hs2 | |] | apply gives_act_on_exit_code] | | |].
  { apply leads_act_on_exit_code. } { apply work_act_on_exit_code. }
  2: { by intros e s' [? _]. } 2: { done. }
  intros [[estat job_status] prn_status0] s3 [Hs3 Hlet]. unfold lets_go in Hlet. simpl in Hlet.
  apply wp_bind. eapply wp_mono; [apply (wp_exiting i); [exact Hs3 | |] | | auto | auto].
  { apply leads_act_on_printer_error. } { apply work_act_on_printer_error. }
  intros prn_status s4 Hs4.
  apply wp_bind. eapply wp_mono; [apply (wp_exiting i); [exact Hs4 | |] | | auto | auto].
  { con_routine. } { frame_routine. }
  intros _a s5 Hs5. apply wp_bind, wp_get_printer; [|done]. intros q Hq.
  apply wp_bind. eapply wp_mono; [apply (wp_exiting i); [exact Hs5 | |] | | auto | auto].
  { con_routine. } { work_frame. }
  intros _b s6 Hs6.
  apply wp_bind. eapply wp_mono; [apply (wp_exiting i); [exact Hs6 | |] | | auto | auto].
  { con_routine. } { frame_routine. }
  intros _c s7 Hs7. apply wp_bind.
  pose proof Hs7 as [_ (r & Hr & _)].
  eapply wp_mono; [apply (lets_go_dispose i r); [done | done | by destruct (p_hold_job q)] | | auto | auto].
  intros _d s8 Hs8. by apply con_settle.
Qed.

Lemma leads_pprdrv_child_hook pid w :
  0 < pid → leads (con None) None (pprdrv_child_hook pid w).
Proof.
  intros Hpid. unfold pprdrv_child_hook.
  con_step. con_step. con_step; [con_step; con_step|con_routine].
  con_step. con_step. con_step; [|con_routine].
  apply leads_bind; [|con_routine].
  intros s [Hs Hp]. apply Z.eqb_eq in Heqb. eapply con_pprdrv_exited; [done | done | lia].
Qed.
End exit.
