(* ===== verification/ConsistentCommands.v ===== *)
(** Questions, media, and the commands about jobs and printers keep the
    consistency of Consistency.v. *)
From S2P Require Import Prelude.
From S2P Require Import Text.
From S2P Require Import Spooler.
From S2P Require Import SpoolerFacts.
From S2P Require Import Destid.
From S2P Require Import QueueStatus.
From S2P Require Import Media.
From S2P Require Import Printer.
From S2P Require Import PprdrvExit.
From S2P Require Import Question.
From S2P Require Import QueueAccept.
From S2P Require Import PpopJobs.
From S2P Require Import PpopPrinters.
From S2P Require Import Ipp.
From S2P Require Import Main.
From S2P Require Import Change.
From S2P Require Import Refine.
From S2P Require Import RefineCommands.
From S2P Require Import RefineMain.
From S2P Require Import Effects.
From S2P Require Import Consistency.
From S2P Require Import ConsistentExit.

Section commands.
Context `{PPRConfig}.

#[local] Abbreviation keeps_con m := (leads (con None) None m).

(** ** Media *)

Lemma wait_reason_group_neg m n s : i16 (wait_reason_group m n s) < 0.
Proof. unfold wait_reason_group. by destruct (_ && _). Qed.

Lemma wait_reason_printer_neg n s : i16 (wait_reason_printer n s) < 0.
Proof. unfold wait_reason_printer. by destruct (_ && _). Qed.

Definition wait_reason (st : Z) : Prop := st = STATUS_WAITING ∨ st = STATUS_WAITING4MEDIA.

Lemma wait_reason_group_ok m n s : wait_reason (wait_reason_group m n s).
Proof. unfold wait_reason_group. destruct (_ && _); [by right | by left]. Qed.

Lemma wait_reason_printer_ok n s : wait_reason (wait_reason_printer n s).
Proof. unfold wait_reason_printer. destruct (_ && _); [by right | by left]. Qed.

Lemma leads_new_wait_reason j st (inqueue : bool) :
  wait_reason st →
  keeps_con (if inqueue then queue_p_job_new_status j st else job_upd j (set_q_status st)).
Proof.
  intros Hst. destruct inqueue.
  - apply leads_queue_p_job_new_status. by destruct Hst as [-> | ->].
  - apply leads_job_upd. intros e. split; [done|]. right. by destruct Hst as [-> | ->].
Qed.

(** Go on from a result that is known to have [Q]. *)
Lemma leads_bind_gives {A B} (Q : A → Prop) (m : P A) (f : A → P B) :
  gives Q m → frames core m → (∀ a, Q a → keeps_con (f a)) → keeps_con (m ≫= f).
Proof.
  intros Hg Hm Hf s Hs. apply wp_bind.
  eapply wp_mono; [apply wp_and; [apply Hg | apply Hm] | | | done].
  - intros a s' [Ha E]. apply (Hf a Ha). by apply (con_core None s).
  - intros e s' [_ E]. by apply (con_core None s).
Qed.

Lemma leads_media_set_job_wait_reason j m b :
  keeps_con (media_set_job_wait_reason j m b).
Proof.
  unfold media_set_job_wait_reason. con_step. intros job. con_step. intros _.
  con_step. intros g. apply (leads_bind_gives wait_reason).
  - apply gives_if; repeat give_step;
      apply gives_ret; [apply wait_reason_group_ok | apply wait_reason_printer_ok].
  - frame_routine.
  - intros st Hst. con_step. intros _. by apply leads_new_wait_reason.
Qed.
Hint Resolve leads_media_set_job_wait_reason reads_stoptmask reads_hasmedia
  reads_get_media_name reads_media_mounted_save : con reads.

Lemma leads_for_jobs_of d body : (∀ x, keeps_con (body x)) → keeps_con (for_jobs_of d body).
Proof. intros Hb. unfold for_jobs_of. con_routine. Qed.

Lemma leads_for_groups body : (∀ x, keeps_con (body x)) → keeps_con (for_groups body).
Proof. intros Hb. unfold for_groups. con_routine. Qed.

Lemma leads_media_startstop_update_waitreason p :
  keeps_con (media_startstop_update_waitreason p).
Proof.
  unfold media_startstop_update_waitreason, media_startstop_update_waitreason2.
  repeat first [apply leads_for_jobs_of | apply leads_for_groups | con_step].
Qed.

Lemma leads_media_update_notnow p : keeps_con (media_update_notnow p).
Proof.
  unfold media_update_notnow, media_update_notnow2.
  repeat first [apply leads_for_jobs_of | apply leads_for_groups | con_step].
Qed.

Lemma leads_set_notnow_bits j x l : keeps_con (set_notnow_bits j x l).
Proof. revert x. induction l as [|p l IH]; intros x; simpl; con_routine. Qed.
Hint Resolve leads_set_notnow_bits leads_media_startstop_update_waitreason
  leads_media_update_notnow : con.

Lemma leads_media_set_notnow_for_job j b : keeps_con (media_set_notnow_for_job j b).
Proof. unfold media_set_notnow_for_job. con_routine. Qed.
Hint Resolve leads_media_set_notnow_for_job : con.

(** ** Questions *)

Lemma core_modify_slot x f : frames core (modify_slot x f).
Proof. by apply frames_tb. Qed.
Hint Resolve core_modify_slot : con frames.

Lemma leads_question_launch j : keeps_con (question_launch j).
Proof. unfold question_launch. con_routine. Qed.
Hint Resolve leads_question_launch : con.

Lemma leads_ask_questions n x c now : keeps_con (ask_questions n x c now).
Proof. revert x c. induction n as [|n IH]; intros x c; simpl; con_routine. Qed.
Hint Resolve leads_ask_questions : con.

Lemma leads_question_look_for_work : keeps_con question_look_for_work.
Proof. unfold question_look_for_work. con_routine. Qed.
Hint Resolve leads_question_look_for_work : con.

Lemma leads_question_job j : keeps_con (question_job j).
Proof. unfold question_job. con_routine. Qed.
Hint Resolve leads_question_job : con.

Lemma leads_question_answered w y e : keeps_con (question_answered w y e).
Proof. unfold question_answered. con_routine. Qed.
Hint Resolve leads_question_answered : con.

Lemma leads_question_child_hook pid w : keeps_con (question_child_hook pid w).
Proof. unfold question_child_hook. con_routine. Qed.

Lemma leads_question_on_off j b : keeps_con (question_on_off j b).
Proof. unfold question_on_off. con_routine. Qed.
Hint Resolve leads_question_child_hook leads_question_on_off : con.

(** ** Commands about jobs *)

Hint Extern 2 (leads (con None) None (queue_p_job_new_status _ _)) =>
  apply leads_queue_p_job_new_status; reflexivity : con.
Hint Extern 2 (leads (con None) None (printer_new_status _ _)) =>
  apply leads_new_status_work; reflexivity : con.
Hint Resolve reads_pprdrv_kill reads_respond reads_reply_code reads_reply reads_reply_with
  reads_reply_job reads_list_job : reads.

Lemma leads_scanned {A} r (k : Z → list scanval → P A) :
  (∀ n vals, keeps_con (k n vals)) → keeps_con (scanned r k).
Proof. intros Hk. unfold scanned. con_routine. Qed.

Lemma leads_with_destination f d k :
  (∀ destid, keeps_con (k destid)) → keeps_con (with_destination f d k).
Proof. intros Hk. unfold with_destination. con_routine. Qed.

Lemma leads_on_first_job d i j body :
  (∀ x, keeps_con (body x)) → keeps_con (on_first_job d i j body).
Proof. intros Hb. unfold on_first_job. con_routine. Qed.

Ltac con_request :=
  repeat (first [apply leads_scanned | apply leads_with_destination
                | apply leads_on_first_job | con_step]).

Lemma leads_ppop_list c : keeps_con (ppop_list c).
Proof. unfold ppop_list, list_jobs. con_request. Qed.

Lemma leads_seize_job f x p : keeps_con (seize_job f x p).
Proof. unfold seize_job. con_routine. Qed.

Lemma leads_hold_instead_of_cancel x e : keeps_con (hold_instead_of_cancel x e).
Proof. unfold hold_instead_of_cancel. con_routine. Qed.
Hint Resolve leads_seize_job leads_hold_instead_of_cancel : con.

Lemma leads_hold_job d i j x : keeps_con (hold_job d i j x).
Proof. unfold hold_job. con_routine. Qed.

Lemma leads_requeue_job x : keeps_con (requeue_job x).
Proof. unfold requeue_job. con_routine. Qed.
Hint Resolve leads_hold_job leads_requeue_job : con.

Lemma leads_release_job d i j x : keeps_con (release_job d i j x).
Proof. unfold release_job. con_routine. Qed.
Hint Resolve leads_release_job : con.

Lemma leads_ppop_hold_release c a : keeps_con (ppop_hold_release c a).
Proof. unfold ppop_hold_release. destruct (a =? 0); con_request. Qed.

Lemma leads_cancel_printing_job x p : keeps_con (cancel_printing_job x p).
Proof. unfold cancel_printing_job. con_routine. Qed.

Lemma leads_cancel_seizing_job f x e : keeps_con (cancel_seizing_job f x e).
Proof. unfold cancel_seizing_job. con_routine. Qed.

Lemma leads_remove_idle_job e b : keeps_con (remove_idle_job e b).
Proof. unfold remove_idle_job. con_routine. Qed.
Hint Resolve leads_cancel_printing_job leads_cancel_seizing_job leads_remove_idle_job : con.

Lemma leads_cancel_one f x e b : keeps_con (cancel_one f x e b).
Proof. unfold cancel_one. con_routine. Qed.
Hint Resolve leads_cancel_one : con.

Lemma leads_cancel_jobs f n d i j b x c : keeps_con (cancel_jobs f n d i j b x c).
Proof.
  revert x c. induction n as [|n IH]; intros x c; simpl; [by intros ?|]. con_routine.
Qed.
Hint Resolve leads_cancel_jobs : con.

Lemma leads_cancel_all f d i j b : keeps_con (cancel_all f d i j b).
Proof. unfold cancel_all. con_routine. Qed.
Hint Resolve leads_cancel_all : con.

Lemma leads_ppop_cancel_purge c : keeps_con (ppop_cancel_purge c).
Proof. unfold ppop_cancel_purge. con_request. Qed.

Lemma leads_ppop_modify_question c : keeps_con (ppop_modify_question c).
Proof. unfold ppop_modify_question. con_request. Qed.

(** A rush reorders the queue. *)
Lemma consistent_Permutation q q' t :
  q ≡ₚ q' → consistent (set_t_queue q' t) → consistent (set_t_queue q t).
Proof.
  intros Hq [Hc Hk Hj Hp]. constructor; simpl in *; [done | | | done].
  - by rewrite (Permutation_map key Hq).
  - by rewrite Hq.
Qed.

Lemma leads_rush_job d n x : keeps_con (rush_job d n x).
Proof.
  unfold rush_job. con_routine. intros s [Hc _]. apply wp_modify. split; [|done].
  eapply consistent_Permutation; [apply rush_queue_Permutation|].
  destruct (at_index _ x); [|by destruct Hc].
  apply consistent_job; [|done]. intros e. split; [done | by left].
Qed.
Hint Resolve leads_rush_job : con.

Lemma leads_ppop_rush c : keeps_con (ppop_rush c).
Proof. unfold ppop_rush. con_request. Qed.

(** ** Commands about printers *)

Hint Resolve reads_ppop_status_do_printer reads_undefined_state reads_list_bins
  reads_media_wanted reads_ppop_dest_show_printer reads_ppop_dest_show_group : reads.

Lemma leads_for_printers body : (∀ x, keeps_con (body x)) → keeps_con (for_printers body).
Proof. intros Hb. unfold for_printers. con_routine. Qed.

Ltac con_request ::=
  repeat (first
    [ apply leads_scanned | apply leads_with_destination | apply leads_on_first_job
    | apply leads_for_printers | apply leads_for_groups | apply leads_for_members
    | con_step ]).

Lemma leads_ppop_status c : keeps_con (ppop_status c).
Proof. unfold ppop_status. con_request. Qed.

Lemma leads_change_status_work p st :
  has_job st = true → keeps_con (change_status p st).
Proof.
  intros Hst. unfold change_status. apply leads_bind; [by apply leads_new_status_work|].
  con_routine.
Qed.

Lemma leads_change_status_at i p st :
  has_job (p_status p) = false → leads (con_at None i p) None (change_status i st).
Proof.
  intros Hst. unfold change_status. apply leads_bind; [by apply leads_new_status_at|].
  con_routine.
Qed.

Lemma leads_release_waiting_ppop i : keeps_con (release_waiting_ppop i).
Proof. unfold release_waiting_ppop. con_routine. Qed.
Hint Resolve leads_release_waiting_ppop : con.

Ltac con_printer_command :=
  repeat (first
    [ lazymatch goal with
      | |- leads (con_at _ _ _) _ (change_status _ _) =>
          first [ apply leads_change_status_at; solve [not_at_work]
                | apply leads_weaken, leads_change_status_work; reflexivity ]
      | |- leads (con None) _ (change_status _ _) =>
          apply leads_change_status_work; reflexivity
      | |- leads (con_at _ _ _) _ (printer_new_status _ _) =>
          apply leads_weaken, leads_new_status_work; reflexivity
      end
    | con_step ]).

Lemma leads_start_printer n i : keeps_con (start_printer n i).
Proof. unfold start_printer. con_printer_command. Qed.

Lemma leads_stop_printer n i b : keeps_con (stop_printer n i b).
Proof. unfold stop_printer. con_printer_command. Qed.
Hint Resolve leads_start_printer leads_stop_printer : con.

Lemma leads_reply_delayed n i b : keeps_con (reply_delayed n i b).
Proof. unfold reply_delayed. con_routine. Qed.
Hint Resolve leads_reply_delayed : con.

Lemma leads_ppop_start_stop_wstop_halt c a : keeps_con (ppop_start_stop_wstop_halt c a).
Proof. unfold ppop_start_stop_wstop_halt. con_request. Qed.

Lemma leads_list_media d b : keeps_con (list_media d b).
Proof. unfold list_media. con_request. Qed.
Hint Resolve leads_list_media : con.

Lemma leads_ppop_media c : keeps_con (ppop_media c).
Proof. unfold ppop_media. con_request. Qed.

Lemma core_get_media_id n : frames core (get_media_id n).
Proof. unfold get_media_id. frame_routine. Qed.
Hint Resolve core_get_media_id : con.

Lemma leads_mount_medium n p b m : keeps_con (mount_medium n p b m).
Proof. unfold mount_medium. con_routine. Qed.
Hint Resolve leads_mount_medium : con.

Lemma leads_ppop_mount c : keeps_con (ppop_mount c).
Proof. unfold ppop_mount, mount_on. con_request. Qed.

Lemma leads_set_accepting d a : keeps_con (set_accepting d a).
Proof. unfold set_accepting. con_routine. Qed.
Hint Resolve leads_set_accepting : con.

Lemma leads_ppop_accept_reject c a : keeps_con (ppop_accept_reject c a).
Proof. unfold ppop_accept_reject. con_request. Qed.

Lemma leads_ppop_dest c : keeps_con (ppop_dest c).
Proof. unfold ppop_dest, show_all_destinations. con_request. Qed.
Hint Resolve leads_ppop_list leads_ppop_status leads_ppop_start_stop_wstop_halt
  leads_ppop_hold_release leads_ppop_cancel_purge leads_ppop_media leads_ppop_mount
  leads_ppop_accept_reject leads_ppop_dest leads_ppop_rush leads_ppop_modify_question : con.

(** Every command of ppop but the one that moves jobs. *)
Definition is_move (ppop_command : string) : bool :=
  match first_char ppop_command with
  | Some c => Ascii.eqb c "m"
  | None => false
  end.

Lemma leads_ppop_command_switch c p :
  is_move p = false → keeps_con (ppop_command_switch c p).
Proof.
  unfold ppop_command_switch, is_move.
  destruct (first_char p) as [[[] [] [] [] [] [] [] []]|]; simpl; intros Hm;
    solve [discriminate Hm | auto 2 with con | con_routine].
Qed.

Lemma leads_ppop_dispatch c :
  is_move (drop_while is_digit_or_space c) = false → keeps_con (ppop_dispatch c).
Proof.
  intros Hm. unfold ppop_dispatch.
  repeat (first [by apply leads_ppop_command_switch | con_step]).
Qed.

(** ** The IPP operations *)

Lemma leads_if_found l k :
  reads l → (∀ d, keeps_con (k d)) → keeps_con (if_found l k).
Proof. intros Hl Hk. unfold if_found. con_routine. Qed.

Lemma leads_on_job_number n body :
  (∀ x, keeps_con (body x)) → keeps_con (on_job_number n body).
Proof. intros Hb. unfold on_job_number. con_routine. Qed.

Lemma leads_ipp_cancel_job_core d j : keeps_con (ipp_cancel_job_core d j).
Proof. unfold ipp_cancel_job_core. con_routine. Qed.

Lemma leads_ipp_hold_one x : keeps_con (ipp_hold_one x).
Proof. unfold ipp_hold_one. con_routine. Qed.

Lemma leads_ipp_release_one x : keeps_con (ipp_release_one x).
Proof. unfold ipp_release_one. con_routine. Qed.

Lemma leads_set_held b d : keeps_con (set_held b d).
Proof. unfold set_held. con_routine. Qed.

Lemma leads_pause_printer c i : keeps_con (pause_printer c i).
Proof. unfold pause_printer, printer_undefined. con_printer_command. Qed.

Lemma leads_resume_printer c i : keeps_con (resume_printer c i).
Proof. unfold resume_printer, printer_undefined. con_printer_command. Qed.
Hint Resolve leads_ipp_cancel_job_core leads_ipp_hold_one leads_ipp_release_one
  leads_set_held leads_pause_printer leads_resume_printer : con.

Lemma leads_ipp_operation op p :
  op ≠ CUPS_MOVE_JOB → keeps_con (ipp_operation op p).
Proof.
  intros Hop. unfold ipp_operation, ipp_cancel_job, ipp_hold_job, ipp_release_job,
    ipp_pause_printer, ipp_resume_printer, ipp_purge_jobs, cups_accept_or_reject_jobs.
  repeat (first
    [ apply leads_if_found; [solve [eauto 2 with reads]|] | apply leads_on_job_number
    | con_step ]).
  match goal with E : (op =? CUPS_MOVE_JOB) = true |- _ => by apply Z.eqb_eq in E end.
Qed.

(** ** The main loop *)

Hint Resolve reads_nag_line : reads.

Lemma leads_ppad_remind : keeps_con ppad_remind.
Proof.
  unfold ppad_remind.
  repeat (first [apply leads_for_printers | con_step]).
Qed.

(** What does not bring a job, move one, or change the configuration. *)
Definition fifo_in_place (ptr : string) : bool :=
  match first_char ptr with
  | Some "j"%char | Some "J"%char | Some "N"%char => false
  | Some "n"%char => true
  | _ => negb (is_move (drop_while is_digit_or_space ptr))
  end.

Definition ipp_in_place (command : string) : bool :=
  match lmatchsp command "IPP" with
  | Some p => negb (atoi p =? CUPS_MOVE_JOB)
  | None => true
  end.

Definition in_place (i : input) : bool :=
  match i with
  | InFifo buffer =>
      match chomp buffer with
      | Some commands => forallb fifo_in_place (gu_strsep_all (chr 10) commands)
      | None => true
      end
  | InSocket buffer =>
      match chomp buffer with Some command => ipp_in_place command | None => true end
  | InChildren _ | InTick => true
  end.

Lemma leads_fifo_command c : fifo_in_place c = true → keeps_con (fifo_command c).
Proof.
  unfold fifo_in_place, fifo_command.
  destruct (first_char c) as [[[] [] [] [] [] [] [] []]|]; intros Hc;
    solve [ discriminate Hc | apply leads_ppad_remind
          | apply leads_ppop_dispatch; by apply negb_true_iff ].
Qed.

Lemma leads_do_fifo_command b : in_place (InFifo b) = true → keeps_con (do_fifo_command b).
Proof.
  unfold in_place, do_fifo_command. destruct (chomp b) as [l|]; [|intros _; con_routine].
  induction (gu_strsep_all (chr 10) l) as [|c cs IH]; simpl; [intros _; con_routine|].
  intros [Hc Hcs]%andb_true_iff. apply leads_bind; [by apply leads_fifo_command | auto].
Qed.

Lemma leads_ipp_dispatch c : ipp_in_place c = true → keeps_con (ipp_dispatch c).
Proof.
  unfold ipp_in_place, ipp_dispatch. destruct (lmatchsp c "IPP") as [p|]; intros Hp.
  - apply leads_ipp_operation. by apply negb_true_iff, Z.eqb_neq in Hp.
  - con_routine.
Qed.

Lemma leads_do_socket_command b :
  in_place (InSocket b) = true → keeps_con (do_socket_command b).
Proof.
  unfold in_place, do_socket_command, socket_command. intros Hb.
  apply leads_bind; [|con_routine].
  destruct (chomp b) as [c|]; [|con_routine].
  destruct (first_char c) as [[[] [] [] [] [] [] [] []]|];
    solve [by apply leads_ipp_dispatch | con_routine].
Qed.

Lemma leads_child_hooks pid w : 0 < pid → keeps_con (child_hooks pid w).
Proof.
  intros Hpid. unfold child_hooks.
  apply leads_bind; [by apply leads_pprdrv_child_hook|].
  unfold report_child, responder_child_hook. con_routine.
Qed.

Lemma leads_reapchild l : keeps_con (reapchild l).
Proof.
  induction l as [|[pid w] l IH]; simpl; [con_routine|].
  destruct (Z.ltb_spec 0 pid); [|by intros s Hs].
  apply leads_bind; [by apply leads_child_hooks | done].
Qed.

Lemma leads_handle i : in_place i = true → keeps_con (handle i).
Proof.
  destruct i; simpl; intros Hi.
  - by apply leads_do_fifo_command.
  - by apply leads_do_socket_command.
  - apply leads_reapchild.
  - unfold tick, question_tick. con_routine.
Qed.
End commands.
