(* ===== verification/PropDaemon.v ===== *)
(** Properties of the daemon as a whole: of every turn of the main loop, and
    of every state it reaches. *)
From S2P Require Import Prelude.
From S2P Require Import Text.
From S2P Require Import Spooler.
From S2P Require Import SpoolerFacts.
From S2P Require Import Question.
From S2P Require Import QueueAccept.
From S2P Require Import PpopPrinters.
From S2P Require Import Main.
From S2P Require Import Sample.
From S2P Require Import Change.
From S2P Require Import RefineMain.
From S2P Require Import Invariants.
From S2P Require Import Consistency.
From S2P Require Import ConsistentCommands.

(** * Witness states *)

Lemma wf_zero_entry : wf_entry zero_entry.
Proof. constructor; try done. split; [done | by repeat constructor]. Qed.

Lemma reachable_idle : reachable idle_state.
Proof.
  apply (reach_startup (boot_state sample_files mkdirs)
           ["."; "apple"; "pear"; "pear~"] ["fruit"] ["."; ".."]).
  - constructor; try done. apply wf_zero_entry.
  - vm_compute. reflexivity.
Qed.

Lemma reachable_printing : reachable printing_state.
Proof.
  apply (reach_step idle_state); [apply reachable_idle|].
  apply (step_turn _ (io (with_calls [501] idle_state)) (InFifo (line "j fruit-7.0")) tt).
  - by split.
  - vm_compute. reflexivity.
Qed.

Section daemon.
Context `{PPRConfig}.

(** C1: no job is printed twice at once.  A turn of the main loop that brings
    no job, moves none and leaves the configuration alone keeps the queue and
    the printers consistent: each job marked as printing on a printer is the
    job that printer is at work on, no two jobs are on one printer, and no
    printer with a pprdrv process is idle. *)
Theorem turn_keeps_jobs_and_printers_consistent s i u s' :
  consistent (tb s) → in_place i = true → handle i s = Done u s' →
  consistent (tb s') ∧
  ∀ x y e e', queue s' !! x = Some e → queue s' !! y = Some e' →
    0 ≤ q_status e → q_status e = q_status e' → x = y.
Proof.
  intros Hc Hi E. assert (consistent (tb s')) as Hc'.
  { pose proof (leads_handle i Hi s (conj Hc I)) as L. unfold wp in L. rewrite E in L. apply L. }
  split; [done|]. intros x y e e' Hx Hy Hs Eq.
  by apply (consistent_same_job (tb s') x y e e').
Qed.

(** C2: what a turn does to the tables is a sequence of the permitted kinds of
    change: entries keep their fields' widths, the queue grows only while there
    is room, a printer is started only below MAX_ACTIVE with a live process,
    and so on. *)
Theorem turn_makes_only_permitted_changes i s :
  wp (handle i) (λ _ s', rtc change (tb s) (tb s')) (λ _ s', rtc change (tb s) (tb s'))
    (λ _, True) s.
Proof. apply refines_handle. Qed.

(** C3: never more than MAX_ACTIVE printers print: every printer for which a
    pprdrv is at work has been counted, and the count stays within the limit.
    (Nothing sets job_pid before the first job, so this is for memory that
    gu_alloc() hands out with zeros there.) *)
Theorem active_printers_never_exceed_the_limit s :
  p_job_pid printers_memory = 0 → reachable s →
  Z.of_nat (length (filter (λ p, p_job_pid p ≠ 0) (printers s))) ≤ t_active_printers (tb s) ∧
  t_active_printers (tb s) ≤ MAX_ACTIVE.
Proof.
  intros Hz Hs. split; [exact (reachable_counted s Hz Hs) | apply (inv_active _ (reachable_inv s Hs))].
Qed.

(** C4: the queue fits into its array, which stays within QUEUE_SIZE_MAX. *)
Theorem queue_never_overflows s :
  reachable s →
  queue_entries s ≤ t_queue_size (tb s) ∧ t_queue_size (tb s) ≤ QUEUE_SIZE_MAX.
Proof.
  intros Hs. pose proof (reachable_inv s Hs) as Hi. split; [apply Hi | apply Hi].
Qed.

(** The fields of every queue entry stay within the widths the structure
    gives them, the bit masks within their eight bits. *)
Theorem queue_entries_keep_their_widths s e :
  reachable s → e ∈ queue s → wf_entry e.
Proof.
  intros Hs He. pose proof (inv_entries _ (reachable_inv s Hs)) as Hw.
  rewrite Forall_forall in Hw. by apply Hw.
Qed.

(** C5: the media table has at most MAX_MEDIA names, no empty one and none
    twice, so that an id stands for one medium. *)
Theorem media_table_has_distinct_names s :
  reachable s →
  NoDup (media s) ∧ (EmptyString ∉ media s) ∧ media_count s ≤ MAX_MEDIA.
Proof. intros Hs. apply (inv_media _ (reachable_inv s Hs)). Qed.

(** The members of every group are existing printers, at most
    MAX_GROUPSIZE of them. *)
Theorem group_members_exist s g :
  reachable s → g ∈ groups s →
  g_members g ≤ MAX_GROUPSIZE ∧ Forall (λ m, is_Some (at_index (printers s) m)) (g_printers g).
Proof.
  intros Hs Hg. pose proof (inv_members _ (reachable_inv s Hs)) as Hm.
  rewrite Forall_forall in Hm. destruct (Hm g Hg) as [Hl Hp]. split; [done|].
  eapply Forall_impl; [exact Hp|]. intros m. apply at_index_ge.
Qed.

(** The number of questions being asked is the number of slots that hold a
    process, never more than the ten there are. *)
Theorem active_questions_counts_the_slots s :
  reachable s →
  t_active_questions (tb s) = count_asking (t_active_question (tb s)) ∧
  0 ≤ t_active_questions (tb s) ≤ MAX_ACTIVE_QUESTIONS.
Proof.
  intros Hs. destruct (reachable_inv s Hs) as [_ _ _ _ _ _ _ _ Hsl _ Hq]. split; [done|].
  rewrite Hq, <- Hsl. apply count_asking_le.
Qed.
End daemon.

(** * Witnesses *)

Lemma turn_keeps_jobs_and_printers_consistent_witness :
  consistent (tb (after (handle (InChildren [(501, 0)])) (with_calls [502; 503] printing_state))).
Proof.
  apply (turn_keeps_jobs_and_printers_consistent (with_calls [502; 503] printing_state)
    (InChildren [(501, 0)]) tt).
  - by apply consistentb_true.
  - done.
  - vm_compute. reflexivity.
Defined.

Lemma active_printers_never_exceed_the_limit_witness :
  reachable printing_state ∧
  length (filter (λ p, p_job_pid p ≠ 0) (printers printing_state)) = 1%nat ∧
  1 ≤ t_active_printers (tb printing_state) ≤ MAX_ACTIVE.
Proof.
  split; [apply reachable_printing|].
  destruct (active_printers_never_exceed_the_limit printing_state) as [H1 H2].
  - reflexivity.
  - apply reachable_printing.
  - assert (length (filter (λ p, p_job_pid p ≠ 0) (printers printing_state)) = 1%nat) as E
      by (vm_compute; reflexivity).
    rewrite E in H1. split; [exact E | split; [exact H1 | exact H2]].
Defined.

Lemma queue_never_overflows_witness :
  queue_entries printing_state ≤ t_queue_size (tb printing_state).
Proof. exact (proj1 (queue_never_overflows printing_state reachable_printing)). Defined.

Definition printing_entry : QEntry := default zero_entry (queue printing_state !! 0%nat).

Lemma queue_entries_keep_their_widths_witness : wf_entry printing_entry.
Proof.
  apply (queue_entries_keep_their_widths printing_state); [apply reachable_printing|].
  apply list_elem_of_lookup_2 with 0%nat. reflexivity.
Defined.

Lemma media_table_has_distinct_names_witness : NoDup (media printing_state).
Proof. apply media_table_has_distinct_names, reachable_printing. Defined.

Definition fruit_group : Group := default zero_group (groups printing_state !! 0%nat).

Lemma group_members_exist_witness : g_members fruit_group ≤ MAX_GROUPSIZE.
Proof.
  apply (group_members_exist printing_state); [apply reachable_printing|].
  apply list_elem_of_lookup_2 with 0%nat. reflexivity.
Defined.

Lemma active_questions_counts_the_slots_witness :
  t_active_questions (tb printing_state) = count_asking (t_active_question (tb printing_state)).
Proof. apply active_questions_counts_the_slots, reachable_printing. Defined.
