(* ===== verification/PropRetry.v ===== *)
(** Printers that wait to be tried again: with every tick the time left falls,
    and when it is used up the printer looks for a job that suits it. *)
From S2P Require Import Prelude.
From S2P Require Import Text.
From S2P Require Import Spooler.
From S2P Require Import SpoolerFacts.
From S2P Require Import Destid.
From S2P Require Import QueueStatus.
From S2P Require Import Media.
From S2P Require Import Printer.
From S2P Require Import Question.
From S2P Require Import Main.
From S2P Require Import Sample.
From S2P Require Import Change.
From S2P Require Import Refine.
From S2P Require Import Effects.

(** It has failed, or was found engaged, and is to be tried again. *)
Definition waiting_again (c : Z) (p : Printer) : Prop :=
  ((p_status p = PRNSTATUS_FAULT ∧ ps_next_error_retry (p_spool_state p) ≠ 0) ∨
   p_status p = PRNSTATUS_ENGAGED) ∧
  ps_countdown (p_spool_state p) = c.

(** A job may go to the printer: it is for it, or for a group it is in. *)
Definition job_for (s : pprd) (x : Z) (e : QEntry) : Prop :=
  q_destid e = x ∨
  destid_is_group s (q_destid e) = true ∧
  x ∈ g_printers (default zero_group (groups s !! Z.to_nat (q_destid e - MAX_PRINTERS))).

(** No job that waits could be printed on it. *)
Definition nothing_to_do (s : pprd) (x : Z) : Prop :=
  ∀ e, e ∈ queue s → q_status e = STATUS_WAITING → job_for s x e → unsuitable s e x = true.

(** The printer prints; or it waits for a place among the printers that may; or
    there is no job for it. *)
Definition tried (s : pprd) (x : Z) (p : Printer) : Prop :=
  p_status p = PRNSTATUS_PRINTING ∨ p_status p = PRNSTATUS_STARVED ∨
  p_status p = PRNSTATUS_IDLE ∧ nothing_to_do s x.

(** What holds of printer [x]. *)
Definition of_printer (x : Z) (I : Printer → Prop) (s : pprd) : Prop :=
  ∃ p, at_index (printers s) x = Some p ∧ I p.

(** Ticks of the clock, one after the other, between which the world may change. *)
Inductive ticks `{PPRConfig} : nat → pprd → pprd → Prop :=
| ticks_none s : ticks 0 s s
| ticks_more n s s1 w u s' :
    ticks n s s1 → world_changes (io s1) w → handle InTick (mkPprd (tb s1) w) = Done u s' →
    ticks (S n) s s'.

Section retry.
Context `{PPRConfig} (x : Z).

(** * What leaves the printer alone, and finds no work for it *)

Definition alike (e e' : QEntry) : Prop :=
  q_destid e = q_destid e' ∧ q_notnow e = q_notnow e' ∧ q_never e = q_never e'.

Record aside (s s' : pprd) : Prop := {
  aside_jobs : ∀ e', e' ∈ queue s' → q_status e' = STATUS_WAITING →
    ∃ e, e ∈ queue s ∧ q_status e = STATUS_WAITING ∧ alike e e';
  aside_members : members_of (tb s') = members_of (tb s);
  aside_count : printer_count s' = printer_count s;
  aside_printer : at_index (printers s') x = at_index (printers s) x;
}.

Lemma alike_refl e : alike e e.
Proof. by split. Qed.

Lemma aside_parts s s' :
  queue s' = queue s → groups s' = groups s → printers s' = printers s → aside s s'.
Proof.
  intros Eq Eg Ep. split; unfold printer_count, members_of, groups in *; rewrite ?Eq, ?Eg, ?Ep; try done.
  intros e Hin Hw. exists e. split; [done|]. split; [done | apply alike_refl].
Qed.

Lemma aside_tb s s' : tb s' = tb s → aside s s'.
Proof. intros E. by apply aside_parts; unfold queue, groups, printers; rewrite E. Qed.

Lemma aside_trans s1 s2 s3 : aside s1 s2 → aside s2 s3 → aside s1 s3.
Proof.
  intros [J1 M1 C1 P1] [J2 M2 C2 P2]. split; [|congruence..].
  intros e3 H3 W3. destruct (J2 e3 H3 W3) as (e2 & H2 & W2 & D2 & N2 & V2).
  destruct (J1 e2 H2 W2) as (e1 & H1 & W1 & D1 & N1 & V1).
  exists e1. split; [done|]. split; [done|]. unfold alike. split_and!; congruence.
Qed.

Lemma aside_unsuitable s s' e e' :
  aside s s' → alike e e' → unsuitable s' e' x = unsuitable s e x.
Proof.
  intros [_ M C _] (D & N & V).
  pose proof (same_membership s s' (Z.to_nat (q_destid e - MAX_PRINTERS)) M) as E.
  injection E as Em Eh. unfold unsuitable, group_held, printer_bit, destid_is_group.
  by rewrite <-D, <-N, <-V, C, Em, Eh.
Qed.

Lemma aside_job_for s s' e e' : aside s s' → alike e e' → job_for s' x e' → job_for s x e.
Proof.
  intros [_ M C _] (D & _ & _).
  pose proof (same_membership s s' (Z.to_nat (q_destid e - MAX_PRINTERS)) M) as E.
  injection E as Em _. unfold job_for, destid_is_group. by rewrite <-D, C, Em.
Qed.

Lemma aside_nothing s s' : aside s s' → nothing_to_do s x → nothing_to_do s' x.
Proof.
  intros Ha Hn e' Hin Hw Hfor. destruct (aside_jobs _ _ Ha e' Hin Hw) as (e & He & Hwe & Hal).
  rewrite (aside_unsuitable s s' e e' Ha Hal). apply Hn; [done | done | by apply (aside_job_for s s' e e')].
Qed.

Lemma aside_tried s s' : aside s s' → of_printer x (tried s x) s → of_printer x (tried s' x) s'.
Proof.
  intros Ha (p & Hp & Ht). exists p. rewrite (aside_printer _ _ Ha). split; [done|].
  destruct Ht as [?|[?|[? Hn]]]; [by left | by right; left | right; right].
  split; [done | by apply (aside_nothing s)].
Qed.

Lemma aside_of I s s' : aside s s' → of_printer x I s → of_printer x I s'.
Proof. intros Ha (p & Hp & HI). exists p. by rewrite (aside_printer _ _ Ha). Qed.

(** ** Routines of that kind *)

Abbreviation calmly m s := (wp m (λ _ s', aside s s') (λ _ _, True) (λ _, True) s).

Definition calm {A} (m : P A) : Prop := ∀ s, calmly m s.

Lemma aside_refl s : aside s s.
Proof. by apply aside_tb. Qed.

Lemma calmly_bind {A B} (m : P A) (f : A → P B) s :
  calmly m s → (∀ a s', aside s s' → calmly (f a) s') → calmly (m ≫= f) s.
Proof.
  intros Hm Hf. apply wp_bind. eapply wp_mono; [exact Hm | | done | done].
  intros a s1 H1. eapply wp_mono; [by apply Hf | | done | done].
  intros b s2. by apply aside_trans.
Qed.

Lemma calm_bind {A B} (m : P A) (f : A → P B) : calm m → (∀ a, calm (f a)) → calm (m ≫= f).
Proof. intros Hm Hf s. apply calmly_bind; [apply Hm | intros a s' _; apply Hf]. Qed.

Lemma calm_reads {A} (m : P A) : reads m → calm m.
Proof. intros Hm s. eapply wp_mono; [apply Hm | | done | done]. intros a s'. apply aside_tb. Qed.

Lemma calm_when b (m : P unit) : calm m → calm (when b m).
Proof. intros Hm. destruct b; [done|]. by apply calm_reads, reads_ret. Qed.

Lemma calm_tb f :
  (∀ t, t_queue (f t) = t_queue t ∧ t_groups (f t) = t_groups t ∧ t_printers (f t) = t_printers t) →
  calm (modify_tb f).
Proof. intros Hf s. apply wp_modify. destruct (Hf (tb s)) as (? & ? & ?). by apply aside_parts. Qed.

Lemma aside_upd_job j f s s' :
  (∀ e, q_status (f e) = STATUS_WAITING → q_status e = STATUS_WAITING ∧ alike e (f e)) →
  queue s' = upd_index j f (queue s) → members_of (tb s') = members_of (tb s) →
  printer_count s' = printer_count s → at_index (printers s') x = at_index (printers s) x → aside s s'.
Proof.
  intros Hf Eq Em Ec Ep. split; [|done..]. rewrite Eq. intros e' Hin Hw.
  apply list_elem_of_lookup in Hin as [n Hn]. unfold upd_index in Hn.
  destruct (decide (n = Z.to_nat j)) as [->|Hne].
  - rewrite list_lookup_alter_eq in Hn. destruct (queue s !! Z.to_nat j) as [e|] eqn:He; [|done].
    injection Hn as <-. destruct (Hf e Hw) as [Hwe Hal]. exists e. split; [|done].
    by apply list_elem_of_lookup_2 in He.
  - rewrite list_lookup_alter_ne in Hn by done. exists e'. split; [by apply list_elem_of_lookup_2 in Hn|]. split; [done | apply alike_refl].
Qed.

Lemma calm_job_upd j f :
  (∀ e, q_status (f e) = q_status e ∧ alike e (f e)) → calm (job_upd j f).
Proof.
  intros Hf s. destruct j as [j|].
  - apply wp_job_upd_q; [|done]. intros e _. apply (aside_upd_job j f); [|done..].
    intros e'. by destruct (Hf e') as [-> Hal].
  - apply wp_job_upd_new. by apply aside_parts.
Qed.

Ltac calm_step :=
  lazymatch goal with
  | |- ∀ _, _ => intro
  | |- calm (_ ≫= _) => apply calm_bind
  | |- calm (when _ _) => apply calm_when
  | |- calm (if ?b then _ else _) => destruct b
  | |- calm (match ?y with _ => _ end) => destruct y
  | |- calm (let _ := _ in _) => cbv zeta
  | |- calm (modify_tb _) => by apply calm_tb
  | |- calm (job_upd _ _) => by apply calm_job_upd
  | |- calm _ => first [assumption | apply calm_reads; solve [eauto 2 with reads]]
  end.

Ltac calm_routine := repeat calm_step.

Lemma calm_question_launch j : calm (question_launch j).
Proof. unfold question_launch, modify_slot. calm_routine. Qed.

Lemma calm_ask_questions n k count now : calm (ask_questions n k count now).
Proof.
  revert k count. induction n as [|n IH]; intros k count; cbn [ask_questions];
    pose proof (calm_question_launch (Jq k)); calm_routine; auto.
Qed.

Lemma calm_question_tick : calm question_tick.
Proof.
  unfold question_tick, question_look_for_work, lock, unlock.
  repeat first [apply calm_ask_questions | calm_step].
Qed.

(** ** Other printers *)

Lemma aside_other y f s s' :
  0 ≤ y → y ≠ x → printers s' = upd_index y f (printers s) → queue s' = queue s →
  members_of (tb s') = members_of (tb s) → aside s s'.
Proof.
  intros Hy Hne Ep Eq Em. split.
  - rewrite Eq. intros e Hin Hw. exists e. split; [done|]. split; [done | apply alike_refl].
  - done.
  - unfold printer_count. by rewrite Ep, length_upd_index.
  - by rewrite Ep, at_index_upd_ne.
Qed.

Lemma besides_parts s s' :
  besides_printers (tb s') = besides_printers (tb s) →
  queue s' = queue s ∧ members_of (tb s') = members_of (tb s).
Proof.
  intros E. split; [exact (f_equal t_queue E)|].
  exact (f_equal (λ t, map membership (t_groups t)) E).
Qed.

Lemma other_new_status y st s : y ≠ x → calmly (printer_new_status y st) s.
Proof.
  intros Hne. destruct (at_index (printers s) y) as [p|] eqn:Hp.
  2: { unfold printer_new_status. apply wp_bind, wp_modify, wp_bind, wp_get_printer; [|done].
       unfold printers in *. simpl. congruence. }
  destruct (decide (p_status p = PRNSTATUS_DELETED)) as [Hd|Hd].
  - eapply wp_printer_new_status_deleted; [done.. |]. intros s'. apply aside_tb.
  - eapply wp_printer_new_status; [done | done | | done]. intros s' [Ep Eb] _.
    apply besides_parts in Eb as [Eq Em]. apply at_index_lt in Hp.
    by apply (aside_other y _ s s' ltac:(lia) Hne Ep).
Qed.

Lemma other_start y j s :
  y ≠ x → printer_count s ≤ MAX_PRINTERS → calmly (printer_start y (Jq j)) s.
Proof.
  intros Hne Hmax. destruct (at_index (printers s) y) as [p|] eqn:Hp.
  2: { unfold printer_start. apply wp_bind, wp_job_get; [|done]. intros e. case_match; [done|].
       apply wp_bind, wp_gets. case_match; [done|]. apply wp_bind, wp_get_printer; [|done]. congruence. }
  pose proof (at_index_lt _ _ _ Hp) as Hy.
  destruct (at_index (queue s) j) as [e|] eqn:He.
  2: { unfold printer_start. apply wp_bind, wp_job_get_q; [|done]. congruence. }
  eapply wp_mono; [apply wp_and; [apply (wp_printer_start y (Jq j) p e s Hp) | apply members_printer_start] | | done | done].
  { apply wp_job_get_q; [|done]. intros e' He'. split; [congruence|done]. }
  intros r s' [[_ Hr] Em]. destruct (negb _); [destruct Hr as [_ ->]; apply aside_refl|].
  destruct (unsuitable s e y); [destruct Hr as [_ ->]; apply aside_refl|].
  destruct Hr as [(_ & (pid & k & _ & Ep & _ & Eq & _) & _)|[_ (Ep & Eq & _)]].
  - eapply (aside_upd_job k); [|exact Eq | exact Em | |].
    + intros e' Hw. unfold MAX_PRINTERS, printer_count in Hmax.
      rewrite i16_small in Hw by lia. unfold STATUS_WAITING in Hw. simpl in Hw. lia.
    + unfold printer_count. by rewrite Ep, length_upd_index.
    + rewrite Ep, at_index_upd_ne by lia. done.
  - by apply (aside_other y _ s s' ltac:(lia) Hne Ep Eq).
Qed.

Lemma other_look_for_work y s :
  y ≠ x → printer_count s ≤ MAX_PRINTERS → calmly (printer_look_for_work y) s.
Proof.
  intros Hne Hmax. unfold printer_look_for_work. apply calmly_bind; [by apply calm_tb|]. intros _ s1 H1.
  apply calmly_bind; [apply calm_reads, reads_get_printer|]. intros p s2 H2. case_match; [done|].
  apply calmly_bind; [|intros _ s3 _; by apply calm_tb].
  unfold for_queue. apply calmly_bind; [apply calm_reads, reads_gets|]. intros q s3 H3.
  assert (printer_count s3 ≤ MAX_PRINTERS) as Hmax3
    by (by rewrite (aside_count _ _ H3), (aside_count _ _ H2), (aside_count _ _ H1)).
  apply (wp_for (λ _, aside s3)); [apply aside_refl | |done].
  intros k s4 _ H4. eapply wp_mono; [apply (calmly_bind (job_get (Jq k))) | | done | done].
  - apply calm_reads, reads_job_get.
  - intros e s5 H5. apply calmly_bind.
    { apply calm_reads. unfold may_print. read_routine. }
    intros b s6 H6. destruct b; [|by apply calm_reads, reads_ret].
    apply calmly_bind; [|intros r s7 _; apply calm_reads, reads_ret].
    apply other_start; [done|]. by rewrite (aside_count _ _ H6), (aside_count _ _ H5), (aside_count _ _ H4).
  - intros r s5 H5. pose proof (aside_trans _ _ _ H4 H5). by destruct r.
Qed.

(** * The printer itself *)

Lemma index_from_in k v l : 0 ≤ k → index_from k v l = -1 ↔ v ∉ l.
Proof.
  revert k. induction l as [|w l IH]; intros k Hk; simpl; [split; [intros _; apply not_elem_of_nil | done]|].
  rewrite not_elem_of_cons. destruct (Z.eqb_spec w v) as [->|Hne].
  - split; [lia | by intros []].
  - rewrite IH by lia. split; [intros; split; congruence | by intros []].
Qed.

Lemma wp_may_print e s (Q : bool → pprd → Prop) :
  (∀ b s', tb s' = tb s → (b = true ↔ q_status e = STATUS_WAITING ∧ job_for s x e) → Q b s') →
  wp (may_print x e) Q (λ _ _, True) (λ _, True) s.
Proof.
  intros HQ. unfold may_print. destruct (Z.eqb_spec (q_status e) STATUS_WAITING) as [Hw|Hw]; simpl.
  2: { apply HQ; [done|]. split; [done | by intros []]. }
  destruct (Z.eqb_spec (q_destid e) x) as [Hd|Hd].
  { apply HQ; [done|]. split; [|done]. intros _. split; [done | by left]. }
  apply wp_bind, wp_gets. destruct (destid_is_group s (q_destid e)) eqn:Hg.
  - apply wp_bind. unfold destid_get_member_offset. apply wp_bind, wp_gets. rewrite Hg.
    apply wp_bind, wp_destid_to_gindex, wp_bind, wp_get_group_default, wp_ret, wp_ret. apply HQ; [done|].
    unfold job_for. rewrite Hg. rewrite negb_true_iff, Z.eqb_neq, index_from_in by lia.
    split.
    + intros Hin. split; [done|]. right. split; [done|]. by destruct (decide (x ∈ g_printers (default zero_group
        (groups s !! Z.to_nat (q_destid e - MAX_PRINTERS))))).
    + intros [_ [|[_ Hin]]]; [done|]. by intros [].
  - apply HQ; [done|]. split; [done|]. unfold job_for. rewrite Hg. by intros [_ [?|[? _]]].
Qed.

(** The jobs before place [k] are not for it, or do not suit it. *)
Definition passed_over (s : pprd) (k : Z) : Prop :=
  ∀ n e, Z.of_nat n < k → queue s !! n = Some e → q_status e = STATUS_WAITING → job_for s x e →
    unsuitable s e x = true.

Definition looks_from (s : pprd) (k : Z) (s' : pprd) : Prop := tb s' = tb s ∧ passed_over s k.

Lemma same_tables {X} (f : tables → X) s s' : tb s' = tb s → f (tb s') = f (tb s).
Proof. by intros ->. Qed.

Lemma entered_status st now p : p_status (entered st now p) = st.
Proof. unfold entered. by destruct (_ && _). Qed.

(** It has been tried, and there are as many printers as before. *)
Definition answered (n : Z) (s : pprd) : Prop := of_printer x (tried s x) s ∧ printer_count s = n.

Lemma wp_look_for_work s :
  wp (printer_look_for_work x) (λ _ s', answered (printer_count s) s') (λ _ _, True) (λ _, True) s.
Proof.
  unfold printer_look_for_work. apply wp_bind, wp_modify, wp_bind, wp_get_printer; [|done].
  intros p Hp. destruct (Z.eqb_spec (p_status p) PRNSTATUS_IDLE) as [Hidle|]; simpl; [|done].
  set (s1 := on_tb _ s) in *. apply wp_bind. unfold for_queue. apply wp_bind, wp_gets.
  assert (∀ s2, of_printer x (tried s2 x) s2 → printer_count s2 = printer_count s →
    wp unlock (λ _ s', answered (printer_count s) s') (λ _ _, True) (λ _, True) s2) as Hend.
  { intros s2 H2 Hn. apply wp_modify. split; [|done]. eapply aside_tried; [|exact H2]. by apply aside_parts. }
  apply (wp_for (looks_from s1)).
  - split; [done|]. intros n e Hn. lia.
  - intros k s2 Hk [E2 Hpass]. apply wp_bind, wp_job_get_q; [|done]. intros e He.
    assert (at_index (queue s1) k = Some e) as He1 by (unfold queue in *; by rewrite <- E2).
    apply wp_bind, wp_may_print. intros b s3 E3 Hb. rewrite E2 in E3.
    assert (job_for s2 x e ↔ job_for s1 x e) as Hfor.
    { unfold job_for, destid_is_group, printer_count, printers, groups. by rewrite E2. }
    rewrite Hfor in Hb. clear Hfor.
    assert (b = false ∨ unsuitable s1 e x = true → looks_from s1 (k + 1) s3) as Hnext.
    { intros Hcase. split; [done|]. intros n e' Hn He' Hw Hfor.
      destruct (decide (Z.of_nat n = k)) as [Hnk|Hne]; [|apply (Hpass n); [lia | done..]].
      apply at_index_Some in He1 as [_ He1]. rewrite <- Hnk, Nat2Z.id in He1. simplify_eq.
      destruct Hcase as [->|]; [|done]. by destruct Hb as [_ Hb]; discriminate Hb. }
    destruct b; [|by apply wp_ret, Hnext; left]. apply wp_bind.
    assert (at_index (printers s3) x = Some p) as Hp3 by (unfold printers in *; by rewrite E3).
    assert (unsuitable s3 e x = unsuitable s1 e x) as Eu.
    { unfold unsuitable, group_held, printer_bit, destid_is_group, printer_count, printers, groups. by rewrite E3. }
    eapply wp_mono; [apply (wp_printer_start x (Jq k) p e s3 Hp3) | | done | done].
    { apply wp_job_get_q; [|done]. intros e' He'. unfold queue in *. rewrite E3 in He'. split; [congruence | done]. }
    intros r s4 [_ Hr]. rewrite Hidle, Z.eqb_refl in Hr. cbn [negb] in Hr. rewrite Eu in Hr. apply wp_ret.
    destruct (unsuitable s1 e x) eqn:Hu; [destruct Hr as [-> ->]; apply Hnext; by right|].
    destruct Hr as [(-> & (pid & z & _ & Ep & _) & _)|[-> (Ep & _)]]; cbn;
      (apply Hend; [eexists; split; [rewrite Ep; apply at_index_upd; exact Hp3|]
         | unfold printer_count; rewrite Ep, length_upd_index; unfold printers; by rewrite E3]).
    + left. apply entered_status.
    + right; left. apply entered_status.
  - intros s2 [E2 Hpass]. apply Hend; [|unfold printer_count, printers; by rewrite E2]. exists p. split; [unfold printers in *; by rewrite E2|].
    right; right. split; [done|]. intros e Hin Hw Hfor.
    unfold nothing_to_do, unsuitable, job_for, group_held, printer_bit, destid_is_group, printer_count,
      printers, groups, queue in *. rewrite E2 in *.
    apply list_elem_of_lookup in Hin as [n Hn]. apply (Hpass n e); try done.
    apply lookup_lt_Some in Hn. lia.
Qed.

(** ** The clock of a printer *)

Definition tick_of (y : Z) : P unit :=
  b ← retry_expired y;
  when b (printer_new_status y PRNSTATUS_IDLE;; printer_look_for_work y).

Lemma other_tick y s : y ≠ x → printer_count s ≤ MAX_PRINTERS → calmly (tick_of y) s.
Proof.
  intros Hne Hmax. unfold tick_of. apply calmly_bind.
  - unfold retry_expired. apply wp_bind, wp_get_printer; [|done]. intros p Hp. cbv zeta.
    case_match; [|by apply wp_ret, aside_refl].
    apply wp_bind, wp_c_int; [intros _|done]. apply wp_bind, wp_upd_printer; [|done]. intros p' _. apply wp_ret.
    apply at_index_lt in Hp. eapply (aside_other y); [lia | done | done..].
  - intros b s1 H1. rewrite <- (aside_count _ _ H1) in Hmax. destruct b; cbn [when]; [|apply aside_refl].
    apply calmly_bind; [by apply other_new_status|]. intros _ s2 H2.
    apply other_look_for_work; [done|]. by rewrite (aside_count _ _ H2).
Qed.

Lemma own_tick_tried s :
  of_printer x (tried s x) s →
  wp (tick_of x) (λ _ s', answered (printer_count s) s') (λ _ _, True) (λ _, True) s.
Proof.
  intros HI. assert (answered (printer_count s) s) as Ha by done. unfold tick_of, retry_expired. apply wp_bind, wp_bind, wp_get_printer; [|done].
  intros p Hp. cbv zeta. pose proof HI as (q & Hq & Ht). assert (q = p) as -> by congruence.
  unfold tried, p_status in Ht. by destruct Ht as [-> | [-> | [-> _]]].
Qed.

(** The time left for a printer that waits. *)
Definition after_tick (c : Z) (s : pprd) : Prop :=
  of_printer x (λ p, if c <=? TICK_INTERVAL then tried s x p else waiting_again (c - TICK_INTERVAL) p) s.

Lemma own_tick_waiting c s :
  of_printer x (waiting_again c) s → 
  wp (tick_of x) (λ _ s', after_tick c s' ∧ printer_count s' = printer_count s) (λ _ _, True) (λ _, True) s.
Proof.
  intros (p & Hp & Hw). unfold tick_of, retry_expired. apply wp_bind, wp_bind, wp_get_printer; [|done].
  intros p' Hp'. assert (p' = p) as -> by congruence. cbv zeta. pose proof Hw as [Hst <-].
  assert (((ps_status (p_spool_state p) =? PRNSTATUS_FAULT) && negb (ps_next_error_retry (p_spool_state p) =? 0)) ||
    (ps_status (p_spool_state p) =? PRNSTATUS_ENGAGED) = true) as ->.
  { unfold p_status in Hst. destruct Hst as [[-> Hn%Z.eqb_neq]| ->]; [|by rewrite orb_true_r]. by rewrite Hn. }
  apply wp_bind, wp_c_int; [intros _|done]. apply wp_bind, wp_upd_printer; [|done]. intros q Hq. apply wp_ret.
  set (s1 := on_tb _ s).
  assert (printer_count s1 = printer_count s) as Hn by (unfold printer_count, printers; simpl; by rewrite length_upd_index).
  unfold after_tick. destruct (Z.leb_spec (ps_countdown (p_spool_state p) - TICK_INTERVAL) 0);
    destruct (Z.leb_spec (ps_countdown (p_spool_state p)) TICK_INTERVAL); try lia; cbn [when].
  - apply wp_bind. eapply wp_printer_new_status; [unfold printers; simpl; apply at_index_upd; exact Hp | | | done].
    + unfold p_status in *. simpl. destruct Hst as [[-> _]| ->]; done.
    + intros s2 [E2 _] _. assert (printer_count s2 = printer_count s) as <-
        by (rewrite <-Hn; unfold printer_count; by rewrite E2, length_upd_index).
      apply wp_look_for_work.
  - split; [|done]. eexists. split; [unfold printers; simpl; apply at_index_upd; exact Hp|]. done.
Qed.

(** ** The tick *)

(** What a printer that is left alone keeps, and what one that was starved has
    when it has been tried. *)
Record lasts (I : pprd → Prop) : Prop := {
  lasts_aside : ∀ s s', aside s s' → I s → I s';
  lasts_fed : ∀ s p, I s → at_index (printers s) x = Some p → p_status p = PRNSTATUS_STARVED →
    ∀ s', of_printer x (tried s' x) s' → I s';
}.

Definition within (I : pprd → Prop) (s : pprd) : Prop := I s ∧ printer_count s ≤ MAX_PRINTERS.

Lemma within_aside I s s' : lasts I → aside s s' → within I s → within I s'.
Proof. intros HI Ha [Hs Hn]. split; [by apply (lasts_aside I HI s) | by rewrite (aside_count _ _ Ha)]. Qed.

Lemma feed_one_ok (I : pprd → Prop) s :
  lasts I → within I s → wp feed_one (λ _ s', within I s') (λ _ _, True) (λ _, True) s.
Proof.
  intros HI Hs. unfold feed_one. apply wp_bind, wp_gets. case_match; [by apply wp_ret|].
  apply wp_bind, wp_gets, wp_bind, wp_modify, wp_bind, wp_gets.
  set (s1 := on_tb _ s). set (hx := t_hungry_x (tb s1)).
  assert (aside s s1) as H1 by (apply aside_parts; unfold s1, queue, groups, printers; simpl; by case_match).
  apply (within_aside I _ _ HI H1) in Hs. clear H1. clearbody hx s1. destruct Hs as [Hs Hmax].
  assert (∀ s2, within I s2 → wp (modify_tb (λ t, set_t_hungry_x (t_hungry_x t + 1) t);; mret (M := M pprd) (None (A := unit)))
    (λ _ s', within I s') (λ _ _, True) (λ _, True) s2) as Hend.
  { intros s2 H2. apply wp_bind, wp_modify, wp_ret. eapply within_aside; [done | | exact H2]. by apply aside_parts. }
  apply wp_bind, wp_get_printer; [|done]. intros p Hp.
  apply wp_bind, wp_when; intros Hb; [|by apply Hend]. apply Z.eqb_eq in Hb.
  destruct (decide (hx = x)) as [->|Hne].
  - apply wp_bind. eapply wp_printer_new_status; [exact Hp | by rewrite Hb | | done].
    intros s2 [E2 _] _. apply wp_bind, wp_modify. eapply wp_mono; [apply wp_look_for_work | | done | done].
    intros u s3 [H3 Hn3]. apply Hend. split; [by apply (lasts_fed I HI s1 p)|].
    rewrite Hn3. unfold printer_count, printers in *. simpl. by rewrite E2, length_upd_index.
  - eapply wp_mono; [apply (calmly_bind (printer_new_status hx PRNSTATUS_IDLE)) | | done | done].
    + by apply other_new_status.
    + intros _ s2 H2. apply calmly_bind; [by apply calm_tb|]. intros _ s3 H3.
      apply other_look_for_work; [done|]. by rewrite (aside_count _ _ H3), (aside_count _ _ H2).
    + intros u s2 H2. apply Hend. by apply (within_aside I s1).
Qed.

(** A tick, when the printer's own turn makes [I'] of [I]. *)
Lemma tick_ok I I' s :
  lasts I → lasts I' → 0 ≤ x < printer_count s →
  (∀ s, I s → wp (tick_of x) (λ _ s', I' s' ∧ printer_count s' = printer_count s) (λ _ _, True) (λ _, True) s) →
  within I s → wp tick (λ _ s', within I' s') (λ _ _, True) (λ _, True) s.
Proof.
  intros HI HI' Hx Hown Hs. unfold tick. apply wp_bind. unfold printer_tick.
  eapply (wp_mono _ (λ _ s', within I' s') _ (λ _ _, True) _ (λ _, True)); [|intros u s1 Hs1|done|done].
  2: { eapply wp_mono; [apply calm_question_tick| |done|done]. intros [] s2 Ha. by apply (within_aside I' s1). }
  apply wp_bind, wp_gets, wp_bind. unfold printer_count in Hx.
  apply (wp_for_each (λ y s, within (if decide (x < y) then I' else I) s)).
  - by rewrite decide_False by lia.
  - intros y s1 Hy [Hs1 Hn]. change (wp (tick_of y)
      (λ _ s', within (if decide (x < y + 1) then I' else I) s') (λ _ _, True) (λ _, True) s1).
    destruct (decide (y = x)) as [->|Hne].
    + rewrite decide_True by lia. rewrite decide_False in Hs1 by lia.
      eapply wp_mono; [by apply Hown | |done|done]. intros u s2 [H2 E2]. split; [done | by rewrite E2].
    + eapply wp_mono; [by apply other_tick | |done|done]. intros u s2 Ha.
      destruct (decide (x < y)); [rewrite decide_True by lia | rewrite decide_False by lia];
        by eapply within_aside; [| exact Ha |].
  - intros s1 Hs1. rewrite decide_True in Hs1 by lia.
    assert (aside s1 (on_tb (λ t, set_t_hungry_countdown (t_hungry_countdown t - TICK_INTERVAL) t) s1)) as Ha
      by by apply aside_parts.
    apply (within_aside I' _ _ HI' Ha) in Hs1. clear Ha.
    apply wp_bind, wp_modify, wp_bind, wp_gets, wp_when; [intros _|done].
    apply wp_bind, wp_modify, wp_bind. apply (wp_for (λ _, within I')); [| |done].
    + eapply within_aside; [done | | exact Hs1]. by apply aside_parts.
    + intros y s2 _ Hs2. eapply wp_mono; [by apply feed_one_ok| |done|done]. intros [[]|] s3 Hs3; [|done].
      by apply wp_ret.
Qed.

(** ** The two kinds of state *)

Lemma lasts_tried : lasts (λ s, of_printer x (tried s x) s).
Proof. split; [intros s s'; apply aside_tried | done]. Qed.

Lemma lasts_waiting c : lasts (of_printer x (waiting_again c)).
Proof.
  split; [intros s s'; apply aside_of|]. intros s p (q & Hq & [Hw _]) Hp Hst.
  simplify_eq. rewrite Hst in Hw. by destruct Hw as [[? _]|?].
Qed.

Lemma lasts_after c : lasts (after_tick c).
Proof.
  unfold after_tick. destruct (c <=? TICK_INTERVAL); [apply lasts_tried | apply lasts_waiting].
Qed.

Lemma tick_turn I I' s w u s' :
  lasts I → lasts I' → (∀ s, I s → ∃ p, at_index (printers s) x = Some p) →
  (∀ s, I s → wp (tick_of x) (λ _ s', I' s' ∧ printer_count s' = printer_count s) (λ _ _, True) (λ _, True) s) →
  within I s → handle InTick (mkPprd (tb s) w) = Done u s' → within I' s'.
Proof.
  intros HI HI' Hex Hown Hs E.
  assert (within I (mkPprd (tb s) w)) as Hs' by (apply (within_aside I s); [done | by apply aside_tb | done]).
  destruct (Hex _ (proj1 Hs')) as [p Hp%at_index_lt].
  pose proof (tick_ok I I' (mkPprd (tb s) w) HI HI' Hp Hown Hs') as Ht. unfold wp in Ht.
  change (handle InTick (mkPprd (tb s) w)) with (tick (mkPprd (tb s) w)) in E. by rewrite E in Ht.
Qed.

(** The ticks so far have used up the countdown, or they have not. *)
Lemma ticks_so_far c n s s' :
  within (of_printer x (waiting_again c)) s → ticks n s s' →
  (0 < n)%nat ∧ c ≤ TICK_INTERVAL * Z.of_nat n ∧ within (λ s, of_printer x (tried s x) s) s' ∨
  (n = 0%nat ∨ TICK_INTERVAL * Z.of_nat n < c) ∧
  within (of_printer x (waiting_again (c - TICK_INTERVAL * Z.of_nat n))) s'.
Proof.
  intros Hc Ht. unfold TICK_INTERVAL. induction Ht as [s|n s s1 w u s' Ht IH _ E].
  { right. split; [by left|]. by rewrite Z.mul_0_r, Z.sub_0_r. }
  destruct (IH Hc) as [(Hn & Hle & HI)|[Hn HI]].
  - left. split; [lia|]. split; [lia|].
    apply (tick_turn _ _ _ _ _ _ lasts_tried lasts_tried ltac:(intros ? (? & ? & _); eauto) own_tick_tried HI E).
  - set (c' := c - 5 * Z.of_nat n) in HI.
    assert (within (after_tick c') s') as [HI' Hmax].
    { apply (tick_turn _ _ _ _ _ _ (lasts_waiting c') (lasts_after c') ltac:(intros ? (? & ? & _); eauto)
        (own_tick_waiting c') HI E). }
    unfold after_tick, TICK_INTERVAL in HI'. subst c'.
    destruct (Z.leb_spec (c - 5 * Z.of_nat n) 5) as [Hle|Hle].
    + left. split; [lia|]. split; [lia | by split].
    + right. split; [right; lia|]. split; [|done].
      by replace (c - 5 * Z.of_nat (S n)) with (c - 5 * Z.of_nat n - 5) by lia.
Qed.
End retry.

(** C10: A printer that has failed, or was found engaged, and waits to be tried
    again, is tried again in time, and not before: while the ticks have not used
    up its countdown it waits for the rest of it, and as soon as they have, it
    has looked for work, whatever the other printers and the jobs were doing
    meanwhile.  From then on it prints, or waits for one of the places for active
    printers, or it is idle and every job that waits for it, or for a group it is
    in, is one that does not suit it.  (printers[] has room for MAX_PRINTERS.) *)
Theorem a_printer_that_waits_is_tried_in_time `{PPRConfig} x c n s s' :
  printer_count s ≤ MAX_PRINTERS →
  of_printer x (waiting_again c) s → ticks n s s' →
  ((0 < n)%nat → c ≤ TICK_INTERVAL * Z.of_nat n → of_printer x (tried s' x) s') ∧
  (TICK_INTERVAL * Z.of_nat n < c → of_printer x (waiting_again (c - TICK_INTERVAL * Z.of_nat n)) s').
Proof.
  intros Hmax Hc Ht. unfold TICK_INTERVAL.
  destruct (ticks_so_far x c n s s' (conj Hc Hmax) Ht) as [(? & ? & [HI _])|[Hn [HI _]]];
    unfold TICK_INTERVAL in *; (split; intros); [done | lia | destruct Hn; lia | done].
Qed.

(** Two ticks for a printer with ten seconds to go. *)
Definition waiting_printer : pprd :=
  with_status (set_ps_countdown 10 (p_spool_state (first_printer fault_state))) fault_state.

Lemma a_printer_that_waits_is_tried_in_time_witness :
  of_printer 0 (tried (after tick (after tick waiting_printer)) 0) (after tick (after tick waiting_printer)).
Proof.
  apply (a_printer_that_waits_is_tried_in_time 0 10 2 waiting_printer); [| | |lia|unfold TICK_INTERVAL; lia].
  - vm_compute. discriminate.
  - eexists. split; [vm_compute; reflexivity|]. split; [left; by vm_compute|reflexivity].
  - eapply (ticks_more 1 _ (after tick waiting_printer) (io (after tick waiting_printer)) tt).
    + eapply (ticks_more 0 _ _ (io waiting_printer) tt); [apply ticks_none|by split|].
      vm_compute. reflexivity.
    + by split.
    + vm_compute. reflexivity.
Defined.
