(* ===== verification/CancelEffect.v ===== *)
(** What canceling does to the queue, and that it comes to an end: the loop of
    ppop cancel works on a queue that it shortens itself. *)
From S2P Require Import Prelude.
From S2P Require Import Text.
From S2P Require Import Spooler.
From S2P Require Import SpoolerFacts.
From S2P Require Import Destid.
From S2P Require Import QueueStatus.
From S2P Require Import Printer.
From S2P Require Import PprdrvExit.
From S2P Require Import PpopJobs.
From S2P Require Import Change.
From S2P Require Import Refine.
From S2P Require Import Effects.
From S2P Require Import Consistency.
From S2P Require Import ConsistentExit.

(** * Routines that do not run out of fuel *)

Definition fueled {A} (m : P A) : Prop :=
  ∀ s, wp m (λ _ _, True) (λ _ _, True) (λ r, r ≠ SFuel) s.

Create HintDb fueled discriminated.

Section fueled.

Lemma fueled_total {A} (m : P A) : (∀ s, match m s with Stopped SFuel => False | _ => True end) → fueled m.
Proof. intros Hm s. specialize (Hm s). unfold wp. destruct (m s) as [| |[]]; congruence || done. Qed.

Lemma fueled_bind {A B} (m : P A) (f : A → P B) :
  fueled m → (∀ a, fueled (f a)) → fueled (m ≫= f).
Proof.
  intros Hm Hf s. apply wp_bind. eapply wp_mono; [apply Hm | | done | done].
  intros a s' _. apply Hf.
Qed.

Lemma fueled_when b (m : P unit) : fueled m → fueled (when b m).
Proof. destruct b; [done | by intros ? ?]. Qed.

Lemma fueled_for {B} n lo (body : Z → P (option B)) :
  (∀ y, fueled (body y)) → fueled (for_loop n lo body).
Proof.
  revert lo. induction n as [|n IH]; intros lo Hb; simpl; [by intros ?|].
  apply fueled_bind; [apply Hb|]. intros [b|]; [by intros ? | auto].
Qed.

Lemma fueled_for_queue {B} (body : Z → P (option B)) :
  (∀ y, fueled (body y)) → fueled (for_queue body).
Proof.
  intros Hb. apply fueled_bind; [by intros ?|]. intros. by apply fueled_for.
Qed.

Lemma fueled_get_printer i : fueled (get_printer i).
Proof. apply fueled_total. intros s. unfold get_printer. by destruct (at_index _ _). Qed.

Lemma fueled_get_group i : fueled (get_group i).
Proof. apply fueled_total. intros s. unfold get_group. by destruct (_ && _). Qed.

Lemma fueled_job_get j : fueled (job_get j).
Proof. apply fueled_total. intros s. destruct j; [|done]. simpl. by destruct (at_index _ _). Qed.

Lemma fueled_c_int z : fueled (c_int z).
Proof. apply fueled_total. intros s. unfold c_int. by destruct (_ && _). Qed.

Lemma fueled_fname p va : fueled (fname p va).
Proof. apply fueled_total. intros s. unfold fname. by destruct (ppr_fnamef p va). Qed.

Lemma fueled_cstr o : fueled (cstr o).
Proof. apply fueled_total. by destruct o. Qed.

Lemma fueled_jobid_str d i j : fueled (jobid_str d i j).
Proof. apply fueled_total. intros s. unfold jobid_str. by destruct (jobid _ _ _ _). Qed.

Lemma fueled_charge_args i : fueled (charge_args i).
Proof. apply fueled_total. intros s. unfold charge_args. by destruct (at_index _ _). Qed.
End fueled.

#[export] Hint Resolve fueled_get_printer fueled_get_group fueled_job_get fueled_c_int
  fueled_fname fueled_cstr fueled_jobid_str fueled_charge_args : fueled.

(** The routines that always return, throw or give a reason of their own. *)
#[export] Hint Extern 4 (fueled _) => solve [intros ?; exact I | by intros ?] : fueled.

Ltac fueled_step :=
  lazymatch goal with
  | |- ∀ _, _ => intro
  | |- fueled (_ ≫= _) => apply fueled_bind
  | |- fueled (when _ _) => apply fueled_when
  | |- fueled (for_loop _ _ _) => apply fueled_for
  | |- fueled (for_queue _) => apply fueled_for_queue
  | |- fueled (if ?b then _ else _) => destruct b
  | |- fueled (match ?x with _ => _ end) => destruct x
  | |- fueled (let _ := _ in _) => cbv zeta
  | |- fueled _ => solve [eauto 2 with fueled]
  end.

Ltac fueled_routine := repeat fueled_step.

Section cancel.
Context `{PPRConfig}.

Lemma fueled_destid_to_gindex d : fueled (destid_to_gindex d).
Proof. unfold destid_to_gindex. fueled_routine. Qed.
Hint Resolve fueled_destid_to_gindex : fueled.

Lemma fueled_destid_to_name d : fueled (destid_to_name d).
Proof. unfold destid_to_name, is_group. fueled_routine. Qed.
Hint Resolve fueled_destid_to_name : fueled.

Lemma fueled_upd_printer i f : fueled (upd_printer i f).
Proof. unfold upd_printer. fueled_routine. Qed.

Lemma fueled_upd_gstate i f : fueled (upd_gstate i f).
Proof. unfold upd_gstate, upd_group. fueled_routine. Qed.

Lemma fueled_upd_pstate i f : fueled (upd_pstate i f).
Proof. apply fueled_upd_printer. Qed.

Lemma fueled_job_upd j f : fueled (job_upd j f).
Proof. unfold job_upd. fueled_routine. Qed.

Lemma fueled_save_to n l : fueled (save_to n l).
Proof. unfold save_to. fueled_routine. Qed.
Hint Resolve fueled_upd_printer fueled_upd_gstate fueled_upd_pstate fueled_job_upd
  fueled_save_to : fueled.

Lemma fueled_save_printer_state i : fueled (save_printer_state i).
Proof. unfold save_printer_state, printer_spool_state_save. fueled_routine. Qed.

Lemma fueled_save_group_state i : fueled (save_group_state i).
Proof. unfold save_group_state, group_spool_state_save. fueled_routine. Qed.

Lemma fueled_pst_update i p : fueled (pst_update i p).
Proof. unfold pst_update, pst_with_job, printing_jobid. fueled_routine. Qed.

Lemma fueled_tell_waiting_ppop i : fueled (tell_waiting_ppop i).
Proof. unfold tell_waiting_ppop, kill. fueled_routine. Qed.
Hint Resolve fueled_save_printer_state fueled_save_group_state fueled_pst_update
  fueled_tell_waiting_ppop : fueled.

Lemma fueled_printer_new_status i st : fueled (printer_new_status i st).
Proof. unfold printer_new_status. fueled_routine. Qed.

Lemma fueled_write_status j : fueled (queue_write_status_and_flags j).
Proof. unfold queue_write_status_and_flags. fueled_routine. Qed.
Hint Resolve fueled_printer_new_status fueled_write_status : fueled.

Lemma fueled_queue_p_job_new_status j st : fueled (queue_p_job_new_status j st).
Proof. unfold queue_p_job_new_status. fueled_routine. Qed.

Lemma fueled_pprdrv_kill i : fueled (pprdrv_kill i).
Proof. unfold pprdrv_kill, kill. fueled_routine. Qed.

Lemma fueled_respond d i j p r : fueled (respond d i j p r).
Proof. unfold respond, respond2, fork. fueled_routine. Qed.

Lemma fueled_delete_job_files q i j : fueled (delete_job_files q i j).
Proof. unfold delete_job_files, unlink_job_file. fueled_routine. Qed.

Lemma fueled_job_count_adjust d i f : fueled (job_count_adjust d i f).
Proof. unfold job_count_adjust, is_group. fueled_routine. Qed.
Hint Resolve fueled_queue_p_job_new_status fueled_pprdrv_kill fueled_respond
  fueled_delete_job_files fueled_job_count_adjust : fueled.

Lemma fueled_queue_dequeue_job d i j : fueled (queue_dequeue_job d i j).
Proof. unfold queue_dequeue_job. fueled_routine. Qed.
Hint Resolve fueled_queue_dequeue_job : fueled.

Lemma fueled_cancel_one f x e b : fueled (cancel_one f x e b).
Proof.
  unfold cancel_one, cancel_printing_job, cancel_seizing_job, remove_idle_job. fueled_routine.
Qed.

(** * The queue *)

(** The names of the jobs, and what follows the job at hand. *)
Definition keys_after (x : Z) (t : tables) : list (Z * Z * Z) * list QEntry :=
  (map key (t_queue t), drop (S (Z.to_nat x)) (t_queue t)).

Lemma drop_upd_index {A} x (f : A → A) l :
  drop (S (Z.to_nat x)) (upd_index x f l) = drop (S (Z.to_nat x)) l.
Proof.
  apply list_eq. intros n. rewrite !lookup_drop. unfold upd_index.
  apply list_lookup_alter_ne. lia.
Qed.

Lemma keys_after_upd x f t :
  (∀ e, key (f e) = key e) →
  keys_after x (set_t_queue (upd_index x f (t_queue t)) t) = keys_after x t.
Proof. intros Hf. unfold keys_after. simpl. by rewrite map_key_upd, drop_upd_index. Qed.

Lemma keys_job_new_status x st : frames (keys_after x) (queue_p_job_new_status (Jq x) st).
Proof.
  intros s. apply wp_queue_p_job_new_status. intros s' Eq _.
  assert (keys_after x (tb s') = keys_after x (tb s)) as E; [|by split].
  unfold keys_after, queue in *. rewrite Eq.
  change (map key (upd_index x (set_q_status (i16 st)) (t_queue (tb s)))) with
    (map key (t_queue (set_t_queue (upd_index x (set_q_status (i16 st)) (t_queue (tb s))) (tb s)))).
  simpl. by rewrite map_key_upd, drop_upd_index.
Qed.

Lemma keys_lock x : frames (keys_after x) lock.
Proof. by apply frames_tb. Qed.

Lemma keys_unlock x : frames (keys_after x) unlock.
Proof. by apply frames_tb. Qed.
Hint Resolve keys_job_new_status keys_lock keys_unlock : frames.
Hint Resolve reads_pst_update reads_pprdrv_kill reads_respond reads_delete_job_files
  reads_save_printer_state reads_save_group_state : reads.

Lemma keys_printer_new_status x i st : frames (keys_after x) (printer_new_status i st).
Proof. unfold printer_new_status, tell_waiting_ppop. frame_routine. Qed.
Hint Resolve keys_printer_new_status : frames.

Lemma keys_cancel_printing_job x i : frames (keys_after x) (cancel_printing_job x i).
Proof. unfold cancel_printing_job. frame_routine. Qed.

Lemma keys_cancel_seizing_job f x e : frames (keys_after x) (cancel_seizing_job f x e).
Proof. unfold cancel_seizing_job. frame_routine. Qed.

Lemma queue_job_count_adjust d i f : frames t_queue (job_count_adjust d i f).
Proof. unfold job_count_adjust. frame_routine. Qed.

(** The first job of that name leaves the queue. *)
Lemma wp_queue_dequeue_job d i j s (Q : unit → pprd → Prop) X :
  (∀ x s', first_at (is_job d i j) (queue s) x →
    queue s' = delete (Z.to_nat x) (queue s) → Q tt s') →
  (∀ s', Forall (λ e, is_job d i j e = false) (queue s) → queue s' = queue s → Q tt s') →
  (∀ e s', X e s') →
  wp (queue_dequeue_job d i j) Q X (λ _, True) s.
Proof.
  intros HQ Hnone HX. unfold queue_dequeue_job.
  apply wp_bind_reads; [eauto with reads | | auto | done]. intros name s1 E1.
  apply wp_bind_reads; [eauto with reads | | auto | done]. intros full s2 E2.
  apply wp_bind, wp_modify, wp_bind, wp_modify. set (s3 := on_tb _ _).
  assert (queue s3 = queue s) as E3 by (unfold s3, queue; simpl; by rewrite E2, E1).
  clearbody s3. rewrite <- E3 in *. clear E3 E1 E2 s1 s2 s.
  apply wp_bind, wp_first_job.
  - intros x e He Ht Hb.
    apply wp_bind_reads; [apply reads_delete_job_files | | auto | done].
    intros _ s4 E4. apply wp_bind, wp_modify.
    apply (wp_bind_frames t_queue); [apply queue_job_count_adjust | | auto | done].
    intros _ s5 E5. apply wp_ret, wp_modify. apply (HQ x).
    + split; [by exists e | done].
    + unfold queue in *. simpl in *. by rewrite E5, E4.
  - intros Hno. apply wp_modify. by apply Hnone.
Qed.

(** ** One job *)

(** A job that some printer is at work on stays until pprdrv has ended. *)
Definition in_use (e : QEntry) : bool :=
  (0 <=? q_status e) || (q_status e =? STATUS_CANCEL) || (q_status e =? STATUS_SEIZING).

Lemma first_is_unique q x e y :
  NoDup (map key q) → at_index q x = Some e →
  first_at (is_job (q_destid e) (q_id e) (q_subid e)) q y → y = x.
Proof.
  intros Hk Hx [(e' & Hy & Ht%is_job_key) _].
  apply at_index_Some in Hx as [Hx0 Hx], Hy as [Hy0 Hy].
  assert (Z.to_nat y = Z.to_nat x); [|lia].
  apply (NoDup_lookup (key <$> q) _ _ (key e)); [done | |];
    rewrite list_lookup_fmap, ?Hx, ?Hy; [exact (f_equal Some Ht) | done].
Qed.

Lemma wp_cancel_one f x e inform s (Q : bool → pprd → Prop) X :
  NoDup (map key (queue s)) → at_index (queue s) x = Some e →
  (∀ s', in_use e = true → keys_after x (tb s') = keys_after x (tb s) → Q false s') →
  (∀ s', in_use e = false → queue s' = delete (Z.to_nat x) (queue s) → Q true s') →
  (∀ e s', X e s') →
  wp (cancel_one f x e inform) Q X (λ r, r ≠ SFuel) s.
Proof.
  intros Hk He Hstay Hgone HX.
  cut (wp (cancel_one f x e inform) Q X (λ _, True) s).
  { intros L. eapply wp_mono; [apply (wp_and _ _ _ _ _ _ _ _ L (fueled_cancel_one f x e inform s))
      | by intros ? ? [] | by intros ? ? [] | by intros ? []]. }
  assert (∀ (m : P unit), in_use e = true → frames (keys_after x) m →
    wp (m;; mret false) Q X (λ _, True) s) as Hin.
  { intros m Hu Hm. apply (wp_bind_frames (keys_after x)); [done | | auto | done].
    intros _ s' E. apply wp_ret. by apply Hstay. }
  unfold cancel_one, in_use in *.
  destruct (Z.leb_spec 0 (q_status e)); [by apply Hin, keys_cancel_printing_job|].
  destruct (Z.eqb_spec (q_status e) STATUS_CANCEL); [apply wp_ret; by apply Hstay|].
  destruct (Z.eqb_spec (q_status e) STATUS_SEIZING); [by apply Hin, keys_cancel_seizing_job|].
  unfold remove_idle_job. apply wp_bind, (wp_bind_reads _ _ _ X);
    [apply reads_when; eauto with reads | | auto | done].
  intros _ s1 E1. assert (queue s1 = queue s) as Eq by (unfold queue; by rewrite E1).
  apply wp_queue_dequeue_job; [| | auto].
  - intros y s2 Hy E2. apply wp_ret, Hgone; [done|]. rewrite Eq in *.
    by rewrite (first_is_unique _ _ _ _ Hk He Hy) in E2.
  - intros s2 Hno _. rewrite Eq, Forall_forall in Hno.
    apply at_index_Some in He as [_ He]. apply list_elem_of_lookup_2 in He.
    specialize (Hno e He). unfold is_job in Hno. by rewrite !Z.eqb_refl in Hno.
Qed.
End cancel.
