(* ===== verification/PropPrinter.v ===== *)
(** Properties of the printers: their status, which job starts on which, who
    starves, the retries, and the commands that stop and start a printer. *)
From S2P Require Import Prelude.
From S2P Require Import Text.
From S2P Require Import Spooler.
From S2P Require Import SpoolerFacts.
From S2P Require Import Destid.
From S2P Require Import QueueStatus.
From S2P Require Import Media.
From S2P Require Import Printer.
From S2P Require Import PprdrvExit.
From S2P Require Import PpopJobs.
From S2P Require Import PpopPrinters.
From S2P Require Import Main.
From S2P Require Import Sample.
From S2P Require Import Change.
From S2P Require Import Refine.
From S2P Require Import RefineCommands.
From S2P Require Import Effects.
From S2P Require Import Consistency.

(** * Specifications *)

(** What a command to stop, or to halt, makes of a printer's status, and
    whether the printer will only stop later. *)
Definition stop_target (status : Z) (halt : bool) : option Z :=
  if existsb (Z.eqb status)
       [PRNSTATUS_FAULT; PRNSTATUS_IDLE; PRNSTATUS_ENGAGED; PRNSTATUS_STARVED]
  then Some PRNSTATUS_STOPT
  else if existsb (Z.eqb status) [PRNSTATUS_CANCELING; PRNSTATUS_SEIZING]
  then Some PRNSTATUS_HALTING
  else if status =? PRNSTATUS_STOPPING then
    if halt then Some PRNSTATUS_HALTING else None
  else if status =? PRNSTATUS_PRINTING then
    Some (if halt then PRNSTATUS_HALTING else PRNSTATUS_STOPPING)
  else None.

Definition stops_later (status : Z) (halt : bool) : bool :=
  match stop_target status halt with
  | Some st => negb (st =? PRNSTATUS_STOPT)
  | None => false
  end.

(** The members of a group in the order in which they are tried, each as the
    printer the job might start on. *)
Fixpoint attempts `{PPRConfig} (l : list Z) (j : jobptr) : P unit :=
  match l with
  | [] => mret tt
  | prnid :: l' => r ← printer_start prnid j; if r =? 0 then mret tt else attempts l' j
  end.

Fixpoint visited (n : nat) (mem : list Z) (y : Z) : list Z :=
  match n with
  | O => []
  | S n' =>
      let y' := Z.rem (y + 1) (Z.of_nat (length mem)) in
      default 0 (at_index mem y') :: visited n' mem y'
  end.

Lemma visited_take n mem y :
  -1 ≤ y < Z.of_nat (length mem) → (n ≤ length mem)%nat →
  visited n mem y = take n (drop (Z.to_nat (y + 1)) mem ++ mem).
Proof.
  revert y. induction n as [|n IH]; intros y Hy Hn; [done|]. simpl.
  destruct (decide (y + 1 < Z.of_nat (length mem))) as [Hlt|Hge].
  - rewrite Z.rem_small by lia. rewrite IH by lia.
    destruct (at_index_ge mem (y + 1)) as [m Hm]; [lia|]. rewrite Hm.
    apply at_index_Some in Hm as [_ Hm]. rewrite (drop_S _ _ _ Hm). simpl.
    by replace (Z.to_nat (y + 1 + 1)) with (S (Z.to_nat (y + 1))) by lia.
  - replace (y + 1) with (Z.of_nat (length mem)) by lia.
    rewrite Z.rem_same by lia. rewrite IH by lia. rewrite Nat2Z.id, drop_all. simpl.
    destruct mem as [|m mem]; simpl in *; [lia|]. f_equal.
    change (Z.to_nat 1) with 1%nat. simpl. rewrite drop_0. rewrite take_app_le; [done | lia].
Qed.

(** Every member once, from the one after [y] on. *)
Lemma visited_rotation mem y :
  -1 ≤ y < Z.of_nat (length mem) →
  visited (length mem) mem y = drop (Z.to_nat (y + 1)) mem ++ take (Z.to_nat (y + 1)) mem.
Proof.
  intros Hy. rewrite visited_take by lia.
  rewrite take_app_ge by (rewrite length_drop; lia).
  f_equal. f_equal. rewrite length_drop. lia.
Qed.

Section printer.
Context `{PPRConfig}.

Lemma try_members_attempts n gindex y j s mem :
  0 ≤ gindex < MAX_GROUPS →
  g_printers (default zero_group (groups s !! Z.to_nat gindex)) = mem →
  -1 ≤ y < Z.of_nat (length mem) → mem ≠ [] →
  try_members n gindex y j s = attempts (visited n mem y) j s.
Proof.
  intros Hg Hm Hy Hne. assert (0 < Z.of_nat (length mem)) as Hlen by (destruct mem; simpl; [done|lia]).
  revert y s Hm Hy. induction n as [|n IH]; intros y s Hm Hy; [done|]. simpl.
  unfold mbind at 1, M_bind at 1, get_group.
  assert ((0 <=? gindex) && (gindex <? MAX_GROUPS) = true) as -> by lia.
  unfold g_members. rewrite Hm. set (y' := Z.rem (y + 1) (Z.of_nat (length mem))).
  assert (0 ≤ y' < Z.of_nat (length mem)) as Hy' by (unfold y'; apply Z.rem_bound_pos; lia).
  destruct (at_index_ge mem y' Hy') as [prnid ->]. simpl.
  pose proof (members_printer_start prnid j s) as F. unfold wp in F.
  unfold mbind, M_bind. destruct (printer_start prnid j s) as [r s'| |]; [|done..].
  destruct (r =? 0); [done|]. apply IH; [|lia]. rewrite <- Hm.
  exact (f_equal fst (same_membership s s' _ F)).
Qed.

(** ** The theorems *)

(** C9: which job starts where.  When printer_start() returns, the job was
    waiting.  A printer that is not idle refuses (-1), and so does one the job
    is not suited for (-2: its group is held, the medium is missing, or the
    printer has been found incapable), and nothing changes.  Otherwise the
    printer either takes the job on (0), for which there must be room, or
    starves (-1). *)
Theorem printer_start_takes_only_suitable_jobs i x p e s r s' :
  at_index (printers s) i = Some p → at_index (queue s) x = Some e →
  printer_start i (Jq x) s = Done r s' →
  q_status e = STATUS_WAITING ∧
  if negb (p_status p =? PRNSTATUS_IDLE) then r = -1 ∧ s' = s
  else if unsuitable s e i then r = -2 ∧ s' = s
  else (r = 0 ∧ started i e s s' ∧ no_room (tb s) p = false) ∨ (r = -1 ∧ starved i s s').
Proof.
  intros Hp He E.
  assert (wp (job_get (Jq x)) (λ e' s', e' = e ∧ s' = s) (λ _ _, True) (λ _, True) s) as Hj
    by (apply wp_job_get_q; [intros; split; congruence | done]).
  pose proof (wp_printer_start i (Jq x) p e s Hp Hj) as L. unfold wp in L. by rewrite E in L.
Qed.

(** A job that has been started is marked with its printer's number, and
    the printer with the job's name; the printer has a process and is counted.
    No other job and no other printer is touched. *)
Theorem a_started_job_and_its_printer_point_at_each_other i x p e s s' :
  consistent (tb s) → at_index (printers s) i = Some p → at_index (queue s) x = Some e →
  printer_start i (Jq x) s = Done 0 s' →
  queue s' = upd_index x (set_q_status i) (queue s) ∧
  (∃ q, at_index (printers s') i = Some q ∧ p_status q = PRNSTATUS_PRINTING
        ∧ pkey q = key e ∧ 0 < p_job_pid q) ∧
  (∀ k, k ≠ i → at_index (printers s') k = at_index (printers s) k) ∧
  t_active_printers (tb s') = t_active_printers (tb s) + 1.
Proof.
  intros Hc Hp He E.
  assert (wp (job_get (Jq x)) (λ e' s', e' = e ∧ s' = s) (λ _ _, True) (λ _, True) s) as Hj
    by (apply wp_job_get_q; [intros; split; congruence | done]).
  pose proof (wp_printer_start i (Jq x) p e s Hp Hj) as L. unfold wp in L. rewrite E in L.
  destruct L as [_ L]. destruct (negb _); [by destruct L|]. destruct (unsuitable _ _ _); [by destruct L|].
  destruct L as [(_ & (pid & y & Hpid & Ep & Hy & Eq & Ea & _) & _)|[? _]]; [|done].
  pose proof (at_index_lt _ _ _ Hp) as Hi. pose proof (con_count _ Hc) as Hcount.
  repeat split.
  - assert (y = x) as ->; [|rewrite Eq, i16_small; [done|unfold printers, MAX_PRINTERS in *; lia]].
    destruct Hy as [(e' & He' & Hk) _]. apply is_job_true in Hk as (K1 & K2 & K3).
    apply at_index_Some in He as [Hx0 He], He' as [Hy0 He'].
    assert (Z.to_nat y = Z.to_nat x); [|lia].
    apply (NoDup_lookup (key <$> queue s) _ _ (key e)); [apply (con_keys _ Hc) | |];
      rewrite list_lookup_fmap; unfold queue in *; rewrite ?He, ?He'; [|done].
    unfold key. simpl. congruence.
  - eexists. split; [rewrite Ep; by apply at_index_upd|]. unfold entered.
    by destruct (_ && _).
  - intros k Hk. rewrite Ep. apply at_index_upd_ne; [lia | done].
  - done.
Qed.

(** When as many printers print as may, or those that starve have a claim
    on the places left, an idle printer that did not itself starve before
    starves instead of starting. *)
Theorem a_printer_starves_when_there_is_no_room i x p e s r s' :
  at_index (printers s) i = Some p → at_index (queue s) x = Some e →
  p_status p = PRNSTATUS_IDLE → unsuitable s e i = false → no_room (tb s) p = true →
  printer_start i (Jq x) s = Done r s' →
  r = -1 ∧ starved i s s'.
Proof.
  intros Hp He Hi Hu Hn E.
  assert (wp (job_get (Jq x)) (λ e' s', e' = e ∧ s' = s) (λ _ _, True) (λ _, True) s) as Hj
    by (apply wp_job_get_q; [intros; split; congruence | done]).
  pose proof (wp_printer_start i (Jq x) p e s Hp Hj) as L. unfold wp in L. rewrite E in L.
  destruct L as [_ L]. rewrite Hi, Hu in L. simpl in L.
  destruct L as [(_ & _ & ?)|?]; [congruence | done].
Qed.

(** Printer_new_status() records the old status as the previous one,
    changes only that printer, and leaves the lock as it was. *)
Theorem printer_new_status_changes_one_printer i st p s u s' :
  at_index (printers s) i = Some p → p_status p ≠ PRNSTATUS_DELETED →
  printer_new_status i st s = Done u s' →
  at_index (printers s') i = Some (entered st (w_now (io s)) p) ∧
  (∀ k, k ≠ i → at_index (printers s') k = at_index (printers s) k) ∧
  besides_printers (tb s') = besides_printers (tb s) ∧
  t_lock_level (tb s') = t_lock_level (tb s).
Proof.
  intros Hp Hd E.
  assert (wp (printer_new_status i st) (λ _ s', status_entered i st (w_now (io s)) s s'
    ∧ t_lock_level (tb s') = t_lock_level (tb s)) (λ _ _, True) (λ _, True) s) as L
    by (apply (wp_printer_new_status i st p); auto).
  unfold wp in L. rewrite E in L. destruct L as [[Ep Eb] El].
  pose proof (at_index_lt _ _ _ Hp) as Hi. rewrite Ep.
  split; [by apply at_index_upd|]. split; [|by split].
  intros k Hk. apply at_index_upd_ne; [lia | done].
Qed.

(** Nothing brings a deleted printer back: a change of status leaves the
    tables as they are, whatever the status, and does not fail. *)
Theorem a_deleted_printer_stays_deleted i st p s :
  at_index (printers s) i = Some p → p_status p = PRNSTATUS_DELETED →
  wp (printer_new_status i st) (λ _ s', tb s' = tb s) (λ _ _, False) never s.
Proof. intros Hp Hd. by apply (wp_printer_new_status_deleted i st p). Qed.

(** The members of a group are tried in turn, each once, beginning with
    the one after [y], which is the member used last if the group rotates. *)
Theorem group_members_are_tried_in_rotation gindex y j s mem :
  0 ≤ gindex < MAX_GROUPS →
  g_printers (default zero_group (groups s !! Z.to_nat gindex)) = mem →
  -1 ≤ y < Z.of_nat (length mem) →
  try_members (length mem) gindex y j s
  = attempts (drop (Z.to_nat (y + 1)) mem ++ take (Z.to_nat (y + 1)) mem) j s.
Proof.
  intros Hg Hm Hy. destruct (decide (mem = [])) as [->|Hne].
  { by destruct (Z.to_nat (y + 1)). }
  rewrite <- visited_rotation by done. by apply try_members_attempts.
Qed.

(** ** Stopping *)

Lemma wp_change_status i st p s :
  at_index (printers s) i = Some p → p_status p ≠ PRNSTATUS_DELETED →
  wp (change_status i st) (λ _ s', ∃ now, printers s' = upd_index i (entered st now) (printers s))
    (λ _ _, True) (λ _, True) s.
Proof.
  intros Hp Hd. unfold change_status. apply wp_bind, (wp_printer_new_status i st p); [done..| |done].
  intros s1 [Ep _] _. eapply wp_mono; [apply printers_update_waitreason | | done | done].
  intros u s2 E2. exists (w_now (io s)). unfold printers in *. by rewrite E2.
Qed.

Definition stop_effect (i : Z) (o : option Z) (s s' : pprd) : Prop :=
  match o with
  | Some st => ∃ now, printers s' = upd_index i (entered st now) (printers s)
  | None => printers s' = printers s
  end.

(** The routine ends with [d0], the printer with what [o] says; [s0] is the
    state it began in. *)
Definition ends_with (i : Z) (d0 : bool) (o : option Z) (s0 : pprd) (m : P bool) (s : pprd) : Prop :=
  wp m (λ d s', d = d0 ∧ stop_effect i o s0 s') (λ _ _, True) (λ _, True) s.

Lemma ends_refused i (m : P unit) s0 s :
  reads m → tb s = tb s0 → ends_with i false None s0 (m;; mret false) s.
Proof.
  intros Hm E1. apply wp_bind. eapply wp_mono; [apply Hm | | done | done].
  intros u s2 E2. apply wp_ret. split; [done|]. unfold stop_effect, printers.
  by rewrite E2, E1.
Qed.

Lemma ends_changed i st b p s0 s :
  at_index (printers s0) i = Some p → p_status p ≠ PRNSTATUS_DELETED → tb s = tb s0 →
  ends_with i b (Some st) s0 (change_status i st;; mret b) s.
Proof.
  intros Hp Hd E1. apply wp_bind.
  eapply wp_mono; [apply (wp_change_status i st p) | | done | done]; [|done|].
  - unfold printers in *. by rewrite E1.
  - intros u s2 [now E2]. apply wp_ret. split; [done|]. exists now.
    unfold printers in *. by rewrite E2, E1.
Qed.

Lemma ends_later i st (m : P unit) s :
  wp m (λ _ s', ∃ now, printers s' = upd_index i (entered st now) (printers s))
    (λ _ _, True) (λ _, True) s →
  ends_with i true (Some st) s (m;; media_startstop_update_waitreason i;; mret true) s.
Proof.
  intros Hm. apply wp_bind. eapply wp_mono; [exact Hm | | done | done].
  intros u s2 [now E2]. apply wp_bind.
  eapply wp_mono; [apply printers_update_waitreason | | done | done].
  intros u' s3 E3. apply wp_ret. split; [done|]. exists now.
  unfold printers in *. by rewrite E3, E2.
Qed.

Lemma wp_new_status_entered i st p s :
  at_index (printers s) i = Some p → p_status p ≠ PRNSTATUS_DELETED →
  wp (printer_new_status i st) (λ _ s', ∃ now, printers s' = upd_index i (entered st now) (printers s))
    (λ _ _, True) (λ _, True) s.
Proof.
  intros Hp Hd. apply (wp_printer_new_status i st p); [done..| |done].
  intros s1 [Ep _] _. by exists (w_now (io s)).
Qed.

Lemma stop_printer_ends prnname i halt p s :
  at_index (printers s) i = Some p →
  ends_with i (stops_later (p_status p) halt) (stop_target (p_status p) halt) s
    (stop_printer prnname i halt) s.
Proof.
  intros Hp. apply wp_bind, wp_get_printer; [|done].
  intros q Hq. assert (q = p) as -> by congruence. clear Hq. cbv zeta.
  unfold stops_later, stop_target.
  assert (p_status p ≠ PRNSTATUS_DELETED → wp (printer_new_status i PRNSTATUS_HALTING;; pprdrv_kill i)
    (λ _ s', ∃ now, printers s' = upd_index i (entered PRNSTATUS_HALTING now) (printers s))
    (λ _ _, True) (λ _, True) s) as Hhalting.
  { intros Hd. apply wp_bind. eapply wp_mono; [by apply (wp_new_status_entered i _ p) | | done | done].
    intros u s1 [now E1]. eapply wp_mono; [apply reads_pprdrv_kill | | done | done].
    intros u' s2 E2. exists now. unfold printers in *. by rewrite E2. }
  destruct (Z.eqb_spec (p_status p) PRNSTATUS_FAULT) as [E|N4];
    [|destruct (Z.eqb_spec (p_status p) PRNSTATUS_IDLE) as [E|N0];
      [|destruct (Z.eqb_spec (p_status p) PRNSTATUS_ENGAGED) as [E|N5];
        [|destruct (Z.eqb_spec (p_status p) PRNSTATUS_STARVED) as [E|N6]]]].
  1-4: rewrite E; apply wp_bind, wp_modify, (ends_changed i _ _ p); [done | by rewrite E | done].
  destruct (Z.eqb_spec (p_status p) PRNSTATUS_HALTING) as [->|N9].
  { apply (ends_refused i (reply_with _ _ _)); [apply reads_reply_with | done]. }
  destruct (Z.eqb_spec (p_status p) PRNSTATUS_STOPT) as [->|N7].
  { apply (ends_refused i (reply_with _ _ _)); [apply reads_reply_with | done]. }
  destruct (Z.eqb_spec (p_status p) PRNSTATUS_CANCELING) as [E|N2];
    [|destruct (Z.eqb_spec (p_status p) PRNSTATUS_SEIZING) as [E|N3]].
  1-2: rewrite E; apply (ends_changed i _ _ p); [done | by rewrite E | done].
  destruct (Z.eqb_spec (p_status p) PRNSTATUS_STOPPING) as [E|N8];
    [|destruct (Z.eqb_spec (p_status p) PRNSTATUS_PRINTING) as [E|N1]].
  - rewrite E. destruct halt; simpl.
    + apply (ends_later i PRNSTATUS_HALTING), Hhalting. by rewrite E.
    + apply (ends_refused i (reply_with _ _ _)); [apply reads_reply_with | done].
  - rewrite E. destruct halt; simpl.
    + apply (ends_later i PRNSTATUS_HALTING), Hhalting. by rewrite E.
    + apply (ends_later i PRNSTATUS_STOPPING), (wp_new_status_entered i _ p); [done | by rewrite E].
  - simpl. apply Z.eqb_neq in N0, N1, N2, N3, N4, N5, N6, N8.
    rewrite ?N4, ?N0, ?N5, ?N6, ?N2, ?N3, ?N8. simpl.
    apply (ends_refused i (undefined_state _)); [apply reads_undefined_state | done].
Qed.

(** What stopping or halting a printer does, in each state it may be in:
    an inactive one stops at once, an active one goes on to stopping, or to
    halting if it was told to halt or its job is being canceled or held. The
    result says whether the printer stops only later. *)
Theorem stopping_follows_the_table prnname i halt p s d s' :
  at_index (printers s) i = Some p →
  stop_printer prnname i halt s = Done d s' →
  d = stops_later (p_status p) halt ∧ stop_effect i (stop_target (p_status p) halt) s s'.
Proof.
  intros Hp E. pose proof (stop_printer_ends prnname i halt p s Hp) as L.
  unfold ends_with, wp in L. by rewrite E in L.
Qed.

(** ** Retries *)

(** A printer that waits for its next try: what five seconds make of it. *)
Definition count_down (p : Printer) : Printer :=
  if retrying (p_spool_state p)
  then set_p_spool_state
         (set_ps_countdown (ps_countdown (p_spool_state p) - TICK_INTERVAL) (p_spool_state p)) p
  else p.

(** A tick takes TICK_INTERVAL off the countdown of a printer in fault
    with retries or otherwise engaged, and finds its time come exactly when
    that leaves nothing; it changes no other printer. *)
Theorem a_tick_counts_down x p s b s' :
  at_index (printers s) x = Some p →
  retry_expired x s = Done b s' →
  tb s' = set_t_printers (upd_index x count_down (printers s)) (tb s) ∧
  b = retrying (p_spool_state p) && (ps_countdown (p_spool_state p) <=? TICK_INTERVAL).
Proof.
  intros Hp E. cut (wp (retry_expired x) (λ b s',
    tb s' = set_t_printers (upd_index x count_down (printers s)) (tb s) ∧
    b = retrying (p_spool_state p) && (ps_countdown (p_spool_state p) <=? TICK_INTERVAL))
    (λ _ _, True) (λ _, True) s).
  { unfold wp. by rewrite E. }
  apply wp_bind, wp_get_printer; [|done]. intros q Hq. assert (q = p) as -> by congruence.
  cbv zeta. change (wp (if retrying (p_spool_state p) then
      c ← c_int (ps_countdown (p_spool_state p) - TICK_INTERVAL);
      upd_pstate x (set_ps_countdown c);; mret (c <=? 0)
    else mret false) (λ b s',
    tb s' = set_t_printers (upd_index x count_down (printers s)) (tb s) ∧
    b = retrying (p_spool_state p) && (ps_countdown (p_spool_state p) <=? TICK_INTERVAL))
    (λ _ _, True) (λ _, True) s).
  assert (∀ f, f p = count_down p → upd_index x f (printers s) = upd_index x count_down (printers s))
    as Hext.
  { intros f Hf. apply at_index_Some in Hp as [_ Hp]. unfold upd_index. apply list_eq. intros n.
    destruct (decide (n = Z.to_nat x)) as [->|Hne].
    - rewrite !list_lookup_alter_eq, Hp. simpl. by rewrite Hf.
    - by rewrite !list_lookup_alter_ne. }
  unfold count_down at 1 in Hext. destruct (retrying (p_spool_state p)).
  - apply wp_bind, wp_c_int; [|done]. intros _.
    apply wp_bind, wp_upd_printer; [|done]. intros _ _. apply wp_ret. split.
    + simpl. f_equal. by apply Hext.
    + simpl. unfold TICK_INTERVAL.
      destruct (Z.leb_spec (ps_countdown (p_spool_state p) - 5) 0),
        (Z.leb_spec (ps_countdown (p_spool_state p)) 5); [done | lia | lia | done].
  - apply wp_ret. split; [|done]. rewrite <- (Hext id eq_refl).
    unfold upd_index. rewrite list_alter_id by done. unfold printers. by destruct (tb s).
Qed.
End printer.

(** * Witnesses *)

Lemma printer_start_takes_only_suitable_jobs_witness :
  q_status waiting_job = STATUS_WAITING.
Proof.
  apply (printer_start_takes_only_suitable_jobs 0 0 (first_printer waiting_state) waiting_job
    waiting_state 0 (after (printer_start 0 (Jq 0)) waiting_state));
    vm_compute; reflexivity.
Defined.

Lemma a_started_job_and_its_printer_point_at_each_other_witness :
  queue (after (printer_start 0 (Jq 0)) waiting_state)
  = upd_index 0 (set_q_status 0) (queue waiting_state).
Proof.
  apply (a_started_job_and_its_printer_point_at_each_other 0 0 (first_printer waiting_state)
    waiting_job waiting_state).
  - apply consistentb_true. reflexivity.
  - reflexivity.
  - reflexivity.
  - vm_compute. reflexivity.
Defined.

Lemma a_printer_starves_when_there_is_no_room_witness :
  -1 = -1 ∧ starved 0 busy_state (after (printer_start 0 (Jq 0)) busy_state).
Proof.
  apply (a_printer_starves_when_there_is_no_room 0 0 (first_printer busy_state) waiting_job);
    vm_compute; reflexivity.
Defined.

Lemma printer_new_status_changes_one_printer_witness :
  at_index (printers (after (printer_new_status 0 PRNSTATUS_STOPT) idle_state)) 0
  = Some (entered PRNSTATUS_STOPT (w_now (io idle_state)) (first_printer idle_state)).
Proof.
  apply (printer_new_status_changes_one_printer 0 PRNSTATUS_STOPT (first_printer idle_state)
    idle_state tt).
  - reflexivity.
  - discriminate.
  - vm_compute. reflexivity.
Defined.

Lemma a_deleted_printer_stays_deleted_witness :
  wp (printer_new_status 0 PRNSTATUS_IDLE) (λ _ s', tb s' = tb deleted_state) (λ _ _, False)
    never deleted_state.
Proof.
  apply (a_deleted_printer_stays_deleted 0 PRNSTATUS_IDLE (first_printer deleted_state));
    reflexivity.
Defined.

Lemma group_members_are_tried_in_rotation_witness :
  try_members 2 0 0 (Jq 0) waiting_state = attempts [1; 0] (Jq 0) waiting_state.
Proof.
  apply (group_members_are_tried_in_rotation 0 0 (Jq 0) waiting_state [0; 1]).
  - by split.
  - reflexivity.
  - by split.
Defined.

Lemma stopping_follows_the_table_witness :
  true = stops_later PRNSTATUS_PRINTING false.
Proof.
  apply (stopping_follows_the_table "apple" 0 false (first_printer printing_state)
    printing_state true (after (stop_printer "apple" 0 false) printing_state)).
  - reflexivity.
  - vm_compute. reflexivity.
Defined.

Lemma a_tick_counts_down_witness :
  true = retrying (p_spool_state (first_printer fault_state)) && (5 <=? TICK_INTERVAL).
Proof.
  apply (a_tick_counts_down 0 (first_printer fault_state) fault_state true
    (after (retry_expired 0) fault_state)).
  - reflexivity.
  - vm_compute. reflexivity.
Defined.
