(* ===== verification/PropExit.v ===== *)
(** Properties of the end of a pprdrv process: what its exit code means, when
    a printer is tried again, and when a job is stranded. *)
From S2P Require Import Prelude.
From S2P Require Import Text.
From S2P Require Import Spooler.
From S2P Require Import SpoolerFacts.
From S2P Require Import Destid.
From S2P Require Import QueueStatus.
From S2P Require Import Printer.
From S2P Require Import PprdrvExit.
From S2P Require Import Sample.
From S2P Require Import Change.
From S2P Require Import Refine.
From S2P Require Import Effects.
From S2P Require Import Consistency.
From S2P Require Import ConsistentExit.

(** * Specifications *)

(** The exit codes by what they mean: the code to go on with, the job's status
    and the printer's. *)
Definition exit_meaning (code : Z) : Z * Z * Z :=
  if existsb (Z.eqb code)
       [EXIT_PRNERR_NORETRY; EXIT_PRNERR_NORETRY_ACCESS_DENIED;
        EXIT_PRNERR_NORETRY_BAD_SETTINGS; EXIT_PRNERR_NORETRY_NO_SUCH_ADDRESS]
  then (EXIT_PRNERR_NORETRY, STATUS_WAITING, PRNSTATUS_IDLE)
  else if code =? EXIT_PRINTED then (code, STATUS_WAITING, PRNSTATUS_IDLE)
  else if code =? EXIT_JOBERR then (code, STATUS_ARRESTED, PRNSTATUS_IDLE)
  else if code =? EXIT_ENGAGED then (code, STATUS_WAITING, PRNSTATUS_ENGAGED)
  else if code =? EXIT_STARVED then (code, STATUS_WAITING, PRNSTATUS_STARVED)
  else (EXIT_PRNERR, STATUS_WAITING, PRNSTATUS_IDLE).

(** The printer after an error: how often it failed, and the wait. *)
Definition after_error (estat : Z) (p : Printer) : Printer :=
  if estat =? EXIT_PRNERR_NORETRY then
    set_p_spool_state (set_ps_countdown 0 (set_ps_next_error_retry 0 (p_spool_state p))) p
  else if estat =? EXIT_PRNERR then
    let n := ps_next_error_retry (p_spool_state p) + 1 in
    set_p_spool_state
      (set_ps_countdown (Z.min MIN_RETRY (RETRY_MULTIPLIER * n))
        (set_ps_next_error_retry n (p_spool_state p))) p
  else p.

(** A job the printer can't print: the job, and its next status.  A group's job
    is stranded when it has gone three times through all the members. *)
Definition incapable_job (group : bool) (members bit : Z) (e : QEntry) : QEntry * Z :=
  if negb group then (set_q_never (Z.lor (q_never e) 1) e, STATUS_STRANDED)
  else
    let never := u8 (Z.lor (q_never e) bit) in
    if never =? Z.shiftl 1 members - 1 then
      let pass := i16 (q_pass e + 1) in
      if 2 <? pass then (set_q_pass pass (set_q_never never e), STATUS_STRANDED)
      else (set_q_never 0 (set_q_pass pass (set_q_never never e)), STATUS_WAITING)
    else (set_q_never never e, STATUS_WAITING).

Definition group_at (s : pprd) (destid : Z) : Group :=
  default zero_group (groups s !! Z.to_nat (destid - MAX_PRINTERS)).

Lemma upd_index_at {A} i (f g : A → A) l a :
  at_index l i = Some a → f a = g a → upd_index i f l = upd_index i g l.
Proof.
  intros [_ Hl]%at_index_Some Hf. unfold upd_index. apply list_eq. intros n.
  destruct (decide (n = Z.to_nat i)) as [->|Hne].
  - rewrite !list_lookup_alter_eq, Hl. simpl. by rewrite Hf.
  - by rewrite !list_lookup_alter_ne.
Qed.

Section exit.
Context `{PPRConfig}.

Lemma gives_if_true {A} (Q : A → Prop) (b : bool) (m1 m2 : P A) :
  (b = true → gives Q m1) → (b = false → gives Q m2) → gives Q (if b then m1 else m2).
Proof. destruct b; auto. Qed.

(** What the exit code of pprdrv decides, apart from the two cases that
    need a look at the job or at the printer. *)
Theorem exit_codes_mean_what_the_table_says prnid wstat estat s :
  estat ≠ EXIT_INCAPABLE → estat ≠ EXIT_SIGNAL →
  wp (act_on_exit_code prnid wstat estat) (λ r _, r = exit_meaning estat)
    (λ _ _, True) (λ _, True) s.
Proof.
  intros Hi Hs. revert s. change (gives (λ r, r = exit_meaning estat)
    (act_on_exit_code prnid wstat estat)).
  apply Z.eqb_neq in Hi, Hs. unfold act_on_exit_code. rewrite Hi, Hs.
  repeat (apply gives_if_true; [intros E; rewrite ?orb_true_iff, !Z.eqb_eq in E;
    destruct_or?; subst estat; repeat (apply gives_bind; intros ?); by apply gives_ret | intros ?]).
  repeat (apply gives_bind; intros ?). apply gives_ret. unfold exit_meaning. simpl.
  repeat match goal with
  | E : (_ || _) = false |- _ => apply orb_false_iff in E as [? ?]
  | E : (estat =? _) = false |- _ => rewrite E; clear E
  end. done.
Qed.

(** A printer that fails goes into fault mode.  With retries, each failure
    in a row makes the wait thirty seconds longer, up to ten minutes; without,
    no countdown is set. *)
Theorem a_failed_printer_waits_longer_each_time prnid estat st p s r s' :
  at_index (printers s) prnid = Some p →
  act_on_printer_error prnid estat st s = Done r s' →
  printers s' = upd_index prnid (after_error estat) (printers s) ∧
  r = (if (estat =? EXIT_PRNERR) || (estat =? EXIT_PRNERR_NORETRY) then PRNSTATUS_FAULT else st).
Proof.
  intros Hp E. cut (wp (act_on_printer_error prnid estat st) (λ r s',
    printers s' = upd_index prnid (after_error estat) (printers s) ∧
    r = (if (estat =? EXIT_PRNERR) || (estat =? EXIT_PRNERR_NORETRY) then PRNSTATUS_FAULT else st))
    (λ _ _, True) (λ _, True) s).
  { unfold wp. by rewrite E. }
  assert (∀ f s1, tb s1 = tb s → f p = after_error estat p →
    t_printers (set_t_printers (upd_index prnid f (t_printers (tb s1))) (tb s1))
    = upd_index prnid (after_error estat) (printers s)) as Hupd.
  { intros f s1 E1 Hf. simpl. rewrite E1. by apply (upd_index_at _ _ _ _ p). }
  unfold act_on_printer_error. unfold after_error in Hupd.
  destruct (Z.eqb_spec estat EXIT_PRNERR_NORETRY) as [->|Hn]; simpl.
  - apply wp_bind. eapply wp_mono; [apply reads_printer_alert | | done | done].
    intros u s1 E1. apply wp_bind, wp_upd_printer; [|done]. intros _ _. apply wp_ret.
    split; [|done]. by apply Hupd.
  - destruct (Z.eqb_spec estat EXIT_PRNERR) as [->|He]; simpl.
    + apply wp_bind. eapply wp_mono; [apply reads_printer_alert | | done | done].
      intros u s1 E1. apply wp_bind, wp_get_printer; [|done]. intros q Hq.
      assert (q = p) as -> by (unfold printers in *; rewrite E1 in Hq; congruence).
      apply wp_bind, wp_c_int; [|done]. intros _. apply wp_bind, wp_c_int; [|done]. intros _.
      apply wp_bind, wp_upd_printer; [|done]. intros _ _. apply wp_ret. split; [|done].
      apply Hupd; [done|]. f_equal. f_equal. unfold retry_countdown.
      set (n := ps_next_error_retry (p_spool_state p) + 1). clearbody n.
      destruct (Z.ltb_spec MIN_RETRY (n * RETRY_MULTIPLIER)); lia.
    + apply wp_ret. split; [|done]. unfold printers. symmetry. apply list_alter_id.
      intros q. unfold after_error. apply Z.eqb_neq in Hn, He. by rewrite Hn, He.
Qed.

(** A printer that was told to stop or to halt has stopped when its job is
    done, whatever became of the job, and takes no other one. *)
Theorem a_stopping_printer_stops prnid st p s u s' :
  at_index (printers s) prnid = Some p →
  p_status p = PRNSTATUS_STOPPING ∨ p_status p = PRNSTATUS_HALTING →
  settle_printer prnid st s = Done u s' →
  printers s' = upd_index prnid (entered PRNSTATUS_STOPT (w_now (io s))) (printers s) ∧
  queue s' = queue s.
Proof.
  intros Hp Hst E. cut (wp (settle_printer prnid st) (λ _ s',
    printers s' = upd_index prnid (entered PRNSTATUS_STOPT (w_now (io s))) (printers s) ∧
    queue s' = queue s) (λ _ _, True) (λ _, True) s).
  { unfold wp. by rewrite E. }
  unfold settle_printer. apply wp_bind, wp_get_printer; [|done]. intros q Hq.
  assert (q = p) as -> by congruence.
  assert ((p_status p =? PRNSTATUS_STOPPING) || (p_status p =? PRNSTATUS_HALTING) = true) as ->
    by (by destruct Hst as [-> | ->]).
  apply wp_bind, (wp_printer_new_status prnid _ p); [done | by destruct Hst as [-> | ->] | | done].
  intros s1 [Ep Eb] _. apply wp_bind, wp_get_printer; [|done]. intros q Hq1.
  rewrite Ep, (at_index_upd _ _ _ p) in Hq1 by done. injection Hq1 as <-.
  apply wp_when; [unfold entered; by destruct (_ && _)|]. intros _. split; [done|].
  by apply (f_equal t_queue) in Eb.
Qed.

(** ** Incapable printers *)

Definition strands (y : Z) (s : pprd) (e' : QEntry) (st : Z) (r : Z) (s' : pprd) : Prop :=
  r = st ∧ queue s' = upd_index y (λ _, e') (queue s).

Lemma wp_reads_then {A B} (m : P A) (k : A → P B) (Q : B → pprd → Prop) s :
  reads m → (∀ a s', tb s' = tb s → wp (k a) Q (λ _ _, True) (λ _, True) s') →
  wp (m ≫= k) Q (λ _ _, True) (λ _, True) s.
Proof. intros Hm Hk. by apply wp_bind_reads. Qed.

Definition same_job_number (p : Printer) (e : QEntry) : bool :=
  (q_id e =? p_job_id p) && (q_subid e =? p_job_subid p).

Lemma wp_strand_group i p y e s :
  at_index (queue s) y = Some e →
  wp (bit ← destid_printer_bit (p_job_destid p) i;
      job_upd (Jq y) (λ e, set_q_never (u8 (Z.lor (q_never e) bit)) e);;
      gindex ← destid_to_gindex (p_job_destid p);
      gr ← get_group gindex;
      e ← job_get (Jq y);
      if q_never e =? Z.shiftl 1 (g_members gr) - 1 then
        job_upd (Jq y) (λ e, set_q_pass (i16 (q_pass e + 1)) e);;
        e' ← job_get (Jq y);
        if 2 <? q_pass e' then
          respond_printing i RESP_STRANDED_GROUP_INCAPABLE;;
          mret STATUS_STRANDED
        else job_upd (Jq y) (set_q_never 0);; mret STATUS_WAITING
      else mret STATUS_WAITING)
    (λ r s', let '(e', st) := incapable_job true (g_members (group_at s (p_job_destid p)))
                      (printer_bit s (p_job_destid p) i) e in
             strands y s e' st r s')
    (λ _ _, True) (λ _, True) s.
Proof.
  intros He. unfold incapable_job. simpl.
  apply wp_bind, wp_destid_printer_bit. set (bit := printer_bit s (p_job_destid p) i).
  apply wp_bind, wp_job_upd_q; [|done]. intros _ _.
  apply wp_bind, wp_destid_to_gindex, wp_bind, wp_get_group_default.
  change (default zero_group _) with (group_at s (p_job_destid p)).
  set (members := g_members (group_at s (p_job_destid p))).
  set (e1 := set_q_never (u8 (Z.lor (q_never e) bit)) e).
  apply wp_bind, wp_job_get_q; [|done]. intros e1' He1.
  assert (e1' = e1) as ->.
  { unfold queue in He1. simpl in He1. rewrite (at_index_upd _ _ _ e) in He1 by done. by injection He1 as <-. }
  change (q_never e1) with (u8 (Z.lor (q_never e) bit)).
  destruct (_ =? Z.shiftl 1 members - 1).
  - apply wp_bind, wp_job_upd_q; [|done]. intros _ _.
    apply wp_bind, wp_job_get_q; [|done]. intros e2' He2.
    set (e2 := set_q_pass (i16 (q_pass e1 + 1)) e1).
    assert (e2' = e2) as ->.
    { unfold queue in He2. simpl in He2. rewrite upd_index_compose in He2.
      rewrite (at_index_upd _ _ _ e) in He2 by done. by injection He2 as <-. }
    change (q_pass e2) with (i16 (q_pass e + 1)). destruct (2 <? i16 (q_pass e + 1)).
    + apply wp_reads_then; [apply reads_respond_printing|]. intros u s1 E1. apply wp_ret.
      split; [done|]. unfold queue. rewrite E1. simpl. rewrite upd_index_compose.
      by apply (upd_index_at _ _ _ _ e).
    + apply wp_bind, wp_job_upd_q; [|done]. intros _ _. apply wp_ret. split; [done|].
      unfold queue. simpl. rewrite !upd_index_compose. by apply (upd_index_at _ _ _ _ e).
  - apply wp_ret. split; [done|]. unfold queue. simpl. by apply (upd_index_at _ _ _ _ e).
Qed.

(** A printer that finds itself incapable of a job is remembered in the
    job's mask.  A printer's job is stranded; a group's job waits for the other
    members, and for all of them again, until after the third round it is
    stranded too.  The job is the first with the number of the one the printer
    had. *)
Theorem a_job_is_stranded_when_no_printer_is_capable i p s r s' :
  at_index (printers s) i = Some p →
  exit_incapable i s = Done r s' →
  ∃ y e, first_at (same_job_number p) (queue s) y ∧ at_index (queue s) y = Some e ∧
    let d := p_job_destid p in
    (queue s', r)
    = (λ o, (upd_index y (λ _, o.1) (queue s), o.2))
        (incapable_job (destid_is_group s d) (g_members (group_at s d)) (printer_bit s d i) e).
Proof.
  intros Hp E. cut (wp (exit_incapable i) (λ r s',
    ∃ y e, first_at (same_job_number p) (queue s) y ∧ at_index (queue s) y = Some e ∧
      let '(e', st) := incapable_job (destid_is_group s (p_job_destid p))
        (g_members (group_at s (p_job_destid p))) (printer_bit s (p_job_destid p) i) e in
      strands y s e' st r s') (λ _ _, True) (λ _, True) s).
  { unfold wp. rewrite E. intros (y & e & Hy & He & Hs). exists y, e.
    split; [done|]. split; [done|]. simpl.
    destruct (incapable_job _ _ _ e) as [e' st]. destruct Hs as [-> ->]. done. }
  clear E r s'. unfold exit_incapable. apply wp_bind, wp_get_printer; [|done]. intros q Hq.
  assert (q = p) as -> by congruence. cbv zeta. apply wp_bind, wp_modify, wp_bind.
  set (s1 := on_tb _ s).
  apply (wp_find_job (same_job_number p)); [|done]. intros y e He Ht Hbefore.
  assert (first_at (same_job_number p) (queue s) y) as Hfirst by (split; [by exists e | done]).
  apply wp_bind, wp_gets. change (destid_is_group s1 (p_job_destid p)) with (destid_is_group s (p_job_destid p)).
  apply wp_bind. eapply wp_mono with (Q := λ r s',
    let '(e', st) := incapable_job (destid_is_group s (p_job_destid p))
      (g_members (group_at s (p_job_destid p))) (printer_bit s (p_job_destid p) i) e in
    strands y s e' st r s'); [| | done | done].
  - destruct (destid_is_group s (p_job_destid p)); simpl.
    + by apply (wp_strand_group i p y e s1).
    + apply wp_bind, wp_job_upd_q; [|done]. intros _ _.
      apply wp_reads_then; [apply reads_respond_printing|]. intros u s2 E2. apply wp_ret.
      split; [done|]. unfold queue. rewrite E2. simpl. by apply (upd_index_at _ _ _ _ e).
  - intros r s2 Hr. apply wp_bind, wp_modify, wp_ret. exists y, e. split; [done|]. by split.
Qed.

(** ** Signals *)

Definition told_to_stop (p : Printer) : bool :=
  existsb (Z.eqb (p_status p)) [PRNSTATUS_HALTING; PRNSTATUS_SEIZING; PRNSTATUS_CANCELING].

Lemma exit_signal_told i w p s :
  at_index (printers s) i = Some p → told_to_stop p = true →
  exit_signal i w s = Done EXIT_SIGNAL s.
Proof.
  intros Hp Ht. unfold exit_signal, mbind, M_bind, get_printer. rewrite Hp.
  unfold told_to_stop in Ht. simpl in Ht. rewrite orb_false_r, orb_assoc in Ht. by rewrite Ht.
Qed.

(** That pprdrv was stopped by a signal is a fault of the printer exactly
    when nobody had told it to stop; the tables stay as they are. *)
Theorem a_signal_is_a_fault_unless_it_was_sent i w p s r s' :
  at_index (printers s) i = Some p →
  exit_signal i w s = Done r s' →
  r = (if told_to_stop p then EXIT_SIGNAL else EXIT_PRNERR) ∧ tb s' = tb s.
Proof.
  intros Hp E. destruct (told_to_stop p) eqn:Ht.
  { rewrite (exit_signal_told i w p s) in E by done. by injection E as <- <-. }
  cut (wp (exit_signal i w) (λ r s', r = EXIT_PRNERR ∧ tb s' = tb s) (λ _ _, True) (λ _, True) s).
  { unfold wp. by rewrite E. }
  apply wp_bind, wp_get_printer; [|done]. intros q Hq. assert (q = p) as -> by congruence.
  unfold told_to_stop in Ht. simpl in Ht. rewrite orb_false_r, orb_assoc in Ht. rewrite Ht.
  apply wp_bind. eapply wp_mono; [|intros u s1 E1; apply wp_ret; exact (conj eq_refl E1) | done | done].
  assert (∀ m : P unit, reads m → wp m (λ _ s', tb s' = tb s) (λ _ _, True) (λ _, True) s) as Hr
    by (intros m Hm; eapply wp_mono; [apply Hm | auto | done | done]).
  destruct (WIFSIGNALED w); [destruct (WSTOPSIG w =? 0)|]; apply Hr, reads_printer_alert.
Qed.

Lemma no_stop_signal w : 0 ≤ w < 256 → WSTOPSIG w = 0.
Proof.
  intros Hw. unfold WSTOPSIG, WEXITSTATUS. rewrite Z.shiftr_div_pow2 by lia.
  by rewrite Z.div_small by (simpl; lia).
Qed.

(** The message about a pprdrv that was killed never names the signal: it
    takes the number from the place where a stopped process has it, which is
    zero for a killed one, and so always says that the reason is nonsense. *)
Theorem the_message_about_a_killed_pprdrv_is_always_nonsense i w p name s :
  at_index (printers s) i = Some p → p_name p = Some name → told_to_stop p = false →
  WIFSIGNALED w = true → 0 ≤ w < 256 →
  exit_signal i w s
  = Done EXIT_PRNERR (on_io (λ v, set_w_trace (w_trace v ++
      [EvAlert name true
        "Printing aborted because pprdrv died.  The stated reason for its death (killed by signal 0) is nonsense but may indicate that dynamic linking failed due to a problem with the shared library search path."
        []]) v) s).
Proof.
  intros Hp Hn Ht Hw Hr. unfold exit_signal, printer_alert, mbind, M_bind, get_printer. rewrite Hp.
  unfold told_to_stop in Ht. simpl in Ht. rewrite orb_false_r, orb_assoc in Ht. rewrite Ht, Hw.
  rewrite (no_stop_signal w Hr). simpl. by rewrite Hp, Hn.
Qed.

(** The code that pprdrv gave to exit() is the one that is acted on, and
    an end by a signal is taken for EXIT_SIGNAL. *)
Theorem wait_statuses_are_decoded i c sig s :
  0 ≤ c < 256 → 0 < sig < 127 →
  decode_wstat i (c * 256) s = Done c s ∧ decode_wstat i sig s = Done EXIT_SIGNAL s.
Proof.
  intros Hc Hs. split.
  - unfold decode_wstat, WIFEXITED, WTERMSIG, WEXITSTATUS.
    change 127 with (Z.ones 7). change 255 with (Z.ones 8).
    rewrite !Z.land_ones, Z.shiftr_div_pow2 by lia.
    change (2 ^ 7) with 128. change (2 ^ 8) with 256.
    assert ((c * 256) mod 128 = 0) as ->
      by (replace (c * 256) with (c * 2 * 128) by lia; by apply Z.mod_mul).
    rewrite Z.div_mul, Z.mod_small by lia. done.
  - unfold decode_wstat, WIFEXITED, WIFSIGNALED, WCOREDUMP, WTERMSIG.
    assert (Z.land sig 127 = sig) as ->.
    { change 127 with (Z.ones 7). rewrite Z.land_ones by lia. apply Z.mod_small. lia. }
    assert (Z.land sig 128 = 0) as ->.
    { apply Z.bits_inj'. intros n Hn. rewrite Z.land_spec, Z.bits_0.
      change 128 with (2 ^ 7). destruct (decide (n = 7)) as [->|Hne].
      - rewrite (Z.bits_above_log2 sig 7); [done | lia |]. apply Z.log2_lt_pow2; [lia|].
        change (2 ^ 7) with 128. lia.
      - rewrite Z.pow2_bits_false by done. by rewrite andb_false_r. }
    destruct (Z.eqb_spec sig 0); [lia|]. destruct (Z.eqb_spec sig 127); [lia|]. done.
Qed.
End exit.

(** * Witnesses *)

Lemma exit_codes_mean_what_the_table_says_witness :
  wp (act_on_exit_code 0 768 EXIT_JOBERR) (λ r _, r = (EXIT_JOBERR, STATUS_ARRESTED, PRNSTATUS_IDLE))
    (λ _ _, True) (λ _, True) printing_state.
Proof. apply (exit_codes_mean_what_the_table_says 0 768 EXIT_JOBERR); discriminate. Defined.

Lemma a_failed_printer_waits_longer_each_time_witness :
  printers (after (act_on_printer_error 0 EXIT_PRNERR PRNSTATUS_IDLE) printing_state)
  = upd_index 0 (after_error EXIT_PRNERR) (printers printing_state).
Proof.
  apply (a_failed_printer_waits_longer_each_time 0 EXIT_PRNERR PRNSTATUS_IDLE
    (first_printer printing_state) printing_state PRNSTATUS_FAULT
    (after (act_on_printer_error 0 EXIT_PRNERR PRNSTATUS_IDLE) printing_state)).
  - reflexivity.
  - vm_compute. reflexivity.
Defined.

Definition stopping_state : pprd :=
  Eval vm_compute in with_status (mkPState 1 1 PRNSTATUS_STOPPING 0 0 0 0 0 0) printing_state.

Lemma a_stopping_printer_stops_witness :
  queue (after (settle_printer 0 PRNSTATUS_IDLE) stopping_state) = queue stopping_state.
Proof.
  apply (a_stopping_printer_stops 0 PRNSTATUS_IDLE (first_printer stopping_state)
    stopping_state tt).
  - reflexivity.
  - left. reflexivity.
  - vm_compute. reflexivity.
Defined.

Lemma a_job_is_stranded_when_no_printer_is_capable_witness :
  ∃ y e, first_at (same_job_number (first_printer printing_state)) (queue printing_state) y
    ∧ at_index (queue printing_state) y = Some e.
Proof.
  destruct (a_job_is_stranded_when_no_printer_is_capable 0 (first_printer printing_state)
    printing_state STATUS_WAITING (after (exit_incapable 0) printing_state)) as (y & e & Hy & He & _).
  - reflexivity.
  - vm_compute. reflexivity.
  - exists y, e. split; [exact Hy | exact He].
Defined.

Lemma a_signal_is_a_fault_unless_it_was_sent_witness :
  EXIT_PRNERR = EXIT_PRNERR ∧ tb (after (exit_signal 0 9) printing_state) = tb printing_state.
Proof.
  apply (a_signal_is_a_fault_unless_it_was_sent 0 9 (first_printer printing_state));
    vm_compute; reflexivity.
Defined.

Lemma the_message_about_a_killed_pprdrv_is_always_nonsense_witness :
  returns (exit_signal 0 9) printing_state = true.
Proof.
  unfold returns.
  rewrite (the_message_about_a_killed_pprdrv_is_always_nonsense 0 9 (first_printer printing_state)
    "apple" printing_state); try reflexivity. split; [discriminate | reflexivity].
Defined.

Lemma wait_statuses_are_decoded_witness :
  decode_wstat 0 (3 * 256) printing_state = Done 3 printing_state.
Proof. apply (wait_statuses_are_decoded 0 3 9); split; (discriminate || reflexivity). Defined.
