(* ===== verification/PropText.v ===== *)
(** Properties of what is written and read back: spool_state files, the first
    line of queue files, names of jobs and files, padded records. *)
From S2P Require Import Prelude.
From S2P Require Import Text.
From S2P Require Import TextFacts.
From S2P Require Import Spooler.
From S2P Require Import SpoolerFacts.
From S2P Require Import Destid.
From S2P Require Import QueueStatus.
From S2P Require Import Media.
From S2P Require Import QueueAccept.
From S2P Require Import Main.
From S2P Require Import Sample.
From S2P Require Import Change.
From S2P Require Import Refine.

(** The format of a list of numbers. *)
Fixpoint d_format (n : nat) : string :=
  match n with
  | O => EmptyString
  | S O => "%d"
  | S n' => "%d" +:+ String " " (d_format n')
  end.

(** * Lines of numbers *)

Lemma join_ints_cons n m l :
  join_ints (n :: m :: l) = fmt_d n +:+ String " " (join_ints (m :: l)).
Proof. done. Qed.

Lemma join_ints_start n l :
  ∃ c s, join_ints (n :: l) = String c s ∧ gu_ascii_isspace c = false.
Proof.
  destruct (fmt_d_cons n) as (c & s & E & Hc). destruct l as [|m l].
  - by exists c, s.
  - rewrite join_ints_cons, E. rewrite str_cons_app. by eexists _, _.
Qed.

Definition is_int (n : Z) : Prop := Z.abs n ≤ int_max.

Lemma scan_ints l rest f len va count vals :
  l ≠ [] → Forall is_int l → starts_outside gu_ascii_isdigit rest →
  (2 * length l ≤ S f)%nat →
  scan_loop f len (d_format (length l)) (join_ints l +:+ rest) va count vals
  = Scanned (count + Z.of_nat (length l)) (vals ++ map VInt l).
Proof.
  revert f count vals. induction l as [|n [|m l] IH]; intros f count vals Hne Hl Hr Hf; [done| |].
  - inversion Hl as [|? ? Hn _]; subst. destruct f as [|f]; [simpl in Hf; lia|].
    change (d_format (length [n])) with (String "%" (String "d" EmptyString)).
    simpl join_ints. rewrite turn_d by done. by destruct f.
  - inversion Hl as [|? ? Hn Hl']; subst. destruct f as [|[|f]]; [simpl in Hf; lia..|].
    change (d_format (length (n :: m :: l)))
      with (String "%" (String "d" (String " " (d_format (length (m :: l)))))).
    rewrite join_ints_cons, str_app_assoc, str_cons_app. rewrite turn_d by done.
    rewrite turn_space.
    + rewrite IH by (done || simpl in *; lia). f_equal; [simpl length; lia|].
      by rewrite <- app_assoc.
    + destruct (join_ints_start m l) as (c & s & E & Hc). by rewrite E, str_cons_app.
Qed.

Lemma join_ints_length l :
  Forall is_int l → strlen (join_ints l) ≤ 12 * Z.of_nat (length l).
Proof.
  intros Hl. induction Hl as [|n l Hn Hl IH]; [done|]. pose proof (fmt_d_length n Hn).
  destruct l as [|m l]; [change (join_ints [n]) with (fmt_d n); simpl length; lia|].
  rewrite join_ints_cons, strlen_app.
  assert (strlen (String " " (join_ints (m :: l))) = 1 + strlen (join_ints (m :: l))) as ->
    by (unfold strlen; simpl String.length; lia).
  simpl length in *. lia.
Qed.

(** * Records of numbers *)

Definition pstate_fields (p : PRINTER_SPOOL_STATE) : list Z :=
  [ps_accepting p; ps_previous_status p; ps_status p; ps_next_error_retry p;
   ps_next_engaged_retry p; ps_countdown p; ps_printer_state_change_time p;
   ps_protected p; ps_job_count p].

Definition gstate_fields (g : GROUP_SPOOL_STATE) : list Z :=
  [gs_accepting g; gs_held g; gs_printer_state_change_time g; gs_protected g;
   gs_job_count g].

(** A line of at most ten numbers goes through the buffers of 128 characters. *)
Lemma line_fits l :
  Forall is_int l → (length l ≤ 10)%nat →
  strlen (join_ints l +:+ String newline EmptyString) < 128.
Proof.
  intros Hl Hn. rewrite strlen_app. pose proof (join_ints_length l Hl).
  change (strlen (String newline EmptyString)) with 1. lia.
Qed.

Lemma line_is_read l :
  l ≠ [] → Forall is_int l →
  gu_sscanf (join_ints l +:+ String newline EmptyString) (d_format (length l)) []
  = Scanned (Z.of_nat (length l)) (map VInt l).
Proof.
  intros Hne Hl. unfold gu_sscanf. rewrite scan_ints; [done | done | done | done |].
  clear Hl. induction l as [|n [|m l] IH]; [done | simpl; lia|].
  change (d_format (length (n :: m :: l)))
    with (String "%" (String "d" (String " " (d_format (length (m :: l)))))).
  simpl String.length in *. simpl length in *. specialize (IH ltac:(done)). lia.
Qed.

Section state.
Context `{PPRConfig}.

Lemma saved_file n line s u s' :
  save_to n line s = Done u s' → w_files (io s') !! n = Some (snprintf128 line).
Proof.
  unfold save_to, writable, mbind, M_bind, gets. destruct (negb _); [|done].
  intros [= _ <-]. apply lookup_insert_eq.
Qed.

Lemma load_saved {T} l n (dflt : T) of_vals s :
  l ≠ [] → Forall is_int l → (length l ≤ 10)%nat →
  w_files (io s) !! n = Some (snprintf128 (join_ints l +:+ String newline EmptyString)) →
  load_state (d_format (length l)) (Z.of_nat (length l)) dflt of_vals n s
  = Done (of_vals (map VInt l), 0) s.
Proof.
  intros Hne Hl Hlen Hf. unfold load_state, mbind, M_bind, read_file, gets. rewrite Hf.
  pose proof (line_fits l Hl Hlen) as Hfit. unfold snprintf128.
  rewrite str_take_ge by (unfold strlen in Hfit; lia).
  destruct (Z.leb_spec 128 (strlen (join_ints l +:+ String newline EmptyString))); [lia|].
  rewrite line_is_read by done. by rewrite Z.eqb_refl.
Qed.

Lemma fname_done pattern va n s s1 : fname pattern va s = Done n s1 → s1 = s.
Proof. unfold fname. by destruct (ppr_fnamef pattern va); intros [= _ <-]. Qed.

(** What is saved of a printer's state is what a restart reads, whatever
    the numbers: the line of nine ints always fits. *)
Theorem a_printers_state_survives_a_restart st prnname s u s' :
  Forall is_int (pstate_fields st) →
  printer_spool_state_save st prnname s = Done u s' →
  printer_spool_state_load prnname s' = Done (st, 0) s'.
Proof.
  intros Hl E. unfold printer_spool_state_save, printer_spool_state_load, mbind, M_bind in *.
  destruct (fname _ _ s) as [n s1| |] eqn:Ef; [|done..].
  assert (fname "%s/%s/spool_state" [AS PRINTERS_PERSISTENT_STATEDIR; AS prnname] s' = Done n s') as ->.
  { revert Ef. unfold fname. by destruct (ppr_fnamef _ _); intros [= -> _]. }
  apply saved_file in E. unfold printer_state_line in E.
  change printer_state_format with (d_format (length (pstate_fields st))).
  change 9 with (Z.of_nat (length (pstate_fields st))).
  rewrite load_saved by (done || simpl; lia). by destruct st.
Qed.

(** And so it is with a group's state. *)
Theorem a_groups_state_survives_a_restart st grpname s u s' :
  Forall is_int (gstate_fields st) →
  group_spool_state_save st grpname s = Done u s' →
  group_spool_state_load grpname s' = Done (st, 0) s'.
Proof.
  intros Hl E. unfold group_spool_state_save, group_spool_state_load, mbind, M_bind in *.
  destruct (fname _ _ s) as [n s1| |] eqn:Ef; [|done..].
  assert (fname "%s/%s/spool_state" [AS GROUPS_PERSISTENT_STATEDIR; AS grpname] s' = Done n s') as ->.
  { revert Ef. unfold fname. by destruct (ppr_fnamef _ _); intros [= -> _]. }
  apply saved_file in E. unfold group_state_line in E.
  change group_state_format with (d_format (length (gstate_fields st))).
  change 5 with (Z.of_nat (length (gstate_fields st))).
  rewrite load_saved by (done || simpl; lia). by destruct st.
Qed.
End state.

(** * The first line of a queue file *)

Lemma fmt_X_starts width n rest :
  0 ≤ n → starts_outside gu_ascii_isspace (fmt_X width n +:+ rest).
Proof.
  intros Hn. pose proof (fmt_X_span width n EmptyString Hn I) as Hsp.
  destruct (fmt_X_cons width n Hn) as (c & s & E). rewrite E in Hsp |- *. simpl.
  rewrite str_app_nil_r in Hsp. simpl in Hsp. destruct (gu_ascii_isxdigit c) eqn:Hx; [|done].
  revert Hx. unfold gu_ascii_isxdigit, gu_ascii_isdigit, gu_ascii_isspace. lia.
Qed.

(** The line in the form in which it is scanned. *)
Definition pprd_text (a b c d : Z) (rest : string) : string :=
  String "P" (String "P" (String "R" (String "D" (String ":" (String " "
    (fmt_X 2 a +:+ String " " (fmt_X 8 b +:+ String " " (fmt_X 2 c +:+ String " "
      (fmt_X 4 d +:+ rest))))))))).

Lemma scan_pprd_text a b c d rest :
  0 ≤ a → 0 ≤ b → 0 ≤ c → 0 ≤ d → starts_outside gu_ascii_isxdigit rest →
  gu_sscanf (pprd_text a b c d rest) pprd_format []
  = Scanned 4 [VInt (u16 (u32 a)); VInt (u32 b); VInt (u16 (u32 c)); VInt (u16 (u32 d))].
Proof.
  intros Ha Hb Hc Hd Hr. unfold gu_sscanf. change (String.length pprd_format) with 20%nat.
  generalize (strlen (pprd_text a b c d rest)). intros len. unfold pprd_text, pprd_format.
  do 5 (rewrite turn_char by done).
  rewrite turn_space by (by apply fmt_X_starts). rewrite turn_hx by done.
  rewrite turn_space by (by apply fmt_X_starts). rewrite turn_x by done.
  rewrite turn_space by (by apply fmt_X_starts). rewrite turn_hx by done.
  rewrite turn_space by (by apply fmt_X_starts). rewrite turn_hx by done.
  done.
Qed.

Lemma pprd_line_text e :
  pprd_line e = pprd_text (u32 (q_priority e)) (q_sequence_number e)
    (pprd_status (q_status e)) (q_flags e) (spaces 38 +:+ String newline EmptyString).
Proof. done. Qed.

Lemma i16_u16 n : i16 (u16 n) = i16 n.
Proof.
  unfold i16, u16, signed_wrap, unsigned_wrap. f_equal.
  by rewrite Z.add_mod_idemp_l.
Qed.

Lemma u16_u32 n : u16 (u32 n) = u16 n.
Proof.
  unfold u16, u32, unsigned_wrap.
  rewrite (Z.mod_eq n (2 ^ 32)) by done.
  replace (n - 2 ^ 32 * (n / 2 ^ 32)) with (n + (- 65536 * (n / 2 ^ 32)) * 2 ^ 16) by lia.
  by apply Z.mod_add.
Qed.

(** C11: the line that describes a job is read back as it was written: the
    priority, the sequence number and the flags, and the status, but for a job
    that is printing, which comes back as one with no status. *)
Theorem a_job_survives_a_restart e e0 :
  wf_entry e →
  ∃ vals, gu_sscanf (pprd_line e) pprd_format [] = Scanned 4 vals ∧
    let r := store_scan 0 vals e0 in
    q_priority r = q_priority e ∧ q_sequence_number r = q_sequence_number e ∧
    q_flags r = q_flags e ∧
    i16 (q_status r * -1) = (if 0 <=? q_status e then 0 else q_status e).
Proof.
  intros [_ _ _ Hp Hn Hs Hf _ _ _ _]. unfold in_s, in_u in *. simpl in Hp, Hn, Hs, Hf.
  assert (0 ≤ pprd_status (q_status e) ≤ 32768) as Hst
    by (unfold pprd_status; destruct (Z.leb_spec 0 (q_status e)); lia).
  rewrite pprd_line_text, scan_pprd_text; [|apply (proj1 (unsigned_wrap_range 32 (q_priority e) ltac:(done))) | lia | lia | lia | done].
  eexists. split; [reflexivity|]. simpl.
  rewrite !u16_u32, !i16_u16.
  split; [apply i16_small; lia|]. split; [by rewrite !(u32_small (q_sequence_number e)) by lia|].
  split; [by rewrite !(u16_small (q_flags e)) by lia|].
  unfold pprd_status. destruct (Z.leb_spec 0 (q_status e)); [done|].
  destruct (decide (q_status e = -32768)) as [->|Hne]; [done|].
  rewrite (i16_small (q_status e * -1)) by lia. rewrite i16_small by lia. lia.
Qed.

(** The line has exactly the 64 characters the rewriting in place relies
    on, for every job with a priority that ppr gives. *)
Theorem the_line_of_a_job_has_64_characters e :
  wf_entry e → 0 ≤ q_priority e ≤ 255 → -255 ≤ q_status e →
  strlen (pprd_line e) = 64.
Proof.
  intros [_ _ _ _ Hn _ Hf _ _ _ _] Hp Hs. unfold in_u in *. simpl in Hn, Hf.
  assert (0 ≤ pprd_status (q_status e) < 256) as Hst
    by (unfold pprd_status; destruct (Z.leb_spec 0 (q_status e)); lia).
  unfold pprd_line. rewrite (u32_small (q_priority e)) by lia. rewrite !strlen_app, strlen_spaces.
  rewrite !fmt_X_length_Z by (simpl; lia). done.
Qed.

(** * Names *)

(** The name of a queue file says which job it is: whatever hyphens the
    destination's name has, it is taken apart again as it was put together. *)
Theorem a_queue_file_name_names_its_job destname id subid :
  0 ≤ id ≤ 32767 → 0 ≤ subid ≤ 32767 →
  parse_qfname (qfname destname id subid) = QfName destname id subid.
Proof. apply parse_qfname_fmt. Qed.

Lemma fnamef_loop_bound pattern va target room :
  0 ≤ room →
  match fnamef_loop pattern va target room with
  | Fname n => strlen n ≤ strlen target + room
  | FnameThrow _ => True
  end.
Proof.
  revert pattern va target room.
  cut (∀ (k : nat) pattern va target room, (String.length pattern ≤ k)%nat → 0 ≤ room →
    match fnamef_loop pattern va target room with
    | Fname n => strlen n ≤ strlen target + room
    | FnameThrow _ => True
    end).
  { intros Hk pattern va target room. by apply (Hk (String.length pattern)). }
  intros k. induction k as [|k IH]; intros pattern va target room Hk Hr.
  { destruct pattern; simpl in *; [lia|lia]. }
  assert (∀ str p va', (String.length p ≤ k)%nat →
    match fname_item str target room (fnamef_loop p va') with
    | Fname n => strlen n ≤ strlen target + room
    | FnameThrow _ => True
    end) as Hitem.
  { intros str p va' Hp. unfold fname_item. destruct (Z.ltb_spec room (strlen str)); [done|].
    pose proof (strlen_nonneg str). specialize (IH p va' (target +:+ str) (room - strlen str) Hp).
    destruct (fnamef_loop _ _ _ _); [|done]. rewrite strlen_app in IH. lia. }
  assert (∀ c p, (String.length p ≤ k)%nat →
    match (if room <? 1 then FnameThrow "ppr_fnamef(): overflow in pattern"
           else fnamef_loop p va (target +:+ String c EmptyString) (room - 1)) with
    | Fname n => strlen n ≤ strlen target + room
    | FnameThrow _ => True
    end) as Hchar.
  { intros c p Hp. destruct (Z.ltb_spec room 1); [done|].
    specialize (IH p va (target +:+ String c EmptyString) (room - 1) Hp).
    destruct (fnamef_loop _ _ _ _); [|done]. rewrite strlen_app in IH.
    change (strlen (String c EmptyString)) with 1 in IH. lia. }
  destruct pattern as [|c p]; [simpl; lia|]. simpl in Hk.
  destruct c as [[] [] [] [] [] [] [] []]; try (apply Hchar; lia).
  destruct p as [|c p]; [done|]. simpl in Hk.
  destruct c as [[] [] [] [] [] [] [] []]; try done.
  all: destruct va as [|[x|x|x] va]; try done; try (simpl; apply Hitem; lia).
  all: destruct p as [|c p]; [done|]; simpl in Hk.
  all: destruct c as [[] [] [] [] [] [] [] []]; try done.
  all: simpl; apply Hitem; lia.
Qed.

(** No file name outgrows the buffers of MAX_PPR_PATH characters: what
    would is refused. *)
Theorem file_names_fit_their_buffers pattern va n :
  ppr_fnamef pattern va = Fname n → strlen n < MAX_PPR_PATH.
Proof.
  unfold ppr_fnamef. intros E.
  pose proof (fnamef_loop_bound pattern va EmptyString (MAX_PPR_PATH - 1) ltac:(done)) as B.
  rewrite E in B. unfold MAX_PPR_PATH in *. change (strlen EmptyString) with 0 in B. lia.
Qed.

(** ** Destinations *)

Lemma find_printer_found l x name s d s' :
  find_printer l x name s = Done d s' →
  s' = s ∧ (d = -1 ∨ ∃ k p, d = x + Z.of_nat k ∧ l !! k = Some p
    ∧ p_status p ≠ PRNSTATUS_DELETED ∧ p_name p = Some name).
Proof.
  revert x. induction l as [|p l IH]; intros x; simpl.
  { intros [= <- <-]. auto. }
  assert (find_printer l (x + 1) name s = Done d s' →
    s' = s ∧ (d = -1 ∨ ∃ k q, d = x + Z.of_nat k ∧ (p :: l) !! k = Some q
    ∧ p_status q ≠ PRNSTATUS_DELETED ∧ p_name q = Some name)) as Hnext.
  { intros E. destruct (IH _ E) as [-> [->|(k & q & -> & Hk)]]; [auto|].
    split; [done|]. right. exists (S k), q. split; [lia | done]. }
  destruct (Z.eqb_spec (p_status p) PRNSTATUS_DELETED); [done|].
  destruct (p_name p) as [pn|] eqn:Hn; [|done].
  unfold mbind, M_bind. simpl. destruct (String.eqb_spec pn name) as [->|]; [|done].
  intros [= <- <-]. split; [done|]. right. exists 0%nat, p. simpl. split; [lia | done].
Qed.

Lemma find_group_found l x name s d s' :
  0 ≤ x → find_group l x name s = Done d s' →
  s' = s ∧ (d = -1 ∨ ∃ k g, d = x + Z.of_nat k + MAX_PRINTERS ∧ x + Z.of_nat k < MAX_GROUPS
    ∧ l !! k = Some g ∧ g_deleted g = false ∧ g_name g = Some name).
Proof.
  revert x. induction l as [|g l IH]; intros x Hx; simpl.
  { intros [= <- <-]. auto. }
  assert (find_group l (x + 1) name s = Done d s' →
    s' = s ∧ (d = -1 ∨ ∃ k q, d = x + Z.of_nat k + MAX_PRINTERS ∧ x + Z.of_nat k < MAX_GROUPS
      ∧ (g :: l) !! k = Some q ∧ g_deleted q = false ∧ g_name q = Some name)) as Hnext.
  { intros E. destruct (IH (x + 1) ltac:(lia) E) as [-> [->|(k & q & -> & Hlt & Hk)]]; [auto|].
    split; [done|]. right. exists (S k), q. split; [lia|]. split; [lia | done]. }
  destruct (g_deleted g) eqn:Hd; [done|].
  destruct (g_name g) as [gn|] eqn:Hn; [|done].
  unfold mbind, M_bind. simpl. destruct (String.eqb_spec gn name) as [->|]; [|done].
  unfold destid_by_gindex. destruct ((x <? 0) || (MAX_GROUPS <=? x)) eqn:Hb; [done|].
  apply orb_false_iff in Hb as [_ Hb%Z.leb_gt].
  intros [= <- <-]. split; [done|]. right. exists 0%nat, g. simpl. split; [lia|]. split; [lia | done].
Qed.

(** The id that is found for a name is the id of a destination of that
    name: destid_to_name() gives the name back. A group hides a printer. *)
Theorem the_id_found_for_a_name_has_that_name name s d s' :
  printer_count s ≤ MAX_PRINTERS → destid_by_name name s = Done d s' → d ≠ -1 →
  destid_to_name d s = Done name s ∧
  ∀ d', destid_by_group name s = Done d' s → d' ≠ -1 → d = d'.
Proof.
  intros Hc E Hd. unfold destid_by_name, mbind, M_bind in E.
  destruct (destid_by_group name s) as [dg s1| |] eqn:Eg; [|done..].
  pose proof Eg as Fg. unfold destid_by_group, mbind, M_bind, gets in Fg.
  apply find_group_found in Fg as [-> Hg]; [|done].
  destruct (Z.eqb_spec dg (-1)) as [Edg|Hne].
  - subst dg. split; [|by intros d' [= <-]].
    unfold destid_by_printer, mbind, M_bind, gets in E.
    apply find_printer_found in E as [-> [->|(k & p & -> & Hk & Hst & Hn)]]; [done|].
    pose proof (lookup_lt_Some _ _ _ Hk) as Hlt. unfold printer_count, printers in *.
    unfold destid_to_name, is_group, destid_is_group, printer_count, mbind, M_bind, gets, printers.
    destruct (Z.leb_spec (Z.of_nat (length (t_printers (tb s)))) (0 + Z.of_nat k)); [lia|].
    destruct (Z.leb_spec 0 (0 + Z.of_nat k)); [|lia].
    destruct (Z.ltb_spec (0 + Z.of_nat k) (Z.of_nat (length (t_printers (tb s))))); [|lia].
    simpl. unfold get_printer, printers, at_index. simpl.
    destruct (Z.leb_spec 0 (0 + Z.of_nat k)); [|lia].
    replace (Z.to_nat (0 + Z.of_nat k)) with k by lia. rewrite Hk.
    destruct (Z.eqb_spec (p_status p) PRNSTATUS_DELETED); [done|]. by rewrite Hn.
  - injection E as <- <-. split; [|by intros d' [= <-]].
    destruct Hg as [?|(k & g & -> & Hlt & Hk & Hdel & Hn)]; [done|].
    pose proof (lookup_lt_Some _ _ _ Hk) as Hlen.
    unfold destid_to_name, is_group, destid_is_group, mbind, M_bind, gets.
    destruct (Z.leb_spec (printer_count s) (0 + Z.of_nat k + MAX_PRINTERS)); [|lia].
    unfold destid_to_gindex.
    replace (0 + Z.of_nat k + MAX_PRINTERS - MAX_PRINTERS) with (Z.of_nat k) by lia.
    destruct (Z.ltb_spec (Z.of_nat k) 0); [lia|].
    destruct (Z.leb_spec MAX_GROUPS (Z.of_nat k)); [lia|]. simpl.
    unfold group_count, groups in *.
    destruct (Z.ltb_spec (Z.of_nat k) (Z.of_nat (length (t_groups (tb s))))); [|lia].
    unfold get_group, groups.
    destruct (Z.leb_spec 0 (Z.of_nat k)); [|lia].
    destruct (Z.ltb_spec (Z.of_nat k) MAX_GROUPS); [|lia]. simpl.
    rewrite Nat2Z.id, Hk. simpl. rewrite Hdel, Hn. done.
Qed.

(** * Padded records *)

Definition no_trailing_blank (s : string) : Prop :=
  match rev (chars s) with
  | c :: _ => is_space c = false
  | [] => True
  end.

Lemma padded_id s : no_trailing_blank s → padded_to_ASCIIZ s = s.
Proof.
  unfold no_trailing_blank, padded_to_ASCIIZ. intros Hs.
  assert (drop_while is_space (of_chars (rev (chars s))) = of_chars (rev (chars s))) as ->.
  { destruct (rev (chars s)) as [|c l]; [done|]. unfold drop_while.
    change (of_chars (c :: l)) with (String c (of_chars l)). cbn [span]. by rewrite Hs. }
  rewrite chars_of_chars, rev_involutive. apply of_chars_chars.
Qed.

Definition fits_record (s : string) : Prop :=
  (String.length s ≤ 16)%nat ∧ no_trailing_blank s.

Lemma padded_round_trip s :
  fits_record s → padded_to_ASCIIZ (ASCIIZ_to_padded s 16) = s.
Proof.
  intros [Hl Hs]. destruct (padded_split s 16) as [k ->].
  rewrite padded_to_ASCIIZ_spaces, str_take_ge by done. by apply padded_id.
Qed.

Lemma record_parts a b rest :
  String.length a = 16%nat → String.length b = 16%nat →
  str_take 16 ((a +:+ b) +:+ rest) = a ∧ str_take 16 (str_drop 16 ((a +:+ b) +:+ rest)) = b ∧
  str_drop 32 ((a +:+ b) +:+ rest) = rest.
Proof.
  intros Ha Hb. rewrite str_app_assoc. rewrite <- Ha at 1 3.
  rewrite str_take_app, str_drop_app. rewrite <- Hb at 1. rewrite str_take_app.
  split; [done|]. split; [done|]. rewrite <- str_app_assoc.
  assert (String.length (a +:+ b) = 32%nat) as <-; [|apply str_drop_app].
  pose proof (strlen_app a b) as E. unfold strlen in E. lia.
Qed.

Lemma mounted_records_read table bins fuel :
  (length bins ≤ fuel)%nat →
  mounted_records fuel (mounted_contents table bins)
  = map (λ b, (ASCIIZ_to_padded b.1 16, ASCIIZ_to_padded (media_name_of table b.2) 16)) bins.
Proof.
  revert fuel. induction bins as [|b bins IH]; intros fuel Hf.
  { by destruct fuel. }
  destruct fuel as [|fuel]; [simpl in Hf; lia|]. cbn [mounted_contents foldr]. fold (mounted_contents table bins).
  unfold mounted_record. change MAX_BINNAME with 16%nat. change MAX_MEDIANAME with 16%nat.
  pose proof (padded_length b.1 16) as L1. pose proof (padded_length (media_name_of table b.2) 16) as L2.
  destruct (record_parts (ASCIIZ_to_padded b.1 16) (ASCIIZ_to_padded (media_name_of table b.2) 16)
    (mounted_contents table bins)) as (E1 & E2 & E3); [unfold strlen in L1; lia | unfold strlen in L2; lia|].
  cbn [mounted_records map]. change MAX_BINNAME with 16%nat. change MAX_MEDIANAME with 16%nat.
  destruct (Z.ltb_spec (strlen ((ASCIIZ_to_padded b.1 16 +:+
    ASCIIZ_to_padded (media_name_of table b.2) 16) +:+ mounted_contents table bins)) (Z.of_nat (16 + 16)))
    as [Hlt|_].
  { rewrite !strlen_app in Hlt. pose proof (strlen_nonneg (mounted_contents table bins)). lia. }
  change (16 + 16)%nat with 32%nat. rewrite E1, E2, E3. f_equal. apply IH. simpl in Hf. lia.
Qed.

Lemma mounted_contents_length table bins :
  (length bins ≤ String.length (mounted_contents table bins))%nat.
Proof.
  induction bins as [|b bins IH]; [done|].
  cbn [mounted_contents foldr length]. fold (mounted_contents table bins).
  assert (strlen (mounted_record table b) = 32) as Hr
    by (unfold mounted_record; rewrite strlen_app, !padded_length; done).
  pose proof (strlen_app (mounted_record table b) (mounted_contents table bins)) as E.
  unfold strlen in *. lia.
Qed.

(** What is recovered from the file of mounted media is what was saved:
    each bin with the name of its medium, in order. *)
Theorem mounted_media_are_recovered table bins :
  Forall (λ b, fits_record b.1 ∧ fits_record (media_name_of table b.2)) bins →
  map (λ r, (padded_to_ASCIIZ r.1, padded_to_ASCIIZ r.2))
    (mounted_records (String.length (mounted_contents table bins)) (mounted_contents table bins))
  = map (λ b, (b.1, media_name_of table b.2)) bins.
Proof.
  intros Hb. rewrite mounted_records_read by apply mounted_contents_length.
  induction Hb as [|b bins [H1 H2] _ IH]; [done|].
  cbn [map fst snd]. rewrite !padded_round_trip by done. by rewrite IH.
Qed.

(** * Commands *)

Definition one_line (c : string) : Prop := Forall (λ a, a ≠ newline) (chars c).

(** What the clients write to the pipe: each command with its newline. *)
Definition sent (l : list string) : string :=
  foldr (λ c rest, c +:+ String newline rest) EmptyString l.

Lemma gu_strsep_all_one c : one_line c → gu_strsep_all newline c = [c].
Proof.
  unfold one_line. induction c as [|a c IH]; [done|]. intros Hc. inversion Hc as [|? ? Ha Hc']; subst.
  simpl. destruct (Ascii.eqb_spec a newline); [done|]. by rewrite IH.
Qed.

Lemma gu_strsep_all_cons c rest :
  one_line c → gu_strsep_all newline (c +:+ String newline rest) = c :: gu_strsep_all newline rest.
Proof.
  unfold one_line. induction c as [|a c IH]; intros Hc.
  - change (EmptyString +:+ String newline rest) with (String newline rest). done.
  - inversion Hc as [|? ? Ha Hc']; subst. rewrite str_cons_app. simpl.
    destruct (Ascii.eqb_spec a newline); [done|]. by rewrite IH.
Qed.

Lemma chomp_newline s : chomp (s +:+ String newline EmptyString) = Some s.
Proof.
  unfold chomp. rewrite chars_app, rev_app_distr. simpl.
  by rewrite rev_involutive, of_chars_chars.
Qed.

Lemma sent_last l c :
  sent (l ++ [c]) = foldr (λ c rest, c +:+ String newline rest) c l +:+ String newline EmptyString.
Proof.
  induction l as [|d l IH]; [done|]. simpl. rewrite IH, !str_app_assoc. done.
Qed.

(** However many commands one read from the pipe brings, they are carried
    out one after the other, each as it was sent. *)
Theorem commands_are_carried_out_in_order `{PPRConfig} l c s :
  Forall one_line l → one_line c →
  do_fifo_command (sent (l ++ [c])) s = fifo_commands (l ++ [c]) s.
Proof.
  intros Hl Hc. unfold do_fifo_command. rewrite sent_last, chomp_newline. cbv iota beta.
  change (chr 10) with newline.
  assert (gu_strsep_all newline (foldr (λ c rest, c +:+ String newline rest) c l) = l ++ [c])
    as ->; [|done].
  induction Hl as [|d l Hd Hl IH]; [by apply gu_strsep_all_one|].
  cbn [foldr app]. by rewrite gu_strsep_all_cons, IH.
Qed.

(** * The theorems at work *)

Definition retry_state : PRINTER_SPOOL_STATE :=
  mkPState 1 PRNSTATUS_PRINTING PRNSTATUS_FAULT 3 0 600 1000000000 (-1) 12.

Definition group_state : GROUP_SPOOL_STATE := mkGState 0 1 1000000000 0 2147483647.

Lemma a_printers_state_survives_a_restart_witness :
  printer_spool_state_load "apple" (after (printer_spool_state_save retry_state "apple") idle_state)
  = Done (retry_state, 0) (after (printer_spool_state_save retry_state "apple") idle_state).
Proof.
  apply (a_printers_state_survives_a_restart retry_state "apple" idle_state tt).
  - repeat constructor; discriminate.
  - vm_compute. reflexivity.
Defined.

Lemma a_groups_state_survives_a_restart_witness :
  group_spool_state_load "fruit" (after (group_spool_state_save group_state "fruit") idle_state)
  = Done (group_state, 0) (after (group_spool_state_save group_state "fruit") idle_state).
Proof.
  apply (a_groups_state_survives_a_restart group_state "fruit" idle_state tt).
  - repeat constructor; discriminate.
  - vm_compute. reflexivity.
Defined.

Definition held_job : QEntry :=
  mkQEntry 250 7 0 50 4294967295 STATUS_HELD 24 0 [-1; -1; -1; -1] 1 0 0.

Lemma held_job_wf : wf_entry held_job.
Proof. constructor; vm_compute; repeat split; try discriminate; repeat constructor; discriminate. Defined.

Lemma a_job_survives_a_restart_witness :
  ∃ vals, gu_sscanf (pprd_line held_job) pprd_format [] = Scanned 4 vals ∧
    i16 (q_status (store_scan 0 vals zero_entry) * -1) = STATUS_HELD.
Proof.
  destruct (a_job_survives_a_restart held_job zero_entry held_job_wf) as (vals & E & _ & _ & _ & Es).
  exists vals. split; [exact E | exact Es].
Defined.

Lemma the_line_of_a_job_has_64_characters_witness : strlen (pprd_line held_job) = 64.
Proof.
  apply (the_line_of_a_job_has_64_characters held_job held_job_wf); [split|]; discriminate.
Defined.

Lemma a_queue_file_name_names_its_job_witness :
  parse_qfname (qfname "big-blue-1" 32767 0) = QfName "big-blue-1" 32767 0.
Proof. apply (a_queue_file_name_names_its_job "big-blue-1" 32767 0); split; discriminate. Defined.

Lemma file_names_fit_their_buffers_witness : strlen "/spool/queue/fruit-7.0" < MAX_PPR_PATH.
Proof.
  apply (file_names_fit_their_buffers "%s/%s-%d.%d" [AS "/spool/queue"; AS "fruit"; AD 7; AD 0]).
  vm_compute. reflexivity.
Defined.

Lemma the_id_found_for_a_name_has_that_name_witness :
  destid_to_name 250 idle_state = Done "fruit" idle_state.
Proof.
  apply (the_id_found_for_a_name_has_that_name "fruit" idle_state 250 idle_state).
  - discriminate.
  - vm_compute. reflexivity.
  - discriminate.
Defined.

Lemma mounted_media_are_recovered_witness :
  map (λ r, (padded_to_ASCIIZ r.1, padded_to_ASCIIZ r.2))
    (mounted_records 64 (mounted_contents ["Letter"] [("upper", 0); ("lower", -1)]))
  = [("upper", "Letter"); ("lower", EmptyString)].
Proof.
  apply (mounted_media_are_recovered ["Letter"] [("upper", 0); ("lower", -1)]).
  assert (∀ s, (String.length s <=? 16)%nat = true → no_trailing_blank s → fits_record s) as F
    by (intros t Ht%Nat.leb_le Hb; by split).
  repeat constructor; apply F; vm_compute; reflexivity.
Defined.

Lemma commands_are_carried_out_in_order_witness :
  do_fifo_command (sent ["T 0 apple"; "h 0 fruit 7 0"]) printing_state
  = fifo_commands ["T 0 apple"; "h 0 fruit 7 0"] printing_state.
Proof.
  apply (commands_are_carried_out_in_order ["T 0 apple"] "h 0 fruit 7 0");
    repeat constructor; vm_compute; discriminate.
Defined.
