(* ===== verification/PropQueue.v ===== *)
(** Properties of the queue: the place a new job gets, the job and the files a
    removal takes, and what canceling does. *)
From S2P Require Import Prelude.
From S2P Require Import Text.
From S2P Require Import Spooler.
From S2P Require Import SpoolerFacts.
From S2P Require Import Destid.
From S2P Require Import QueueStatus.
From S2P Require Import Printer.
From S2P Require Import QueueAccept.
From S2P Require Import PpopJobs.
From S2P Require Import Sample.
From S2P Require Import Change.
From S2P Require Import Refine.
From S2P Require Import Effects.
From S2P Require Import Consistency.
From S2P Require Import CancelEffect.

(** * Canceling *)

(** Does the job stay in the queue? *)
Definition stays (destid id subid : Z) (e : QEntry) : bool :=
  negb (job_matches destid id subid e) || in_use e.

Section cancel.
Context `{PPRConfig} (function : string) (destid id subid : Z) (inform : bool).

Definition matching (q : list QEntry) : list QEntry :=
  filter (λ e, job_matches destid id subid e = true) q.

Definition staying (q : list QEntry) : list QEntry :=
  filter (λ e, stays destid id subid e = true) q.

Definition canceled_from (x c : Z) (s : pprd) (n : Z) (s' : pprd) : Prop :=
  n = c + Z.of_nat (length (matching (drop (Z.to_nat x) (queue s)))) ∧
  map key (queue s') = map key (take (Z.to_nat x) (queue s))
                       ++ map key (staying (drop (Z.to_nat x) (queue s))).

Lemma at_index_drop {A} (l : list A) x a :
  at_index l x = Some a → drop (Z.to_nat x) l = a :: drop (S (Z.to_nat x)) l.
Proof. intros [_ E]%at_index_Some. by apply drop_S. Qed.

Lemma at_index_take {A} (l : list A) x a :
  at_index l x = Some a → take (Z.to_nat (x + 1)) l = take (Z.to_nat x) l ++ [a].
Proof.
  intros [Hx E]%at_index_Some. replace (Z.to_nat (x + 1)) with (S (Z.to_nat x)) by lia.
  by apply take_S_r.
Qed.

(** Past the job at [x], which stays. *)
Lemma canceled_past x c e s1 s n s' :
  at_index (queue s) x = Some e → keys_after x (tb s1) = keys_after x (tb s) →
  stays destid id subid e = true →
  canceled_from (x + 1) (c + (if job_matches destid id subid e then 1 else 0)) s1 n s' →
  canceled_from x c s n s'.
Proof.
  intros He E Hst [-> Hk]. injection E as Ek Ed. pose proof (at_index_lt _ _ _ He) as Hx.
  unfold canceled_from. rewrite Hk. rewrite (at_index_drop _ _ _ He).
  change (t_queue (tb s1)) with (queue s1) in *. change (t_queue (tb s)) with (queue s) in *.
  replace (Z.to_nat (x + 1)) with (S (Z.to_nat x)) by lia. rewrite Ed. split.
  - unfold matching. rewrite filter_cons.
    destruct (job_matches _ _ _ _); destruct (decide _); simpl; congruence || lia.
  - rewrite <- !firstn_map, Ek, !firstn_map.
    apply at_index_take in He. replace (Z.to_nat (x + 1)) with (S (Z.to_nat x)) in He by lia.
    rewrite He, map_app, <- app_assoc. unfold staying. rewrite filter_cons.
    by destruct (decide _).
Qed.

(** The job at [x] goes. *)
Lemma canceled_gone x c e s1 s n s' :
  at_index (queue s) x = Some e → queue s1 = delete (Z.to_nat x) (queue s) →
  stays destid id subid e = false → canceled_from x (c + 1) s1 n s' →
  canceled_from x c s n s'.
Proof.
  intros He E Hst [-> Hk]. unfold canceled_from. rewrite Hk, E, (at_index_drop _ _ _ He).
  rewrite delete_take_drop. pose proof (at_index_lt _ _ _ He) as Hx.
  assert (length (take (Z.to_nat x) (queue s)) = Z.to_nat x) as El by (rewrite length_take; lia).
  rewrite drop_app_ge, take_app_le by lia. rewrite El, Nat.sub_diag, drop_0, take_take, Nat.min_id.
  assert (job_matches destid id subid e = true) as Hm
    by (revert Hst; unfold stays; by destruct (job_matches _ _ _ _)).
  split.
  - unfold matching. rewrite filter_cons. destruct (decide _); [simpl; lia | congruence].
  - f_equal. unfold staying. rewrite filter_cons. destruct (decide _); [congruence | done].
Qed.

Lemma wp_cancel_jobs fuel x c s :
  NoDup (map key (queue s)) → 0 ≤ x ≤ queue_entries s → queue_entries s - x < Z.of_nat fuel →
  wp (cancel_jobs function fuel destid id subid inform x c) (canceled_from x c s)
    (λ _ _, True) (λ r, r ≠ SFuel) s.
Proof.
  revert x c s. induction fuel as [|fuel IH]; intros x c s Hk Hx Hf; [simpl in Hf; lia|].
  simpl. apply wp_bind, wp_gets. destruct (Z.ltb_spec x (queue_entries s)) as [Hlt|Hge].
  - apply wp_bind. destruct (at_index_ge (queue s) x) as [e He]; [unfold queue_entries in *; lia|].
    apply wp_job_get_q; [|congruence]. intros e' He'. assert (e' = e) as -> by congruence.
    assert (∀ s1 c', keys_after x (tb s1) = keys_after x (tb s) → stays destid id subid e = true →
      c' = c + (if job_matches destid id subid e then 1 else 0) →
      wp (cancel_jobs function fuel destid id subid inform (x + 1) c') (canceled_from x c s)
        (λ _ _, True) (λ r, r ≠ SFuel) s1) as Hpast.
    { intros s1 c' E Hst ->. pose proof E as [= Ek _].
      assert (queue_entries s1 = queue_entries s) as El.
      { apply (f_equal length) in Ek. rewrite !length_map in Ek. unfold queue_entries, queue. lia. }
      eapply wp_mono; [apply IH; rewrite ?El; try lia; unfold queue in *; by rewrite Ek
        | | done | done].
      intros n s'. by apply (canceled_past x c e s1 s). }
    destruct (job_matches destid id subid e) eqn:Hm.
    + apply wp_bind, (wp_cancel_one _ _ e); [done | done | | | done].
      * intros s1 Hu E. apply Hpast; [done | | done]. unfold stays. by rewrite Hu, orb_true_r.
      * intros s1 Hu E. assert (stays destid id subid e = false) as Hst
          by (unfold stays; by rewrite Hm, Hu).
        assert (length (queue s1) = (length (queue s) - 1)%nat) as El
          by (rewrite E; apply length_delete, lookup_lt_is_Some_2; unfold queue_entries in *; lia).
        unfold queue_entries in *. eapply wp_mono; [apply IH | | done | done].
        -- rewrite E. eapply sublist_NoDup; [exact Hk | apply map_key_delete].
        -- unfold queue_entries. lia.
        -- unfold queue_entries. lia.
        -- intros n s'. by apply (canceled_gone x c e s1 s).
    + apply Hpast; [done | unfold stays; by rewrite Hm | lia].
  - apply wp_ret. assert (x = queue_entries s) as -> by lia.
    unfold canceled_from, queue_entries. rewrite Nat2Z.id, drop_all, firstn_all.
    rewrite app_nil_r. split; [simpl; lia | done].
Qed.

(** C7: canceling comes to an end, however it shortens the queue it walks
    over.  It counts the jobs that match, and takes those out of the queue
    that no printer is at work on; every other job stays, in its order. *)
Theorem cancel_takes_the_idle_jobs_that_match s :
  NoDup (map key (queue s)) →
  wp (cancel_all function destid id subid inform) (λ n s',
    n = Z.of_nat (length (matching (queue s))) ∧
    map key (queue s') = map key (staying (queue s)))
    (λ _ _, True) (λ r, r ≠ SFuel) s.
Proof.
  intros Hk. unfold cancel_all. apply wp_bind, wp_modify, wp_bind, wp_gets, wp_bind.
  eapply wp_mono; [apply (wp_cancel_jobs _ 0 0) | | done | done].
  - done.
  - unfold queue_entries. lia.
  - unfold queue_entries. lia.
  - intros n s' [-> E]. apply wp_bind, wp_modify, wp_ret. split; [done | exact E].
Qed.
End cancel.

(** * A new job *)

Section insert.
Context `{PPRConfig}.

Lemma wp_grow_queue s :
  wp grow_queue (λ _ s', queue s' = queue s ∧ t_newent (tb s') = t_newent (tb s))
    (λ _ _, True) never s.
Proof.
  unfold grow_queue. apply wp_bind, wp_gets. apply wp_when; [|done]. intros _.
  destruct (_ <=? _); [by apply wp_modify | by apply wp_throw].
Qed.

(** C6: a new job takes its place in the order of the queue: before the jobs
    of less priority, behind those of the same priority that came earlier.  The
    queue has room for it, nobody else loses the place, and the JOB event tells
    the rank in the queue and among the jobs for that destination. *)
Theorem a_new_job_takes_its_place destname job_is_new s x s' :
  insert_entry destname job_is_new s = Done x s' →
  0 ≤ x ≤ queue_entries s ∧
  queue s' = insert_at x (t_newent (tb s)) (queue s) ∧
  (in_order (queue s) → in_order (queue s')) ∧
  ∃ full, last (w_trace (io s')) = Some (EvState "JOB %s %d %d" [AS full; AD x;
    AD (Z.of_nat (length (filter (λ e, q_destid e = q_destid (t_newent (tb s)))
                            (take (Z.to_nat x) (queue s)))))]).
Proof.
  intros E. set (new := t_newent (tb s)).
  cut (wp (insert_entry destname job_is_new) (λ x s',
    x = (find_place new (queue s) 0 0).1 ∧ queue s' = insert_at x new (queue s) ∧
    ∃ full, last (w_trace (io s')) = Some (EvState "JOB %s %d %d"
      [AS full; AD x; AD (find_place new (queue s) 0 0).2])) (λ _ _, True) (λ _, True) s).
  { unfold wp. rewrite E. intros (-> & Eq & full & Et).
    pose proof (find_place_in_order new (queue s)) as Hord.
    destruct (find_place_spec new (queue s) 0 0) as (k & Hk & Ek & En & _).
    rewrite Ek in *. rewrite En in Et. rewrite Z.add_0_l, Nat2Z.id in *. split; [unfold queue_entries; lia|].
    split; [done|]. split; [rewrite Eq; exact Hord|]. by exists full. }
  unfold insert_entry. apply wp_bind. eapply wp_mono; [apply wp_grow_queue | | done | done].
  intros u s1 [Eq En]. apply wp_bind, wp_job_get_new. rewrite En. fold new.
  apply wp_bind, wp_gets. rewrite Eq.
  destruct (find_place new (queue s) 0 0) as [y n]. apply wp_bind, wp_modify. set (s2 := on_tb _ s1).
  assert (queue s2 = insert_at y new (queue s)) as E2 by (unfold s2, queue in *; simpl; by rewrite Eq).
  clearbody s2. apply (wp_bind_frames t_queue); [apply queue_job_count_adjust | | done | done].
  intros u' s3 E3. apply wp_bind_reads; [eauto with reads | | done | done].
  intros full s4 E4. apply wp_bind, wp_modify, wp_ret. split; [done|]. split.
  - unfold queue in *. simpl. by rewrite E4, E3.
  - exists full. simpl. apply last_snoc.
Qed.
End insert.

(** * Removing a job *)

(** The names of a job's files. *)
Definition job_file_names `{PPRConfig} (destname : string) (id subid : Z) : list fname_result :=
  map (λ pd, ppr_fnamef pd.1 [AS pd.2; AS destname; AD id; AD subid])
    [("%s/%s-%d.%d", QUEUEDIR); ("%s/%s-%d.%d-comments", DATADIR);
     ("%s/%s-%d.%d-pages", DATADIR); ("%s/%s-%d.%d-text", DATADIR);
     ("%s/%s-%d.%d-log", DATADIR); ("%s/%s-%d.%d-infile", DATADIR);
     ("%s/%s-%d.%d-barbar", DATADIR); ("%s/%s-%d.%d-cmdline", DATADIR)].

Definition is_state_file (n : string) : Prop :=
  ∃ dir name, ppr_fnamef "%s/%s/spool_state" [AS dir; AS name] = Fname n.

#[export] Instance fname_result_eq_dec : EqDecision fname_result.
Proof. solve_decision. Defined.

(** What is left of the files is what was there and does not have one of the
    names [l]. *)
Definition files_without (l : list fname_result) (s s' : pprd) : Prop :=
  ∀ n, ¬ is_state_file n →
    w_files (io s') !! n = if decide (Fname n ∈ l) then None else w_files (io s) !! n.

Lemma files_without_app l l' s1 s2 s3 :
  files_without l s1 s2 → files_without l' s2 s3 → files_without (l ++ l') s1 s3.
Proof.
  intros H1 H2 n Hn. rewrite (H2 n Hn), (H1 n Hn).
  destruct (decide (Fname n ∈ l')), (decide (Fname n ∈ l)),
    (decide (Fname n ∈ l ++ l')) as [Hin|Hin]; rewrite elem_of_app in Hin; tauto.
Qed.

Lemma without_nothing n (o : option string) :
  o = if decide (Fname n ∈ []) then None else o.
Proof. by destruct (decide (Fname n ∈ [])); [set_solver|]. Qed.

Lemma files_without_nil s s' : w_files (io s') = w_files (io s) → files_without [] s s'.
Proof. intros E n _. rewrite E. apply (without_nothing n). Qed.

(** The routine takes away the files of the names [l], and writes spool_state
    files. *)
Definition removes {A} (l : list fname_result) (m : P A) : Prop :=
  ∀ s, wp m (λ _ s', files_without l s s') (λ _ _, True) (λ _, True) s.

Section remove.
Context `{PPRConfig}.

Lemma removes_bind {A B} l l' (m : P A) (f : A → P B) :
  removes l m → (∀ a, removes l' (f a)) → removes (l ++ l') (m ≫= f).
Proof.
  intros Hm Hf s. apply wp_bind. eapply wp_mono; [apply Hm | | done | done].
  intros a s1 H1. eapply wp_mono; [apply Hf | | done | done].
  intros b s2. by apply files_without_app.
Qed.

Lemma removes_nothing {A B} l (m : P A) (f : A → P B) :
  removes [] m → (∀ a, removes l (f a)) → removes l (m ≫= f).
Proof. apply (removes_bind []). Qed.

Lemma removes_when b (m : P unit) : removes [] m → removes [] (when b m).
Proof. destruct b; [done|]. intros _ s. by apply files_without_nil. Qed.

Lemma removes_same {A} (m : P A) :
  (∀ s, match m s with Done _ s' => w_files (io s') = w_files (io s) | _ => True end) →
  removes [] m.
Proof.
  intros Hm s. specialize (Hm s). unfold wp. destruct (m s); [|done..]. by apply files_without_nil.
Qed.

Lemma removes_get_printer i : removes [] (get_printer i).
Proof. apply removes_same. intros s. unfold get_printer. by destruct (at_index _ _). Qed.

Lemma removes_get_group i : removes [] (get_group i).
Proof. apply removes_same. intros s. unfold get_group. by destruct (_ && _). Qed.

Lemma removes_c_int z : removes [] (c_int z).
Proof. apply removes_same. intros s. unfold c_int. by destruct (_ && _). Qed.

Lemma removes_cstr o : removes [] (cstr o).
Proof. apply removes_same. by destruct o. Qed.

Lemma removes_destid_to_gindex d : removes [] (destid_to_gindex d).
Proof. apply removes_same. intros s. unfold destid_to_gindex. by destruct (_ || _). Qed.

Lemma removes_upd_printer i f : removes [] (upd_printer i f).
Proof.
  apply removes_nothing; [apply removes_get_printer|]. intros p. by apply removes_same.
Qed.

Lemma removes_upd_group i f : removes [] (upd_group i f).
Proof. apply removes_nothing; [apply removes_get_group|]. intros p. by apply removes_same. Qed.

Lemma removes_save dir name line :
  removes [] (n ← fname "%s/%s/spool_state" [AS dir; AS name]; save_to n line).
Proof.
  intros s. apply wp_bind. unfold wp at 1, fname.
  destruct (ppr_fnamef _ _) as [n|msg] eqn:E; [|done].
  unfold save_to. apply wp_bind, wp_gets. destruct (negb _); [|done].
  apply wp_modify. intros m Hm. simpl. rewrite lookup_insert_ne.
  - apply (without_nothing m).
  - intros ->. apply Hm. by exists dir, name.
Qed.

Lemma removes_job_count_adjust d i flush : removes [] (job_count_adjust d i flush).
Proof.
  unfold job_count_adjust. apply removes_nothing; [by apply removes_same|]. intros [|].
  - apply removes_nothing; [apply removes_destid_to_gindex|]. intros g.
    apply removes_nothing; [apply removes_get_group|]. intros gr.
    apply removes_nothing; [apply removes_c_int|]. intros c.
    apply removes_nothing; [apply removes_upd_group|]. intros _. apply removes_when.
    apply removes_nothing; [apply removes_get_group|]. intros gr'.
    apply removes_nothing; [apply removes_cstr|]. intros n. apply removes_save.
  - apply removes_nothing; [apply removes_get_printer|]. intros gr.
    apply removes_nothing; [apply removes_c_int|]. intros c.
    apply removes_nothing; [apply removes_upd_printer|]. intros _. apply removes_when.
    apply removes_nothing; [apply removes_get_printer|]. intros gr'.
    apply removes_nothing; [apply removes_cstr|]. intros n. apply removes_save.
Qed.

Lemma removes_unlink pattern dir destname id subid :
  removes [ppr_fnamef pattern [AS dir; AS destname; AD id; AD subid]]
    (unlink_job_file pattern dir destname id subid).
Proof.
  intros s. apply wp_bind. unfold wp at 1, fname.
  destruct (ppr_fnamef _ _) as [n|msg]; [|done]. apply wp_modify. intros m _. simpl.
  destruct (decide (m = n)) as [->|Hne].
  - rewrite lookup_delete_eq. by destruct (decide (Fname n ∈ [Fname n])); [|set_solver].
  - rewrite lookup_delete_ne by done. destruct (decide (Fname m ∈ [Fname n])) as [Hin|]; [|done].
    apply list_elem_of_singleton in Hin. congruence.
Qed.

Lemma removes_delete_job_files destname id subid :
  removes (job_file_names destname id subid) (delete_job_files destname id subid).
Proof.
  unfold delete_job_files, job_file_names. cbn [map fst snd].
  do 7 (eapply (removes_bind [_]); [apply removes_unlink | intros _]). apply removes_unlink.
Qed.

(** C8: a job that is removed takes its place in the queue and its eight
    files with it, and nothing else: the first job of that name goes, the
    others stay, and of the files only the spool_state of the destination is
    written, where its jobs are counted. *)
Theorem a_removed_job_takes_its_files_with_it d id subid destname e x s u s' :
  destid_to_name d s = Done destname s →
  first_at (is_job d id subid) (queue s) x → at_index (queue s) x = Some e →
  queue_dequeue_job d id subid s = Done u s' →
  queue s' = delete (Z.to_nat x) (queue s) ∧
  files_without (job_file_names destname id subid) s s'.
Proof.
  intros Hd Hx He E. split.
  - assert (wp (queue_dequeue_job d id subid) (λ _ s', queue s' = delete (Z.to_nat x) (queue s))
      (λ _ _, True) (λ _, True) s) as L.
    { apply wp_queue_dequeue_job; [| |done].
      - intros y s1 Hy Eq. by rewrite (first_at_unique _ _ _ _ Hx Hy).
      - intros s1 Hno _. destruct Hx as [(e' & He' & Ht) _]. rewrite Forall_forall in Hno.
        apply at_index_Some in He' as [_ He']. apply list_elem_of_lookup_2 in He'.
        specialize (Hno e' He'). congruence. }
    unfold wp in L. by rewrite E in L.
  - assert (wp (queue_dequeue_job d id subid) (λ _ s',
      files_without (job_file_names destname id subid) s s') (λ _ _, True) (λ _, True) s) as L;
      [|unfold wp in L; by rewrite E in L].
    unfold queue_dequeue_job. apply wp_bind. unfold wp at 1. rewrite Hd.
    apply wp_bind. unfold wp at 1, jobid_str. destruct (jobid _ _ _ _) as [full size].
    apply wp_bind, wp_modify, wp_bind, wp_modify. set (s1 := on_tb _ _).
    assert (files_without [] s s1) as F1 by (by apply files_without_nil).
    assert (queue s1 = queue s) as Eq1 by done. clearbody s1.
    apply wp_bind. apply wp_first_job; rewrite Eq1.
    + intros y e' He' Ht _. apply wp_bind.
      eapply wp_mono; [apply removes_delete_job_files | | done | done]. intros u1 s2 F2.
      apply wp_bind, wp_modify, wp_bind.
      eapply wp_mono; [apply removes_job_count_adjust | | done | done]. intros u2 s3 F3.
      apply wp_ret, wp_modify. intros n Hn. transitivity (w_files (io s3) !! n); [done|]. rewrite (F3 n Hn).
      rewrite <- without_nothing. transitivity (w_files (io s2) !! n); [done|].
      rewrite (F2 n Hn), (F1 n Hn). by rewrite <- without_nothing.
    + intros Hno. exfalso. destruct Hx as [(e' & He' & Ht) _]. rewrite Forall_forall in Hno.
      apply at_index_Some in He' as [_ He']. apply list_elem_of_lookup_2 in He'.
      specialize (Hno e' He'). congruence.
Qed.
End remove.

(** * The theorems at work *)

(** A job of more priority comes in before the one that waits. *)
Definition urgent_job : QEntry :=
  mkQEntry 250 9 0 90 102 STATUS_WAITING 0 0 [-1; -1; -1; -1] 1 0 0.

Definition arriving_state : pprd :=
  Eval vm_compute in on_tb (set_t_newent urgent_job) waiting_state.

Lemma cancel_takes_the_idle_jobs_that_match_witness :
  wp (cancel_all "ppop_cancel_purge" 250 7 (-1) true) (λ n s', n = 1 ∧ map key (queue s') = [])
    (λ _ _, True) (λ r, r ≠ SFuel) waiting_state.
Proof.
  apply (cancel_takes_the_idle_jobs_that_match "ppop_cancel_purge" 250 7 (-1) true waiting_state).
  apply NoDup_singleton.
Defined.

Lemma a_new_job_takes_its_place_witness :
  queue (after (insert_entry "fruit" true) arriving_state) = [urgent_job; waiting_job].
Proof.
  apply (a_new_job_takes_its_place "fruit" true arriving_state 0
    (after (insert_entry "fruit" true) arriving_state)).
  vm_compute. reflexivity.
Defined.

Lemma a_removed_job_takes_its_files_with_it_witness :
  queue (after (queue_dequeue_job 250 7 0) waiting_state) = [].
Proof.
  apply (a_removed_job_takes_its_files_with_it 250 7 0 "fruit" waiting_job 0 waiting_state tt).
  - vm_compute. reflexivity.
  - split; [|constructor]. exists waiting_job. split; reflexivity.
  - reflexivity.
  - vm_compute. reflexivity.
Defined.
