(* ===== verification/DriverOutput.v ===== *)
(** What pprdrv sends to the interface program (src/pprdrv/pprdrv_buf.c): the
    write buffer, the Tagged Binary Communications Protocol, the quoting of
    PostScript strings and of PPD values; and the program that undoes the
    protocol when such a file is printed (src/ppr/tbcp2bin.c). *)
From S2P Require Import Prelude.
From S2P Require Import Text.

Definition BUFSIZE : Z := 8192.

(** What a write() to the pipe may do. *)
Inductive write_result :=
| Wrote (n : nat)
| Interrupted
| NotReady
| BrokenPipe
| WriteError.

(** The module's variables.  [ob_wbuf] is what lies between wbuf and bptr,
    [ob_sent] what has gone into the pipe.  [ob_counts] says whether control-Ds
    are counted: printer.Jobbreak is JOBBREAK_CONTROL_D and there is feedback.
    [ob_writes] holds the results of the writes to come; when it is used up
    the pipe accepts everything. *)
Record outbuf := mkOut {
  ob_wbuf : string;
  ob_wbuf_space : Z;
  ob_sent : string;
  ob_control_d_count : Z;
  ob_TBCP : bool;
  ob_counts : bool;
  ob_writes : list write_result;
}.

Abbreviation O := (M outbuf).

(** * The buffer *)

Definition printer_TBCP (on : bool) : O unit :=
  modify (λ s, mkOut (ob_wbuf s) (ob_wbuf_space s) (ob_sent s) (ob_control_d_count s) on
    (ob_counts s) (ob_writes s)).

Definition printer_bufinit : O unit :=
  modify (λ s, mkOut EmptyString BUFSIZE (ob_sent s) 0 (ob_TBCP s) (ob_counts s) (ob_writes s));;
  printer_TBCP false.

Definition control_d : ascii := chr 4.

Fixpoint count_control_d (s : string) : Z :=
  match s with
  | EmptyString => 0
  | String c s' => (if Ascii.eqb c control_d then 1 else 0) + count_control_d s'
  end.

(** The loop around write(): what is left to write, and what went out. *)
Fixpoint write_loop (writes : list write_result) (remain sent : string)
    : option (string * list write_result) :=
  match remain with
  | EmptyString => Some (sent, writes)
  | _ =>
      match writes with
      | [] => Some (sent +:+ remain, [])
      | Wrote n :: writes' =>
          write_loop writes' (str_drop n remain) (sent +:+ str_take n remain)
      | Interrupted :: writes' | NotReady :: writes' => write_loop writes' remain sent
      | BrokenPipe :: _ | WriteError :: _ => None
      end
  end.

Definition printer_flush : O Z :=
  s ← gets id;
  let count :=
    if ob_counts s then ob_control_d_count s + count_control_d (ob_wbuf s)
    else ob_control_d_count s in
  match write_loop (ob_writes s) (ob_wbuf s) (ob_sent s) with
  | None => fatal 1 "printer_flush(): write failed"
  | Some (sent, writes) =>
      modify (λ s, mkOut EmptyString BUFSIZE sent count (ob_TBCP s) (ob_counts s) writes);;
      mret (BUFSIZE - ob_wbuf_space s)
  end.

Definition raw_printer_putc (c : ascii) : O unit :=
  s ← gets id;
  when (ob_wbuf_space s =? 0) (printer_flush;; mret tt);;
  modify (λ s, mkOut (ob_wbuf s +:+ String c EmptyString) (ob_wbuf_space s - 1) (ob_sent s)
    (ob_control_d_count s) (ob_TBCP s) (ob_counts s) (ob_writes s)).

(** The characters TBCP does not let through as they are: control-A, C, D, E,
    Q, S, T, ESC and FS. *)
Definition tbcp_special (c : ascii) : bool :=
  existsb (Z.eqb (code c)) [1; 3; 4; 5; 17; 19; 20; 27; 28].

Definition control_A : ascii := chr 1.

Definition tbcp_printer_putc (c : ascii) : O unit :=
  if tbcp_special c then
    raw_printer_putc control_A;;
    raw_printer_putc (chr (Z.lxor (code c) 64))
  else raw_printer_putc c.

(** The pointer ptr_printer_putc. *)
Definition printer_putc (c : ascii) : O unit :=
  s ← gets id;
  if ob_TBCP s then tbcp_printer_putc c else raw_printer_putc c.

(** printer_write() and printer_puts(): the same, for a string ends before its
    first NUL. *)
Fixpoint printer_write (buf : string) : O unit :=
  match buf with
  | EmptyString => mret tt
  | String c buf' => printer_putc c;; printer_write buf'
  end.

Definition printer_putline (str : string) : O unit :=
  printer_write str;; printer_putc (chr 10).

(** * Formatted output *)

(** snprintf's [%.3o]: a negative int is printed as the unsigned one. *)
Definition fmt_o3 (n : Z) : string :=
  let s := fmt_u false 8 (u32 n) in
  zeros (Z.to_nat (3 - strlen s)) +:+ s.

(** A double is given as the string gu_dtostr() makes of it. *)
Fixpoint printer_printf (fmt : string) (va : list farg) : O unit :=
  match fmt with
  | EmptyString => mret tt
  | String "%" (String spec fmt') =>
      match spec, va with
      | "%"%char, _ => printer_putc "%";; printer_printf fmt' va
      | "s"%char, AS s :: va' => printer_write s;; printer_printf fmt' va'
      | "d"%char, AD n :: va' => printer_write (fmt_d n);; printer_printf fmt' va'
      | "o"%char, AD n :: va' => printer_write (fmt_o3 n);; printer_printf fmt' va'
      | "f"%char, AS s :: va' => printer_write s;; printer_printf fmt' va'
      | "s"%char, _ | "d"%char, _ | "o"%char, _ | "f"%char, _ => undef "va_arg()"
      | _, _ => fatal 2 "printer_printf(): illegal format spec"
      end
  | String "%" EmptyString => undef "format ends in %"
  | String c fmt' => printer_putc c;; printer_printf fmt' va
  end.

Definition backslash : ascii := chr 92.

Definition printer_putc_escaped (c : ascii) : O unit :=
  if (code c =? 40) || (code c =? 41) || (code c =? 92) then
    printer_putc backslash;; printer_putc c
  else if (32 <=? schar c) && (schar c <? 127) then printer_putc c
  else printer_printf (String backslash "%o") [AD (schar c)].

Fixpoint printer_puts_escaped (str : string) : O unit :=
  match str with
  | EmptyString => mret tt
  | String c str' => printer_putc_escaped c;; printer_puts_escaped str'
  end.

(** ** QuotedValues of PPD files *)

Definition quoted_digit (c : ascii) : option Z :=
  let k := code c in
  if (48 <=? k) && (k <=? 57) then Some (k - 48)
  else if (97 <=? k) && (k <=? 122) then Some (k - 97 + 10)
  else if (65 <=? k) && (k <=? 90) then Some (k - 65 + 10)
  else None.

(** printer_putc() of a number that may not be a character: the cases of
    tbcp_printer_putc() do not match it, and its low byte is stored. *)
Definition printer_putc_int (n : Z) : O unit :=
  if n <? 256 then printer_putc (chr n) else raw_printer_putc (chr (u8 n)).

(** [None] is the loop over plain text, [Some place] the one inside "<...>":
    [place] is the value of a first digit. *)
Fixpoint puts_QuotedValue_in (hex : option (option Z)) (s : string) : O unit :=
  match s with
  | EmptyString => mret tt
  | String c s' =>
      match hex with
      | None =>
          if Ascii.eqb c "<" then puts_QuotedValue_in (Some None) s'
          else printer_putc c;; puts_QuotedValue_in None s'
      | Some place =>
          if Ascii.eqb c ">" then puts_QuotedValue_in None s'
          else
            match quoted_digit c, place with
            | None, _ => puts_QuotedValue_in hex s'
            | Some x, Some val =>
                printer_putc_int (val + x);; puts_QuotedValue_in (Some None) s'
            | Some x, None => puts_QuotedValue_in (Some (Some (Z.shiftl x 4))) s'
            end
      end
  end.

Definition printer_puts_QuotedValue (s : string) : O unit := puts_QuotedValue_in None s.

Definition printer_universal_exit_language : O unit :=
  printer_write (String (chr 27) "%-12345X").

Definition PJL_DISPLAY_LEN : nat := 32.

(** The message is what vsnprintf() would make of the arguments. *)
Definition printer_display_printf (message : string) : O unit :=
  printer_printf (dq ("@PJL RDYMSG DISPLAY = `%s`" +:+ String (chr 10) EmptyString))
    [AS (str_take PJL_DISPLAY_LEN message)].

(** * tbcp2bin *)

(** EOF is -1, and -1 ^ 0x40 is written as a character, too. *)
Fixpoint tbcp2bin (input : string) : string :=
  match input with
  | EmptyString => EmptyString
  | String c rest =>
      if code c =? 4 then tbcp2bin rest
      else if code c =? 1 then
        match rest with
        | EmptyString => String (chr 191) EmptyString
        | String d rest' =>
            if Ascii.eqb d "M" then tbcp2bin rest'
            else String (chr (Z.lxor (code d) 64)) (tbcp2bin rest')
        end
      else String c (tbcp2bin rest)
  end.

Example tbcp2bin_test : tbcp2bin (String (chr 1) (String "D" "ab")) = String (chr 4) "ab".
Proof. reflexivity. Qed.
