(* ===== verification/PropOutput.v ===== *)
(** Properties of pprdrv's output: nothing is lost on the way through the
    buffer, binary data arrives through TBCP, and what the quoting routines
    write is read back by the rules of PostScript and of PPD files. *)
From S2P Require Import Prelude.
From S2P Require Import Text.
From S2P Require Import TextFacts.
From S2P Require Import DriverOutput.

(** * What is sent, as one stream *)

Definition stream (s : outbuf) : string := ob_sent s +:+ ob_wbuf s.

(** A write that does not fail. *)
Definition accepted (w : write_result) : Prop := w ≠ BrokenPipe ∧ w ≠ WriteError.

(** The buffer is in order, and the pipe will hold. *)
Record ok (s : outbuf) : Prop := {
  ok_space : ob_wbuf_space s = BUFSIZE - strlen (ob_wbuf s);
  ok_room : 0 ≤ ob_wbuf_space s;
  ok_count : ob_counts s = true → ob_control_d_count s = count_control_d (ob_sent s);
  ok_pipe : Forall accepted (ob_writes s);
}.

Definition added (str : string) (s s' : outbuf) : Prop :=
  stream s' = stream s +:+ str ∧ ok s' ∧ ob_TBCP s' = ob_TBCP s ∧ ob_counts s' = ob_counts s.

(** The routine returns, and has sent [str]. *)
Definition sends {A} (m : O A) (str : string) (s : outbuf) : Prop :=
  wp m (λ _, added str s) (λ _ _, False) (λ _, False) s.

Lemma sends_done {A} (m : O A) str s :
  sends m str s → ∃ a s', m s = Done a s' ∧ added str s s'.
Proof. unfold sends, wp. destruct (m s); [eauto | done..]. Qed.

Lemma count_control_d_app s t :
  count_control_d (s +:+ t) = count_control_d s + count_control_d t.
Proof.
  induction s as [|c s IH]; [done|]. rewrite str_cons_app. simpl. rewrite IH. lia.
Qed.

(** However the writes go, the data goes out whole and in order. *)
Lemma write_loop_all writes remain sent :
  Forall accepted writes →
  ∃ writes', write_loop writes remain sent = Some (sent +:+ remain, writes') ∧
    Forall accepted writes'.
Proof.
  intros Hw. revert remain sent. induction Hw as [|w writes [H1 H2] Hw IH]; intros [|c remain] sent.
  - exists []. by rewrite str_app_nil_r.
  - by exists [].
  - exists (w :: writes). rewrite str_app_nil_r. split; [done|]. by constructor.
  - destruct w; try done; simpl; try apply IH.
    destruct (IH (str_drop n (String c remain)) (sent +:+ str_take n (String c remain)))
      as (writes' & -> & Hw'). exists writes'. by rewrite str_app_assoc, str_take_drop.
Qed.

Lemma wp_printer_flush s :
  ok s →
  wp printer_flush (λ n s', n = strlen (ob_wbuf s) ∧ added EmptyString s s'
    ∧ ob_wbuf s' = EmptyString) (λ _ _, False) (λ _, False) s.
Proof.
  intros [Hs Hr Hc Hp]. unfold printer_flush. apply wp_bind, wp_gets. cbv zeta.
  destruct (write_loop_all (ob_writes s) (ob_wbuf s) (ob_sent s) Hp) as (writes & Ew & Hp').
  unfold id. rewrite Ew. apply wp_bind, wp_modify, wp_ret.
  split; [unfold BUFSIZE in *; simpl in *; lia|]. split; [|done].
  split; [unfold stream; simpl; by rewrite !str_app_nil_r|]. split; [|done].
  constructor; simpl; [done | done | | done]. intros Hcount. rewrite Hcount.
  rewrite count_control_d_app. simpl. by rewrite Hc.
Qed.

Lemma added_trans a b s1 s2 s3 : added a s1 s2 → added b s2 s3 → added (a +:+ b) s1 s3.
Proof.
  intros (E1 & _ & T1 & C1) (E2 & O2 & T2 & C2).
  split; [by rewrite E2, E1, str_app_assoc|]. split; [done|]. split; congruence.
Qed.

Lemma sends_after {A B} (m : O A) (f : A → O B) a b s :
  sends m a s → (∀ x s', added a s s' → sends (f x) b s') → sends (m ≫= f) (a +:+ b) s.
Proof.
  intros Hm Hf. apply wp_bind. eapply wp_mono; [exact Hm | | done | done].
  intros x s1 H1. eapply wp_mono; [by apply Hf | | done | done].
  intros y s2. by apply added_trans.
Qed.

Lemma sends_ret {A} (a : A) s : ok s → sends (mret a) EmptyString s.
Proof. intros Hs. apply wp_ret. split; [by rewrite str_app_nil_r|]. done. Qed.

Lemma sends_raw c s : ok s → sends (raw_printer_putc c) (String c EmptyString) s.
Proof.
  intros Hs. unfold raw_printer_putc. apply wp_bind, wp_gets.
  assert (∀ s1, added EmptyString s s1 → 0 < ob_wbuf_space s1 →
    wp (modify (λ s0, mkOut (ob_wbuf s0 +:+ String c EmptyString) (ob_wbuf_space s0 - 1) (ob_sent s0)
        (ob_control_d_count s0) (ob_TBCP s0) (ob_counts s0) (ob_writes s0)))
      (λ _, added (String c EmptyString) s) (λ _ _, False) (λ _, False) s1) as Hput.
  { intros s1 H1 Hlt. apply wp_modify.
    apply (added_trans EmptyString (String c EmptyString) s s1); [exact H1|]. destruct H1 as (_ & [H2 H3 H4 H5] & _).
    split; [unfold stream; simpl; by rewrite str_app_assoc|]. split; [|done].
    constructor; simpl; [|lia | done | done]. rewrite strlen_app. unfold id in *.
    change (strlen (String c EmptyString)) with 1. lia. }
  apply wp_bind. destruct (Z.eqb_spec (ob_wbuf_space (id s)) 0) as [E|E]; unfold id in *.
  - apply wp_bind. eapply wp_mono; [by apply wp_printer_flush | | done | done].
    intros n s1 (_ & H1 & Hw). apply wp_ret. apply Hput; [done|].
    destruct H1 as (_ & [H2 _ _ _] & _). rewrite H2, Hw. done.
  - apply wp_ret, Hput; [|destruct Hs; lia]. split; [by rewrite str_app_nil_r|]. done.
Qed.

(** ** Through the protocol *)

Definition tbcp_char (c : ascii) : string :=
  if tbcp_special c then String control_A (String (chr (Z.lxor (code c) 64)) EmptyString)
  else String c EmptyString.

Fixpoint tbcp_encode (data : string) : string :=
  match data with
  | EmptyString => EmptyString
  | String c data' => tbcp_char c +:+ tbcp_encode data'
  end.

(** What the data looks like on the line. *)
Definition on_the_line (tbcp : bool) (data : string) : string :=
  if tbcp then tbcp_encode data else data.

Lemma sends_putc c s :
  ok s → sends (printer_putc c) (on_the_line (ob_TBCP s) (String c EmptyString)) s.
Proof.
  intros Hs. unfold printer_putc. apply wp_bind, wp_gets. unfold id, on_the_line.
  destruct (ob_TBCP s); [|by apply sends_raw]. simpl. rewrite str_app_nil_r.
  unfold tbcp_char, tbcp_printer_putc. destruct (tbcp_special c); [|by apply sends_raw].
  apply (sends_after _ _ (String control_A EmptyString)); [by apply sends_raw|].
  intros _ s' (_ & Hs' & _). by apply sends_raw.
Qed.

Lemma tbcp_encode_app a b : tbcp_encode (a +:+ b) = tbcp_encode a +:+ tbcp_encode b.
Proof.
  induction a as [|c a IH]; [done|]. rewrite str_cons_app. simpl. by rewrite IH, str_app_assoc.
Qed.

Lemma on_the_line_app t a b : on_the_line t (a +:+ b) = on_the_line t a +:+ on_the_line t b.
Proof. destruct t; [apply tbcp_encode_app | done]. Qed.

Lemma sends_line_bind {A B} (m : O A) (f : A → O B) a b s :
  sends m (on_the_line (ob_TBCP s) a) s →
  (∀ x s', ok s' → ob_TBCP s' = ob_TBCP s → sends (f x) (on_the_line (ob_TBCP s) b) s') →
  sends (m ≫= f) (on_the_line (ob_TBCP s) (a +:+ b)) s.
Proof.
  intros Hm Hf. rewrite on_the_line_app. apply sends_after; [done|].
  intros x s' (_ & Hs' & Ht & _). by apply Hf.
Qed.

Lemma sends_write buf s :
  ok s → sends (printer_write buf) (on_the_line (ob_TBCP s) buf) s.
Proof.
  revert s. induction buf as [|c buf IH]; intros s Hs; simpl.
  { destruct (ob_TBCP s); by apply sends_ret. }
  change (String c buf) with (String c EmptyString +:+ buf).
  apply sends_line_bind; [by apply sends_putc|]. intros _ s' Hs' <-. by apply IH.
Qed.

Lemma write_and_flush data s :
  ok s →
  ∃ n s', (printer_write data;; printer_flush) s = Done n s' ∧
    ob_sent s' = stream s +:+ on_the_line (ob_TBCP s) data ∧
    ob_wbuf s' = EmptyString ∧
    (ob_counts s' = true → ob_control_d_count s' = count_control_d (ob_sent s')).
Proof.
  intros Hs. destruct (sends_done _ _ _ (sends_write data s Hs)) as (u & s1 & E1 & H1).
  pose proof H1 as (_ & Hs1 & _). pose proof (wp_printer_flush s1 Hs1) as L. unfold wp in L.
  destruct (printer_flush s1) as [n s2| |] eqn:E2; [|done..].
  destruct L as (_ & H2 & Hw). exists n, s2. split; [etrans; [by eapply bind_done | done]|].
  pose proof (added_trans _ _ _ _ _ H1 H2) as (Est & [_ _ Hc _] & _).
  split; [|by split]. unfold stream in Est at 1. by rewrite Hw, !str_app_nil_r in Est.
Qed.

(** What the buffer holds fits into it, and its room has been counted. *)
Definition within_buffer (s : outbuf) : Prop :=
  0 ≤ strlen (ob_wbuf s) ≤ BUFSIZE ∧ ob_wbuf_space s = BUFSIZE - strlen (ob_wbuf s).

Lemma ok_within s : ok s → within_buffer s.
Proof. intros [H1 H2 _ _]. pose proof (strlen_nonneg (ob_wbuf s)). split; [lia | done]. Qed.

(** C20: however the pipe takes the data, in whatever pieces and with whatever
    interruptions, and whenever the buffer fills up, the data goes out whole
    and in order after what went before; flushing leaves the buffer empty, and
    the control-Ds that went out have been counted.  On the way the buffer
    never overflows: when any part of the data has been put into it, it holds
    no more bytes than wbuf[] has, and the rest is what wbuf_space says. *)
Theorem output_is_not_lost data s :
  ok s →
  (∀ part rest, data = part +:+ rest →
    ∃ s1, printer_write part s = Done tt s1 ∧ within_buffer s1 ∧
      stream s1 = stream s +:+ on_the_line (ob_TBCP s) part) ∧
  ∃ n s', (printer_write data;; printer_flush) s = Done n s' ∧
    ob_sent s' = stream s +:+ on_the_line (ob_TBCP s) data ∧
    ob_wbuf s' = EmptyString ∧
    (ob_counts s' = true → ob_control_d_count s' = count_control_d (ob_sent s')).
Proof.
  intros Hs. split.
  - intros part rest _. destruct (sends_done _ _ _ (sends_write part s Hs)) as ([] & s1 & E & Est & H1 & _).
    exists s1. split; [done|]. split; [by apply ok_within | done].
  - destruct (write_and_flush data s Hs) as (n & s' & E & Es & Hw & Hc). by exists n, s'.
Qed.

Lemma tbcp2bin_char c rest : tbcp2bin (tbcp_char c +:+ rest) = String c (tbcp2bin rest).
Proof. by destruct c as [[] [] [] [] [] [] [] []]. Qed.

Lemma tbcp2bin_encode data : tbcp2bin (tbcp_encode data) = data.
Proof. induction data as [|c data IH]; [done|]. simpl. by rewrite tbcp2bin_char, IH. Qed.

Lemma tbcp_char_plain c :
  Forall (λ d, tbcp_special d = true → d = control_A) (chars (tbcp_char c)).
Proof. destruct c as [[] [] [] [] [] [] [] []]; repeat constructor; done. Qed.

Lemma tbcp_encode_plain data :
  Forall (λ d, tbcp_special d = true → d = control_A) (chars (tbcp_encode data)).
Proof.
  induction data as [|c data IH]; [constructor|]. simpl. rewrite chars_app.
  apply Forall_app. split; [apply tbcp_char_plain | done].
Qed.

(** C21: binary data survives the protocol.  Whatever bytes are sent with TBCP
    on, none of the characters that control a printer's serial line is among
    what goes out, but for the control-As the protocol itself uses, and
    tbcp2bin makes of it the bytes that were sent. *)
Theorem binary_data_survives_tbcp data s :
  ok s → ob_TBCP s = true → stream s = EmptyString →
  ∃ n s', (printer_write data;; printer_flush) s = Done n s' ∧
    tbcp2bin (ob_sent s') = data ∧
    Forall (λ c, tbcp_special c = true → c = control_A) (chars (ob_sent s')).
Proof.
  intros Hs Ht He. destruct (write_and_flush data s Hs) as (n & s' & E & Es & _).
  exists n, s'. split; [done|]. rewrite Es, He, Ht. simpl. rewrite str_nil_app.
  split; [apply tbcp2bin_encode | apply tbcp_encode_plain].
Qed.

(** * PostScript strings *)

(** How PostScript reads a string (PostScript Language Reference, 3.2.2), from
    behind its opening parenthesis: up to the parenthesis that closes it, those
    in between being balanced; a line end of any kind is a line feed; and a
    backslash stands for a character with the one behind it, or with one to
    three octal digits.  The result is the text and what is behind it. *)
Definition octal (c : ascii) : option Z :=
  if (48 <=? code c) && (code c <=? 55) then Some (code c - 48) else None.

Definition ps_letter (c : ascii) : ascii :=
  if code c =? 110 then chr 10 else if code c =? 114 then chr 13
  else if code c =? 116 then chr 9 else if code c =? 98 then chr 8
  else if code c =? 102 then chr 12 else c.

Definition and_then (c : ascii) (r : option (string * string)) : option (string * string) :=
  match r with Some (text, rest) => Some (String c text, rest) | None => None end.

Fixpoint ps_read (level : nat) (s : string) : option (string * string) :=
  match s with
  | EmptyString => None
  | String c s1 =>
      if code c =? 40 then and_then c (ps_read (S level) s1)
      else if code c =? 41 then
        match level with
        | 0%nat => Some (EmptyString, s1)
        | S level' => and_then c (ps_read level' s1)
        end
      else if code c =? 13 then
        match s1 with
        | String d1 s2 =>
            and_then (chr 10) (if code d1 =? 10 then ps_read level s2 else ps_read level s1)
        | EmptyString => None
        end
      else if negb (code c =? 92) then and_then c (ps_read level s1)
      else
        match s1 with
        | EmptyString => None
        | String d1 s2 =>
            match octal d1 with
            | None =>
                if code d1 =? 10 then ps_read level s2
                else and_then (ps_letter d1) (ps_read level s2)
            | Some o1 =>
                match s2 with
                | EmptyString => None
                | String d2 s3 =>
                    match octal d2 with
                    | None => and_then (chr o1) (ps_read level s2)
                    | Some o2 =>
                        match s3 with
                        | EmptyString => None
                        | String d3 s4 =>
                            match octal d3 with
                            | None => and_then (chr (8 * o1 + o2)) (ps_read level s3)
                            | Some o3 => and_then (chr (u8 (64 * o1 + 8 * o2 + o3))) (ps_read level s4)
                            end
                        end
                    end
                end
            end
        end
  end.

(** Parentheses that are not escaped end the string, or are part of it. *)
Example ps_read_unescaped : ps_read 0 "a(b)c) show" = Some ("a(b)c", " show") ∧ ps_read 0 "a(b" = None.
Proof. done. Qed.

Definition escaped (c : ascii) : string :=
  if (code c =? 40) || (code c =? 41) || (code c =? 92) then String backslash (String c EmptyString)
  else if (32 <=? schar c) && (schar c <? 127) then String c EmptyString
  else String backslash (fmt_o3 (schar c)).

Fixpoint escaped_string (str : string) : string :=
  match str with
  | EmptyString => EmptyString
  | String c str' => escaped c +:+ escaped_string str'
  end.

Lemma sends_putc_escaped c s :
  ok s → sends (printer_putc_escaped c) (on_the_line (ob_TBCP s) (escaped c)) s.
Proof.
  intros Hs. unfold printer_putc_escaped, escaped.
  destruct ((code c =? 40) || (code c =? 41) || (code c =? 92)).
  - change (String backslash (String c EmptyString))
      with (String backslash EmptyString +:+ String c EmptyString).
    apply sends_line_bind; [by apply sends_putc|]. intros _ s' Hs' <-. by apply sends_putc.
  - destruct ((32 <=? schar c) && (schar c <? 127)); [by apply sends_putc|].
    change (String backslash (fmt_o3 (schar c)))
      with (String backslash EmptyString +:+ fmt_o3 (schar c)).
    change (printer_printf (String backslash "%o") [AD (schar c)])
      with (printer_putc backslash;; printer_write (fmt_o3 (schar c));; mret tt).
    apply sends_line_bind; [by apply sends_putc|]. intros _ s' Hs' <-.
    rewrite <- (str_app_nil_r (fmt_o3 (schar c))).
    apply sends_line_bind; [rewrite str_app_nil_r; by apply sends_write|].
    intros _ s2 Hs2 <-. destruct (ob_TBCP s2); by apply sends_ret.
Qed.

Lemma sends_puts_escaped str s :
  ok s → sends (printer_puts_escaped str) (on_the_line (ob_TBCP s) (escaped_string str)) s.
Proof.
  revert s. induction str as [|c str IH]; intros s Hs; simpl.
  { destruct (ob_TBCP s); by apply sends_ret. }
  apply sends_line_bind; [by apply sends_putc_escaped|]. intros _ s' Hs' <-. by apply IH.
Qed.

Definition is_ascii (c : ascii) : Prop := code c < 128.

Lemma ps_read_escaped c rest :
  is_ascii c → ps_read 0 (escaped c +:+ rest) = and_then c (ps_read 0 rest).
Proof.
  unfold is_ascii. destruct c as [[] [] [] [] [] [] [] []]; intros Hc; try (exfalso; by vm_compute in Hc);
    reflexivity.
Qed.

(** C22: a text in ASCII that is put between the parentheses of a PostScript
    string, a job's title or the user's name, is the text the printer reads
    there, whatever parentheses, backslashes and control characters it has:
    the string ends with the parenthesis that is sent behind the text, and not
    before. *)
Theorem escaped_text_is_read_back str s :
  Forall is_ascii (chars str) → ok s → ob_TBCP s = false →
  ∃ u s' text, printer_puts_escaped str s = Done u s' ∧
    stream s' = stream s +:+ text ∧
    ∀ rest, ps_read 0 (text +:+ ")" +:+ rest) = Some (str, rest).
Proof.
  intros Ha Hs Ht.
  destruct (sends_done _ _ _ (sends_puts_escaped str s Hs)) as (u & s' & E & Est & _).
  rewrite Ht in Est. exists u, s', (escaped_string str). split; [done|]. split; [exact Est|].
  intros rest. clear -Ha. induction str as [|c str IH]; [done|]. inversion Ha; subst. simpl.
  rewrite str_app_assoc, ps_read_escaped by done. by rewrite IH.
Qed.

(** A character outside ASCII is not: its code is printed as that of a
    negative int, in eleven octal digits, of which the printer takes three for
    the character 0xFF and prints the other eight. *)
Theorem other_characters_are_garbled c s :
  128 ≤ code c → ok s → ob_TBCP s = false →
  ∃ u s' digits, printer_putc_escaped c s = Done u s' ∧
    stream s' = stream s +:+ escaped c ∧ strlen (escaped c) = 12 ∧
    ps_read 0 (escaped c +:+ ")") = Some (String (chr 255) digits, EmptyString) ∧ strlen digits = 8.
Proof.
  intros Hc Hs Ht.
  destruct (sends_done _ _ _ (sends_putc_escaped c s Hs)) as (u & s' & E & Est & _).
  rewrite Ht in Est.
  assert (∃ digits, strlen (escaped c) = 12 ∧ ps_read 0 (escaped c +:+ ")") = Some (String (chr 255) digits, EmptyString)
    ∧ strlen digits = 8) as (digits & H12 & Hd & H8).
  { clear -Hc. exists (str_drop 4 (escaped c)).
    destruct c as [[] [] [] [] [] [] [] []]; try (exfalso; by vm_compute in Hc);
      vm_compute; repeat split. }
  by exists u, s', digits.
Qed.

(** * QuotedValues *)

Definition hex_pair (c : ascii) : string :=
  String (digit_char true (code c / 16)) (String (digit_char true (code c mod 16)) EmptyString).

Fixpoint hex_pairs (data : string) : string :=
  match data with
  | EmptyString => EmptyString
  | String c data' => hex_pair c +:+ hex_pairs data'
  end.

(** A value as a PPD file has it: pieces of plain text, and of bytes in hex. *)
Fixpoint quoted_value (pieces : list (string * string)) : string :=
  match pieces with
  | [] => EmptyString
  | (text, data) :: pieces' =>
      text +:+ "<" +:+ hex_pairs data +:+ ">" +:+ quoted_value pieces'
  end.

Fixpoint meant (pieces : list (string * string)) : string :=
  match pieces with
  | [] => EmptyString
  | (text, data) :: pieces' => text +:+ data +:+ meant pieces'
  end.

Lemma puts_hex_pair c rest :
  puts_QuotedValue_in (Some None) (hex_pair c +:+ rest)
  = (printer_putc c;; puts_QuotedValue_in (Some None) rest).
Proof. by destruct c as [[] [] [] [] [] [] [] []]. Qed.

Lemma sends_hex data rest more s :
  ok s →
  (∀ s', ok s' → ob_TBCP s' = ob_TBCP s →
    sends (puts_QuotedValue_in None rest) (on_the_line (ob_TBCP s) more) s') →
  sends (puts_QuotedValue_in (Some None) (hex_pairs data +:+ ">" +:+ rest))
    (on_the_line (ob_TBCP s) (data +:+ more)) s.
Proof.
  revert s. induction data as [|c data IH]; intros s Hs Hrest.
  { by apply Hrest. }
  simpl hex_pairs. rewrite str_app_assoc, puts_hex_pair.
  change (String c data +:+ more) with (String c EmptyString +:+ (data +:+ more)).
  apply sends_line_bind; [by apply sends_putc|]. intros _ s' Hs' Et. rewrite <- Et. apply IH; [done|].
  intros s2 Hs2 E. rewrite Et in E |- *. by apply Hrest.
Qed.

Lemma sends_plain text rest more s :
  ok s → Forall (λ c, c ≠ "<"%char) (chars text) →
  (∀ s', ok s' → ob_TBCP s' = ob_TBCP s →
    sends (puts_QuotedValue_in None rest) (on_the_line (ob_TBCP s) more) s') →
  sends (puts_QuotedValue_in None (text +:+ rest)) (on_the_line (ob_TBCP s) (text +:+ more)) s.
Proof.
  revert s. induction text as [|c text IH]; intros s Hs Ht Hrest; [by apply Hrest|].
  inversion Ht as [|? ? Hc Ht']; subst. rewrite str_cons_app. simpl.
  destruct (Ascii.eqb_spec c "<"); [done|].
  change (String c text +:+ more) with (String c EmptyString +:+ (text +:+ more)).
  apply sends_line_bind; [by apply sends_putc|]. intros _ s' Hs' Et. rewrite <- Et.
  apply IH; [done..|]. intros s2 Hs2 E. rewrite Et in E |- *. by apply Hrest.
Qed.

(** A value of a PPD file is sent as what it means: its plain text as it
    stands, its hexadecimal parts as the bytes they spell. *)
Theorem quoted_values_are_sent_as_meant pieces s :
  Forall (λ p, Forall (λ c, c ≠ "<"%char) (chars p.1)) pieces → ok s →
  ∃ u s', printer_puts_QuotedValue (quoted_value pieces) s = Done u s' ∧
    stream s' = stream s +:+ on_the_line (ob_TBCP s) (meant pieces).
Proof.
  intros Hp Hs.
  assert (sends (puts_QuotedValue_in None (quoted_value pieces))
    (on_the_line (ob_TBCP s) (meant pieces)) s) as L.
  { revert s Hs. induction Hp as [|[text data] pieces Hp _ IH]; intros s Hs.
    - simpl. destruct (ob_TBCP s); by apply sends_ret.
    - cbn [quoted_value meant]. apply sends_plain; [done..|]. intros s1 Hs1 <-.
      apply (sends_hex data); [done|]. intros s2 Hs2 <-. by apply IH. }
  destruct (sends_done _ _ _ L) as (u & s' & E & Est & _). by exists u, s'.
Qed.

(** * The theorems at work *)

(** A fresh buffer, with a pipe that takes a few bytes at a time. *)
Definition fresh_out (tbcp : bool) : outbuf :=
  mkOut EmptyString BUFSIZE EmptyString 0 tbcp true [Wrote 3; Interrupted; Wrote 1; NotReady].

Lemma fresh_out_ok tbcp : ok (fresh_out tbcp).
Proof. constructor; [done | done | done | repeat constructor; done]. Defined.

Definition control_data : string := String (chr 4) (String (chr 1) "ok").

Lemma output_is_not_lost_witness :
  (∃ s1, printer_write "o" (fresh_out false) = Done tt s1 ∧ within_buffer s1) ∧
  ∃ n s', (printer_write control_data;; printer_flush) (fresh_out false) = Done n s' ∧
    ob_sent s' = control_data.
Proof.
  destruct (output_is_not_lost control_data (fresh_out false)) as (_ & n & s' & E & Es & _).
  { apply fresh_out_ok. }
  split; [|exists n, s'; split; [exact E | exact Es]].
  destruct (output_is_not_lost "ok" (fresh_out false)) as (H & _); [apply fresh_out_ok|].
  destruct (H "o" "k") as (s1 & E1 & H1 & _); [reflexivity|].
  exists s1. split; [exact E1 | exact H1].
Defined.

Lemma binary_data_survives_tbcp_witness :
  ∃ n s', (printer_write control_data;; printer_flush) (fresh_out true) = Done n s' ∧
    tbcp2bin (ob_sent s') = control_data.
Proof.
  destruct (binary_data_survives_tbcp control_data (fresh_out true)) as (n & s' & E & Es & _).
  - apply fresh_out_ok.
  - reflexivity.
  - reflexivity.
  - exists n, s'. split; [exact E | exact Es].
Defined.

Lemma escaped_text_is_read_back_witness :
  ∃ u s' text, printer_puts_escaped "f(x)" (fresh_out false) = Done u s' ∧
    stream s' = text ∧ ps_read 0 (text +:+ ")" +:+ " show") = Some ("f(x)", " show").
Proof.
  destruct (escaped_text_is_read_back "f(x)" (fresh_out false)) as (u & s' & text & E & Es & Er).
  - repeat constructor; reflexivity.
  - apply fresh_out_ok.
  - reflexivity.
  - exists u, s', text. split; [exact E | split; [exact Es | apply Er]].
Defined.

Lemma other_characters_are_garbled_witness :
  ∃ digits, ps_read 0 (escaped (chr 228) +:+ ")") = Some (String (chr 255) digits, EmptyString)
    ∧ strlen digits = 8.
Proof.
  destruct (other_characters_are_garbled (chr 228) (fresh_out false))
    as (u & s' & digits & _ & _ & _ & E & L).
  - discriminate.
  - apply fresh_out_ok.
  - reflexivity.
  - exists digits. split; [exact E | exact L].
Defined.

Lemma quoted_values_are_sent_as_meant_witness :
  ∃ u s', printer_puts_QuotedValue "begin <0D0A> end<00>" (fresh_out false) = Done u s' ∧
    stream s' = "begin " +:+ String (chr 13) (String (chr 10) " end") +:+ String (chr 0) EmptyString.
Proof.
  destruct (quoted_values_are_sent_as_meant
    [("begin ", String (chr 13) (String (chr 10) EmptyString)); (" end", String (chr 0) EmptyString)]
    (fresh_out false)) as (u & s' & E & Es).
  - repeat constructor; discriminate.
  - apply fresh_out_ok.
  - exists u, s'. split; [exact E | exact Es].
Defined.
