(* ===== verification/JobFile.v ===== *)
(** A job as its queue file describes it: struct QEntryFile
    (include/global_structs.h) with the structures inside it flattened, and
    qentryfile_clear() (src/libppr/qentryfile_clear.c).  A NULL pointer is
    [None], a gu_boolean the int it is.  The fields nmedia, media and
    opts.resume are left out: no routine modelled here reads or writes them. *)
From S2P Require Import Prelude.
From S2P Require Import Text.
From S2P Require Import Spooler.

Definition SIG_FRONTS : Z := 1.
Definition SIG_BACKS : Z := 2.
Definition SIG_BOTH : Z := Z.lor SIG_FRONTS SIG_BACKS.

Definition PAGEORDER_ASCEND : Z := 1.
Definition PAGEORDER_DESCEND : Z := -1.
Definition PAGEORDER_SPECIAL : Z := 0.

(** A float is the text it was read from; 0.0 is what clearing sets. *)
Record QEntryFile := mkJob {
  j_destname : option string;
  j_id : Z;
  j_subid : Z;
  j_PPRVersion : scanval;
  j_lc_messages : option string;
  j_priority : Z;
  j_sequence_number : Z;
  j_status : Z;
  j_flags : Z;
  j_time : Z;
  j_user : option string;
  j_magic_cookie : option string;
  j_For : option string;
  j_charge_to : option string;
  j_Routing : option string;
  j_Title : option string;
  j_Creator : option string;
  j_lpqFileName : option string;
  j_responder_name : option string;
  j_responder_address : option string;
  j_responder_options : option string;
  j_commentary : Z;
  j_do_banner : Z;
  j_do_trailer : Z;
  j_langlevel : Z;
  j_extensions : Z;
  j_DSClevel : scanval;
  j_DSC_job_type : option string;
  j_pages : Z;
  j_pageorder : Z;
  j_pagefactor : Z;
  j_prolog : Z;
  j_docsetup : Z;
  j_script : Z;
  j_proofmode : Z;
  j_orientation : Z;
  j_input_bytes : Z;
  j_postscript_bytes : Z;
  j_parts : Z;
  j_docdata : Z;
  j_binselect : Z;
  j_copies : Z;
  j_collate : Z;
  j_keep_badfeatures : Z;
  j_hacks : Z;
  j_N : Z;
  j_borders : Z;
  j_sigsheets : Z;
  j_sigpart : Z;
  j_job_does_n_up : Z;
  j_draft_notice : option string;
  j_PassThruPDL : option string;
  j_Filters : option string;
  j_PJL : option string;
  j_StripPrinter : Z;
  j_page_mask : option string;
  j_page_count : Z;
  j_question : option string;
  j_ripopts : option string;
}.

Definition eta_QEntryFile (r : QEntryFile) : QEntryFile :=
  mkJob (j_destname r) (j_id r) (j_subid r) (j_PPRVersion r) (j_lc_messages r)
    (j_priority r) (j_sequence_number r) (j_status r) (j_flags r) (j_time r) (j_user r)
    (j_magic_cookie r) (j_For r) (j_charge_to r) (j_Routing r) (j_Title r) (j_Creator r)
    (j_lpqFileName r) (j_responder_name r) (j_responder_address r)
    (j_responder_options r) (j_commentary r) (j_do_banner r) (j_do_trailer r)
    (j_langlevel r) (j_extensions r) (j_DSClevel r) (j_DSC_job_type r) (j_pages r)
    (j_pageorder r) (j_pagefactor r) (j_prolog r) (j_docsetup r) (j_script r)
    (j_proofmode r) (j_orientation r) (j_input_bytes r) (j_postscript_bytes r)
    (j_parts r) (j_docdata r) (j_binselect r) (j_copies r) (j_collate r)
    (j_keep_badfeatures r) (j_hacks r) (j_N r) (j_borders r) (j_sigsheets r)
    (j_sigpart r) (j_job_does_n_up r) (j_draft_notice r) (j_PassThruPDL r) (j_Filters r)
    (j_PJL r) (j_StripPrinter r) (j_page_mask r) (j_page_count r) (j_question r)
    (j_ripopts r).

Definition set_j_destname : option string → QEntryFile → QEntryFile :=
  ltac:(setter eta_QEntryFile j_destname).
Definition set_j_id : Z → QEntryFile → QEntryFile :=
  ltac:(setter eta_QEntryFile j_id).
Definition set_j_subid : Z → QEntryFile → QEntryFile :=
  ltac:(setter eta_QEntryFile j_subid).
Definition set_j_PPRVersion : scanval → QEntryFile → QEntryFile :=
  ltac:(setter eta_QEntryFile j_PPRVersion).
Definition set_j_lc_messages : option string → QEntryFile → QEntryFile :=
  ltac:(setter eta_QEntryFile j_lc_messages).
Definition set_j_priority : Z → QEntryFile → QEntryFile :=
  ltac:(setter eta_QEntryFile j_priority).
Definition set_j_sequence_number : Z → QEntryFile → QEntryFile :=
  ltac:(setter eta_QEntryFile j_sequence_number).
Definition set_j_status : Z → QEntryFile → QEntryFile :=
  ltac:(setter eta_QEntryFile j_status).
Definition set_j_flags : Z → QEntryFile → QEntryFile :=
  ltac:(setter eta_QEntryFile j_flags).
Definition set_j_time : Z → QEntryFile → QEntryFile :=
  ltac:(setter eta_QEntryFile j_time).
Definition set_j_user : option string → QEntryFile → QEntryFile :=
  ltac:(setter eta_QEntryFile j_user).
Definition set_j_magic_cookie : option string → QEntryFile → QEntryFile :=
  ltac:(setter eta_QEntryFile j_magic_cookie).
Definition set_j_For : option string → QEntryFile → QEntryFile :=
  ltac:(setter eta_QEntryFile j_For).
Definition set_j_charge_to : option string → QEntryFile → QEntryFile :=
  ltac:(setter eta_QEntryFile j_charge_to).
Definition set_j_Routing : option string → QEntryFile → QEntryFile :=
  ltac:(setter eta_QEntryFile j_Routing).
Definition set_j_Title : option string → QEntryFile → QEntryFile :=
  ltac:(setter eta_QEntryFile j_Title).
Definition set_j_Creator : option string → QEntryFile → QEntryFile :=
  ltac:(setter eta_QEntryFile j_Creator).
Definition set_j_lpqFileName : option string → QEntryFile → QEntryFile :=
  ltac:(setter eta_QEntryFile j_lpqFileName).
Definition set_j_responder_name : option string → QEntryFile → QEntryFile :=
  ltac:(setter eta_QEntryFile j_responder_name).
Definition set_j_responder_address : option string → QEntryFile → QEntryFile :=
  ltac:(setter eta_QEntryFile j_responder_address).
Definition set_j_responder_options : option string → QEntryFile → QEntryFile :=
  ltac:(setter eta_QEntryFile j_responder_options).
Definition set_j_commentary : Z → QEntryFile → QEntryFile :=
  ltac:(setter eta_QEntryFile j_commentary).
Definition set_j_do_banner : Z → QEntryFile → QEntryFile :=
  ltac:(setter eta_QEntryFile j_do_banner).
Definition set_j_do_trailer : Z → QEntryFile → QEntryFile :=
  ltac:(setter eta_QEntryFile j_do_trailer).
Definition set_j_langlevel : Z → QEntryFile → QEntryFile :=
  ltac:(setter eta_QEntryFile j_langlevel).
Definition set_j_extensions : Z → QEntryFile → QEntryFile :=
  ltac:(setter eta_QEntryFile j_extensions).
Definition set_j_DSClevel : scanval → QEntryFile → QEntryFile :=
  ltac:(setter eta_QEntryFile j_DSClevel).
Definition set_j_DSC_job_type : option string → QEntryFile → QEntryFile :=
  ltac:(setter eta_QEntryFile j_DSC_job_type).
Definition set_j_pages : Z → QEntryFile → QEntryFile :=
  ltac:(setter eta_QEntryFile j_pages).
Definition set_j_pageorder : Z → QEntryFile → QEntryFile :=
  ltac:(setter eta_QEntryFile j_pageorder).
Definition set_j_pagefactor : Z → QEntryFile → QEntryFile :=
  ltac:(setter eta_QEntryFile j_pagefactor).
Definition set_j_prolog : Z → QEntryFile → QEntryFile :=
  ltac:(setter eta_QEntryFile j_prolog).
Definition set_j_docsetup : Z → QEntryFile → QEntryFile :=
  ltac:(setter eta_QEntryFile j_docsetup).
Definition set_j_script : Z → QEntryFile → QEntryFile :=
  ltac:(setter eta_QEntryFile j_script).
Definition set_j_proofmode : Z → QEntryFile → QEntryFile :=
  ltac:(setter eta_QEntryFile j_proofmode).
Definition set_j_orientation : Z → QEntryFile → QEntryFile :=
  ltac:(setter eta_QEntryFile j_orientation).
Definition set_j_input_bytes : Z → QEntryFile → QEntryFile :=
  ltac:(setter eta_QEntryFile j_input_bytes).
Definition set_j_postscript_bytes : Z → QEntryFile → QEntryFile :=
  ltac:(setter eta_QEntryFile j_postscript_bytes).
Definition set_j_parts : Z → QEntryFile → QEntryFile :=
  ltac:(setter eta_QEntryFile j_parts).
Definition set_j_docdata : Z → QEntryFile → QEntryFile :=
  ltac:(setter eta_QEntryFile j_docdata).
Definition set_j_binselect : Z → QEntryFile → QEntryFile :=
  ltac:(setter eta_QEntryFile j_binselect).
Definition set_j_copies : Z → QEntryFile → QEntryFile :=
  ltac:(setter eta_QEntryFile j_copies).
Definition set_j_collate : Z → QEntryFile → QEntryFile :=
  ltac:(setter eta_QEntryFile j_collate).
Definition set_j_keep_badfeatures : Z → QEntryFile → QEntryFile :=
  ltac:(setter eta_QEntryFile j_keep_badfeatures).
Definition set_j_hacks : Z → QEntryFile → QEntryFile :=
  ltac:(setter eta_QEntryFile j_hacks).
Definition set_j_N : Z → QEntryFile → QEntryFile :=
  ltac:(setter eta_QEntryFile j_N).
Definition set_j_borders : Z → QEntryFile → QEntryFile :=
  ltac:(setter eta_QEntryFile j_borders).
Definition set_j_sigsheets : Z → QEntryFile → QEntryFile :=
  ltac:(setter eta_QEntryFile j_sigsheets).
Definition set_j_sigpart : Z → QEntryFile → QEntryFile :=
  ltac:(setter eta_QEntryFile j_sigpart).
Definition set_j_job_does_n_up : Z → QEntryFile → QEntryFile :=
  ltac:(setter eta_QEntryFile j_job_does_n_up).
Definition set_j_draft_notice : option string → QEntryFile → QEntryFile :=
  ltac:(setter eta_QEntryFile j_draft_notice).
Definition set_j_PassThruPDL : option string → QEntryFile → QEntryFile :=
  ltac:(setter eta_QEntryFile j_PassThruPDL).
Definition set_j_Filters : option string → QEntryFile → QEntryFile :=
  ltac:(setter eta_QEntryFile j_Filters).
Definition set_j_PJL : option string → QEntryFile → QEntryFile :=
  ltac:(setter eta_QEntryFile j_PJL).
Definition set_j_StripPrinter : Z → QEntryFile → QEntryFile :=
  ltac:(setter eta_QEntryFile j_StripPrinter).
Definition set_j_page_mask : option string → QEntryFile → QEntryFile :=
  ltac:(setter eta_QEntryFile j_page_mask).
Definition set_j_page_count : Z → QEntryFile → QEntryFile :=
  ltac:(setter eta_QEntryFile j_page_count).
Definition set_j_question : option string → QEntryFile → QEntryFile :=
  ltac:(setter eta_QEntryFile j_question).
Definition set_j_ripopts : option string → QEntryFile → QEntryFile :=
  ltac:(setter eta_QEntryFile j_ripopts).

Definition qentryfile_clear (job : QEntryFile) : QEntryFile :=
  set_j_destname None (set_j_id 0 (set_j_subid 0
  (set_j_priority 1 (set_j_sequence_number 0 (set_j_status 0 (set_j_flags 0
  (set_j_PPRVersion (VDec 1 0 EmptyString) (set_j_time 0 (set_j_commentary 0 (set_j_StripPrinter 1
  (set_j_DSC_job_type None (set_j_user None (set_j_For None (set_j_charge_to None
  (set_j_magic_cookie None
  (set_j_responder_name None (set_j_responder_address None (set_j_responder_options None
  (set_j_lc_messages None (set_j_Creator None (set_j_Title None (set_j_Routing None
  (set_j_lpqFileName None (set_j_PassThruPDL None (set_j_Filters None (set_j_PJL None
  (set_j_page_count (-1) (set_j_page_mask None (set_j_draft_notice None
  (set_j_question None (set_j_ripopts None job))))))))))))))))))))))))))))))).
