(* ===== verification/Pages.v ===== *)
(** The list of pages to be printed (src/libppr/pagemask.c): six pages to a
    printable character of the mask; from there to the sheets: the table of
    pages, copies, signatures and charges (src/pprdrv/pprdrv.c,
    pprdrv_signature.c, src/libppr/charge.c); and a job for the examples. *)
From S2P Require Import Prelude.
From S2P Require Import Text.
From S2P Require Import Spooler.
From S2P Require Import JobFile.

(** mask[offset / 6] |= 1 << (offset % 6): a page before the first one is a
    shift by a negative count. *)
Definition set_page (mask : list Z) (page : Z) : option (list Z) :=
  let offset := page - 1 in
  if offset <? 0 then None
  else Some (upd_index (offset / 6) (λ b, Z.lor b (Z.shiftl 1 (offset mod 6))) mask).

(** [n] pages from [page] on. *)
Fixpoint set_pages (n : nat) (page : Z) (mask : list Z) : option (list Z) :=
  match n with
  | O => Some mask
  | S n' =>
      match set_page mask page with
      | None => None
      | Some mask' => set_pages n' (page + 1) mask'
      end
  end.

(** for( ; page <= value && page <= pages; page++): the mask, and where the
    loop leaves page. *)
Definition step_to (value pages page : Z) (mask : list Z) : option (list Z * Z) :=
  let last := Z.min value pages in
  match set_pages (Z.to_nat (last - page + 1)) page mask with
  | None => None
  | Some mask' => Some (mask', Z.max page (last + 1))
  end.

Inductive encoding :=
| Encoded (mask : list Z)
| BadCharacter (mask : list Z)
| EncodeUndef
| EncodeFuel.

(** The loops over the string; the inner one goes on until a comma. *)
Fixpoint encode_loop (fuel : nat) (pages : Z) (p : string) (range : bool) (page : Z)
    (mask : list Z) : encoding :=
  match fuel with
  | O => EncodeFuel
  | S fuel' =>
      let closed k :=
        if range then
          match step_to pages pages page mask with
          | None => EncodeUndef
          | Some (mask', page') => k mask' page'
          end
        else k mask page in
      match p with
      | EmptyString => closed (λ mask' _, Encoded mask')
      | String c p' =>
          if gu_ascii_isspace c then encode_loop fuel' pages p' range page mask
          else if gu_ascii_isdigit c then
            let '(digits, rest) := span gu_ascii_isdigit p in
            let value := digits_value 10 gu_ascii_digit_value digits in
            if int_max <? value then EncodeUndef
            else
              match step_to value pages (if range then page else value) mask with
              | None => EncodeUndef
              | Some (mask', page') =>
                  encode_loop fuel' pages rest false (if range then 1 else page') mask'
              end
          else if Ascii.eqb c "," then
            closed (λ mask' page', encode_loop fuel' pages p' false page' mask')
          else if Ascii.eqb c "-" then encode_loop fuel' pages p' true page mask
          else BadCharacter mask
      end
  end.

Definition bits_in (b : Z) : Z :=
  fold_left (λ n y, if Z.testbit b y then n + 1 else n) [0; 1; 2; 3; 4; 5] 0.

Definition mask_text (mask : list Z) : string := of_chars (map chr mask).

(** The result is the return value and the job.  The byte behind the mask is
    left out: it is the NUL the string ends with. *)
Definition pagemask_encode (job : QEntryFile) (pages : string) : option (Z * QEntryFile) :=
  let bytes := Z.to_nat (Z.quot (j_pages job + 5) 6) in
  match encode_loop (S (String.length pages)) (j_pages job) pages false 1 (repeat 0 bytes) with
  | Encoded mask =>
      Some (0, set_j_page_count (fold_left (λ n b, n + bits_in b) mask 0)
                 (set_j_page_mask (Some (mask_text (map (λ b, b + 33) mask))) job))
  | BadCharacter mask => Some (-1, set_j_page_mask (Some (mask_text mask)) job)
  | EncodeUndef | EncodeFuel => None
  end.

(** (mask[bytenum] - 33) & (1 << bitnum); past the end of the string is
    undefined. *)
Definition pagemask_get_bit (job : QEntryFile) (page : Z) : option Z :=
  match j_page_mask job with
  | None => Some 1
  | Some mask =>
      if (page <=? 0) || (j_pages job <? page) then Some 1
      else
        let offset := page - 1 in
        match chars mask !! Z.to_nat (offset / 6) with
        | None => None
        | Some c =>
            Some (if Z.land (code c - 33) (Z.shiftl 1 (offset mod 6)) =? 0 then 0 else 1)
        end
  end.

Definition pagemask_count (job : QEntryFile) : Z :=
  match j_page_mask job with
  | Some _ => j_page_count job
  | None => j_pages job
  end.

(** What pagemask_print() prints. *)
Fixpoint print_pages (n : nat) (x : Z) (job : QEntryFile) : option string :=
  match n with
  | O => Some EmptyString
  | S n' =>
      match pagemask_get_bit job x, print_pages n' (x + 1) job with
      | Some b, Some rest => Some (if b =? 0 then rest else fmt_d x +:+ String " " rest)
      | _, _ => None
      end
  end.

Definition pagemask_print (job : QEntryFile) : option string :=
  match j_page_mask job with
  | None => Some EmptyString
  | Some _ => print_pages (Z.to_nat (j_pages job)) 1 job
  end.

(** * The pages of a job on their way to the printer: how copies are made, which
    sheet is sent when, and which page goes where on it (src/pprdrv/pprdrv.c,
    pprdrv_signature.c); and what the sheets cost (src/libppr/charge.c). *)

(** An entry of pagetable[]. *)
Record PAGETABLE := mkEntry {
  pages_offset : Z;
  text_offset : Z;
}.

(** What copy_pages() has sent: a page of the job, found at these offsets and
    under its new number, or a blank page. *)
Inductive sent_page :=
| Page (where_ : PAGETABLE) (newnumber : Z)
| Dummy (newnumber : Z).

(** The driver's variables.  [d_page_comments] is the "-pages" file, with the
    position in it. *)
Record driver := mkDriver {
  d_job : QEntryFile;
  d_OutputOrder : Z;
  d_page_comments : string;
  d_page_comments_pos : Z;
  d_pagetable : list PAGETABLE;
  d_current_job_direction : Z;
  d_print_direction : Z;
  d_sheetcount : Z;
  d_copies_auto : Z;
  d_copies_auto_collate : Z;
  d_copies_doc_countdown : Z;
  d_copies_pages_countdown : Z;
  d_sent : list sent_page;
}.

Definition eta_driver (r : driver) : driver :=
  mkDriver (d_job r) (d_OutputOrder r) (d_page_comments r) (d_page_comments_pos r)
    (d_pagetable r) (d_current_job_direction r) (d_print_direction r) (d_sheetcount r)
    (d_copies_auto r) (d_copies_auto_collate r) (d_copies_doc_countdown r)
    (d_copies_pages_countdown r) (d_sent r).

Definition set_d_page_comments_pos : Z → driver → driver :=
  ltac:(setter eta_driver d_page_comments_pos).
Definition set_d_pagetable : list PAGETABLE → driver → driver :=
  ltac:(setter eta_driver d_pagetable).
Definition set_d_current_job_direction : Z → driver → driver :=
  ltac:(setter eta_driver d_current_job_direction).
Definition set_d_print_direction : Z → driver → driver :=
  ltac:(setter eta_driver d_print_direction).
Definition set_d_sheetcount : Z → driver → driver := ltac:(setter eta_driver d_sheetcount).
Definition set_d_copies_auto : Z → driver → driver := ltac:(setter eta_driver d_copies_auto).
Definition set_d_copies_auto_collate : Z → driver → driver :=
  ltac:(setter eta_driver d_copies_auto_collate).
Definition set_d_copies_doc_countdown : Z → driver → driver :=
  ltac:(setter eta_driver d_copies_doc_countdown).
Definition set_d_copies_pages_countdown : Z → driver → driver :=
  ltac:(setter eta_driver d_copies_pages_countdown).
Definition set_d_sent : list sent_page → driver → driver := ltac:(setter eta_driver d_sent).

Definition D : Type → Type := M driver.

Definition the_job : D QEntryFile := gets d_job.

(** A C division: the quotient is truncated, and by zero there is none. *)
Definition c_div (a b : Z) : D Z :=
  if b =? 0 then undef "division by zero" else mret (Z.quot a b).

(** * Before the pages *)

Definition pages_per_signature (job : QEntryFile) : Z := j_N job * 2 * j_sigsheets job.

Definition page_computations : D unit :=
  job ← the_job;
  let pages := pagemask_count job in
  sheetcount ←
    (if j_sigsheets job =? 0 then c_div (pages + j_pagefactor job - 1) (j_pagefactor job)
     else
       signature_count ← c_div (pages + pages_per_signature job - 1) (pages_per_signature job);
       sides ← c_div (j_N job * 2) (j_pagefactor job);
       mret (signature_count * j_sigsheets job * sides));
  modify (set_d_sheetcount sheetcount);;
  (if (j_pageorder job =? PAGEORDER_SPECIAL) || (j_pageorder job =? PAGEORDER_ASCEND)
   then modify (set_d_current_job_direction 1)
   else if j_pageorder job =? PAGEORDER_DESCEND
   then modify (set_d_current_job_direction (-1))
   else fatal 3 "PageOrder is invalid");;
  order ← gets d_OutputOrder;
  modify (set_d_print_direction
    (if j_pageorder job =? PAGEORDER_SPECIAL then 1 else order)).

(** printer_can_collate() (src/pprdrv/pprdrv_ppd.c) *)
Definition printer_can_collate : bool := false.

Definition set_copies (auto collate doc pages : Z) : D unit :=
  modify (set_d_copies_auto auto);;
  modify (set_d_copies_auto_collate collate);;
  modify (set_d_copies_doc_countdown doc);;
  modify (set_d_copies_pages_countdown pages).

Definition select_copies_method : D unit :=
  job ← the_job;
  let copies := j_copies job in
  if (copies <? 2) || negb (truth (j_collate job)) then set_copies copies 0 1 1
  else if printer_can_collate then set_copies copies 1 1 1
  else if negb (truth (j_script job)) || (j_pageorder job =? PAGEORDER_SPECIAL)
  then set_copies 1 0 copies 1
  else set_copies 1 0 1 copies.

(** * The table of pages *)

(** fgets() into char[256], and the last character off. *)
Definition getpline : D (option string) := λ s,
  match str_drop (Z.to_nat (d_page_comments_pos s)) (d_page_comments s) with
  | EmptyString => Done None s
  | rest =>
      let l := str_take 255 (fgets_line rest).1 in
      Done (Some (str_take (String.length l - 1) l))
        (set_d_page_comments_pos (d_page_comments_pos s + strlen l) s)
  end.

Definition bad_job {A} (msg : string) : D A := fatal 3 msg.

Definition need_pline (msg : string) : D string :=
  p ← getpline;
  match p with Some l => mret l | None => bad_job msg end.

(** Up to the next blank line; every line has a character at least. *)
Fixpoint skip_page_record (fuel : nat) : D unit :=
  match fuel with
  | O => λ _, Stopped SFuel
  | S fuel' =>
      l ← need_pline "invalid job: EOF before end of page in -pages file";
      if String.eqb l EmptyString then mret tt else skip_page_record fuel'
  end.

Definition read_page_record (page printed_pages : Z) : D unit :=
  l ← need_pline "bad job: EOF where %%Page: expected";
  if negb (lmatch l "%%Page:") then bad_job "bad job: %%Page: expected"
  else
  l' ← need_pline "bad job: EOF where Offset: expected";
  match gu_sscanf l' "Offset: %ld" [] with
  | Scanned 1 [VInt offset] =>
      job ← the_job;
      match pagemask_get_bit job page with
      | None => undef "mask[] out of bounds"
      | Some bit =>
          (if bit =? 1 then
             s ← gets id;
             if printed_pages <=? Z.of_nat (length (d_pagetable s))
             then bad_job "bad job: pagetable[] overflow"
             else modify (set_d_pagetable
                    (d_pagetable s ++ [mkEntry (d_page_comments_pos s) offset]))
           else mret tt);;
          n ← gets (λ s, String.length (d_page_comments s));
          skip_page_record (S n)
      end
  | Scanned _ _ => bad_job "bad job: Offset: expected"
  | ScanThrow msg => gu_Throw msg
  | ScanUndef => undef "gu_sscanf()"
  end.

(** The pages come in the order in which they are in the file. *)
Definition make_pagetable : D Z :=
  job ← the_job;
  let available_pages := j_pages job in
  if available_pages <=? 0 then mret 0
  else
    let printed_pages := pagemask_count job in
    modify (set_d_pagetable []);;
    for_each (Z.to_nat available_pages) 0 (λ k,
      read_page_record
        (if j_pageorder job =? PAGEORDER_DESCEND then available_pages - k else 1 + k)
        printed_pages);;
    t ← gets d_pagetable;
    if Z.of_nat (length t) =? printed_pages then mret (Z.of_nat (length t))
    else bad_job "assertion failed".

(** * Signatures *)

(** The page of the signature that goes to the place [sheetpage] of its sheet,
    for two pages to a side. *)
Definition two_up_page (leftcentre sigsheet sheetpage : Z) : D Z :=
  if sheetpage =? 0 then mret (leftcentre - sigsheet * 2)
  else if sheetpage =? 1 then mret (leftcentre + sigsheet * 2 + 1)
  else if sheetpage =? 2 then mret (leftcentre + sigsheet * 2 + 2)
  else if sheetpage =? 3 then mret (leftcentre - sigsheet * 2 - 1)
  else fatal 2 "pprdrv_signature.c: this can't happend".

Definition skips_side (job : QEntryFile) (sheetpage : Z) : bool :=
  ((sheetpage <? Z.quot (j_pagefactor job) 2) && (Z.land (j_sigpart job) SIG_FRONTS =? 0))
  || ((Z.quot (j_pagefactor job) 2 <=? sheetpage) && (Z.land (j_sigpart job) SIG_BACKS =? 0)).

Definition signature (sheetnumber sheetpage : Z) : D Z :=
  job ← the_job;
  let simplex := j_N job =? j_pagefactor job in
  let sheetpage :=
    if simplex && Z.odd sheetnumber then sheetpage + j_N job else sheetpage in
  let sheetnumber := if simplex then Z.quot sheetnumber 2 else sheetnumber in
  if skips_side job sheetpage then mret (-1)
  else
    let sigpages := j_N job * j_sigsheets job * 2 in
    signumber ← c_div sheetnumber (j_sigsheets job);
    let sigsheet := Z.rem sheetnumber (j_sigsheets job) in
    let leftcentre := Z.quot sigpages 2 - 1 in
    sigpage ← (if j_N job =? 2 then two_up_page leftcentre sigsheet sheetpage
               else mret sheetpage);
    mret (signumber * sigpages + sigpage).

(** * Sending the pages *)

Definition send (p : sent_page) : D unit := modify (λ s, set_d_sent (d_sent s ++ [p]) s).

(** The page for one place on a sheet. *)
Definition copy_member (npages sheetlimit sheetnumber sheetmember : Z) : D unit :=
  job ← the_job;
  pagenumber ←
    (if j_sigsheets job =? 0 then mret (sheetnumber * j_pagefactor job + sheetmember)
     else signature sheetnumber sheetmember);
  if negb (j_sigsheets job =? 0) && (pagenumber =? -1) then mret tt
  else
    s ← gets id;
    let pageindex :=
      if d_current_job_direction s =? 1 then pagenumber else npages - pagenumber - 1 in
    if (pageindex <? npages) && (0 <=? pageindex) then
      match at_index (d_pagetable s) pageindex with
      | None => undef "pagetable[] out of bounds"
      | Some where_ => send (Page where_ (pagenumber + 1))
      end
    else
      when (negb (d_copies_pages_countdown s =? 0) || negb (j_sigsheets job =? 0)
            || negb (sheetnumber + d_print_direction s =? sheetlimit))
        (send (Dummy (pagenumber + 1))).

(** while(sheetnumber != sheetlimit): a sheet a turn. *)
Fixpoint copy_sheets (fuel : nat) (npages sheetlimit sheetnumber : Z) : D unit :=
  if sheetnumber =? sheetlimit then mret tt
  else
    match fuel with
    | O => λ _, Stopped SFuel
    | S fuel' =>
        job ← the_job;
        for_each (Z.to_nat (j_pagefactor job)) 0 (copy_member npages sheetlimit sheetnumber);;
        direction ← gets d_print_direction;
        copy_sheets fuel' npages sheetlimit (sheetnumber + direction)
    end.

Definition copy_once (npages : Z) : D unit :=
  s ← gets id;
  let fuel := Z.to_nat (d_sheetcount s) in
  if d_print_direction s =? -1
  then copy_sheets fuel npages (-1) (d_sheetcount s - 1)
  else copy_sheets fuel npages (d_sheetcount s) 0.

(** while(copies_pages_countdown--) *)
Fixpoint copies_loop (fuel : nat) (npages : Z) : D unit :=
  match fuel with
  | O => λ _, Stopped SFuel
  | S fuel' =>
      c ← gets d_copies_pages_countdown;
      c' ← c_int (c - 1);
      modify (set_d_copies_pages_countdown c');;
      if c =? 0 then mret tt
      else copy_once npages;; copies_loop fuel' npages
  end.

Definition copy_pages (fuel : nat) : D unit :=
  npages ← make_pagetable;
  if npages =? 0 then mret tt
  else
    trailer_offset_pages ← gets d_page_comments_pos;
    copies_loop fuel npages;;
    modify (set_d_page_comments_pos trailer_offset_pages).

(** while(copies_doc_countdown--), as far as it concerns the pages: what
    comes before them in the "-pages" file has been read up to [start]. *)
Fixpoint copy_documents (docs fuel : nat) (start : Z) : D unit :=
  match docs with
  | O => λ _, Stopped SFuel
  | S docs' =>
      c ← gets d_copies_doc_countdown;
      c' ← c_int (c - 1);
      modify (set_d_copies_doc_countdown c');;
      if c =? 0 then mret tt
      else
        modify (set_d_page_comments_pos start);;
        copy_pages fuel;;
        copy_documents docs' fuel start
  end.

(** * Charges *)

Record COMPUTED_CHARGE := mkCharge {
  duplex_sheets : Z;
  per_duplex : Z;
  simplex_sheets : Z;
  per_simplex : Z;
  total : Z;
}.

(** The sheets of one copy: duplex and simplex. *)
Definition charged_sheets (vpages n_up_n vpages_per_sheet sigsheets sigpart : Z) : Z * Z :=
  if negb (sigsheets =? 0) then
    let pages_per_signiture := n_up_n * 2 * sigsheets in
    let signature_count := Z.quot (vpages + pages_per_signiture - 1) pages_per_signiture in
    if Z.land sigpart SIG_BOTH =? SIG_BOTH then
      (signature_count * sigsheets * Z.quot (n_up_n * 2) vpages_per_sheet, 0)
    else if vpages_per_sheet =? n_up_n then (0, signature_count * sigsheets)
    else (Z.quot (signature_count * sigsheets + 1) 2, 0)
  else
    let sides := Z.quot (vpages + n_up_n - 1) n_up_n in
    if vpages_per_sheet =? n_up_n then (0, sides)
    else (Z.quot sides 2, Z.rem sides 2).

Definition compute_charge (per_duplex_sheet per_simplex_sheet vpages n_up_n vpages_per_sheet
    sigsheets sigpart copies : Z) : COMPUTED_CHARGE :=
  let '(duplex, simplex) := charged_sheets vpages n_up_n vpages_per_sheet sigsheets sigpart in
  let times := if 0 <=? copies then copies else 1 in
  mkCharge (duplex * times) per_duplex_sheet (simplex * times) per_simplex_sheet
    (duplex * times * per_duplex_sheet + simplex * times * per_simplex_sheet).

(** * A job and a driver for the concrete instances of the theorems. *)

(** Six pages in ascending order on simplex sheets, one to a side, all of them
    to be printed, from a document with page comments. *)
Definition sample_job : QEntryFile :=
  mkJob None 0 0 (VDec 1 0 EmptyString) None 1 0 0 0 0 None None None None None None None None
    None None None 0 0 0 2 0 (VDec 1 3 "0") None 6 PAGEORDER_ASCEND 1 1 1 1 0 0 1000 1000 1 0 0 1
    0 0 0 1 0 0 0 0 None None None None 1 None (-1) None None.

(** The same job, folded: one duplex sheet is a signature of four pages. *)
Definition sample_booklet : QEntryFile :=
  set_j_sigsheets 1 (set_j_sigpart SIG_BOTH (set_j_N 2 (set_j_pagefactor 4 sample_job))).

Definition sample_table : list PAGETABLE :=
  map (λ i, mkEntry (100 * i) (1000 * i)) (seqZ 1 6).

Definition sample_driver (job : QEntryFile) : driver :=
  mkDriver job 1 EmptyString 0 sample_table 1 1 0 1 0 1 1 [].
