(* ===== verification/PropPages.v ===== *)
(** Properties of lists of pages: which pages a list chooses, the mask that
    is made of it, and the table of the pages of a job. *)
From S2P Require Import Prelude.
From S2P Require Import Text.
From S2P Require Import TextFacts.
From S2P Require Import Spooler.
From S2P Require Import SpoolerFacts.
From S2P Require Import JobFile.
From S2P Require Import Pages.

(** * Lists of pages *)

Inductive item :=
| One (n : Z)
| Range (a b : Z)
| From (a : Z).

Definition item_text (i : item) : string :=
  match i with
  | One n => fmt_d n
  | Range a b => fmt_d a +:+ "-" +:+ fmt_d b
  | From a => fmt_d a +:+ "-"
  end.

Fixpoint list_text (l : list item) : string :=
  match l with
  | [] => EmptyString
  | [i] => item_text i
  | i :: l' => item_text i +:+ "," +:+ list_text l'
  end.

Definition chooses (page : Z) (i : item) : bool :=
  match i with
  | One n => page =? n
  | Range a b => (a <=? page) && (page <=? b)
  | From a => a <=? page
  end.

Definition number (n : Z) : Prop := 1 ≤ n ≤ int_max.

Definition proper (i : item) : Prop :=
  match i with
  | One n | From n => number n
  | Range a b => number a ∧ number b ∧ a ≤ b
  end.

(** ** The mask as a set of pages *)

Definition has (mask : list Z) (page : Z) : bool :=
  match at_index mask ((page - 1) / 6) with
  | Some b => Z.testbit b ((page - 1) mod 6)
  | None => false
  end.

Definition sextet (b : Z) : Prop := 0 ≤ b < 64.

(** The mask of a job of so many pages holds the pages of [f], and no others. *)
Record holds (pages : Z) (mask : list Z) (f : Z → bool) : Prop := {
  h_length : length mask = Z.to_nat (Z.quot (pages + 5) 6);
  h_bytes : Forall sextet mask;
  h_pages : ∀ page, 1 ≤ page → has mask page = f page && (page <=? pages);
}.

Lemma sextet_bit b y : sextet b → 0 ≤ y < 6 → sextet (Z.lor b (Z.shiftl 1 y)).
Proof.
  intros Hb Hy. unfold sextet in *. change 64 with (2 ^ 6).
  apply (lor_in_u 6); [done | exact Hb|].
  unfold in_u. rewrite Z.shiftl_1_l. split; [apply Z.pow_nonneg; done|].
  apply Z.pow_lt_mono_r; lia.
Qed.

Lemma set_page_has mask page q b :
  1 ≤ page → 1 ≤ q → at_index mask ((page - 1) / 6) = Some b →
  has (upd_index ((page - 1) / 6) (λ b, Z.lor b (Z.shiftl 1 ((page - 1) mod 6))) mask) q
  = has mask q || (q =? page).
Proof.
  intros Hp Hq Hb. unfold has. destruct (decide ((q - 1) / 6 = (page - 1) / 6)) as [E|E].
  - rewrite E. rewrite (at_index_upd _ _ _ _ Hb), Hb. rewrite Z.lor_spec. f_equal.
    rewrite Z.shiftl_1_l, Z.pow2_bits_eqb by (apply Z.mod_pos_bound; done).
    pose proof (Z.div_mod (q - 1) 6). pose proof (Z.div_mod (page - 1) 6). rewrite E in *.
    destruct (Z.eqb_spec ((page - 1) mod 6) ((q - 1) mod 6)), (Z.eqb_spec q page); try done; lia.
  - rewrite at_index_upd_ne; [|apply Z.div_pos; lia | done].
    destruct (Z.eqb_spec q page) as [->|]; [done|]. by rewrite orb_false_r.
Qed.

Lemma page_in_mask pages mask f page :
  holds pages mask f → 1 ≤ page ≤ pages → is_Some (at_index mask ((page - 1) / 6)).
Proof.
  intros [Hl _ _] Hp. apply at_index_ge. rewrite Hl.
  rewrite Z.quot_div_nonneg by lia. rewrite Z2Nat.id by (apply Z.div_pos; lia).
  split; [apply Z.div_pos; lia|]. apply Z.div_lt_upper_bound; [done|].
  pose proof (Z.div_mod (pages + 5) 6). pose proof (Z.mod_pos_bound (pages + 5) 6). lia.
Qed.

Lemma set_pages_holds n pages mask f page :
  holds pages mask f → 1 ≤ page → page + Z.of_nat n - 1 ≤ pages →
  ∃ mask', set_pages n page mask = Some mask' ∧
    holds pages mask' (λ q, f q || ((page <=? q) && (q <? page + Z.of_nat n))).
Proof.
  revert mask f page. induction n as [|n IH]; intros mask f page Hm Hp Hn.
  - exists mask. split; [done|]. destruct Hm as [Hl Hb Hh]. constructor; [done..|].
    intros q Hq. rewrite Hh by done. f_equal.
    destruct (Z.leb_spec page q), (Z.ltb_spec q (page + Z.of_nat 0)); simpl; try lia;
      by rewrite orb_false_r.
  - simpl. unfold set_page. destruct (Z.ltb_spec (page - 1) 0); [lia|].
    destruct (page_in_mask pages mask f page) as [b Hb]; [done | lia|].
    destruct (IH (upd_index ((page - 1) / 6) (λ b, Z.lor b (Z.shiftl 1 ((page - 1) mod 6))) mask)
      (λ q, f q || (q =? page)) (page + 1)) as (mask' & E & Hm'); [|lia|lia|].
    + destruct Hm as [Hl Hs Hh]. constructor.
      * by rewrite length_upd_index.
      * unfold upd_index. apply Forall_alter; [done|]. intros c _ Hc. apply sextet_bit; [done|].
        by apply Z.mod_pos_bound.
      * intros q Hq. rewrite (set_page_has _ _ _ b) by done. rewrite Hh by done.
        destruct (Z.eqb_spec q page) as [->|]; [|by rewrite !orb_false_r].
        rewrite !orb_true_r. destruct (Z.leb_spec page pages); [done | lia].
    + exists mask'. split; [done|]. destruct Hm' as [Hl Hs Hh]. constructor; [done..|].
      intros q Hq. rewrite Hh by done. f_equal. rewrite <- orb_assoc. f_equal.
      destruct (Z.eqb_spec q page), (Z.leb_spec (page + 1) q), (Z.ltb_spec q (page + 1 + Z.of_nat n)),
        (Z.leb_spec page q), (Z.ltb_spec q (page + Z.of_nat (S n))); done || lia.
Qed.

(** The pages from [page] to [value], as many as there are. *)
Lemma step_to_holds value pages mask f page :
  holds pages mask f → 1 ≤ page →
  ∃ mask' page', step_to value pages page mask = Some (mask', page') ∧
    holds pages mask' (λ q, f q || ((page <=? q) && (q <=? value))).
Proof.
  intros Hm Hp. unfold step_to.
  destruct (decide (page ≤ Z.min value pages)) as [Hle|Hgt].
  - destruct (set_pages_holds (Z.to_nat (Z.min value pages - page + 1)) pages mask f page)
      as (mask' & E & Hm'); [done | done | lia|]. rewrite E. eexists _, _. split; [done|].
    destruct Hm' as [Hl Hs Hh]. constructor; [done..|]. intros q Hq. rewrite Hh by done.
    destruct (f q); [done|]. simpl.
    destruct (Z.leb_spec page q), (Z.ltb_spec q (page + Z.of_nat (Z.to_nat (Z.min value pages - page + 1)))),
      (Z.leb_spec q value), (Z.leb_spec q pages); done || lia.
  - replace (Z.to_nat (Z.min value pages - page + 1)) with 0%nat by lia. eexists _, _. split; [done|].
    destruct Hm as [Hl Hs Hh]. constructor; [done..|]. intros q Hq. rewrite Hh by done.
    destruct (f q); [done|]. simpl.
    destruct (Z.leb_spec page q), (Z.leb_spec q value), (Z.leb_spec q pages); done || lia.
Qed.

(** ** Reading the list *)

Lemma encode_number pages n rest fuel range page mask :
  0 ≤ n ≤ int_max → starts_outside gu_ascii_isdigit rest →
  (String.length (fmt_d n +:+ rest) < fuel)%nat →
  ∃ fuel', (String.length rest < fuel')%nat ∧
    encode_loop fuel pages (fmt_d n +:+ rest) range page mask
    = match step_to n pages (if range then page else n) mask with
      | None => EncodeUndef
      | Some (mask', page') =>
          encode_loop fuel' pages rest false (if range then 1 else page') mask'
      end.
Proof.
  intros Hn Hr Hf. destruct fuel as [|fuel]; [lia|].
  assert (span gu_ascii_isdigit (fmt_d n +:+ rest) = (fmt_d n, rest)) as Hsp
    by (apply span_app; [apply fmt_d_nonneg_digits; lia | done]).
  assert (digits_value 10 gu_ascii_digit_value (fmt_d n) = n) as Hv.
  { unfold fmt_d. destruct (Z.ltb_spec n 0); [lia|].
    apply (fmt_u_value false 10 _ _ ltac:(lia) dec_digits). lia. }
  assert (∃ c s, fmt_d n = String c s ∧ gu_ascii_isdigit c = true) as (c & s & E & Hc).
  { unfold fmt_d. destruct (Z.ltb_spec n 0); [lia|].
    apply (fmt_u_cons false 10 _ _ ltac:(lia) dec_digits). lia. }
  exists fuel. rewrite length_app_str, E in Hf. simpl in Hf. split; [lia|].
  rewrite E, str_cons_app in *. cbn [encode_loop].
  rewrite (digit_not_space c Hc), Hc, Hsp. cbv zeta iota beta. rewrite Hv.
  destruct (Z.ltb_spec int_max n); [lia|]. done.
Qed.

(** What follows an item: a comma and the rest, or nothing. *)
Definition goes_on (pages : Z) (tail : string) (page : Z) (mask : list Z) (result : encoding) : Prop :=
  match tail with
  | EmptyString => result = Encoded mask
  | String _ rest =>
      ∃ fuel, (String.length rest < fuel)%nat ∧
        result = encode_loop fuel pages rest false page mask
  end.

Definition is_tail (tail : string) : Prop :=
  match tail with EmptyString => True | String c _ => c = ","%char end.

Lemma tail_no_digit tail : is_tail tail → starts_outside gu_ascii_isdigit tail.
Proof. destruct tail as [|c tail]; simpl; [done | by intros ->]. Qed.

Lemma holds_ext pages mask f g :
  holds pages mask f → (∀ q, 1 ≤ q ≤ pages → f q = g q) → holds pages mask g.
Proof.
  intros [Hl Hs Hh] E. constructor; [done..|]. intros q Hq. rewrite Hh by done.
  destruct (Z.leb_spec q pages); [by rewrite E | by rewrite !andb_false_r].
Qed.

Lemma encode_tail pages tail fuel page mask f (range : bool) :
  is_tail tail → (String.length tail < fuel)%nat → holds pages mask f → 1 ≤ page →
  ∃ mask' page', holds pages mask' (λ q, f q || (range && (page <=? q))) ∧
    goes_on pages tail page' mask' (encode_loop fuel pages tail range page mask).
Proof.
  intros Ht Hf Hm Hp. destruct fuel as [|fuel]; [lia|].
  destruct range.
  - destruct (step_to_holds pages pages mask f page Hm Hp) as (mask' & page' & E & Hm').
    exists mask', page'. split.
    { eapply holds_ext; [exact Hm'|]. intros q Hq. simpl.
      destruct (Z.leb_spec q pages); [by rewrite andb_true_r | lia]. }
    destruct tail as [|c tail]; simpl in Ht; [simpl; by rewrite E|]. subst c.
    exists fuel. simpl in Hf. split; [lia|]. simpl. by rewrite E.
  - exists mask, page. split.
    { eapply holds_ext; [exact Hm|]. intros q Hq. by rewrite orb_false_r. }
    destruct tail as [|c tail]; simpl in Ht; [done|]. subst c.
    exists fuel. simpl in Hf. split; [lia | done].
Qed.

Lemma step_to_page value pages page mask mask' page' :
  step_to value pages page mask = Some (mask', page') →
  page' = Z.max page (Z.min value pages + 1).
Proof. unfold step_to. destruct (set_pages _ _ _); [|done]. by intros [= _ <-]. Qed.

Lemma encode_hyphen pages rest fuel range page mask :
  (String.length ("-" +:+ rest) < fuel)%nat →
  ∃ fuel', (String.length rest < fuel')%nat ∧
    encode_loop fuel pages ("-" +:+ rest) range page mask
    = encode_loop fuel' pages rest true page mask.
Proof.
  intros Hf. destruct fuel as [|fuel]; [lia|]. exists fuel. split; [|done].
  change ("-" +:+ rest) with (String "-" rest) in Hf. simpl in Hf. lia.
Qed.

Lemma encode_item pages i tail fuel page mask f :
  proper i → is_tail tail → (String.length (item_text i +:+ tail) < fuel)%nat →
  holds pages mask f →
  ∃ mask' page', holds pages mask' (λ q, f q || chooses q i) ∧
    goes_on pages tail page' mask' (encode_loop fuel pages (item_text i +:+ tail) false page mask).
Proof.
  intros Hi Ht Hf Hm. pose proof (tail_no_digit tail Ht) as Hd. destruct i as [n|a b|a]; simpl in Hi, Hf |- *; unfold number in Hi.
  - destruct (encode_number pages n tail fuel false page mask) as (fuel1 & Hf1 & ->); [lia|done|done|].
    destruct (step_to_holds n pages mask f n Hm) as (m1 & p1 & E1 & Hm1); [lia|]. rewrite E1.
    apply step_to_page in E1.
    destruct (encode_tail pages tail fuel1 p1 m1 _ false Ht Hf1 Hm1) as (m2 & p2 & Hm2 & Hg); [lia|].
    exists m2, p2. split; [|done]. eapply holds_ext; [exact Hm2|]. intros q Hq. simpl.
    rewrite orb_false_r. f_equal.
    destruct (Z.eqb_spec q n), (Z.leb_spec n q), (Z.leb_spec q n); done || lia.
  - destruct Hi as (Ha & Hb & Hab). rewrite !str_app_assoc in *.
    destruct (encode_number pages a ("-" +:+ fmt_d b +:+ tail) fuel false page mask)
      as (fuel1 & Hf1 & ->); [lia|done|done|].
    destruct (step_to_holds a pages mask f a Hm) as (m1 & p1 & E1 & Hm1); [lia|]. rewrite E1.
    apply step_to_page in E1.
    destruct (encode_hyphen pages (fmt_d b +:+ tail) fuel1 false p1 m1 Hf1) as (fuel2 & Hf2 & ->).
    destruct (encode_number pages b tail fuel2 true p1 m1) as (fuel3 & Hf3 & ->); [lia|done|done|].
    destruct (step_to_holds b pages m1 _ p1 Hm1) as (m2 & p2 & E2 & Hm2); [lia|]. rewrite E2.
    destruct (encode_tail pages tail fuel3 1 m2 _ false Ht Hf3 Hm2 (Z.le_refl 1)) as (m3 & p3 & Hm3 & Hg).
    exists m3, p3. split; [|done]. eapply holds_ext; [exact Hm3|]. intros q Hq. simpl.
    rewrite orb_false_r, <- orb_assoc. f_equal.
    destruct (Z.leb_spec a q), (Z.leb_spec q a), (Z.leb_spec p1 q), (Z.leb_spec q b); done || lia.
  - rewrite !str_app_assoc in *.
    destruct (encode_number pages a ("-" +:+ tail) fuel false page mask)
      as (fuel1 & Hf1 & ->); [lia|done|done|].
    destruct (step_to_holds a pages mask f a Hm) as (m1 & p1 & E1 & Hm1); [lia|]. rewrite E1.
    apply step_to_page in E1.
    destruct (encode_hyphen pages tail fuel1 false p1 m1 Hf1) as (fuel2 & Hf2 & ->).
    destruct (encode_tail pages tail fuel2 p1 m1 _ true Ht Hf2 Hm1) as (m2 & p2 & Hm2 & Hg); [lia|].
    exists m2, p2. split; [|done]. eapply holds_ext; [exact Hm2|]. intros q Hq. simpl.
    rewrite <- orb_assoc. f_equal.
    destruct (Z.leb_spec a q), (Z.leb_spec q a), (Z.leb_spec p1 q); done || lia.
Qed.

Lemma encode_list pages l fuel page mask f :
  l ≠ [] → Forall proper l → (String.length (list_text l) < fuel)%nat → holds pages mask f →
  ∃ mask', holds pages mask' (λ q, f q || existsb (chooses q) l) ∧
    encode_loop fuel pages (list_text l) false page mask = Encoded mask'.
Proof.
  revert fuel page mask f. induction l as [|i [|i' l] IH]; intros fuel page mask f Hne Hl Hf Hm; [done| |].
  - inversion Hl as [|? ? Hi _]; subst. simpl list_text in *.
    rewrite <- (str_app_nil_r (item_text i)) in *.
    destruct (encode_item pages i EmptyString fuel page mask f Hi I Hf Hm) as (m & p & Hm' & Hg).
    exists m. split; [|exact Hg]. eapply holds_ext; [exact Hm'|]. intros q _. simpl.
    by rewrite orb_false_r.
  - inversion Hl as [|? ? Hi Hl']; subst.
    change (list_text (i :: i' :: l)) with (item_text i +:+ String "," (list_text (i' :: l))) in *.
    destruct (encode_item pages i (String "," (list_text (i' :: l))) fuel page mask f Hi eq_refl Hf Hm)
      as (m & p & Hm' & (fuel' & Hf' & ->)).
    destruct (IH fuel' p m _ ltac:(done) Hl' Hf' Hm') as (m2 & Hm2 & ->).
    exists m2. split; [|done]. eapply holds_ext; [exact Hm2|]. intros q _. simpl.
    by rewrite <- orb_assoc.
Qed.

(** ** Counting, and reading the mask back *)

Lemma chars_mask_text mask : chars (mask_text mask) = map chr mask.
Proof. apply chars_of_chars. Qed.

Lemma mask_char mask f pages page :
  holds pages mask f → 1 ≤ page ≤ pages →
  ∃ b, at_index mask ((page - 1) / 6) = Some b ∧ sextet b ∧
    chars (mask_text (map (λ b, b + 33) mask)) !! Z.to_nat ((page - 1) / 6) = Some (chr (b + 33)).
Proof.
  intros Hm Hp. destruct (page_in_mask pages mask f page Hm Hp) as [b Hb]. exists b.
  split; [done|]. apply at_index_Some in Hb as [_ Hb]. split.
  - destruct Hm as [_ Hs _]. by apply (Forall_lookup_1 _ _ _ _ Hs Hb).
  - rewrite chars_mask_text. change (map chr) with (fmap (M := list) chr).
    change (map (λ b, b + 33)) with (fmap (M := list) (λ b, b + 33)).
    by rewrite !list_lookup_fmap, Hb.
Qed.

Lemma land_bit b y : 0 ≤ y → (Z.land b (Z.shiftl 1 y) =? 0) = negb (Z.testbit b y).
Proof.
  intros Hy. destruct (Z.testbit b y) eqn:E; simpl.
  - apply Z.eqb_neq. intros H0. apply (f_equal (λ z, Z.testbit z y)) in H0.
    rewrite Z.land_spec, E, Z.shiftl_1_l, Z.pow2_bits_true, Z.bits_0 in H0 by done. done.
  - apply Z.eqb_eq, Z.bits_inj'. intros i Hi. rewrite Z.land_spec, Z.shiftl_1_l, Z.bits_0.
    destruct (decide (i = y)) as [->|]; [by rewrite E|].
    rewrite Z.pow2_bits_false by done. apply andb_false_r.
Qed.

Lemma get_bit_has job mask f page :
  holds (j_pages job) mask f → 1 ≤ page ≤ j_pages job →
  j_page_mask job = Some (mask_text (map (λ b, b + 33) mask)) →
  pagemask_get_bit job page = Some (if f page then 1 else 0).
Proof.
  intros Hm Hp E. unfold pagemask_get_bit. rewrite E.
  destruct (mask_char mask f (j_pages job) page Hm Hp) as (b & Hb & Hs & Hc). rewrite Hc.
  destruct (Z.leb_spec page 0); [lia|]. destruct (Z.ltb_spec (j_pages job) page); [lia|]. simpl.
  unfold sextet in Hs. rewrite code_chr by lia. replace (b + 33 - 33) with b by lia.
  rewrite land_bit by (apply Z.mod_pos_bound; done).
  destruct Hm as [_ _ Hh]. specialize (Hh page ltac:(lia)). unfold has in Hh. rewrite Hb in Hh.
  destruct (Z.leb_spec page (j_pages job)); [|lia]. rewrite andb_true_r in Hh. rewrite <- Hh.
  by destruct (Z.testbit b _).
Qed.

Definition pages_of (f : Z → bool) (from : Z) (n : nat) : list Z :=
  filter (λ p, f p = true) (seqZ from (Z.of_nat n)).

Lemma filter_ext_Forall {A} (f g : A → bool) l :
  Forall (λ a, f a = g a) l → filter (λ a, f a = true) l = filter (λ a, g a = true) l.
Proof.
  intros Hl. induction Hl as [|a l E _ IH]; [done|]. rewrite !filter_cons, IH, E. done.
Qed.

Lemma filter_false {A} (l : list A) : filter (λ _, false = true) l = [].
Proof. induction l as [|a l IH]; [done|]. by rewrite filter_cons. Qed.

Lemma pages_of_ext f g from n :
  (∀ p, from ≤ p < from + Z.of_nat n → f p = g p) → pages_of f from n = pages_of g from n.
Proof.
  intros E. unfold pages_of. apply filter_ext_Forall, Forall_forall.
  intros p Hp%elem_of_seqZ. rewrite E; [done | lia].
Qed.

Lemma pages_of_app f from n k :
  pages_of f from (n + k) = pages_of f from n ++ pages_of f (from + Z.of_nat n) k.
Proof.
  unfold pages_of. rewrite <- filter_app. f_equal.
  rewrite Nat2Z.inj_add. by rewrite seqZ_app by lia.
Qed.

Lemma pages_of_shift f from n k :
  length (pages_of f (from + k) n) = length (pages_of (λ p, f (p + k)) from n).
Proof.
  revert from. induction n as [|n IH]; intros from; [done|].
  unfold pages_of in *. rewrite (seqZ_cons (from + k)), (seqZ_cons from), !filter_cons by lia.
  replace (Z.pred (Z.of_nat (S n))) with (Z.of_nat n) by lia.
  replace (Z.succ (from + k)) with (Z.succ from + k) by lia.
  specialize (IH (Z.succ from)). repeat case_decide; cbn [length]; congruence.
Qed.

Lemma count_bits b l n :
  fold_left (λ n y, if Z.testbit b y then n + 1 else n) l n
  = n + Z.of_nat (length (filter (λ y, Z.testbit b y = true) l)).
Proof.
  revert n. induction l as [|y l IH]; intros n; [simpl; lia|].
  rewrite filter_cons. cbn [fold_left]. rewrite IH.
  destruct (Z.testbit b y); case_decide; cbn [length]; done || lia.
Qed.

Lemma bits_in_pages b :
  bits_in b = Z.of_nat (length (pages_of (λ p, Z.testbit b (p - 1)) 1 6)).
Proof.
  unfold bits_in. rewrite count_bits, Z.add_0_l. f_equal.
  pose proof (pages_of_shift (λ p, Z.testbit b (p - 1)) 0 6 1) as E. change (0 + 1) with 1 in E.
  rewrite E. rewrite (pages_of_ext _ (Z.testbit b)); [done|].
  intros p _. f_equal. lia.
Qed.

Lemma has_cons_first b mask p : 1 ≤ p ≤ 6 → has (b :: mask) p = Z.testbit b (p - 1).
Proof.
  intros Hp. unfold has. rewrite Z.div_small, Z.mod_small by lia. done.
Qed.

Lemma has_cons_next b mask p : 1 ≤ p → has (b :: mask) (p + 6) = has mask p.
Proof.
  intros Hp. unfold has. replace (p + 6 - 1) with (p - 1 + 1 * 6) by lia.
  rewrite Z.div_add, Z.mod_add by done.
  assert (at_index (b :: mask) ((p - 1) / 6 + 1) = at_index mask ((p - 1) / 6)) as ->; [|done].
  unfold at_index. pose proof (Z.div_pos (p - 1) 6 ltac:(lia) ltac:(lia)).
  destruct (Z.leb_spec 0 ((p - 1) / 6 + 1)), (Z.leb_spec 0 ((p - 1) / 6)); try lia.
  by replace (Z.to_nat ((p - 1) / 6 + 1)) with (S (Z.to_nat ((p - 1) / 6))) by lia.
Qed.

Lemma count_pages mask n :
  fold_left (λ n b, n + bits_in b) mask n
  = n + Z.of_nat (length (pages_of (has mask) 1 (6 * length mask))).
Proof.
  revert n. induction mask as [|b mask IH]; intros n.
  - simpl. lia.
  - cbn [fold_left]. rewrite IH. change (length (b :: mask)) with (S (length mask)).
    replace (6 * S (length mask))%nat with (6 + 6 * length mask)%nat by lia.
    rewrite (pages_of_app (has (b :: mask)) 1 6), length_app, bits_in_pages.
    rewrite (pages_of_ext (has (b :: mask)) (λ p, Z.testbit b (p - 1)) 1 6)
      by (intros p Hp; apply has_cons_first; lia).
    change (1 + Z.of_nat 6) with (1 + 6). rewrite pages_of_shift.
    rewrite (pages_of_ext (λ p, has (b :: mask) (p + 6)) (has mask))
      by (intros p Hp; apply has_cons_next; lia).
    lia.
Qed.

Lemma count_holds pages mask f :
  0 ≤ pages → holds pages mask f →
  fold_left (λ n b, n + bits_in b) mask 0 = Z.of_nat (length (pages_of f 1 (Z.to_nat pages))).
Proof.
  intros Hp [Hl _ Hh]. rewrite count_pages, Z.add_0_l, Hl. f_equal.
  rewrite Z.quot_div_nonneg by lia.
  pose proof (Z.div_mod (pages + 5) 6). pose proof (Z.mod_pos_bound (pages + 5) 6).
  pose proof (Z.div_pos (pages + 5) 6).
  replace (6 * Z.to_nat ((pages + 5) / 6))%nat
    with (Z.to_nat pages + (6 * Z.to_nat ((pages + 5) / 6) - Z.to_nat pages))%nat by lia.
  rewrite (pages_of_app _ 1 (Z.to_nat pages)), length_app.
  rewrite (pages_of_ext (has mask) f 1) by
    (intros p Hr; rewrite Hh by lia; destruct (Z.leb_spec p pages); [apply andb_true_r | lia]).
  rewrite (pages_of_ext (has mask) (λ _, false)) by
    (intros p Hr; rewrite Hh by lia; destruct (Z.leb_spec p pages); [lia | apply andb_false_r]).
  unfold pages_of at 2. rewrite filter_false. simpl. lia.
Qed.

Lemma page_list_mask job l :
  0 ≤ j_pages job → l ≠ [] → Forall proper l →
  ∃ job' mask, pagemask_encode job (list_text l) = Some (0, job') ∧
    (∀ page, 1 ≤ page ≤ j_pages job →
      pagemask_get_bit job' page = Some (if existsb (chooses page) l then 1 else 0)) ∧
    pagemask_count job' = Z.of_nat (length
      (filter (λ p, existsb (chooses p) l = true) (seqZ 1 (j_pages job)))) ∧
    j_page_mask job' = Some mask ∧ Forall (λ c, 33 ≤ code c ≤ 96) (chars mask).
Proof.
  intros Hp Hne Hl. unfold pagemask_encode.
  set (mask0 := repeat 0 (Z.to_nat (Z.quot (j_pages job + 5) 6))).
  assert (holds (j_pages job) mask0 (λ _, false)) as Hm0.
  { constructor.
    - apply repeat_length.
    - apply Forall_forall. intros b Hb%list_elem_of_In%repeat_spec. subst b. by split.
    - intros p _. unfold has. destruct (at_index mask0 ((p - 1) / 6)) as [b|] eqn:E; [|done].
      apply at_index_Some in E as [_ E]. apply list_elem_of_lookup_2 in E.
      apply list_elem_of_In, repeat_spec in E. subst b. apply Z.bits_0. }
  destruct (encode_list (j_pages job) l (S (String.length (list_text l))) 1 mask0 (λ _, false))
    as (mask & Hm & ->); [done | done | lia | done|].
  eexists _, _. split; [reflexivity|]. split; [|split; [|split; [reflexivity|]]].
  - intros page Hpage.
    by apply (get_bit_has _ mask (λ q, false || existsb (chooses q) l)).
  - simpl. rewrite (count_holds _ _ _ Hp Hm). unfold pages_of. rewrite Z2Nat.id by done. done.
  - rewrite chars_mask_text. apply Forall_map, Forall_map. destruct Hm as [_ Hs _].
    eapply Forall_impl; [exact Hs|]. intros b Hb. unfold sextet in Hb. simpl.
    rewrite code_chr; lia.
Qed.

(** A list of pages chooses the pages it names, and no others: single
    pages, ranges, and ranges open at the end, in any order and with overlaps;
    pages the job does not have are passed over.  The pages are counted, and
    the mask consists of printable characters, so that a line of the queue file
    can hold it. *)
Theorem page_list_chooses_its_pages job l :
  0 ≤ j_pages job → l ≠ [] → Forall proper l →
  ∃ job' mask, pagemask_encode job (list_text l) = Some (0, job') ∧
    (∀ page, 1 ≤ page ≤ j_pages job →
      pagemask_get_bit job' page = Some (if existsb (chooses page) l then 1 else 0)) ∧
    pagemask_count job' = Z.of_nat (length
      (filter (λ p, existsb (chooses p) l = true) (seqZ 1 (j_pages job)))) ∧
    j_page_mask job' = Some mask ∧ Forall (λ c, 33 ≤ code c ≤ 96) (chars mask).
Proof. apply page_list_mask. Qed.

Lemma page_list_chooses_its_pages_witness :
  ∃ job' mask, pagemask_encode sample_job "2,4-5" = Some (0, job') ∧
    pagemask_count job' = 3 ∧ j_page_mask job' = Some mask.
Proof.
  destruct (page_list_chooses_its_pages sample_job [One 2; Range 4 5])
    as (job' & mask & H1 & _ & H2 & H3 & _).
  - done.
  - done.
  - repeat constructor; done.
  - exists job', mask. split; [exact H1|]. by split.
Defined.

(** * Properties of the table of pages: the driver finds the pages that are to be
    printed, and where their descriptions and their text are. *)

(** * The "-pages" file *)

(** What the file says of a page: the label after [%%Page:], where the text of
    the page is, and the other comments. *)
Record page_record := mkRecord {
  r_label : string;
  r_offset : Z;
  r_comments : list string;
}.

Definition ended (l : string) : string := l +:+ String (chr 10) EmptyString.

Fixpoint lines_text (ls : list string) : string :=
  match ls with
  | [] => EmptyString
  | l :: ls' => ended l +:+ lines_text ls'
  end.

Definition offset_line (r : page_record) : string := "Offset: " +:+ fmt_d (r_offset r).

Definition record_head (r : page_record) : string :=
  lines_text ["%%Page:" +:+ r_label r; offset_line r].

(** A page ends with an empty line. *)
Definition record_text (r : page_record) : string :=
  record_head r +:+ lines_text (r_comments r ++ [EmptyString]).

Fixpoint records_text (rs : list page_record) : string :=
  match rs with
  | [] => EmptyString
  | r :: rs' => record_text r +:+ records_text rs'
  end.

(** A line that getpline() reads at once. *)
Definition fits (l : string) : Prop :=
  (String.length l ≤ 254)%nat ∧ Forall (λ c, code c ≠ 10) (chars l).

Definition good_record (r : page_record) : Prop :=
  fits ("%%Page:" +:+ r_label r) ∧ Z.abs (r_offset r) ≤ int_max ∧
  Forall (λ l, fits l ∧ l ≠ EmptyString) (r_comments r).

(** The entries for the pages chosen by [chosen], the first page having the
    number [page] and beginning at [pos]. *)
Fixpoint entries (chosen : Z → bool) (page step pos : Z) (rs : list page_record)
    : list PAGETABLE :=
  match rs with
  | [] => []
  | r :: rs' =>
      (if chosen page then [mkEntry (pos + strlen (record_head r)) (r_offset r)] else [])
      ++ entries chosen (page + step) step (pos + strlen (record_text r)) rs'
  end.

(** * Reading lines *)

Lemma fgets_line_ended l rest :
  Forall (λ c, code c ≠ 10) (chars l) → fgets_line (ended l +:+ rest) = (ended l, rest).
Proof.
  intros Hl. unfold fgets_line, ended. rewrite str_app_assoc, str_cons_app, str_nil_app.
  rewrite span_app; [done | | done].
  eapply Forall_impl; [exact Hl|]. intros c Hc. by apply negb_true_iff, Z.eqb_neq.
Qed.

Lemma length_ended l : String.length (ended l) = S (String.length l).
Proof. unfold ended. induction l; [done|]. simpl. by f_equal. Qed.

Lemma ended_take l : str_take (String.length l) (ended l) = l.
Proof. unfold ended. induction l as [|c l IH]; [done|]. simpl. by f_equal. Qed.

(** At [s] the file goes on with [text]. *)
Definition reads (s : driver) (text : string) : Prop :=
  0 ≤ d_page_comments_pos s ∧
  str_drop (Z.to_nat (d_page_comments_pos s)) (d_page_comments s) = text.

Definition forth (s : driver) (n : Z) : driver :=
  set_d_page_comments_pos (d_page_comments_pos s + n) s.

Lemma forth_reads s l rest :
  reads s (l +:+ rest) → reads (forth s (strlen l)) rest.
Proof.
  intros [Hp Ht]. pose proof (strlen_nonneg l). split; [simpl; lia|]. simpl.
  rewrite Z2Nat.inj_add by done. rewrite <- str_drop_drop, Ht.
  unfold strlen. by rewrite Nat2Z.id, str_drop_app.
Qed.

Lemma forth_forth s n m : forth (forth s n) m = forth s (n + m).
Proof. unfold forth, set_d_page_comments_pos. simpl. f_equal. lia. Qed.

Lemma getpline_line s l rest :
  fits l → reads s (ended l +:+ rest) →
  getpline s = Done (Some l) (forth s (strlen (ended l))).
Proof.
  intros [Hlen Hl] [Hp Ht]. unfold getpline. rewrite Ht.
  assert (∃ c t, ended l +:+ rest = String c t) as (c & t & E)
    by (unfold ended; destruct l; simpl; eauto).
  rewrite E. cbv iota beta zeta. rewrite <- E, fgets_line_ended by done. cbn [fst].
  rewrite (str_take_ge 255) by (rewrite length_ended; lia).
  rewrite length_ended. simpl Nat.sub. by rewrite Nat.sub_0_r, ended_take.
Qed.

Lemma need_pline_line msg s l rest :
  fits l → reads s (ended l +:+ rest) →
  need_pline msg s = Done l (forth s (strlen (ended l))).
Proof.
  intros Hl Hr. unfold need_pline, mbind, M_bind. by rewrite (getpline_line s l rest).
Qed.

Lemma empty_fits : fits EmptyString.
Proof. split; [simpl; lia | constructor]. Qed.

(** Over the other comments of a page. *)
Lemma skip_page_record_lines ls fuel s rest :
  Forall (λ l, fits l ∧ l ≠ EmptyString) ls → (length ls < fuel)%nat →
  reads s (lines_text (ls ++ [EmptyString]) +:+ rest) →
  skip_page_record fuel s = Done tt (forth s (strlen (lines_text (ls ++ [EmptyString])))).
Proof.
  intros Hls. revert fuel s. induction Hls as [|l ls [Hl Hne] Hls IH]; intros [|fuel] s Hf Hr;
    simpl in Hf; try lia; cbn [skip_page_record]; unfold mbind, M_bind; simpl app in *;
    cbn [lines_text] in *; rewrite str_app_assoc in Hr.
  - rewrite (need_pline_line _ s EmptyString rest); [done | apply empty_fits | exact Hr].
  - rewrite (need_pline_line _ s l _ Hl Hr).
    rewrite (proj2 (String.eqb_neq _ _) Hne).
    rewrite IH by (lia || by apply forth_reads). by rewrite forth_forth, strlen_app.
Qed.

(** * The records *)

Lemma scan_offset n :
  Z.abs n ≤ long_max →
  gu_sscanf ("Offset: " +:+ fmt_d n) "Offset: %ld" [] = Scanned 1 [VInt n].
Proof.
  intros Hn. unfold gu_sscanf. generalize (strlen ("Offset: " +:+ fmt_d n)). intros len.
  change (String.length "Offset: %ld") with (8 + 3)%nat.
  simpl plus. repeat (rewrite str_cons_app, turn_char by done). rewrite str_cons_app, str_nil_app.
  destruct (fmt_d_cons n) as (c & s & E & Hc).
  rewrite turn_space by (by rewrite E).
  rewrite <- (str_app_nil_r (fmt_d n)). by rewrite turn_ld.
Qed.

Lemma reads_length s a b : reads s (a +:+ b) → (String.length a ≤ String.length (d_page_comments s))%nat.
Proof.
  intros [_ H]. pose proof (length_str_drop (Z.to_nat (d_page_comments_pos s)) (d_page_comments s)) as L.
  rewrite H, length_app_str in L. lia.
Qed.

Lemma lines_text_length ls : (length ls ≤ String.length (lines_text ls))%nat.
Proof. induction ls as [|l ls IH]; [done|]. simpl. rewrite length_app_str, length_ended. lia. Qed.

Definition entry_of (chosen : Z → bool) (page pos : Z) (r : page_record) : list PAGETABLE :=
  if chosen page then [mkEntry (pos + strlen (record_head r)) (r_offset r)] else [].

Definition adding (s : driver) (new : list PAGETABLE) : driver :=
  set_d_pagetable (d_pagetable s ++ new) s.

Lemma adding_nil s : adding s [] = s.
Proof. unfold adding, set_d_pagetable. rewrite app_nil_r. by destruct s. Qed.

Lemma label_matches l : lmatch ("%%Page:" +:+ l) "%%Page:" = true.
Proof. unfold lmatch. simpl. by destruct l. Qed.

Lemma fits_offset n : Z.abs n ≤ int_max → fits ("Offset: " +:+ fmt_d n).
Proof.
  intros Hn. split.
  - rewrite length_app_str. pose proof (fmt_d_length n Hn) as H. unfold strlen in H. simpl. lia.
  - rewrite chars_app. apply Forall_app. split; [repeat constructor; done|].
    unfold fmt_d. assert (∀ m, Forall (λ c : ascii, code c ≠ 10) (chars (fmt_u false 10 (Z.abs m)))) as Hu.
    { intros m. eapply Forall_impl; [apply (fmt_u_digits false 10 _ _ ltac:(lia) dec_digits); lia|].
      intros c Hc E. unfold gu_ascii_isdigit in Hc. rewrite E in Hc. done. }
    specialize (Hu n). destruct (Z.ltb_spec n 0).
    + change (Forall (λ c : ascii, code c ≠ 10) ("-"%char :: chars (fmt_u false 10 (- n)))).
      constructor; [done|]. by rewrite <- Z.abs_neq by lia.
    + by rewrite Z.abs_eq in Hu.
Qed.

Lemma read_page_record_reads s page printed (chosen : Z → bool) r rest :
  good_record r → reads s (record_text r +:+ rest) →
  pagemask_get_bit (d_job s) page = Some (if chosen page then 1 else 0) →
  Z.of_nat (length (d_pagetable s) + length (entry_of chosen page (d_page_comments_pos s) r)) ≤ printed →
  read_page_record page printed s
  = Done tt (forth (adding s (entry_of chosen page (d_page_comments_pos s) r))
      (strlen (record_text r))).
Proof.
  intros (Hlab & Hoff & Hcom) Hr Hbit Hroom. unfold read_page_record.
  assert (record_head r = ended ("%%Page:" +:+ r_label r) +:+ ended (offset_line r)) as Eh
    by (unfold record_head; cbn [lines_text]; by rewrite str_app_nil_r).
  unfold record_text in *. rewrite Eh in *. rewrite !str_app_assoc in Hr.
  etrans; [eapply bind_done, (need_pline_line _ s _ _ Hlab Hr)|].
  rewrite label_matches. cbn [negb].
  apply forth_reads in Hr.
  etrans; [eapply bind_done, (need_pline_line _ _ _ _ (fits_offset _ Hoff) Hr)|].
  apply forth_reads in Hr.
  rewrite forth_forth in *. rewrite <- strlen_app in *.
  unfold offset_line at 1. rewrite scan_offset by (unfold long_max, int_max in *; lia).
  fold (offset_line r). set (s1 := forth s _) in *.
  etrans; [by apply (bind_done _ _ _ (d_job s) s1)|].
  rewrite Hbit. set (e := entry_of _ _ _ _) in *.
  etrans.
  { apply (bind_done _ _ _ tt (adding s1 e)). unfold e, entry_of in *.
    destruct (chosen page); simpl in *.
    - unfold mbind, M_bind, gets, id. rewrite (proj2 (Z.leb_gt _ _)) by (simpl; lia). by rewrite Eh.
    - by rewrite adding_nil. }
  etrans; [by apply (bind_done _ _ _ (String.length (d_page_comments s)) (adding s1 e))|].
  rewrite (skip_page_record_lines (r_comments r) _ _ rest).
  - rewrite (strlen_app _ (lines_text _)). unfold s1, adding, forth, set_d_page_comments_pos, set_d_pagetable.
    simpl. do 2 f_equal. lia.
  - done.
  - apply reads_length in Hr. pose proof (lines_text_length (r_comments r ++ [EmptyString])) as Hl.
    rewrite length_app in Hl. simpl in *. lia.
  - exact Hr.
Qed.

Lemma entries_cons chosen page step pos r rs :
  entries chosen page step pos (r :: rs)
  = entry_of chosen page pos r ++ entries chosen (page + step) step (pos + strlen (record_text r)) rs.
Proof. done. Qed.

Lemma read_page_records rs (number : Z → Z) step k s printed (chosen : Z → bool) rest :
  (∀ k, number (k + 1) = number k + step) → Forall good_record rs →
  reads s (records_text rs +:+ rest) →
  (∀ i, (i < length rs)%nat →
    pagemask_get_bit (d_job s) (number (k + Z.of_nat i))
    = Some (if chosen (number (k + Z.of_nat i)) then 1 else 0)) →
  let new := entries chosen (number k) step (d_page_comments_pos s) rs in
  Z.of_nat (length (d_pagetable s) + length new) ≤ printed →
  for_each (length rs) k (λ k, read_page_record (number k) printed) s
  = Done tt (forth (adding s new) (strlen (records_text rs))).
Proof.
  intros Hnum. revert k s. induction rs as [|r rs IH]; intros k s Hgood Hr Hbit new Hroom.
  - unfold new. simpl. unfold forth, set_d_page_comments_pos. rewrite adding_nil, Z.add_0_r.
    by destruct s.
  - apply Forall_cons in Hgood as [Hg Hgood]. unfold new in *. rewrite entries_cons in *.
    rewrite length_app in Hroom. cbn [records_text] in *. rewrite str_app_assoc in Hr.
    cbn [length]. etrans.
    { apply for_each_step. apply (read_page_record_reads _ _ _ chosen _ _ Hg Hr); [|lia].
      specialize (Hbit 0%nat). rewrite Z.add_0_r in Hbit. apply Hbit. simpl. lia. }
    rewrite IH.
    + rewrite Hnum. unfold forth, adding, set_d_page_comments_pos, set_d_pagetable. simpl.
      rewrite <- app_assoc, strlen_app. do 2 f_equal. lia.
    + done.
    + by apply forth_reads in Hr.
    + intros i Hi. replace (k + 1 + Z.of_nat i) with (k + Z.of_nat (S i)) by lia.
      apply Hbit. simpl. lia.
    + rewrite Hnum. simpl. rewrite length_app. lia.
Qed.

Definition chosen_pages (chosen : Z → bool) (n : nat) : list Z :=
  filter (λ p, chosen p = true) (seqZ 1 (Z.of_nat n)).

Lemma entries_up (chosen : Z → bool) page pos rs :
  length (entries chosen page 1 pos rs)
  = length (filter (λ p, chosen p = true) (seqZ page (Z.of_nat (length rs)))).
Proof.
  revert page pos. induction rs as [|r rs IH]; intros page pos; [done|].
  rewrite entries_cons, length_app, IH. simpl length. rewrite (seqZ_cons page) by lia.
  replace (Z.pred (Z.of_nat (S (length rs)))) with (Z.of_nat (length rs)) by lia.
  unfold entry_of. rewrite filter_cons. replace (Z.succ page) with (page + 1) by lia.
  destruct (decide (chosen page = true)) as [E|E]; [by rewrite E|].
  by apply not_true_is_false in E as ->.
Qed.

Lemma entries_down (chosen : Z → bool) pos rs :
  length (entries chosen (Z.of_nat (length rs)) (-1) pos rs)
  = length (chosen_pages chosen (length rs)).
Proof.
  unfold chosen_pages. revert pos. induction rs as [|r rs IH]; intros pos; [done|].
  rewrite entries_cons, length_app.
  replace (Z.of_nat (length (r :: rs)) + -1) with (Z.of_nat (length rs)) by (simpl; lia). rewrite IH.
  replace (Z.of_nat (length (r :: rs))) with (Z.of_nat (length rs) + 1) by (simpl; lia).
  rewrite (seqZ_app 1) by lia. rewrite filter_app, length_app. rewrite (seqZ_cons _ 1) by done.
  change (seqZ _ (Z.pred 1)) with (@nil Z). rewrite filter_cons, filter_nil.
  rewrite Nat.add_comm. f_equal. unfold entry_of.
  replace (1 + Z.of_nat (length rs)) with (Z.of_nat (length rs) + 1) by lia.
  destruct (decide _) as [E|E]; [by rewrite E|]. by apply not_true_is_false in E as ->.
Qed.

Definition first_page (job : QEntryFile) : Z :=
  if j_pageorder job =? PAGEORDER_DESCEND then j_pages job else 1.

Definition page_step (job : QEntryFile) : Z :=
  if j_pageorder job =? PAGEORDER_DESCEND then -1 else 1.

Lemma make_pagetable_reads s rs rest (chosen : Z → bool) :
  (0 < length rs)%nat → j_pages (d_job s) = Z.of_nat (length rs) → Forall good_record rs →
  reads s (records_text rs +:+ rest) →
  (∀ page, 1 ≤ page ≤ j_pages (d_job s) →
    pagemask_get_bit (d_job s) page = Some (if chosen page then 1 else 0)) →
  pagemask_count (d_job s) = Z.of_nat (length (chosen_pages chosen (length rs))) →
  let table := entries chosen (first_page (d_job s)) (page_step (d_job s)) (d_page_comments_pos s) rs in
  make_pagetable s
  = Done (pagemask_count (d_job s)) (forth (set_d_pagetable table s) (strlen (records_text rs))).
Proof.
  intros Hne Hp Hgood Hr Hbit Hcount table. unfold make_pagetable.
  etrans; [by apply (bind_done _ _ _ (d_job s) s)|]. cbv zeta. rewrite Hp.
  rewrite (proj2 (Z.leb_gt _ _)) by lia.
  etrans; [by apply (bind_done _ _ _ tt (set_d_pagetable [] s))|]. rewrite Nat2Z.id.
  assert (length table = length (chosen_pages chosen (length rs))) as Hlen.
  { unfold table, first_page, page_step. destruct (_ =? _).
    - rewrite Hp. apply entries_down.
    - apply entries_up. }
  set (number := λ k, if j_pageorder (d_job s) =? PAGEORDER_DESCEND
                      then Z.of_nat (length rs) - k else 1 + k).
  assert (number 0 = first_page (d_job s)) as Hfirst
    by (unfold number, first_page; rewrite Hp; destruct (_ =? _); lia).
  etrans.
  { eapply bind_done, (read_page_records rs number
      (page_step (d_job s)) 0 (set_d_pagetable [] s) _ chosen rest); [| done | done | |].
    - intros k. unfold number, page_step. destruct (_ =? _); lia.
    - intros i Hi. apply Hbit. unfold number. destruct (_ =? _); lia.
    - rewrite Hfirst. change (d_page_comments_pos (set_d_pagetable [] s)) with (d_page_comments_pos s).
      fold table. simpl. lia. }
  rewrite Hfirst. change (d_page_comments_pos (set_d_pagetable [] s)) with (d_page_comments_pos s).
  fold table.
  etrans; [eapply bind_done; reflexivity|]. change (d_pagetable _) with table.
  rewrite Hcount, Hlen, Z.eqb_refl. done.
Qed.

(** C15: the table has an entry for each page the user's list of pages
    chooses, and for no other, in the order in which the job has its pages;
    the entry says where in the "-pages" file the comments of this page begin
    and where in the "-text" file the page is, and after all of them the file
    is at its trailer. *)
Theorem the_table_has_the_pages_chosen job l s rs rest :
  l ≠ [] → Forall proper l → pagemask_encode job (list_text l) = Some (0, d_job s) →
  j_pages job = Z.of_nat (length rs) → j_pages (d_job s) = Z.of_nat (length rs) →
  (0 < length rs)%nat → Forall good_record rs → reads s (records_text rs +:+ rest) →
  let table := entries (λ page, existsb (chooses page) l) (first_page (d_job s))
    (page_step (d_job s)) (d_page_comments_pos s) rs in
  ∃ s', make_pagetable s = Done (Z.of_nat (length table)) s' ∧
    d_pagetable s' = table ∧ reads s' rest.
Proof.
  intros Hl Hprop Henc Hp Hp' Hne Hgood Hr table.
  destruct (page_list_mask job l) as (job' & mask & E & Hbit & Hcount & _); [lia | done | done|].
  rewrite E in Henc. injection Henc as Ej. rewrite Ej in *.
  assert (make_pagetable s = Done (pagemask_count (d_job s))
    (forth (set_d_pagetable table s) (strlen (records_text rs)))) as Hrun.
  { apply (make_pagetable_reads s rs rest); [done..| |].
    - intros page Hpage. apply Hbit. lia.
    - rewrite Hcount. unfold chosen_pages. by rewrite Hp. }
  rewrite Hrun. exists (forth (set_d_pagetable table s) (strlen (records_text rs))).
  split; [|split; [done|by apply forth_reads in Hr]].
  f_equal. rewrite Hcount. f_equal. rewrite Hp. unfold table, first_page, page_step.
  destruct (_ =? _); symmetry; [rewrite Hp'; apply entries_down | apply entries_up].
Qed.

(** Two pages, of which the second is to be printed. *)
Definition sample_records : list page_record :=
  [mkRecord " 1 1" 100 ["%%PageMedia: Plain"]; mkRecord " 2 2" 2100 []].

Definition masked_job : QEntryFile :=
  set_j_pages 2 (set_j_page_mask (Some "#") (set_j_page_count 1 sample_job)).

Lemma the_table_has_the_pages_chosen_witness :
  ∃ s', make_pagetable (mkDriver masked_job 1 (records_text sample_records) 0 [] 1 1 0 1 0 1 1 [])
        = Done 1 s' ∧ d_pagetable s' = [mkEntry 69 2100].
Proof.
  destruct (the_table_has_the_pages_chosen (set_j_pages 2 sample_job) [One 2]
    (mkDriver masked_job 1 (records_text sample_records) 0 [] 1 1 0 1 0 1 1 [])
    sample_records EmptyString) as (s' & H1 & H2 & _).
  - done.
  - repeat constructor; done.
  - vm_compute. reflexivity.
  - done.
  - done.
  - simpl. lia.
  - repeat constructor; simpl; done || lia.
  - split; [done | vm_compute; reflexivity].
  - exists s'. split; [exact H1 | exact H2].
Defined.
