(* ===== verification/PropSheets.v ===== *)
(** Properties of the sheets: every page of the job is sent exactly once, a
    folded signature reads in order, the copies are as many as were asked for,
    and what is charged for is what is printed. *)
From S2P Require Import Prelude.
From S2P Require Import Text.
From S2P Require Import Spooler.
From S2P Require Import SpoolerFacts.
From S2P Require Import JobFile.
From S2P Require Import Pages.

(** * Signatures *)

(** The page that comes to the place [m] of sheet [r] of a signature of [S]
    sheets, two pages to a side: 0 and 1 are the left and the right page of
    the front, 2 and 3 those of the back. *)
Definition folded_page (S r m : Z) : Z :=
  if m =? 0 then 2 * S - 1 - 2 * r
  else if m =? 1 then 2 * S + 2 * r
  else if m =? 2 then 2 * S + 2 * r + 1
  else 2 * S - 2 - 2 * r.

Definition is_simplex (job : QEntryFile) : bool := j_N job =? j_pagefactor job.

(** The leaf a sheet is, and the place on the leaf: in simplex mode its two
    sides are two sheets. *)
Definition leaf_of (job : QEntryFile) (sheet : Z) : Z :=
  if is_simplex job then sheet / 2 else sheet.

Definition place_of (job : QEntryFile) (sheet m : Z) : Z :=
  if is_simplex job && Z.odd sheet then m + 2 else m.

Definition leaf_page (job : QEntryFile) (sheet m : Z) : Z :=
  leaf_of job sheet / j_sigsheets job * (4 * j_sigsheets job)
  + folded_page (j_sigsheets job) (leaf_of job sheet mod j_sigsheets job) (place_of job sheet m).

Record booklet (job : QEntryFile) : Prop := {
  b_N : j_N job = 2;
  b_sheets : 0 < j_sigsheets job;
  b_factor : j_pagefactor job = 2 ∨ j_pagefactor job = 4;
}.

Lemma signature_page job sheet m s :
  d_job s = job → booklet job → 0 ≤ sheet → 0 ≤ m < j_pagefactor job →
  signature sheet m s
  = Done (if skips_side job (place_of job sheet m) then -1 else leaf_page job sheet m) s.
Proof.
  intros Ej [HN HS Hf] Hs Hm. unfold signature, mbind, M_bind, the_job, gets. rewrite Ej.
  cbv zeta. rewrite HN.
  assert ((if (2 =? j_pagefactor job) && Z.odd sheet then m + 2 else m) = place_of job sheet m) as ->
    by (unfold place_of, is_simplex; by rewrite HN).
  destruct (skips_side job (place_of job sheet m)); [done|].
  assert ((if 2 =? j_pagefactor job then Z.quot sheet 2 else sheet) = leaf_of job sheet) as ->.
  { unfold leaf_of, is_simplex. rewrite HN. destruct (_ =? _); [|done].
    by rewrite Z.quot_div_nonneg. }
  assert (0 ≤ leaf_of job sheet) as Hl.
  { unfold leaf_of. destruct (is_simplex job); [|done]. apply Z.div_pos; lia. }
  unfold c_div. destruct (Z.eqb_spec (j_sigsheets job) 0); [lia|].
  rewrite Z.quot_div_nonneg by lia. rewrite Z.rem_mod_nonneg by lia.
  replace (Z.quot (2 * j_sigsheets job * 2) 2) with (2 * j_sigsheets job)
    by (rewrite Z.quot_mul; lia).
  assert (0 ≤ place_of job sheet m ≤ 3) as Hp.
  { unfold place_of, is_simplex. destruct (Z.eqb_spec (j_N job) (j_pagefactor job)), (Z.odd sheet); simpl; lia. }
  change (2 =? 2) with true. cbv iota. unfold two_up_page, leaf_page, folded_page.
  replace (2 * j_sigsheets job * 2) with (4 * j_sigsheets job) by lia.
  destruct (Z.eqb_spec (place_of job sheet m) 0); [|destruct (Z.eqb_spec (place_of job sheet m) 1);
    [|destruct (Z.eqb_spec (place_of job sheet m) 2);
      [|destruct (Z.eqb_spec (place_of job sheet m) 3); [|lia]]]];
    simpl; do 2 f_equal; lia.
Qed.

(** Folding: the sheets of a signature lie in each other, the one printed
    first innermost.  Reading goes from the outside to the middle through the
    left halves, back before front, and out again through the right halves.
    [f r m] is the page at the place [m] of sheet [r]. *)
Fixpoint left_halves (f : Z → Z → Z) (n : nat) : list Z :=
  match n with
  | O => []
  | Datatypes.S n' => [f (Z.of_nat n') 3; f (Z.of_nat n') 0] ++ left_halves f n'
  end.

Fixpoint right_halves (f : Z → Z → Z) (n : nat) : list Z :=
  match n with
  | O => []
  | Datatypes.S n' => right_halves f n' ++ [f (Z.of_nat n') 1; f (Z.of_nat n') 2]
  end.

Definition folded (f : Z → Z → Z) (n : nat) : list Z := left_halves f n ++ right_halves f n.

Lemma left_halves_seq f c S n :
  (∀ r m, 0 ≤ r < Z.of_nat n → 0 ≤ m < 4 → f r m = c + folded_page S r m) →
  left_halves f n = seqZ (c + 2 * S - 2 * Z.of_nat n) (2 * Z.of_nat n).
Proof.
  induction n as [|n IH]; intros Hf; [done|]. simpl left_halves.
  rewrite IH by (intros; apply Hf; lia). rewrite !Hf by lia.
  rewrite (seqZ_cons _ (2 * Z.of_nat (Datatypes.S n))) by lia.
  rewrite (seqZ_cons _ (Z.pred (2 * Z.of_nat (Datatypes.S n)))) by lia.
  unfold folded_page. simpl Z.eqb. cbv iota.
  f_equal; [lia|]. f_equal; [lia|]. f_equal; lia.
Qed.

Lemma right_halves_seq f c S n :
  (∀ r m, 0 ≤ r < Z.of_nat n → 0 ≤ m < 4 → f r m = c + folded_page S r m) →
  right_halves f n = seqZ (c + 2 * S) (2 * Z.of_nat n).
Proof.
  induction n as [|n IH]; intros Hf; [done|]. simpl right_halves.
  rewrite IH by (intros; apply Hf; lia). rewrite !Hf by lia.
  replace (2 * Z.of_nat (Datatypes.S n)) with (2 * Z.of_nat n + 2) by lia.
  rewrite seqZ_app by lia. f_equal. unfold folded_page, seqZ. simpl.
  f_equal; [lia|]. f_equal. lia.
Qed.

(** The page the driver puts at a place. *)
Definition page_at (s : driver) (sheet m : Z) : Z :=
  match signature sheet m s with Done p _ => p | _ => -1 end.

Definition both_sides (job : QEntryFile) : Prop := Z.land (j_sigpart job) SIG_BOTH = SIG_BOTH.

Lemma both_sides_none_skipped job m : both_sides job → skips_side job m = false.
Proof.
  unfold both_sides, skips_side. intros Hb.
  assert (∀ b, Z.land b SIG_BOTH = b → b ≠ 0 → Z.land (j_sigpart job) b ≠ 0) as Hbit.
  { intros b Hs Hne E. apply Hne. rewrite <- Hs, <- Hb, (Z.land_comm (j_sigpart job)), Z.land_assoc, Hs.
    by rewrite Z.land_comm. }
  rewrite (proj2 (Z.eqb_neq _ _) (Hbit SIG_FRONTS eq_refl ltac:(done))).
  rewrite (proj2 (Z.eqb_neq _ _) (Hbit SIG_BACKS eq_refl ltac:(done))).
  by rewrite !andb_false_r.
Qed.

(** C16: a signature that is folded reads in order: whatever the number of its
    sheets, the pages the driver puts on the sides of the sheets of the [k]th
    signature, read from the outside to the fold and out again, are the pages
    of the signature one after the other. *)
Theorem a_folded_signature_reads_in_order job s k n :
  d_job s = job → booklet job → j_pagefactor job = 4 → both_sides job →
  j_sigsheets job = Z.of_nat n → 0 ≤ k →
  folded (λ r m, page_at s (k * Z.of_nat n + r) m) n
  = seqZ (k * (4 * Z.of_nat n)) (4 * Z.of_nat n).
Proof.
  intros Ej Hb H4 Hboth En Hk. unfold folded.
  assert (∀ r m, 0 ≤ r < Z.of_nat n → 0 ≤ m < 4 →
    page_at s (k * Z.of_nat n + r) m = k * (4 * Z.of_nat n) + folded_page (Z.of_nat n) r m) as Hf.
  { intros r m Hr Hm. unfold page_at. rewrite (signature_page job) by (done || lia).
    rewrite both_sides_none_skipped by done. unfold leaf_page, leaf_of, place_of, is_simplex.
    destruct Hb as [HN HS _]. rewrite HN, H4, En. simpl.
    rewrite (Z.add_comm (k * Z.of_nat n)), Z.div_add, Z.mod_add by lia.
    rewrite Z.div_small, Z.mod_small by lia. done. }
  rewrite (left_halves_seq _ _ _ _ Hf), (right_halves_seq _ _ _ _ Hf).
  replace (4 * Z.of_nat n) with (2 * Z.of_nat n + 2 * Z.of_nat n) by lia.
  rewrite seqZ_app by lia. f_equal; f_equal; lia.
Qed.

Lemma a_folded_signature_reads_in_order_witness :
  folded (λ r m, page_at (sample_driver (set_j_sigsheets 3 sample_booklet)) (1 * Z.of_nat 3 + r) m) 3
  = seqZ 12 12.
Proof.
  apply (a_folded_signature_reads_in_order (set_j_sigsheets 3 sample_booklet) _ 1 3);
    try done. by split; [|done|right].
Defined.

(** Fronts and backs are told apart by half of the pages of a sheet of
    paper.  In simplex mode, which is what ppr sets when only one side is to be
    printed, a sheet has two pages, not four: of the front only the left page
    counts as front, and its right page is printed with the backs. *)
Theorem fronts_alone_lose_their_right_pages job s k :
  d_job s = job → booklet job → j_pagefactor job = 2 → 0 ≤ k →
  (j_sigpart job = SIG_FRONTS →
    page_at s (2 * k) 0 = leaf_page job (2 * k) 0 ∧ page_at s (2 * k) 1 = -1) ∧
  (j_sigpart job = SIG_BACKS → page_at s (2 * k) 1 = leaf_page job (2 * k) 1).
Proof.
  intros Ej Hb H2 Hk. destruct (Hb) as [HN _ _].
  unfold page_at. rewrite !(signature_page job) by (done || lia).
  assert (∀ m, place_of job (2 * k) m = m) as Hp.
  { intros m. unfold place_of. rewrite Z.odd_mul. by rewrite andb_false_r. }
  rewrite !Hp. unfold skips_side. rewrite H2. by split; intros ->.
Qed.

Definition sample_fronts : QEntryFile :=
  set_j_sigpart SIG_FRONTS (set_j_pagefactor 2 sample_booklet).

Lemma fronts_alone_lose_their_right_pages_witness :
  page_at (sample_driver sample_fronts) 0 0 = 1 ∧ page_at (sample_driver sample_fronts) 0 1 = -1.
Proof.
  apply (fronts_alone_lose_their_right_pages sample_fronts (sample_driver sample_fronts) 0);
    try done. by split; [|done|left].
Defined.

(** * Every page once *)

(** What is sent for the page of number [n]: the driver looks it up in the
    table, from the end if the job has its pages in descending order. *)
Definition index_of (s : driver) (npages n : Z) : Z :=
  if d_current_job_direction s =? 1 then n else npages - n - 1.

Definition sent_for (s : driver) (npages sheetlimit sheet n : Z) : list sent_page :=
  match (if (index_of s npages n <? npages) && (0 <=? index_of s npages n)
         then at_index (d_pagetable s) (index_of s npages n) else None) with
  | Some where_ => [Page where_ (n + 1)]
  | None =>
      if negb (d_copies_pages_countdown s =? 0) || negb (j_sigsheets (d_job s) =? 0)
         || negb (sheet + d_print_direction s =? sheetlimit)
      then [Dummy (n + 1)] else []
  end.

Definition number_at (job : QEntryFile) (sheet m : Z) : Z :=
  if j_sigsheets job =? 0 then sheet * j_pagefactor job + m else leaf_page job sheet m.

(** Jobs whose pages are all sent: without signatures, or with both sides of
    signatures of two pages to a side. *)
Definition whole (job : QEntryFile) : Prop :=
  0 < j_pagefactor job ∧ (j_sigsheets job = 0 ∨ booklet job ∧ both_sides job).

Definition ready (s : driver) (npages : Z) : Prop :=
  whole (d_job s) ∧ Z.of_nat (length (d_pagetable s)) = npages.

(** The state but for what has been sent. *)
Definition sending (s : driver) (new : list sent_page) : driver := set_d_sent (d_sent s ++ new) s.

Lemma sending_app s a b : sending (sending s a) b = sending s (a ++ b).
Proof. unfold sending, set_d_sent. simpl. by rewrite app_assoc. Qed.

Lemma sending_nil s : sending s [] = s.
Proof. unfold sending, set_d_sent. rewrite app_nil_r. by destruct s. Qed.

Lemma copy_member_sends s npages limit sheet m :
  ready s npages → 0 ≤ sheet → 0 ≤ m < j_pagefactor (d_job s) →
  copy_member npages limit sheet m s
  = Done tt (sending s (sent_for s npages limit sheet (number_at (d_job s) sheet m))).
Proof.
  intros [[Hf Hw] Hlen] Hs Hm. unfold copy_member, number_at, mbind, M_bind, the_job, gets.
  set (job := d_job s) in *.
  assert ((if j_sigsheets job =? 0 then mret (sheet * j_pagefactor job + m) else signature sheet m) s
    = Done (number_at job sheet m) s
    ∧ negb (j_sigsheets job =? 0) && (number_at job sheet m =? -1) = false) as [-> Hneg].
  { unfold number_at. destruct (Z.eqb_spec (j_sigsheets job) 0); [done|].
    destruct Hw as [?|[Hb Hboth]]; [done|].
    rewrite (signature_page job) by done. rewrite both_sides_none_skipped by done.
    split; [done|]. simpl. apply Z.eqb_neq. unfold leaf_page, folded_page.
    destruct Hb as [_ HS _]. assert (0 ≤ leaf_of job sheet) as Hl.
    { unfold leaf_of. destruct (is_simplex job); [apply Z.div_pos; lia | done]. }
    pose proof (Z.div_pos _ _ Hl HS). pose proof (Z.mod_pos_bound (leaf_of job sheet) _ HS).
    repeat case_match; nia. }
  fold (number_at job sheet m). rewrite Hneg. unfold id. cbv zeta.
  change (if d_current_job_direction s =? 1 then number_at job sheet m
          else npages - number_at job sheet m - 1) with (index_of s npages (number_at job sheet m)).
  unfold sent_for. set (i := index_of s npages (number_at job sheet m)).
  destruct ((i <? npages) && (0 <=? i)) eqn:Ei.
  - apply andb_true_iff in Ei as [Hlt%Z.ltb_lt Hge%Z.leb_le].
    destruct (at_index_ge (d_pagetable s) i) as [w ->]; [lia|]. done.
  - unfold when. fold job. destruct (_ || _); [done|]. unfold mret, M_ret. by rewrite sending_nil.
Qed.

(** A sheet, and the sheets from [sheet] on in the driver's direction. *)
Definition sheet_sent (s : driver) (npages limit sheet : Z) : list sent_page :=
  flat_map (λ m, sent_for s npages limit sheet (number_at (d_job s) sheet m))
    (seqZ 0 (j_pagefactor (d_job s))).

Lemma for_members_sends n lo s npages limit sheet :
  ready s npages → 0 ≤ sheet → 0 ≤ lo → lo + Z.of_nat n ≤ j_pagefactor (d_job s) →
  for_each n lo (copy_member npages limit sheet) s
  = Done tt (sending s (flat_map (λ m, sent_for s npages limit sheet (number_at (d_job s) sheet m))
      (seqZ lo (Z.of_nat n)))).
Proof.
  intros Hr Hs. unfold for_each. set (body := λ y : Z, _).
  assert (∀ n lo s, ready s npages → 0 ≤ lo → lo + Z.of_nat n ≤ j_pagefactor (d_job s) →
    for_loop n lo body s
    = Done None (sending s (flat_map (λ m, sent_for s npages limit sheet (number_at (d_job s) sheet m))
        (seqZ lo (Z.of_nat n))))) as L.
  { clear n lo s Hr. intros n. induction n as [|n IH]; intros lo s Hr Hlo Hn.
    - change (seqZ lo (Z.of_nat 0)) with (@nil Z). by rewrite sending_nil.
    - enough (for_loop (S n) lo body s = for_loop n (lo + 1) body
        (sending s (sent_for s npages limit sheet (number_at (d_job s) sheet lo)))) as ->;
        [|cbn [for_loop]; unfold body, mbind, M_bind; by rewrite copy_member_sends by (done || lia)].
      rewrite IH by (done || simpl; lia). rewrite sending_app.
      rewrite (seqZ_cons lo (Z.of_nat (S n))) by lia. simpl flat_map.
      replace (Z.pred (Z.of_nat (S n))) with (Z.of_nat n) by lia.
      by replace (Z.succ lo) with (lo + 1) by lia. }
  intros Hlo Hn. unfold mbind, M_bind. by rewrite (L n lo s Hr Hlo Hn).
Qed.

Fixpoint sheets_sent (n : nat) (s : driver) (npages limit sheet : Z) : list sent_page :=
  match n with
  | O => []
  | S n' =>
      sheet_sent s npages limit sheet
      ++ sheets_sent n' s npages limit (sheet + d_print_direction s)
  end.

Lemma sheets_sent_sending n s x npages limit sheet :
  sheets_sent n (sending s x) npages limit sheet = sheets_sent n s npages limit sheet.
Proof. revert sheet. induction n as [|n IH]; intros sheet; simpl; [done|]. by rewrite IH. Qed.

Lemma copy_sheets_sends n s npages limit sheet :
  ready s npages →
  (d_print_direction s = 1 ∧ 0 ≤ sheet ∧ limit = sheet + Z.of_nat n
   ∨ d_print_direction s = -1 ∧ limit = -1 ∧ sheet = Z.of_nat n - 1) →
  copy_sheets n npages limit sheet s = Done tt (sending s (sheets_sent n s npages limit sheet)).
Proof.
  revert s sheet. induction n as [|n IH]; intros s sheet Hr Hd.
  - simpl. destruct (Z.eqb_spec sheet limit); [|lia]. by rewrite sending_nil.
  - cbn [copy_sheets]. destruct (Z.eqb_spec sheet limit); [lia|].
    pose proof Hr as [[Hf _] _]. etrans; [by apply (bind_done _ _ _ (d_job s) s)|].
    etrans; [eapply bind_done, for_members_sends; done || lia|].
    rewrite Z2Nat.id by lia. fold (sheet_sent s npages limit sheet).
    set (s1 := sending s (sheet_sent s npages limit sheet)).
    etrans; [by apply (bind_done _ _ s1 (d_print_direction s) s1)|]. unfold s1.
    rewrite IH; [|done|simpl; lia]. rewrite sheets_sent_sending, sending_app. done.
Qed.

Lemma copy_once_sends s npages :
  ready s npages → d_print_direction s = 1 ∨ d_print_direction s = -1 → 0 ≤ d_sheetcount s →
  copy_once npages s = Done tt (sending s
    (if d_print_direction s =? 1
     then sheets_sent (Z.to_nat (d_sheetcount s)) s npages (d_sheetcount s) 0
     else sheets_sent (Z.to_nat (d_sheetcount s)) s npages (-1) (d_sheetcount s - 1))).
Proof.
  intros Hr Hd Hc. unfold copy_once, mbind, M_bind, gets, id. cbv zeta.
  destruct Hd as [E|E]; rewrite E; simpl; apply copy_sheets_sends; [done | lia | done | lia].
Qed.

(** ** Which numbers the places of the sheets have *)

Definition printed (l : list sent_page) : list (PAGETABLE * Z) :=
  omap (λ p, match p with Page w n => Some (w, n) | Dummy _ => None end) l.

Definition printed_for (s : driver) (npages n : Z) : list (PAGETABLE * Z) :=
  match (if (index_of s npages n <? npages) && (0 <=? index_of s npages n)
         then at_index (d_pagetable s) (index_of s npages n) else None) with
  | Some where_ => [(where_, n + 1)]
  | None => []
  end.

Definition numbers_of_sheet (job : QEntryFile) (sheet : Z) : list Z :=
  map (number_at job sheet) (seqZ 0 (j_pagefactor job)).

Lemma printed_app a b : printed (a ++ b) = printed a ++ printed b.
Proof. apply omap_app. Qed.

Lemma printed_sheet s npages limit sheet :
  printed (sheet_sent s npages limit sheet)
  = flat_map (printed_for s npages) (numbers_of_sheet (d_job s) sheet).
Proof.
  unfold sheet_sent, numbers_of_sheet. generalize (seqZ 0 (j_pagefactor (d_job s))).
  intros l. induction l as [|m l IH]; [done|]. simpl. rewrite printed_app, IH. f_equal.
  unfold sent_for, printed_for.
  destruct (if _ && _ then _ else _); [done|]. by destruct (_ || _).
Qed.

Fixpoint sheet_list (n : nat) (sheet direction : Z) : list Z :=
  match n with
  | O => []
  | S n' => sheet :: sheet_list n' (sheet + direction) direction
  end.

Lemma printed_sheets n s npages limit sheet :
  printed (sheets_sent n s npages limit sheet)
  = flat_map (printed_for s npages)
      (flat_map (numbers_of_sheet (d_job s)) (sheet_list n sheet (d_print_direction s))).
Proof.
  revert sheet. induction n as [|n IH]; intros sheet; [done|]. simpl.
  by rewrite printed_app, printed_sheet, IH, flat_map_app.
Qed.

Lemma sheet_list_up n sheet : sheet_list n sheet 1 = seqZ sheet (Z.of_nat n).
Proof.
  revert sheet. induction n as [|n IH]; intros sheet; [done|]. simpl. rewrite IH.
  rewrite (seqZ_cons sheet (Z.of_nat (S n))) by lia. do 2 f_equal; lia.
Qed.

Lemma sheet_list_down n : sheet_list n (Z.of_nat n - 1) (-1) ≡ₚ seqZ 0 (Z.of_nat n).
Proof.
  induction n as [|n IH]; [done|]. simpl.
  replace (Z.of_nat (S n) - 1 + -1) with (Z.of_nat n - 1) by lia. rewrite IH.
  replace (Z.of_nat (S n)) with (Z.of_nat n + 1) at 2 by lia.
  rewrite seqZ_app by lia. rewrite (seqZ_cons _ 1) by done.
  change (seqZ _ (Z.pred 1)) with (@nil Z). rewrite <- Permutation_cons_append.
  by replace (Z.of_nat (S n) - 1) with (0 + Z.of_nat n) by lia.
Qed.

(** The places of [c] sheets, sheet by sheet. *)
Definition all_numbers (job : QEntryFile) (c : Z) : list Z :=
  flat_map (numbers_of_sheet job) (seqZ 0 c).

Lemma all_numbers_length job c :
  0 < j_pagefactor job → 0 ≤ c →
  Z.of_nat (length (all_numbers job c)) = c * j_pagefactor job.
Proof.
  intros Hf Hc. unfold all_numbers. rewrite <- (Z2Nat.id c) by done. generalize (Z.to_nat c) 0.
  intros n. induction n as [|n IH]; intros lo; [done|].
  rewrite seqZ_cons by lia. simpl flat_map. rewrite length_app, Nat2Z.inj_add.
  replace (Z.pred (Z.of_nat (S n))) with (Z.of_nat n) by lia. rewrite IH.
  unfold numbers_of_sheet. rewrite length_map, length_seqZ. lia.
Qed.

(** Places enough for every number, and no more places than numbers. *)
Lemma all_numbers_once job c :
  0 < j_pagefactor job → 0 ≤ c →
  (∀ p, 0 ≤ p < c * j_pagefactor job →
    ∃ sheet m, 0 ≤ sheet < c ∧ 0 ≤ m < j_pagefactor job ∧ number_at job sheet m = p) →
  all_numbers job c ≡ₚ seqZ 0 (c * j_pagefactor job).
Proof.
  intros Hf Hc Hall. symmetry. apply submseteq_length_Permutation.
  - apply NoDup_submseteq; [apply NoDup_seqZ|]. intros p Hp%elem_of_seqZ.
    destruct (Hall p) as (sheet & m & Hs & Hm & <-); [lia|].
    unfold all_numbers, numbers_of_sheet. apply list_elem_of_In, in_flat_map.
    exists sheet. split; apply list_elem_of_In; [apply elem_of_seqZ; lia|].
    apply list_elem_of_In, in_map, list_elem_of_In, elem_of_seqZ. lia.
  - rewrite length_seqZ. pose proof (all_numbers_length job c Hf Hc). lia.
Qed.

Lemma folded_onto S q :
  0 < S → 0 ≤ q < 4 * S → ∃ r m, 0 ≤ r < S ∧ 0 ≤ m < 4 ∧ folded_page S r m = q.
Proof.
  intros HS Hq. pose proof (Z.div_mod q 2 ltac:(done)) as E.
  pose proof (Z.mod_pos_bound q 2 ltac:(done)).
  assert (q mod 2 = 0 ∨ q mod 2 = 1) as [Em|Em] by lia;
    destruct (decide (q < 2 * S)); rewrite Em in E.
  - exists (S - 1 - q / 2), 3. unfold folded_page. simpl. lia.
  - exists (q / 2 - S), 1. unfold folded_page. simpl. lia.
  - exists (S - 1 - q / 2), 0. unfold folded_page. simpl. lia.
  - exists (q / 2 - S), 2. unfold folded_page. simpl. lia.
Qed.

(** Whole signatures of them. *)
Definition whole_sheets (job : QEntryFile) (c : Z) : Prop :=
  0 ≤ c ∧ (j_sigsheets job = 0 ∨ ∃ k, 0 ≤ k ∧ c * j_pagefactor job = k * (4 * j_sigsheets job)).

Lemma booklet_places job c p :
  booklet job → whole_sheets job c → 0 ≤ p < c * j_pagefactor job →
  ∃ sheet m, 0 ≤ sheet < c ∧ 0 ≤ m < j_pagefactor job ∧ leaf_page job sheet m = p.
Proof.
  intros [HN HS Hf] [Hc [?|(k & Hk & Ek)]] Hp; [lia|].
  set (S := j_sigsheets job) in *.
  destruct (folded_onto S (p mod (4 * S)) HS) as (r & m & Hr & Hm & Eq).
  { apply Z.mod_pos_bound. lia. }
  pose proof (Z.div_mod p (4 * S) ltac:(lia)) as Ep.
  assert (0 ≤ p / (4 * S) < k) as Hi.
  { split; [apply Z.div_pos; lia|]. apply Z.div_lt_upper_bound; lia. }
  set (i := p / (4 * S)) in *.
  assert (i * S + r < k * S) as Hl by nia.
  assert ((i * S + r) / S = i ∧ (i * S + r) mod S = r) as [Ed Er].
  { rewrite Z.add_comm, Z.div_add, Z.mod_add by lia. by rewrite Z.div_small, Z.mod_small by lia. }
  destruct Hf as [E2|E4].
  - rewrite E2 in *.
    exists (2 * (i * S + r) + m / 2), (m mod 2).
    pose proof (Z.div_mod m 2 ltac:(done)). pose proof (Z.mod_pos_bound m 2 ltac:(done)).
    assert (m / 2 = 0 ∨ m / 2 = 1) as Hm2 by lia.
    split_and!; [nia | lia | lia | lia |].
    unfold leaf_page, leaf_of, place_of, is_simplex. rewrite HN, E2.
    change (2 =? 2) with true. cbv iota. rewrite andb_true_l.
    assert ((2 * (i * S + r) + m / 2) / 2 = i * S + r) as ->.
    { rewrite Z.mul_comm, Z.add_comm, Z.div_add by done. destruct Hm2 as [-> | ->]; done || lia. }
    assert ((if Z.odd (2 * (i * S + r) + m / 2) then m mod 2 + 2 else m mod 2) = m) as ->.
    { rewrite Z.odd_add, Z.odd_mul. simpl.
      destruct Hm2 as [E|E]; rewrite E in *; simpl; lia. }
    fold S. rewrite Ed, Er, Eq. lia.
  - rewrite E4 in *. exists (i * S + r), m. split_and!; [nia | nia | lia | lia |].
    unfold leaf_page, leaf_of, place_of, is_simplex. rewrite HN, E4. simpl.
    fold S. rewrite Ed, Er, Eq. lia.
Qed.

Lemma all_numbers_whole job c :
  whole job → whole_sheets job c → all_numbers job c ≡ₚ seqZ 0 (c * j_pagefactor job).
Proof.
  intros [Hf Hw] Hc. destruct (Hc) as [Hc0 _]. apply all_numbers_once; [done..|]. intros p Hp.
  unfold number_at. destruct (Z.eqb_spec (j_sigsheets job) 0) as [E|E].
  - exists (p / j_pagefactor job), (p mod j_pagefactor job).
    pose proof (Z.div_mod p (j_pagefactor job) ltac:(lia)).
    split_and!; [apply Z.div_pos; lia | apply Z.div_lt_upper_bound; lia
      | apply Z.mod_pos_bound; lia.. | lia].
  - destruct Hw as [?|[Hb _]]; [done|]. by apply booklet_places.
Qed.

(** A valid PageOrder, and the driver's two directions. *)
Definition known_order (job : QEntryFile) : Prop :=
  j_pageorder job ∈ [PAGEORDER_SPECIAL; PAGEORDER_ASCEND; PAGEORDER_DESCEND].

Definition a_direction (d : Z) : Prop := d = 1 ∨ d = -1.

Definition whole_sheetcount (job : QEntryFile) : Z :=
  if j_sigsheets job =? 0
  then (pagemask_count job + j_pagefactor job - 1) / j_pagefactor job
  else (pagemask_count job + 4 * j_sigsheets job - 1) / (4 * j_sigsheets job)
       * j_sigsheets job * (4 / j_pagefactor job).

Definition computed (s : driver) : driver :=
  set_d_print_direction
    (if j_pageorder (d_job s) =? PAGEORDER_SPECIAL then 1 else d_OutputOrder s)
    (set_d_current_job_direction
      (if j_pageorder (d_job s) =? PAGEORDER_DESCEND then -1 else 1)
      (set_d_sheetcount (whole_sheetcount (d_job s)) s)).

Lemma page_computations_done s :
  whole (d_job s) → known_order (d_job s) → 0 ≤ pagemask_count (d_job s) →
  page_computations s = Done tt (computed s).
Proof.
  intros [Hf Hw] Ho Hp. unfold page_computations.
  etrans; [by apply (bind_done _ _ _ (d_job s) s)|].
  assert (∀ a b, 0 ≤ a → 0 < b → c_div a b s = Done (a / b) s) as Hdiv.
  { intros a b Ha Hb. unfold c_div. destruct (Z.eqb_spec b 0); [lia|].
    by rewrite Z.quot_div_nonneg. }
  etrans.
  { eapply (bind_done _ _ _ (whole_sheetcount (d_job s)) s). unfold whole_sheetcount.
    destruct (Z.eqb_spec (j_sigsheets (d_job s)) 0).
    - apply Hdiv; lia.
    - destruct Hw as [?|[[HN HS Hf'] _]]; [done|]. unfold pages_per_signature. rewrite HN.
      replace (2 * 2 * j_sigsheets (d_job s)) with (4 * j_sigsheets (d_job s)) by lia.
      etrans; [eapply bind_done, Hdiv; lia|]. by etrans; [eapply bind_done, Hdiv; lia|]. }
  unfold computed.
  repeat apply elem_of_cons in Ho as [Ho|Ho]; [..|by apply elem_of_nil in Ho];
    unfold mbind, M_bind, modify, gets; simpl; rewrite Ho; reflexivity.
Qed.

Lemma whole_sheetcount_enough job :
  whole job → 0 ≤ pagemask_count job →
  whole_sheets job (whole_sheetcount job) ∧
  pagemask_count job ≤ whole_sheetcount job * j_pagefactor job.
Proof.
  intros [Hf Hw] Hp. set (p := pagemask_count job) in *.
  assert (∀ b, 0 < b → 0 ≤ (p + b - 1) / b ∧ p ≤ (p + b - 1) / b * b) as Hup.
  { intros b Hb. split; [apply Z.div_pos; lia|].
    pose proof (Z.div_mod (p + b - 1) b ltac:(lia)). pose proof (Z.mod_pos_bound (p + b - 1) b Hb). lia. }
  unfold whole_sheets, whole_sheetcount. fold p.
  destruct (Z.eqb_spec (j_sigsheets job) 0) as [E|E].
  - destruct (Hup (j_pagefactor job) Hf). auto.
  - destruct Hw as [?|[[HN HS Hf'] _]]; [done|].
    destruct (Hup (4 * j_sigsheets job) ltac:(lia)) as [H0 Hle].
    set (k := (p + _ - 1) / _) in *.
    assert (k * j_sigsheets job * (4 / j_pagefactor job) * j_pagefactor job
      = k * (4 * j_sigsheets job)) as Ek by (destruct Hf' as [-> | ->]; [change (4 / 2) with 2
        | change (4 / 4) with 1]; lia).
    rewrite Ek. split; [|done]. split; [|eauto].
    assert (0 ≤ 4 / j_pagefactor job) by (apply Z.div_pos; lia). nia.
Qed.

(** The pages in the order in which the job has them, with their numbers. *)
Definition reading_order (s : driver) : list PAGETABLE :=
  if j_pageorder (d_job s) =? PAGEORDER_DESCEND then reverse (d_pagetable s) else d_pagetable s.

Definition numbered (s : driver) : list (PAGETABLE * Z) :=
  zip (reading_order s) (seqZ 1 (Z.of_nat (length (d_pagetable s)))).

Lemma flat_map_seqZ {A} (f : Z → list A) (l : list A) lo :
  (∀ i x, l !! i = Some x → f (lo + Z.of_nat i) = [x]) →
  flat_map f (seqZ lo (Z.of_nat (length l))) = l.
Proof.
  revert lo. induction l as [|x l IH]; intros lo Hf; [done|].
  simpl length. rewrite seqZ_cons by lia. simpl.
  replace (f lo) with [x] by (rewrite <- (Hf 0%nat x) by done; f_equal; lia). simpl. f_equal.
  replace (Z.pred (Z.of_nat (S (length l)))) with (Z.of_nat (length l)) by lia.
  apply IH. intros i y Hy. rewrite <- (Hf (S i) y) by done. f_equal. lia.
Qed.

Lemma flat_map_nothing {A B} (f : A → list B) l : (∀ x, x ∈ l → f x = []) → flat_map f l = [].
Proof.
  induction l as [|x l IH]; intros H; [done|]. simpl. rewrite H by apply list_elem_of_here.
  apply IH. intros y Hy. apply H. by apply list_elem_of_further.
Qed.

Lemma length_reading_order s : length (reading_order s) = length (d_pagetable s).
Proof. unfold reading_order. case_match; [apply length_reverse | done]. Qed.

Lemma length_numbered s : length (numbered s) = length (d_pagetable s).
Proof.
  unfold numbered. rewrite length_zip_with, length_reading_order, length_seqZ. lia.
Qed.

(** The table is gone through as the direction of the job says. *)
Definition directed (s : driver) : Prop :=
  d_current_job_direction s = if j_pageorder (d_job s) =? PAGEORDER_DESCEND then -1 else 1.

Lemma printed_for_place s npages i x :
  directed s → Z.of_nat (length (d_pagetable s)) = npages →
  numbered s !! i = Some x → printed_for s npages (0 + Z.of_nat i) = [x].
Proof.
  intros Hd Hn Hx. pose proof (lookup_lt_Some _ _ _ Hx) as Hi. rewrite length_numbered in Hi.
  unfold numbered in Hx. apply lookup_zip_with_Some in Hx as (w & n & -> & Hw & Hnum).
  apply lookup_seqZ in Hnum as [-> _].
  rewrite Z.add_0_l. unfold printed_for, index_of. rewrite Hd. unfold reading_order in Hw.
  assert (∀ j, Z.of_nat j < npages → d_pagetable s !! j = Some w →
    match (if (Z.of_nat j <? npages) && (0 <=? Z.of_nat j)
           then at_index (d_pagetable s) (Z.of_nat j) else None) with
    | Some where_ => [(where_, Z.of_nat i + 1)] | None => [] end = [(w, 1 + Z.of_nat i)]) as L.
  { intros j Hj Ej. rewrite (proj2 (Z.ltb_lt _ _) Hj), (proj2 (Z.leb_le 0 _)) by lia. simpl.
    unfold at_index. rewrite (proj2 (Z.leb_le 0 _)) by lia. rewrite Nat2Z.id, Ej.
    do 2 f_equal. lia. }
  destruct (j_pageorder (d_job s) =? PAGEORDER_DESCEND); simpl.
  - rewrite reverse_lookup in Hw by done.
    replace (npages - Z.of_nat i - 1) with (Z.of_nat (length (d_pagetable s) - S i)) by lia.
    apply L; [lia | done].
  - apply L; [lia | done].
Qed.

Lemma printed_for_none s npages n :
  directed s → npages ≤ n → printed_for s npages n = [].
Proof.
  intros Hd Hn. unfold printed_for, index_of. rewrite Hd.
  assert ((index_of s npages n <? npages) && (0 <=? index_of s npages n) = false) as E.
  { unfold index_of. rewrite Hd.
    destruct (j_pageorder _ =? _); simpl;
      [rewrite (proj2 (Z.leb_gt 0 _)) by lia; apply andb_false_r
      |rewrite (proj2 (Z.ltb_ge _ _)) by lia; done]. }
  unfold index_of in E. rewrite Hd in E. by rewrite E.
Qed.

Lemma printed_numbers s npages total :
  directed s → Z.of_nat (length (d_pagetable s)) = npages → npages ≤ total →
  flat_map (printed_for s npages) (seqZ 0 total) = numbered s.
Proof.
  intros Hd Hn Ht. replace total with (npages + (total - npages)) by lia.
  rewrite seqZ_app by lia. rewrite flat_map_app.
  rewrite (flat_map_nothing _ (seqZ (0 + npages) _)), app_nil_r.
  - rewrite <- Hn, <- length_numbered. apply flat_map_seqZ. intros i x Hx.
    apply printed_for_place; [done | by rewrite length_numbered | done].
  - intros n Hin%elem_of_seqZ. apply printed_for_none; [done | lia].
Qed.

Lemma all_numbers_plain job c :
  0 < j_pagefactor job → 0 ≤ c → j_sigsheets job = 0 →
  all_numbers job c = seqZ 0 (c * j_pagefactor job).
Proof.
  intros Hf Hc E. unfold all_numbers.
  assert (∀ sheet, numbers_of_sheet job sheet
    = seqZ (sheet * j_pagefactor job) (j_pagefactor job)) as Hs.
  { intros sheet. unfold numbers_of_sheet, number_at. rewrite E. simpl.
    apply list_eq_same_length with (length (seqZ (sheet * j_pagefactor job) (j_pagefactor job)));
      [done | by rewrite length_map, !length_seqZ|].
    intros i x y _ Hx Hy. rewrite list_lookup_fmap in Hx.
    apply fmap_Some in Hx as (m & Hm & ->).
    apply lookup_seqZ in Hm as [-> _], Hy as [-> _]. lia. }
  rewrite <- (Z2Nat.id c) by done. generalize (Z.to_nat c). clear c Hc.
  assert (∀ n lo, flat_map (numbers_of_sheet job) (seqZ lo (Z.of_nat n))
    = seqZ (lo * j_pagefactor job) (Z.of_nat n * j_pagefactor job)) as L.
  { induction n as [|n IH]; intros lo; [done|]. rewrite seqZ_cons by lia. simpl flat_map.
    replace (Z.pred (Z.of_nat (S n))) with (Z.of_nat n) by lia. rewrite IH, Hs.
    replace (Z.of_nat (S n) * j_pagefactor job)
      with (j_pagefactor job + Z.of_nat n * j_pagefactor job) by lia.
    rewrite seqZ_app by lia. do 2 f_equal. lia. }
  intros n. apply L.
Qed.

(** A driver whose computations have been made, with the table of the pages
    that are to be printed. *)
Record loaded (s : driver) (npages : Z) : Prop := {
  l_whole : whole (d_job s);
  l_table : Z.of_nat (length (d_pagetable s)) = npages;
  l_mask : pagemask_count (d_job s) = npages;
  l_directed : directed s;
  l_direction : a_direction (d_print_direction s);
  l_sheets : d_sheetcount s = whole_sheetcount (d_job s);
}.

(** A complete copy: every page once, and in order when the sheets come out in
    order and are not folded. *)
Definition complete_copy (s : driver) (copy : list sent_page) : Prop :=
  printed copy ≡ₚ numbered s ∧
  (j_sigsheets (d_job s) = 0 → d_print_direction s = 1 → printed copy = numbered s).

Lemma copy_once_complete s npages :
  loaded s npages →
  ∃ copy, copy_once npages s = Done tt (sending s copy) ∧ complete_copy s copy.
Proof.
  intros [Hw Ht Hm Hd Hdir Hs].
  destruct (whole_sheetcount_enough (d_job s) Hw) as [Hws Hle]; [lia|].
  rewrite <- Hs in Hws, Hle. rewrite Hm in Hle. pose proof (proj1 Hws) as Hc.
  eexists. split; [apply copy_once_sends; done|].
  unfold complete_copy. destruct Hdir as [E|E]; rewrite E; simpl; rewrite printed_sheets, E.
  - rewrite sheet_list_up, Z2Nat.id by done. fold (all_numbers (d_job s) (d_sheetcount s)). split.
    + rewrite all_numbers_whole by done. by rewrite (printed_numbers _ npages).
    + intros Esig _. rewrite all_numbers_plain by (done || apply Hw).
      by rewrite (printed_numbers _ npages).
  - split; [|done].
    rewrite <- (Z2Nat.id (d_sheetcount s)) at 2 by done. rewrite sheet_list_down, Z2Nat.id by done.
    fold (all_numbers (d_job s) (d_sheetcount s)). rewrite all_numbers_whole by done.
    by rewrite (printed_numbers _ npages).
Qed.

Lemma computed_loaded s npages :
  whole (d_job s) → a_direction (d_OutputOrder s) →
  Z.of_nat (length (d_pagetable s)) = npages → pagemask_count (d_job s) = npages →
  loaded (computed s) npages.
Proof.
  intros Hw Ho Ht Hm. split; try done. simpl. destruct (_ =? _); [by left | done].
Qed.




(** * Copies *)

(** The state but for what has been sent and how many copies are left. *)
Definition with_countdown (s : driver) (c : Z) (new : list sent_page) : driver :=
  set_d_copies_pages_countdown c (sending s new).

Lemma copies_loop_step fuel npages s n :
  loaded s npages → d_copies_pages_countdown s = n → n ≠ 0 → -2147483648 < n < 2147483648 →
  ∃ copy, copies_loop (S fuel) npages s = copies_loop fuel npages (with_countdown s (n - 1) copy)
    ∧ complete_copy s copy.
Proof.
  intros Hl Hn Hne Hr. set (s1 := set_d_copies_pages_countdown (n - 1) s).
  destruct (copy_once_complete s1 npages) as (copy & Hrun & Hc); [by destruct Hl|].
  exists copy. split; [|done]. cbn [copies_loop].
  etrans; [by apply (bind_done _ _ _ n s); unfold gets; rewrite Hn|].
  etrans; [apply (bind_done _ _ _ (n - 1) s)|].
  { unfold c_int. rewrite (proj2 (Z.leb_le _ _)), (proj2 (Z.ltb_lt _ _)) by lia. done. }
  etrans; [by apply (bind_done _ _ _ tt s1)|].
  rewrite (proj2 (Z.eqb_neq _ _)) by done.
  by etrans; [eapply bind_done, Hrun|].
Qed.

Lemma complete_copy_countdown s c new copy :
  complete_copy (with_countdown s c new) copy ↔ complete_copy s copy.
Proof. done. Qed.

Lemma with_countdown_twice s c c' a b :
  with_countdown (with_countdown s c a) c' b = with_countdown s c' (a ++ b).
Proof.
  unfold with_countdown. rewrite <- sending_app. done.
Qed.

Lemma with_countdown_nil s c : with_countdown s c [] = set_d_copies_pages_countdown c s.
Proof. unfold with_countdown. by rewrite sending_nil. Qed.

Lemma copies_loop_copies n fuel npages s :
  loaded s npages → d_copies_pages_countdown s = Z.of_nat n → Z.of_nat n < 2147483648 →
  (n < fuel)%nat →
  ∃ copies, copies_loop fuel npages s = Done tt (with_countdown s (-1) (concat copies)) ∧
    length copies = n ∧ Forall (complete_copy s) copies.
Proof.
  revert fuel s. induction n as [|n IH]; intros [|fuel] s Hl Hn Hr Hf; try lia.
  - exists []. split; [|done]. cbn [copies_loop].
    etrans; [by apply (bind_done _ _ _ 0 s); unfold gets; rewrite Hn|].
    etrans; [by apply (bind_done _ _ _ (-1) s)|]. rewrite with_countdown_nil. done.
  - destruct (copies_loop_step fuel npages s _ Hl Hn) as (copy & -> & Hc); [lia..|].
    replace (Z.of_nat (S n) - 1) with (Z.of_nat n) by lia.
    destruct (IH fuel (with_countdown s (Z.of_nat n) copy)) as (cs & -> & Hlen & Hall);
      [by destruct Hl | done | lia..|].
    exists (copy :: cs). rewrite with_countdown_twice. simpl. split_and!; [done | lia |].
    by constructor.
Qed.

Lemma copies_loop_runs_away fuel npages s :
  loaded s npages → d_copies_pages_countdown s < 0 →
  Z.of_nat fuel < d_copies_pages_countdown s + 2147483649 →
  copies_loop fuel npages s = Stopped SFuel.
Proof.
  revert s. induction fuel as [|fuel IH]; intros s Hl Hn Hf; [done|].
  destruct (copies_loop_step fuel npages s _ Hl eq_refl) as (copy & -> & _); [lia..|].
  apply IH; [by destruct Hl | simpl; lia..].
Qed.

(** C17: collated copies of a job with page comments: the driver sends as many
    complete copies of the pages as the user asked for, one after the other,
    the printer being told to make one of each. *)
Theorem collated_copies_are_all_sent s npages fuel :
  whole (d_job s) → j_pageorder (d_job s) ∈ [PAGEORDER_ASCEND; PAGEORDER_DESCEND] →
  a_direction (d_OutputOrder s) →
  Z.of_nat (length (d_pagetable s)) = npages → pagemask_count (d_job s) = npages →
  truth (j_collate (d_job s)) = true → truth (j_script (d_job s)) = true →
  2 ≤ j_copies (d_job s) < 2147483648 → j_copies (d_job s) < Z.of_nat fuel →
  ∃ s' copies,
    (page_computations;; select_copies_method;; copies_loop fuel npages) s = Done tt s' ∧
    d_sent s' = d_sent s ++ concat copies ∧
    Z.of_nat (length copies) = j_copies (d_job s) ∧
    Forall (complete_copy (computed s)) copies ∧
    d_copies_auto s' = 1 ∧ d_copies_doc_countdown s' = 1.
Proof.
  intros Hw Hk Ho Ht Hm Hcol Hscr Hc Hf.
  set (s1 := set_d_copies_pages_countdown (j_copies (d_job s)) (set_d_copies_doc_countdown 1
    (set_d_copies_auto_collate 0 (set_d_copies_auto 1 (computed s))))).
  assert (loaded s1 npages) as Hl by (destruct (computed_loaded s npages); done).
  destruct (copies_loop_copies (Z.to_nat (j_copies (d_job s))) fuel npages s1)
    as (copies & Hrun & Hlen & Hall); [done | simpl; lia | lia..|].
  exists (with_countdown s1 (-1) (concat copies)), copies. split_and!; [|simpl; done | lia | done | done | done].
  assert (known_order (d_job s) ∧ (j_pageorder (d_job s) =? PAGEORDER_SPECIAL) = false) as [Hk' Hsp].
  { unfold known_order. repeat apply elem_of_cons in Hk as [Hk|Hk]; [..|by apply elem_of_nil in Hk];
      rewrite Hk; split; try done; repeat constructor. }
  etrans; [eapply bind_done, page_computations_done; done || lia|].
  etrans; [apply (bind_done _ _ _ tt s1)|exact Hrun].
  unfold select_copies_method. etrans; [by apply (bind_done _ _ _ (d_job s) (computed s))|].
  rewrite (proj2 (Z.ltb_ge _ _)) by lia. rewrite Hcol, Hscr, Hsp. done.
Qed.

Definition sample_copies : driver := sample_driver (set_j_collate 1 (set_j_copies 3 sample_job)).

Lemma sample_whole copies collate order :
  whole (set_j_pageorder order (set_j_collate collate (set_j_copies copies sample_job))).
Proof. split; [done | by left]. Qed.

Lemma collated_copies_are_all_sent_witness :
  ∃ s' copies,
    (page_computations;; select_copies_method;; copies_loop 4 6) sample_copies = Done tt s' ∧
    d_sent s' = concat copies ∧ length copies = 3%nat.
Proof.
  destruct (collated_copies_are_all_sent sample_copies 6 4)
    as (s' & copies & H1 & H2 & H3 & _).
  - apply (sample_whole 3 1 PAGEORDER_ASCEND).
  - left.
  - by left.
  - reflexivity.
  - reflexivity.
  - reflexivity.
  - reflexivity.
  - simpl. lia.
  - simpl. lia.
  - exists s', copies. split; [exact H1|]. split; [exact H2|]. apply (Nat2Z.inj _ 3 H3).
Defined.

(** C18: but if the order of the pages is special the whole document is to be
    sent so many times, and the counter of the copies of the pages, which the
    first document has counted down below zero, is not set again: the second
    document does not end before the counter has gone through all of its
    values. *)
Theorem special_order_copies_never_end s npages fuel fuel' :
  whole (d_job s) → j_pageorder (d_job s) = PAGEORDER_SPECIAL →
  a_direction (d_OutputOrder s) →
  Z.of_nat (length (d_pagetable s)) = npages → pagemask_count (d_job s) = npages →
  truth (j_collate (d_job s)) = true → 2 ≤ j_copies (d_job s) →
  (2 ≤ fuel)%nat → Z.of_nat fuel' < 2147483648 →
  ∃ s1 s2,
    (page_computations;; select_copies_method) s = Done tt s1 ∧
    d_copies_doc_countdown s1 = j_copies (d_job s) ∧
    copies_loop fuel npages s1 = Done tt s2 ∧
    copies_loop fuel' npages s2 = Stopped SFuel.
Proof.
  intros Hw Hk Ho Ht Hm Hcol Hc Hf Hf'.
  set (s1 := set_d_copies_pages_countdown 1 (set_d_copies_doc_countdown (j_copies (d_job s))
    (set_d_copies_auto_collate 0 (set_d_copies_auto 1 (computed s))))).
  assert (loaded s1 npages) as Hl by (destruct (computed_loaded s npages); done).
  destruct (copies_loop_copies 1 fuel npages s1) as (copies & Hrun & _); [done.. | lia|].
  exists s1. eexists. split_and!; [|done | exact Hrun |].
  - assert (known_order (d_job s)) as Hk' by (unfold known_order; rewrite Hk; repeat constructor).
    etrans; [eapply bind_done, page_computations_done; done || lia|].
    unfold select_copies_method. etrans; [by apply (bind_done _ _ _ (d_job s) (computed s))|].
    rewrite (proj2 (Z.ltb_ge _ _)) by lia. rewrite Hcol, Hk. simpl orb. by rewrite orb_true_r.
  - apply copies_loop_runs_away; [by destruct Hl | simpl; lia | simpl; lia].
Qed.

Definition sample_special : driver :=
  sample_driver (set_j_pageorder PAGEORDER_SPECIAL (set_j_collate 1 (set_j_copies 2 sample_job))).

Lemma special_order_copies_never_end_witness :
  ∃ s1 s2, (page_computations;; select_copies_method) sample_special = Done tt s1 ∧
    copies_loop 2 6 s1 = Done tt s2 ∧ copies_loop 1000 6 s2 = Stopped SFuel.
Proof.
  destruct (special_order_copies_never_end sample_special 6 2 1000)
    as (s1 & s2 & H1 & _ & H2 & H3).
  - apply (sample_whole 2 1 PAGEORDER_SPECIAL).
  - reflexivity.
  - by left.
  - reflexivity.
  - reflexivity.
  - reflexivity.
  - simpl. lia.
  - lia.
  - lia.
  - exists s1, s2. split; [exact H1|]. by split.
Defined.

(** * Charges *)

Lemma up_twice p N : 0 ≤ p → 0 < N →
  let sides := (p + N - 1) / N in sides / 2 + sides mod 2 = (p + N * 2 - 1) / (N * 2).
Proof.
  intros Hp HN. cbv zeta. set (s := (p + N - 1) / N).
  pose proof (Z.div_mod s 2 ltac:(done)). pose proof (Z.mod_pos_bound s 2 ltac:(done)).
  pose proof (Z.div_mod (s + 1) 2 ltac:(done)). pose proof (Z.mod_pos_bound (s + 1) 2 ltac:(done)).
  assert (s / 2 + s mod 2 = (s + 1) / 2) as -> by lia.
  unfold s. replace ((p + N - 1) / N + 1) with ((p + N - 1 + 1 * N) / N) by (by rewrite Z.div_add by lia).
  rewrite Z.div_div by lia. f_equal. lia.
Qed.

(** A sheet of a plain job has something on its back: a page behind the [N] of
    its front. *)
Definition printed_on_the_back (job : QEntryFile) (sheet : Z) : bool :=
  sheet * j_pagefactor job + j_N job <? Z.min (pagemask_count job) ((sheet + 1) * j_pagefactor job).

Definition sheets_that (p : Z → bool) (sheetcount : Z) : Z := Z.of_nat (length (List.filter p (seqZ 0 sheetcount))).

Lemma sheets_that_none p c : (∀ r, p r = false) → sheets_that p c = 0.
Proof.
  intros Hp. unfold sheets_that. induction (seqZ 0 c) as [|r l IH]; [done|]. simpl. by rewrite Hp.
Qed.

Lemma sheets_that_first p k c :
  0 ≤ k ≤ c → (∀ r, p r = (r <? k)) → sheets_that p c = k.
Proof.
  intros Hk Hp. unfold sheets_that. replace c with (k + (c - k)) by lia. rewrite seqZ_app by lia.
  rewrite List.filter_app, length_app.
  assert (∀ l, Forall (λ r, r < k) l → List.filter p l = l) as Hall.
  { induction 1 as [|r l Hr _ IH]; [done|]. simpl. rewrite Hp, (proj2 (Z.ltb_lt _ _)), IH by done. done. }
  assert (∀ l, Forall (λ r, k ≤ r) l → List.filter p l = []) as Hnone.
  { induction 1 as [|r l Hr _ IH]; [done|]. simpl. by rewrite Hp, (proj2 (Z.ltb_ge _ _)), IH. }
  rewrite Hall, Hnone, length_seqZ by (apply Forall_forall; intros r Hr%elem_of_seqZ; lia). simpl. lia.
Qed.

Lemma sheets_that_others p c : 0 ≤ c → sheets_that (λ r, negb (p r)) c = c - sheets_that p c.
Proof.
  intros Hc. assert (Z.of_nat (length (seqZ 0 c)) = c) as Hl by (rewrite length_seqZ; lia).
  rewrite <- Hl at 2. unfold sheets_that. clear Hl. induction (seqZ 0 c) as [|r l IH]; [done|].
  simpl. destruct (p r); simpl; lia.
Qed.

(** Which backs have a page: those of the first half of the sides. *)
Lemma backs_first job sheet :
  0 < j_N job → j_pagefactor job = j_N job * 2 →
  printed_on_the_back job sheet = (sheet <? (pagemask_count job + j_N job - 1) / j_N job / 2).
Proof.
  intros HN Hpf. unfold printed_on_the_back. rewrite Hpf. set (p := pagemask_count job). set (N := j_N job) in *.
  pose proof (Z.div_mod (p + N - 1) N ltac:(lia)) as E1. pose proof (Z.mod_pos_bound (p + N - 1) N HN) as B1.
  set (sides := (p + N - 1) / N) in *.
  pose proof (Z.div_mod sides 2 ltac:(done)) as E2. pose proof (Z.mod_pos_bound sides 2 ltac:(done)) as B2.
  set (h := sides / 2) in *.
  destruct (Z.ltb_spec sheet h) as [Hlt|Hge].
  - apply Z.ltb_lt. assert (sheet + 1 ≤ h) by lia. assert ((sheet * 2 + 1) * N ≤ (sides - 1) * N) by nia. nia.
  - apply Z.ltb_ge. assert (sides ≤ sheet * 2 + 1) by lia. assert (sides * N ≤ (sheet * 2 + 1) * N) by nia. lia.
Qed.

Lemma fronts_only job sheet : j_pagefactor job = j_N job → printed_on_the_back job sheet = false.
Proof. intros Hpf. unfold printed_on_the_back. rewrite Hpf. apply Z.ltb_ge. lia. Qed.

(** What is charged for one copy. *)
Lemma one_copy_charged job :
  whole job → 0 < j_N job → j_pagefactor job = j_N job ∨ j_pagefactor job = j_N job * 2 → 0 ≤ pagemask_count job →
  let '(d, e) := charged_sheets (pagemask_count job) (j_N job) (j_pagefactor job) (j_sigsheets job) (j_sigpart job) in
  d + e = whole_sheetcount job ∧
  (j_sigsheets job = 0 → d = sheets_that (printed_on_the_back job) (whole_sheetcount job)) ∧
  (j_sigsheets job ≠ 0 → e = 0).
Proof.
  intros [Hf Hw] HN Hpf Hp. unfold charged_sheets, whole_sheetcount.
  destruct (Z.eqb_spec (j_sigsheets job) 0) as [E|E]; cbn [negb].
  - rewrite Z.quot_div_nonneg by lia.
    assert (0 ≤ (pagemask_count job + j_N job - 1) / j_N job) as Hs by (apply Z.div_pos; lia).
    destruct Hpf as [E1|E2].
    + rewrite E1, Z.eqb_refl. split; [lia|]. split; [|done]. intros _.
      rewrite sheets_that_none; [done|]. intros r. by apply fronts_only.
    + rewrite E2. destruct (Z.eqb_spec (j_N job * 2) (j_N job)); [lia|].
      rewrite Z.quot_div_nonneg, Z.rem_mod_nonneg by lia. rewrite <- up_twice by done.
      pose proof (Z.mod_pos_bound ((pagemask_count job + j_N job - 1) / j_N job) 2 ltac:(done)) as Hm.
      assert (0 ≤ (pagemask_count job + j_N job - 1) / j_N job / 2) by (apply Z.div_pos; lia).
      split; [done|]. split; [|done]. intros _. symmetry. apply sheets_that_first; [lia|].
      intros r. by apply backs_first.
  - destruct Hw as [?|[[HN2 HS Hf'] Hboth]]; [done|]. unfold both_sides in Hboth.
    rewrite Hboth, Z.eqb_refl, HN2.
    replace (2 * 2 * j_sigsheets job) with (4 * j_sigsheets job) by lia.
    rewrite !Z.quot_div_nonneg by lia. change (2 * 2) with 4. split; [lia|]. by split.
Qed.

(** C19: what is charged for is what is printed.  Of a job that is printed whole,
    with [N] pages on a side, on one or both sides of the sheets,
    page_computations() computes how many sheets a copy has; compute_charge()
    charges, copy by copy, for that many: at the price of a duplex sheet for
    every sheet that has a page on its back, and at that of a simplex sheet for
    every other; folded, all of them are duplex sheets. *)
Theorem the_sheets_charged_are_the_sheets_printed s dprice sprice copies :
  let job := d_job s in
  whole job → known_order job → 0 < j_N job →
  j_pagefactor job = j_N job ∨ j_pagefactor job = j_N job * 2 →
  0 ≤ pagemask_count job → 0 ≤ copies →
  ∃ s', page_computations s = Done tt s' ∧
    let c := compute_charge dprice sprice (pagemask_count job) (j_N job) (j_pagefactor job)
               (j_sigsheets job) (j_sigpart job) copies in
    duplex_sheets c + simplex_sheets c = copies * d_sheetcount s' ∧
    (j_sigsheets job = 0 →
      duplex_sheets c = copies * sheets_that (printed_on_the_back job) (d_sheetcount s') ∧
      simplex_sheets c = copies * sheets_that (λ r, negb (printed_on_the_back job r)) (d_sheetcount s')) ∧
    (j_sigsheets job ≠ 0 → simplex_sheets c = 0) ∧
    total c = duplex_sheets c * dprice + simplex_sheets c * sprice.
Proof.
  intros job Hw Ho HN Hpf Hp Hc. exists (computed s). split; [by apply page_computations_done|].
  change (d_sheetcount (computed s)) with (whole_sheetcount job). cbv zeta. unfold compute_charge.
  rewrite (proj2 (Z.leb_le 0 copies)) by done.
  pose proof (one_copy_charged job Hw HN Hpf Hp) as H1.
  destruct (charged_sheets _ _ _ _ _) as [d e]. destruct H1 as (Hsum & Hd & He).
  pose proof (proj1 (whole_sheetcount_enough job Hw Hp)) as [Hn _].
  cbn [duplex_sheets simplex_sheets total]. split; [lia|]. split; [|split; [|done]].
  - intros E. specialize (Hd E). rewrite sheets_that_others, <- Hd by done. split; [lia|].
    replace (whole_sheetcount job - d) with e by lia. lia.
  - intros E. rewrite He by done. done.
Qed.

Definition sample_duplex : QEntryFile := set_j_pages 5 (set_j_pagefactor 2 sample_job).

(** Five pages on three sheets, of which two have a back. *)
Lemma the_sheets_charged_are_the_sheets_printed_witness :
  ∃ s', page_computations (sample_driver sample_duplex) = Done tt s' ∧
    let c := compute_charge 8 5 5 1 2 0 0 3 in
    duplex_sheets c + simplex_sheets c = 3 * d_sheetcount s' ∧ duplex_sheets c = 6 ∧ total c = 63.
Proof.
  destruct (the_sheets_charged_are_the_sheets_printed (sample_driver sample_duplex) 8 5 3)
    as (s' & E & H1 & _).
  - split; [done | by left].
  - right; left.
  - done.
  - by right.
  - done.
  - done.
  - exists s'. split; [exact E|]. split; [exact H1|]. split; reflexivity.
Defined.
