(* ===== verification/QueueFile.v ===== *)
(** The queue file of a job: qentryfile_save() (src/libppr/qentryfile_save.c)
    and qentryfile_load() (src/libppr/qentryfile_load.c), with the writing of
    floating point numbers (src/libgu/gu_dtostr.c).  What is written to the log
    about a bad line is left out. *)
From S2P Require Import Prelude.
From S2P Require Import Text.
From S2P Require Import Spooler.
From S2P Require Import JobFile.

(** * gu_dtostr() *)

(** The number is the decimal it was read from; as long as its whole part is
    small the binary fraction differs from it by less than the half unit of
    the fourth place that is added before the rest is cut off. *)
Fixpoint four_digits (n : nat) (frac : Z) (later : string) : string :=
  match n with
  | O => later
  | S n' =>
      let y := Z.rem frac 10 in
      four_digits n' (Z.quot frac 10)
        (if (y =? 0) && String.eqb later EmptyString then later
         else String (digit_char false y) later)
  end.

Definition ten_thousandths (fraction : string) : Z :=
  let digits := String.length fraction in
  (digits_value 10 gu_ascii_digit_value fraction * 20000 + 10 ^ Z.of_nat digits)
  / (2 * 10 ^ Z.of_nat digits).

Definition gu_dtostr (sign whole : Z) (fraction : string) : string :=
  let negative :=
    (sign <? 0)
    && ((0 <? whole) || (0 <? digits_value 10 gu_ascii_digit_value fraction)) in
  if 999999999 <? whole then "<overflow>"
  else
    let frac := four_digits 4 (ten_thousandths fraction) EmptyString in
    (if negative then "-" else EmptyString)
    +:+ fmt_d whole +:+ (if String.eqb frac EmptyString then EmptyString else String "." frac).

Example gu_dtostr_test :
  map (λ f, gu_dtostr (-1) 3 f) ["14159"; "10"; "0"; "00004"] = ["-3.1416"; "-3.1"; "-3"; "-3"].
Proof. vm_compute. reflexivity. Qed.

(** The rounding carries into no digit before the point. *)
Example gu_dtostr_lost_carry : gu_dtostr 1 0 "99996" = "0".
Proof. vm_compute. reflexivity. Qed.

Definition dtostr (v : scanval) : string :=
  match v with
  | VDec sign whole fraction => gu_dtostr sign whole fraction
  | _ => EmptyString
  end.

(** * Saving *)

Definition SHORT_VERSION : string := "2.00a1".

Definition if_set (name : string) (v : option string) : list string :=
  match v with Some s => [name +:+ s] | None => [] end.

Definition not_empty (v : option string) : option string :=
  match v with Some EmptyString => None | _ => v end.

Definition words (l : list string) : string := String.concat " " l.

Definition PPRD_line (job : QEntryFile) : string :=
  "PPRD: " +:+ fmt_X 2 (u32 (j_priority job)) +:+ " " +:+ fmt_X 8 (j_sequence_number job)
  +:+ " " +:+ fmt_X 2 (u32 (j_status job * -1)) +:+ " " +:+ fmt_X 4 (j_flags job) +:+ spaces 38.

Definition or_else (v : option string) (other : string) : string :=
  match v with Some s => s | None => other end.

(** Up to "EndMisc", after the first line. *)
Definition misc_lines (job : QEntryFile) (user cookie name address : string) : list string :=
  ["User: " +:+ user; "PPRVersion: " +:+ SHORT_VERSION]
  ++ if_set "LC_MESSAGES: " (j_lc_messages job)
  ++ ["Time: " +:+ fmt_d (j_time job); "MagicCookie: " +:+ cookie;
      "For: " +:+ or_else (j_For job) "???"]
  ++ if_set "Charge-To: " (j_charge_to job)
  ++ if_set "Title: " (not_empty (j_Title job))
  ++ if_set "DraftNotice: " (j_draft_notice job)
  ++ if_set "Creator: " (j_Creator job)
  ++ if_set "Routing: " (j_Routing job)
  ++ if_set "lpqFileName: " (j_lpqFileName job)
  ++ ["Banners: " +:+ words [fmt_d (j_do_banner job); fmt_d (j_do_trailer job)];
      "Response: " +:+ words [name; address; or_else (j_responder_options job) EmptyString];
      "Commentary: " +:+ fmt_d (j_commentary job);
      "Attr-DSC: " +:+ words [dtostr (j_DSClevel job); or_else (j_DSC_job_type job) "NULL";
        fmt_d (j_orientation job); fmt_d (j_proofmode job); fmt_d (j_docdata job)];
      "Attr-DSC-Sections: " +:+ words [fmt_d (j_prolog job); fmt_d (j_docsetup job);
        fmt_d (j_script job)];
      "Attr-LangLevel: " +:+ words [fmt_d (j_langlevel job); fmt_d (j_extensions job)];
      "Attr-Pages: " +:+ words [fmt_d (j_pages job); fmt_d (j_pageorder job);
        fmt_d (j_pagefactor job)];
      "Attr-ByteCounts: " +:+ words [fmt_d (j_input_bytes job); fmt_d (j_postscript_bytes job)];
      "Attr-Parts: " +:+ fmt_d (j_parts job);
      "Opts: " +:+ words [fmt_d (j_binselect job); fmt_d (j_copies job); fmt_d (j_collate job);
        fmt_d (j_keep_badfeatures job); fmt_u false 10 (u32 (j_hacks job))];
      "N-Up: " +:+ words [fmt_d (j_N job); fmt_d (j_borders job); fmt_d (j_sigsheets job);
        fmt_d (j_sigpart job); fmt_d (j_job_does_n_up job)]]
  ++ if_set "Filters: " (j_Filters job)
  ++ if_set "PassThruPDL: " (j_PassThruPDL job)
  ++ ["StripPrinter: " +:+ fmt_d (j_StripPrinter job)]
  ++ match j_page_mask job with
     | Some mask => ["PageList: " +:+ words [fmt_d (j_page_count job); mask]]
     | None => []
     end
  ++ if_set "Question: " (j_question job)
  ++ if_set "RIPopts: " (j_ripopts job).

(** The attributes for the IPP server. *)
Definition ipp_lines (job : QEntryFile) (user : string) : list string :=
  ["job-originating-user-name " +:+ user]
  ++ if_set "job-name "
       (match not_empty (j_Title job) with Some t => Some t | None => j_lpqFileName job end)
  ++ ["job-k-octets " +:+ fmt_d (Z.quot
        ((match j_PassThruPDL job with
          | Some _ => j_input_bytes job | None => j_postscript_bytes job end) + 512) 1024);
      "job-impressions " +:+ fmt_d (Z.quot (j_pages job + j_N job - 1) (j_N job));
      "job-media-sheets " +:+ fmt_d
        (Z.quot (j_pages job + j_pagefactor job - 1) (j_pagefactor job) * j_copies job)].

Fixpoint text_of (lines : list string) : string :=
  match lines with
  | [] => EmptyString
  | l :: lines' => l +:+ String (chr 10) (text_of lines')
  end.

Inductive save_result :=
| Saved (text : string)
| SaveThrow (msg : string)
| SaveUndef.

(** To print a NULL pointer as a string, and to divide by zero, is undefined. *)
Definition qentryfile_save (job : QEntryFile) : save_result :=
  if negb (strlen (PPRD_line job) + 1 =? 64) then SaveThrow "PPRD line is not 64 bytes long!"
  else
    match j_user job, j_magic_cookie job, j_responder_name job, j_responder_address job with
    | Some user, Some cookie, Some name, Some address =>
        if (j_N job =? 0) || (j_pagefactor job =? 0) then SaveUndef
        else
          Saved (text_of ([PPRD_line job] ++ misc_lines job user cookie name address
            ++ ["EndMisc"] ++ ipp_lines job user ++ ["EndIPP"]))
    | _, _, _, _ => SaveUndef
    end.

(** * Loading *)

Definition gu_getline (text : string) : option (string * string) :=
  match text with
  | EmptyString => None
  | _ => let '(line, rest) := fgets_line text in Some (rtrim line, rest)
  end.

(** The job as it is so far, the names of the lines that have been found, and
    what will be returned. *)
Record loading := mkLoading {
  l_job : QEntryFile;
  l_found : list string;
  l_retcode : Z;
}.

Definition store : Type := scanval → QEntryFile → QEntryFile.

Definition to_int (set : Z → QEntryFile → QEntryFile) : store := λ v,
  match v with VInt n => set n | _ => id end.

Definition to_str (set : option string → QEntryFile → QEntryFile) : store := λ v,
  match v with VStr s => set (Some s) | _ => id end.

(** What gu_sscanf() has converted is stored, also when it does not get to the
    end. *)
Fixpoint apply_stores (stores : list store) (vals : list scanval) (job : QEntryFile)
    : QEntryFile :=
  match stores, vals with
  | st :: stores', v :: vals' => apply_stores stores' vals' (st v job)
  | _, _ => job
  end.

Inductive next :=
| Continue (st : loading)
| ReturnMinus1 (st : loading)
| LoadThrow (msg : string)
| LoadUndef.

Definition on_job (f : QEntryFile → QEntryFile) (st : loading) : loading :=
  mkLoading (f (l_job st)) (l_found st) (l_retcode st).

Definition failed (st : loading) : loading := mkLoading (l_job st) (l_found st) (-1).

Definition scan_into (text format : string) (stores : list store) (st : loading)
    (k : Z → loading → next) : next :=
  match gu_sscanf text format [] with
  | Scanned n vals => k n (on_job (apply_stores stores vals) st)
  | ScanThrow msg => LoadThrow msg
  | ScanUndef => LoadUndef
  end.

(** The macro MATCH(); [want] is the smallest count that will do, and the
    count cannot be larger than the number of conversions. *)
Definition MATCH (name format : string) (want : Z) (stores : list store)
    (line : string) (st : loading) (otherwise : loading → next) : next :=
  if String.prefix name line then
    scan_into (str_drop (String.length name) line) format stores
      (mkLoading (l_job st) (name :: l_found st) (l_retcode st))
      (λ n st', Continue (if n <? want then failed st' else st'))
  else otherwise st.

Definition ATTR (name format : string) (want : Z) (stores : list store)
    (line : string) (st : loading) (otherwise : loading → next) : next :=
  match lmatchp line name with
  | Some p =>
      scan_into p format stores st (λ n st', if n <? want then ReturnMinus1 st' else Continue st')
  | None => otherwise st
  end.

Definition unrecognized (st : loading) : next := Continue (failed st).

(** A float, and the name of the type of document, which may be NULL. *)
Definition to_float (set : scanval → QEntryFile → QEntryFile) : store := set.

Definition no_NULL_type (job : QEntryFile) : QEntryFile :=
  match j_DSC_job_type job with
  | Some t => if String.eqb t "NULL" then set_j_DSC_job_type None job else job
  | None => job
  end.

Definition load_A (line : string) (st : loading) : next :=
  match lmatchp line "Attr-DSC:" with
  | Some p =>
      scan_into p "%f %S %d %d %d"
        [to_float set_j_DSClevel; to_str set_j_DSC_job_type; to_int set_j_orientation;
         to_int set_j_proofmode; to_int set_j_docdata] st
        (λ n st', if n <? 5 then ReturnMinus1 st' else Continue (on_job no_NULL_type st'))
  | None =>
      ATTR "Attr-DSC-Sections:" "%d %d %d" 3
        [to_int set_j_prolog; to_int set_j_docsetup; to_int set_j_script] line st (λ st,
      ATTR "Attr-LangLevel:" "%d %d" 2 [to_int set_j_langlevel; to_int set_j_extensions] line st (λ st,
      ATTR "Attr-Pages:" "%d %d %d" 3
        [to_int set_j_pages; to_int set_j_pageorder; to_int set_j_pagefactor] line st (λ st,
      ATTR "Attr-ByteCounts:" "%ld %ld" 2
        [to_int set_j_input_bytes; to_int set_j_postscript_bytes] line st (λ st,
      ATTR "Attr-Parts:" "%d" 1 [to_int set_j_parts] line st unrecognized))))
  end.

Definition load_C (line : string) (st : loading) : next :=
  MATCH "Charge-To: " "%W" 1 [to_str set_j_charge_to] line st (λ st,
  MATCH "Creator: " "%T" 1 [to_str set_j_Creator] line st (λ st,
  MATCH "Commentary: " "%d" 1 [to_int set_j_commentary] line st unrecognized)).

Definition load_N (line : string) (st : loading) : next :=
  MATCH "N-Up: " "%d %d %d %d %d" 5
    [to_int set_j_N; to_int set_j_borders; to_int set_j_sigsheets; to_int set_j_sigpart;
     to_int set_j_job_does_n_up] line st unrecognized.

Definition load_O (line : string) (st : loading) : next :=
  MATCH "Opts: " "%d %d %d %d %u" 5
    [to_int set_j_binselect; to_int set_j_copies; to_int set_j_collate;
     to_int set_j_keep_badfeatures; to_int set_j_hacks] line st unrecognized.

(** %hx stores a short: of the int priority, in a machine that has its low
    byte first, the lower half. *)
Definition store_low_half (old new : Z) : Z := Z.lor (Z.ldiff old 65535) (u16 new).

Definition negate_status (job : QEntryFile) : QEntryFile :=
  set_j_status (i16 (j_status job * -1)) job.

Definition load_P (line : string) (st : loading) : next :=
  scan_into line "PPRD: %hx %x %hx %hx"
    [to_int (λ n job, set_j_priority (store_low_half (j_priority job) n) job);
     to_int set_j_sequence_number; to_int (λ n, set_j_status (i16 n)); to_int set_j_flags] st
    (λ n st, if n =? 4 then Continue (on_job negate_status st) else
  scan_into line "PPRVersion: %f" [to_float set_j_PPRVersion] st
    (λ n st, if n =? 1 then Continue st else
  MATCH "PassThruPDL: " "%T" 1 [to_str set_j_PassThruPDL] line st (λ st,
  scan_into line "PageList: %d %T" [to_int set_j_page_count; to_str set_j_page_mask] st
    (λ n st, if n =? 2 then Continue st else unrecognized st)))).

Definition load_R (line : string) (st : loading) : next :=
  MATCH "Routing: " "%T" 1 [to_str set_j_Routing] line st (λ st,
  MATCH "Response: " "%S %S %T" 2
    [to_str set_j_responder_name; to_str set_j_responder_address; to_str set_j_responder_options]
    line st (λ st,
  MATCH "RIPopts: " "%T" 1 [to_str set_j_ripopts] line st unrecognized)).

Definition load_S (line : string) (st : loading) : next :=
  scan_into line "StripPrinter: %d"
    [to_int (λ n, set_j_StripPrinter (if n =? 0 then 0 else 1))] st
    (λ n st, if n =? 1 then Continue st else unrecognized st).

(** The switch on the first character of the line. *)
Definition load_line (line : string) (st : loading) : next :=
  match line with
  | EmptyString => ReturnMinus1 st
  | String "A" _ => load_A line st
  | String "B" _ =>
      MATCH "Banners: " "%d %d" 2 [to_int set_j_do_banner; to_int set_j_do_trailer]
        line st unrecognized
  | String "C" _ => load_C line st
  | String "D" _ => MATCH "DraftNotice: " "%T" 1 [to_str set_j_draft_notice] line st unrecognized
  | String "F" _ =>
      MATCH "For: " "%T" 1 [to_str set_j_For] line st (λ st,
      MATCH "Filters: " "%T" 1 [to_str set_j_Filters] line st unrecognized)
  | String "L" _ => MATCH "LC_MESSAGES: " "%S" 1 [to_str set_j_lc_messages] line st unrecognized
  | String "l" _ => MATCH "lpqFileName: " "%A" 1 [to_str set_j_lpqFileName] line st unrecognized
  | String "M" _ => MATCH "MagicCookie: " "%S" 1 [to_str set_j_magic_cookie] line st unrecognized
  | String "N" _ => load_N line st
  | String "O" _ => load_O line st
  | String "P" _ => load_P line st
  | String "Q" _ => MATCH "Question: " "%T" 1 [to_str set_j_question] line st unrecognized
  | String "R" _ => load_R line st
  | String "S" _ => load_S line st
  | String "T" _ =>
      MATCH "Time: " "%U" 1 [to_int set_j_time] line st (λ st,
      MATCH "Title: " "%T" 1 [to_str set_j_Title] line st unrecognized)
  | String "U" _ => MATCH "User: " "%T" 1 [to_str set_j_user] line st unrecognized
  | _ => unrecognized st
  end.

Definition required : list string :=
  ["Time: "; "Opts: "; "User: "; "For: "; "Response: "; "N-Up: "; "Banners: "].

Definition found (name : string) (st : loading) : bool := existsb (String.eqb name) (l_found st).

Definition retcode (st : loading) : Z :=
  if forallb (λ name, found name st) required then l_retcode st else -1.

(** What qentryfile_load() returns, the job, and what is left of the file. *)
Inductive load_result :=
| Loaded (retcode : Z) (job : QEntryFile) (rest : string)
| LoadThrows (msg : string)
| LoadUndefined
| LoadFuel.

(** Up to "EndIPP"; a line takes a character at least. *)
Fixpoint skip_ipp (fuel : nat) (text : string) : option string :=
  match fuel with
  | O => None
  | S fuel' =>
      match gu_getline text with
      | None => Some EmptyString
      | Some (line, rest) => if String.eqb line "EndIPP" then Some rest else skip_ipp fuel' rest
      end
  end.

Definition finish (st : loading) (text : string) : load_result :=
  match skip_ipp (S (String.length text)) text with
  | Some rest => Loaded (retcode st) (l_job st) rest
  | None => LoadFuel
  end.

Fixpoint load_lines (fuel : nat) (text : string) (st : loading) : load_result :=
  match fuel with
  | O => LoadFuel
  | S fuel' =>
      match gu_getline text with
      | None => finish st EmptyString
      | Some (line, rest) =>
          if String.eqb line "EndMisc" then finish st rest
          else
            match load_line line st with
            | Continue st' => load_lines fuel' rest st'
            | ReturnMinus1 st' => Loaded (-1) (l_job st') rest
            | LoadThrow msg => LoadThrows msg
            | LoadUndef => LoadUndefined
            end
      end
  end.

Definition qentryfile_load (job : QEntryFile) (text : string) : load_result :=
  load_lines (S (String.length text)) text (mkLoading job [] 0).
