(* ===== verification/PropQueueFile.v ===== *)
(** Properties of the queue file: what qentryfile_save() has written
    qentryfile_load() reads back. *)
From S2P Require Import Prelude.
From S2P Require Import Text.
From S2P Require Import TextFacts.
From S2P Require Import Spooler.
From S2P Require Import QueueStatus.
From S2P Require Import QueueAccept.
From S2P Require Import PropText.
From S2P Require Import JobFile.
From S2P Require Import Pages.
From S2P Require Import QueueFile.

(** * Lines *)

Definition no_newline (s : string) : Prop := Forall (λ c, code c ≠ 10) (chars s).

(** The last character is not white space. *)
Definition solid (s : string) : Prop :=
  match rev (chars s) with c :: _ => gu_ascii_isspace c = false | [] => True end.

(** What can stand at the end of a line. *)
Definition text (s : string) : Prop := s ≠ EmptyString ∧ solid s ∧ no_newline s.

Lemma rtrim_solid s : solid s → rtrim s = s.
Proof.
  unfold solid, rtrim. destruct (rev (chars s)) as [|c l] eqn:E; intros Hc; simpl.
  - apply (f_equal (@rev ascii)) in E. rewrite rev_involutive in E. simpl in E.
    rewrite <- (of_chars_chars s), E. done.
  - unfold drop_while. simpl. rewrite Hc. simpl.
    rewrite chars_of_chars. change (rev l ++ [c]) with (rev (c :: l)).
    rewrite <- E, rev_involutive. apply of_chars_chars.
Qed.

Lemma rtrim_spaces s k : rtrim (s +:+ spaces k) = rtrim s.
Proof.
  revert s. induction k as [|k IH]; intros s; simpl; [by rewrite str_app_nil_r|].
  change (String " " (spaces k)) with (String " " EmptyString +:+ spaces k).
  rewrite <- str_app_assoc, IH. by apply rtrim_space.
Qed.

Lemma solid_app a b : b ≠ EmptyString → solid b → solid (a +:+ b).
Proof.
  intros Hne. unfold solid. rewrite chars_app, rev_app_distr.
  destruct (rev (chars b)) eqn:E; [|done].
  apply (f_equal (@rev ascii)) in E. rewrite rev_involutive in E. simpl in E.
  by rewrite <- (of_chars_chars b), E in Hne.
Qed.

Lemma no_newline_check s : forallb (λ c, negb (code c =? 10)) (chars s) = true → no_newline s.
Proof.
  intros H. unfold no_newline. induction (chars s) as [|c l IH]; [constructor|].
  simpl in H. apply andb_true_iff in H as [Hc Hl]. constructor; [|by apply IH].
  by apply Z.eqb_neq, negb_true_iff.
Qed.

Lemma no_newline_app a b : no_newline a → no_newline b → no_newline (a +:+ b).
Proof. unfold no_newline. rewrite chars_app. intros. by apply Forall_app. Qed.

Lemma text_app a b : no_newline a → text b → text (a +:+ b).
Proof.
  intros Ha (Hne & Hs & Hb). split; [|split; [by apply solid_app | by apply no_newline_app]].
  destruct a; [done|]. by rewrite str_cons_app.
Qed.

Lemma word_no_newline w : word w → no_newline w.
Proof.
  intros [_ Hw]. eapply Forall_impl; [exact Hw|]. intros c Hc E.
  unfold gu_ascii_isspace in Hc. by rewrite E in Hc.
Qed.

Lemma word_text w : word w → text w.
Proof.
  intros Hw. split; [apply Hw|]. split; [|by apply word_no_newline].
  destruct Hw as [_ Hw]. unfold solid. destruct (rev (chars w)) as [|c l] eqn:E; [done|].
  rewrite Forall_forall in Hw. apply Hw. apply list_elem_of_In, in_rev. rewrite E. by left.
Qed.

Lemma digits_word s : s ≠ EmptyString → Forall (λ c, gu_ascii_isdigit c = true) (chars s) → word s.
Proof.
  intros Hne Hs. split; [done|]. eapply Forall_impl; [exact Hs|]. apply digit_not_space.
Qed.

Lemma fmt_u_word n : 0 ≤ n → word (fmt_u false 10 n).
Proof.
  intros Hn. apply digits_word; [|by apply (fmt_u_digits false 10 _ _ ltac:(lia) dec_digits)].
  destruct (fmt_u_cons false 10 _ _ ltac:(lia) dec_digits n Hn) as (c & s & -> & _). done.
Qed.

Lemma fmt_d_word n : word (fmt_d n).
Proof.
  unfold fmt_d. destruct (Z.ltb_spec n 0); [|by apply fmt_u_word].
  destruct (fmt_u_word (- n)) as [_ Hw]; [lia|]. split; [done|].
  change (chars (String "-" ?s)) with ("-"%char :: chars s). by constructor.
Qed.

Lemma fmt_d_text n : text (fmt_d n).
Proof. apply word_text, fmt_d_word. Qed.

(** * The loop over the lines *)

Lemma fgets_line_line l rest :
  no_newline l →
  fgets_line (l +:+ String (chr 10) rest) = (l +:+ String (chr 10) EmptyString, rest).
Proof.
  intros Hl. unfold fgets_line. rewrite span_app; [done | | done].
  eapply Forall_impl; [exact Hl|]. intros c Hc. by apply negb_true_iff, Z.eqb_neq.
Qed.

Lemma getline_line l rest :
  no_newline l → gu_getline (l +:+ String (chr 10) rest) = Some (rtrim l, rest).
Proof.
  intros Hl. unfold gu_getline. rewrite fgets_line_line by done.
  rewrite rtrim_space by done. by destruct l.
Qed.

Lemma text_of_cons l ls rest :
  text_of (l :: ls) +:+ rest = l +:+ String (chr 10) (text_of ls +:+ rest).
Proof. simpl. by rewrite str_app_assoc, str_cons_app. Qed.

Lemma text_of_app a b : text_of (a ++ b) = text_of a +:+ text_of b.
Proof.
  induction a as [|l a IH]; [done|]. simpl app. rewrite text_of_cons. simpl. by rewrite IH.
Qed.

(** From [st] to [st']: the job changed by [f], the lines of [P] found. *)
Record advanced (P : list string) (f : QEntryFile → QEntryFile) (st st' : loading) : Prop := {
  adv_job : l_job st' = f (l_job st);
  adv_retcode : l_retcode st' = l_retcode st;
  adv_found : ∀ n, n ∈ P ∨ found n st = true → found n st' = true;
}.

(** The lines are read, and so much comes of it. *)
Definition runs (ls : list string) (P : list string) (f : QEntryFile → QEntryFile) : Prop :=
  ∀ st, ∃ st', (∀ fuel rest,
    load_lines (length ls + fuel) (text_of ls +:+ rest) st = load_lines fuel rest st') ∧
    advanced P f st st'.

Lemma runs_nil : runs [] [] id.
Proof.
  intros st. exists st. split; [done|]. split; [done | done|]. intros n [Hn|Hn]; [|done].
  by apply elem_of_nil in Hn.
Qed.

Lemma runs_app a b P Q f g : runs a P f → runs b Q g → runs (a ++ b) (P ++ Q) (λ job, g (f job)).
Proof.
  intros Ha Hb st. destruct (Ha st) as (st1 & E1 & [J1 R1 F1]).
  destruct (Hb st1) as (st2 & E2 & [J2 R2 F2]). exists st2. split; [|split].
  - intros fuel rest. rewrite length_app, text_of_app, str_app_assoc, <- Nat.add_assoc.
    by rewrite E1, E2.
  - by rewrite J2, J1.
  - by rewrite R2, R1.
  - intros n [Hn|Hn]; [apply elem_of_app in Hn as [Hn|Hn]|]; auto.
Qed.

Lemma runs_cons l ls P Q f g : runs [l] P f → runs ls Q g → runs (l :: ls) (P ++ Q) (λ job, g (f job)).
Proof. apply (runs_app [l]). Qed.

Lemma runs_line l P f :
  no_newline l → String.eqb (rtrim l) "EndMisc" = false →
  (∀ st, ∃ st', load_line (rtrim l) st = Continue st' ∧ advanced P f st st') → runs [l] P f.
Proof.
  intros Hl He Hrun st. destruct (Hrun st) as (st' & E & Ha). exists st'. split; [|done].
  intros fuel rest. rewrite text_of_cons. cbn [length Nat.add load_lines].
  rewrite getline_line by done. rewrite He, E. done.
Qed.

Lemma runs_text l P f :
  text l → String.eqb l "EndMisc" = false →
  (∀ st, ∃ st', load_line l st = Continue st' ∧ advanced P f st st') → runs [l] P f.
Proof.
  intros (Hne & Hs & Hl) He Hrun. apply runs_line; rewrite ?(rtrim_solid l Hs); done.
Qed.

Definition maybe_set (set : option string → QEntryFile → QEntryFile) (v : option string)
    (job : QEntryFile) : QEntryFile :=
  match v with Some _ => set v job | None => job end.

Lemma runs_if_set name v set :
  (∀ s, v = Some s → ∃ P, runs [name +:+ s] P (set (Some s))) →
  runs (if_set name v) [] (maybe_set set v).
Proof.
  intros H. destruct v as [s|]; [|apply runs_nil]. destruct (H s eq_refl) as (P & Hs).
  intros st. destruct (Hs st) as (st' & E & [J R F]). exists st'. split; [exact E|].
  split; [done..|]. intros n [Hn|Hn]; [by apply elem_of_nil in Hn | auto].
Qed.

(** * The lines one by one *)

Lemma prefix_app a b : String.prefix a (a +:+ b) = true.
Proof.
  induction a as [|c a IH]; [by destruct b|]. rewrite str_cons_app. simpl.
  destruct (ascii_dec c c); [done | congruence].
Qed.

Lemma found_on_job n f st : found n (on_job f st) = found n st.
Proof. reflexivity. Qed.

Lemma on_job_twice g f st : on_job g (on_job f st) = on_job (λ job, g (f job)) st.
Proof. reflexivity. Qed.

Lemma on_job_advanced P f st :
  (∀ n, n ∈ P → found n st = true) → advanced P f st (on_job f st).
Proof. intros H. split; [done | done|]. intros n [Hn|Hn]; [by apply H | done]. Qed.

Lemma on_job_advanced_nil f st : advanced [] f st (on_job f st).
Proof. apply on_job_advanced. intros n Hn. by apply elem_of_nil in Hn. Qed.

Lemma runs_MATCH_trimmed l name fmt want stores v n vals :
  (∀ st, ∃ k, load_line (name +:+ v) st = MATCH name fmt want stores (name +:+ v) st k) →
  no_newline l → rtrim l = name +:+ v → String.eqb (name +:+ v) "EndMisc" = false →
  gu_sscanf v fmt [] = Scanned n vals → want ≤ n →
  runs [l] [name] (apply_stores stores vals).
Proof.
  intros Hload Hl Hr He Hscan Hn. apply runs_line; rewrite ?Hr; [done..|].
  intros st. destruct (Hload st) as (k & ->). unfold MATCH, scan_into.
  rewrite prefix_app, str_drop_app, Hscan, (proj2 (Z.ltb_ge _ _)) by done.
  eexists. split; [done|]. split; [done | done|]. intros m [Hm|Hm]; unfold found in *; simpl.
  - apply list_elem_of_singleton in Hm as ->. by rewrite String.eqb_refl.
  - by rewrite Hm, orb_true_r.
Qed.

Lemma runs_MATCH name fmt want stores v n vals :
  (∀ st, ∃ k, load_line (name +:+ v) st = MATCH name fmt want stores (name +:+ v) st k) →
  no_newline name → text v → String.eqb (name +:+ v) "EndMisc" = false →
  gu_sscanf v fmt [] = Scanned n vals → want ≤ n →
  runs [name +:+ v] [name] (apply_stores stores vals).
Proof.
  intros Hload Hname Hv He Hscan Hn. pose proof (text_app name v Hname Hv) as (_ & Hs & Hl).
  by apply (runs_MATCH_trimmed _ name fmt want stores v n); rewrite ?rtrim_solid.
Qed.

Lemma lmatchp_hit name v :
  starts_outside is_blank v → lmatchp (name +:+ " " +:+ v) name = Some v.
Proof.
  intros Hv. unfold lmatchp. rewrite prefix_app, str_drop_app.
  unfold drop_while. simpl. destruct v as [|c v]; [done|]. simpl in *. by rewrite Hv.
Qed.

Lemma runs_ATTR name fmt want stores v n vals :
  (∀ st, ∃ k, load_line (name +:+ " " +:+ v) st
    = ATTR name fmt want stores (name +:+ " " +:+ v) st k) →
  no_newline name → text v → starts_outside is_blank v →
  String.eqb (name +:+ " " +:+ v) "EndMisc" = false →
  gu_sscanf v fmt [] = Scanned n vals → want ≤ n →
  runs [name +:+ " " +:+ v] [] (apply_stores stores vals).
Proof.
  intros Hload Hname Hv Hb He Hscan Hn.
  apply runs_text; [apply text_app; [done|]; apply text_app; [by repeat constructor | done] | done|].
  intros st. destruct (Hload st) as (k & ->). unfold ATTR, scan_into.
  rewrite lmatchp_hit, Hscan, (proj2 (Z.ltb_ge _ _)) by done.
  eexists. split; [done|]. apply on_job_advanced_nil.
Qed.

Lemma starts_fmt_d n : starts_outside gu_ascii_isspace (fmt_d n).
Proof. destruct (fmt_d_cons n) as (c & s & -> & Hc). exact Hc. Qed.

Lemma starts_fmt_u n : 0 ≤ n → starts_outside gu_ascii_isspace (fmt_u false 10 n).
Proof.
  intros Hn. destruct (fmt_u_word n Hn) as [Hne Hw].
  destruct (fmt_u false 10 n); [done|]. by apply Forall_cons in Hw as [Hc _].
Qed.

Lemma starts_word w rest : word w → starts_outside gu_ascii_isspace (w +:+ rest).
Proof. intros [Hne Hw]. destruct w; [done|]. by apply Forall_cons in Hw as [Hc _]. Qed.

Lemma space_blank s : starts_outside gu_ascii_isspace s → starts_outside is_blank s.
Proof.
  destruct s as [|c s]; [done|]. simpl. unfold gu_ascii_isspace, is_blank.
  intros H. by destruct c as [[] [] [] [] [] [] [] []].
Qed.

Lemma starts_blank_num n rest : starts_outside is_blank (fmt_d n +:+ rest).
Proof. apply space_blank, starts_outside_fmt_d. Qed.

Definition small (n : Z) : Prop := Z.abs n ≤ int_max.

(** Lists of numbers, of words. *)
Ltac scan :=
  unfold small in *; unfold gu_sscanf, words; cbn [String.concat String.length];
  match goal with |- context [strlen ?s] => generalize (strlen s); intros ? end;
  repeat first
    [ rewrite turn_d_end by (done || lia)
    | rewrite turn_d by (done || lia)
    | rewrite turn_spaced
        by first [apply starts_outside_fmt_d | apply starts_fmt_d | by apply starts_word | assumption] ];
  reflexivity.

Lemma scan_1 a : small a → gu_sscanf (fmt_d a) "%d" [] = Scanned 1 [VInt a].
Proof. intros. scan. Qed.

Lemma scan_2 a b :
  small a → small b → gu_sscanf (words [fmt_d a; fmt_d b]) "%d %d" [] = Scanned 2 [VInt a; VInt b].
Proof. intros. scan. Qed.

Lemma scan_3 a b c :
  small a → small b → small c →
  gu_sscanf (words [fmt_d a; fmt_d b; fmt_d c]) "%d %d %d" [] = Scanned 3 [VInt a; VInt b; VInt c].
Proof. intros. scan. Qed.

Lemma scan_5 a b c d e :
  small a → small b → small c → small d → small e →
  gu_sscanf (words [fmt_d a; fmt_d b; fmt_d c; fmt_d d; fmt_d e]) "%d %d %d %d %d" []
  = Scanned 5 [VInt a; VInt b; VInt c; VInt d; VInt e].
Proof. intros. scan. Qed.

Lemma scan_4u a b c d e :
  small a → small b → small c → small d → 0 ≤ e < 4294967296 →
  gu_sscanf (words [fmt_d a; fmt_d b; fmt_d c; fmt_d d; fmt_u false 10 e]) "%d %d %d %d %u" []
  = Scanned 5 [VInt a; VInt b; VInt c; VInt d; VInt e].
Proof.
  intros. pose proof (starts_fmt_u e ltac:(lia)).
  unfold small in *; unfold gu_sscanf, words; cbn [String.concat String.length].
  match goal with |- context [strlen ?s] => generalize (strlen s); intros len end.
  do 4 (rewrite turn_d by done; rewrite turn_spaced
    by first [apply starts_outside_fmt_d | apply starts_fmt_d | assumption]).
  by rewrite turn_u_end.
Qed.

Lemma scan_2l a b :
  Z.abs a ≤ long_max → Z.abs b ≤ long_max →
  gu_sscanf (words [fmt_d a; fmt_d b]) "%ld %ld" [] = Scanned 2 [VInt a; VInt b].
Proof.
  intros. unfold gu_sscanf, words; cbn [String.concat String.length].
  generalize (strlen (fmt_d a +:+ " " +:+ fmt_d b)). intros len.
  rewrite turn_ld by done. rewrite turn_spaced by apply starts_fmt_d.
  rewrite <- (str_app_nil_r (fmt_d b)). by rewrite turn_ld.
Qed.

Lemma scan_T v : text v → gu_sscanf v "%T" [] = Scanned 1 [VStr v].
Proof. intros (Hne & _ & Hv). unfold gu_sscanf. by rewrite (turn_T_end 1). Qed.

Lemma scan_S v : word v → gu_sscanf v "%S" [] = Scanned 1 [VStr v].
Proof.
  intros Hv. unfold gu_sscanf. cbn [String.length]. rewrite <- (str_app_nil_r v) at 2.
  by rewrite turn_S.
Qed.

Definition unquoted (s : string) : Prop := starts_outside is_quote s.

Lemma span_word v : word v → span not_blank v = (v, EmptyString).
Proof.
  intros [_ Hv]. pose proof (span_app not_blank v EmptyString) as E. rewrite str_app_nil_r in E.
  apply E; [|done]. eapply Forall_impl; [exact Hv|]. intros d Hd. unfold not_blank.
  apply negb_true_iff. destruct d as [[] [] [] [] [] [] [] []]; try reflexivity; discriminate Hd.
Qed.

Lemma scan_W v : word v → unquoted v → gu_sscanf v "%W" [] = Scanned 1 [VStr v].
Proof.
  intros Hv Hq. pose proof (span_word v Hv) as Es. unfold gu_sscanf. cbn [String.length].
  destruct v as [|c v]; [by destruct Hv|]. cbn [scan_loop]. simpl.
  change (convert _ _ _ _) with (conv_W (String c v)). unfold conv_W.
  simpl in Hq. by rewrite Hq, Es.
Qed.

Lemma scan_A v : text v → unquoted v → gu_sscanf v "%A" [] = Scanned 1 [VStr v].
Proof.
  intros (Hne & Hs & Hv) Hq. unfold gu_sscanf. cbn [String.length].
  destruct v as [|c v]; [done|]. cbn [scan_loop]. simpl.
  change (convert _ _ _ _) with (conv_A (String c v)). unfold conv_A.
  simpl in Hq. rewrite Hq. cbv zeta. by rewrite (rtrim_solid _ Hs).
Qed.

Lemma scan_U n : 0 ≤ n ≤ long_max → gu_sscanf (fmt_d n) "%U" [] = Scanned 1 [VInt n].
Proof.
  intros Hn. unfold fmt_d. rewrite (proj2 (Z.ltb_ge _ _)) by lia. unfold gu_sscanf.
  cbn [String.length]. generalize (strlen (fmt_u false 10 n)). intros len.
  destruct (fmt_u_cons false 10 _ _ ltac:(lia) dec_digits n) as (c & u & E & _); [lia|].
  rewrite E. cbn [scan_loop]. rewrite <- E. simpl.
  change (convert _ _ _ _) with (conv_U (fmt_u false 10 n)). unfold conv_U.
  pose proof (span_app gu_ascii_isdigit (fmt_u false 10 n) EmptyString) as Es.
  rewrite str_app_nil_r in Es.
  rewrite Es by (done || by apply (fmt_u_digits false 10 _ _ ltac:(lia) dec_digits); lia).
  rewrite (fmt_u_value false 10 _ _ ltac:(lia) dec_digits) by lia.
  by rewrite (proj2 (Z.ltb_ge _ _)) by lia.
Qed.

(** ** The first line *)

Definition pprd_fields (job : QEntryFile) : string :=
  pprd_text (u32 (j_priority job)) (j_sequence_number job) (u32 (j_status job * -1))
    (j_flags job) EmptyString.

Definition load_pprd (job : QEntryFile) : QEntryFile → QEntryFile := λ old,
  negate_status (apply_stores
    [to_int (λ n job, set_j_priority (store_low_half (j_priority job) n) job);
     to_int set_j_sequence_number; to_int (λ n, set_j_status (i16 n)); to_int set_j_flags]
    [VInt (u16 (u32 (u32 (j_priority job)))); VInt (u32 (j_sequence_number job));
     VInt (u16 (u32 (u32 (j_status job * -1)))); VInt (u16 (u32 (j_flags job)))] old).

Record good_state (job : QEntryFile) : Prop := {
  gs_priority : 0 ≤ j_priority job < 256;
  gs_sequence : 0 ≤ j_sequence_number job < 4294967296;
  gs_status : -255 ≤ j_status job ≤ 0;
  gs_flags : 0 ≤ j_flags job < 65536;
}.

Lemma fmt_X_word w n : 0 ≤ n → word (fmt_X w n).
Proof.
  intros Hn. destruct (fmt_X_cons w n Hn) as (c & s & E). split; [by rewrite E|].
  pose proof (fmt_X_span w n EmptyString Hn I) as Hs. rewrite str_app_nil_r in Hs.
  unfold fmt_X. rewrite chars_app. apply Forall_app. split.
  - induction (Z.to_nat _) as [|k IH]; constructor; [done|apply IH].
  - eapply Forall_impl; [by apply (fmt_u_digits true 16 _ _ ltac:(lia) hex_digits)|].
    intros d. simpl. unfold gu_ascii_isxdigit, gu_ascii_isdigit, gu_ascii_isspace. lia.
Qed.

Lemma no_newline_spaces k : no_newline (spaces k).
Proof. induction k as [|k IH]; constructor; [done | exact IH]. Qed.

Lemma u32_nonneg z : 0 ≤ u32 z.
Proof. apply (unsigned_wrap_range 32 z). lia. Qed.

Lemma PPRD_line_fields job : PPRD_line job = pprd_fields job +:+ spaces 38.
Proof.
  unfold PPRD_line, pprd_fields, pprd_text. rewrite str_app_nil_r.
  repeat (rewrite str_cons_app || rewrite str_app_assoc). done.
Qed.

Lemma pprd_fields_text job : good_state job → text (pprd_fields job).
Proof.
  intros [Hp Hn Hs Hf]. unfold pprd_fields, pprd_text. rewrite str_app_nil_r.
  assert (∀ w n t, 0 ≤ n → text t → text (fmt_X w n +:+ String " " t)) as L.
  { intros w n t Hn' Ht. apply text_app; [apply word_no_newline; by apply fmt_X_word|].
    apply (text_app " "); [by repeat constructor | done]. }
  apply (text_app "PPRD: "); [by repeat constructor|].
  apply L; [apply u32_nonneg|]. apply L; [lia|]. apply L; [apply u32_nonneg|].
  apply word_text, fmt_X_word. lia.
Qed.

Lemma PPRD_line_length job : good_state job → strlen (PPRD_line job) + 1 = 64.
Proof.
  intros [Hp Hn Hs Hf]. unfold PPRD_line. rewrite !strlen_app, strlen_spaces.
  rewrite !fmt_X_length_Z by (lia || rewrite ?u32_small by lia; simpl; lia). done.
Qed.

Lemma runs_PPRD job : good_state job → runs [PPRD_line job] [] (load_pprd job).
Proof.
  intros Hg. pose proof (pprd_fields_text job Hg) as (Hne & Hs & Hl). destruct (Hg) as [Hp Hn Hst Hf].
  assert (rtrim (PPRD_line job) = pprd_fields job) as Er
    by (by rewrite PPRD_line_fields, rtrim_spaces, rtrim_solid).
  apply runs_line; rewrite ?Er.
  - rewrite PPRD_line_fields. apply no_newline_app; [done | apply no_newline_spaces].
  - done.
  - intros st. unfold pprd_fields at 1. unfold pprd_text, load_line.
    fold (pprd_text (u32 (j_priority job)) (j_sequence_number job) (u32 (j_status job * -1))
      (j_flags job) EmptyString).
    unfold load_P, scan_into.
    change "PPRD: %hx %x %hx %hx" with pprd_format.
    rewrite scan_pprd_text; [|apply u32_nonneg | lia | apply u32_nonneg | lia | exact I].
    exists (on_job (load_pprd job) st). split; [reflexivity|]. apply on_job_advanced_nil.
Qed.

(** ** The other lines *)

Lemma runs_version : runs ["PPRVersion: " +:+ SHORT_VERSION] [] (set_j_PPRVersion (VDec 1 2 "00")).
Proof.
  apply runs_line; [by repeat constructor | done|].
  intros st. eexists. split; [reflexivity|]. split; [done | done|].
  intros n [Hx|Hx]; [by apply elem_of_nil in Hx | done].
Qed.

Definition opt (P : string → Prop) (v : option string) : Prop :=
  match v with Some s => P s | None => True end.

(** A text that does not begin with white space. *)
Definition phrase (s : string) : Prop := text s ∧ starts_outside gu_ascii_isspace s.

Lemma scan_SS name address :
  word name → word address →
  gu_sscanf (name +:+ " " +:+ address) "%S %S %T" [] = Scanned 2 [VStr name; VStr address].
Proof.
  intros Hn Ha. unfold gu_sscanf. cbn [String.length].
  match goal with |- context [strlen ?s] => generalize (strlen s); intros len end.
  rewrite turn_S by done. rewrite <- (str_app_nil_r address) at 1.
  rewrite turn_spaced by by apply starts_word. by rewrite turn_S.
Qed.

Lemma scan_SST name address options :
  word name → word address → phrase options →
  gu_sscanf (words [name; address; options]) "%S %S %T" []
  = Scanned 3 [VStr name; VStr address; VStr options].
Proof.
  intros Hn Ha [(Hne & _ & Hl) Hs]. unfold gu_sscanf, words. cbn [String.length String.concat].
  match goal with |- context [strlen ?s] => generalize (strlen s); intros len end.
  rewrite turn_S by done. rewrite turn_spaced by by apply starts_word.
  rewrite turn_S by done. rewrite turn_spaced by done. by rewrite turn_T_end.
Qed.

(** The responder's options may be missing. *)
Lemma runs_response name address options :
  word name → word address → opt phrase (not_empty options) →
  runs ["Response: " +:+ words [name; address; or_else options EmptyString]] ["Response: "]
    (λ job, maybe_set set_j_responder_options (not_empty options)
      (set_j_responder_address (Some address) (set_j_responder_name (Some name) job))).
Proof.
  intros Hn Ha Ho. pose proof (word_no_newline _ Hn). pose proof (word_text _ Ha) as Hat.
  pose proof (word_no_newline _ Ha).
  assert (no_newline " ") by by repeat constructor.
  destruct (not_empty options) as [o|] eqn:Eo.
  - assert (options = Some o) as -> by (destruct options as [[|]|]; done).
    apply (runs_MATCH "Response: " "%S %S %T" 2 [to_str set_j_responder_name;
        to_str set_j_responder_address; to_str set_j_responder_options] _ 3
        [VStr name; VStr address; VStr o]).
    + intros st. by eexists.
    + by repeat constructor.
    + do 4 (apply text_app; [done|]). apply Ho.
    + done.
    + by apply scan_SST.
    + done.
  - assert (or_else options EmptyString = EmptyString) as -> by (destruct options as [[|]|]; done).
    apply (runs_MATCH_trimmed _ "Response: " "%S %S %T" 2 [to_str set_j_responder_name;
        to_str set_j_responder_address; to_str set_j_responder_options]
        (name +:+ " " +:+ address) 2 [VStr name; VStr address]).
    + intros st. by eexists.
    + repeat (apply no_newline_app; [first [done | by repeat constructor]|]). by repeat constructor.
    + change (words [name; address; EmptyString]) with (name +:+ " " +:+ address +:+ " ").
      rewrite <- !str_app_assoc, rtrim_space by done. rewrite !str_app_assoc.
      apply rtrim_solid. do 3 (apply solid_app; [first [apply Hat | by destruct name | done]|]). apply Hat.
    + done.
    + by apply scan_SS.
    + done.
Qed.

(** Levels of the Document Structuring Conventions, which have at most one
    digit after the point. *)
Definition tenths : list string :=
  [EmptyString; "0"; "1"; "2"; "3"; "4"; "5"; "6"; "7"; "8"; "9"].

Definition level (v : scanval) : Prop :=
  ∃ w f, v = VDec 1 w f ∧ 0 ≤ w ≤ 999999999 ∧ f ∈ tenths.

(** Without a zero after the point. *)
Definition level_read (v : scanval) : scanval :=
  match v with
  | VDec s w f => VDec s w (if String.eqb f "0" then EmptyString else f)
  | _ => v
  end.

Lemma conv_f_level v rest :
  level v →
  conv_f (mkSpec false 0 false false) (dtostr v +:+ String " " rest)
  = Conv (String " " rest) [level_read v].
Proof.
  intros (w & f & -> & Hw & Hf).
  assert (∀ tail, starts_outside gu_ascii_isdigit tail →
    span gu_ascii_isdigit (fmt_u false 10 (Z.abs w) +:+ tail) = (fmt_u false 10 (Z.abs w), tail)) as Hsp.
  { intros tail Ht. apply span_app; [|done].
    apply (fmt_u_digits false 10 _ _ ltac:(lia) dec_digits). lia. }
  assert (∀ frac frac' tail, dtostr (VDec 1 w frac) = fmt_d w +:+ tail →
    starts_outside gu_ascii_isdigit (tail +:+ String " " rest) →
    (match tail +:+ String " " rest with
     | String c s' => if Ascii.eqb c "." then span gu_ascii_isdigit s'
                      else (EmptyString, tail +:+ String " " rest)
     | EmptyString => (EmptyString, tail +:+ String " " rest)
     end) = (frac', String " " rest) →
    conv_f (mkSpec false 0 false false) (dtostr (VDec 1 w frac) +:+ String " " rest)
    = Conv (String " " rest) [VDec 1 w frac']) as L.
  { intros frac frac' tail -> Ht E. rewrite str_app_assoc. unfold conv_f.
    rewrite take_sign_fmt, Hsp by done.
    destruct (fmt_u_cons false 10 _ _ ltac:(lia) dec_digits (Z.abs w)) as (c & u & Eu & _); [lia|].
    rewrite Eu, <- Eu. rewrite (fmt_u_value false 10 _ _ ltac:(lia) dec_digits) by lia.
    rewrite (proj2 (Z.ltb_ge _ _)) by (unfold int_max; lia). rewrite E.
    rewrite (proj2 (Z.ltb_ge w 0)) by lia. simpl. by rewrite Z.abs_eq by lia. }
  unfold tenths in Hf. unfold level_read.
  assert (∀ frac tail, (if String.eqb (four_digits 4 (ten_thousandths frac) EmptyString) EmptyString
      then EmptyString else String "." (four_digits 4 (ten_thousandths frac) EmptyString)) = tail →
    dtostr (VDec 1 w frac) = fmt_d w +:+ tail) as D.
  { intros frac tail <-. unfold dtostr, gu_dtostr.
    rewrite (proj2 (Z.ltb_ge 999999999 w)) by lia. simpl. done. }
  repeat apply elem_of_cons in Hf as [->|Hf]; [..|by apply elem_of_nil in Hf];
    (eapply L; [apply D; reflexivity | reflexivity | reflexivity]).
Qed.

Lemma level_starts v rest : level v → starts_outside gu_ascii_isspace (dtostr v +:+ rest).
Proof.
  intros (w & f & -> & Hw & _). unfold dtostr, gu_dtostr.
  rewrite (proj2 (Z.ltb_ge 999999999 w)) by lia. rewrite str_nil_app, str_app_assoc.
  apply starts_outside_fmt_d.
Qed.

Lemma level_not_empty v rest : level v → dtostr v +:+ rest ≠ EmptyString.
Proof.
  intros (w & f & -> & Hw & _). unfold dtostr, gu_dtostr.
  rewrite (proj2 (Z.ltb_ge 999999999 w)) by lia. rewrite str_nil_app, str_app_assoc.
  by destruct (fmt_d_cons w) as (d & s & -> & _).
Qed.

Lemma level_no_newline v : level v → no_newline (dtostr v).
Proof.
  intros (w & f & -> & Hw & Hf). unfold dtostr, gu_dtostr.
  rewrite (proj2 (Z.ltb_ge 999999999 w)) by lia. rewrite str_nil_app.
  apply no_newline_app; [apply word_no_newline, fmt_d_word|]. unfold tenths in Hf.
  repeat apply elem_of_cons in Hf as [->|Hf]; [..|by apply elem_of_nil in Hf];
    apply no_newline_check; vm_compute; reflexivity.
Qed.

Definition type_name (v : option string) : string := or_else v "NULL".

Definition good_type (v : option string) : Prop := opt (λ t, word t ∧ t ≠ "NULL") v.

Lemma type_word v : good_type v → word (type_name v).
Proof. destruct v as [t|]; [by intros [? _]|]. intros _. split; [done|]. by repeat constructor. Qed.

Lemma turn_f f len va count vals p str rest v :
  str ≠ EmptyString → conv_f (mkSpec false 0 false false) str = Conv rest [v] →
  scan_loop (S f) len (String "%" (String "f" p)) str va count vals
  = scan_loop f len p rest va (count + 1) (vals ++ [v]).
Proof.
  intros Hne E. destruct str as [|c str]; [done|]. cbn [scan_loop]. simpl.
  change (convert _ _ _ _) with (conv_f (mkSpec false 0 false false) (String c str)).
  by rewrite E.
Qed.

Lemma scan_DSC v t a b c :
  level v → word t → small a → small b → small c →
  gu_sscanf (words [dtostr v; t; fmt_d a; fmt_d b; fmt_d c]) "%f %S %d %d %d" []
  = Scanned 5 [level_read v; VStr t; VInt a; VInt b; VInt c].
Proof.
  intros Hv Ht Ha Hb Hc. unfold small in *. unfold gu_sscanf, words.
  cbn [String.concat String.length].
  match goal with |- context [strlen ?s] => generalize (strlen s); intros len end.
  pose proof (conv_f_level v (t +:+ " " +:+ fmt_d a +:+ " " +:+ fmt_d b +:+ " " +:+ fmt_d c) Hv) as E.
  rewrite (turn_f _ _ _ _ _ _ _ _ _ (level_not_empty v _ Hv) E).
  change (String " " (t +:+ ?x)) with (" " +:+ (t +:+ x)).
  rewrite turn_spaced by by apply starts_word.
  rewrite turn_S by done.
  do 2 (rewrite turn_spaced by first [apply starts_outside_fmt_d | apply starts_fmt_d];
        rewrite turn_d by done).
  rewrite turn_spaced by apply starts_fmt_d. by rewrite turn_d_end.
Qed.

Definition load_DSC (v : scanval) (t : option string) (a b c : Z) : QEntryFile → QEntryFile := λ job,
  no_NULL_type (apply_stores
    [to_float set_j_DSClevel; to_str set_j_DSC_job_type; to_int set_j_orientation;
     to_int set_j_proofmode; to_int set_j_docdata]
    [level_read v; VStr (type_name t); VInt a; VInt b; VInt c] job).

Lemma runs_DSC v t a b c :
  level v → good_type t → small a → small b → small c →
  runs ["Attr-DSC: " +:+ words [dtostr v; or_else t "NULL"; fmt_d a; fmt_d b; fmt_d c]] []
    (load_DSC v t a b c).
Proof.
  intros Hv Ht Ha Hb Hc. pose proof (type_word t Ht) as Hw.
  pose proof (scan_DSC v _ a b c Hv Hw Ha Hb Hc) as Hscan.
  set (l := words _) in *. change ("Attr-DSC: " +:+ l) with ("Attr-DSC:" +:+ " " +:+ l).
  assert (text l) as Hl.
  { unfold l, words. cbn [String.concat].
    assert (no_newline " ") by by repeat constructor.
    apply text_app; [by apply level_no_newline|]. apply text_app; [done|].
    apply text_app; [by apply word_no_newline|].
    do 2 (apply text_app; [done|]; apply text_app; [apply word_no_newline, fmt_d_word|]).
    apply text_app; [done|]. apply fmt_d_text. }
  apply runs_text; [|done|].
  { apply text_app; [by apply no_newline_check|].
    apply (text_app " "); [by apply no_newline_check | done]. }
  intros st. change (load_line _ st) with (load_A ("Attr-DSC:" +:+ " " +:+ l) st).
  unfold load_A. rewrite lmatchp_hit.
  - unfold scan_into. rewrite Hscan.
    exists (on_job (load_DSC v t a b c) st). split; [|apply on_job_advanced_nil].
    change (5 <? 5) with false. cbv iota. unfold load_DSC. by rewrite on_job_twice.
  - apply space_blank. unfold l, words. cbn [String.concat]. by apply level_starts.
Qed.

Lemma on_job_nothing stores st : on_job (apply_stores stores []) st = st.
Proof. destruct st. by destruct stores. Qed.

Lemma runs_strip n :
  small n →
  runs ["StripPrinter: " +:+ fmt_d n] []
    (apply_stores [to_int (λ n, set_j_StripPrinter (if n =? 0 then 0 else 1))] [VInt n]).
Proof.
  intros Hn. apply runs_text; [apply text_app; [by apply no_newline_check | apply fmt_d_text] | done|].
  intros st. change (load_line _ st) with (load_S ("StripPrinter: " +:+ fmt_d n) st).
  unfold load_S, scan_into.
  assert (gu_sscanf ("StripPrinter: " +:+ fmt_d n) "StripPrinter: %d" [] = Scanned 1 [VInt n]) as ->.
  { unfold gu_sscanf. match goal with |- context [strlen ?s] => generalize (strlen s); intros len end.
    change (String.length "StripPrinter: %d") with (13 + 3)%nat. simpl plus.
    do 13 (rewrite str_cons_app, turn_char by done).
    rewrite str_cons_app, str_nil_app, turn_space by apply starts_fmt_d. by rewrite turn_d_end. }
  eexists. split; [reflexivity|]. apply on_job_advanced_nil.
Qed.

Lemma runs_page_list count mask :
  small count → phrase mask →
  runs ["PageList: " +:+ words [fmt_d count; mask]] []
    (apply_stores [to_int set_j_page_count; to_str set_j_page_mask] [VInt count; VStr mask]).
Proof.
  intros Hn [Hm Hs]. set (l := words _).
  assert (gu_sscanf ("PageList: " +:+ l) "PageList: %d %T" [] = Scanned 2 [VInt count; VStr mask]) as Hscan.
  { unfold l, words. cbn [String.concat]. unfold gu_sscanf.
    match goal with |- context [strlen ?s] => generalize (strlen s); intros len end.
    change (String.length "PageList: %d %T") with (9 + 6)%nat. simpl plus.
    do 9 (rewrite str_cons_app, turn_char by done).
    rewrite str_cons_app, str_nil_app, turn_space by apply starts_outside_fmt_d.
    rewrite turn_d by done. rewrite turn_spaced by done. destruct Hm as (Hne & _ & Hl).
    by rewrite turn_T_end. }
  apply runs_text; [|done|].
  { apply text_app; [by apply no_newline_check|]. unfold l, words. cbn [String.concat].
    apply text_app; [apply word_no_newline, fmt_d_word|].
    apply (text_app " "); [by apply no_newline_check | done]. }
  intros st. change (load_line _ st) with (load_P ("PageList: " +:+ l) st).
  unfold load_P. unfold scan_into at 1.
  change (gu_sscanf ("PageList: " +:+ l) "PPRD: %hx %x %hx %hx" []) with (Scanned 0 []).
  change (0 =? 4) with false. cbv iota. rewrite on_job_nothing. unfold scan_into at 1.
  change (gu_sscanf ("PageList: " +:+ l) "PPRVersion: %f" []) with (Scanned 0 []).
  change (0 =? 1) with false. cbv iota. rewrite on_job_nothing. unfold MATCH.
  change (String.prefix "PassThruPDL: " ("PageList: " +:+ l)) with false. cbv iota.
  unfold scan_into. rewrite Hscan. eexists. split; [reflexivity|]. apply on_job_advanced_nil.
Qed.

Lemma runs_pdl v :
  text v → runs ["PassThruPDL: " +:+ v] ["PassThruPDL: "] (set_j_PassThruPDL (Some v)).
Proof.
  intros Hv. apply (runs_MATCH "PassThruPDL: " "%T" 1 [to_str set_j_PassThruPDL] v 1 [VStr v]).
  - intros st. change (load_line _ st) with (load_P ("PassThruPDL: " +:+ v) st).
    unfold load_P. unfold scan_into at 1.
    change (gu_sscanf ("PassThruPDL: " +:+ v) "PPRD: %hx %x %hx %hx" []) with (Scanned 0 []).
    change (0 =? 4) with false. cbv iota. rewrite on_job_nothing. unfold scan_into at 1.
    change (gu_sscanf ("PassThruPDL: " +:+ v) "PPRVersion: %f" []) with (Scanned 0 []).
    change (0 =? 1) with false. cbv iota. rewrite on_job_nothing. by eexists.
  - by apply no_newline_check.
  - done.
  - done.
  - by apply scan_T.
  - done.
Qed.

Lemma runs_T name set v :
  (∀ st, ∃ k, load_line (name +:+ v) st = MATCH name "%T" 1 [to_str set] (name +:+ v) st k) →
  forallb (λ c, negb (code c =? 10)) (chars name) = true →
  String.eqb (name +:+ v) "EndMisc" = false → text v →
  runs [name +:+ v] [name] (set (Some v)).
Proof.
  intros Hload Hn He Hv.
  exact (runs_MATCH name "%T" 1 [to_str set] v 1 [VStr v] Hload (no_newline_check _ Hn) Hv He
    (scan_T v Hv) ltac:(done)).
Qed.

Lemma runs_T_if name set v :
  (∀ s st, ∃ k, load_line (name +:+ s) st = MATCH name "%T" 1 [to_str set] (name +:+ s) st k) →
  forallb (λ c, negb (code c =? 10)) (chars name) = true →
  (∀ s, String.eqb (name +:+ s) "EndMisc" = false) → opt text v →
  runs (if_set name v) [] (maybe_set set v).
Proof.
  intros Hload Hn He Hv. apply runs_if_set. intros s ->. eexists. by apply runs_T.
Qed.

(** * Jobs that can be saved *)

Record saveable (job : QEntryFile) : Prop := {
  s_state : good_state job;
  s_user : ∃ user, j_user job = Some user ∧ text user;
  s_cookie : ∃ cookie, j_magic_cookie job = Some cookie ∧ word cookie;
  s_name : ∃ name, j_responder_name job = Some name ∧ word name;
  s_address : ∃ address, j_responder_address job = Some address ∧ word address;
  s_options : opt phrase (not_empty (j_responder_options job));
  s_lc_messages : opt word (j_lc_messages job);
  s_time : 0 ≤ j_time job ≤ long_max;
  s_For : opt text (j_For job);
  s_charge_to : opt (λ s, word s ∧ unquoted s) (j_charge_to job);
  s_Title : opt text (not_empty (j_Title job));
  s_draft_notice : opt text (j_draft_notice job);
  s_Creator : opt text (j_Creator job);
  s_Routing : opt text (j_Routing job);
  s_lpqFileName : opt (λ s, text s ∧ unquoted s) (j_lpqFileName job);
  s_Filters : opt text (j_Filters job);
  s_PassThruPDL : opt text (j_PassThruPDL job);
  s_mask : opt phrase (j_page_mask job);
  s_question : opt text (j_question job);
  s_ripopts : opt text (j_ripopts job);
  s_level : level (j_DSClevel job);
  s_type : good_type (j_DSC_job_type job);
  s_ints : Forall small [j_do_banner job; j_do_trailer job; j_commentary job; j_orientation job;
    j_proofmode job; j_docdata job; j_prolog job; j_docsetup job; j_script job; j_langlevel job;
    j_extensions job; j_pages job; j_pageorder job; j_pagefactor job; j_parts job;
    j_binselect job; j_copies job; j_collate job; j_keep_badfeatures job; j_N job;
    j_borders job; j_sigsheets job; j_sigpart job; j_job_does_n_up job; j_page_count job];
  s_longs : Z.abs (j_input_bytes job) ≤ long_max ∧ Z.abs (j_postscript_bytes job) ≤ long_max;
  s_hacks : 0 ≤ j_hacks job < 4294967296;
  s_strip : j_StripPrinter job = 0 ∨ j_StripPrinter job = 1;
  s_divisors : j_N job ≠ 0 ∧ j_pagefactor job ≠ 0;
}.

(** What comes back: the version is the program's, a name that was not given
    is "???", an empty title or empty options are none, and there is a count of
    pages only if there is a mask.  Which job it is, and its PJL lines, are not
    in the file. *)
Definition reloaded (job : QEntryFile) : QEntryFile :=
  mkJob None 0 0 (VDec 1 2 "00") (j_lc_messages job) (j_priority job) (j_sequence_number job)
    (j_status job) (j_flags job) (j_time job) (j_user job) (j_magic_cookie job)
    (Some (or_else (j_For job) "???")) (j_charge_to job) (j_Routing job) (not_empty (j_Title job))
    (j_Creator job) (j_lpqFileName job) (j_responder_name job) (j_responder_address job)
    (not_empty (j_responder_options job)) (j_commentary job) (j_do_banner job) (j_do_trailer job)
    (j_langlevel job) (j_extensions job) (level_read (j_DSClevel job)) (j_DSC_job_type job)
    (j_pages job) (j_pageorder job) (j_pagefactor job) (j_prolog job) (j_docsetup job)
    (j_script job) (j_proofmode job) (j_orientation job) (j_input_bytes job)
    (j_postscript_bytes job) (j_parts job) (j_docdata job) (j_binselect job) (j_copies job)
    (j_collate job) (j_keep_badfeatures job) (j_hacks job) (j_N job) (j_borders job)
    (j_sigsheets job) (j_sigpart job) (j_job_does_n_up job) (j_draft_notice job)
    (j_PassThruPDL job) (j_Filters job) None (j_StripPrinter job) (j_page_mask job)
    (match j_page_mask job with Some _ => j_page_count job | None => -1 end)
    (j_question job) (j_ripopts job).

Definition load_mask (job : QEntryFile) : QEntryFile → QEntryFile := λ old,
  match j_page_mask job with
  | Some mask => set_j_page_mask (Some mask) (set_j_page_count (j_page_count job) old)
  | None => old
  end.

(** What the lines up to "EndMisc" make of a job. *)
Definition load_misc (job : QEntryFile) : QEntryFile → QEntryFile := λ old,
  maybe_set set_j_ripopts (j_ripopts job) (maybe_set set_j_question (j_question job)
  (load_mask job
  (apply_stores [to_int (λ n, set_j_StripPrinter (if n =? 0 then 0 else 1))] [VInt (j_StripPrinter job)]
  (maybe_set set_j_PassThruPDL (j_PassThruPDL job) (maybe_set set_j_Filters (j_Filters job)
  (set_j_job_does_n_up (j_job_does_n_up job) (set_j_sigpart (j_sigpart job)
  (set_j_sigsheets (j_sigsheets job) (set_j_borders (j_borders job) (set_j_N (j_N job)
  (set_j_hacks (j_hacks job) (set_j_keep_badfeatures (j_keep_badfeatures job)
  (set_j_collate (j_collate job) (set_j_copies (j_copies job) (set_j_binselect (j_binselect job)
  (set_j_parts (j_parts job) (set_j_postscript_bytes (j_postscript_bytes job)
  (set_j_input_bytes (j_input_bytes job) (set_j_pagefactor (j_pagefactor job)
  (set_j_pageorder (j_pageorder job) (set_j_pages (j_pages job)
  (set_j_extensions (j_extensions job) (set_j_langlevel (j_langlevel job)
  (set_j_script (j_script job) (set_j_docsetup (j_docsetup job) (set_j_prolog (j_prolog job)
  (load_DSC (j_DSClevel job) (j_DSC_job_type job) (j_orientation job) (j_proofmode job) (j_docdata job)
  (set_j_commentary (j_commentary job)
  (maybe_set set_j_responder_options (not_empty (j_responder_options job))
  (set_j_responder_address (j_responder_address job) (set_j_responder_name (j_responder_name job)
  (set_j_do_trailer (j_do_trailer job) (set_j_do_banner (j_do_banner job)
  (maybe_set set_j_lpqFileName (j_lpqFileName job) (maybe_set set_j_Routing (j_Routing job)
  (maybe_set set_j_Creator (j_Creator job) (maybe_set set_j_draft_notice (j_draft_notice job)
  (maybe_set set_j_Title (not_empty (j_Title job)) (maybe_set set_j_charge_to (j_charge_to job)
  (set_j_For (Some (or_else (j_For job) "???")) (set_j_magic_cookie (j_magic_cookie job)
  (set_j_time (j_time job) (maybe_set set_j_lc_messages (j_lc_messages job)
  (set_j_PPRVersion (VDec 1 2 "00") (set_j_user (j_user job) old))))))))))))))))))))))))))))))))))))))))))))).

(** A line of the kind of MATCH, of ATTR. *)
Ltac matched scanned :=
  eapply (runs_MATCH _ _ _ _ _ _ _);
    [intros st; by eexists | by apply no_newline_check | | reflexivity | by apply scanned | done].

Lemma text_nums a l : text (words (map fmt_d (a :: l))).
Proof.
  revert a. induction l as [|b l IH]; intros a; [apply fmt_d_text|].
  change (words (map fmt_d (a :: b :: l))) with (fmt_d a +:+ " " +:+ words (map fmt_d (b :: l))).
  apply text_app; [apply word_no_newline, fmt_d_word|].
  apply (text_app " "); [by apply no_newline_check | apply IH].
Qed.

Lemma starts_nums a l : starts_outside is_blank (words (map fmt_d (a :: l))).
Proof.
  destruct l as [|b l]; [apply space_blank, starts_fmt_d|].
  apply (starts_blank_num a (" " +:+ words (map fmt_d (b :: l)))).
Qed.

Lemma attr_nums name a l fmt want stores n vals :
  (∀ st, ∃ k, load_line (name +:+ " " +:+ words (map fmt_d (a :: l))) st
    = ATTR name fmt want stores (name +:+ " " +:+ words (map fmt_d (a :: l))) st k) →
  forallb (λ c, negb (code c =? 10)) (chars name) = true →
  String.eqb (name +:+ " " +:+ words (map fmt_d (a :: l))) "EndMisc" = false →
  gu_sscanf (words (map fmt_d (a :: l))) fmt [] = Scanned n vals → want ≤ n →
  runs [name +:+ " " +:+ words (map fmt_d (a :: l))] [] (apply_stores stores vals).
Proof.
  intros Hload Hn He Hs Hw.
  apply (runs_ATTR name fmt want stores _ n); [done | by apply no_newline_check
    | apply text_nums | apply starts_nums | done | done | done].
Qed.

Lemma match_nums name a l fmt want stores n vals :
  (∀ st, ∃ k, load_line (name +:+ words (map fmt_d (a :: l))) st
    = MATCH name fmt want stores (name +:+ words (map fmt_d (a :: l))) st k) →
  forallb (λ c, negb (code c =? 10)) (chars name) = true →
  String.eqb (name +:+ words (map fmt_d (a :: l))) "EndMisc" = false →
  gu_sscanf (words (map fmt_d (a :: l))) fmt [] = Scanned n vals → want ≤ n →
  runs [name +:+ words (map fmt_d (a :: l))] [name] (apply_stores stores vals).
Proof.
  intros Hload Hn He Hs Hw.
  apply (runs_MATCH name fmt want stores _ n); [done | by apply no_newline_check
    | apply text_nums | done | done | done].
Qed.

Lemma mask_runs job :
  small (j_page_count job) → opt phrase (j_page_mask job) →
  runs (match j_page_mask job with
        | Some mask => ["PageList: " +:+ words [fmt_d (j_page_count job); mask]]
        | None => []
        end) [] (load_mask job).
Proof.
  intros Hc Hm. unfold load_mask. destruct (j_page_mask job) as [mask|]; [|apply runs_nil].
  exact (runs_page_list _ mask Hc Hm).
Qed.

Lemma pdl_runs v : opt text v → runs (if_set "PassThruPDL: " v) [] (maybe_set set_j_PassThruPDL v).
Proof. intros Hv. apply runs_if_set. intros s ->. eexists. by apply runs_pdl. Qed.

Lemma if_runs name set v :
  (∀ s, v = Some s → runs [name +:+ s] [name] (set (Some s))) →
  runs (if_set name v) [] (maybe_set set v).
Proof. intros H. apply runs_if_set. intros s Es. eexists. by apply H. Qed.

Ltac loads := intros st; exists unrecognized; reflexivity.

Lemma charge_runs v :
  opt (λ s, word s ∧ unquoted s) v → runs (if_set "Charge-To: " v) [] (maybe_set set_j_charge_to v).
Proof.
  intros Hv. apply if_runs. intros s ->. destruct Hv as [Hw Hq].
  apply (runs_MATCH "Charge-To: " "%W" 1 [to_str set_j_charge_to] s 1 [VStr s]);
    [loads | by apply no_newline_check | by apply word_text | done | by apply scan_W | done].
Qed.

Lemma lpq_runs v :
  opt (λ s, text s ∧ unquoted s) v → runs (if_set "lpqFileName: " v) [] (maybe_set set_j_lpqFileName v).
Proof.
  intros Hv. apply if_runs. intros s ->. destruct Hv as [Hw Hq].
  apply (runs_MATCH "lpqFileName: " "%A" 1 [to_str set_j_lpqFileName] s 1 [VStr s]);
    [loads | by apply no_newline_check | done | done | by apply scan_A | done].
Qed.

Lemma messages_runs v : opt word v → runs (if_set "LC_MESSAGES: " v) [] (maybe_set set_j_lc_messages v).
Proof.
  intros Hv. apply if_runs. intros s ->.
  apply (runs_MATCH "LC_MESSAGES: " "%S" 1 [to_str set_j_lc_messages] s 1 [VStr s]);
    [loads | by apply no_newline_check | by apply word_text | done | by apply scan_S | done].
Qed.

Lemma cookie_runs s : word s → runs ["MagicCookie: " +:+ s] ["MagicCookie: "] (set_j_magic_cookie (Some s)).
Proof.
  intros Hs. apply (runs_MATCH "MagicCookie: " "%S" 1 [to_str set_j_magic_cookie] s 1 [VStr s]);
    [loads | by apply no_newline_check | by apply word_text | done | by apply scan_S | done].
Qed.

Lemma time_runs n : 0 ≤ n ≤ long_max → runs ["Time: " +:+ fmt_d n] ["Time: "] (set_j_time n).
Proof.
  intros Hn. apply (runs_MATCH "Time: " "%U" 1 [to_int set_j_time] _ 1 [VInt n]);
    [loads | by apply no_newline_check | apply fmt_d_text | done | by apply scan_U | done].
Qed.

Lemma commentary_runs n : small n → runs ["Commentary: " +:+ fmt_d n] ["Commentary: "] (set_j_commentary n).
Proof.
  intros Hn. apply (runs_MATCH "Commentary: " "%d" 1 [to_int set_j_commentary] _ 1 [VInt n]);
    [loads | by apply no_newline_check | apply fmt_d_text | done | by apply scan_1 | done].
Qed.

Lemma runs_ext ls P f g : (∀ job, f job = g job) → runs ls P f → runs ls P g.
Proof.
  intros Hfg Hr st. destruct (Hr st) as (st' & E & [J R F]). exists st'. split; [done|].
  split; [by rewrite J | done | done].
Qed.

Lemma apply_int set stores n vals job :
  apply_stores (to_int set :: stores) (VInt n :: vals) job = apply_stores stores vals (set n job).
Proof. reflexivity. Qed.

Ltac stored := let job := fresh in intros job; rewrite !apply_int; reflexivity.

Ltac from_nums L :=
  eapply runs_ext; [|apply L; [ | reflexivity | reflexivity | | done]]; [stored | |].

Lemma banners_runs a b :
  small a → small b →
  runs ["Banners: " +:+ words [fmt_d a; fmt_d b]] ["Banners: "] (λ job, set_j_do_trailer b (set_j_do_banner a job)).
Proof.
  intros Ha Hb. from_nums (match_nums "Banners: " a [b] "%d %d" 2
    [to_int set_j_do_banner; to_int set_j_do_trailer] 2 [VInt a; VInt b]).
  - loads.
  - by apply scan_2.
Qed.

Lemma ATTR_miss name fmt want stores line st otherwise :
  String.prefix name line = false → ATTR name fmt want stores line st otherwise = otherwise st.
Proof. unfold ATTR, lmatchp. by intros ->. Qed.

Ltac loads_A :=
  intros st;
  match goal with |- context [load_line ?l st] => change (load_line l st) with (load_A l st) end;
  unfold load_A;
  match goal with |- context [lmatchp ?l "Attr-DSC:"] =>
    change (lmatchp l "Attr-DSC:") with (@None string) end;
  cbv iota; rewrite ?ATTR_miss by reflexivity; by eexists.

Lemma sections_runs a b c :
  small a → small b → small c →
  runs ["Attr-DSC-Sections: " +:+ words [fmt_d a; fmt_d b; fmt_d c]] []
    (λ job, set_j_script c (set_j_docsetup b (set_j_prolog a job))).
Proof.
  intros Ha Hb Hc. from_nums (attr_nums "Attr-DSC-Sections:" a [b; c] "%d %d %d" 3
    [to_int set_j_prolog; to_int set_j_docsetup; to_int set_j_script] 3 [VInt a; VInt b; VInt c]).
  - loads_A.
  - by apply scan_3.
Qed.

Lemma langlevel_runs a b :
  small a → small b →
  runs ["Attr-LangLevel: " +:+ words [fmt_d a; fmt_d b]] []
    (λ job, set_j_extensions b (set_j_langlevel a job)).
Proof.
  intros Ha Hb. from_nums (attr_nums "Attr-LangLevel:" a [b] "%d %d" 2
    [to_int set_j_langlevel; to_int set_j_extensions] 2 [VInt a; VInt b]).
  - loads_A.
  - by apply scan_2.
Qed.

Lemma pages_runs a b c :
  small a → small b → small c →
  runs ["Attr-Pages: " +:+ words [fmt_d a; fmt_d b; fmt_d c]] []
    (λ job, set_j_pagefactor c (set_j_pageorder b (set_j_pages a job))).
Proof.
  intros Ha Hb Hc. from_nums (attr_nums "Attr-Pages:" a [b; c] "%d %d %d" 3
    [to_int set_j_pages; to_int set_j_pageorder; to_int set_j_pagefactor] 3 [VInt a; VInt b; VInt c]).
  - loads_A.
  - by apply scan_3.
Qed.

Lemma bytes_runs a b :
  Z.abs a ≤ long_max → Z.abs b ≤ long_max →
  runs ["Attr-ByteCounts: " +:+ words [fmt_d a; fmt_d b]] []
    (λ job, set_j_postscript_bytes b (set_j_input_bytes a job)).
Proof.
  intros Ha Hb. from_nums (attr_nums "Attr-ByteCounts:" a [b] "%ld %ld" 2
    [to_int set_j_input_bytes; to_int set_j_postscript_bytes] 2 [VInt a; VInt b]).
  - loads_A.
  - by apply scan_2l.
Qed.

Lemma parts_runs a :
  small a → runs ["Attr-Parts: " +:+ fmt_d a] [] (set_j_parts a).
Proof.
  intros Ha. from_nums (attr_nums "Attr-Parts:" a [] "%d" 1 [to_int set_j_parts] 1 [VInt a]).
  - loads_A.
  - by apply scan_1.
Qed.

Lemma nup_runs a b c d e :
  small a → small b → small c → small d → small e →
  runs ["N-Up: " +:+ words [fmt_d a; fmt_d b; fmt_d c; fmt_d d; fmt_d e]] ["N-Up: "]
    (λ job, set_j_job_does_n_up e (set_j_sigpart d (set_j_sigsheets c (set_j_borders b (set_j_N a job))))).
Proof.
  intros Ha Hb Hc Hd He. from_nums (match_nums "N-Up: " a [b; c; d; e] "%d %d %d %d %d" 5
    [to_int set_j_N; to_int set_j_borders; to_int set_j_sigsheets; to_int set_j_sigpart;
     to_int set_j_job_does_n_up] 5 [VInt a; VInt b; VInt c; VInt d; VInt e]).
  - loads.
  - by apply scan_5.
Qed.

Lemma opts_runs a b c d e :
  small a → small b → small c → small d → 0 ≤ e < 4294967296 →
  runs ["Opts: " +:+ words [fmt_d a; fmt_d b; fmt_d c; fmt_d d; fmt_u false 10 (u32 e)]] ["Opts: "]
    (λ job, set_j_hacks e (set_j_keep_badfeatures d (set_j_collate c (set_j_copies b
      (set_j_binselect a job))))).
Proof.
  intros Ha Hb Hc Hd He. rewrite u32_small by done.
  eapply runs_ext; [|apply (runs_MATCH "Opts: " "%d %d %d %d %u" 5
    [to_int set_j_binselect; to_int set_j_copies; to_int set_j_collate;
     to_int set_j_keep_badfeatures; to_int set_j_hacks] _ 5
    [VInt a; VInt b; VInt c; VInt d; VInt e]);
    [loads | by apply no_newline_check | | reflexivity | by apply scan_4u | done]]; [stored|].
  unfold words. cbn [String.concat].
  do 4 (apply text_app; [apply word_no_newline, fmt_d_word|];
        apply text_app; [by apply no_newline_check|]).
  apply word_text, fmt_u_word. lia.
Qed.

Lemma misc_runs job user cookie name address :
  saveable job → j_user job = Some user → j_magic_cookie job = Some cookie →
  j_responder_name job = Some name → j_responder_address job = Some address →
  ∃ P, runs (misc_lines job user cookie name address) P (load_misc job) ∧ Forall (.∈ P) required.
Proof.
  intros H Eu Ec En Ea.
  assert (∃ P f, runs (misc_lines job user cookie name address) P f ∧
    (∀ old, f old = load_misc job old) ∧ Forall (.∈ P) required) as (P & f & Hr & Ef & HP).
  { destruct (s_user _ H) as (user' & Eu' & Hu). destruct (s_cookie _ H) as (cookie' & Ec' & Hc).
    destruct (s_name _ H) as (name' & En' & Hn). destruct (s_address _ H) as (address' & Ea' & Ha).
    assert (user' = user) as -> by congruence. assert (cookie' = cookie) as -> by congruence.
    assert (name' = name) as -> by congruence. assert (address' = address) as -> by congruence.
    pose proof (s_ints _ H) as Hi. repeat apply Forall_cons in Hi as [? Hi].
    pose proof (s_longs _ H) as [? ?]. destruct H.
    eexists _, _. split; [|split].
    - unfold misc_lines.
      eapply runs_app; [eapply runs_cons; [apply (runs_T "User: " set_j_user); [loads | done..]
        | apply runs_version]|].
      eapply runs_app; [by apply messages_runs|].
      eapply runs_app.
      { eapply runs_cons; [by apply time_runs|]. eapply runs_cons; [by apply cookie_runs|].
        apply (runs_T "For: " set_j_For); [loads | done | done|].
        destruct (j_For job); [done|]. apply word_text. by repeat constructor. }
      eapply runs_app; [by apply charge_runs|].
      eapply runs_app; [apply (runs_T_if "Title: " set_j_Title); [intros ?; loads | done..]|].
      eapply runs_app; [apply (runs_T_if "DraftNotice: " set_j_draft_notice); [intros ?; loads | done..]|].
      eapply runs_app; [apply (runs_T_if "Creator: " set_j_Creator); [intros ?; loads | done..]|].
      eapply runs_app; [apply (runs_T_if "Routing: " set_j_Routing); [intros ?; loads | done..]|].
      eapply runs_app; [by apply lpq_runs|].
      eapply runs_app.
      { eapply runs_cons; [by apply banners_runs|]. eapply runs_cons; [by apply runs_response|].
        eapply runs_cons; [by apply commentary_runs|]. eapply runs_cons; [by apply runs_DSC|].
        eapply runs_cons; [by apply sections_runs|]. eapply runs_cons; [by apply langlevel_runs|].
        eapply runs_cons; [by apply pages_runs|]. eapply runs_cons; [by apply bytes_runs|].
        eapply runs_cons; [by apply parts_runs|]. eapply runs_cons; [by apply opts_runs|].
        by apply nup_runs. }
      eapply runs_app; [apply (runs_T_if "Filters: " set_j_Filters); [intros ?; loads | done..]|].
      eapply runs_app; [by apply pdl_runs|].
      eapply runs_app; [apply runs_strip; unfold small, int_max; lia|].
      eapply runs_app; [by apply mask_runs|].
      eapply runs_app; [apply (runs_T_if "Question: " set_j_question); [intros ?; loads | done..]|].
      apply (runs_T_if "RIPopts: " set_j_ripopts); [intros ?; loads | done..].
    - intros old. unfold load_misc. rewrite Eu, Ec, En, Ea. reflexivity.
    - unfold required. repeat constructor; set_solver. }
  exists P. split; [|done]. intros st. destruct (Hr st) as (st' & E & [J R F]). exists st'.
  split; [done|]. split; [by rewrite J, Ef | done | done].
Qed.

(** * The end of the file *)

Lemma skip_ipp_lines ls fuel rest :
  Forall (λ l, text l ∧ String.eqb l "EndIPP" = false) ls → (length ls < fuel)%nat →
  skip_ipp fuel (text_of (ls ++ ["EndIPP"]) +:+ rest) = Some rest.
Proof.
  intros Hls. revert fuel.
  induction Hls as [|l ls [(Hne & Hs & Hl) He] Hls IH]; intros [|fuel] Hf; simpl in Hf; try lia.
  - change (text_of ([] ++ ["EndIPP"]) +:+ rest) with ("EndIPP" +:+ String (chr 10) rest).
    cbn [skip_ipp]. rewrite getline_line by by apply no_newline_check. done.
  - change ((l :: ls) ++ ["EndIPP"]) with (l :: (ls ++ ["EndIPP"])). rewrite text_of_cons.
    cbn [skip_ipp]. rewrite getline_line by done. rewrite rtrim_solid, He by done.
    apply IH. lia.
Qed.

Lemma ipp_lines_text job user :
  saveable job → text user →
  Forall (λ l, text l ∧ String.eqb l "EndIPP" = false) (ipp_lines job user).
Proof.
  intros H Hu. unfold ipp_lines.
  assert (∀ name n, forallb (λ c, negb (code c =? 10)) (chars name) = true → text (name +:+ fmt_d n))
    as Hd by (intros name n Hn; apply text_app; [by apply no_newline_check | apply fmt_d_text]).
  apply Forall_app. split.
  { constructor; [|done]. split; [|done]. apply text_app; [by apply no_newline_check | done]. }
  apply Forall_app. split.
  - assert (opt text (match not_empty (j_Title job) with Some t => Some t | None => j_lpqFileName job end)) as Ht.
    { pose proof (s_Title _ H) as Ht. destruct (not_empty (j_Title job)); [done|].
      pose proof (s_lpqFileName _ H) as Hl. destruct (j_lpqFileName job); [apply Hl | done]. }
    destruct (match not_empty (j_Title job) with Some t => Some t | None => j_lpqFileName job end) as [t|];
      [|done]. constructor; [|done]. split; [|done]. apply text_app; [by apply no_newline_check | done].
  - repeat (apply Forall_cons; split; [split; [by apply Hd | reflexivity]|]). apply Forall_nil. done.
Qed.

Lemma text_of_length ls : (length ls ≤ String.length (text_of ls))%nat.
Proof. induction ls as [|l ls IH]; [done|]. simpl. rewrite length_app_str. simpl. lia. Qed.

Lemma finish_ipp st job user rest :
  saveable job → text user →
  finish st (text_of (ipp_lines job user ++ ["EndIPP"]) +:+ rest) = Loaded (retcode st) (l_job st) rest.
Proof.
  intros H Hu. unfold finish. rewrite skip_ipp_lines; [done | by apply ipp_lines_text|].
  rewrite length_app_str. pose proof (text_of_length (ipp_lines job user ++ ["EndIPP"])) as L.
  rewrite length_app in L. cbn [length] in L. lia.
Qed.

Lemma retcode_found st :
  (∀ name, name ∈ required → found name st = true) → retcode st = l_retcode st.
Proof.
  intros H. unfold retcode. assert (forallb (λ name, found name st) required = true) as ->; [|done].
  apply forallb_forall. intros name Hn. apply H. by apply list_elem_of_In.
Qed.

(** * The job that is loaded *)

Lemma apply_str set stores s vals job :
  apply_stores (to_str set :: stores) (VStr s :: vals) job = apply_stores stores vals (set (Some s) job).
Proof. reflexivity. Qed.

Lemma load_pprd_good job old :
  good_state job → 0 ≤ j_priority old < 65536 →
  load_pprd job old = set_j_flags (j_flags job) (set_j_status (j_status job)
    (set_j_sequence_number (j_sequence_number job) (set_j_priority (j_priority job) old))).
Proof.
  intros [Hp Hn Hs Hf] Ho. unfold load_pprd. rewrite !apply_int.
  assert (store_low_half (j_priority old) (u16 (u32 (u32 (j_priority job)))) = j_priority job) as ->.
  { unfold store_low_half. do 2 rewrite (u32_small (j_priority job)) by lia.
    do 2 rewrite (u16_small (j_priority job)) by lia.
    assert (Z.ldiff (j_priority old) 65535 = 0) as ->; [|done].
    change 65535 with (Z.ones 16). rewrite Z.ldiff_ones_r by lia.
    rewrite Z.shiftr_div_pow2, Z.div_small by (simpl; lia). done. }
  assert (i16 (i16 (u16 (u32 (u32 (j_status job * -1)))) * -1) = j_status job) as Est.
  { do 2 rewrite (u32_small (j_status job * -1)) by lia.
    rewrite (u16_small (j_status job * -1)) by lia. rewrite (i16_small (j_status job * -1)) by lia. rewrite i16_small; lia. }
  rewrite (u32_small (j_sequence_number job)) by done.
  rewrite (u32_small (j_flags job)) by lia. rewrite (u16_small (j_flags job)) by lia.
  unfold negate_status. cbn [apply_stores].
  transitivity (set_j_status (i16 (i16 (u16 (u32 (u32 (j_status job * -1)))) * -1))
    (set_j_flags (j_flags job) (set_j_status (i16 (u16 (u32 (u32 (j_status job * -1)))))
      (set_j_sequence_number (j_sequence_number job) (set_j_priority (j_priority job) old)))));
    [reflexivity|]. rewrite Est. reflexivity.
Qed.

Lemma load_DSC_good v t a b c job :
  good_type t →
  load_DSC v t a b c job = set_j_docdata c (set_j_proofmode b (set_j_orientation a
    (set_j_DSC_job_type t (set_j_DSClevel (level_read v) job)))).
Proof.
  intros Ht. unfold load_DSC, no_NULL_type. destruct job. destruct t as [t|]; simpl.
  - destruct Ht as [_ Hne]. apply String.eqb_neq in Hne. by rewrite Hne.
  - reflexivity.
Qed.

(** A field that is not set stays NULL. *)
Ltac fresh_field :=
  intros ?; match goal with v : option string |- _ => destruct v; [done|] end;
  match goal with job : QEntryFile |- _ => destruct job end; simpl in *; by subst.

Lemma fresh_lc_messages job v :
  j_lc_messages job = None → maybe_set set_j_lc_messages v job = set_j_lc_messages v job.
Proof. fresh_field. Qed.

Lemma fresh_charge_to job v :
  j_charge_to job = None → maybe_set set_j_charge_to v job = set_j_charge_to v job.
Proof. fresh_field. Qed.

Lemma fresh_Title job v :
  j_Title job = None → maybe_set set_j_Title v job = set_j_Title v job.
Proof. fresh_field. Qed.

Lemma fresh_draft_notice job v :
  j_draft_notice job = None → maybe_set set_j_draft_notice v job = set_j_draft_notice v job.
Proof. fresh_field. Qed.

Lemma fresh_Creator job v :
  j_Creator job = None → maybe_set set_j_Creator v job = set_j_Creator v job.
Proof. fresh_field. Qed.

Lemma fresh_Routing job v :
  j_Routing job = None → maybe_set set_j_Routing v job = set_j_Routing v job.
Proof. fresh_field. Qed.

Lemma fresh_lpqFileName job v :
  j_lpqFileName job = None → maybe_set set_j_lpqFileName v job = set_j_lpqFileName v job.
Proof. fresh_field. Qed.

Lemma fresh_responder_options job v :
  j_responder_options job = None → maybe_set set_j_responder_options v job = set_j_responder_options v job.
Proof. fresh_field. Qed.

Lemma fresh_Filters job v :
  j_Filters job = None → maybe_set set_j_Filters v job = set_j_Filters v job.
Proof. fresh_field. Qed.

Lemma fresh_PassThruPDL job v :
  j_PassThruPDL job = None → maybe_set set_j_PassThruPDL v job = set_j_PassThruPDL v job.
Proof. fresh_field. Qed.

Lemma fresh_question job v :
  j_question job = None → maybe_set set_j_question v job = set_j_question v job.
Proof. fresh_field. Qed.

Lemma fresh_ripopts job v :
  j_ripopts job = None → maybe_set set_j_ripopts v job = set_j_ripopts v job.
Proof. fresh_field. Qed.

Lemma fresh_mask job old :
  j_page_mask old = None → j_page_count old = -1 →
  load_mask job old = set_j_page_mask (j_page_mask job)
    (set_j_page_count (match j_page_mask job with Some _ => j_page_count job | None => -1 end) old).
Proof.
  intros Hm Hc. unfold load_mask. destruct (j_page_mask job); [done|].
  destruct old. simpl in *. by subst.
Qed.

Lemma loaded_job job old :
  saveable job → load_misc job (load_pprd job (qentryfile_clear old)) = reloaded job.
Proof.
  intros H. destruct H. rewrite load_pprd_good by done. unfold load_misc.
  rewrite fresh_lc_messages by reflexivity.
  rewrite fresh_charge_to by reflexivity.
  rewrite fresh_Title by reflexivity.
  rewrite fresh_draft_notice by reflexivity.
  rewrite fresh_Creator by reflexivity.
  rewrite fresh_Routing by reflexivity.
  rewrite fresh_lpqFileName by reflexivity.
  rewrite fresh_responder_options by reflexivity.
  rewrite load_DSC_good by done.
  rewrite fresh_Filters by reflexivity.
  rewrite fresh_PassThruPDL by reflexivity.
  rewrite apply_int. cbn [apply_stores].
  assert ((if j_StripPrinter job =? 0 then 0 else 1) = j_StripPrinter job) as -> by (by destruct s_strip0 as [-> | ->]).
  rewrite fresh_mask by reflexivity.
  rewrite fresh_question by reflexivity.
  rewrite fresh_ripopts by reflexivity.
  reflexivity.
Qed.

(** C13: what is saved of a job is read back: from the queue file of a job whose
    words are words and whose texts fit on lines, whatever options it has and
    whatever follows, qentryfile_load() restores the job, reports success, and
    leaves the file where the list of media begins. *)
Theorem a_queue_file_is_read_back job old rest :
  saveable job →
  ∃ file, qentryfile_save job = Saved file ∧
    qentryfile_load (qentryfile_clear old) (file +:+ rest) = Loaded 0 (reloaded job) rest.
Proof.
  intros H. destruct (s_user _ H) as (user & Eu & Hu). destruct (s_cookie _ H) as (cookie & Ec & Hc).
  destruct (s_name _ H) as (name & En & Hn). destruct (s_address _ H) as (address & Ea & Ha).
  destruct (misc_runs job user cookie name address H Eu Ec En Ea) as (P & Hmisc & HP).
  pose proof (runs_app _ _ _ _ _ _ (runs_PPRD job (s_state _ H)) Hmisc) as Hruns.
  set (head := [PPRD_line job] ++ misc_lines job user cookie name address) in *.
  set (tail := ipp_lines job user ++ ["EndIPP"]).
  exists (text_of (head ++ ["EndMisc"] ++ tail)). split.
  { unfold qentryfile_save. rewrite (PPRD_line_length job (s_state _ H)), Z.eqb_refl. cbn [negb].
    rewrite Eu, Ec, En, Ea. destruct (s_divisors _ H) as [H1 H2].
    apply Z.eqb_neq in H1, H2. by rewrite H1, H2. }
  destruct (Hruns (mkLoading (qentryfile_clear old) [] 0)) as (st' & Hload & [Hjob Hret Hfound]).
  unfold qentryfile_load. rewrite text_of_app, str_app_assoc.
  set (fuel := S _). assert (∃ k, fuel = (length head + S k)%nat) as (k & ->).
  { exists (fuel - length head - 1)%nat. pose proof (text_of_length head). unfold fuel.
    rewrite length_app_str. cut (0 < String.length (text_of (["EndMisc"] ++ tail) +:+ rest))%nat; [lia|].
    rewrite length_app_str. change (text_of (["EndMisc"] ++ tail)) with ("EndMisc" +:+ String (chr 10) (text_of tail)).
    rewrite length_app_str. simpl. lia. }
  rewrite Hload. change (["EndMisc"] ++ tail) with ("EndMisc" :: tail). rewrite text_of_cons.
  cbn [load_lines]. rewrite getline_line by by apply no_newline_check.
  change (String.eqb (rtrim "EndMisc") "EndMisc") with true. cbv iota.
  unfold tail. rewrite finish_ipp by done. rewrite retcode_found.
  - rewrite Hret, Hjob. cbn [l_job l_retcode]. by rewrite loaded_job.
  - intros n Hn'. apply Hfound. left. rewrite Forall_forall in HP. by apply HP.
Qed.

(** A job with a title, options for its responder and a list of pages. *)
Definition saved_job : QEntryFile :=
  set_j_user (Some "david") (set_j_magic_cookie (Some "7a9f") (set_j_responder_name (Some "xwin")
  (set_j_responder_address (Some ":0.0") (set_j_responder_options (Some "printed=no")
  (set_j_status (-2) (set_j_Title (Some "Annual report") (set_j_charge_to (Some "physics")
  (set_j_page_mask (Some "@!") (set_j_page_count 5 sample_job))))))))).

Lemma words_saveable : saveable saved_job.
Proof.
  assert (∀ s, forallb (λ c, negb (gu_ascii_isspace c)) (chars s) = true → s ≠ EmptyString → word s) as W.
  { intros s Hs Hne. split; [done|]. clear Hne. induction (chars s) as [|c l IH]; [constructor|].
    simpl in Hs. apply andb_true_iff in Hs as [Hc Hs]. constructor; [|by apply IH].
    by apply negb_true_iff. }
  assert (text "Annual report") as T
    by (split; [done|]; split; [reflexivity | by apply no_newline_check]).
  constructor; try exact I; simpl.
  - constructor; simpl; lia.
  - exists "david". split; [reflexivity | apply word_text, W; done].
  - exists "7a9f". split; [reflexivity | apply W; done].
  - exists "xwin". split; [reflexivity | apply W; done].
  - exists ":0.0". split; [reflexivity | apply W; done].
  - split; [apply word_text, W; done | reflexivity].
  - unfold long_max. lia.
  - split; [apply W; done | reflexivity].
  - exact T.
  - split; [apply word_text, W; done | reflexivity].
  - exists 3, "0". split; [reflexivity|]. split; [lia|]. right. left.
  - unfold small, int_max. repeat constructor; vm_compute; discriminate.
  - unfold long_max. split; vm_compute; discriminate.
  - lia.
  - right. reflexivity.
  - split; discriminate.
Defined.

Lemma a_queue_file_is_read_back_witness :
  ∃ file, qentryfile_save saved_job = Saved file ∧
    qentryfile_load (qentryfile_clear sample_job) (file +:+ "Media: letter")
    = Loaded 0 (reloaded saved_job) "Media: letter" ∧
    j_Title (reloaded saved_job) = Some "Annual report".
Proof.
  destruct (a_queue_file_is_read_back saved_job sample_job "Media: letter" words_saveable)
    as (file & H1 & H2).
  exists file. split; [exact H1|]. split; [exact H2 | reflexivity].
Defined.

(** But a text that is empty, other than the title, makes the line one that is
    not recognized. *)
Example an_empty_creator_cannot_be_read :
  match qentryfile_save (set_j_Creator (Some EmptyString) saved_job) with
  | Saved file =>
      match qentryfile_load (qentryfile_clear sample_job) file with
      | Loaded code _ _ => code
      | _ => 0
      end
  | _ => 0
  end = -1.
Proof. vm_compute. reflexivity. Qed.
