(* ===== verification/Utf8.v ===== *)
(** Reading UTF-8 (src/libgu/gu_utf8_decode.c).  What is left of the file or
    the string is a string; a file and a string are read alike, as a string has
    no NUL. *)
From S2P Require Import Prelude.
From S2P Require Import Text.

Definition INVALID_CHAR : Z := 63.

(** The bits of the first byte that belong to the character, and how many bytes
    are to follow. *)
Definition first_byte (c : Z) : option (Z * nat) :=
  if Z.land c 128 =? 0 then Some (c, 0%nat)
  else if Z.land c 224 =? 192 then Some (Z.land c 31, 1%nat)
  else if Z.land c 240 =? 224 then Some (Z.land c 15, 2%nat)
  else if Z.land c 248 =? 240 then Some (Z.land c 7, 3%nat)
  else if Z.land c 252 =? 248 then Some (Z.land c 3, 4%nat)
  else if Z.land c 254 =? 252 then Some (Z.land c 1, 5%nat)
  else None.

Inductive more :=
| More (c : Z) (rest : string)
| MoreEnd
| MoreInvalid (rest : string).

(** for(x=0; x < additional_bytes; x++) *)
Fixpoint more_bytes (additional_bytes : nat) (c : Z) (p : string) : more :=
  match additional_bytes with
  | O => More c p
  | S x =>
      match p with
      | EmptyString => MoreEnd
      | String ca p' =>
          if Z.land (code ca) 192 =? 128
          then more_bytes x (Z.lor (Z.shiftl c 6) (Z.land (code ca) 63)) p'
          else MoreInvalid p'
      end
  end.

(** The largest character a shorter sequence can hold. *)
Definition overlong (additional_bytes : nat) (c : Z) : bool :=
  match additional_bytes with
  | 1%nat => c <=? 127
  | 2%nat => c <=? 2047
  | 3%nat => c <=? 65535
  | 4%nat => c <=? 2097151
  | 5%nat => c <=? 67108863
  | _ => false
  end.

Definition forbidden (c : Z) : bool :=
  ((55296 <=? c) && (c <=? 57343)) || (c =? 65534) || (c =? 65535).

Definition gu_utf8_getwc (p : string) : Z * string :=
  match p with
  | EmptyString => (0, EmptyString)
  | String b p' =>
      match first_byte (code b) with
      | None => (INVALID_CHAR, p')
      | Some (c, O) => (c, p')
      | Some (c, n) =>
          match more_bytes n c p' with
          | MoreEnd => (0, EmptyString)
          | MoreInvalid rest => (INVALID_CHAR, rest)
          | More c' rest =>
              if overlong n c' || forbidden c' then (INVALID_CHAR, rest) else (c', rest)
          end
      end
  end.

Definition WEOF : Z := -1.

Definition gu_utf8_fgetwc (f : string) : Z * string :=
  let '(wc, rest) := gu_utf8_getwc f in (if wc =? 0 then WEOF else wc, rest).

Definition gu_utf8_sgetwc (p : string) : Z * string := gu_utf8_getwc p.

(** The characters gu_utf8_fputs() (src/libgu/gu_utf8_put.c) writes: up to the
    first that is read as zero.  Every character takes a byte at least. *)
Fixpoint wide_chars (fuel : nat) (p : string) : list Z :=
  match fuel with
  | O => []
  | S fuel' =>
      let '(wc, rest) := gu_utf8_sgetwc p in
      if wc =? 0 then [] else wc :: wide_chars fuel' rest
  end.

Definition gu_utf8_fputs (s : string) : list Z := wide_chars (String.length s) s.

Example overlong_slash : (gu_utf8_sgetwc (String (chr 192) (String (chr 175) "x"))).1 = INVALID_CHAR.
Proof. reflexivity. Qed.
