(* ===== verification/PropUtf8.v ===== *)
(** Properties of the UTF-8 decoder: it reads what the standard encoding of a
    character is, and nothing else. *)
From S2P Require Import Prelude.
From S2P Require Import Text.
From S2P Require Import TextFacts.
From S2P Require Import Utf8.

(** * The encoding (RFC 2279) *)

(** [n] continuation bytes with the low bits of [c]. *)
Fixpoint continuation (n : nat) (c : Z) : string :=
  match n with
  | O => EmptyString
  | S n' => String (chr (128 + c / 64 ^ Z.of_nat n' mod 64)) (continuation n' c)
  end.

Definition extra_bytes (c : Z) : nat :=
  if c <? 128 then 0 else if c <? 2048 then 1 else if c <? 65536 then 2
  else if c <? 2097152 then 3 else if c <? 67108864 then 4 else 5.

(** The marks of the first bytes. *)
Definition lead (n : nat) : Z :=
  match n with
  | 0%nat => 0 | 1%nat => 192 | 2%nat => 224 | 3%nat => 240 | 4%nat => 248 | _ => 252
  end.

Definition utf8 (c : Z) : string :=
  let n := extra_bytes c in
  String (chr (lead n + c / 64 ^ Z.of_nat n)) (continuation n c).

(** Characters: thirty-one bits, not zero, and neither halves of UTF-16 pairs
    (D800 to DFFF) nor FFFE or FFFF. *)
Record character (c : Z) : Prop := {
  character_range : 1 ≤ c < 2147483648;
  character_whole : c < 0xD800 ∨ 0xDFFF < c;
  character_allowed : c ≠ 0xFFFE ∧ c ≠ 0xFFFF;
}.

Lemma character_forbidden c : character c ↔ 1 ≤ c < 2147483648 ∧ forbidden c = false.
Proof.
  unfold forbidden. split; [intros [H1 H2 H3]; split; lia | intros [H1 H2]; constructor; lia].
Qed.

(** * Bytes *)

Definition first_byte_spec (k : Z) : option (Z * nat) :=
  if k <? 128 then Some (k, 0%nat)
  else if k <? 192 then None
  else if k <? 224 then Some (k - 192, 1%nat)
  else if k <? 240 then Some (k - 224, 2%nat)
  else if k <? 248 then Some (k - 240, 3%nat)
  else if k <? 252 then Some (k - 248, 4%nat)
  else if k <? 254 then Some (k - 252, 5%nat)
  else None.

Lemma first_byte_table a : first_byte (code a) = first_byte_spec (code a).
Proof. by destruct a as [[] [] [] [] [] [] [] []]. Qed.

Lemma continuation_byte a :
  (Z.land (code a) 192 =? 128) = (128 <=? code a) && (code a <? 192) ∧
  Z.land (code a) 63 = code a mod 64.
Proof. destruct a as [[] [] [] [] [] [] [] []]; by split. Qed.

Lemma shift_in c d : 0 ≤ c → 0 ≤ d < 64 → Z.lor (Z.shiftl c 6) d = c * 64 + d.
Proof. intros _ Hd. rewrite Z.shiftl_mul_pow2 by done. by apply (lor_low c 6). Qed.

Lemma more_bytes_reads n acc c p :
  0 ≤ acc → 0 ≤ c →
  more_bytes n acc (continuation n c +:+ p) = More (acc * 64 ^ Z.of_nat n + c mod 64 ^ Z.of_nat n) p.
Proof.
  intros Ha Hc. revert acc Ha. induction n as [|n IH]; intros acc Ha.
  - change (continuation 0 c +:+ p) with p. simpl. f_equal. rewrite Z.mod_1_r. lia.
  - cbn [continuation]. rewrite str_cons_app. cbn [more_bytes].
    pose proof (Z.mod_pos_bound (c / 64 ^ Z.of_nat n) 64 ltac:(done)) as Hd.
    set (d := _ mod 64) in *.
    destruct (continuation_byte (chr (128 + d))) as [-> ->].
    rewrite code_of_chr by lia. rewrite (proj2 (Z.leb_le _ _)), (proj2 (Z.ltb_lt _ _)) by lia.
    cbn [andb]. replace ((128 + d) mod 64) with d
      by (rewrite <- (Z.mod_small d 64) at 1 by done; rewrite <- Z.add_mod_idemp_l by done; done).
    rewrite shift_in by lia. rewrite IH by lia. f_equal.
    rewrite Nat2Z.inj_succ, Z.pow_succ_r by lia.
    rewrite (Z.mul_comm 64 (64 ^ Z.of_nat n)).
    rewrite (Z.rem_mul_r c (64 ^ Z.of_nat n) 64) by (try apply Z.pow_nonzero; lia).
    fold d. lia.
Qed.

Lemma more_bytes_only n acc p c rest :
  0 ≤ acc → more_bytes n acc p = More c rest →
  p = continuation n c +:+ rest ∧ c / 64 ^ Z.of_nat n = acc ∧ 0 ≤ c.
Proof.
  revert acc p. induction n as [|n IH]; intros acc p Ha E.
  - injection E as -> ->. split; [done|]. split; [apply Z.div_1_r | done].
  - destruct p as [|a p]; [done|]. cbn [more_bytes] in E.
    destruct (continuation_byte a) as [E1 E2]. rewrite E1, E2 in E.
    destruct ((128 <=? code a) && (code a <? 192)) eqn:Er; [|done].
    apply andb_true_iff in Er as [Hl%Z.leb_le Hh%Z.ltb_lt].
    pose proof (Z.mod_pos_bound (code a) 64 ltac:(done)) as Hd.
    rewrite shift_in in E by done. apply IH in E as (-> & Eq & Hc); [|lia].
    assert (code a mod 64 = code a - 128) as Em
      by (symmetry; apply (Z.mod_unique_pos _ _ 2); lia).
    split; [|split; [|done]].
    + cbn [continuation]. rewrite str_cons_app. f_equal.
      rewrite Eq, (Z.add_comm (acc * 64)), Z.mod_add, Z.mod_mod, Em by done.
      replace (128 + (code a - 128)) with (code a) by lia. by rewrite chr_of_code.
    + rewrite Nat2Z.inj_succ, Z.pow_succ_r by lia. rewrite Z.mul_comm.
      rewrite <- Z.div_div by (try apply Z.pow_nonzero; lia). rewrite Eq.
      rewrite Z.add_comm, Z.div_add by done. rewrite Z.div_small by done. lia.
Qed.

(** Which characters take how many bytes. *)
Definition first_of (n : nat) : Z :=
  match n with
  | 0%nat => 0 | 1%nat => 128 | 2%nat => 2048 | 3%nat => 65536 | 4%nat => 2097152 | _ => 67108864
  end.

Lemma extra_bytes_range c :
  0 ≤ c < 2147483648 →
  (extra_bytes c ≤ 5)%nat ∧ first_of (extra_bytes c) ≤ c < first_of (S (extra_bytes c)) ∨
  extra_bytes c = 5%nat ∧ first_of 5 ≤ c.
Proof.
  intros Hc. unfold extra_bytes.
  repeat (match goal with |- context [?a <? ?b] => destruct (Z.ltb_spec a b) end);
    simpl; lia.
Qed.

Lemma extra_bytes_unique n c :
  (n ≤ 5)%nat → first_of n ≤ c → (n = 5%nat ∨ c < first_of (S n)) → extra_bytes c = n.
Proof.
  intros Hn Hl Hh. unfold extra_bytes.
  do 6 (destruct n as [|n]; [simpl in *;
    repeat (match goal with |- context [?a <? ?b] => destruct (Z.ltb_spec a b) end); lia|]).
  lia.
Qed.

(** The first byte of [n + 1]. *)
Lemma first_byte_lead n d :
  (n ≤ 5)%nat → 0 ≤ d < (if Nat.eqb n 0 then 128 else 2 ^ (6 - Z.of_nat n)) →
  first_byte (code (chr (lead n + d))) = Some (d, n).
Proof.
  intros Hn Hd. do 6 (destruct n as [|n]; [
    simpl in Hd; rewrite first_byte_table, code_of_chr by (simpl; lia);
    unfold first_byte_spec, lead;
    repeat (match goal with |- context [?a <? ?b] => destruct (Z.ltb_spec a b); [try lia|try lia] end);
    do 2 f_equal; lia|]).
  lia.
Qed.

(** The bits in the first byte. *)
Lemma lead_bits c :
  0 ≤ c < 2147483648 →
  0 ≤ c / 64 ^ Z.of_nat (extra_bytes c)
    < (if Nat.eqb (extra_bytes c) 0 then 128 else 2 ^ (6 - Z.of_nat (extra_bytes c))).
Proof.
  intros Hc. split; [apply Z.div_pos; [lia | apply Z.pow_pos_nonneg; lia]|].
  apply Z.div_lt_upper_bound; [apply Z.pow_pos_nonneg; lia|].
  destruct (extra_bytes_range c Hc) as [[Hn [_ Hh]]|[Hn Hl]]; [|rewrite Hn; simpl; lia].
  revert Hh. generalize (extra_bytes c) Hn. intros n Hn'.
  do 6 (destruct n as [|n]; [simpl; lia|]). lia.
Qed.

Lemma not_overlong n c :
  (n ≤ 5)%nat → overlong n c = (if Nat.eqb n 0 then false else c <? first_of n).
Proof.
  intros Hn. do 6 (destruct n as [|n]; [simpl; try done; lia|]). lia.
Qed.

Lemma extra_bytes_first c :
  0 ≤ c < 2147483648 → (extra_bytes c ≤ 5)%nat ∧ first_of (extra_bytes c) ≤ c.
Proof. intros Hc. destruct (extra_bytes_range c Hc) as [[? []]|[-> ?]]; [done | split; [lia | done]]. Qed.

Lemma getwc_first b p :
  gu_utf8_getwc (String b p) =
  match first_byte (code b) with
  | None => (INVALID_CHAR, p)
  | Some (c, n) =>
      if Nat.eqb n 0 then (c, p)
      else match more_bytes n c p with
           | MoreEnd => (0, EmptyString)
           | MoreInvalid rest => (INVALID_CHAR, rest)
           | More c' rest =>
               if overlong n c' || forbidden c' then (INVALID_CHAR, rest) else (c', rest)
           end
  end.
Proof. simpl. by destruct (first_byte _) as [[c [|n]]|]. Qed.

Lemma utf8_read c p : character c → gu_utf8_sgetwc (utf8 c +:+ p) = (c, p).
Proof.
  intros [Hc Hf]%character_forbidden. destruct (extra_bytes_first c ltac:(lia)) as [Hn Hfirst].
  unfold gu_utf8_sgetwc, utf8. rewrite str_cons_app, getwc_first.
  rewrite first_byte_lead by (done || apply lead_bits; lia).
  pose proof (not_overlong (extra_bytes c) c Hn) as Ho.
  set (n := extra_bytes c) in *. destruct (Nat.eqb_spec n 0) as [E|E].
  - rewrite E. simpl. by rewrite Z.div_1_r.
  - rewrite more_bytes_reads; [|apply Z.div_pos; [lia | apply Z.pow_pos_nonneg; lia] | lia].
    replace (c / 64 ^ Z.of_nat n * 64 ^ Z.of_nat n + c mod 64 ^ Z.of_nat n) with c
      by (rewrite Z.mul_comm; apply Z.div_mod, Z.pow_nonzero; lia).
    rewrite Ho, Hf, (proj2 (Z.ltb_ge _ _)) by done. done.
Qed.

Lemma first_byte_only a d n :
  first_byte (code a) = Some (d, n) →
  (n ≤ 5)%nat ∧ a = chr (lead n + d) ∧
  0 ≤ d < (if Nat.eqb n 0 then 128 else 2 ^ (6 - Z.of_nat n)).
Proof.
  rewrite first_byte_table. pose proof (code_range a) as Hr.
  assert ((n ≤ 5)%nat ∧ code a = lead n + d ∧
    0 ≤ d < (if Nat.eqb n 0 then 128 else 2 ^ (6 - Z.of_nat n)) →
    (n ≤ 5)%nat ∧ a = chr (lead n + d) ∧
    0 ≤ d < (if Nat.eqb n 0 then 128 else 2 ^ (6 - Z.of_nat n))) as Hs
    by (intros (? & <- & ?); by rewrite chr_of_code).
  intros E. apply Hs. clear Hs. revert E. unfold first_byte_spec.
  generalize (code a) Hr. intros k Hk.
  repeat (match goal with |- context [k <? ?y] => destruct (Z.ltb_spec k y) end);
    intros E; try discriminate E; injection E as <- <-; simpl; lia.
Qed.

Lemma utf8_only c p rest :
  gu_utf8_sgetwc p = (c, rest) → c ≠ 0 → c ≠ INVALID_CHAR →
  p = utf8 c +:+ rest ∧ character c.
Proof.
  unfold gu_utf8_sgetwc. destruct p as [|b p]; [by injection 1|]. rewrite getwc_first.
  destruct (first_byte (code b)) as [[d n]|] eqn:Eb; [|by injection 1].
  apply first_byte_only in Eb as (Hn & -> & Hd). intros E Hc0 Hci.
  pose proof (Z.pow_pos_nonneg 64 (Z.of_nat n) ltac:(done) ltac:(lia)) as Hpow.
  destruct (Nat.eqb_spec n 0) as [->|Hn0].
  - injection E as <- <-. simpl in Hd. assert (extra_bytes d = 0%nat) as En
      by (apply extra_bytes_unique; simpl; lia).
    split; [|apply character_forbidden; split; [lia|]]; [|unfold forbidden; lia].
    unfold utf8. rewrite En. simpl. by rewrite Z.div_1_r.
  - destruct (more_bytes n d p) as [c' rest'| |rest'] eqn:Em;
      [|by injection E as <- <- | by injection E as <- <-].
    destruct (overlong n c' || forbidden c') eqn:Ebad; [by injection E as <- <-|].
    injection E as -> ->. apply orb_false_iff in Ebad as [Eo Ef].
    rewrite not_overlong in Eo by done. rewrite (proj2 (Nat.eqb_neq _ _) Hn0) in Eo.
    apply Z.ltb_ge in Eo. apply more_bytes_only in Em as (-> & Eq & Hc'); [|lia].
    rewrite <- Eq in Hd. pose proof (Z.div_mod c (64 ^ Z.of_nat n) ltac:(lia)) as Edm.
    pose proof (Z.mod_pos_bound c (64 ^ Z.of_nat n) Hpow) as Hm.
    assert (c < first_of (S n) ∨ n = 5%nat ∧ c < 2147483648) as Hub.
    { clear -Hn Hn0 Hd Edm Hm. do 6 (destruct n as [|n]; [simpl in *; lia|]). lia. }
    assert (c < 2147483648) as Hmax.
    { destruct Hub as [Hu|[_ Hu]]; [|done]. clear -Hn Hu.
      do 6 (destruct n as [|n]; [simpl in *; lia|]). lia. }
    assert (extra_bytes c = n) as En by (apply extra_bytes_unique; [done | done | lia]).
    split; [|apply character_forbidden; split; [lia | done]]. unfold utf8. rewrite En, Eq. by rewrite str_cons_app.
Qed.

(** C23: the decoder reads what the standard says, and nothing else: what it
    returns for the next bytes, but for the end of the text and the mark of
    what is invalid, is a character, and the bytes are the one encoding of that
    character; and every character that is encoded is read.  Sequences that are
    longer than need be, halves of UTF-16 pairs (D800 to DFFF), FFFE and FFFF,
    stray bytes and sequences that break off are not read as anything. *)
Theorem utf8_is_read_by_the_standard c p rest :
  c ≠ 0 → c ≠ INVALID_CHAR →
  gu_utf8_sgetwc p = (c, rest) ↔ character c ∧ p = utf8 c +:+ rest.
Proof.
  intros H0 Hi. split.
  - intros E. by destruct (utf8_only c p rest E).
  - intros [Hc ->]. by apply utf8_read.
Qed.

(** The euro sign; and half of a pair, which is not read. *)
Lemma utf8_is_read_by_the_standard_witness :
  gu_utf8_sgetwc (String (chr 226) (String (chr 130) (String (chr 172) "!"))) = (8364, "!") ∧
  gu_utf8_sgetwc (utf8 0xD800 +:+ "!") ≠ (0xD800, "!").
Proof.
  split.
  - apply (utf8_is_read_by_the_standard 8364); [discriminate | discriminate |].
    split; [constructor; lia | vm_compute; reflexivity].
  - intros E. apply (utf8_is_read_by_the_standard 0xD800) in E as [[_ H _] _]; [lia | discriminate | discriminate].
Defined.

(** A whole text is written character by character, whatever its length. *)
Definition encoded (cs : list Z) : string := foldr (λ c s, utf8 c +:+ s) EmptyString cs.

Lemma encoded_long cs : (length cs ≤ String.length (encoded cs))%nat.
Proof.
  induction cs as [|c cs IH]; [done|].
  change (encoded (c :: cs)) with (utf8 c +:+ encoded cs). unfold utf8.
  rewrite length_app_str. cbn [String.length length]. lia.
Qed.

Lemma wide_chars_encoded fuel cs :
  Forall character cs → (length cs ≤ fuel)%nat → wide_chars fuel (encoded cs) = cs.
Proof.
  intros Hcs. revert fuel.
  induction Hcs as [|c cs Hc Hcs IH]; intros [|fuel] Hl; simpl in Hl; try lia; try done.
  change (encoded (c :: cs)) with (utf8 c +:+ encoded cs). cbn [wide_chars].
  rewrite utf8_read by done. destruct Hc as [Hc _ _].
  rewrite (proj2 (Z.eqb_neq c 0)) by lia. by rewrite IH by lia.
Qed.

Theorem a_text_is_written_character_by_character cs :
  Forall character cs → gu_utf8_fputs (encoded cs) = cs.
Proof. intros Hcs. apply wide_chars_encoded; [done | apply encoded_long]. Qed.
