(* ===== verification/Containers.v ===== *)
(** Containers: what a table of names promises to the code that uses it (the
    operations, an abstract map, and a law for each operation); the hash tables
    (src/libgu/gu_pch.c) and the growing arrays (src/libgu/gu_pca.c).  The hash
    tables keep the promise (PropContainers.v); RequestAttrs.v is written against
    it. *)
From S2P Require Import Prelude.
From S2P Require Import Text.

Class DictOps (T V : Type) := {
  d_new : Z → string + T;
  d_set : string → V → M T unit;
  d_get : string → M T (option V);
  d_delete : string → M T (option V);
  d_size : M T Z;
}.

Class Dictionary (T V : Type) `{DictOps T V} := {
  d_map : T → gmap string V → Prop;
  d_new_law n : 1 ≤ n < 2147483648 → ∃ t, d_new n = inr t ∧ d_map t ∅;
  d_set_law t m k v :
    d_map t m → ∃ t', d_set k v t = Done tt t' ∧ d_map t' (<[k := v]> m);
  d_get_law t m k : d_map t m → d_get k t = Done (m !! k) t;
  d_delete_law t m k :
    d_map t m → ∃ t', d_delete k t = Done (m !! k) t' ∧ d_map t' (delete k m);
  d_size_law t m : d_map t m → d_size t = Done (Z.of_nat (size m)) t;
}.

(** * Sequences of operations *)

Inductive dict_op (V : Type) :=
| OpSet (k : string) (v : V)
| OpGet (k : string)
| OpDelete (k : string)
| OpSize.
Arguments OpSet {V} _ _.
Arguments OpGet {V} _.
Arguments OpDelete {V} _.
Arguments OpSize {V}.

Inductive dict_answer (V : Type) :=
| Nothing
| Value (v : option V)
| Count (n : Z).
Arguments Nothing {V}.
Arguments Value {V} _.
Arguments Count {V} _.

Section sequences.
Context {T V : Type} `{Dictionary T V}.

Definition dict_do (op : dict_op V) : M T (dict_answer V) :=
  match op with
  | OpSet k v => d_set k v;; mret Nothing
  | OpGet k => v ← d_get k; mret (Value v)
  | OpDelete k => v ← d_delete k; mret (Value v)
  | OpSize => n ← d_size; mret (Count n)
  end.

Fixpoint dict_run (ops : list (dict_op V)) : M T (list (dict_answer V)) :=
  match ops with
  | [] => mret []
  | op :: ops' => a ← dict_do op; l ← dict_run ops'; mret (a :: l)
  end.

(** The same on a map. *)
Definition map_do (op : dict_op V) (m : gmap string V) : dict_answer V * gmap string V :=
  match op with
  | OpSet k v => (Nothing, <[k := v]> m)
  | OpGet k => (Value (m !! k), m)
  | OpDelete k => (Value (m !! k), delete k m)
  | OpSize => (Count (Z.of_nat (size m)), m)
  end.

Fixpoint map_run (ops : list (dict_op V)) (m : gmap string V)
    : list (dict_answer V) * gmap string V :=
  match ops with
  | [] => ([], m)
  | op :: ops' =>
      let '(a, m') := map_do op m in
      let '(l, m'') := map_run ops' m' in (a :: l, m'')
  end.

Lemma dict_do_simulates op t m :
  d_map t m →
  ∃ t', dict_do op t = Done (map_do op m).1 t' ∧ d_map t' (map_do op m).2.
Proof.
  intros Ht. destruct op as [k v|k|k|]; simpl.
  - destruct (d_set_law t m k v Ht) as (t' & E & Ht').
    exists t'. by rewrite (bind_done _ _ _ _ _ E).
  - exists t. by rewrite (bind_done _ _ _ _ _ (d_get_law t m k Ht)).
  - destruct (d_delete_law t m k Ht) as (t' & E & Ht').
    exists t'. by rewrite (bind_done _ _ _ _ _ E).
  - exists t. by rewrite (bind_done _ _ _ _ _ (d_size_law t m Ht)).
Qed.

Lemma dict_run_simulates ops t m :
  d_map t m →
  ∃ t', dict_run ops t = Done (map_run ops m).1 t' ∧ d_map t' (map_run ops m).2.
Proof.
  revert t m. induction ops as [|op ops IH]; intros t m Ht; [by exists t|].
  destruct (dict_do_simulates op t m Ht) as (t1 & E1 & Ht1).
  simpl. destruct (map_do op m) as [a m1]. simpl in E1, Ht1.
  destruct (IH t1 m1 Ht1) as (t2 & E2 & Ht2).
  destruct (map_run ops m1) as [l m2]. exists t2.
  rewrite (bind_done _ _ _ _ _ E1), (bind_done _ _ _ _ _ E2). done.
Qed.
End sequences.

(** * Hash tables (src/libgu/gu_pch.c).  An entry has an address, as the iterator
    keeps a pointer to one: what happens to an entry while the iterator points
    at it is seen through the pointer, and a pointer to an entry that was freed
    reads what the language leaves undefined. *)

Definition PCH_MAGIC : Z := 16897.

(** * gu_hash() *)

Definition hash_step (total : Z) (c : ascii) : Z :=
  let total := u32 (u32 (Z.shiftl total 4) + schar c) in
  let temp := i32 (Z.land total 4026531840) in
  if temp =? 0 then total
  else Z.lxor (Z.lxor total (u32 (Z.shiftr temp 24))) (u32 temp).

Fixpoint hash_total (total : Z) (string : string) : Z :=
  match string with
  | EmptyString => total
  | String c p => hash_total (hash_step total c) p
  end.

Definition gu_hash (string : string) (modus : Z) : Z :=
  i32 (hash_total 0 string mod u32 modus).

(** * Tables *)

Record PCH_ENTRY (V : Type) := mkEntry {
  e_addr : Z;
  e_key : string;
  e_value : V;
}.
Arguments mkEntry {V} _ _ _.
Arguments e_addr {V} _.
Arguments e_key {V} _.
Arguments e_value {V} _.

(** [pch_next_addr] is where gu_alloc() puts the next entry. *)
Record PCH (V : Type) := mkPCH {
  pch_magic : Z;
  pch_buckets : list (list (PCH_ENTRY V));
  pch_bucket_count : Z;
  pch_key_count : Z;
  pch_current_bucket : Z;
  pch_next_item : option Z;
  pch_next_addr : Z;
}.
Arguments mkPCH {V} _ _ _ _ _ _ _.
Arguments pch_magic {V} _.
Arguments pch_buckets {V} _.
Arguments pch_bucket_count {V} _.
Arguments pch_key_count {V} _.
Arguments pch_current_bucket {V} _.
Arguments pch_next_item {V} _.
Arguments pch_next_addr {V} _.

Section table.
Context {V : Type}.
Abbreviation entry := (PCH_ENTRY V).
Abbreviation H := (M (PCH V)).

(** gu_pch_new() throws when it is asked for no buckets. *)
Definition gu_pch_new (bucket_count : Z) : string + PCH V :=
  if bucket_count <? 1 then inl "gu_pch_new(): bucket count must be at least one"
  else inr (mkPCH PCH_MAGIC (replicate (Z.to_nat bucket_count) []) bucket_count 0 (-1) None 0).

Definition check_magic (msg : string) : H unit :=
  p ← gets id; if pch_magic p =? PCH_MAGIC then mret tt else gu_Throw msg.

(** &p->buckets[gu_hash(key,p->bucket_count)] *)
Definition bucket_of (p : PCH V) (key : string) : nat :=
  Z.to_nat (gu_hash key (pch_bucket_count p)).

Definition bucket (key : string) : H (list entry) :=
  p ← gets id;
  match pch_buckets p !! bucket_of p key with
  | Some b => mret b
  | None => undef "buckets[]"
  end.

Definition set_bucket (key : string) (b : list entry) : H unit :=
  modify (λ p, mkPCH (pch_magic p) (<[bucket_of p key := b]> (pch_buckets p))
    (pch_bucket_count p) (pch_key_count p) (pch_current_bucket p) (pch_next_item p)
    (pch_next_addr p)).

Definition add_keys (n : Z) : H unit :=
  modify (λ p, mkPCH (pch_magic p) (pch_buckets p) (pch_bucket_count p) (pch_key_count p + n)
    (pch_current_bucket p) (pch_next_item p) (pch_next_addr p)).

Definition alloc_entry : H Z :=
  p ← gets id;
  modify (λ p, mkPCH (pch_magic p) (pch_buckets p) (pch_bucket_count p) (pch_key_count p)
    (pch_current_bucket p) (pch_next_item p) (pch_next_addr p + 1));;
  mret (pch_next_addr p).

(** Walking down a bucket: strcmp(entry->key, key) *)
Fixpoint find_entry (key : string) (b : list entry) : option entry :=
  match b with
  | [] => None
  | e :: b' => if String.eqb (e_key e) key then Some e else find_entry key b'
  end.

Fixpoint update_entry (key : string) (value : V) (b : list entry) : list entry :=
  match b with
  | [] => []
  | e :: b' =>
      if String.eqb (e_key e) key then mkEntry (e_addr e) (e_key e) value :: b'
      else e :: update_entry key value b'
  end.

Fixpoint unlink_entry (key : string) (b : list entry) : list entry :=
  match b with
  | [] => []
  | e :: b' => if String.eqb (e_key e) key then b' else e :: unlink_entry key b'
  end.

Definition gu_pch_set (key : string) (value : V) : H unit :=
  check_magic "gu_pch_set(): bad magic";;
  b ← bucket key;
  match find_entry key b with
  | Some _ => set_bucket key (update_entry key value b)
  | None =>
      a ← alloc_entry;
      set_bucket key (b ++ [mkEntry a key value]);;
      add_keys 1
  end.

Definition gu_pch_get (key : string) : H (option V) :=
  check_magic "gu_pch_get(): bad magic";;
  b ← bucket key;
  mret (e_value <$> find_entry key b).

Definition gu_pch_delete (key : string) : H (option V) :=
  b ← bucket key;
  match find_entry key b with
  | Some e => set_bucket key (unlink_entry key b);; add_keys (-1);; mret (Some (e_value e))
  | None => mret None
  end.

Definition gu_pch_size : H Z := gets pch_key_count.

(** * Iteration *)

Definition set_place (current : Z) (next : option Z) : H unit :=
  modify (λ p, mkPCH (pch_magic p) (pch_buckets p) (pch_bucket_count p) (pch_key_count p)
    current next (pch_next_addr p)).

Definition gu_pch_rewind : H unit := set_place (-1) None.

(** while(++p->current_bucket < p->bucket_count) *)
Fixpoint next_bucket (bs : list (list entry)) (current : Z) : Z * option Z :=
  match bs with
  | [] => (current + 1, None)
  | [] :: bs' => next_bucket bs' (current + 1)
  | (e :: _) :: _ => (current + 1, Some (e_addr e))
  end.

(** The entry at an address, and the one after it in its bucket. *)
Fixpoint at_address (a : Z) (b : list entry) : option (entry * option Z) :=
  match b with
  | [] => None
  | e :: b' =>
      if e_addr e =? a then Some (e, e_addr <$> head b') else at_address a b'
  end.

Definition dereference (a : Z) (bs : list (list entry)) : option (entry * option Z) :=
  foldr (λ b r, match at_address a b with Some x => Some x | None => r end) None bs.

Definition gu_pch_nextkey : H (option (string * V)) :=
  p ← gets id;
  match pch_next_item p with
  | Some _ => mret tt
  | None =>
      let '(current, next) :=
        next_bucket (drop (Z.to_nat (pch_current_bucket p + 1)) (pch_buckets p))
          (pch_current_bucket p) in
      set_place current next
  end;;
  p ← gets id;
  match pch_next_item p with
  | None => mret None
  | Some a =>
      match dereference a (pch_buckets p) with
      | None => undef "freed entry"
      | Some (e, next) =>
          set_place (pch_current_bucket p) next;; mret (Some (e_key e, e_value e))
      end
  end.
End table.

(** for(gu_pch_rewind(h); (key = gu_pch_nextkey(h, &value)); ) *)
Fixpoint keys_from {V} (fuel : nat) : M (PCH V) (list (string * V)) :=
  match fuel with
  | O => λ _, Stopped SFuel
  | S fuel' =>
      kv ← gu_pch_nextkey;
      match kv with
      | None => mret []
      | Some kv => kvs ← keys_from fuel'; mret (kv :: kvs)
      end
  end.

Definition all_keys {V} (fuel : nat) : M (PCH V) (list (string * V)) :=
  gu_pch_rewind;; keys_from fuel.

Example hash_of_sue : gu_hash "sue" 10 = 3.
Proof. vm_compute. reflexivity. Qed.

(** * Arrays that grow and shrink at both ends (src/libgu/gu_pca.c).  The slots of
    storage[] that were never written hold nothing the program may read. *)

Definition PCA_MAGIC : Z := 16898.

Record PCA (V : Type) := mkPCA {
  pca_magic : Z;
  removed_at_start : Z;
  size_used : Z;
  size_allocated : Z;
  increment : Z;
  storage : list (option V);
}.
Arguments mkPCA {V} _ _ _ _ _ _.
Arguments pca_magic {V} _.
Arguments removed_at_start {V} _.
Arguments size_used {V} _.
Arguments size_allocated {V} _.
Arguments increment {V} _.
Arguments storage {V} _.

Section array.
Context {V : Type}.
Abbreviation A := (M (PCA V)).

Definition gu_pca_new (initial_size increment : Z) : string + PCA V :=
  if initial_size <? 0 then inl "gu_pca_new(): initial_size must not be negative"
  else if increment <? 0 then inl "gu_pca_new(): increement must not be negative"
  else inr (mkPCA PCA_MAGIC 0 0 initial_size increment (replicate (Z.to_nat initial_size) None)).

Definition check_array (msg : string) : A unit :=
  p ← gets id; if pca_magic p =? PCA_MAGIC then mret tt else gu_Throw msg.

(** storage[i], read and written *)
Definition slot (i : Z) : A V :=
  p ← gets id;
  match storage p !! Z.to_nat i with
  | Some (Some v) => if 0 <=? i then mret v else undef "storage[]"
  | _ => undef "storage[]"
  end.

Definition set_slot (i : Z) (v : V) : A unit :=
  p ← gets id;
  if (0 <=? i) && (i <? Z.of_nat (length (storage p))) then
    modify (λ p, mkPCA (pca_magic p) (removed_at_start p) (size_used p) (size_allocated p)
      (increment p) (<[Z.to_nat i := Some v]> (storage p)))
  else undef "storage[]".

Definition set_extent (removed used : Z) : A unit :=
  modify (λ p, mkPCA (pca_magic p) removed used (size_allocated p) (increment p) (storage p)).

(** memmove(), of [count] pointers *)
Definition move_slots (dst src count : Z) : A unit :=
  p ← gets id;
  if (0 <=? count) && (0 <=? src) && (0 <=? dst)
     && (src + count <=? Z.of_nat (length (storage p)))
     && (dst + count <=? Z.of_nat (length (storage p))) then
    let s := storage p in
    let n := Z.to_nat count in
    let moved := take n (drop (Z.to_nat src) s) in
    modify (λ p, mkPCA (pca_magic p) (removed_at_start p) (size_used p) (size_allocated p)
      (increment p) (take (Z.to_nat dst) s ++ moved ++ drop (Z.to_nat dst + n) s))
  else undef "memmove()".

(** What gu_realloc() adds is not initialized. *)
Definition gu_pca_expand : A unit :=
  p ← gets id;
  if increment p <=? 0 then gu_Throw "gu_pca_expand(): array is not growable"
  else
    modify (λ p, mkPCA (pca_magic p) (removed_at_start p) (size_used p)
      (size_allocated p + increment p) (increment p)
      (storage p ++ replicate (Z.to_nat (increment p)) None)).

Definition gu_pca_size : A Z :=
  check_array "gu_pca_size(): bad magic";;
  p ← gets id; mret (size_used p - removed_at_start p).

Definition gu_pca_index (index : Z) : A (option V) :=
  check_array "gu_pca_index(): bad magic";;
  p ← gets id;
  let index := index + removed_at_start p in
  if (0 <=? index) && (index <=? size_used p) then v ← slot index; mret (Some v)
  else mret None.

Definition gu_pca_pop : A (option V) :=
  check_array "gu_pca_pop(): bad magic";;
  p ← gets id;
  if removed_at_start p <? size_used p then
    set_extent (removed_at_start p) (size_used p - 1);;
    v ← slot (size_used p - 1); mret (Some v)
  else mret None.

Definition gu_pca_push (item : V) : A unit :=
  check_array "gu_pca_push(): bad magic";;
  p ← gets id;
  when (size_used p =? size_allocated p)
    (if 0 <? removed_at_start p then
       move_slots 0 (removed_at_start p) (size_used p - removed_at_start p);;
       set_extent 0 (size_used p - removed_at_start p)
     else gu_pca_expand);;
  p ← gets id;
  set_slot (size_used p) item;;
  set_extent (removed_at_start p) (size_used p + 1).

Definition gu_pca_shift : A (option V) :=
  check_array "gu_pca_shift(): bad magic";;
  p ← gets id;
  if removed_at_start p <? size_used p then
    v ← slot (removed_at_start p);
    set_extent (removed_at_start p + 1) (size_used p);;
    mret (Some v)
  else mret None.

Definition gu_pca_unshift (item : V) : A unit :=
  check_array "gu_pca_unshift(): bad magic";;
  p ← gets id;
  if 0 <? removed_at_start p then
    set_extent (removed_at_start p - 1) (size_used p);;
    set_slot (removed_at_start p - 1) item
  else
    when (size_used p =? size_allocated p) gu_pca_expand;;
    move_slots 1 0 (size_used p);;
    set_extent (removed_at_start p) (size_used p + 1);;
    set_slot 0 item.
End array.
