(* ===== verification/PropContainers.v ===== *)
(** Properties of the hash tables and of the arrays: a table is a finite map,
    its iterator visits every key once, and an array is a list. *)
From S2P Require Import Prelude.
From S2P Require Import Text.
From S2P Require Import Containers.

#[export] Instance pch_ops V : DictOps (PCH V) V := {|
  d_new := gu_pch_new;
  d_set := gu_pch_set;
  d_get := gu_pch_get;
  d_delete := gu_pch_delete;
  d_size := gu_pch_size;
|}.

Lemma gu_hash_range s n : 1 ≤ n < 2147483648 → 0 ≤ gu_hash s n < n.
Proof.
  intros Hn. unfold gu_hash. rewrite (u32_small n) by lia.
  pose proof (Z.mod_pos_bound (hash_total 0 s) n ltac:(lia)) as Hm.
  rewrite i32_small; lia.
Qed.

Section table.
Context {V : Type}.
Abbreviation entry := (PCH_ENTRY V).
Implicit Types (p : PCH V) (b : list entry) (e : entry).

(** * Buckets *)

Lemma find_entry_None k b : find_entry k b = None ↔ k ∉ (e_key <$> b).
Proof.
  induction b as [|e b IH]; simpl; [split; [intros _; apply not_elem_of_nil | done]|].
  rewrite not_elem_of_cons. destruct (String.eqb_spec (e_key e) k) as [E|E].
  - split; [done | intros []; congruence].
  - rewrite IH. naive_solver.
Qed.

Lemma find_entry_Some k b e :
  find_entry k b = Some e →
  ∃ b1 b2, b = b1 ++ e :: b2 ∧ e_key e = k ∧
    (∀ v, update_entry k v b = b1 ++ mkEntry (e_addr e) k v :: b2) ∧
    unlink_entry k b = b1 ++ b2.
Proof.
  induction b as [|e' b IH]; simpl; [done|].
  destruct (String.eqb_spec (e_key e') k) as [E|E].
  - intros [= ->]. exists [], b. subst k. done.
  - intros (b1 & b2 & -> & Ek & Hu & Hl)%IH. exists (e' :: b1), b2.
    split; [done|]. split; [done|]. split; [intros v; by rewrite Hu | by rewrite Hl].
Qed.

Lemma elem_of_concat {A} (x : A) (ls : list (list A)) :
  x ∈ concat ls ↔ ∃ i l, ls !! i = Some l ∧ x ∈ l.
Proof.
  induction ls as [|l ls IH]; simpl.
  - split; [intros []%not_elem_of_nil | by intros (i & l & [=] & _)].
  - rewrite elem_of_app, IH. split.
    + intros [Hx|(i & l' & Hi & Hx)]; [by exists 0%nat, l | by exists (S i), l'].
    + intros ([|i] & l' & Hi & Hx); [left; by injection Hi as -> | right; by exists i, l'].
Qed.

(** * Well-formed tables *)

Definition entries p : list entry := concat (pch_buckets p).

Definition pairs (l : list entry) : list (string * V) := (λ e, (e_key e, e_value e)) <$> l.

Record wf p : Prop := mkWf {
  wf_magic : pch_magic p = PCH_MAGIC;
  wf_count : Z.of_nat (length (pch_buckets p)) = pch_bucket_count p;
  wf_range : 1 ≤ pch_bucket_count p < 2147483648;
  wf_place : ∀ i b e, pch_buckets p !! i = Some b → e ∈ b → bucket_of p (e_key e) = i;
  wf_keys : NoDup (e_key <$> entries p);
  wf_addrs : NoDup (e_addr <$> entries p);
  wf_fresh : Forall (λ e, e_addr e < pch_next_addr p) (entries p);
  wf_size : pch_key_count p = Z.of_nat (length (entries p));
}.

Definition table_map p (m : gmap string V) : Prop :=
  wf p ∧ list_to_map (pairs (entries p)) = m.

Lemma pairs_keys l : (pairs l).*1 = e_key <$> l.
Proof. unfold pairs. rewrite <- list_fmap_compose. by apply list_fmap_ext. Qed.

Lemma wf_bucket p k :
  wf p → ∃ b l1 l2, pch_buckets p !! bucket_of p k = Some b ∧ entries p = l1 ++ b ++ l2 ∧
    (∀ b', concat (<[bucket_of p k := b']> (pch_buckets p)) = l1 ++ b' ++ l2) ∧
    k ∉ (e_key <$> l1 ++ l2).
Proof.
  intros Hp. pose proof (gu_hash_range k (pch_bucket_count p) (wf_range p Hp)) as Hh.
  pose proof (wf_count p Hp) as Hc.
  destruct (lookup_lt_is_Some_2 (pch_buckets p) (bucket_of p k)) as [b Hb];
    [unfold bucket_of; lia|].
  exists b, (concat (take (bucket_of p k) (pch_buckets p))),
    (concat (drop (S (bucket_of p k)) (pch_buckets p))).
  split; [done|]. split; [|split].
  - unfold entries. rewrite <- (take_drop_middle _ _ _ Hb) at 1. rewrite concat_app. done.
  - intros b'. rewrite insert_take_drop by (by eapply lookup_lt_Some).
    rewrite concat_app. done.
  - intros (e & Ek & He)%list_elem_of_fmap. subst k.
    rewrite elem_of_app, !elem_of_concat in He.
    destruct He as [(i & b' & Hi & Hin)|(i & b' & Hi & Hin)].
    + apply lookup_take_Some in Hi as [Hi Hlt].
      pose proof (wf_place p Hp _ _ _ Hi Hin). lia.
    + rewrite lookup_drop in Hi. pose proof (wf_place p Hp _ _ _ Hi Hin). lia.
Qed.
(** * The laws *)

Lemma entries_map l e R :
  NoDup (e_key <$> l) → l ≡ₚ e :: R →
  (list_to_map (pairs l) : gmap string V) = <[e_key e := e_value e]> (list_to_map (pairs R)) ∧
  (list_to_map (pairs R) : gmap string V) !! e_key e = None.
Proof.
  intros Hn HP. split.
  - change (<[e_key e := e_value e]> (list_to_map (pairs R)))
      with (list_to_map (pairs (e :: R)) : gmap string V).
    apply list_to_map_proper; [by rewrite pairs_keys | unfold pairs; by rewrite HP].
  - apply not_elem_of_list_to_map_1. rewrite pairs_keys.
    rewrite HP in Hn. by apply NoDup_cons in Hn as [].
Qed.

Lemma bucket_done p k b : pch_buckets p !! bucket_of p k = Some b → bucket k p = Done b p.
Proof. intros Hb. unfold bucket, gets, mbind, M_bind. simpl. by rewrite Hb. Qed.

Lemma check_magic_done p msg : wf p → check_magic msg p = Done tt p.
Proof.
  intros Hp. unfold check_magic, gets, mbind, M_bind. simpl. by rewrite (wf_magic p Hp).
Qed.

Lemma bucket_lookup p k :
  wf p → ∃ b, bucket k p = Done b p ∧
    (list_to_map (pairs (entries p)) : gmap string V) !! k = e_value <$> find_entry k b.
Proof.
  intros Hp. destruct (wf_bucket p k Hp) as (b & l1 & l2 & Hb & He & _ & Hk).
  exists b. split; [by apply bucket_done|].
  pose proof (wf_keys p Hp) as Hn.
  destruct (find_entry k b) as [e|] eqn:Ef; simpl.
  - apply find_entry_Some in Ef as (b1 & b2 & -> & <- & _).
    destruct (entries_map (entries p) e (l1 ++ b1 ++ b2 ++ l2) Hn) as [-> _];
      [rewrite He; solve_Permutation | by rewrite lookup_insert_eq].
  - apply find_entry_None in Ef. apply not_elem_of_list_to_map_1.
    rewrite pairs_keys, He. rewrite !fmap_app in *. set_solver.
Qed.

(** The table with another bucket in the place of the one of [k]. *)
Definition with_bucket p (k : string) b (n next : Z) : PCH V :=
  mkPCH (pch_magic p) (<[bucket_of p k := b]> (pch_buckets p)) (pch_bucket_count p)
    (pch_key_count p + n) (pch_current_bucket p) (pch_next_item p) next.

Lemma wf_with_bucket p k b b' n next :
  wf p → pch_buckets p !! bucket_of p k = Some b →
  Forall (λ e, e ∈ b ∨ e_key e = k) b' →
  NoDup (e_key <$> entries (with_bucket p k b' n next)) →
  NoDup (e_addr <$> entries (with_bucket p k b' n next)) →
  Forall (λ e, e_addr e < next) (entries (with_bucket p k b' n next)) →
  pch_key_count p + n = Z.of_nat (length (entries (with_bucket p k b' n next))) →
  wf (with_bucket p k b' n next).
Proof.
  intros Hp Hb Hb' Hk Ha Hf Hs. split; try done.
  - apply Hp.
  - simpl. rewrite length_insert. apply Hp.
  - apply Hp.
  - intros i b2 e Hi He. simpl in Hi.
    change (bucket_of p (e_key e) = i).
    apply list_lookup_insert_Some in Hi as [(<- & <- & _)|[_ Hi]]; [|by eapply wf_place].
    rewrite Forall_forall in Hb'. destruct (Hb' e He) as [He'| ->]; [|done].
    by eapply wf_place.
Qed.

Lemma gu_pch_set_map p m k v :
  table_map p m → ∃ p', gu_pch_set k v p = Done tt p' ∧ table_map p' (<[k := v]> m).
Proof.
  intros [Hp <-]. destruct (wf_bucket p k Hp) as (b & l1 & l2 & Hb & He & Hput & Hk).
  pose proof (wf_keys p Hp) as Hnk. pose proof (wf_addrs p Hp) as Hna.
  pose proof (wf_fresh p Hp) as Hfr. pose proof (wf_size p Hp) as Hsz.
  assert (gu_pch_set k v p = Done tt (match find_entry k b with
    | Some _ => with_bucket p k (update_entry k v b) 0 (pch_next_addr p)
    | None => with_bucket p k (b ++ [mkEntry (pch_next_addr p) k v]) 1 (pch_next_addr p + 1)
    end)) as ->.
  { unfold gu_pch_set. rewrite (bind_done _ _ _ _ _ (check_magic_done p _ Hp)).
    rewrite (bind_done _ _ _ _ _ (bucket_done p k b Hb)).
    destruct (find_entry k b); [|done].
    unfold with_bucket. by rewrite Z.add_0_r. }
  eexists. split; [done|].
  destruct (find_entry k b) as [e|] eqn:Ef.
  - apply find_entry_Some in Ef as (b1 & b2 & -> & <- & Hu & _). rewrite Hu. clear Hu.
    set (e' := mkEntry (e_addr e) (e_key e) v).
    assert (entries (with_bucket p (e_key e) (b1 ++ e' :: b2) 0 (pch_next_addr p)) ≡ₚ
      e' :: (l1 ++ b1 ++ b2 ++ l2)) as HP'
      by (unfold entries, with_bucket; simpl; rewrite Hput; solve_Permutation).
    assert (entries p ≡ₚ e :: (l1 ++ b1 ++ b2 ++ l2)) as HP by (rewrite He; solve_Permutation).
    assert (wf (with_bucket p (e_key e) (b1 ++ e' :: b2) 0 (pch_next_addr p))) as Hp'.
    { eapply wf_with_bucket; [done | done | | | | |].
      - apply Forall_forall. intros x [Hx|[->|Hx]%elem_of_cons]%elem_of_app; set_solver.
      - rewrite HP'. rewrite HP in Hnk. exact Hnk.
      - rewrite HP'. rewrite HP in Hna. exact Hna.
      - rewrite HP'. rewrite HP in Hfr. apply Forall_cons in Hfr as [].
        by apply Forall_cons.
      - rewrite HP', Z.add_0_r, Hsz. by rewrite HP. }
    split; [done|].
    destruct (entries_map _ _ _ Hnk HP) as [-> _].
    destruct (entries_map _ _ _ (wf_keys _ Hp') HP') as [-> _]. simpl.
    by rewrite insert_insert_eq.
  - apply find_entry_None in Ef. set (e' := mkEntry (pch_next_addr p) k v).
    assert (entries (with_bucket p k (b ++ [e']) 1 (pch_next_addr p + 1)) ≡ₚ
      e' :: entries p) as HP'
      by (unfold entries at 1, with_bucket; simpl; rewrite Hput, He; solve_Permutation).
    assert (wf (with_bucket p k (b ++ [e']) 1 (pch_next_addr p + 1))) as Hp'.
    { eapply wf_with_bucket; [done | done | | | | |].
      - apply Forall_forall. intros x [Hx|Hx%list_elem_of_singleton]%elem_of_app; set_solver.
      - rewrite HP', fmap_cons. apply NoDup_cons. split; [|done]. rewrite He, !fmap_app. simpl.
        rewrite fmap_app in Hk. set_solver.
      - rewrite HP', fmap_cons. apply NoDup_cons. split; [|done]. simpl.
        intros (x & Ex & Hx)%list_elem_of_fmap. rewrite Forall_forall in Hfr.
        pose proof (Hfr x Hx). lia.
      - rewrite HP'. apply Forall_cons. split; [simpl; lia|].
        eapply Forall_impl; [exact Hfr | intros x Hx; simpl in Hx; lia].
      - rewrite HP'. simpl. lia. }
    split; [done|]. by destruct (entries_map _ _ _ (wf_keys _ Hp') HP') as [-> _].
Qed.

Lemma gu_pch_get_map p m k : table_map p m → gu_pch_get k p = Done (m !! k) p.
Proof.
  intros [Hp <-]. destruct (bucket_lookup p k Hp) as (b & Hb & ->).
  unfold gu_pch_get. rewrite (bind_done _ _ _ _ _ (check_magic_done p _ Hp)).
  by rewrite (bind_done _ _ _ _ _ Hb).
Qed.

Lemma gu_pch_delete_map p m k :
  table_map p m → ∃ p', gu_pch_delete k p = Done (m !! k) p' ∧ table_map p' (delete k m).
Proof.
  intros [Hp <-]. destruct (wf_bucket p k Hp) as (b & l1 & l2 & Hb & He & Hput & Hk).
  destruct (bucket_lookup p k Hp) as (b' & Hb' & Ek). rewrite Ek.
  rewrite (bucket_done p k b Hb) in Hb'. injection Hb' as <-.
  pose proof (bucket_done p k b Hb) as Hb'.
  unfold gu_pch_delete. rewrite (bind_done _ _ _ _ _ Hb').
  destruct (find_entry k b) as [e|] eqn:Ef; simpl.
  - apply find_entry_Some in Ef as (b1 & b2 & -> & <- & _ & ->).
    exists (with_bucket p (e_key e) (b1 ++ b2) (-1) (pch_next_addr p)). split; [done|].
    assert (entries (with_bucket p (e_key e) (b1 ++ b2) (-1) (pch_next_addr p)) =
      l1 ++ (b1 ++ b2) ++ l2) as E' by (unfold entries, with_bucket; simpl; by rewrite Hput).
    assert (entries p ≡ₚ e :: (l1 ++ (b1 ++ b2) ++ l2)) as HP by (rewrite He; solve_Permutation).
    destruct (entries_map _ _ _ (wf_keys _ Hp) HP) as [Em Hnone].
    pose proof (wf_keys p Hp) as Hnk. pose proof (wf_addrs p Hp) as Hna.
    pose proof (wf_fresh p Hp) as Hfr. pose proof (wf_size p Hp) as Hsz.
    rewrite HP in Hnk, Hna, Hfr, Hsz.
    rewrite fmap_cons in Hnk. rewrite fmap_cons in Hna.
    apply NoDup_cons in Hnk as [_ Hnk].
    apply NoDup_cons in Hna as [_ Hna]. apply Forall_cons in Hfr as [_ Hfr].
    split.
    + eapply wf_with_bucket; [done | done | | rewrite E'..]; try done.
      * apply Forall_forall. set_solver.
      * simpl in Hsz. lia.
    + rewrite E', Em. by rewrite delete_insert_id.
  - exists p. split; [done|]. split; [done|]. symmetry. apply delete_id.
    exact Ek.
Qed.

Lemma gu_pch_size_map p m : table_map p m → gu_pch_size p = Done (Z.of_nat (size m)) p.
Proof.
  intros [Hp <-]. unfold gu_pch_size, gets. rewrite (wf_size p Hp).
  rewrite map_size_list_to_map by (rewrite pairs_keys; apply Hp).
  unfold pairs. by rewrite length_fmap.
Qed.

Lemma concat_empty {A} n : concat (replicate n ([] : list A)) = [].
Proof. by induction n. Qed.

Lemma gu_pch_new_map n :
  1 ≤ n < 2147483648 → ∃ p, gu_pch_new n = inr p ∧ table_map p ∅.
Proof.
  intros Hn. unfold gu_pch_new. rewrite (proj2 (Z.ltb_ge _ _)) by lia.
  eexists. split; [done|]. unfold table_map, entries. simpl. rewrite concat_empty.
  split; [|done]. split; simpl; try done; unfold entries; simpl;
    rewrite ?concat_empty; simpl; try constructor; try lia.
  - rewrite length_replicate. lia.
  - by intros i b e [-> _]%lookup_replicate []%not_elem_of_nil.
Qed.
(** * Iteration *)

(** The entries from an address on. *)
Fixpoint from_address (a : Z) (b : list entry) : list entry :=
  match b with
  | [] => []
  | e :: b' => if e_addr e =? a then b else from_address a b'
  end.

(** What the iterator has still to visit. *)
Definition rest p : list entry :=
  match pch_next_item p with
  | None => concat (drop (Z.to_nat (pch_current_bucket p + 1)) (pch_buckets p))
  | Some a =>
      match pch_buckets p !! Z.to_nat (pch_current_bucket p) with
      | Some b => from_address a b
      | None => []
      end ++ concat (drop (Z.to_nat (pch_current_bucket p + 1)) (pch_buckets p))
  end.
(** The iterator stands at a living entry, or between buckets. *)
Definition at_place p : Prop :=
  -1 ≤ pch_current_bucket p ∧
  match pch_next_item p with
  | None => True
  | Some a => ∃ b, pch_buckets p !! Z.to_nat (pch_current_bucket p) = Some b ∧
      a ∈ (e_addr <$> b) ∧ 0 ≤ pch_current_bucket p
  end.

Definition moved p (current : Z) (next : option Z) : PCH V :=
  mkPCH (pch_magic p) (pch_buckets p) (pch_bucket_count p) (pch_key_count p) current next
    (pch_next_addr p).

Lemma wf_moved p current next : wf p → wf (moved p current next).
Proof. intros []. by split. Qed.

Lemma at_address_None a b : at_address a b = None ↔ a ∉ (e_addr <$> b).
Proof.
  induction b as [|e b IH]; simpl; [split; [intros _; apply not_elem_of_nil | done]|].
  rewrite not_elem_of_cons. destruct (Z.eqb_spec (e_addr e) a) as [E|E].
  - split; [done | intros []; congruence].
  - rewrite IH. naive_solver.
Qed.

Lemma at_address_in a b :
  a ∈ (e_addr <$> b) →
  ∃ e l, from_address a b = e :: l ∧ at_address a b = Some (e, e_addr <$> head l) ∧
    ∃ l0, b = l0 ++ e :: l.
Proof.
  induction b as [|e b IH]; simpl; [by intros []%not_elem_of_nil|].
  rewrite elem_of_cons. destruct (Z.eqb_spec (e_addr e) a) as [E|E].
  - intros _. exists e, b. split; [done|]. split; [done|]. by exists [].
  - intros [->|H]; [done|]. destruct (IH H) as (e' & l & E1 & E2 & l0 & E3).
    exists e', l. rewrite E1, E2. split; [done|]. split; [done|]. exists (e :: l0). by rewrite E3.
Qed.

Lemma dereference_in a bs i b :
  NoDup (e_addr <$> concat bs) → bs !! i = Some b → a ∈ (e_addr <$> b) →
  dereference a bs = at_address a b.
Proof.
  revert i. induction bs as [|b' bs IH]; intros i Hn Hi Ha; [done|].
  simpl in Hn. rewrite fmap_app in Hn. apply NoDup_app in Hn as (_ & Hd & Hn).
  destruct i as [|i]; simpl in *.
  - injection Hi as ->. destruct (at_address_in a b Ha) as (e & l & _ & E & _). by rewrite E.
  - rewrite (proj2 (at_address_None a b')); [by eapply IH|].
    intros Ha'. apply (Hd a Ha'). apply list_elem_of_fmap in Ha as (e & -> & He).
    apply list_elem_of_fmap. exists e. split; [done|]. apply elem_of_concat. by exists i, b.
Qed.

Lemma next_bucket_spec bs current :
  match next_bucket bs current with
  | (_, None) => concat bs = []
  | (current', Some a) =>
      ∃ k e b, bs !! k = Some (e :: b) ∧ a = e_addr e ∧ current' = current + 1 + Z.of_nat k ∧
        concat bs = (e :: b) ++ concat (drop (S k) bs)
  end.
Proof.
  revert current. induction bs as [|[|e b] bs IH]; intros current; simpl; [done| |].
  - specialize (IH (current + 1)). destruct (next_bucket bs (current + 1)) as [c [a|]]; [|done].
    destruct IH as (k & e & b & Hk & -> & -> & E). exists (S k), e, b.
    split; [done|]. split; [done|]. split; [lia | done].
  - exists 0%nat, e, b. split; [done|]. split; [done|]. split; [lia | done].
Qed.

Definition pair_of e : string * V := (e_key e, e_value e).

(** One step, from an entry the iterator points at. *)
Lemma nextkey_at p a b :
  wf p → pch_next_item p = Some a → 0 ≤ pch_current_bucket p →
  pch_buckets p !! Z.to_nat (pch_current_bucket p) = Some b → a ∈ (e_addr <$> b) →
  ∃ e R p', rest p = e :: R ∧ gu_pch_nextkey p = Done (Some (pair_of e)) p' ∧
    p' = moved p (pch_current_bucket p) (pch_next_item p') ∧ at_place p' ∧ rest p' = R.
Proof.
  intros Hp Ha Hc Hb Hin. destruct (at_address_in a b Hin) as (e & l & Ef & Ed & l0 & El).
  exists e, (l ++ concat (drop (Z.to_nat (pch_current_bucket p + 1)) (pch_buckets p))),
    (moved p (pch_current_bucket p) (e_addr <$> head l)).
  split; [unfold rest; by rewrite Ha, Hb, Ef|].
  split; [|split; [done|]].
  { unfold gu_pch_nextkey, gets, mbind, M_bind. simpl. rewrite Ha. simpl. rewrite Ha.
    rewrite (dereference_in a _ _ b (wf_addrs p Hp) Hb Hin), Ed. done. }
  assert (NoDup (e_addr <$> b)) as Hn.
  { pose proof (wf_addrs p Hp) as Hn. unfold entries in Hn.
    rewrite <- (take_drop_middle _ _ _ Hb), concat_app in Hn. simpl in Hn.
    rewrite !fmap_app in Hn. apply NoDup_app in Hn as (_ & _ & Hn).
    by apply NoDup_app in Hn as (Hn & _). }
  unfold at_place, rest, moved. simpl. destruct l as [|e2 l]; simpl; [split; [split; lia || done | done]|].
  split; [split; [lia|]|].
  - exists b. split; [done|]. split; [|done]. rewrite El. set_solver.
  - rewrite Hb. f_equal. rewrite El in *. clear -Hn.
    induction l0 as [|e0 l0 IH]; simpl in *.
    + apply NoDup_cons in Hn as [He _].
      destruct (Z.eqb_spec (e_addr e) (e_addr e2)) as [E|_]; [set_solver|].
      by rewrite Z.eqb_refl.
    + apply NoDup_cons in Hn as [He Hn].
      destruct (Z.eqb_spec (e_addr e0) (e_addr e2)) as [E|_]; [|by apply IH].
      exfalso. apply He. rewrite E, fmap_app. set_solver.
Qed.
(** One step, from between two buckets. *)
Lemma nextkey_between p :
  wf p → pch_next_item p = None → at_place p →
  match rest p with
  | [] => ∃ p', gu_pch_nextkey p = Done None p' ∧ p' = moved p (pch_current_bucket p') None
  | e :: R =>
      ∃ p', gu_pch_nextkey p = Done (Some (pair_of e)) p' ∧
        p' = moved p (pch_current_bucket p') (pch_next_item p') ∧ at_place p' ∧ rest p' = R
  end.
Proof.
  intros Hp Hn [Hc _]. pose (n := Z.to_nat (pch_current_bucket p + 1)).
  pose proof (next_bucket_spec (drop n (pch_buckets p)) (pch_current_bucket p)) as Hs.
  assert (gu_pch_nextkey p = (let '(c, nx) := next_bucket (drop n (pch_buckets p))
    (pch_current_bucket p) in
    match nx with
    | None => Done None (moved p c None)
    | Some a => gu_pch_nextkey (moved p c (Some a))
    end)) as ->.
  { unfold gu_pch_nextkey at 1, gets, mbind, M_bind. simpl. rewrite Hn. fold n.
    by destruct (next_bucket _ _) as [c [a|]]. }
  assert (rest p = concat (drop n (pch_buckets p))) as -> by (unfold rest; by rewrite Hn).
  destruct (next_bucket _ _) as [c [a|]].
  - destruct Hs as (k & e & b & Hk & -> & -> & ->). rewrite lookup_drop in Hk.
    assert (Z.to_nat (pch_current_bucket p + 1 + Z.of_nat k) = (n + k)%nat) as En by lia.
    destruct (nextkey_at (moved p (pch_current_bucket p + 1 + Z.of_nat k) (Some (e_addr e)))
      (e_addr e) (e :: b)) as (e' & R & p' & Hr & E & Ep & Hat & HR).
    + by apply wf_moved.
    + done.
    + simpl. lia.
    + simpl. by rewrite En.
    + set_solver.
    + unfold rest in Hr. simpl in Hr. rewrite En, Hk in Hr. simpl in Hr.
      rewrite Z.eqb_refl in Hr. injection Hr as <- <-. simpl.
      exists p'. split; [done|]. split; [by rewrite Ep|]. split; [done|].
      rewrite HR, drop_drop. do 3 f_equal. lia.
  - rewrite Hs. by exists (moved p c None).
Qed.

Lemma nextkey_step p :
  wf p → at_place p →
  match rest p with
  | [] => ∃ p', gu_pch_nextkey p = Done None p' ∧ p' = moved p (pch_current_bucket p') None
  | e :: R =>
      ∃ p', gu_pch_nextkey p = Done (Some (pair_of e)) p' ∧
        p' = moved p (pch_current_bucket p') (pch_next_item p') ∧ at_place p' ∧ rest p' = R
  end.
Proof.
  intros Hp Hat. destruct (pch_next_item p) as [a|] eqn:Hn.
  - pose proof Hat as [_ Hat']. rewrite Hn in Hat'. destruct Hat' as (b & Hb & Ha & Hc).
    destruct (nextkey_at p a b Hp Hn Hc Hb Ha) as (e & R & p' & -> & E & Ep & Hat' & HR).
    exists p'. split; [done|]. split; [by rewrite Ep | done].
  - by apply nextkey_between.
Qed.

Lemma keys_from_rest fuel p :
  wf p → at_place p → (length (rest p) < fuel)%nat →
  ∃ p', keys_from fuel p = Done (pairs (rest p)) p' ∧
    p' = moved p (pch_current_bucket p') (pch_next_item p').
Proof.
  revert p. induction fuel as [|fuel IH]; intros p Hp Hat Hl; [lia|].
  pose proof (nextkey_step p Hp Hat) as Hs. simpl.
  destruct (rest p) as [|e R] eqn:Er.
  - destruct Hs as (p' & E & Ep). exists p'. rewrite (bind_done _ _ _ _ _ E).
    split; [done|]. by rewrite Ep.
  - destruct Hs as (p1 & E & Ep & Hat1 & HR). simpl in Hl.
    destruct (IH p1) as (p2 & E2 & Ep2).
    + rewrite Ep. by apply wf_moved.
    + done.
    + rewrite HR. lia.
    + exists p2. rewrite (bind_done _ _ _ _ _ E), (bind_done _ _ _ _ _ E2), HR.
      split; [done|]. by rewrite Ep2, Ep.
Qed.
End table.

#[export] Instance pch_dictionary V : Dictionary (PCH V) V := {|
  d_map := table_map;
  d_new_law := gu_pch_new_map;
  d_set_law := gu_pch_set_map;
  d_get_law := gu_pch_get_map;
  d_delete_law := gu_pch_delete_map;
  d_size_law := gu_pch_size_map;
|}.

(** C28: with however many buckets it was made, a hash table answers every
    sequence of operations as a finite map does: collisions of hash values show
    nowhere. *)
Theorem a_hash_table_is_a_map {V} n (ops : list (dict_op V)) :
  1 ≤ n < 2147483648 →
  ∃ p p', gu_pch_new n = inr p ∧ dict_run ops p = Done (map_run ops ∅).1 p'.
Proof.
  intros Hn. destruct (gu_pch_new_map (V := V) n Hn) as (p & E & Hp).
  destruct (@dict_run_simulates _ _ _ (pch_dictionary V) ops p ∅ Hp) as (p' & E' & _). by exists p, p'.
Qed.

(** C29: the loop over the keys of a table ends, visits every key once with its
    value, and leaves what the table holds as it was. *)
Theorem iteration_visits_every_key_once {V} (p : PCH V) m fuel :
  table_map p m → (size m < fuel)%nat →
  ∃ kvs p', all_keys fuel p = Done kvs p' ∧ kvs ≡ₚ map_to_list m ∧ table_map p' m.
Proof.
  intros [Hp <-] Hf. rewrite map_size_list_to_map in Hf by (rewrite pairs_keys; apply Hp).
  assert (rest (moved p (-1) None) = entries p) as Er by done.
  destruct (keys_from_rest fuel (moved p (-1) None)) as (p' & E & Ep).
  - by apply wf_moved.
  - done.
  - rewrite Er. unfold pairs in Hf. by rewrite length_fmap in Hf.
  - exists (pairs (entries p)), p'. split; [|split].
    + unfold all_keys. by rewrite (bind_done _ _ p tt (moved p (-1) None)).
    + rewrite map_to_list_to_map; [done|]. rewrite pairs_keys. apply Hp.
    + rewrite Ep. split; [by apply wf_moved, wf_moved | done].
Qed.

(** * Witnesses *)

Definition sample_ops : list (dict_op string) :=
  [OpSet "sue" "secretary"; OpSet "john" "president"; OpGet "sue"; OpSet "john" "fired";
   OpDelete "math"; OpDelete "sue"; OpGet "sue"; OpGet "john"; OpSize].

Lemma a_hash_table_is_a_map_witness :
  ∃ p p', gu_pch_new 1 = inr p ∧
    dict_run sample_ops p = Done [Nothing; Nothing; Value (Some "secretary"); Nothing;
      Value None; Value (Some "secretary"); Value None; Value (Some "fired"); Count 1] p'.
Proof.
  destruct (a_hash_table_is_a_map 1 sample_ops) as (p & p' & E & E'); [lia|].
  exists p, p'. split; [exact E|]. rewrite E'. vm_compute. reflexivity.
Defined.

Definition sample_table : PCH string :=
  mkPCH PCH_MAGIC [[mkEntry 0 "john" "president"; mkEntry 1 "sue" "secretary"]] 1 2 0 None 2.

Lemma sample_table_ok : table_map sample_table
  (<["john" := "president"]> {["sue" := "secretary"]}).
Proof.
  split; [|reflexivity]. split; simpl; try done.
  - intros [|i] b e [= <-] [->|[->|[]%not_elem_of_nil]%elem_of_cons]%elem_of_cons;
      vm_compute; reflexivity.
  - by apply (bool_decide_unpack _).
  - by apply (bool_decide_unpack _).
  - by repeat constructor.
Qed.

Lemma iteration_visits_every_key_once_witness :
  ∃ kvs p', all_keys 3 sample_table = Done kvs p' ∧
    kvs ≡ₚ map_to_list (<["john" := "president"]> {["sue" := "secretary"]} : gmap string string) ∧
    table_map p' (<["john" := "president"]> {["sue" := "secretary"]}).
Proof.
  apply (iteration_visits_every_key_once sample_table _ 3 sample_table_ok).
  vm_compute. lia.
Defined.

(** * Properties of the arrays: an array is a list, until it has to grow and may
    not. *)

Section array.
Context {V : Type}.
Implicit Types (p : PCA V) (l : list V) (v : V).

(** The array holds [l]: its slots from removed_at_start to size_used. *)
Definition holds p l : Prop :=
  pca_magic p = PCA_MAGIC ∧ 0 ≤ removed_at_start p ∧ 0 ≤ increment p ∧
  Z.of_nat (length (storage p)) = size_allocated p ∧
  ∃ before after, storage p = before ++ (Some <$> l) ++ after ∧
    Z.of_nat (length before) = removed_at_start p ∧
    size_used p = removed_at_start p + Z.of_nat (length l).

Lemma holds_intro before l after inc n u :
  0 ≤ inc → Z.of_nat (length (before ++ (Some <$> l) ++ after)) = n →
  u = Z.of_nat (length before) + Z.of_nat (length l) →
  holds (mkPCA PCA_MAGIC (Z.of_nat (length before)) u n inc
    (before ++ (Some <$> l) ++ after)) l.
Proof. intros Hi <- ->. split; [done|]. split; [simpl; lia|]. split; [done|]. split; [done|]. by exists before, after. Qed.

Lemma holds_elim p l :
  holds p l →
  ∃ before after inc, 0 ≤ inc ∧ p = mkPCA PCA_MAGIC (Z.of_nat (length before))
    (Z.of_nat (length before) + Z.of_nat (length l))
    (Z.of_nat (length (before ++ (Some <$> l) ++ after))) inc (before ++ (Some <$> l) ++ after).
Proof.
  intros (Hm & Hr & Hi & Hn & before & after & Hs & Hb & Hu).
  exists before, after, (increment p). split; [done|].
  destruct p as [m r u n inc s]. simpl in *. by subst.
Qed.

Lemma slot_at before v after p :
  storage p = before ++ Some v :: after → slot (Z.of_nat (length before)) p = Done v p.
Proof.
  intros E. unfold slot, gets, mbind, M_bind. simpl. rewrite E, Nat2Z.id.
  rewrite list_lookup_middle by done. by rewrite (proj2 (Z.leb_le _ _)) by lia.
Qed.

Lemma set_slot_at before x v after p :
  storage p = before ++ x :: after →
  set_slot (Z.of_nat (length before)) v p =
    Done tt (mkPCA (pca_magic p) (removed_at_start p) (size_used p) (size_allocated p)
      (increment p) (before ++ Some v :: after)).
Proof.
  intros E. unfold set_slot, gets, modify, mbind, M_bind. simpl. rewrite E.
  rewrite (proj2 (Z.leb_le _ _)), (proj2 (Z.ltb_lt _ _)) by (rewrite ?length_app; simpl; lia).
  simpl. rewrite E, Nat2Z.id. by rewrite insert_app_r_alt, Nat.sub_diag.
Qed.

Lemma check_array_done p l msg : holds p l → check_array msg p = Done tt p.
Proof. intros [Hm _]. unfold check_array. run. by rewrite Hm. Qed.

Lemma move_slots_done dst src count p :
  0 ≤ count → 0 ≤ src → 0 ≤ dst →
  src + count ≤ Z.of_nat (length (storage p)) → dst + count ≤ Z.of_nat (length (storage p)) →
  move_slots dst src count p = Done tt (mkPCA (pca_magic p) (removed_at_start p) (size_used p)
    (size_allocated p) (increment p)
    (take (Z.to_nat dst) (storage p) ++ take (Z.to_nat count) (drop (Z.to_nat src) (storage p)) ++
     drop (Z.to_nat dst + Z.to_nat count) (storage p))).
Proof.
  intros H1 H2 H3 H4 H5. unfold move_slots. run.
  by rewrite !(proj2 (Z.leb_le _ _)).
Qed.

(** * The operations, and what they do to the list *)

Ltac past_the_check Hp := rewrite (bind_done _ _ _ _ _ (check_array_done _ _ _ Hp)); run.

Lemma gu_pca_size_list p l : holds p l → gu_pca_size p = Done (Z.of_nat (length l)) p.
Proof.
  intros Hp. unfold gu_pca_size. past_the_check Hp.
  destruct Hp as (_ & _ & _ & _ & _ & _ & _ & _ & ->). unfold mret, M_ret. f_equal. lia.
Qed.

Lemma gu_pca_index_list p l i v :
  holds p l → 0 ≤ i → l !! Z.to_nat i = Some v → gu_pca_index i p = Done (Some v) p.
Proof.
  intros Hp Hi Hv. unfold gu_pca_index. past_the_check Hp.
  apply holds_elim in Hp as (before & after & inc & _ & ->). simpl.
  apply list_elem_of_split_length in Hv as (l1 & l2 & -> & Hl).
  rewrite (proj2 (Z.leb_le _ _)), (proj2 (Z.leb_le _ _)) by (rewrite ?length_app; simpl; lia).
  simpl. replace (i + Z.of_nat (length before))
    with (Z.of_nat (length (before ++ (Some <$> l1)))) by (rewrite length_app, length_fmap; lia).
  erewrite bind_done; [|apply (slot_at _ v ((Some <$> l2) ++ after)); simpl].
  - done.
  - rewrite fmap_app. simpl. by rewrite <- !app_assoc.
Qed.

(** Behind the end, or before what was taken off at the start, there is nothing. *)
Lemma gu_pca_index_outside p l i :
  holds p l → Z.of_nat (length l) < i ∨ i < - removed_at_start p → gu_pca_index i p = Done None p.
Proof.
  intros Hp Hi. unfold gu_pca_index. past_the_check Hp.
  destruct Hp as (_ & Hr & _ & _ & _ & _ & _ & _ & Hu).
  assert ((0 <=? i + removed_at_start p) && (i + removed_at_start p <=? size_used p) = false) as ->; [|done].
  destruct Hi; [rewrite (proj2 (Z.leb_gt _ (size_used p))) by lia; apply andb_false_r
    | by rewrite (proj2 (Z.leb_gt 0 _)) by lia].
Qed.

Ltac fields := cbn [pca_magic removed_at_start size_used size_allocated increment storage].

Lemma gu_pca_shift_list p l :
  holds p l → ∃ p', gu_pca_shift p = Done (head l) p' ∧ holds p' (tail l) ∧ increment p' = increment p.
Proof.
  intros Hp. unfold gu_pca_shift. past_the_check Hp. pose proof Hp as Hp0.
  apply holds_elim in Hp as (before & after & inc & Hi & ->). fields.
  destruct l as [|v l].
  - rewrite (proj2 (Z.ltb_ge _ _)) by (simpl; lia). by eexists.
  - rewrite (proj2 (Z.ltb_lt _ _)) by (simpl; lia). rewrite fmap_cons. cbn [app].
    erewrite bind_done; [|by apply (slot_at before v ((Some <$> l) ++ after))].
    unfold set_extent. run. eexists. split; [done|]. fields. split; [|done].
    replace (Z.of_nat (length before) + 1) with (Z.of_nat (length (before ++ [Some v])))
      by (rewrite length_app; simpl; lia).
    replace (before ++ Some v :: (Some <$> l) ++ after)
      with ((before ++ [Some v]) ++ (Some <$> l) ++ after) by (by rewrite <- app_assoc).
    apply holds_intro; [done | done | rewrite length_app; simpl; lia].
Qed.

Lemma gu_pca_pop_list p l :
  holds p l → ∃ p', gu_pca_pop p = Done (last l) p' ∧ holds p' (removelast l) ∧ increment p' = increment p.
Proof.
  intros Hp. unfold gu_pca_pop. past_the_check Hp. pose proof Hp as Hp0.
  apply holds_elim in Hp as (before & after & inc & Hi & ->). fields.
  destruct l as [|v l _] using rev_ind.
  - rewrite (proj2 (Z.ltb_ge _ _)) by (simpl; lia). by eexists.
  - rewrite length_app. cbn [length]. rewrite (proj2 (Z.ltb_lt _ _)) by lia.
    unfold set_extent. run. rewrite last_snoc, removelast_last, fmap_app.
    cbn [fmap list_fmap]. rewrite <- (app_assoc (Some <$> l)). cbn [app]. fields.
    replace (Z.of_nat (length before) + Z.of_nat (length l + 1) - 1)
      with (Z.of_nat (length (before ++ (Some <$> l)))) by (rewrite length_app, length_fmap; lia).
    erewrite bind_done; [|apply (slot_at _ v after); fields; by rewrite <- app_assoc].
    eexists. split; [done|]. split; [|done]. rewrite length_app, length_fmap.
    apply (holds_intro before l (Some v :: after)); [done | done | lia].
Qed.

(** Writing behind the last element. *)
Lemma write_behind bf l x af n u inc v :
  0 ≤ inc → n = Z.of_nat (length (bf ++ (Some <$> l) ++ x :: af)) →
  u = Z.of_nat (length bf) + Z.of_nat (length l) →
  ∃ p',
    (p ← gets id; set_slot (size_used p) v;; set_extent (removed_at_start p) (size_used p + 1))
      (mkPCA PCA_MAGIC (Z.of_nat (length bf)) u n inc (bf ++ (Some <$> l) ++ x :: af)) =
      Done tt p' ∧ holds p' (l ++ [v]) ∧ increment p' = inc.
Proof.
  intros Hi -> ->. run. fields.
  replace (Z.of_nat (length bf) + Z.of_nat (length l))
    with (Z.of_nat (length (bf ++ (Some <$> l)))) by (rewrite length_app, length_fmap; lia).
  erewrite bind_done; [|apply (set_slot_at _ x v af); fields; by rewrite <- app_assoc].
  eexists. split; [done|]. fields. split; [|done].
  replace ((bf ++ (Some <$> l)) ++ Some v :: af) with (bf ++ (Some <$> l ++ [v]) ++ af)
    by (rewrite fmap_app, <- !app_assoc; done).
  apply holds_intro; [done | | rewrite !length_app, length_fmap; simpl; lia].
  rewrite !length_app, !length_fmap, length_app. simpl. lia.
Qed.

(** Adding at the end: a full array first moves its elements down, or grows. *)
Lemma gu_pca_push_list p l v :
  holds p l →
  (∃ p', gu_pca_push v p = Done tt p' ∧ holds p' (l ++ [v]) ∧ increment p' = increment p) ∨
  (increment p = 0 ∧ Z.of_nat (length l) = size_allocated p ∧
   gu_pca_push v p = Thrown "gu_pca_expand(): array is not growable" p).
Proof.
  intros Hp. unfold gu_pca_push. past_the_check Hp.
  apply holds_elim in Hp as (before & after & inc & Hi & ->). fields.
  destruct after as [|x af].
  - rewrite (proj2 (Z.eqb_eq _ _)) by (rewrite !length_app, length_fmap; simpl; lia).
    cbn [when]. destruct (Z.ltb_spec 0 (Z.of_nat (length before))) as [Hb|Hb].
    + left. run. erewrite bind_done; [|apply move_slots_done; fields;
        rewrite ?length_app, ?length_fmap; simpl; lia]. fields.
      unfold set_extent at 1. run. fields.
      rewrite app_nil_r, Nat2Z.id, drop_app_length.
      replace (Z.to_nat (Z.of_nat (length before) + Z.of_nat (length l) -
        Z.of_nat (length before))) with (length (Some <$> l)) by (rewrite length_fmap; lia).
      change (Z.to_nat 0) with 0%nat. rewrite take_0, firstn_all. cbn [app Nat.add].
      destruct (drop (length (Some <$> l)) (before ++ (Some <$> l))) as [|x af] eqn:Ed.
      { apply (f_equal length) in Ed. rewrite length_drop, length_app in Ed. simpl in Ed. lia. }
      apply (write_behind [] l x af); [done | | simpl; lia]. rewrite <- Ed. simpl.
      rewrite !length_app, length_drop, length_app. lia.
    + unfold gu_pca_expand. run. fields.
      destruct before; [|simpl in Hb; lia]. simpl app.
      destruct (Z.leb_spec inc 0) as [Hinc|Hinc].
      * right. split; [lia|]. rewrite app_nil_r, length_fmap. by split.
      * left. run. fields. rewrite app_nil_r.
        destruct (Z.to_nat inc) as [|m] eqn:Em; [lia|]. simpl replicate.
        apply (write_behind [] l None (replicate m None)); [done | | simpl; lia].
        simpl. rewrite !length_app, length_fmap. simpl. rewrite length_replicate. lia.
  - left. rewrite (proj2 (Z.eqb_neq _ _)) by (rewrite !length_app, length_fmap; simpl; lia).
    cbn [when]. run. by apply write_behind.
Qed.
(** Moving the elements up by one, and writing before them. *)
Lemma write_before l x af n inc v :
  0 ≤ inc → n = Z.of_nat (length ((Some <$> l) ++ x :: af)) →
  ∃ p',
    (move_slots 1 0 (Z.of_nat (length l));; set_extent 0 (Z.of_nat (length l) + 1);; set_slot 0 v)
      (mkPCA PCA_MAGIC 0 (Z.of_nat (length l)) n inc ((Some <$> l) ++ x :: af)) =
      Done tt p' ∧ holds p' (v :: l) ∧ increment p' = inc.
Proof.
  intros Hi ->. erewrite bind_done; [|apply move_slots_done; fields;
    rewrite ?length_app, ?length_fmap; simpl; lia]. fields.
  unfold set_extent. run. fields. rewrite Nat2Z.id. change (Z.to_nat 0) with 0%nat.
  rewrite drop_0. rewrite (take_app_length' (Some <$> l) (x :: af) (length l)) by (symmetry; apply length_fmap). change (Z.to_nat 1) with 1%nat.
  replace (drop (1 + length l) ((Some <$> l) ++ x :: af)) with af.
  2:{ rewrite <- (length_fmap Some l), Nat.add_1_l, cons_middle, app_assoc.
      replace (S (length (Some <$> l))) with (length ((Some <$> l) ++ [x]))
        by (rewrite length_app; simpl; lia). by rewrite drop_app_length. }
  destruct (take 1 ((Some <$> l) ++ x :: af)) as [|y ys] eqn:Ey;
    [by destruct l|]. assert (ys = []) as -> by (destruct l; by injection Ey).
  cbn [app]. change 0 with (Z.of_nat (length (@nil (option V)))).
  rewrite (set_slot_at [] y v ((Some <$> l) ++ af)) by done.
  eexists. split; [done|]. fields. split; [|done].
  apply (holds_intro [] (v :: l) af); [done | | simpl; lia].
  rewrite fmap_cons. cbn [app]. simpl. rewrite !length_app. simpl. lia.
Qed.

(** Adding at the start: the place of an element that was taken off is used
    again; otherwise all elements move up, and a full array grows. *)
Lemma gu_pca_unshift_list p l v :
  holds p l →
  (∃ p', gu_pca_unshift v p = Done tt p' ∧ holds p' (v :: l) ∧ increment p' = increment p) ∨
  (increment p = 0 ∧ Z.of_nat (length l) = size_allocated p ∧
   gu_pca_unshift v p = Thrown "gu_pca_expand(): array is not growable" p).
Proof.
  intros Hp. unfold gu_pca_unshift. past_the_check Hp.
  apply holds_elim in Hp as (before & after & inc & Hi & ->). fields.
  destruct before as [|y before _] using rev_ind.
  - cbn [app length]. rewrite Z.add_0_l. change (Z.of_nat 0) with 0. change (0 <? 0) with false.
    cbn iota.
    destruct after as [|x af].
    + rewrite app_nil_r, length_fmap, Z.eqb_refl. cbn [when].
      unfold gu_pca_expand. run. fields. destruct (Z.leb_spec inc 0) as [Hinc|Hinc].
      * right. split; [lia|]. fields. split; [lia | done].
      * left. run. fields. destruct (Z.to_nat inc) as [|m] eqn:Em; [lia|]. simpl replicate.
        apply write_before; [done|]. rewrite length_app, length_fmap. simpl.
        rewrite length_replicate. lia.
    + left. rewrite (proj2 (Z.eqb_neq _ _)) by (rewrite !length_app, length_fmap; simpl; lia).
      cbn [when]. run. by apply write_before.
  - left. rewrite length_app. cbn [length]. rewrite (proj2 (Z.ltb_lt _ _)) by lia.
    unfold set_extent. run. fields.
    replace (Z.of_nat (length before + 1) - 1) with (Z.of_nat (length before)) by lia.
    rewrite (set_slot_at before y v ((Some <$> l) ++ after)) by (fields; by rewrite <- app_assoc).
    eexists. split; [done|]. fields. split; [|done].
    apply (holds_intro before (v :: l) after); [done | | simpl; lia].
    rewrite fmap_cons, !length_app. cbn [length app]. rewrite ?length_app. lia.
Qed.
(** * Sequences of operations *)

Inductive array_op :=
| Push (v : V)
| Pop
| Shift
| Unshift (v : V)
| Index (i : Z)
| Size.

Inductive array_answer :=
| Silent
| Element (v : option V)
| Elements (n : Z).

Definition array_do (op : array_op) : M (PCA V) array_answer :=
  match op with
  | Push v => gu_pca_push v;; mret Silent
  | Pop => v ← gu_pca_pop; mret (Element v)
  | Shift => v ← gu_pca_shift; mret (Element v)
  | Unshift v => gu_pca_unshift v;; mret Silent
  | Index i => v ← gu_pca_index i; mret (Element v)
  | Size => n ← gu_pca_size; mret (Elements n)
  end.

Fixpoint array_run (ops : list array_op) : M (PCA V) (list array_answer) :=
  match ops with
  | [] => mret []
  | op :: ops' => a ← array_do op; r ← array_run ops'; mret (a :: r)
  end.

(** The same on a list, where an index behind the end finds nothing.  The index
    just behind the last element, and negative ones, are not among these
    sequences: what they find is not a matter of the list. *)
Definition list_do (op : array_op) l : option (array_answer * list V) :=
  match op with
  | Push v => Some (Silent, l ++ [v])
  | Pop => Some (Element (last l), removelast l)
  | Shift => Some (Element (head l), tail l)
  | Unshift v => Some (Silent, v :: l)
  | Index i =>
      if i <? 0 then None
      else match l !! Z.to_nat i with
           | Some v => Some (Element (Some v), l)
           | None => if Z.of_nat (length l) <? i then Some (Element None, l) else None
           end
  | Size => Some (Elements (Z.of_nat (length l)), l)
  end.

Fixpoint list_run (ops : list array_op) l : option (list array_answer * list V) :=
  match ops with
  | [] => Some ([], l)
  | op :: ops' =>
      '(a, l') ← list_do op l; '(r, l'') ← list_run ops' l'; Some (a :: r, l'')
  end.
Lemma array_do_list op p l a l' :
  holds p l → 0 < increment p → list_do op l = Some (a, l') →
  ∃ p', array_do op p = Done a p' ∧ holds p' l' ∧ increment p' = increment p.
Proof.
  intros Hp Hi E. destruct op as [v| | |v|i|]; simpl in E.
  - injection E as <- <-.
    destruct (gu_pca_push_list p l v Hp) as [(p' & E & H)|(H0 & _)]; [|lia].
    exists p'. simpl. by rewrite (bind_done _ _ _ _ _ E).
  - injection E as <- <-. destruct (gu_pca_pop_list p l Hp) as (p' & E & H).
    exists p'. simpl. by rewrite (bind_done _ _ _ _ _ E).
  - injection E as <- <-. destruct (gu_pca_shift_list p l Hp) as (p' & E & H).
    exists p'. simpl. by rewrite (bind_done _ _ _ _ _ E).
  - injection E as <- <-.
    destruct (gu_pca_unshift_list p l v Hp) as [(p' & E & H)|(H0 & _)]; [|lia].
    exists p'. simpl. by rewrite (bind_done _ _ _ _ _ E).
  - destruct (Z.ltb_spec i 0) as [|H0]; [done|].
    exists p. destruct (l !! Z.to_nat i) as [v|] eqn:Ev; [|destruct (Z.ltb_spec (Z.of_nat (length l)) i) as [Hl|]; [|done]];
      injection E as <- <-; simpl.
    + by rewrite (bind_done _ _ _ _ _ (gu_pca_index_list p l i v Hp H0 Ev)).
    + by rewrite (bind_done _ _ _ _ _ (gu_pca_index_outside p l i Hp (or_introl Hl))).
  - injection E as <- <-. exists p. simpl.
    by rewrite (bind_done _ _ _ _ _ (gu_pca_size_list p l Hp)).
Qed.

Lemma array_run_list ops p l r l' :
  holds p l → 0 < increment p → list_run ops l = Some (r, l') →
  ∃ p', array_run ops p = Done r p' ∧ holds p' l'.
Proof.
  revert p l r. induction ops as [|op ops IH]; intros p l r Hp Hi E; simpl in E.
  - injection E as <- <-. by exists p.
  - apply bind_Some in E as ([a l1] & E1 & E). apply bind_Some in E as ([r1 l2] & E2 & E).
    injection E as <- <-. destruct (array_do_list op p l a l1 Hp Hi E1) as (p1 & D1 & Hp1 & Hi1).
    destruct (IH p1 l1 r1 Hp1 ltac:(lia) E2) as (p2 & D2 & Hp2).
    exists p2. simpl. by rewrite (bind_done _ _ _ _ _ D1), (bind_done _ _ _ _ _ D2).
Qed.

Lemma gu_pca_new_list n inc :
  0 ≤ n → 0 ≤ inc → ∃ p, gu_pca_new (V := V) n inc = inr p ∧ holds p [] ∧ increment p = inc.
Proof.
  intros Hn Hi. unfold gu_pca_new. rewrite !(proj2 (Z.ltb_ge _ _)) by done.
  eexists. split; [done|]. split; [|done].
  apply (holds_intro [] [] (replicate (Z.to_nat n) None)); [done | | done].
  simpl. rewrite length_replicate. lia.
Qed.
End array.
Arguments array_op : clear implicits.
Arguments array_answer : clear implicits.

(** C30: an array that may grow answers every sequence of operations as a list
    does, whatever space it was given at first and whatever it grows by.  After
    any such sequence every index of the list finds its element, and an index
    behind the end, or further before the start than there are elements that
    were taken off there, finds nothing.  (Between these lie the index just
    behind the last element, and the negative ones that still reach elements
    that were taken off: see the theorems below.) *)
Theorem an_array_is_a_list {V} (ops : list (array_op V)) n inc answers l :
  0 ≤ n → 0 < inc → list_run ops [] = Some (answers, l) →
  ∃ p p', gu_pca_new n inc = inr p ∧ array_run ops p = Done answers p' ∧ holds p' l ∧
    (∀ i, 0 ≤ i < Z.of_nat (length l) → gu_pca_index i p' = Done (l !! Z.to_nat i) p') ∧
    (∀ i, Z.of_nat (length l) < i ∨ i < - removed_at_start p' → gu_pca_index i p' = Done None p').
Proof.
  intros Hn Hi E. destruct (gu_pca_new_list (V := V) n inc Hn ltac:(lia)) as (p & Ep & Hp & Hinc).
  destruct (array_run_list ops p [] answers l Hp ltac:(lia) E) as (p' & E' & Hp').
  exists p, p'. split_and!; [done..| |].
  - intros i Hr. destruct (lookup_lt_is_Some_2 l (Z.to_nat i) ltac:(lia)) as [v Hv].
    rewrite Hv. apply (gu_pca_index_list p' l); [done | lia | done].
  - intros i Ho. by apply (gu_pca_index_outside p' l).
Qed.

(** An index that is the size of the array is let through: in an array that is
    full it reads behind the storage. *)
Theorem an_index_at_the_end_reads_behind_the_array {V} (p : PCA V) l :
  holds p l → size_used p = size_allocated p →
  gu_pca_index (Z.of_nat (length l)) p = Stopped (SUndef "storage[]").
Proof.
  intros Hp Hfull. unfold gu_pca_index.
  rewrite (bind_done _ _ _ _ _ (check_array_done _ _ _ Hp)). run.
  destruct Hp as (_ & Hr & _ & Hlen & before & after & Hs & Hb & Hu).
  rewrite !(proj2 (Z.leb_le _ _)) by lia. cbn [andb].
  unfold slot, mbind, M_bind, gets. simpl.
  rewrite lookup_ge_None_2 by lia. done.
Qed.

(** The start of the array is added to the index before it is tested: after a
    shift, index -1 is the element that was taken off. *)
Lemma a_negative_index_finds_what_was_taken_off :
  match gu_pca_new 2 2 with
  | inr p =>
      match (gu_pca_push "gone";; gu_pca_push "here";; gu_pca_shift;; gu_pca_index (-1)) p with
      | Done found _ => found = Some "gone"
      | _ => False
      end
  | inl _ => False
  end.
Proof. vm_compute. reflexivity. Qed.

(** * Witnesses *)

Definition sample_array_ops : list (array_op string) :=
  [Push "hello"; Push "world"; Unshift "well"; Index 1; Pop; Shift; Size; Unshift "x"; Push "y";
   Push "z"; Index 2; Index 9; Shift; Push "full"; Size].

Lemma an_array_is_a_list_witness :
  ∃ p p', gu_pca_new 0 2 = inr p ∧
    array_run sample_array_ops p = Done [Silent; Silent; Silent; Element (Some "hello");
      Element (Some "world"); Element (Some "well"); Elements 1; Silent; Silent; Silent;
      Element (Some "y"); Element None; Element (Some "x"); Silent; Elements 4] p' ∧
    gu_pca_index 3 p' = Done (Some "full") p'.
Proof.
  destruct (an_array_is_a_list sample_array_ops 0 2 _ ["hello"; "y"; "z"; "full"] ltac:(lia) ltac:(lia) eq_refl)
    as (p & p' & Ep & E & _ & Hi & _).
  exists p, p'. split; [exact Ep|]. split; [exact E|]. apply (Hi 3). simpl. lia.
Defined.
