(* ===== verification/IppObject.v ===== *)
(** The IPP object (src/libppr/ipp_obj.c): it reads a request from a file
    descriptor, keeps the attributes of the request and of the response, and
    writes the response.  What the descriptors will do is part of the state:
    what is still to come, and what each read() and write() will move. *)
From S2P Require Import Prelude.
From S2P Require Import Text.

(** * Tags and codes (src/include/ipp_constants.h) *)

Definition IPP_TAG_OPERATION : Z := 1.

Definition IPP_TAG_JOB : Z := 2.

Definition IPP_TAG_END : Z := 3.

Definition IPP_TAG_PRINTER : Z := 4.

Definition IPP_TAG_UNSUPPORTED : Z := 5.

Definition IPP_TAG_UNSUPPORTED_VALUE : Z := 16.

Definition IPP_TAG_INTEGER : Z := 33.

Definition IPP_TAG_BOOLEAN : Z := 34.

Definition IPP_TAG_ENUM : Z := 35.

Definition IPP_TAG_STRING : Z := 48.

Definition IPP_TAG_TEXT : Z := 65.

Definition IPP_TAG_NAME : Z := 66.

Definition IPP_TAG_KEYWORD : Z := 68.

Definition IPP_TAG_URI : Z := 69.

Definition IPP_TAG_CHARSET : Z := 71.

Definition IPP_TAG_LANGUAGE : Z := 72.

Definition IPP_TAG_MIMETYPE : Z := 73.

Definition IPP_BAD_REQUEST : Z := 1024.

Definition is_one_of (z : Z) (l : list Z) : bool := existsb (Z.eqb z) l.

Definition ipp_tag_simplify (value_tag : Z) : Z :=
  if is_one_of value_tag [IPP_TAG_INTEGER; IPP_TAG_ENUM] then IPP_TAG_INTEGER
  else if is_one_of value_tag
    [IPP_TAG_STRING; IPP_TAG_TEXT; IPP_TAG_NAME; IPP_TAG_KEYWORD; IPP_TAG_URI; IPP_TAG_CHARSET;
     IPP_TAG_LANGUAGE; IPP_TAG_MIMETYPE] then IPP_TAG_STRING
  else if value_tag =? IPP_TAG_BOOLEAN then IPP_TAG_BOOLEAN
  else value_tag.

(** * Attributes *)

(** The union ipp_value_t: the member that was written last.  A string is the
    bytes at the pointer; a boolean is an int. *)
Inductive ipp_value :=
| VUninit
| VInteger (n : Z)
| VBoolean (b : Z)
| VText (text : string)
| VUnknown (length : Z) (data : string).

(** A template is set in the attributes of a response only; in those of a
    request the pointer is whatever gu_alloc() left there. *)
Inductive template :=
| NoTemplate
| Template (t : string)
| TemplateUninit.

(** [at_values] has num_values elements. *)
Record ipp_attribute := mkAttr {
  at_group_tag : Z;
  at_value_tag : Z;
  at_name : option string;
  at_template : template;
  at_values : list ipp_value;
}.

Definition num_values (a : ipp_attribute) : Z := Z.of_nat (length (at_values a)).

(** Reading a member.  The ints and unknown.length lie at the same place; a
    pointer that was not written as one cannot be followed. *)
Definition as_int (v : ipp_value) : option Z :=
  match v with
  | VInteger n | VBoolean n | VUnknown n _ => Some n
  | VUninit | VText _ => None
  end.

Definition as_text (v : ipp_value) : option string :=
  match v with
  | VText t => Some (c_string t)
  | _ => None
  end.

(** * The object *)

Inductive read_answer :=
| Got (n : nat)
| ReadError.

Inductive write_answer :=
| Took (n : nat)
| WriteFailed.

(** [r_buf] is readbuf[] from readbuf_i on, readbuf_remaining bytes. *)
Record reader := mkReader {
  r_bytes_left : Z;
  r_input : string;
  r_reads : list read_answer;
  r_buf : string;
}.

(** [w_buf] is what writebuf[] holds before writebuf_i. *)
Record writer := mkWriter {
  w_buf : string;
  w_remaining : Z;
  w_output : string;
  w_writes : list write_answer;
}.

Record IPP := mkIPP {
  i_magic : Z;
  i_root : string;
  i_reader : reader;
  i_writer : writer;
  i_version_major : Z;
  i_version_minor : Z;
  i_operation_id : Z;
  i_response_code : Z;
  i_request_id : Z;
  i_request_attrs : list ipp_attribute;
  i_operation : list ipp_attribute;
  i_printer : list ipp_attribute;
  i_job : list ipp_attribute;
  i_unsupported : list ipp_attribute;
}.

Definition IPP_MAGIC : Z := 43707.

(** sizeof(ipp->readbuf), sizeof(ipp->writebuf) *)
Definition IPP_BUFSIZE : Z := 512.

(** The numbers ipp_new() does not set are [junk]. *)
Definition ipp_new (root : string) (content_length : Z) (input : string)
    (reads : list read_answer) (writes : list write_answer) (junk : Z) : IPP :=
  mkIPP IPP_MAGIC root (mkReader content_length input reads EmptyString)
    (mkWriter EmptyString IPP_BUFSIZE EmptyString writes)
    junk junk junk junk junk [] [] [] [] [].

(** * Reading *)

Abbreviation R := (M reader).

Definition set_r_buf (b : string) : R unit :=
  modify (λ p, mkReader (r_bytes_left p) (r_input p) (r_reads p) b).

(** read(): one byte at least, unless none is wanted or none is left. *)
Definition sys_read (want : Z) : R (option string) :=
  p ← gets id;
  match r_reads p with
  | ReadError :: rs =>
      modify (λ p, mkReader (r_bytes_left p) (r_input p) rs (r_buf p));; mret None
  | Got n :: rs =>
      let k := Nat.min (Nat.max 1 n) (Z.to_nat want) in
      modify (λ p, mkReader (r_bytes_left p) (str_drop k (r_input p)) rs (r_buf p));;
      mret (Some (str_take k (r_input p)))
  | [] =>
      let k := Z.to_nat want in
      modify (λ p, mkReader (r_bytes_left p) (str_drop k (r_input p)) [] (r_buf p));;
      mret (Some (str_take k (r_input p)))
  end.

(** The comparison with sizeof() is one of unsigned numbers. *)
Definition ipp_readbuf_load : R unit :=
  p ← gets id;
  let left := r_bytes_left p in
  data ← sys_read (if negb (left =? -1) && ((0 <=? left) && (left <? IPP_BUFSIZE))
                   then left else IPP_BUFSIZE);
  match data with
  | None => set_r_buf EmptyString;; gu_Throw "read() failed"
  | Some data =>
      set_r_buf data;;
      when (negb (left =? -1))
        (if strlen data <? 1 then gu_Throw "premature EOF"
         else modify (λ p, mkReader (left - strlen data) (r_input p) (r_reads p) (r_buf p)))
  end.

Definition ipp_get_block : R string :=
  p ← gets id;
  match r_buf p with
  | EmptyString =>
      if r_bytes_left p =? 0 then mret EmptyString
      else
        ipp_readbuf_load;;
        p ← gets id; set_r_buf EmptyString;; mret (r_buf p)
  | b => set_r_buf EmptyString;; mret b
  end.

Definition ipp_get_byte : R ascii :=
  p ← gets id;
  when (strlen (r_buf p) <? 1) ipp_readbuf_load;;
  p ← gets id;
  match r_buf p with
  | EmptyString => gu_Throw "Data runoff!"
  | String c b => set_r_buf b;; mret c
  end.

Definition ipp_get_sb : R Z := c ← ipp_get_byte; mret (schar c).

(** !0xFFFF is zero: the short is not signed. *)
Definition ipp_get_ss : R Z :=
  a ← ipp_get_byte; b ← ipp_get_byte;
  mret (Z.lor (Z.shiftl (code a) 8) (code b)).

Definition ipp_get_si : R Z :=
  a ← ipp_get_byte; b ← ipp_get_byte; c ← ipp_get_byte; d ← ipp_get_byte;
  mret (Z.lor (Z.lor (Z.lor (i32 (Z.shiftl (code a) 24)) (Z.shiftl (code b) 16))
    (Z.shiftl (code c) 8)) (code d)).

Fixpoint get_bytes (len : nat) : R string :=
  match len with
  | O => mret EmptyString
  | S n => c ← ipp_get_byte; s ← get_bytes n; mret (String c s)
  end.

Definition ipp_get_bytes (len : Z) : R string := get_bytes (Z.to_nat len).

(** * Writing *)

Abbreviation W := (M writer).

(** while(to_write > 0): what went out, and whether write() failed. *)
Fixpoint flush_loop (writes : list write_answer) (to_write sent : string)
    : bool * string * list write_answer :=
  match to_write with
  | EmptyString => (true, sent, writes)
  | _ =>
      match writes with
      | [] => (true, sent +:+ to_write, [])
      | Took n :: ws => flush_loop ws (str_drop n to_write) (sent +:+ str_take n to_write)
      | WriteFailed :: ws => (false, sent, ws)
      end
  end.

Definition ipp_writebuf_flush : W unit :=
  p ← gets id;
  let '(ok, sent, writes) := flush_loop (w_writes p) (w_buf p) (w_output p) in
  if ok then modify (λ _, mkWriter EmptyString IPP_BUFSIZE sent writes)
  else
    modify (λ p, mkWriter (w_buf p) (w_remaining p) sent writes);;
    gu_Throw "writing response failed".

Definition ipp_put_byte (val : ascii) : W unit :=
  modify (λ p, mkWriter (w_buf p +:+ String val EmptyString) (w_remaining p - 1) (w_output p)
    (w_writes p));;
  p ← gets id;
  when (w_remaining p <? 1) ipp_writebuf_flush.

Definition ipp_put_sb (val : Z) : W unit := ipp_put_byte (chr (u8 val)).

Definition ipp_put_ss (val : Z) : W unit :=
  let temp := u32 val in
  ipp_put_byte (chr (Z.shiftr (Z.land temp 65280) 8));;
  ipp_put_byte (chr (Z.land temp 255)).

Definition ipp_put_si (val : Z) : W unit :=
  let temp := u32 val in
  ipp_put_byte (chr (Z.shiftr (Z.land temp 4278190080) 24));;
  ipp_put_byte (chr (Z.shiftr (Z.land temp 16711680) 16));;
  ipp_put_byte (chr (Z.shiftr (Z.land temp 65280) 8));;
  ipp_put_byte (chr (Z.land temp 255)).

(** ipp_put_bytes() and ipp_put_string(): all bytes are given up to a NUL. *)
Fixpoint ipp_put_bytes (data : string) : W unit :=
  match data with
  | EmptyString => mret tt
  | String c s => ipp_put_byte c;; ipp_put_bytes s
  end.

(** * The object as a whole *)

Abbreviation P := (M IPP).

Definition set_reader (r : reader) (p : IPP) : IPP :=
  mkIPP (i_magic p) (i_root p) r (i_writer p) (i_version_major p) (i_version_minor p)
    (i_operation_id p) (i_response_code p) (i_request_id p) (i_request_attrs p) (i_operation p)
    (i_printer p) (i_job p) (i_unsupported p).

Definition set_writer (w : writer) (p : IPP) : IPP :=
  mkIPP (i_magic p) (i_root p) (i_reader p) w (i_version_major p) (i_version_minor p)
    (i_operation_id p) (i_response_code p) (i_request_id p) (i_request_attrs p) (i_operation p)
    (i_printer p) (i_job p) (i_unsupported p).

Definition set_request_attrs (l : list ipp_attribute) (p : IPP) : IPP :=
  mkIPP (i_magic p) (i_root p) (i_reader p) (i_writer p) (i_version_major p) (i_version_minor p)
    (i_operation_id p) (i_response_code p) (i_request_id p) l (i_operation p)
    (i_printer p) (i_job p) (i_unsupported p).

Definition set_response_code (code : Z) (p : IPP) : IPP :=
  mkIPP (i_magic p) (i_root p) (i_reader p) (i_writer p) (i_version_major p) (i_version_minor p)
    (i_operation_id p) code (i_request_id p) (i_request_attrs p) (i_operation p)
    (i_printer p) (i_job p) (i_unsupported p).

Definition set_request_header (major minor operation id : Z) (p : IPP) : IPP :=
  mkIPP (i_magic p) (i_root p) (i_reader p) (i_writer p) major minor operation
    (i_response_code p) id (i_request_attrs p) (i_operation p) (i_printer p) (i_job p)
    (i_unsupported p).

Definition set_response_attrs (operation printer job unsupported : list ipp_attribute) (p : IPP)
    : IPP :=
  mkIPP (i_magic p) (i_root p) (i_reader p) (i_writer p) (i_version_major p) (i_version_minor p)
    (i_operation_id p) (i_response_code p) (i_request_id p) (i_request_attrs p)
    operation printer job unsupported.

Definition set_magic (magic : Z) (p : IPP) : IPP :=
  mkIPP magic (i_root p) (i_reader p) (i_writer p) (i_version_major p) (i_version_minor p)
    (i_operation_id p) (i_response_code p) (i_request_id p) (i_request_attrs p) (i_operation p)
    (i_printer p) (i_job p) (i_unsupported p).

(** A routine that touches only the reading or only the writing part. *)
Definition reading {A} (m : R A) : P A := λ p,
  match m (i_reader p) with
  | Done a r => Done a (set_reader r p)
  | Thrown e r => Thrown e (set_reader r p)
  | Stopped r => Stopped r
  end.

Definition writing {A} (m : W A) : P A := λ p,
  match m (i_writer p) with
  | Done a w => Done a (set_writer w p)
  | Thrown e w => Thrown e (set_writer w p)
  | Stopped r => Stopped r
  end.

Definition out_of_fuel {S A} : M S A := λ _, Stopped SFuel.

(** while(ipp->bytes_left > 0) ipp_readbuf_load(ipp): every turn takes a byte or
    throws. *)
Fixpoint drain (fuel : nat) : R unit :=
  p ← gets id;
  if 0 <? r_bytes_left p then
    match fuel with
    | O => out_of_fuel
    | S fuel' => ipp_readbuf_load;; drain fuel'
    end
  else mret tt.

Definition ipp_delete : P unit :=
  p ← gets id;
  if negb (i_magic p =? IPP_MAGIC) then gu_Throw "ipp_delete(): not an IPP object"
  else
    reading (p ← gets id; drain (Z.to_nat (r_bytes_left p)));;
    writing ipp_writebuf_flush;;
    modify (set_magic 0).

(** * The names of operations and tags (src/libppr/ipp_to_str.c,
    src/libppr/ipp_str_to.c). *)

(** The switch of ipp_operation_id_to_str(). *)
Definition operation_names : list (Z * string) := [
  (2, "Print-Job"); (3, "Print-URI"); (4, "Validate-Job"); (5, "Create-Job");
  (6, "Send-Document"); (7, "Send-URI"); (8, "Cancel-Job"); (9, "Get-Job-Attributes");
  (10, "Get-Jobs"); (11, "Get-Printer-Attributes"); (12, "Get-Jobs"); (13, "Release-Job");
  (14, "Restart-Job"); (16, "Pause-Printer"); (17, "Resume-Printer"); (18, "Purge-Jobs");
  (19, "Set-Printer-Attributes"); (20, "Set-Job-Attributes");
  (21, "Get-Printer-Supported-Values"); (16385, "CUPS-Get-Default");
  (16386, "CUPS-Get-Printers"); (16387, "CUPS-Add-Printer"); (16388, "CUPS-Delete-Printer");
  (16389, "CUPS-Get-Classes"); (16390, "CUPS-Add-Class"); (16391, "CUPS-Delete-Class");
  (16392, "CUPS-Accept-Jobs"); (16393, "CUPS-Reject-Jobs"); (16394, "CUPS-Set-Default");
  (16395, "CUPS-Get-Devices"); (16396, "CUPS-Get-PPDS"); (16397, "CUPS-Move-Job")].

Definition ipp_operation_id_to_str (op : Z) : string :=
  match List.find (λ x, x.1 =? op) operation_names with
  | Some x => x.2
  | None => "unknown"
  end.

Definition tag_names : list (Z * string) := [
  (1, "operation-attributes"); (2, "job-attributes"); (3, "end-of-attributes");
  (4, "printer-attributes"); (5, "unsupported-attributes"); (16, "unsupported");
  (18, "unknown"); (19, "no-value"); (33, "integer"); (34, "boolean"); (35, "enum");
  (48, "octetString"); (49, "dateTime"); (50, "resolution"); (51, "rangeOfInteger");
  (52, "collection"); (53, "textWithLanguage"); (54, "nameWithLanguage");
  (65, "textWithoutLanguage"); (66, "nameWithoutLanguage"); (68, "keyword"); (69, "uri");
  (70, "urischeme"); (71, "charset"); (72, "naturalLanguage"); (73, "mimeMediaType")].

Definition ipp_tag_to_str (tag : Z) : string :=
  match List.find (λ x, x.1 =? tag) tag_names with
  | Some x => x.2
  | None => "unrecognized tag"
  end.

(** struct TABLE operations[] *)
Definition operations : list (string * Z) := [
  ("Print-Job", 2); ("Print-URI", 3); ("Validate-Job", 4); ("Create-Job", 5);
  ("Send-Document", 6); ("Send-URI", 7); ("Cancel-Job", 8); ("Get-Job-Attributes", 9);
  ("Get-Jobs", 10); ("Get-Printer-Attributes", 11); ("Hold-Job", 12); ("Release-Job", 13);
  ("Restart-Job", 14); ("Pause-Printer", 16); ("Resume-Printer", 17); ("Purge-Jobs", 18);
  ("Set-Printer-Attributes", 19); ("Set-Job-Attributes", 20);
  ("Get-Printer-Supported-Values", 21); ("CUPS-Get-Default", 16385);
  ("CUPS-Get-Printers", 16386); ("CUPS-Add-Modify-Printer", 16387);
  ("CUPS-Delete-Printer", 16388); ("CUPS-Get-Classes", 16389);
  ("CUPS-Add-Modify-Class", 16390); ("CUPS-Delete-Class", 16391);
  ("CUPS-Accept-Jobs", 16392); ("CUPS-Reject-Jobs", 16393); ("CUPS-Set-Default", 16394);
  ("CUPS-Get-Devices", 16395); ("CUPS-Get-PPDS", 16396); ("CUPS-Move-Job", 16397)].

Definition ipp_str_to_operation_id (str : string) : Z :=
  match List.find (λ x, String.eqb x.1 str) operations with
  | Some x => x.2
  | None => -1
  end.

(** struct TABLE tags[] *)
Definition tags : list (string * Z) := [
  ("integer", 33); ("boolean", 34); ("enum", 35); ("octetString", 48); ("dateTime", 49);
  ("resolution", 50); ("rangeOfInteger", 51); ("collection", 52); ("textWithLanguage", 53);
  ("nameWithLanguage", 54); ("textWithoutLanguage", 65); ("nameWithoutLanguage", 66);
  ("keyword", 68); ("uri", 69); ("urischeme", 70); ("charset", 71); ("naturalLanguage", 72);
  ("mimeMediaType", 73)].

Definition ipp_str_to_tag (str : string) : Z :=
  match List.find (λ x, String.eqb x.1 str) tags with
  | Some x => x.2
  | None => 16
  end.

(** Value types keep their names both ways. *)
Theorem value_types_are_read_back :
  Forall (λ x, ipp_str_to_tag (ipp_tag_to_str x.2) = x.2 ∧ ipp_tag_to_str x.2 = x.1) tags.
Proof. repeat constructor. Qed.

(** Three operations are printed under names that are not read back: one under
    another operation's. *)
Theorem three_operations_lose_their_names op :
  op ∈ operation_names.*1 →
  ipp_str_to_operation_id (ipp_operation_id_to_str op) =
    (if op =? 12 then 10 else if (op =? 16387) || (op =? 16390) then -1 else op).
Proof.
  intros Hop. rewrite list_elem_of_In in Hop. simpl in Hop.
  repeat (destruct Hop as [<-|Hop]; [reflexivity|]). destruct Hop.
Qed.
