(* ===== verification/IppReply.v ===== *)
(** The request (src/libppr/ipp_obj.c): reading it, and claiming its
    attributes; and the reply: putting its attributes together and sending it. *)
From S2P Require Import Prelude.
From S2P Require Import Text.
From S2P Require Import IppObject.

(** * ipp_parse_request() *)

(** The attributes are a list whose last element is the one being read.  The
    first one is put at its head, whatever was there before. *)
Definition new_attribute (first : bool) (a : ipp_attribute) : P unit :=
  modify (λ p, set_request_attrs (if first then [a] else i_request_attrs p ++ [a]) p).

Definition on_last {A} (f : A → A) (l : list A) : list A :=
  match last l with
  | Some x => removelast l ++ [f x]
  | None => l
  end.

Definition with_values (f : list ipp_value → list ipp_value) (a : ipp_attribute)
    : ipp_attribute :=
  mkAttr (at_group_tag a) (at_value_tag a) (at_name a) (at_template a) (f (at_values a)).

(** gu_realloc(), and ap->num_values++ *)
Definition one_more_value : P unit :=
  modify (λ p, set_request_attrs
    (on_last (with_values (λ vs, vs ++ [VUninit])) (i_request_attrs p)) p).

(** ap->values[ap_i] = v *)
Definition set_value (v : ipp_value) : P unit :=
  modify (λ p, set_request_attrs
    (on_last (with_values (on_last (λ _, v))) (i_request_attrs p)) p).

Definition get_value (value_tag value_length : Z) : R ipp_value :=
  let t := ipp_tag_simplify value_tag in
  if t =? IPP_TAG_INTEGER then n ← ipp_get_si; mret (VInteger n)
  else if t =? IPP_TAG_STRING then s ← ipp_get_bytes value_length; mret (VText s)
  else s ← ipp_get_bytes value_length; mret (VUnknown value_length s).

(** One value tag and what follows it; the name that is now current. *)
Definition parse_value (tag delimiter_tag : Z) (name : option string) (first : bool)
    : P (option string) :=
  name_length ← reading ipp_get_ss;
  name ← (if 0 <? name_length
          then s ← reading (ipp_get_bytes name_length); mret (Some s) else mret name);
  value_length ← reading ipp_get_ss;
  (if 0 <? name_length then
     new_attribute first (mkAttr delimiter_tag tag name TemplateUninit [VUninit])
   else
     match name with
     | None => gu_Throw "no name!"
     | Some _ => one_more_value
     end);;
  v ← reading (get_value tag value_length);
  set_value v;;
  mret name.

(** [first] says that no attribute was read yet. *)
Fixpoint parse_loop (fuel : nat) (delimiter_tag : Z) (name : option string) (first : bool)
    : P unit :=
  match fuel with
  | O => out_of_fuel
  | S fuel' =>
      tag ← reading ipp_get_sb;
      if tag =? IPP_TAG_END then mret tt
      else if (0 <=? tag) && (tag <=? 15) then parse_loop fuel' tag None first
      else if (16 <=? tag) && (tag <=? 255) then
        name ← parse_value tag delimiter_tag name first;
        parse_loop fuel' delimiter_tag name false
      else gu_Throw "invalid tag value"
  end.

(** The bytes that can still be read. *)
Definition bytes_to_come (p : IPP) : nat :=
  String.length (r_buf (i_reader p)) + String.length (r_input (i_reader p)).

Definition ipp_parse_request : P unit :=
  p ← gets id;
  if negb (r_bytes_left (i_reader p) =? -1) && (r_bytes_left (i_reader p) <? 9)
  then gu_Throw "request is too short to be an IPP request"
  else
    major ← reading ipp_get_sb;
    modify (λ p, set_request_header major (i_version_minor p) (i_operation_id p)
      (i_request_id p) p);;
    minor ← reading ipp_get_sb;
    modify (λ p, set_request_header major minor (i_operation_id p) (i_request_id p) p);;
    operation ← reading ipp_get_ss;
    modify (λ p, set_request_header major minor operation (i_request_id p) p);;
    id ← reading ipp_get_si;
    modify (set_request_header major minor operation id);;
    p ← gets (λ p, p);
    parse_loop (S (bytes_to_come p)) 0 None true.

(** * Claiming *)

(** strcmp(p->name, name); [None] stands for following a NULL pointer. *)
Definition matches (group tag : Z) (name : string) (a : ipp_attribute) : option bool :=
  if (at_group_tag a =? group) && (at_value_tag a =? tag) then
    n ← at_name a; Some (String.eqb (c_string n) (c_string name))
  else Some false.

(** The first attribute that matches, and the others. *)
Fixpoint find_attribute (group tag : Z) (name : string) (l : list ipp_attribute)
    : option (option (ipp_attribute * list ipp_attribute)) :=
  match l with
  | [] => Some None
  | a :: l' =>
      b ← matches group tag name a;
      if (b : bool) then Some (Some (a, l'))
      else
        match find_attribute group tag name l' with
        | Some (Some (x, rest)) => Some (Some (x, a :: rest))
        | r => r
        end
  end.

Definition ipp_find_attribute (group tag : Z) (name : string) : P (option ipp_attribute) :=
  p ← gets id;
  match find_attribute group tag name (i_request_attrs p) with
  | None => undef "strcmp(NULL)"
  | Some r => mret (fst <$> r)
  end.

Definition ipp_claim_attribute (group tag : Z) (name : string) : P (option ipp_attribute) :=
  p ← gets id;
  match find_attribute group tag name (i_request_attrs p) with
  | None => undef "strcmp(NULL)"
  | Some None => mret None
  | Some (Some (a, rest)) => modify (set_request_attrs rest);; mret (Some a)
  end.

Definition ipp_claim_attribute_single_value (group tag : Z) (name : string)
    : P (option ipp_attribute) :=
  attr ← ipp_claim_attribute group tag name;
  match attr with
  | None => mret None
  | Some a =>
      if num_values a =? 1 then mret (Some a)
      else modify (set_response_code IPP_BAD_REQUEST);; mret None
  end.

(** values[i], as an int and as a string *)
Definition int_value (i : nat) (a : ipp_attribute) : P Z :=
  match at_values a !! i ≫= as_int with
  | Some n => mret n
  | None => undef "values[].integer"
  end.

Definition text_value (i : nat) (a : ipp_attribute) : P string :=
  match at_values a !! i ≫= as_text with
  | Some s => mret s
  | None => undef "values[].string.text"
  end.

Definition with_group (group : Z) (a : ipp_attribute) : ipp_attribute :=
  mkAttr group (at_value_tag a) (at_name a) (at_template a) (at_values a).

(** Each list's tail pointer is at its end. *)
Definition ipp_insert_attribute (a : ipp_attribute) : P unit :=
  p ← gets id;
  let g := at_group_tag a in
  if g =? IPP_TAG_OPERATION then
    modify (set_response_attrs (i_operation p ++ [a]) (i_printer p) (i_job p) (i_unsupported p))
  else if g =? IPP_TAG_PRINTER then
    modify (set_response_attrs (i_operation p) (i_printer p ++ [a]) (i_job p) (i_unsupported p))
  else if g =? IPP_TAG_JOB then
    modify (set_response_attrs (i_operation p) (i_printer p) (i_job p ++ [a]) (i_unsupported p))
  else if g =? IPP_TAG_UNSUPPORTED then
    modify (set_response_attrs (i_operation p) (i_printer p) (i_job p) (i_unsupported p ++ [a]))
  else gu_Throw "invalid group_tag".

Definition ipp_claim_positive_integer (group : Z) (name : string) : P Z :=
  attr ← ipp_claim_attribute_single_value group IPP_TAG_INTEGER name;
  match attr with
  | None => mret 0
  | Some a =>
      n ← int_value 0 a;
      if n <=? 0 then ipp_insert_attribute (with_group IPP_TAG_UNSUPPORTED a);; mret 0
      else mret n
  end.

Definition ipp_claim_enum (group : Z) (name : string) : P Z :=
  attr ← ipp_claim_attribute_single_value group IPP_TAG_ENUM name;
  match attr with None => mret 0 | Some a => int_value 0 a end.

Definition ipp_claim_string (group tag : Z) (name : string) : P (option string) :=
  attr ← ipp_claim_attribute_single_value group tag name;
  match attr with None => mret None | Some a => s ← text_value 0 a; mret (Some s) end.

(** The keywords that are allowed are the further arguments. *)
Definition ipp_claim_keyword (group : Z) (name : string) (va : list string)
    : P (option string) :=
  attr ← ipp_claim_attribute_single_value group IPP_TAG_KEYWORD name;
  match attr with
  | None => mret None
  | Some a =>
      match va with
      | [] =>
          ipp_insert_attribute (with_group IPP_TAG_UNSUPPORTED a);; mret None
      | _ =>
          s ← text_value 0 a;
          match List.find (String.eqb s) va with
          | Some k => mret (Some k)
          | None => ipp_insert_attribute (with_group IPP_TAG_UNSUPPORTED a);; mret None
          end
      end
  end.

Definition ipp_claim_boolean (group : Z) (name : string) (default_value : Z) : P Z :=
  attr ← ipp_claim_attribute_single_value group IPP_TAG_BOOLEAN name;
  match attr with None => mret default_value | Some a => int_value 0 a end.

(** * The response (src/libppr/ipp_obj.c): adding attributes, and sending them. *)

(** * Adding attributes *)

Definition ipp_new_attribute (group tag : Z) (name : option string) (template : template)
    (values : list ipp_value) : P unit :=
  ipp_insert_attribute (mkAttr group tag name template values).

Definition ipp_add_end (group : Z) : P unit :=
  ipp_new_attribute group IPP_TAG_END None NoTemplate [].

Definition ipp_add_out_of_band (group tag : Z) (name : string) : P unit :=
  ipp_new_attribute group tag (Some name) NoTemplate [].

Definition ipp_add_integers (group tag : Z) (name : string) (values : list Z) : P unit :=
  if negb (ipp_tag_simplify tag =? IPP_TAG_INTEGER) && negb (tag =? IPP_TAG_URI)
  then gu_Throw "ipp_add_integer()"
  else ipp_new_attribute group tag (Some name) NoTemplate (VInteger <$> values).

Definition ipp_add_integer (group tag : Z) (name : string) (value : Z) : P unit :=
  ipp_add_integers group tag name [value].

Definition ipp_add_strings (group tag : Z) (name : string) (values : list string) : P unit :=
  if negb (ipp_tag_simplify tag =? IPP_TAG_STRING) then gu_Throw "ipp_add_strings()"
  else ipp_new_attribute group tag (Some name) NoTemplate (VText <$> values).

Definition ipp_add_string (group tag : Z) (name value : string) : P unit :=
  if negb (ipp_tag_simplify tag =? IPP_TAG_STRING) then gu_Throw "ipp_add_string()"
  else ipp_new_attribute group tag (Some name) NoTemplate [VText value].

(** strstr(template, "%d") *)
Definition takes_int (template : string) : bool :=
  match String.index 0 "%d" template with Some _ => true | None => false end.

(** The variable arguments are ints if the template takes one, and strings
    otherwise. *)
Definition ipp_add_templates (group tag : Z) (name template : string) (values : list farg)
    : P unit :=
  if negb (ipp_tag_simplify tag =? IPP_TAG_STRING) then gu_Throw "ipp_add_templates()"
  else
    match mapM (λ v, match v with
                     | AD n => if takes_int template then Some (VInteger n) else None
                     | AS s => if takes_int template then None else Some (VText s)
                     | AStruct _ => None
                     end) values with
    | Some vs => ipp_new_attribute group tag (Some name) (Template template) vs
    | None => undef "va_arg()"
    end.

Definition ipp_add_template (group tag : Z) (name template : string) (value : farg) : P unit :=
  ipp_add_templates group tag name template [value].

Definition ipp_add_boolean (group tag : Z) (name : string) (value : Z) : P unit :=
  if negb (tag =? IPP_TAG_BOOLEAN) then gu_Throw "ipp_add_boolean()"
  else ipp_new_attribute group tag (Some name) NoTemplate [VBoolean value].

(** * ipp_put_attr() *)

(** gu_snprintf() with one argument. *)
Fixpoint format_one (template : string) (arg : option ipp_value) : option string :=
  match template with
  | EmptyString => Some EmptyString
  | String "%" (String "%" t) => String "%" <$> format_one t arg
  | String "%" (String "d" t) =>
      n ← arg ≫= as_int; s ← format_one t None; Some (fmt_d n +:+ s)
  | String "%" (String "s" t) =>
      x ← arg ≫= as_text; s ← format_one t None; Some (x +:+ s)
  | String "%" _ => None
  | String c t => String c <$> format_one t arg
  end.

(** char temp[64] *)
Definition temp_size : nat := 64.

(** The string a value of a URI stands for, when it is not sent as it is. *)
Definition expanded (root : string) (a : ipp_attribute) (v : ipp_value) : P (option string) :=
  if at_value_tag a =? IPP_TAG_URI then
    match at_template a with
    | TemplateUninit => undef "attr->template"
    | Template t =>
        match format_one t (Some v) with
        | Some s => mret (Some (root +:+ str_take (temp_size - 1) s))
        | None => undef "gu_snprintf()"
        end
    | NoTemplate =>
        match as_text v with
        | None => undef "p->string.text"
        | Some s => mret (if String.prefix "/" s then Some (root +:+ s) else None)
        end
    end
  else mret None.

(** A string with its length before it. *)
Definition put_counted (s : string) : P unit :=
  writing (ipp_put_ss (strlen s));; writing (ipp_put_bytes s).

Definition put_plain (a : ipp_attribute) (v : ipp_value) : P unit :=
  let t := ipp_tag_simplify (at_value_tag a) in
  if t =? IPP_TAG_INTEGER then
    match as_int v with
    | Some n => writing (ipp_put_ss 4);; writing (ipp_put_si n)
    | None => undef "p->integer"
    end
  else if t =? IPP_TAG_STRING then
    match as_text v with
    | Some s => put_counted s
    | None => undef "p->string.text"
    end
  else if t =? IPP_TAG_BOOLEAN then
    match as_int v with
    | Some n => writing (ipp_put_ss 1);; writing (ipp_put_sb (if n =? 0 then 0 else 1))
    | None => undef "p->boolean"
    end
  else gu_Throw "ipp_put_attr(): missing case for value tag".

Definition put_value (a : ipp_attribute) (first : bool) (v : ipp_value) : P unit :=
  writing (ipp_put_byte (chr (u8 (at_value_tag a))));;
  (if first then
     match at_name a with
     | Some n => put_counted (c_string n)
     | None => undef "strlen(NULL)"
     end
   else writing (ipp_put_ss 0));;
  root ← gets i_root;
  e ← expanded root a v;
  match e with
  | Some s => put_counted s
  | None => put_plain a v
  end.

Fixpoint put_values (a : ipp_attribute) (first : bool) (vs : list ipp_value) : P unit :=
  match vs with
  | [] => mret tt
  | v :: vs' => put_value a first v;; put_values a false vs'
  end.

Definition ipp_put_attr (a : ipp_attribute) : P unit := put_values a true (at_values a).

(** * ipp_send_reply() *)

Fixpoint put_attrs (l : list ipp_attribute) : P unit :=
  match l with
  | [] => mret tt
  | a :: l' => ipp_put_attr a;; put_attrs l'
  end.

(** The groups of printers and jobs may be several: an attribute without a name
    ends one. *)
Fixpoint put_groups (tag : Z) (l : list ipp_attribute) : P unit :=
  match l with
  | [] => mret tt
  | a :: l' =>
      (if at_value_tag a =? IPP_TAG_END then
         match l' with
         | [] => mret tt
         | _ => writing (ipp_put_byte (chr tag))
         end
       else ipp_put_attr a);;
      put_groups tag l'
  end.

Definition put_section (tag : Z) (body : list ipp_attribute → P unit) (l : list ipp_attribute)
    : P unit :=
  match l with
  | [] => mret tt
  | _ => writing (ipp_put_byte (chr tag));; body l
  end.

(** What was not claimed is not supported. *)
Fixpoint add_unsupported (l : list ipp_attribute) : P unit :=
  match l with
  | [] => mret tt
  | a :: l' =>
      when (is_one_of (at_group_tag a) [IPP_TAG_OPERATION; IPP_TAG_JOB])
        (ipp_new_attribute IPP_TAG_UNSUPPORTED IPP_TAG_UNSUPPORTED_VALUE (at_name a)
           NoTemplate []);;
      add_unsupported l'
  end.

Definition http_header : string :=
  "Content-Type: application/ipp" +:+ of_chars [chr 13; chr 10; chr 13; chr 10].

Definition ipp_send_reply (header : bool) : P unit :=
  attrs ← gets i_request_attrs;
  add_unsupported attrs;;
  when header (writing (ipp_put_bytes http_header));;
  p ← gets id;
  writing (ipp_put_sb (i_version_major p));;
  writing (ipp_put_sb (i_version_minor p));;
  writing (ipp_put_ss (i_response_code p));;
  writing (ipp_put_si (i_request_id p));;
  (match i_operation p with
   | [] => gu_Throw "no response_attrs_operation"
   | l => writing (ipp_put_byte (chr IPP_TAG_OPERATION));; put_attrs l
   end);;
  put_section IPP_TAG_PRINTER (put_groups IPP_TAG_PRINTER) (i_printer p);;
  put_section IPP_TAG_JOB (put_groups IPP_TAG_JOB) (i_job p);;
  put_section IPP_TAG_UNSUPPORTED put_attrs (i_unsupported p);;
  writing (ipp_put_byte (chr IPP_TAG_END));;
  writing ipp_writebuf_flush.
