(* ===== verification/SampleIpp.v ===== *)
(** A request and a response, for the witnesses. *)
From S2P Require Import Prelude.
From S2P Require Import Text.
From S2P Require Import IppObject.
From S2P Require Import IppReply.

Definition of_codes (l : list Z) : string := of_chars (map chr l).

(** Get-Jobs, with the boolean "my-jobs", which is false, and a list of names
    whose last element is a number. *)
Definition sample_request : string :=
  of_codes [1; 1; 0; 10; 0; 0; 0; 7; 1; 34; 0; 7] +:+ "my-jobs" +:+ of_codes [0; 1; 0] +:+
  of_codes [68; 0; 20] +:+ "requested-attributes" +:+ of_codes [0; 6] +:+ "job-id" +:+
  of_codes [33; 0; 0; 0; 4; 0; 0; 0; 5; 3].

Definition my_jobs : ipp_attribute :=
  mkAttr IPP_TAG_OPERATION IPP_TAG_BOOLEAN (Some "my-jobs") TemplateUninit
    [VUnknown 1 (of_codes [0])].

Definition mixed_names : ipp_attribute :=
  mkAttr IPP_TAG_OPERATION IPP_TAG_KEYWORD (Some "requested-attributes") TemplateUninit
    [VText "job-id"; VInteger 5].

Definition sample_names : ipp_attribute :=
  mkAttr IPP_TAG_OPERATION IPP_TAG_KEYWORD (Some "requested-attributes") TemplateUninit
    [VText "job-id"; VText "job-uri"].

Definition fresh_ipp : IPP :=
  ipp_new "http://host" (strlen sample_request) (sample_request +:+ "GET /") [Got 3; Got 0; Got 40]
    [] 0.

Definition ipp_with (l : list ipp_attribute) : IPP := set_request_attrs l fresh_ipp.

(** The object after a routine. *)
Definition after {A} (m : P A) (p : IPP) : option IPP :=
  match m p with
  | Done _ p' => Some p'
  | _ => None
  end.

Example sample_request_read :
  i_request_attrs <$> after ipp_parse_request fresh_ipp = Some [my_jobs; mixed_names].
Proof. vm_compute. reflexivity. Qed.

(** A response with two printers and a job. *)
Definition sample_reply : option IPP :=
  after (
    ipp_add_string IPP_TAG_OPERATION IPP_TAG_CHARSET "attributes-charset" "utf-8";;
    ipp_add_template IPP_TAG_PRINTER IPP_TAG_URI "printer-uri" "/printers/%s" (AS "lp");;
    ipp_add_integers IPP_TAG_PRINTER IPP_TAG_ENUM "operations-supported" [2; 4; 16385];;
    ipp_add_end IPP_TAG_PRINTER;;
    ipp_add_boolean IPP_TAG_PRINTER IPP_TAG_BOOLEAN "printer-is-accepting-jobs" 0;;
    ipp_add_template IPP_TAG_JOB IPP_TAG_URI "job-uri" "/jobs/%d" (AD 12);;
    ipp_add_out_of_band IPP_TAG_JOB 18 "job-impressions";;
    ipp_add_integer IPP_TAG_JOB IPP_TAG_INTEGER "job-id" (-5))
  (set_response_code 0 (set_request_header 1 1 10 7
    (ipp_new "http://host" 0 EmptyString [] [Took 5; Took 0; Took 1000] 0))).

Definition sample_replier : IPP := Eval vm_compute in default fresh_ipp sample_reply.

Example sample_reply_built : match sample_reply with Some _ => true | None => false end = true.
Proof. vm_compute. reflexivity. Qed.
