(* ===== verification/PropIppRequest.v ===== *)
(** Properties of the reading of IPP requests: whatever bytes arrive, in whatever
    pieces, the request is read within its length, the loop ends, and what is
    kept of it is well-formed. *)
From S2P Require Import Prelude.
From S2P Require Import Text.
From S2P Require Import TextFacts.
From S2P Require Import IppObject.
From S2P Require Import IppReply.
From S2P Require Import SampleIpp.

(** * Rules *)

Lemma wp_reading {A} (m : R A) Q X F p :
  wp (reading m) Q X F p ↔
  wp m (λ a r, Q a (set_reader r p)) (λ e r, X e (set_reader r p)) F (i_reader p).
Proof. unfold wp, reading. by destruct (m (i_reader p)). Qed.

Lemma str_length_take n s : String.length (str_take n s) = Nat.min n (String.length s).
Proof. revert s. induction n as [|n IH]; intros [|c s]; simpl; auto. Qed.

Lemma str_length_drop n s : String.length (str_drop n s) = (String.length s - n)%nat.
Proof. revert s. induction n as [|n IH]; intros [|c s]; simpl; auto. Qed.

Lemma strlen_String c s : strlen (String c s) = strlen s + 1.
Proof. unfold strlen. simpl. lia. Qed.

(** * Reading within the length *)

(** How many bytes can still come. *)
Definition todo (r : reader) : nat := String.length (r_buf r) + String.length (r_input r).

(** What was taken since [r0]. *)
Definition within (r0 r : reader) : Prop :=
  ∃ taken, r_input r0 = taken +:+ r_input r ∧
    (if r_bytes_left r0 =? -1 then r_bytes_left r = -1
     else 0 ≤ r_bytes_left r ∧ r_bytes_left r + strlen taken = r_bytes_left r0) ∧
    strlen (r_buf r) ≤ IPP_BUFSIZE.

Definition may_read (r : reader) : Prop :=
  -1 ≤ r_bytes_left r ∧ strlen (r_buf r) ≤ IPP_BUFSIZE.

Lemma within_refl r : may_read r → within r r.
Proof.
  intros [H Hb]. exists EmptyString. split; [done|].
  destruct (Z.eqb_spec (r_bytes_left r) (-1)); [done|]. split; [|done].
  split; [lia|]. change (strlen EmptyString) with 0. lia.
Qed.

Lemma within_buf r0 r b :
  within r0 r → strlen b ≤ IPP_BUFSIZE →
  within r0 (mkReader (r_bytes_left r) (r_input r) (r_reads r) b).
Proof. intros (t & H1 & H2 & _) Hb. by exists t. Qed.

Section within.
Context (r0 : reader).

Lemma wp_sys_read want r :
  within r0 r → 0 ≤ want ≤ IPP_BUFSIZE →
  wp (sys_read want) (λ d r', match d with
    | None => within r0 r' ∧ todo r' = todo r
    | Some data => r_input r = data +:+ r_input r' ∧ strlen data ≤ want ∧
        r_bytes_left r' = r_bytes_left r ∧ r_buf r' = r_buf r
    end) (λ _ _, False) never r.
Proof.
  intros Hw Hwant. unfold sys_read, wp. run.
  assert (∀ k, (k ≤ Z.to_nat want)%nat →
    r_input r = str_take k (r_input r) +:+ str_drop k (r_input r) ∧
    strlen (str_take k (r_input r)) ≤ want) as Ht.
  { intros k Hk. split; [by rewrite str_take_drop|].
    unfold strlen. rewrite str_length_take. lia. }
  destruct (r_reads r) as [|[n|] rs]; run.
  - destruct (Ht (Z.to_nat want)); [lia | done].
  - destruct (Ht (Nat.min (Nat.max 1 n) (Z.to_nat want))); [lia | done].
  - split; [|done]. by destruct Hw as (t & ? & ? & ?); exists t.
Qed.

Lemma wp_load r :
  within r0 r →
  wp ipp_readbuf_load (λ _ r', within r0 r' ∧ r_input r = r_buf r' +:+ r_input r')
    (λ _ r', within r0 r') never r.
Proof.
  intros Hw. unfold ipp_readbuf_load. apply wp_bind, wp_gets.
  set (want := if _ : bool then _ else _).
  assert (0 ≤ want ≤ IPP_BUFSIZE ∧ (r_bytes_left r ≠ -1 → 0 ≤ r_bytes_left r → want ≤ r_bytes_left r))
    as [Hwant Hle].
  { unfold want, id, IPP_BUFSIZE. destruct (Z.eqb_spec (r_bytes_left r) (-1)); simpl; [lia|].
    destruct (Z.leb_spec 0 (r_bytes_left r)); simpl; [|lia].
    destruct (Z.ltb_spec (r_bytes_left r) 512); lia. }
  apply wp_bind. eapply wp_mono; [by apply wp_sys_read | | done | done].
  intros [data|] r1; simpl.
  - intros (Ei & Hd & Hb & _). destruct Hw as (t & Et & Hl & Hbuf).
    assert (r_input r0 = (t +:+ data) +:+ r_input r1) as Et1
      by (by rewrite str_app_assoc, <- Ei).
    assert (strlen data ≤ IPP_BUFSIZE) as Hd' by lia.
    unfold when, id. destruct (Z.eqb_spec (r_bytes_left r) (-1)) as [E|E]; simpl.
    + unfold wp. simpl. split; [|done]. exists (t +:+ data). split; [done|]. split; [|done].
      destruct (Z.eqb_spec (r_bytes_left r0) (-1)); simpl in *; [congruence | lia].
    + destruct (Z.eqb_spec (r_bytes_left r0) (-1)); [congruence|].
      destruct (Z.ltb_spec (strlen data) 1) as [H1|H1]; unfold wp; simpl.
      * exists (t +:+ data). split; [done|]. rewrite Hb, strlen_app.
        pose proof (strlen_nonneg data). destruct (Z.eqb_spec (r_bytes_left r0) (-1)); [done|].
        simpl. split; [lia | done].
      * split; [|done]. exists (t +:+ data). split; [done|]. rewrite strlen_app.
        destruct (Z.eqb_spec (r_bytes_left r0) (-1)); [done|].
        specialize (Hle E ltac:(lia)). simpl. split; [lia | done].
  - intros [Hw1 _]. unfold wp. simpl. by apply within_buf.
Qed.

Lemma wp_get_byte r :
  within r0 r →
  wp ipp_get_byte (λ _ r', within r0 r' ∧ todo r = S (todo r')) (λ _ r', within r0 r') never r.
Proof.
  intros Hw. unfold ipp_get_byte. apply wp_bind, wp_gets, wp_bind, wp_when.
  - intros Hb%Z.ltb_lt. eapply wp_mono; [by apply wp_load | | done | done].
    intros _ r1 [Hw1 E]. apply wp_bind, wp_gets. unfold id.
    assert (r_buf r = EmptyString) as Er.
    { unfold id in Hb. destruct (r_buf r) as [|c b]; [done|].
      rewrite strlen_String in Hb. pose proof (strlen_nonneg b). lia. }
    destruct (r_buf r1) as [|c b] eqn:Eb; [done|]. unfold wp. simpl.
    split; [apply within_buf; [done|]; destruct Hw1 as (_ & _ & _ & Hl);
      rewrite Eb, strlen_String in Hl; lia|].
    unfold todo. rewrite Er, E. simpl. by rewrite length_app_str.
  - intros Hb%Z.ltb_ge. apply wp_bind, wp_gets. unfold id in *.
    destruct (r_buf r) as [|c b] eqn:Eb; [done|]. unfold wp. simpl.
    split; [|unfold todo; rewrite Eb; done].
    apply within_buf; [done|]. destruct Hw as (_ & _ & _ & Hl).
    rewrite Eb, strlen_String in Hl. lia.
Qed.
(** * Numbers, strings and values *)

(** Reading stays within the length and never runs into the undefined. *)
Definition safe_read {A} (m : R A) (Q : A → Prop) : Prop := ∀ r,
  within r0 r →
  wp m (λ a r', within r0 r' ∧ (todo r' ≤ todo r)%nat ∧ Q a) (λ _ r', within r0 r') never r.

Lemma safe_ret {A} (a : A) (Q : A → Prop) : Q a → safe_read (mret a) Q.
Proof. intros HQ r Hw. by apply wp_ret. Qed.

Lemma safe_bind {A B} (m : R A) (f : A → R B) (Q : A → Prop) (Q' : B → Prop) :
  safe_read m Q → (∀ a, Q a → safe_read (f a) Q') → safe_read (m ≫= f) Q'.
Proof.
  intros Hm Hf r Hw. apply wp_bind. eapply wp_mono; [by apply Hm | | done | done].
  intros a r1 (Hw1 & Ht & Ha). eapply wp_mono; [by apply Hf | | done | done].
  intros b r2 (Hw2 & Ht2 & Hb). split; [done|]. split; [lia | done].
Qed.

Lemma safe_byte : safe_read ipp_get_byte (λ _, True).
Proof.
  intros r Hw. eapply wp_mono; [by apply wp_get_byte | | done | done].
  intros c r' [Hw' Ht]. split; [done|]. split; [lia | done].
Qed.

Lemma safe_ss : safe_read ipp_get_ss (λ n, 0 ≤ n < 65536).
Proof.
  eapply safe_bind; [apply safe_byte|]. intros a _. eapply safe_bind; [apply safe_byte|].
  intros b _. apply safe_ret. pose proof (code_range a). pose proof (code_range b).
  rewrite Z.shiftl_mul_pow2, (lor_low (code a) 8) by (simpl; lia). lia.
Qed.

Lemma int_of_bytes a b c d :
  Z.lor (Z.lor (Z.lor (i32 (Z.shiftl (code a) 24)) (Z.shiftl (code b) 16))
    (Z.shiftl (code c) 8)) (code d) =
  schar a * 16777216 + code b * 65536 + code c * 256 + code d.
Proof.
  pose proof (code_range a). pose proof (code_range b). pose proof (code_range c).
  pose proof (code_range d). rewrite !Z.shiftl_mul_pow2 by done.
  assert (i32 (code a * 2 ^ 24) = schar a * 2 ^ 24) as ->.
  { unfold schar, i32, signed_wrap. destruct (Z.ltb_spec (code a) 128).
    - rewrite Z.mod_small; lia.
    - rewrite <- (Z.mod_unique (code a * 2 ^ 24 + 2 ^ (32 - 1)) (2 ^ 32) 1
        (code a * 2 ^ 24 + 2 ^ (32 - 1) - 2 ^ 32)); lia. }
  rewrite (lor_low (schar a) 24) by (simpl; lia).
  replace (schar a * 2 ^ 24 + code b * 2 ^ 16) with ((schar a * 2 ^ 8 + code b) * 2 ^ 16) by lia.
  rewrite (lor_low _ 16) by (simpl; lia).
  replace ((schar a * 2 ^ 8 + code b) * 2 ^ 16 + code c * 2 ^ 8)
    with (((schar a * 2 ^ 8 + code b) * 2 ^ 8 + code c) * 2 ^ 8) by lia.
  rewrite (lor_low _ 8) by (simpl; lia). lia.
Qed.

Lemma safe_si : safe_read ipp_get_si (in_s 32).
Proof.
  eapply safe_bind; [apply safe_byte|]. intros a _. eapply safe_bind; [apply safe_byte|].
  intros b _. eapply safe_bind; [apply safe_byte|]. intros c _.
  eapply safe_bind; [apply safe_byte|]. intros d _. apply safe_ret.
  rewrite int_of_bytes. pose proof (schar_range a). pose proof (code_range b).
  pose proof (code_range c). pose proof (code_range d). unfold in_s. lia.
Qed.

Lemma safe_sb : safe_read ipp_get_sb (λ n, -128 ≤ n < 128).
Proof.
  eapply safe_bind; [apply safe_byte|]. intros a _. apply safe_ret, schar_range.
Qed.

Lemma safe_bytes len : safe_read (ipp_get_bytes len) (λ s, String.length s = Z.to_nat len).
Proof.
  unfold ipp_get_bytes. generalize (Z.to_nat len). intros n.
  induction n as [|n IH]; [by apply safe_ret|].
  eapply safe_bind; [apply safe_byte|]. intros c _. eapply safe_bind; [apply IH|].
  intros s Hs. apply safe_ret. simpl. by rewrite Hs.
Qed.

(** The member of the union that goes with a tag. *)
Definition value_ok (tag : Z) (v : ipp_value) : Prop :=
  match v with
  | VInteger n => ipp_tag_simplify tag = IPP_TAG_INTEGER ∧ in_s 32 n
  | VText s => ipp_tag_simplify tag = IPP_TAG_STRING ∧ strlen s < 65536
  | VUnknown n s =>
      ipp_tag_simplify tag ≠ IPP_TAG_INTEGER ∧ ipp_tag_simplify tag ≠ IPP_TAG_STRING ∧
      strlen s = n ∧ n < 65536
  | VUninit | VBoolean _ => False
  end.

Lemma safe_value tag len :
  0 ≤ len < 65536 → safe_read (get_value tag len) (value_ok tag).
Proof.
  intros Hlen. unfold get_value. destruct (Z.eqb_spec (ipp_tag_simplify tag) IPP_TAG_INTEGER) as [E|E].
  - eapply safe_bind; [apply safe_si|]. intros n Hn. by apply safe_ret.
  - destruct (Z.eqb_spec (ipp_tag_simplify tag) IPP_TAG_STRING) as [E2|E2];
      (eapply safe_bind; [apply safe_bytes|]; intros s Hs; simpl in Hs; apply safe_ret).
    + split; [done|]. unfold strlen. lia.
    + split; [done|]. split; [done|]. unfold strlen. lia.
Qed.
End within.

(** * The attributes *)

(** An attribute of a request: it has a name, a group and at least one value,
    and its first value is of its type. *)
Definition attr_ok (a : ipp_attribute) : Prop :=
  (∃ n, at_name a = Some n) ∧ 0 ≤ at_group_tag a < 16 ∧ 16 ≤ at_value_tag a < 128 ∧
  ∃ v vs, at_values a = v :: vs ∧ value_ok (at_value_tag a) v.

Lemma on_last_snoc {A} (f : A → A) l x : on_last f (l ++ [x]) = l ++ [f x].
Proof. unfold on_last. by rewrite last_snoc, removelast_last. Qed.

Lemma on_last_Forall {A} (f : A → A) (Q : A → Prop) l :
  Forall Q l → (∀ x, Q x → Q (f x)) → Forall Q (on_last f l).
Proof.
  intros Hl Hf. destruct l as [|x l _] using rev_ind; [done|]. rewrite on_last_snoc.
  apply Forall_app in Hl as [Hl Hx]. apply Forall_app. split; [done|].
  inversion_clear Hx. constructor; auto.
Qed.

(** A further value leaves the first one as it is. *)
Lemma further_value_ok v a :
  attr_ok a →
  attr_ok (with_values (on_last (λ _, v)) (with_values (λ vs, vs ++ [VUninit]) a)).
Proof.
  intros (Hn & Hg & Ht & v0 & vs & E & Hv). split; [done|]. split; [done|]. split; [done|].
  simpl. rewrite on_last_snoc, E. by exists v0, (vs ++ [v]).
Qed.

Section parsing.
Context (r0 : reader).

Definition going (p : IPP) : Prop :=
  within r0 (i_reader p) ∧ Forall attr_ok (i_request_attrs p).

Definition stopped (p : IPP) : Prop := within r0 (i_reader p).

Lemma wp_safe {A} (m : R A) (Q : A → Prop) (G : A → IPP → Prop) (X : string → IPP → Prop) p :
  safe_read r0 m Q → within r0 (i_reader p) →
  (∀ a r, within r0 r → (todo r ≤ todo (i_reader p))%nat → Q a → G a (set_reader r p)) →
  (∀ e r, within r0 r → X e (set_reader r p)) →
  wp (reading m) G X never p.
Proof.
  intros Hm Hw HG HX. apply wp_reading. eapply wp_mono; [by apply Hm | | | done].
  - intros a r (Hr & Ht & Ha). by apply HG.
  - intros e r Hr. by apply HX.
Qed.

Lemma wp_parse_value tag delimiter name first p :
  going p → 16 ≤ tag < 128 → 0 ≤ delimiter < 16 →
  wp (parse_value tag delimiter name first)
    (λ _ p', going p' ∧ (todo (i_reader p') ≤ todo (i_reader p))%nat)
    (λ _ p', stopped p') never p.
Proof.
  intros [Hw Ha] Htag Hd. unfold parse_value.
  apply wp_bind. eapply wp_safe; [apply safe_ss | done | | by intros].
  intros name_length r1 Hw1 Ht1 Hnl. apply wp_bind.
  assert (∀ Q : option string → IPP → Prop,
    (∀ n r, within r0 r → (todo r ≤ todo (i_reader p))%nat →
      (0 < name_length → ∃ s, n = Some s) → Q n (set_reader r p)) →
    wp (if 0 <? name_length
        then s ← reading (ipp_get_bytes name_length); mret (Some s) else mret name)
      Q (λ _ p', stopped p') never (set_reader r1 p)) as Hname.
  { intros Q HQ. destruct (Z.ltb_spec 0 name_length).
    - apply wp_bind. eapply wp_safe; [apply safe_bytes | done | | by intros].
      intros s r2 Hw2 Ht2 _. apply wp_ret. apply HQ; [done | simpl in *; lia | by eexists].
    - apply wp_ret. apply HQ; [done | done | lia]. }
  apply Hname. clear Hname. intros n r2 Hw2 Ht2 Hn.
  apply wp_bind. eapply wp_safe; [apply safe_ss | done | | by intros].
  intros value_length r3 Hw3 Ht3 Hvl. simpl in Ht3.
  apply wp_bind. destruct (Z.ltb_spec 0 name_length) as [Hl|Hl].
  - destruct (Hn Hl) as [s ->]. apply wp_modify. apply wp_bind.
    eapply wp_safe; [by apply safe_value | done | | by intros].
    intros v r4 Hw4 Ht4 Hv. apply wp_bind, wp_modify, wp_ret. simpl in *.
    split; [|lia]. split; [done|]. simpl.
    assert (attr_ok (with_values (on_last (λ _, v))
      (mkAttr delimiter tag (Some s) TemplateUninit [VUninit]))) as Hok.
    { split; [by eexists|]. split; [done|]. split; [done|]. by exists v, []. }
    destruct first; [by constructor|]. rewrite on_last_snoc.
    apply Forall_app. split; [done | by constructor].
  - destruct n as [s|]; [|by apply wp_throw]. apply wp_modify. apply wp_bind.
    eapply wp_safe; [by apply safe_value | done | | by intros].
    intros v r4 Hw4 Ht4 Hv. apply wp_bind, wp_modify, wp_ret. simpl in *.
    split; [|lia]. split; [done|]. simpl.
    destruct (i_request_attrs p) as [|a l _] using rev_ind; [done|].
    rewrite !on_last_snoc. apply Forall_app in Ha as [Hl' Ha]. apply Forall_app.
    split; [done|]. inversion_clear Ha. constructor; [|done]. by apply further_value_ok.
Qed.

Lemma wp_parse_loop fuel delimiter name first p :
  going p → 0 ≤ delimiter < 16 → (todo (i_reader p) < fuel)%nat →
  wp (parse_loop fuel delimiter name first) (λ _ p', going p') (λ _ p', stopped p') never p.
Proof.
  revert delimiter name first p. induction fuel as [|fuel IH];
    intros delimiter name first p [Hw Ha] Hd Hf; [lia|].
  simpl. apply wp_bind, wp_reading. unfold ipp_get_sb. apply wp_bind.
  eapply wp_mono; [by apply wp_get_byte | | done | done].
  intros c r1 [Hw1 Ht]. apply wp_ret. pose proof (schar_range c) as Hc.
  set (p1 := set_reader r1 p). assert (going p1) as Hp1 by done.
  assert (todo (i_reader p1) < fuel)%nat as Hf1 by (simpl; lia).
  destruct (schar c =? IPP_TAG_END); [by apply wp_ret|].
  destruct ((0 <=? schar c) && (schar c <=? 15)) eqn:E1.
  - apply andb_true_iff in E1 as [E1%Z.leb_le E2%Z.leb_le]. apply IH; [done | lia | done].
  - destruct ((16 <=? schar c) && (schar c <=? 255)) eqn:E2; [|by apply wp_throw].
    apply andb_true_iff in E2 as [E2%Z.leb_le _]. apply wp_bind.
    eapply wp_mono; [apply wp_parse_value; [done | lia | done] | | done | done].
    intros n p2 [Hp2 Ht2]. apply IH; [done | done | lia].
Qed.
End parsing.

(** Reading a request: how far the reader goes, and what is stored. *)
Lemma request_read p :
  may_read (i_reader p) → Forall attr_ok (i_request_attrs p) →
  wp ipp_parse_request
    (λ _ p', within (i_reader p) (i_reader p') ∧ Forall attr_ok (i_request_attrs p'))
    (λ _ p', within (i_reader p) (i_reader p')) never p.
Proof.
  intros Hr Ha. pose proof (within_refl _ Hr) as Hw. unfold ipp_parse_request.
  apply wp_bind, wp_gets. destruct (_ && _); [by apply wp_throw|].
  apply wp_bind. eapply wp_safe; [apply safe_sb | done | | by intros].
  intros major r1 Hw1 _ _. apply wp_bind, wp_modify, wp_bind.
  eapply wp_safe; [apply safe_sb | done | | by intros].
  intros minor r2 Hw2 _ _. apply wp_bind, wp_modify, wp_bind.
  eapply wp_safe; [apply safe_ss | done | | by intros].
  intros operation r3 Hw3 _ _. apply wp_bind, wp_modify, wp_bind.
  eapply wp_safe; [apply safe_si | done | | by intros].
  intros id r4 Hw4 _ _. apply wp_bind, wp_modify, wp_bind, wp_gets.
  apply wp_parse_loop; [by split | lia |]. unfold bytes_to_come, todo. lia.
Qed.

(** C24: whatever bytes a client sends, however they are split up and wherever
    they end, the reading of the request ends, with the request or with an
    exception; it takes no byte behind the announced length, its buffer does
    not overflow, and every attribute it keeps has a name, a group and a first
    value of its type. *)
Theorem a_request_is_read_within_its_length p :
  may_read (i_reader p) → Forall attr_ok (i_request_attrs p) →
  wp ipp_parse_request
    (λ _ p', within (i_reader p) (i_reader p') ∧ Forall attr_ok (i_request_attrs p'))
    (λ _ p', within (i_reader p) (i_reader p')) never p.
Proof. apply request_read. Qed.

(** * Witnesses *)

Lemma a_request_is_read_within_its_length_witness :
  may_read (i_reader fresh_ipp) ∧
  wp ipp_parse_request
    (λ _ p', within (i_reader fresh_ipp) (i_reader p') ∧ Forall attr_ok (i_request_attrs p'))
    (λ _ p', within (i_reader fresh_ipp) (i_reader p')) never fresh_ipp.
Proof.
  assert (may_read (i_reader fresh_ipp)) as Hr by (split; vm_compute; discriminate).
  split; [exact Hr|]. apply (a_request_is_read_within_its_length fresh_ipp Hr). constructor.
Defined.

Lemma sample_attrs_ok : Forall attr_ok [my_jobs; mixed_names; sample_names].
Proof.
  repeat (apply Forall_cons; split); [| | |constructor].
  all: split; [by eexists|]; split; [done|]; split; [done|]; eexists _, _;
    split; [reflexivity|]; by repeat split.
Qed.
