(* ===== verification/IppWire.v ===== *)
(** The encoding of IPP (RFC 2910), and how the routines that write and read it
    follow it whatever the pieces the system moves at a time. *)
From S2P Require Import Prelude.
From S2P Require Import Text.
From S2P Require Import TextFacts.
From S2P Require Import IppObject.
From S2P Require Import IppReply.
From S2P Require Import PropIppRequest.

(** * Encodings *)

Definition byte (n : Z) : string := String (chr n) EmptyString.

Definition enc16 (n : Z) : string := byte (n / 256) +:+ byte (n mod 256).

Definition enc32 (n : Z) : string :=
  let u := u32 n in
  byte (u / 16777216) +:+ byte (u / 65536 mod 256) +:+ byte (u / 256 mod 256) +:+ byte (u mod 256).

Definition counted (s : string) : string := enc16 (strlen s) +:+ s.

(** * Writing *)

Definition w_ok (w : writer) : Prop :=
  Forall (λ a, a ≠ WriteFailed) (w_writes w) ∧ w_remaining w = IPP_BUFSIZE - strlen (w_buf w) ∧
  strlen (w_buf w) < IPP_BUFSIZE.

Definition w_stream (w : writer) : string := w_output w +:+ w_buf w.

Definition puts (m : W unit) (str : string) : Prop := ∀ w, w_ok w →
  ∃ w', m w = Done tt w' ∧ w_ok w' ∧ w_stream w' = w_stream w +:+ str.

Lemma puts_ret : puts (mret tt) EmptyString.
Proof. intros w Hw. exists w. split; [done|]. split; [done|]. by rewrite str_app_nil_r. Qed.

Lemma puts_bind m (f : unit → W unit) a b :
  puts m a → puts (f tt) b → puts (m ≫= f) (a +:+ b).
Proof.
  intros Hm Hf w Hw. destruct (Hm w Hw) as (w1 & E1 & Hw1 & S1).
  destruct (Hf w1 Hw1) as (w2 & E2 & Hw2 & S2). exists w2.
  rewrite (bind_done _ _ _ _ _ E1). split; [done|]. split; [done|].
  by rewrite S2, S1, str_app_assoc.
Qed.

Lemma flush_loop_all writes s sent :
  Forall (λ a, a ≠ WriteFailed) writes →
  ∃ ws, flush_loop writes s sent = (true, sent +:+ s, ws) ∧ Forall (λ a, a ≠ WriteFailed) ws.
Proof.
  intros Hws. revert s sent.
  induction Hws as [|a ws Ha Hws IH]; intros s sent.
  - exists []. destruct s as [|c s]; simpl; [by rewrite str_app_nil_r | done].
  - destruct s as [|c s].
    + exists (a :: ws). simpl. rewrite str_app_nil_r. split; [done | by constructor].
    + destruct a as [n|]; [|done].
      destruct (IH (str_drop n (String c s)) (sent +:+ str_take n (String c s))) as (ws' & E & H).
      exists ws'. split; [|done]. cbn [flush_loop]. rewrite E.
      by rewrite str_app_assoc, str_take_drop.
Qed.

Lemma flush_done w :
  Forall (λ a, a ≠ WriteFailed) (w_writes w) →
  ∃ w', ipp_writebuf_flush w = Done tt w' ∧ w_ok w' ∧ w_stream w' = w_stream w ∧
    w_buf w' = EmptyString.
Proof.
  intros Hw. destruct (flush_loop_all (w_writes w) (w_buf w) (w_output w) Hw) as (ws & E & H).
  eexists. split; [unfold ipp_writebuf_flush; run; by rewrite E|].
  split; [by split|]. split; [|done]. unfold w_stream. simpl. by rewrite str_app_nil_r.
Qed.

Lemma puts_byte c : puts (ipp_put_byte c) (String c EmptyString).
Proof.
  intros w (Hf & Hr & Hl). unfold ipp_put_byte. run. cbn [w_remaining].
  set (w1 := mkWriter _ _ _ _). assert (w_stream w1 = w_stream w +:+ String c EmptyString) as Hs
    by (unfold w_stream; simpl; by rewrite str_app_assoc).
  destruct (Z.ltb_spec (w_remaining w - 1) 1) as [H1|H1]; cbn [when].
  - destruct (flush_done w1 Hf) as (w' & E & Hok & Hs' & _).
    exists w'. split; [done|]. split; [done|]. by rewrite Hs'.
  - exists w1. split; [done|]. split; [|done]. split; [done|]. simpl. rewrite strlen_app.
    change (strlen (String c EmptyString)) with 1. unfold IPP_BUFSIZE in *. lia.
Qed.

Lemma land_byte n k : 0 ≤ k → Z.shiftr (Z.land n (255 * 2 ^ k)) k = n / 2 ^ k mod 256.
Proof.
  intros Hk. rewrite Z.shiftr_land, <- Z.shiftl_mul_pow2, Z.shiftr_shiftl_l, Z.sub_diag by done.
  rewrite Z.shiftl_0_r, Z.shiftr_div_pow2 by done. by rewrite (Z.land_ones _ 8).
Qed.

Lemma land_low n : Z.land n 255 = n mod 256.
Proof. apply (Z.land_ones n 8). done. Qed.

Lemma puts_ss n : 0 ≤ n < 65536 → puts (ipp_put_ss n) (enc16 n).
Proof.
  intros Hn. unfold ipp_put_ss, enc16. rewrite u32_small by lia.
  change 65280 with (255 * 2 ^ 8). rewrite (land_byte n 8), land_low by done.
  rewrite (Z.mod_small (n / 2 ^ 8)) by (split; [apply Z.div_pos; lia | apply Z.div_lt_upper_bound; lia]).
  apply puts_bind; apply puts_byte.
Qed.

Lemma puts_si n : puts (ipp_put_si n) (enc32 n).
Proof.
  unfold ipp_put_si, enc32. set (u := u32 n).
  assert (0 ≤ u < 2 ^ 32) as Hu by (apply unsigned_wrap_range; done).
  change 4278190080 with (255 * 2 ^ 24). change 16711680 with (255 * 2 ^ 16).
  change 65280 with (255 * 2 ^ 8).
  rewrite (land_byte u 24), (land_byte u 16), (land_byte u 8), land_low by done.
  rewrite (Z.mod_small (u / 2 ^ 24)) by (split; [apply Z.div_pos; lia | apply Z.div_lt_upper_bound; lia]).
  repeat (apply puts_bind; [apply puts_byte|]). apply puts_byte.
Qed.

Lemma puts_bytes s : puts (ipp_put_bytes s) s.
Proof.
  induction s as [|c s IH]; [apply puts_ret|]. simpl.
  change (String c s) with (String c EmptyString +:+ s). by apply puts_bind; [apply puts_byte|].
Qed.

Lemma puts_sb n : puts (ipp_put_sb n) (byte (u8 n)).
Proof. apply puts_byte. Qed.

(** * Reading *)

(** What the reader will get, in the end. *)
Definition avail (r : reader) : string :=
  r_buf r +:+ (if r_bytes_left r =? -1 then r_input r
               else str_take (Z.to_nat (r_bytes_left r)) (r_input r)).

Definition r_ok (r : reader) : Prop :=
  Forall (λ a, a ≠ ReadError) (r_reads r) ∧
  (r_bytes_left r = -1 ∨ 0 ≤ r_bytes_left r ≤ strlen (r_input r)).

Definition takes {A} (m : R A) (str : string) (a : A) : Prop := ∀ r rest,
  r_ok r → avail r = str +:+ rest → ∃ r', m r = Done a r' ∧ r_ok r' ∧ avail r' = rest.

Lemma takes_ret {A} (a : A) : takes (mret a) EmptyString a.
Proof. intros r rest Hr E. by exists r. Qed.

Lemma takes_bind {A B} (m : R A) (f : A → R B) s t a b :
  takes m s a → takes (f a) t b → takes (m ≫= f) (s +:+ t) b.
Proof.
  intros Hm Hf r rest Hr E. rewrite str_app_assoc in E.
  destruct (Hm r _ Hr E) as (r1 & E1 & Hr1 & A1).
  destruct (Hf r1 _ Hr1 A1) as (r2 & E2 & Hr2 & A2).
  exists r2. by rewrite (bind_done _ _ _ _ _ E1).
Qed.

Lemma str_take_split n m s :
  (m ≤ n)%nat → str_take n s = str_take m s +:+ str_take (n - m) (str_drop m s).
Proof.
  revert n s. induction m as [|m IH]; intros n s Hm; [by rewrite Nat.sub_0_r|].
  destruct n as [|n]; [lia|]. destruct s as [|c s]; simpl; [by destruct (n - m)%nat|].
  rewrite str_cons_app, <- IH by lia. done.
Qed.

(** A read that moves [k] bytes. *)
Lemma load_done r :
  r_ok r → r_buf r = EmptyString → avail r ≠ EmptyString →
  ∃ r', ipp_readbuf_load r = Done tt r' ∧ r_ok r' ∧ avail r' = avail r ∧ r_buf r' ≠ EmptyString.
Proof.
  intros [Hreads Hleft] Hb Hav. unfold ipp_readbuf_load. run.
  set (want := if _ : bool then _ else _).
  assert (∃ k rs, sys_read want r = Done (Some (str_take k (r_input r)))
      (mkReader (r_bytes_left r) (str_drop k (r_input r)) rs (r_buf r)) ∧
    Forall (λ a, a ≠ ReadError) rs ∧ (1 ≤ k)%nat ∧
    (r_bytes_left r ≠ -1 → Z.of_nat k ≤ r_bytes_left r)) as (k & rs & E & Hrs & Hk & Hkl).
  { assert (1 ≤ want ∧ (r_bytes_left r ≠ -1 → want ≤ r_bytes_left r)) as [H1 H2].
    { unfold want, IPP_BUFSIZE, avail in *. rewrite Hb in Hav. simpl in Hav.
      destruct (Z.eqb_spec (r_bytes_left r) (-1)); simpl; [lia|].
      assert (r_bytes_left r ≠ 0) by (intros E0; rewrite E0 in Hav; done).
      rewrite (proj2 (Z.leb_le 0 _)) by lia. simpl. destruct (Z.ltb_spec (r_bytes_left r) 512); lia. }
    unfold sys_read. run. destruct (r_reads r) as [|[n|] rs]; run.
    - exists (Z.to_nat want), []. split; [done|]. split; [done|]. lia.
    - inversion_clear Hreads. exists (Nat.min (Nat.max 1 n) (Z.to_nat want)), rs.
      split; [done|]. split; [done|]. split; [lia|]. intros Hne. specialize (H2 Hne). lia.
    - inversion_clear Hreads. done. }
  rewrite (bind_done _ _ _ _ _ E). unfold set_r_buf. run.
  set (data := str_take k (r_input r)).
  assert (r_input r = data +:+ str_drop k (r_input r)) as Ei by (unfold data; by rewrite str_take_drop).
  unfold avail in *. rewrite Hb in *. rewrite str_nil_app in *.
  assert (strlen data = Z.min (Z.of_nat k) (strlen (r_input r))) as El
    by (unfold data, strlen; rewrite str_length_take; lia).
  destruct (Z.eqb_spec (r_bytes_left r) (-1)) as [Em|Em]; cbn [negb when].
  - eexists. split; [done|]. split; [split; [done | by left]|]. simpl.
    rewrite (proj2 (Z.eqb_eq _ _) Em). split; [by symmetry|].
    intros E0. apply (f_equal strlen) in E0. change (strlen EmptyString) with 0 in E0.
    assert (strlen (r_input r) = 0) as E1 by (pose proof (strlen_nonneg (r_input r)); lia).
    by destruct (r_input r).
  - destruct Hleft as [?|Hleft]; [done|]. specialize (Hkl Em).
    rewrite (proj2 (Z.ltb_ge _ _)) by lia. run.
    eexists. split; [done|]. simpl. split; [split; [done|]|].
    + right. simpl. rewrite Ei, strlen_app in Hleft. lia.
    + destruct (Z.eqb_spec (r_bytes_left r - strlen data) (-1)); [lia|]. split.
      * rewrite (str_take_split (Z.to_nat (r_bytes_left r)) k) by lia. fold data.
        do 2 f_equal. lia.
      * intros E0. rewrite E0 in El. change (strlen EmptyString) with 0 in El. lia.
Qed.

Lemma takes_byte c : takes ipp_get_byte (String c EmptyString) c.
Proof.
  intros r rest Hr E. unfold ipp_get_byte. run.
  assert (∀ r1, r_ok r1 → avail r1 = String c rest → r_buf r1 ≠ EmptyString → ∃ r',
    (p ← gets id;
     match r_buf p with
     | EmptyString => gu_Throw "Data runoff!"
     | String c b => set_r_buf b;; mret c
     end) r1 = Done c r' ∧ r_ok r' ∧ avail r' = rest) as Hnext.
  { intros r1 [Hf Hl] E1 Hb. run. unfold avail in E1.
    destruct (r_buf r1) as [|c' b] eqn:Eb; [done|]. rewrite str_cons_app in E1.
    injection E1 as -> <-. eexists. split; [done|]. by split. }
  destruct (r_buf r) as [|c' b] eqn:Eb.
  - destruct (load_done r Hr Eb) as (r1 & E1 & Hr1 & Ha1 & Hb1); [by rewrite E|].
    change (strlen EmptyString <? 1) with true. cbn [when].
    rewrite (bind_done _ _ _ _ _ E1). apply Hnext; [done | by rewrite Ha1 | done].
  - rewrite (proj2 (Z.ltb_ge _ _)) by (rewrite strlen_String; pose proof (strlen_nonneg b); lia).
    cbn [when]. rewrite bind_ret. apply Hnext; [done | done | by rewrite Eb].
Qed.

Lemma takes_sb n : -128 ≤ n < 128 → takes ipp_get_sb (byte (u8 n)) n.
Proof.
  intros Hn. unfold ipp_get_sb, byte. rewrite <- (str_app_nil_r (String _ _)).
  eapply takes_bind; [apply takes_byte|].
  assert (schar (chr (u8 n)) = n) as ->; [|apply takes_ret].
  pose proof (u8_range n). unfold schar. rewrite code_of_chr by done.
  unfold u8, unsigned_wrap. destruct (Z.lt_ge_cases n 0).
  - replace (n mod 2 ^ 8) with (n + 256) by (apply (Z.mod_unique _ _ (-1)); lia).
    rewrite (proj2 (Z.ltb_ge _ _)) by lia. lia.
  - rewrite Z.mod_small by lia. by rewrite (proj2 (Z.ltb_lt _ _)) by lia.
Qed.

Lemma byte_range n k : 0 ≤ n → 0 < k → 0 ≤ n / k mod 256 < 256.
Proof. intros _ _. by apply Z.mod_pos_bound. Qed.

Lemma takes_ss n : 0 ≤ n < 65536 → takes ipp_get_ss (enc16 n) n.
Proof.
  intros Hn. unfold ipp_get_ss, enc16, byte.
  eapply takes_bind; [apply takes_byte|]. cbv beta.
  rewrite <- (str_app_nil_r (String (chr (n mod 256)) EmptyString)).
  eapply takes_bind; [apply takes_byte|]. cbv beta.
  assert (0 ≤ n / 256 < 256) by (split; [apply Z.div_pos; lia | apply Z.div_lt_upper_bound; lia]).
  pose proof (Z.mod_pos_bound n 256 ltac:(done)).
  rewrite !code_of_chr by done. rewrite Z.shiftl_mul_pow2, (lor_low _ 8) by (simpl; lia).
  replace (n / 256 * 2 ^ 8 + n mod 256) with n by (pose proof (Z.div_mod n 256 ltac:(done)); lia).
  apply takes_ret.
Qed.

Lemma takes_si n : in_s 32 n → takes ipp_get_si (enc32 n) n.
Proof.
  intros Hn. unfold ipp_get_si, enc32, byte. set (u := u32 n).
  assert (0 ≤ u < 4294967296) as Hu by (apply (unsigned_wrap_range 32); done).
  do 3 (eapply takes_bind; [apply takes_byte|]; cbv beta).
  rewrite <- (str_app_nil_r (String (chr (u mod 256)) EmptyString)).
  eapply takes_bind; [apply takes_byte|]. cbv beta. rewrite int_of_bytes.
  assert (0 ≤ u / 16777216 < 256)
    by (split; [apply Z.div_pos; lia | apply Z.div_lt_upper_bound; lia]).
  unfold schar. rewrite !code_of_chr by (first [done | by apply Z.mod_pos_bound]).
  match goal with |- takes (mret ?x) _ _ => assert (x = n) as -> end; [|apply takes_ret].
  pose proof (Z.div_mod u 256 ltac:(done)) as D1.
  pose proof (Z.div_mod (u / 256) 256 ltac:(done)) as D2.
  pose proof (Z.div_mod (u / 65536) 256 ltac:(done)) as D3.
  rewrite Z.div_div in D2, D3 by done. change (256 * 256) with 65536 in D2.
  change (65536 * 256) with 16777216 in D3. unfold in_s in Hn.
  assert (n = u ∨ n = u - 4294967296) as Hnu.
  { unfold u, u32, unsigned_wrap. destruct (Z.lt_ge_cases n 0).
    - right. assert (n + 4294967296 = n mod 2 ^ 32) as <-; [|lia].
      apply (Z.mod_unique _ _ (-1)); lia.
    - left. rewrite Z.mod_small; lia. }
  pose proof (Z.mod_pos_bound u 256 ltac:(done)) as B1.
  pose proof (Z.mod_pos_bound (u / 256) 256 ltac:(done)) as B2.
  pose proof (Z.mod_pos_bound (u / 65536) 256 ltac:(done)) as B3.
  clearbody u. revert D1 D2 D3 H Hnu B1 B2 B3.
  generalize (u mod 256) (u / 256 mod 256) (u / 65536 mod 256) (u / 256) (u / 65536).
  generalize (u / 16777216). intros a d c b q1 q2 D1 D2 D3 Ha Hnu B1 B2 B3.
  destruct (Z.ltb_spec a 128); lia.
Qed.

Lemma takes_bytes s : takes (ipp_get_bytes (strlen s)) s s.
Proof.
  unfold ipp_get_bytes, strlen. rewrite Nat2Z.id. induction s as [|c s IH]; [apply takes_ret|].
  change (String c s) with (String c EmptyString +:+ s) at 2.
  cbn [String.length get_bytes]. eapply takes_bind; [apply takes_byte|].
  rewrite <- (str_app_nil_r s) at 2. eapply takes_bind; [apply IH | apply takes_ret].
Qed.

(** * Values *)

(** A value as the reader keeps it, and its bytes. *)
Definition value_wire (v : ipp_value) : string :=
  match v with
  | VInteger n => enc16 4 +:+ enc32 n
  | VText s => counted s
  | VUnknown n s => enc16 n +:+ s
  | VUninit | VBoolean _ => EmptyString
  end.

Definition value_length (v : ipp_value) : Z :=
  match v with
  | VInteger _ => 4
  | VText s => strlen s
  | VUnknown n _ => n
  | VUninit | VBoolean _ => 0
  end.

Definition value_data (v : ipp_value) : string :=
  match v with
  | VInteger n => enc32 n
  | VText s | VUnknown _ s => s
  | VUninit | VBoolean _ => EmptyString
  end.

Lemma value_wire_parts tag v :
  value_ok tag v → value_wire v = enc16 (value_length v) +:+ value_data v ∧
    0 ≤ value_length v < 65536.
Proof.
  destruct v as [|n|b|s|n s]; simpl; try done.
  - intros [_ Hs]. pose proof (strlen_nonneg s). done.
  - intros (_ & _ & <- & Hs). pose proof (strlen_nonneg s). done.
Qed.

Lemma takes_value tag v :
  value_ok tag v → takes (get_value tag (value_length v)) (value_data v) v.
Proof.
  intros Hv. unfold get_value. rewrite <- (str_app_nil_r (value_data v)).
  destruct v as [|n|b|s|n s]; simpl in Hv; try done.
  - destruct Hv as [-> Hn]. rewrite Z.eqb_refl.
    eapply takes_bind; [by apply takes_si | apply takes_ret].
  - destruct Hv as [-> Hs]. change (IPP_TAG_STRING =? IPP_TAG_INTEGER) with false.
    rewrite Z.eqb_refl. eapply takes_bind; [apply takes_bytes | apply takes_ret].
  - destruct Hv as (H1 & H2 & <- & _).
    rewrite (proj2 (Z.eqb_neq _ _) H1), (proj2 (Z.eqb_neq _ _) H2).
    eapply takes_bind; [apply takes_bytes | apply takes_ret].
Qed.
