(* ===== verification/PropIppReply.v ===== *)
(** Properties of the IPP responses: what is sent is what a reader of the
    encoding gets, with the exceptions the program does not mean. *)
From S2P Require Import Prelude.
From S2P Require Import Text.
From S2P Require Import TextFacts.
From S2P Require Import IppObject.
From S2P Require Import IppReply.
From S2P Require Import SampleIpp.
From S2P Require Import PropIppRequest.
From S2P Require Import IppWire.

(** * What is sent of an attribute *)

(** A value as its reader will keep it: URIs are completed, a boolean is a byte
    of a type the reader does not know. *)
Definition as_received (root : string) (a : ipp_attribute) (v : ipp_value) : option ipp_value :=
  let tag := at_value_tag a in
  if tag =? IPP_TAG_URI then
    match at_template a with
    | TemplateUninit => None
    | Template t => s ← format_one t (Some v); Some (VText (root +:+ str_take (temp_size - 1) s))
    | NoTemplate =>
        s ← as_text v; Some (VText (if String.prefix "/" s then root +:+ s else s))
    end
  else if ipp_tag_simplify tag =? IPP_TAG_INTEGER then VInteger <$> as_int v
  else if ipp_tag_simplify tag =? IPP_TAG_STRING then VText <$> as_text v
  else if ipp_tag_simplify tag =? IPP_TAG_BOOLEAN then
    n ← as_int v; Some (VUnknown 1 (byte (if n =? 0 then 0 else 1)))
  else None.

Definition sent_name (a : ipp_attribute) : string := c_string (default EmptyString (at_name a)).

Definition name_wire (first : bool) (a : ipp_attribute) : string :=
  if first then counted (sent_name a) else enc16 0.

Fixpoint values_wire (root : string) (a : ipp_attribute) (first : bool) (vs : list ipp_value)
    : string :=
  match vs with
  | [] => EmptyString
  | v :: vs' =>
      (byte (at_value_tag a) +:+ name_wire first a +:+
       default EmptyString (value_wire <$> as_received root a v)) +:+
      values_wire root a false vs'
  end.

Definition attr_wire (root : string) (a : ipp_attribute) : string :=
  values_wire root a true (at_values a).

(** Every value can be sent and fits into its field, and there is a name. *)
Definition value_sendable (root : string) (a : ipp_attribute) (v : ipp_value) : Prop :=
  ∃ rv, as_received root a v = Some rv ∧ value_ok (at_value_tag a) rv.

Definition sendable (root : string) (a : ipp_attribute) : Prop :=
  16 ≤ at_value_tag a < 128 ∧
  (at_values a ≠ [] → (∃ n, at_name a = Some n) ∧ 1 ≤ strlen (sent_name a) < 65536) ∧
  Forall (value_sendable root a) (at_values a).

(** * Sending *)

Definition emits (m : P unit) (str : string) (p : IPP) : Prop := ∀ w, w_ok w →
  ∃ w', m (set_writer w p) = Done tt (set_writer w' p) ∧ w_ok w' ∧
    w_stream w' = w_stream w +:+ str.

Lemma emits_ret p : emits (mret tt) EmptyString p.
Proof. intros w Hw. exists w. by rewrite str_app_nil_r. Qed.

Lemma emits_bind m (f : unit → P unit) a b p :
  emits m a p → emits (f tt) b p → emits (m ≫= f) (a +:+ b) p.
Proof.
  intros Hm Hf w Hw. destruct (Hm w Hw) as (w1 & E1 & Hw1 & S1).
  destruct (Hf w1 Hw1) as (w2 & E2 & Hw2 & S2). exists w2.
  rewrite (bind_done _ _ _ _ _ E1). split; [done|]. split; [done|].
  by rewrite S2, S1, str_app_assoc.
Qed.

Lemma emits_writing m str p : puts m str → emits (writing m) str p.
Proof.
  intros Hm w Hw. destruct (Hm w Hw) as (w' & E & Hw' & Hs). exists w'.
  unfold writing. simpl. by rewrite E.
Qed.

Lemma emits_counted s p : strlen s < 65536 → emits (put_counted s) (counted s) p.
Proof.
  intros Hs. pose proof (strlen_nonneg s). unfold put_counted, counted.
  apply emits_bind; apply emits_writing; [by apply puts_ss | apply puts_bytes].
Qed.

(** The last part of a value: its length and its bytes. *)
Lemma emits_content a v rv p :
  as_received (i_root p) a v = Some rv → value_ok (at_value_tag a) rv →
  emits (e ← expanded (i_root p) a v;
         match e with Some s => put_counted s | None => put_plain a v end) (value_wire rv) p.
Proof.
  intros Hr Hok. unfold as_received in Hr. unfold expanded.
  assert (∀ s, VText s = rv → emits (put_counted s) (value_wire rv) p) as Htext.
  { intros s <-. apply emits_counted. apply Hok. }
  assert (at_value_tag a ≠ IPP_TAG_URI → emits (put_plain a v) (value_wire rv) p) as Hplain.
  { intros Hu. rewrite (proj2 (Z.eqb_neq _ _) Hu) in Hr. unfold put_plain.
    destruct (ipp_tag_simplify (at_value_tag a) =? IPP_TAG_INTEGER).
    { destruct (as_int v) as [n|]; [|done]. injection Hr as <-. simpl.
      apply emits_bind; apply emits_writing; [by apply puts_ss | apply puts_si]. }
    destruct (ipp_tag_simplify (at_value_tag a) =? IPP_TAG_STRING).
    { destruct (as_text v) as [s|]; [|done]. injection Hr as <-. by apply Htext. }
    destruct (ipp_tag_simplify (at_value_tag a) =? IPP_TAG_BOOLEAN); [|done].
    destruct (as_int v) as [n|]; [|done]. injection Hr as <-. simpl.
    apply emits_bind; apply emits_writing; [by apply puts_ss|].
    by destruct (n =? 0); apply puts_sb. }
  destruct (Z.eqb_spec (at_value_tag a) IPP_TAG_URI) as [Hu|Hu]; [|by apply Hplain].
  destruct (at_template a) as [|t|]; [| |done].
  - destruct (as_text v) as [s|] eqn:Es; [|done]. simpl in Hr. injection Hr as Hr.
    run. destruct (String.prefix "/" s); [by apply Htext|].
    unfold put_plain. rewrite Hu. simpl. rewrite Es. by apply Htext.
  - destruct (format_one t (Some v)) as [s|]; [|done]. simpl in Hr. injection Hr as Hr.
    by apply Htext.
Qed.

Lemma emits_value a first v p :
  16 ≤ at_value_tag a < 128 → value_sendable (i_root p) a v →
  (first = true → (∃ n, at_name a = Some n) ∧ strlen (sent_name a) < 65536) →
  emits (put_value a first v)
    (byte (at_value_tag a) +:+ name_wire first a +:+
     default EmptyString (value_wire <$> as_received (i_root p) a v)) p.
Proof.
  intros Ht (rv & Hr & Hok) Hn. rewrite Hr. unfold put_value.
  apply emits_bind; [apply emits_writing; unfold byte; rewrite <- (u8_small (at_value_tag a)) at 2
    by lia; apply puts_byte|].
  apply emits_bind.
  - unfold name_wire, sent_name in *. destruct first.
    + destruct (Hn eq_refl) as [[n ->] Hl]. by apply emits_counted.
    + apply emits_writing. by apply puts_ss.
  - by apply emits_content.
Qed.

Lemma emits_values a first vs p :
  16 ≤ at_value_tag a < 128 → Forall (value_sendable (i_root p) a) vs →
  (first = true → vs ≠ [] → (∃ n, at_name a = Some n) ∧ strlen (sent_name a) < 65536) →
  emits (put_values a first vs) (values_wire (i_root p) a first vs) p.
Proof.
  intros Ht Hvs. revert first. induction Hvs as [|v vs Hv Hvs IH]; intros first Hn.
  - apply emits_ret.
  - simpl. apply emits_bind; [apply emits_value; [done | done | naive_solver] | by apply IH].
Qed.

Lemma emits_attr a p :
  sendable (i_root p) a → emits (ipp_put_attr a) (attr_wire (i_root p) a) p.
Proof.
  intros (Ht & Hn & Hv). apply emits_values; [done | done |].
  intros _ Hne. destruct (Hn Hne) as [? []]. done.
Qed.

(** * Sections *)

Definition attrs_wire (root : string) (l : list ipp_attribute) : string :=
  foldr (λ a s, attr_wire root a +:+ s) EmptyString l.

Fixpoint groups_wire (root : string) (tag : Z) (l : list ipp_attribute) : string :=
  match l with
  | [] => EmptyString
  | a :: l' =>
      (if at_value_tag a =? IPP_TAG_END then
         match l' with [] => EmptyString | _ => byte tag end
       else attr_wire root a) +:+ groups_wire root tag l'
  end.

Definition section_wire (tag : Z) (body : list ipp_attribute → string) (l : list ipp_attribute)
    : string :=
  match l with
  | [] => EmptyString
  | _ => byte tag +:+ body l
  end.

Definition group_ok (root : string) (a : ipp_attribute) : Prop :=
  at_value_tag a = IPP_TAG_END ∨ sendable root a.

Lemma emits_attrs l p :
  Forall (sendable (i_root p)) l → emits (put_attrs l) (attrs_wire (i_root p) l) p.
Proof.
  induction 1 as [|a l Ha Hl IH]; [apply emits_ret|].
  apply emits_bind; [by apply emits_attr | done].
Qed.

Lemma emits_groups tag l p :
  Forall (group_ok (i_root p)) l →
  emits (put_groups tag l) (groups_wire (i_root p) tag l) p.
Proof.
  induction 1 as [|a l Ha Hl IH]; [apply emits_ret|].
  simpl. apply emits_bind; [|done]. destruct (Z.eqb_spec (at_value_tag a) IPP_TAG_END) as [E|E].
  - destruct l; [apply emits_ret | apply emits_writing, puts_byte].
  - apply emits_attr. by destruct Ha.
Qed.

Lemma emits_section tag body wire l p :
  emits (body l) (wire l) p → emits (put_section tag body l) (section_wire tag wire l) p.
Proof.
  intros H. destruct l; [apply emits_ret|].
  apply emits_bind; [apply emits_writing, puts_byte | done].
Qed.

(** What add_unsupported() adds. *)
Definition not_claimed (l : list ipp_attribute) : list ipp_attribute :=
  (λ a, mkAttr IPP_TAG_UNSUPPORTED IPP_TAG_UNSUPPORTED_VALUE (at_name a) NoTemplate []) <$>
  filter (λ a, is_one_of (at_group_tag a) [IPP_TAG_OPERATION; IPP_TAG_JOB] = true) l.

Definition with_unsupported (l : list ipp_attribute) (p : IPP) : IPP :=
  set_response_attrs (i_operation p) (i_printer p) (i_job p) (i_unsupported p ++ l) p.

Lemma add_unsupported_done l p :
  add_unsupported l p = Done tt (with_unsupported (not_claimed l) p).
Proof.
  revert p. induction l as [|a l IH]; intros p.
  - unfold with_unsupported, not_claimed. simpl. rewrite app_nil_r. by destruct p.
  - cbn [add_unsupported]. unfold not_claimed. rewrite filter_cons.
    destruct (is_one_of (at_group_tag a) _) eqn:E.
    + rewrite decide_True by done. cbn [when fmap list_fmap].
      set (b := mkAttr _ _ _ _ _).
      assert (ipp_new_attribute IPP_TAG_UNSUPPORTED IPP_TAG_UNSUPPORTED_VALUE (at_name a)
        NoTemplate [] p = Done tt (with_unsupported [b] p)) as E1 by done.
      rewrite (bind_done _ _ _ _ _ E1), IH. f_equal.
      unfold with_unsupported. simpl. by rewrite <- app_assoc.
    + rewrite decide_False by congruence. cbn [when]. apply IH.
Qed.

Definition reply_body (p : IPP) : string :=
  byte (u8 (i_version_major p)) +:+ byte (u8 (i_version_minor p)) +:+
  enc16 (i_response_code p) +:+ enc32 (i_request_id p) +:+
  section_wire IPP_TAG_OPERATION (attrs_wire (i_root p)) (i_operation p) +:+
  section_wire IPP_TAG_PRINTER (groups_wire (i_root p) IPP_TAG_PRINTER) (i_printer p) +:+
  section_wire IPP_TAG_JOB (groups_wire (i_root p) IPP_TAG_JOB) (i_job p) +:+
  section_wire IPP_TAG_UNSUPPORTED (attrs_wire (i_root p)) (i_unsupported p) +:+
  byte IPP_TAG_END.

(** A response that can be sent. *)
Record reply_ok (p : IPP) : Prop := mkReplyOk {
  rp_operation : i_operation p ≠ [];
  rp_code : 0 ≤ i_response_code p < 65536;
  rp_attrs : Forall (sendable (i_root p)) (i_operation p);
  rp_printer : Forall (group_ok (i_root p)) (i_printer p);
  rp_job : Forall (group_ok (i_root p)) (i_job p);
  rp_unsupported : Forall (sendable (i_root p)) (i_unsupported p);
  rp_writer : w_ok (i_writer p);
}.

Lemma not_claimed_sendable root l : Forall (sendable root) (not_claimed l).
Proof.
  apply Forall_fmap, Forall_forall. intros a _. split; [simpl; unfold IPP_TAG_UNSUPPORTED_VALUE; lia|].
  by split.
Qed.

(** The last step empties the buffer. *)
Definition emits_all (m : P unit) (str : string) (p : IPP) : Prop := ∀ w, w_ok w →
  ∃ w', m (set_writer w p) = Done tt (set_writer w' p) ∧ w_buf w' = EmptyString ∧
    w_output w' = w_stream w +:+ str.

Lemma emits_all_bind m (f : unit → P unit) a b p :
  emits m a p → emits_all (f tt) b p → emits_all (m ≫= f) (a +:+ b) p.
Proof.
  intros Hm Hf w Hw. destruct (Hm w Hw) as (w1 & E1 & Hw1 & S1).
  destruct (Hf w1 Hw1) as (w2 & E2 & Hb & S2). exists w2.
  rewrite (bind_done _ _ _ _ _ E1). split; [done|]. split; [done|].
  by rewrite S2, S1, str_app_assoc.
Qed.

Lemma emits_all_gets (f : IPP → P unit) str p :
  (∀ w, emits_all (f (set_writer w p)) str p) → emits_all (gets id ≫= f) str p.
Proof. intros H w Hw. rewrite bind_gets. by apply H. Qed.

Lemma emits_all_flush p : emits_all (writing ipp_writebuf_flush) EmptyString p.
Proof.
  intros w Hw. destruct (flush_done w) as (w' & E & _ & Hs & Hb); [apply Hw|].
  exists w'. unfold writing. simpl. rewrite E. split; [done|]. split; [done|].
  rewrite str_app_nil_r, <- Hs. unfold w_stream. by rewrite Hb, str_app_nil_r.
Qed.

Lemma send_reply_done header p :
  reply_ok p →
  ∃ w', ipp_send_reply header p =
      Done tt (set_writer w' (with_unsupported (not_claimed (i_request_attrs p)) p)) ∧
    w_buf w' = EmptyString ∧ w_output w' = w_stream (i_writer p) +:+
      (if header then http_header else EmptyString) +:+
      reply_body (with_unsupported (not_claimed (i_request_attrs p)) p).
Proof.
  intros Hp. unfold ipp_send_reply. rewrite bind_gets.
  rewrite (bind_done _ _ _ _ _ (add_unsupported_done _ _)).
  set (p1 := with_unsupported _ p).
  assert (Forall (sendable (i_root p1)) (i_unsupported p1)) as Hun
    by (apply Forall_app; split; [apply Hp | apply not_claimed_sendable]).
  destruct Hp as [Hne Hcode Hop Hpr Hjob _ Hw].
  assert (p1 = set_writer (i_writer p) p1) as -> by done.
  refine (emits_all_bind _ _ (if header then http_header else EmptyString) _ p1 _ _ _ Hw).
  { destruct header; [apply emits_writing, puts_bytes | apply emits_ret]. }
  apply emits_all_gets. intros w. unfold id, reply_body.
  do 2 (apply emits_all_bind; [apply emits_writing, puts_sb|]).
  apply emits_all_bind; [by apply emits_writing, puts_ss|].
  apply emits_all_bind; [by apply emits_writing, puts_si|].
  apply emits_all_bind.
  { cbn [i_operation set_writer]. unfold p1, with_unsupported. cbn [i_operation set_response_attrs].
    destruct (i_operation p) as [|a l] eqn:El; [done|].
    apply emits_bind; [apply emits_writing, puts_byte | by apply emits_attrs]. }
  apply emits_all_bind; [by apply emits_section, emits_groups|].
  apply emits_all_bind; [by apply emits_section, emits_groups|].
  apply emits_all_bind; [by apply emits_section, emits_attrs|].
  rewrite <- (str_app_nil_r (byte IPP_TAG_END)).
  apply emits_all_bind; [apply emits_writing, puts_byte | apply emits_all_flush].
Qed.

(** * Receiving *)

Definition streams (p : IPP) (str : string) : Prop :=
  r_ok (i_reader p) ∧ avail (i_reader p) = str.

Lemma reading_done {A} (m : R A) s a p rest :
  takes m s a → streams p (s +:+ rest) →
  ∃ r, reading m p = Done a (set_reader r p) ∧ streams (set_reader r p) rest.
Proof.
  intros Hm [Hr E]. destruct (Hm _ _ Hr E) as (r & Em & Hr' & E'). exists r. split; [|done].
  unfold reading. by rewrite Em.
Qed.

(** The loop reads [str] in the group [d], goes on in the group [d'], and has
    added the attributes [new]. *)
Definition parses (str : string) (d d' : Z) (new : list ipp_attribute) : Prop :=
  ∀ fuel name first p rest,
    streams p (str +:+ rest) → (String.length (str +:+ rest) < fuel)%nat →
    (first = true → i_request_attrs p = []) →
    ∃ fuel' name' first' r, parse_loop fuel d name first p =
        parse_loop fuel' d' name' first'
          (set_reader r (set_request_attrs (i_request_attrs p ++ new) p)) ∧
      streams (set_reader r p) rest ∧ (String.length rest < fuel')%nat ∧
      (first' = true → i_request_attrs p ++ new = []).

Lemma parses_nothing d : parses EmptyString d d [].
Proof.
  intros fuel name first p rest Hs Hf Hfirst. exists fuel, name, first, (i_reader p).
  rewrite app_nil_r. split; [by destruct p|]. split; [by destruct p|]. by split.
Qed.

Lemma parses_app s t d1 d2 d3 l1 l2 :
  parses s d1 d2 l1 → parses t d2 d3 l2 → parses (s +:+ t) d1 d3 (l1 ++ l2).
Proof.
  intros H1 H2 fuel name first p rest Hs Hf Hfirst. rewrite str_app_assoc in *.
  destruct (H1 fuel name first p _ Hs Hf Hfirst) as (f1 & n1 & b1 & r1 & E1 & S1 & F1 & A1).
  destruct (H2 f1 n1 b1 (set_reader r1 (set_request_attrs (i_request_attrs p ++ l1) p)) rest S1 F1 A1)
    as (f2 & n2 & b2 & r2 & E2 & S2 & F2 & A2).
  simpl in E2, A2. rewrite <- app_assoc in E2, A2.
  exists f2, n2, b2, r2. by rewrite E1, E2.
Qed.

Lemma takes_tag n : 0 ≤ n < 128 → takes ipp_get_sb (byte n) n.
Proof. intros Hn. rewrite <- (u8_small n) at 1 by lia. apply takes_sb. lia. Qed.

Lemma length_byte n s : String.length (byte n +:+ s) = S (String.length s).
Proof. done. Qed.

Lemma parses_delimiter t d : 0 ≤ t < 16 → t ≠ IPP_TAG_END → parses (byte t) d t [].
Proof.
  intros Ht Hne fuel name first p rest Hs Hf Hfirst. rewrite length_byte in Hf.
  destruct fuel as [|fuel]; [lia|].
  destruct (reading_done _ _ t p rest (takes_tag t ltac:(lia)) Hs) as (r & E & Hs').
  exists fuel, None, first, r. rewrite app_nil_r. split; [|split; [done|]; split; [lia | done]].
  cbn [parse_loop]. rewrite (bind_done _ _ _ _ _ E), (proj2 (Z.eqb_neq _ _) Hne).
  rewrite !(proj2 (Z.leb_le _ _)) by lia. cbn [andb]. by destruct p.
Qed.

(** ** The values of an attribute *)

Lemma set_last_value v l a vs :
  at_values a = vs ++ [VUninit] →
  on_last (with_values (on_last (λ _, v))) (l ++ [a]) =
  l ++ [with_values (λ _, vs ++ [v]) a].
Proof.
  intros E. rewrite on_last_snoc. unfold with_values. by rewrite E, on_last_snoc.
Qed.

Lemma parse_value_new n tag d v name first p rest :
  1 ≤ strlen n < 65536 → value_ok tag v →
  streams p (counted n +:+ value_wire v +:+ rest) →
  (first = true → i_request_attrs p = []) →
  ∃ r, parse_value tag d name first p = Done (Some n) (set_reader r (set_request_attrs
      (i_request_attrs p ++ [mkAttr d tag (Some n) TemplateUninit [v]]) p)) ∧
    streams (set_reader r p) rest.
Proof.
  intros Hn Hv Hs Hfirst. destruct (value_wire_parts tag v Hv) as [Ev Hl]. rewrite Ev in Hs.
  unfold counted in Hs. rewrite !str_app_assoc in Hs. unfold parse_value.
  destruct (reading_done _ _ _ p _ (takes_ss (strlen n) ltac:(lia)) Hs) as (r1 & E1 & S1).
  rewrite (bind_done _ _ _ _ _ E1), (proj2 (Z.ltb_lt 0 (strlen n))), bind_assoc by lia.
  destruct (reading_done _ _ _ _ _ (takes_bytes n) S1) as (r2 & E2 & S2).
  rewrite (bind_done _ _ _ _ _ E2). run.
  destruct (reading_done _ _ _ _ _ (takes_ss (value_length v) Hl) S2) as (r3 & E3 & S3).
  rewrite (bind_done _ _ _ _ _ E3). unfold new_attribute. run.
  set (p3 := set_request_attrs _ _).
  destruct (reading_done _ _ _ p3 rest (takes_value tag v Hv) S3) as (r4 & E4 & S4).
  rewrite (bind_done _ _ _ _ _ E4). unfold set_value. run.
  exists r4. split; [|done]. unfold p3.
  assert ((if first then [mkAttr d tag (Some n) TemplateUninit [VUninit]]
    else i_request_attrs (set_reader r3 (set_reader r2 (set_reader r1 p))) ++
      [mkAttr d tag (Some n) TemplateUninit [VUninit]]) =
    i_request_attrs p ++ [mkAttr d tag (Some n) TemplateUninit [VUninit]]) as ->
    by (destruct first; [by rewrite (Hfirst eq_refl) | done]).
  unfold mret, M_ret. cbn [set_request_attrs set_reader i_request_attrs]. do 2 f_equal.
  by rewrite (set_last_value v _ _ []).
Qed.

Lemma parse_value_more n tag d v first p rest l a :
  value_ok tag v → i_request_attrs p = l ++ [a] →
  streams p (enc16 0 +:+ value_wire v +:+ rest) →
  ∃ r, parse_value tag d (Some n) first p = Done (Some n) (set_reader r (set_request_attrs
      (l ++ [with_values (λ vs, vs ++ [v]) a]) p)) ∧
    streams (set_reader r p) rest.
Proof.
  intros Hv Ha Hs. destruct (value_wire_parts tag v Hv) as [Ev Hl]. rewrite Ev in Hs.
  rewrite !str_app_assoc in Hs. unfold parse_value.
  destruct (reading_done _ _ _ p _ (takes_ss 0 ltac:(lia)) Hs) as (r1 & E1 & S1).
  rewrite (bind_done _ _ _ _ _ E1). change (0 <? 0) with false. cbn iota. run.
  destruct (reading_done _ _ _ _ _ (takes_ss (value_length v) Hl) S1) as (r2 & E2 & S2).
  rewrite (bind_done _ _ _ _ _ E2). unfold one_more_value. run.
  set (p2 := set_request_attrs _ _).
  destruct (reading_done _ _ _ p2 rest (takes_value tag v Hv) S2) as (r3 & E3 & S3).
  rewrite (bind_done _ _ _ _ _ E3). unfold set_value. run.
  exists r3. split; [|done]. unfold p2, mret, M_ret.
  cbn [set_request_attrs set_reader i_request_attrs]. rewrite Ha, on_last_snoc.
  by rewrite (set_last_value v _ _ (at_values a)).
Qed.

Lemma loop_value fuel d name first p tag rest :
  16 ≤ tag < 128 → streams p (byte tag +:+ rest) →
  ∃ r, parse_loop (S fuel) d name first p =
      (name ← parse_value tag d name first; parse_loop fuel d name false) (set_reader r p) ∧
    streams (set_reader r p) rest.
Proof.
  intros Ht Hs. destruct (reading_done _ _ tag p rest (takes_tag tag ltac:(lia)) Hs) as (r & E & Hs').
  exists r. split; [|done]. cbn [parse_loop].
  rewrite (bind_done _ _ _ _ _ E), (proj2 (Z.eqb_neq _ _)) by (unfold IPP_TAG_END; lia).
  rewrite (proj2 (Z.leb_le 0 tag)), (proj2 (Z.leb_gt tag 15)) by lia. cbn [andb].
  by rewrite (proj2 (Z.leb_le 16 tag)), (proj2 (Z.leb_le tag 255)) by lia.
Qed.

(** An attribute as its reader will keep it. *)
Definition received (root : string) (d : Z) (a : ipp_attribute) : list ipp_attribute :=
  match at_values a with
  | [] => []
  | vs => [mkAttr d (at_value_tag a) (Some (sent_name a)) TemplateUninit
             (omap (as_received root a) vs)]
  end.

Lemma with_values_more ws v a :
  with_values (λ vs, vs ++ ws) (with_values (λ vs, vs ++ [v]) a) =
  with_values (λ vs, vs ++ v :: ws) a.
Proof. unfold with_values. simpl. by rewrite <- app_assoc. Qed.

Lemma parse_more root a d n vs :
  16 ≤ at_value_tag a < 128 → Forall (value_sendable root a) vs →
  ∀ fuel p rest l b, i_request_attrs p = l ++ [b] →
    streams p (values_wire root a false vs +:+ rest) →
    (String.length (values_wire root a false vs +:+ rest) < fuel)%nat →
    ∃ fuel' r, parse_loop fuel d (Some n) false p = parse_loop fuel' d (Some n) false
        (set_reader r (set_request_attrs
          (l ++ [with_values (λ ws, ws ++ omap (as_received root a) vs) b]) p)) ∧
      streams (set_reader r p) rest ∧ (String.length rest < fuel')%nat.
Proof.
  intros Ht Hvs. induction Hvs as [|v vs (rv & Hr & Hok) Hvs IH]; intros fuel p rest l b Ha Hs Hf.
  - exists fuel, (i_reader p). split; [|split; [by destruct p | done]]. f_equal.
    unfold with_values. simpl. rewrite app_nil_r.
    replace (mkAttr _ _ _ _ _) with b by (by destruct b). rewrite <- Ha. by destruct p.
  - cbn [values_wire omap list_omap] in *. rewrite Hr in *. cbn [fmap option_fmap option_map default] in *.
    rewrite !str_app_assoc in *. rewrite length_byte in Hf. destruct fuel as [|fuel]; [lia|].
    destruct (loop_value fuel d (Some n) false p _ _ Ht Hs) as (r1 & -> & S1).
    destruct (parse_value_more n (at_value_tag a) d rv false (set_reader r1 p) _ l b Hok Ha S1) as (r2 & E2 & S2).
    rewrite (bind_done _ _ _ _ _ E2).
    edestruct (IH fuel (set_reader r2 (set_request_attrs
      (l ++ [with_values (λ vs0, vs0 ++ [rv]) b]) (set_reader r1 p)))) as (f3 & r3 & E3 & S3 & F3);
      [reflexivity | exact S2 | |].
    { rewrite !length_app_str in *. lia. }
    exists f3, r3. rewrite E3. split; [|done]. by rewrite with_values_more.
Qed.

Lemma parses_attr root d a : sendable root a → parses (attr_wire root a) d d (received root d a).
Proof.
  intros (Ht & Hn & Hvs). unfold attr_wire, received.
  destruct (at_values a) as [|v vs] eqn:Ev; [apply parses_nothing|].
  destruct Hn as [_ Hn]; [done|]. inversion_clear Hvs as [|? ? (rv & Hr & Hok) Hvs'].
  intros fuel name first p rest Hs Hf Hfirst.
  cbn [values_wire omap list_omap name_wire] in *. rewrite Hr in *.
  cbn [fmap option_fmap option_map default] in *.
  rewrite !str_app_assoc in *. rewrite length_byte in Hf. destruct fuel as [|fuel]; [lia|].
  destruct (loop_value fuel d name first p _ _ Ht Hs) as (r1 & -> & S1).
  destruct (parse_value_new (sent_name a) (at_value_tag a) d rv name first _ _ Hn Hok S1 Hfirst)
    as (r2 & E2 & S2).
  rewrite (bind_done _ _ _ _ _ E2).
  edestruct (parse_more root a d (sent_name a) vs Ht Hvs' fuel
    (set_reader r2 (set_request_attrs (i_request_attrs p ++
      [mkAttr d (at_value_tag a) (Some (sent_name a)) TemplateUninit [rv]]) (set_reader r1 p))))
    as (f3 & r3 & E3 & S3 & F3);
    [reflexivity | exact S2 | rewrite !length_app_str in *; lia |].
  exists f3, (Some (sent_name a)), false, r3.
  change (i_request_attrs (set_reader r1 p)) with (i_request_attrs p). rewrite E3. split; [done|]. split; [done|].
  by split.
Qed.

(** ** Sections *)

Definition received_all (root : string) (d : Z) (l : list ipp_attribute) : list ipp_attribute :=
  l ≫= received root d.

Lemma parses_attrs root d l :
  Forall (sendable root) l → parses (attrs_wire root l) d d (received_all root d l).
Proof.
  induction 1 as [|a l Ha Hl IH]; [apply parses_nothing|].
  eapply parses_app; [by apply parses_attr | done].
Qed.

(** The ends of the groups are no attributes. *)
Definition attributes (l : list ipp_attribute) : list ipp_attribute :=
  filter (λ a, at_value_tag a ≠ IPP_TAG_END) l.

Lemma parses_groups root d l :
  0 ≤ d < 16 → d ≠ IPP_TAG_END → Forall (group_ok root) l →
  parses (groups_wire root d l) d d (received_all root d (attributes l)).
Proof.
  intros Hd Hne. induction 1 as [|a l Ha Hl IH]; [apply parses_nothing|].
  cbn [groups_wire]. unfold attributes. rewrite filter_cons.
  destruct (Z.eqb_spec (at_value_tag a) IPP_TAG_END) as [E|E].
  - rewrite decide_False by tauto.
    change (received_all root d (filter _ l)) with ([] ++ received_all root d (attributes l)).
    eapply parses_app; [|done]. destruct l; [apply parses_nothing | by apply parses_delimiter].
  - rewrite decide_True by done. destruct Ha as [?|Ha]; [done|].
    eapply parses_app; [by apply parses_attr | done].
Qed.

Lemma parses_section t d wire f l :
  0 ≤ t < 16 → t ≠ IPP_TAG_END → f [] = [] → parses (wire l) t t (f l) →
  ∃ d', parses (section_wire t wire l) d d' (f l).
Proof.
  intros Ht Hne Hnil Hw. destruct l as [|a l].
  - exists d. rewrite Hnil. apply parses_nothing.
  - exists t. change (f (a :: l)) with ([] ++ f (a :: l)).
    eapply parses_app; [by apply parses_delimiter | done].
Qed.

(** What a client gets of a response. *)
Definition attributes_received (p : IPP) : list ipp_attribute :=
  received_all (i_root p) IPP_TAG_OPERATION (i_operation p) ++
  received_all (i_root p) IPP_TAG_PRINTER (attributes (i_printer p)) ++
  received_all (i_root p) IPP_TAG_JOB (attributes (i_job p)) ++
  received_all (i_root p) IPP_TAG_UNSUPPORTED (i_unsupported p).

Definition sections_wire (p : IPP) : string :=
  section_wire IPP_TAG_OPERATION (attrs_wire (i_root p)) (i_operation p) +:+
  section_wire IPP_TAG_PRINTER (groups_wire (i_root p) IPP_TAG_PRINTER) (i_printer p) +:+
  section_wire IPP_TAG_JOB (groups_wire (i_root p) IPP_TAG_JOB) (i_job p) +:+
  section_wire IPP_TAG_UNSUPPORTED (attrs_wire (i_root p)) (i_unsupported p).

Lemma parses_sections p d :
  reply_ok p → ∃ d', parses (sections_wire p) d d' (attributes_received p).
Proof.
  intros Hp. set (root := i_root p).
  destruct (parses_section IPP_TAG_OPERATION d (attrs_wire root)
    (received_all root IPP_TAG_OPERATION) (i_operation p)) as [d1 H1];
    [done | done | done | apply parses_attrs, Hp |].
  destruct (parses_section IPP_TAG_PRINTER d1 (groups_wire root IPP_TAG_PRINTER)
    (λ l, received_all root IPP_TAG_PRINTER (attributes l)) (i_printer p)) as [d2 H2];
    [done | done | done | apply parses_groups; [done | done | apply Hp] |].
  destruct (parses_section IPP_TAG_JOB d2 (groups_wire root IPP_TAG_JOB)
    (λ l, received_all root IPP_TAG_JOB (attributes l)) (i_job p)) as [d3 H3];
    [done | done | done | apply parses_groups; [done | done | apply Hp] |].
  destruct (parses_section IPP_TAG_UNSUPPORTED d3 (attrs_wire root)
    (received_all root IPP_TAG_UNSUPPORTED) (i_unsupported p)) as [d4 H4];
    [done | done | done | apply parses_attrs, Hp |].
  exists d4. repeat (eapply parses_app; [eassumption|]). exact H4.
Qed.

(** The loop reads all sections up to the end tag. *)
Lemma parse_sections p q fuel :
  reply_ok p → i_request_attrs q = [] → streams q (sections_wire p +:+ byte IPP_TAG_END) →
  (String.length (sections_wire p +:+ byte IPP_TAG_END) < fuel)%nat →
  ∃ r, parse_loop fuel 0 None true q =
    Done tt (set_reader r (set_request_attrs (attributes_received p) q)).
Proof.
  intros Hp Hq Hs Hf. destruct (parses_sections p 0 Hp) as [d' H].
  destruct (H fuel None true q _ Hs Hf) as (f & n & b & r & E & S & F & _); [done|].
  rewrite Hq in E. destruct f as [|f]; [lia|]. rewrite E.
  set (q' := set_reader r _). assert (streams q' (byte IPP_TAG_END +:+ EmptyString)) as Hs' by done.
  destruct (reading_done _ _ _ q' _ (takes_tag IPP_TAG_END ltac:(done)) Hs') as (r' & E' & _).
  exists r'. cbn [parse_loop]. by rewrite (bind_done _ _ _ _ _ E').
Qed.

(** The same object with the attributes that were not claimed marked as not
    supported. *)
Definition marked (p : IPP) : IPP := with_unsupported (not_claimed (i_request_attrs p)) p.

Lemma marked_ok p : reply_ok p → reply_ok (marked p).
Proof.
  intros []. split; try done. apply Forall_app. split; [done | apply not_claimed_sendable].
Qed.

Lemma body_parse p root n reads writes junk :
  reply_ok p → -128 ≤ i_version_major p < 128 → -128 ≤ i_version_minor p < 128 →
  in_s 32 (i_request_id p) → Forall (λ a, a ≠ ReadError) reads →
  n = -1 ∨ n = strlen (reply_body p) →
  ∃ r, ipp_parse_request (ipp_new root n (reply_body p) reads writes junk) =
    Done tt (set_reader r (set_request_attrs (attributes_received p)
      (set_request_header (i_version_major p) (i_version_minor p) (i_response_code p)
        (i_request_id p) (ipp_new root n (reply_body p) reads writes junk)))).
Proof.
  intros Hp Hmaj Hmin Hid Hreads Hn.
  assert (strlen (reply_body p) = 9 + strlen (sections_wire p)) as Hlen.
  { unfold reply_body, sections_wire, enc16, enc32, byte, strlen. rewrite !length_app_str.
    cbn [String.length]. lia. }
  set (q := ipp_new _ _ _ _ _ _).
  assert (streams q (reply_body p)) as Hs.
  { split; [split; [done|]; simpl; pose proof (strlen_nonneg (reply_body p)); lia|].
    unfold avail. simpl. destruct (Z.eqb_spec n (-1)) as [|Hne]; [done|].
    destruct Hn as [?|Hn]; [done|]. apply str_take_ge. unfold strlen in Hn. lia. }
  unfold ipp_parse_request. rewrite bind_gets. unfold id.
  rewrite (proj2 (andb_false_iff _ _))
    by (simpl; pose proof (strlen_nonneg (sections_wire p)); destruct Hn as [->| ->]; [by left|];
        right; apply Z.ltb_ge; lia).
  unfold reply_body in Hs.
  destruct (reading_done _ _ _ q _ (takes_sb _ Hmaj) Hs) as (r1 & E1 & S1).
  rewrite (bind_done _ _ _ _ _ E1). run. set (q1 := set_request_header _ _ _ _ _).
  destruct (reading_done _ _ _ q1 _ (takes_sb _ Hmin) S1) as (r2 & E2 & S2).
  rewrite (bind_done _ _ _ _ _ E2). run. set (q2 := set_request_header _ _ _ _ _).
  destruct (reading_done _ _ _ q2 _ (takes_ss _ (rp_code p Hp)) S2) as (r3 & E3 & S3).
  rewrite (bind_done _ _ _ _ _ E3). run. set (q3 := set_request_header _ _ _ _ _).
  destruct (reading_done _ _ _ q3 _ (takes_si _ Hid) S3) as (r4 & E4 & S4).
  rewrite (bind_done _ _ _ _ _ E4). run. set (q4 := set_request_header _ _ _ _ _).
  destruct (parse_sections p q4 (S (bytes_to_come q4)) Hp) as (r5 & E5); [done | | |].
  - unfold sections_wire. rewrite !str_app_assoc. exact S4.
  - unfold sections_wire. rewrite !str_app_assoc. destruct S4 as [_ S4].
    change (avail r4 = section_wire IPP_TAG_OPERATION (attrs_wire (i_root p)) (i_operation p) +:+
      section_wire IPP_TAG_PRINTER (groups_wire (i_root p) IPP_TAG_PRINTER) (i_printer p) +:+
      section_wire IPP_TAG_JOB (groups_wire (i_root p) IPP_TAG_JOB) (i_job p) +:+
      section_wire IPP_TAG_UNSUPPORTED (attrs_wire (i_root p)) (i_unsupported p) +:+
      byte IPP_TAG_END) in S4. rewrite <- S4.
    change (bytes_to_come q4) with (String.length (r_buf r4) + String.length (r_input r4))%nat.
    unfold avail. rewrite length_app_str.
    destruct (r_bytes_left r4 =? -1); [lia|]. rewrite str_length_take. lia.
  - exists r5. by rewrite E5.
Qed.

(** An attribute without values leaves nothing behind. *)
Lemma received_not_claimed root d l : received_all root d (not_claimed l) = [].
Proof.
  unfold received_all, not_claimed. induction (filter _ l) as [|a l' IH]; [done|]. exact IH.
Qed.

Lemma attributes_received_marked p : attributes_received (marked p) = attributes_received p.
Proof.
  unfold attributes_received, marked, with_unsupported. cbn [i_root i_operation i_printer i_job
    i_unsupported set_response_attrs]. do 3 f_equal.
  unfold received_all at 1. rewrite bind_app. fold (received_all (i_root p) IPP_TAG_UNSUPPORTED).
  change (not_claimed (i_request_attrs p) ≫= received (i_root p) IPP_TAG_UNSUPPORTED)
    with (received_all (i_root p) IPP_TAG_UNSUPPORTED (not_claimed (i_request_attrs p))).
  by rewrite received_not_claimed, app_nil_r.
Qed.

Lemma reply_read_back p root n reads writes junk :
  reply_ok p → w_stream (i_writer p) = EmptyString →
  -128 ≤ i_version_major p < 128 → -128 ≤ i_version_minor p < 128 → in_s 32 (i_request_id p) →
  Forall (λ a, a ≠ ReadError) reads →
  ∃ p', ipp_send_reply false p = Done tt p' ∧
    let body := w_output (i_writer p') in
    (n = -1 ∨ n = strlen body →
     ∃ q, ipp_parse_request (ipp_new root n body reads writes junk) = Done tt q ∧
       i_version_major q = i_version_major p ∧ i_version_minor q = i_version_minor p ∧
       i_operation_id q = i_response_code p ∧ i_request_id q = i_request_id p ∧
       i_request_attrs q = attributes_received p).
Proof.
  intros Hp Hw Hmaj Hmin Hid Hreads.
  destruct (send_reply_done false p Hp) as (w' & E & _ & Ho). fold (marked p) in E, Ho.
  cbn iota in Ho. rewrite Hw, !str_nil_app in Ho. eexists. split; [exact E|].
  cbn zeta. cbn [i_writer set_writer]. rewrite Ho. intros Hn. clear E Ho.
  destruct (body_parse (marked p) root n reads writes junk (marked_ok p Hp) Hmaj Hmin Hid
    Hreads Hn) as (r & Er).
  eexists. split; [exact Er|]. do 4 (split; [reflexivity|]). apply attributes_received_marked.
Qed.

(** ** What arrives *)

(** An attribute arrives in its group, under its name, with every value it was
    given, in order. *)
Record arrives (root : string) (d : Z) (a b : ipp_attribute) : Prop := {
  arrives_group : at_group_tag b = d;
  arrives_tag : at_value_tag b = at_value_tag a;
  arrives_name : at_name b = Some (sent_name a);
  arrives_values : Forall2 (λ v rv, as_received root a v = Some rv) (at_values a) (at_values b);
}.

(** The attributes that have a value, with the group they are sent in. *)
Definition with_a_value (d : Z) (l : list ipp_attribute) : list (Z * ipp_attribute) :=
  pair d <$> filter (λ a, at_values a ≠ []) l.

Definition attributes_sent (p : IPP) : list (Z * ipp_attribute) :=
  with_a_value IPP_TAG_OPERATION (i_operation p) ++
  with_a_value IPP_TAG_PRINTER (attributes (i_printer p)) ++
  with_a_value IPP_TAG_JOB (attributes (i_job p)) ++
  with_a_value IPP_TAG_UNSUPPORTED (i_unsupported p).

Definition all_arrive (root : string) : list (Z * ipp_attribute) → list ipp_attribute → Prop :=
  Forall2 (λ da b, arrives root da.1 da.2 b).

Lemma values_arrive root a vs :
  Forall (value_sendable root a) vs → Forall2 (λ v rv, as_received root a v = Some rv) vs (omap (as_received root a) vs).
Proof.
  induction 1 as [|v vs (rv & Hr & _) _ IH]; [constructor|]. cbn [omap list_omap].
  rewrite Hr. by constructor.
Qed.

Lemma received_arrive root d l :
  Forall (sendable root) l → all_arrive root (with_a_value d l) (received_all root d l).
Proof.
  intros Hl. unfold with_a_value, received_all. induction Hl as [|a l (_ & _ & Hvs) _ IH]; [constructor|].
  rewrite filter_cons, bind_cons. unfold received at 1.
  destruct (at_values a) as [|v vs] eqn:Ev.
  - rewrite decide_False by tauto. exact IH.
  - rewrite decide_True by done. cbn [fmap list_fmap app]. constructor; [|exact IH].
    split; try done. cbn [snd at_values]. rewrite Ev. by apply values_arrive.
Qed.

Lemma groups_sendable root l : Forall (group_ok root) l → Forall (sendable root) (attributes l).
Proof.
  unfold attributes. induction 1 as [|a l Ha _ IH]; [constructor|]. rewrite filter_cons.
  destruct (decide _) as [Hd|]; [|done]. constructor; [|done]. by destruct Ha.
Qed.

Lemma reply_arrives p : reply_ok p → all_arrive (i_root p) (attributes_sent p) (attributes_received p).
Proof.
  intros Hp. unfold attributes_sent, attributes_received, all_arrive.
  repeat apply Forall2_app; apply received_arrive; try apply groups_sendable; apply Hp.
Qed.

(** C25: of a response that is sent ipp_parse_request() reads back the version,
    the code, the id and, in order, every attribute that has a value, with its
    group, its name and all its values, URIs completed; in whatever pieces the
    system writes and reads it, and whether or not its length is announced.
    Attributes without a value, those that ipp_add_out_of_band() adds, and those
    that were not claimed and are listed as unsupported, are not sent at all;
    nothing else comes in their place. *)
Theorem a_reply_is_read_back p root n reads writes junk :
  reply_ok p → w_stream (i_writer p) = EmptyString →
  -128 ≤ i_version_major p < 128 → -128 ≤ i_version_minor p < 128 → in_s 32 (i_request_id p) →
  Forall (λ a, a ≠ ReadError) reads →
  ∃ p', ipp_send_reply false p = Done tt p' ∧
    let body := w_output (i_writer p') in
    (n = -1 ∨ n = strlen body →
     ∃ q, ipp_parse_request (ipp_new root n body reads writes junk) = Done tt q ∧
       i_version_major q = i_version_major p ∧ i_version_minor q = i_version_minor p ∧
       i_operation_id q = i_response_code p ∧ i_request_id q = i_request_id p ∧
       Forall2 (λ da b, arrives (i_root p) da.1 da.2 b) (attributes_sent p) (i_request_attrs q)).
Proof.
  intros Hp Hw Hmaj Hmin Hid Hreads.
  destruct (reply_read_back p root n reads writes junk Hp Hw Hmaj Hmin Hid Hreads) as (p' & E & H).
  exists p'. split; [exact E|]. intros body Hn. destruct (H Hn) as (q & Eq & H1 & H2 & H3 & H4 & Ha).
  exists q. do 5 (split; [done|]). rewrite Ha. by apply reply_arrives.
Qed.

(** The attributes of a request that were not claimed are meant to be
    reported as not supported.  They are added to the response without a value,
    and what has no value is not sent: the client gets no attribute in that
    group. *)
Theorem unsupported_attributes_are_not_reported p root reads writes junk :
  reply_ok p → w_stream (i_writer p) = EmptyString →
  -128 ≤ i_version_major p < 128 → -128 ≤ i_version_minor p < 128 → in_s 32 (i_request_id p) →
  Forall (λ a, a ≠ ReadError) reads → i_unsupported p = [] →
  ∃ p' q, ipp_send_reply false p = Done tt p' ∧
    i_unsupported p' = not_claimed (i_request_attrs p) ∧
    ipp_parse_request (ipp_new root (-1) (w_output (i_writer p')) reads writes junk) = Done tt q ∧
    Forall (λ a, at_group_tag a ≠ IPP_TAG_UNSUPPORTED) (i_request_attrs q).
Proof.
  intros Hp Hw Hmaj Hmin Hid Hreads Hun.
  destruct (reply_read_back p root (-1) reads writes junk Hp Hw Hmaj Hmin Hid Hreads)
    as (p' & E & H). destruct (H (or_introl eq_refl)) as (q & Eq & _ & _ & _ & _ & Ha).
  exists p', q. split; [done|]. split; [|split; [done|]].
  - destruct (send_reply_done false p Hp) as (w' & E' & _). rewrite E in E'. injection E' as ->.
    simpl. by rewrite Hun.
  - rewrite Ha. unfold attributes_received. rewrite Hun. cbn [received_all mbind list_bind].
    assert (∀ d l, d ≠ IPP_TAG_UNSUPPORTED →
      Forall (λ a, at_group_tag a ≠ IPP_TAG_UNSUPPORTED) (received_all (i_root p) d l)) as Hg.
    { intros d l Hd. apply Forall_bind, Forall_forall. intros a _. unfold received. simpl.
      destruct (at_values a); [constructor | by apply Forall_singleton]. }
    rewrite app_nil_r. repeat (apply Forall_app; split); by apply Hg.
Qed.

(** * Witnesses *)

Ltac sends_values :=
  repeat (apply Forall_cons; split; [eexists; split; [reflexivity|]; by repeat split|]);
  constructor.

Ltac sendable_here :=
  split; [vm_compute; split; [discriminate | reflexivity]|];
  split; [intros _; split; [by eexists | vm_compute; split; [discriminate | reflexivity]]
         | sends_values].

Lemma sample_reply_ok : reply_ok sample_replier.
Proof.
  split.
  - discriminate.
  - vm_compute. split; [discriminate | reflexivity].
  - apply Forall_cons; split; [sendable_here | constructor].
  - repeat (apply Forall_cons; split; [first [left; reflexivity | right; sendable_here]|]). constructor.
  - apply Forall_cons; split; [right; sendable_here|].
    apply Forall_cons; split.
    { right. split; [vm_compute; split; [discriminate | reflexivity]|].
      split; [intros []; reflexivity | constructor]. }
    apply Forall_cons; split; [right; sendable_here | constructor].
  - constructor.
  - split; [by repeat constructor | by split].
Qed.

Lemma a_reply_is_read_back_witness :
  ∃ p' q, ipp_send_reply false sample_replier = Done tt p' ∧
    ipp_parse_request (ipp_new EmptyString (-1) (w_output (i_writer p')) [Got 1; Got 7] [] 0) = Done tt q ∧
    i_version_major q = 1 ∧ i_version_minor q = 1 ∧ i_operation_id q = 0 ∧ i_request_id q = 7 ∧
    length (i_request_attrs q) = length (attributes_sent sample_replier).
Proof.
  destruct (a_reply_is_read_back sample_replier EmptyString (-1) [Got 1; Got 7] [] 0 sample_reply_ok)
    as (p' & E & H).
  - reflexivity.
  - vm_compute. split; [discriminate | reflexivity].
  - vm_compute. split; [discriminate | reflexivity].
  - vm_compute. split; [discriminate | reflexivity].
  - repeat constructor; discriminate.
  - destruct (H (or_introl eq_refl)) as (q & Eq & H1 & H2 & H3 & H4 & Ha).
    exists p', q. split; [exact E|]. split; [exact Eq|]. split; [exact H1|]. split; [exact H2|].
    split; [exact H3|]. split; [exact H4|]. symmetry. exact (Forall2_length _ _ _ Ha).
Defined.

(** The same response to a request with an attribute nobody claimed. *)
Definition sample_unclaimed : IPP := set_request_attrs [my_jobs] sample_replier.

Lemma unsupported_attributes_are_not_reported_witness :
  ∃ p' q, ipp_send_reply false sample_unclaimed = Done tt p' ∧
    i_unsupported p' = [mkAttr IPP_TAG_UNSUPPORTED IPP_TAG_UNSUPPORTED_VALUE (Some "my-jobs")
      NoTemplate []] ∧
    ipp_parse_request (ipp_new EmptyString (-1) (w_output (i_writer p')) [] [] 0) = Done tt q ∧
    Forall (λ a, at_group_tag a ≠ IPP_TAG_UNSUPPORTED) (i_request_attrs q).
Proof.
  apply (unsupported_attributes_are_not_reported sample_unclaimed EmptyString [] [] 0).
  - destruct sample_reply_ok. by split.
  - reflexivity.
  - vm_compute. split; [discriminate | reflexivity].
  - vm_compute. split; [discriminate | reflexivity].
  - vm_compute. split; [discriminate | reflexivity].
  - constructor.
  - reflexivity.
Defined.
