(* ===== verification/RequestAttrs.v ===== *)
(** Which attributes a client asked for (src/libppr/ipp_req_attrs.c): the names
    are kept in a table, which is here any that keeps the promise of
    Containers.v. *)
From S2P Require Import Prelude.
From S2P Require Import Text.
From S2P Require Import Containers.
From S2P Require Import IppObject.
From S2P Require Import IppReply.

Record REQUEST_ATTRS (T : Type) := mkRequestAttrs {
  requested_attributes : T;
  requested_attributes_all : bool;
}.
Arguments mkRequestAttrs {T} _ _.
Arguments requested_attributes {T} _.
Arguments requested_attributes_all {T} _.

Section table.
Context {T : Type} `{DictOps T string}.

(** A routine of the table, run beside another state. *)
Definition in_table {S A} (m : M T A) (t : T) : M S (A * T) := λ s,
  match m t with
  | Done a t' => Done (a, t') s
  | Thrown e _ => Thrown e s
  | Stopped r => Stopped r
  end.

(** gu_pch_set(..., attr->values[iii].string.text, "TRUE") for every value *)
Fixpoint set_names (values : list ipp_value) (t : T) : P T :=
  match values with
  | [] => mret t
  | v :: values' =>
      match as_text v with
      | None => undef "attr->values[iii].string.text"
      | Some name => r ← in_table (d_set name "TRUE") t; set_names values' r.2
      end
  end.

Definition request_attrs_new : P (REQUEST_ATTRS T) :=
  match d_new 25 with
  | inl msg => gu_Throw msg
  | inr t =>
      attr ← ipp_claim_attribute IPP_TAG_OPERATION IPP_TAG_KEYWORD "requested-attributes";
      t ← (match attr with
           | Some a => set_names (at_values a) t
           | None => mret t
           end);
      r ← in_table d_size t;
      if r.1 =? 0 then mret (mkRequestAttrs r.2 true)
      else
        g ← in_table (d_get "all") r.2;
        mret (mkRequestAttrs g.2 (match g.1 with Some _ => true | None => false end))
  end.

Definition request_attrs_attr_requested (name : string) : M (REQUEST_ATTRS T) bool :=
  this ← gets id;
  if requested_attributes_all this then mret true
  else
    r ← in_table (d_get name) (requested_attributes this);
    match r.1 with
    | Some _ =>
        s ← in_table (d_set name "TOUCHED") r.2;
        modify (λ this, mkRequestAttrs s.2 (requested_attributes_all this));;
        mret true
    | None => mret false
    end.

(** Asking about several attributes, one after the other. *)
Fixpoint ask_all (names : list string) : M (REQUEST_ATTRS T) (list bool) :=
  match names with
  | [] => mret []
  | n :: names' => b ← request_attrs_attr_requested n; l ← ask_all names'; mret (b :: l)
  end.
End table.
