(* ===== verification/PropRequestAttrs.v ===== *)
(** Properties of the claiming of attributes, and of the attributes a request
    asks for. *)
From S2P Require Import Prelude.
From S2P Require Import Text.
From S2P Require Import TextFacts.
From S2P Require Import Containers.
From S2P Require Import PropContainers.
From S2P Require Import IppObject.
From S2P Require Import IppReply.
From S2P Require Import SampleIpp.
From S2P Require Import PropIppRequest.
From S2P Require Import RequestAttrs.

(** An attribute that is looked for. *)
Definition wanted (group tag : Z) (name : string) (a : ipp_attribute) : Prop :=
  at_group_tag a = group ∧ at_value_tag a = tag ∧
  ∃ n, at_name a = Some n ∧ c_string n = c_string name.

Lemma matches_wanted group tag name a :
  attr_ok a → ∃ b, matches group tag name a = Some b ∧ (b = true ↔ wanted group tag name a).
Proof.
  intros ((n & Hn) & _). unfold matches, wanted. rewrite Hn.
  destruct (Z.eqb_spec (at_group_tag a) group), (Z.eqb_spec (at_value_tag a) tag); simpl;
    try (eexists; split; [done|]; split; [done|]; intros (? & ? & _); done).
  eexists. split; [done|]. rewrite String.eqb_eq. naive_solver.
Qed.

(** What find_attribute() finds. *)
Lemma find_attribute_spec group tag name l :
  Forall attr_ok l →
  match find_attribute group tag name l with
  | None => False
  | Some None => Forall (λ a, ¬ wanted group tag name a) l
  | Some (Some (a, rest)) =>
      ∃ l1 l2, l = l1 ++ a :: l2 ∧ rest = l1 ++ l2 ∧ wanted group tag name a ∧
        Forall (λ a, ¬ wanted group tag name a) l1
  end.
Proof.
  induction 1 as [|a l Ha Hl IH]; [constructor|]. simpl.
  destruct (matches_wanted group tag name a Ha) as ([|] & -> & Hb); simpl.
  - exists [], l. split; [done|]. split; [done|]. split; [by apply Hb | constructor].
  - assert (¬ wanted group tag name a) as Hna by (intros H; by apply Hb in H).
    destruct (find_attribute group tag name l) as [[[x rest]|]|]; [| by constructor | done].
    destruct IH as (l1 & l2 & -> & -> & Hw & Hl1). exists (a :: l1), l2.
    split; [done|]. split; [done|]. split; [done | by constructor].
Qed.

Lemma find_first group tag name p l1 a l2 :
  Forall attr_ok (i_request_attrs p) → i_request_attrs p = l1 ++ a :: l2 →
  wanted group tag name a → Forall (λ a, ¬ wanted group tag name a) l1 →
  find_attribute group tag name (i_request_attrs p) = Some (Some (a, l1 ++ l2)).
Proof.
  intros Hl E Hw Hn. rewrite E in *. clear E. induction Hn as [|b l1 Hb Hn IH].
  - simpl. apply Forall_cons in Hl as [Ha _].
    destruct (matches_wanted group tag name a Ha) as (b & -> & Hb). simpl.
    by rewrite (proj2 Hb Hw).
  - apply Forall_cons in Hl as [Hb' Hl]. simpl.
    destruct (matches_wanted group tag name b Hb') as ([|] & -> & Hm); simpl;
      [by destruct Hb; apply Hm|]. by rewrite IH.
Qed.

(** Claiming an attribute takes the first one of the group, type and name
    out of the request and leaves the others in their order; if there is none,
    the request stays as it is. *)
Theorem a_claim_takes_the_first_match group tag name p :
  Forall attr_ok (i_request_attrs p) →
  (∃ l1 a l2, i_request_attrs p = l1 ++ a :: l2 ∧ wanted group tag name a ∧
     Forall (λ a, ¬ wanted group tag name a) l1 ∧
     ipp_claim_attribute group tag name p = Done (Some a) (set_request_attrs (l1 ++ l2) p)) ∨
  (Forall (λ a, ¬ wanted group tag name a) (i_request_attrs p) ∧
   ipp_claim_attribute group tag name p = Done None p).
Proof.
  intros Hl. pose proof (find_attribute_spec group tag name _ Hl) as Hs.
  unfold ipp_claim_attribute. run.
  destruct (find_attribute group tag name (i_request_attrs p)) as [[[a rest]|]|]; [| |done].
  - left. destruct Hs as (l1 & l2 & E & -> & Hw & Hn). by exists l1, a, l2.
  - by right.
Qed.

(** * Single values *)

(** The one value of the attribute that a claim finds. *)
Definition first_value (p : IPP) (group tag : Z) (name : string) (v : ipp_value) : Prop :=
  ∃ l1 a l2, i_request_attrs p = l1 ++ a :: l2 ∧ wanted group tag name a ∧
    Forall (λ a, ¬ wanted group tag name a) l1 ∧ at_values a = [v].

Lemma first_match_unique {A} (P : A → Prop) l1 a l2 l1' a' l2' :
  l1 ++ a :: l2 = l1' ++ a' :: l2' → P a → P a' →
  Forall (λ x, ¬ P x) l1 → Forall (λ x, ¬ P x) l1' → a = a'.
Proof.
  intros E Ha Ha' H1. revert l1' E. induction H1 as [|x l1 Hx _ IH]; intros [|x' l1'] E H1'; simplify_eq/=.
  - done.
  - by apply Forall_cons in H1' as [? _].
  - done.
  - apply Forall_cons in H1' as [_ H1']. by apply (IH l1').
Qed.

Lemma first_value_unique p group tag name v w :
  first_value p group tag name v → first_value p group tag name w → v = w.
Proof.
  intros (l1 & a & l2 & E & Ha & H1 & Ev) (l1' & a' & l2' & E' & Ha' & H1' & Ev').
  rewrite E in E'. assert (a = a') as -> by (by eapply first_match_unique).
  congruence.
Qed.

(** The two ways the claim of a single value goes. *)
Lemma claim_single group tag name p :
  Forall attr_ok (i_request_attrs p) →
  (∃ a v p', ipp_claim_attribute_single_value group tag name p = Done (Some a) p' ∧
     at_values a = [v] ∧ value_ok tag v ∧ first_value p group tag name v) ∨
  (∃ p', ipp_claim_attribute_single_value group tag name p = Done None p' ∧
     ∀ v, ¬ first_value p group tag name v).
Proof.
  intros Hl. unfold ipp_claim_attribute_single_value.
  destruct (a_claim_takes_the_first_match group tag name p Hl) as [(l1 & a & l2 & E & Hw & H1 & Ec)|[Hnone Ec]];
    rewrite (bind_done _ _ _ _ _ Ec).
  - unfold num_values. destruct (Z.eqb_spec (Z.of_nat (length (at_values a))) 1) as [Hn|Hn].
    + left. rewrite E in Hl. apply Forall_app in Hl as [_ [(_ & _ & _ & v & vs & Ev & Hv) _]%Forall_cons].
      destruct Hw as (Hg & Ht & Hname). rewrite Ev in Hn. destruct vs; [|simpl in Hn; lia].
      exists a, v. eexists. split; [done|]. split; [done|]. rewrite <- Ht at 1. split; [done|].
      exists l1, a, l2. by split_and!.
    + right. eexists. split; [done|]. intros v (l1' & a' & l2' & E' & Hw' & H1' & Ev').
      rewrite E in E'. assert (a = a') as -> by (by eapply first_match_unique). by rewrite Ev' in Hn.
  - right. eexists. split; [done|]. intros v (l1 & a & l2 & E & Hw & _). rewrite E in Hnone.
    apply Forall_app in Hnone as [_ [? _]%Forall_cons]. done.
Qed.

(** The tags of the values that are strings (RFC 2910, 3.5.2). *)
Definition string_tags : list Z :=
  [IPP_TAG_STRING; IPP_TAG_TEXT; IPP_TAG_NAME; IPP_TAG_KEYWORD; IPP_TAG_URI; IPP_TAG_CHARSET;
   IPP_TAG_LANGUAGE; IPP_TAG_MIMETYPE].

Lemma string_value tag v : tag ∈ string_tags → value_ok tag v → ∃ t, v = VText t.
Proof.
  intros Ht Hv. assert (ipp_tag_simplify tag = IPP_TAG_STRING) as E.
  { repeat (apply elem_of_cons in Ht as [->|Ht]; [done|]). by apply not_elem_of_nil in Ht. }
  destruct v; simpl in Hv; rewrite ?E in Hv; naive_solver.
Qed.

Lemma integer_value tag v :
  tag = IPP_TAG_INTEGER ∨ tag = IPP_TAG_ENUM → value_ok tag v → ∃ n, v = VInteger n.
Proof. intros [-> | ->]; destruct v; simpl; naive_solver. Qed.

(** C26: what the claims hand out has the type that was asked for.  Of a request
    that ipp_parse_request() has read, whatever its bytes, a claim takes the
    first attribute of the group, the tag and the name that are given, and reads
    of the union in it the member that was stored there: the integer of an
    integer or an enum, the string of a string of any kind.  A claim hands out
    nothing (0 or NULL) only if there is no such attribute with a single value,
    or if the integer is not positive or the keyword not one of those allowed.
    (For a boolean the wrong member is read, see below.) *)
Theorem a_claimed_value_has_its_type p0 p group name :
  may_read (i_reader p0) → i_request_attrs p0 = [] → ipp_parse_request p0 = Done tt p →
  (∃ n p', ipp_claim_positive_integer group name p = Done n p' ∧
    (0 < n ∧ first_value p group IPP_TAG_INTEGER name (VInteger n) ∨
     n = 0 ∧ ∀ m, first_value p group IPP_TAG_INTEGER name (VInteger m) → m ≤ 0)) ∧
  (∃ n p', ipp_claim_enum group name p = Done n p' ∧
    (first_value p group IPP_TAG_ENUM name (VInteger n) ∨
     n = 0 ∧ ∀ v, ¬ first_value p group IPP_TAG_ENUM name v)) ∧
  (∀ tag, tag ∈ string_tags → ∃ r p', ipp_claim_string group tag name p = Done r p' ∧
    match r with
    | Some s => ∃ t, first_value p group tag name (VText t) ∧ s = c_string t
    | None => ∀ v, ¬ first_value p group tag name v
    end) ∧
  (∀ va, ∃ r p', ipp_claim_keyword group name va p = Done r p' ∧
    match r with
    | Some k => k ∈ va ∧ ∃ t, first_value p group IPP_TAG_KEYWORD name (VText t) ∧ k = c_string t
    | None => ∀ t, first_value p group IPP_TAG_KEYWORD name (VText t) → c_string t ∉ va
    end).
Proof.
  intros Hr Hnil E. pose proof (request_read p0 Hr) as Hp. rewrite Hnil in Hp.
  specialize (Hp (List.Forall_nil _)). unfold wp in Hp. rewrite E in Hp. destruct Hp as [_ Hp].
  split; [|split; [|split]].
  - unfold ipp_claim_positive_integer.
    destruct (claim_single group IPP_TAG_INTEGER name p Hp) as [(a & v & p' & Ec & Ev & Hv & Hf)|(p' & Ec & Hn)];
      rewrite (bind_done _ _ _ _ _ Ec); [|exists 0, p'; split; [done|]; right; split; [done|]; by intros m ?%Hn].
    destruct (integer_value IPP_TAG_INTEGER v (or_introl eq_refl) Hv) as [n ->].
    unfold int_value. rewrite Ev. cbn. run. destruct (Z.leb_spec n 0).
    + unfold ipp_insert_attribute, modify. run. eexists _, _. split; [done|]. right. split; [done|].
      intros m Hm. pose proof (first_value_unique _ _ _ _ _ _ Hf Hm). by simplify_eq.
    + eexists _, _. split; [done|]. by left.
  - unfold ipp_claim_enum.
    destruct (claim_single group IPP_TAG_ENUM name p Hp) as [(a & v & p' & Ec & Ev & Hv & Hf)|(p' & Ec & Hn)];
      rewrite (bind_done _ _ _ _ _ Ec); [|exists 0, p'; split; [done|]; by right].
    destruct (integer_value IPP_TAG_ENUM v (or_intror eq_refl) Hv) as [n ->].
    unfold int_value. rewrite Ev. cbn. eexists _, _. split; [done|]. by left.
  - intros tag Ht. unfold ipp_claim_string.
    destruct (claim_single group tag name p Hp) as [(a & v & p' & Ec & Ev & Hv & Hf)|(p' & Ec & Hn)];
      rewrite (bind_done _ _ _ _ _ Ec); [|by exists None, p'].
    destruct (string_value tag v Ht Hv) as [t ->].
    unfold text_value. rewrite Ev. cbn. run. eexists (Some _), _. split; [done|]. by exists t.
  - intros va. unfold ipp_claim_keyword.
    destruct (claim_single group IPP_TAG_KEYWORD name p Hp) as [(a & v & p' & Ec & Ev & Hv & Hf)|(p' & Ec & Hn)];
      rewrite (bind_done _ _ _ _ _ Ec); [|exists None, p'; split; [done|]; by intros t ?%Hn].
    destruct (string_value IPP_TAG_KEYWORD v ltac:(set_solver) Hv) as [t ->].
    assert (∀ t', first_value p group IPP_TAG_KEYWORD name (VText t') → t' = t) as Hu.
    { intros t' Ht'. pose proof (first_value_unique _ _ _ _ _ _ Hf Ht'). by simplify_eq. }
    assert (∃ p2, (ipp_insert_attribute (with_group IPP_TAG_UNSUPPORTED a);; mret (M := M IPP) (None (A := string))) p'
      = Done None p2) as [p2 Eno] by (unfold ipp_insert_attribute, modify; run; by eexists).
    destruct va as [|k va].
    { exists None, p2. split; [exact Eno|]. intros t' _. apply not_elem_of_nil. }
    unfold text_value. rewrite Ev. cbn [lookup list_lookup mbind option_bind as_text]. run.
    destruct (List.find (String.eqb (c_string t)) (k :: va)) as [k'|] eqn:Ef.
    + apply List.find_some in Ef as [Hin Heq%String.eqb_eq]. subst k'.
      exists (Some (c_string t)), p'. split; [done|]. split; [by apply list_elem_of_In|]. by exists t.
    + rewrite Eno. exists None, p2. split; [done|]. intros t' ->%Hu Hin.
      apply list_elem_of_In in Hin. apply (List.find_none _ _ Ef) in Hin. by rewrite String.eqb_refl in Hin.
Qed.

(** A boolean is read as a value of unknown type, and claiming it reads the
    length of that value in the place of the boolean: the byte that says false
    is claimed as true like the one that says true. *)
Theorem every_boolean_is_claimed_as_true group name default_value p l1 a l2 c :
  Forall attr_ok (i_request_attrs p) → i_request_attrs p = l1 ++ a :: l2 →
  wanted group IPP_TAG_BOOLEAN name a → Forall (λ a, ¬ wanted group IPP_TAG_BOOLEAN name a) l1 →
  at_values a = [VUnknown 1 (String c EmptyString)] →
  ipp_claim_boolean group name default_value p = Done 1 (set_request_attrs (l1 ++ l2) p).
Proof.
  intros Hl E Hw Hn Ev. unfold ipp_claim_boolean, ipp_claim_attribute_single_value.
  assert (ipp_claim_attribute group IPP_TAG_BOOLEAN name p =
    Done (Some a) (set_request_attrs (l1 ++ l2) p)) as Ec.
  { unfold ipp_claim_attribute. run. by rewrite (find_first _ _ _ p l1 a l2). }
  rewrite bind_assoc, (bind_done _ _ _ _ _ Ec). unfold num_values. rewrite Ev. simpl. run.
  unfold int_value. by rewrite Ev.
Qed.

(** * Witnesses *)

Lemma sample_two_ok : Forall attr_ok (i_request_attrs (ipp_with [mixed_names; my_jobs])).
Proof.
  pose proof sample_attrs_ok as H. apply Forall_cons in H as [H1 H].
  apply Forall_cons in H as [H2 _]. change (Forall attr_ok [mixed_names; my_jobs]).
  constructor; [exact H2|]. constructor; [exact H1 | constructor].
Qed.

Lemma wants_my_jobs : wanted IPP_TAG_OPERATION IPP_TAG_BOOLEAN "my-jobs" my_jobs.
Proof. split; [done|]. split; [done|]. by exists "my-jobs". Qed.

Lemma a_claim_takes_the_first_match_witness :
  (∃ l1 a l2, [mixed_names; my_jobs] = l1 ++ a :: l2 ∧
     wanted IPP_TAG_OPERATION IPP_TAG_BOOLEAN "my-jobs" a ∧
     Forall (λ a, ¬ wanted IPP_TAG_OPERATION IPP_TAG_BOOLEAN "my-jobs" a) l1 ∧
     ipp_claim_attribute IPP_TAG_OPERATION IPP_TAG_BOOLEAN "my-jobs"
       (ipp_with [mixed_names; my_jobs]) =
       Done (Some a) (set_request_attrs (l1 ++ l2) (ipp_with [mixed_names; my_jobs]))) ∨
  (Forall (λ a, ¬ wanted IPP_TAG_OPERATION IPP_TAG_BOOLEAN "my-jobs" a) [mixed_names; my_jobs] ∧
   ipp_claim_attribute IPP_TAG_OPERATION IPP_TAG_BOOLEAN "my-jobs"
     (ipp_with [mixed_names; my_jobs]) = Done None (ipp_with [mixed_names; my_jobs])).
Proof.
  apply (a_claim_takes_the_first_match IPP_TAG_OPERATION IPP_TAG_BOOLEAN "my-jobs"
    (ipp_with [mixed_names; my_jobs]) sample_two_ok).
Defined.

(** Get-Jobs for at most five jobs, and for the completed ones. *)
Definition limited_request : string :=
  of_codes [1; 1; 0; 10; 0; 0; 0; 7; 1; 33; 0; 5] +:+ "limit" +:+ of_codes [0; 4; 0; 0; 0; 5] +:+
  of_codes [68; 0; 10] +:+ "which-jobs" +:+ of_codes [0; 9] +:+ "completed" +:+ of_codes [3].

Definition limited_ipp : IPP :=
  ipp_new "http://host" (strlen limited_request) limited_request [Got 9] [] 0.

Definition limited_read : IPP := default limited_ipp (after ipp_parse_request limited_ipp).

Lemma a_claimed_value_has_its_type_witness :
  (∃ n p', ipp_claim_positive_integer IPP_TAG_OPERATION "limit" limited_read = Done n p' ∧
    (0 < n ∧ first_value limited_read IPP_TAG_OPERATION IPP_TAG_INTEGER "limit" (VInteger n) ∨
     n = 0 ∧ ∀ m, first_value limited_read IPP_TAG_OPERATION IPP_TAG_INTEGER "limit" (VInteger m) → m ≤ 0)) ∧
  first_value limited_read IPP_TAG_OPERATION IPP_TAG_INTEGER "limit" (VInteger 5).
Proof.
  destruct (a_claimed_value_has_its_type limited_ipp limited_read IPP_TAG_OPERATION "limit") as (H & _).
  - split; vm_compute; discriminate.
  - reflexivity.
  - vm_compute. reflexivity.
  - split; [exact H|]. eexists [], _, _. split; [vm_compute; reflexivity|].
    split; [|split; [constructor | reflexivity]]. split; [reflexivity|]. split; [reflexivity|].
    eexists. split; reflexivity.
Defined.

Lemma every_boolean_is_claimed_as_true_witness :
  ipp_claim_boolean IPP_TAG_OPERATION "my-jobs" 0 (ipp_with [mixed_names; my_jobs]) =
  Done 1 (set_request_attrs [mixed_names] (ipp_with [mixed_names; my_jobs])).
Proof.
  apply (every_boolean_is_claimed_as_true IPP_TAG_OPERATION "my-jobs" 0
    (ipp_with [mixed_names; my_jobs]) [mixed_names] my_jobs [] (chr 0) sample_two_ok).
  - reflexivity.
  - exact wants_my_jobs.
  - constructor; [intros (_ & H & _); discriminate | constructor].
  - reflexivity.
Defined.

(** * Properties of the record of the attributes a client asked for. *)

(** The names a claimed attribute lists. *)
Definition names_of (a : ipp_attribute) : option (list string) := mapM as_text (at_values a).

Section table.
Context {T : Type} `{Dictionary T string}.

Lemma in_table_done {S A} (m : M T A) t a t' (s : S) :
  m t = Done a t' → in_table m t s = Done (a, t') s.
Proof. unfold in_table. by intros ->. Qed.

(** The table holds the names [ks]. *)
Definition knows (t : T) (ks : list string) : Prop :=
  ∃ m, d_map t m ∧ ∀ k, is_Some (m !! k) ↔ k ∈ ks.

Lemma knows_set t ks k v :
  knows t ks → ∃ t', d_set k v t = Done tt t' ∧ knows t' (k :: ks).
Proof.
  intros (m & Ht & Hm). destruct (d_set_law t m k v Ht) as (t' & E & Ht').
  exists t'. split; [done|]. exists (<[k := v]> m). split; [done|]. intros k'.
  rewrite elem_of_cons, <- Hm. destruct (decide (k' = k)) as [->|Hk].
  - rewrite lookup_insert_eq. split; [by left | by eexists].
  - rewrite lookup_insert_ne by done. naive_solver.
Qed.

Lemma knows_get t ks k :
  knows t ks → ∃ o, d_get k t = Done o t ∧ (is_Some o ↔ k ∈ ks).
Proof. intros (m & Ht & Hm). exists (m !! k). split; [by apply d_get_law | apply Hm]. Qed.

Lemma set_names_knows vs ks l t (p : IPP) :
  mapM as_text vs = Some l → knows t ks →
  ∃ t', set_names vs t p = Done t' p ∧ knows t' (rev l ++ ks).
Proof.
  revert l ks t. induction vs as [|v vs IH]; intros l ks t E Ht; simpl in E.
  - injection E as <-. by exists t.
  - destruct (as_text v) as [k|] eqn:Ek; [|done]. simpl in E.
    destruct (mapM as_text vs) as [l'|] eqn:El; [|done]. injection E as <-.
    destruct (knows_set t ks k "TRUE" Ht) as (t1 & E1 & Ht1).
    destruct (IH l' (k :: ks) t1 eq_refl Ht1) as (t2 & E2 & Ht2).
    exists t2. split.
    + simpl. rewrite Ek. by rewrite (bind_done _ _ _ _ _ (in_table_done _ _ _ _ p E1)).
    + simpl. by rewrite <- app_assoc.
Qed.

(** What was asked for. *)
Definition asked (ks : list string) (name : string) : bool :=
  bool_decide (ks = [] ∨ "all" ∈ ks ∨ name ∈ ks).

Definition record_ok (ks : list string) (this : REQUEST_ATTRS T) : Prop :=
  requested_attributes_all this = bool_decide (ks = [] ∨ "all" ∈ ks) ∧
  knows (requested_attributes this) ks.

Lemma attr_requested_asks ks this name :
  record_ok ks this →
  ∃ this', request_attrs_attr_requested name this = Done (asked ks name) this' ∧
    record_ok ks this'.
Proof.
  intros Hthis. pose proof Hthis as [Hall Ht].
  unfold request_attrs_attr_requested, asked. run. rewrite Hall.
  destruct (decide (ks = [] ∨ "all" ∈ ks)) as [Ha|Ha];
    [rewrite bool_decide_true by done | rewrite bool_decide_false by done].
  - exists this. split; [|done]. rewrite bool_decide_true; [done | tauto].
  - destruct (knows_get _ ks name Ht) as (o & E & Ho).
    rewrite (bind_done _ _ _ _ _ (in_table_done _ _ _ _ this E)). cbn [fst snd].
    destruct o as [v|].
    + destruct (knows_set _ ks name "TOUCHED" Ht) as (t' & E' & m' & Ht' & Hm').
      exists (mkRequestAttrs t' (requested_attributes_all this)). split.
      * rewrite (bind_done _ _ _ _ _ (in_table_done _ _ _ _ this E')). run.
        rewrite bool_decide_true; [done|].
        right. right. by apply Ho.
      * split; [done|]. exists m'. split; [done|].
        intros k. rewrite Hm', elem_of_cons. split; [|by right].
        intros [->|]; [|done]. by apply Ho.
    + exists this. split; [|done].
      rewrite bool_decide_false; [done|]. intros [?|[?|Hin]]; [tauto | tauto |].
      apply Ho in Hin. by destruct Hin.
Qed.
Lemma ask_all_asks ks this names :
  record_ok ks this →
  ∃ this', ask_all names this = Done (asked ks <$> names) this' ∧ record_ok ks this'.
Proof.
  revert this. induction names as [|n names IH]; intros this Hthis; [by exists this|].
  destruct (attr_requested_asks ks this n Hthis) as (t1 & E1 & H1).
  destruct (IH t1 H1) as (t2 & E2 & H2). exists t2. simpl.
  by rewrite (bind_done _ _ _ _ _ E1), (bind_done _ _ _ _ _ E2).
Qed.

Lemma knows_nil t : d_map t ∅ → knows t [].
Proof.
  intros Ht. exists ∅. split; [done|]. intros k. rewrite lookup_empty.
  split; [intros []%is_Some_None | intros []%not_elem_of_nil].
Qed.

Lemma knows_size t ks :
  knows t ks → ∃ n, d_size t = Done n t ∧ (n = 0 ↔ ks = []).
Proof.
  intros (m & Ht & Hm). exists (Z.of_nat (size m)). split; [by apply d_size_law|].
  split.
  - intros E. assert (m = ∅) as -> by (apply map_size_empty_iff; lia).
    destruct ks as [|k ks]; [done|]. destruct (proj2 (Hm k)) as [v E']; [by left|].
    by rewrite lookup_empty in E'.
  - intros ->. assert (m = ∅) as ->; [|by rewrite map_size_empty].
    apply map_empty. intros k. apply eq_None_not_Some. rewrite Hm. apply not_elem_of_nil.
Qed.

(** What is left to do once the names are in the table. *)
Definition finish_record (t : T) : P (REQUEST_ATTRS T) :=
  r ← in_table d_size t;
  if r.1 =? 0 then mret (mkRequestAttrs r.2 true)
  else
    g ← in_table (d_get "all") r.2;
    mret (mkRequestAttrs g.2 (match g.1 with Some _ => true | None => false end)).

Lemma finish_record_ok t ks p :
  knows t ks → ∃ this, finish_record t p = Done this p ∧ record_ok ks this.
Proof.
  intros Ht. unfold finish_record. destruct (knows_size t ks Ht) as (n & E & Hn).
  rewrite (bind_done _ _ _ _ _ (in_table_done _ _ _ _ p E)). cbn [fst snd].
  destruct (Z.eqb_spec n 0) as [Hz|Hz].
  - eexists. split; [done|]. split; [|done]. simpl. rewrite bool_decide_true; tauto.
  - destruct (knows_get t ks "all" Ht) as (o & E' & Ho).
    rewrite (bind_done _ _ _ _ _ (in_table_done _ _ _ _ p E')). cbn [fst snd].
    eexists. split; [done|]. split; [|done]. simpl. symmetry. destruct o as [v|].
    + apply bool_decide_true. right. apply Ho. by eexists.
    + apply bool_decide_false. intros [?|Hin]; [tauto|]. apply Ho in Hin. by destruct Hin.
Qed.

(** The values of the attribute "requested-attributes", if all are strings. *)
Definition requested (p : IPP) : option (list string) :=
  match find_attribute IPP_TAG_OPERATION IPP_TAG_KEYWORD "requested-attributes"
    (i_request_attrs p) with
  | Some (Some (a, _)) => names_of a
  | Some None => Some []
  | None => None
  end.

Lemma asked_rev ks name : asked (rev ks) name = asked ks name.
Proof.
  unfold asked. apply bool_decide_ext. rewrite !list_elem_of_In, <- !in_rev.
  split; (intros [E|?]; [left | by right]).
  - destruct ks as [|k ks]; [done|]. simpl in E. by destruct (rev ks).
  - by rewrite E.
Qed.

Lemma request_attrs_new_asks p ks :
  requested p = Some ks →
  ∃ this p', request_attrs_new p = Done this p' ∧ ∃ ks', record_ok ks' this ∧
    ∀ n, asked ks' n = asked ks n.
Proof.
  intros Hr. unfold request_attrs_new. destruct (d_new_law 25) as (t & -> & Ht); [done|].
  unfold requested in Hr. unfold ipp_claim_attribute. rewrite bind_assoc, bind_gets. unfold id.
  fold finish_record. apply knows_nil in Ht.
  destruct (find_attribute _ _ _ _) as [[[a rest]|]|]; [| |done].
  - rewrite bind_assoc. set (p1 := set_request_attrs rest p).
    destruct (set_names_knows (at_values a) [] ks t p1 Hr Ht) as (t' & E & Ht').
    destruct (finish_record_ok t' _ p1 Ht') as (this & Ef & Hthis).
    exists this, p1. rewrite bind_modify, bind_ret. fold p1.
    rewrite (bind_done _ _ _ _ _ E). split; [exact Ef|]. exists (rev ks ++ []).
    split; [done|]. intros n. rewrite app_nil_r. apply asked_rev.
  - injection Hr as <-. destruct (finish_record_ok t [] p Ht) as (this & Ef & Hthis).
    exists this, p. rewrite bind_ret. split; [exact Ef|]. by exists [].
Qed.
End table.

(** C27: after a request was read, an attribute counts as asked for exactly if
    the request names it, or names "all", or names none; asking, in any order
    and however often, changes no answer.  This holds of every table that keeps
    the promise of a dictionary. *)
Theorem the_attributes_asked_for_are_answered {T} `{Dictionary T string} p ks names :
  requested p = Some ks →
  ∃ this p' this', request_attrs_new (T := T) p = Done this p' ∧
    ask_all names this = Done (asked ks <$> names) this'.
Proof.
  intros Hr. destruct (request_attrs_new_asks p ks Hr) as (this & p' & E & ks' & Hthis & Hks).
  destruct (ask_all_asks ks' this names Hthis) as (this' & E' & _).
  exists this, p', this'. split; [done|]. rewrite E'. f_equal.
  apply list_fmap_ext. intros i n _. apply Hks.
Qed.

(** A value after the first may be of any type; request_attrs_new() takes
    every value for a string and follows what is no pointer. *)
Theorem a_number_among_the_names_is_followed_as_a_pointer {T} `{Dictionary T string} p a rest :
  find_attribute IPP_TAG_OPERATION IPP_TAG_KEYWORD "requested-attributes" (i_request_attrs p) =
    Some (Some (a, rest)) →
  names_of a = None →
  request_attrs_new (T := T) p = Stopped (SUndef "attr->values[iii].string.text").
Proof.
  intros Hf Hn. unfold request_attrs_new. destruct (d_new_law 25) as (t & -> & Ht); [done|].
  unfold ipp_claim_attribute. rewrite bind_assoc, bind_gets. unfold id. rewrite Hf, bind_assoc.
  rewrite bind_modify, bind_ret. set (p1 := set_request_attrs rest p).
  assert (set_names (at_values a) t p1 = Stopped (SUndef "attr->values[iii].string.text")) as E.
  { unfold names_of in Hn. apply knows_nil in Ht. revert t Ht Hn. generalize ([] : list string).
    induction (at_values a) as [|v vs IH]; intros ks t Ht Hn; [done|]. simpl in Hn |- *.
    destruct (as_text v) as [k|]; [|done]. simpl in Hn.
    destruct (knows_set t ks k "TRUE" Ht) as (t1 & E1 & Ht1).
    rewrite (bind_done _ _ _ _ _ (in_table_done _ _ _ _ p1 E1)). apply (IH _ _ Ht1).
    by destruct (mapM as_text vs). }
  unfold mbind, M_bind. by rewrite E.
Qed.

(** * Witnesses, with the hash table *)

Lemma the_attributes_asked_for_are_answered_witness :
  ∃ this p' this', request_attrs_new (T := PCH string) (ipp_with [my_jobs; sample_names]) =
      Done this p' ∧
    ask_all ["job-uri"; "job-state"; "job-uri"; "job-id"] this =
      Done [true; false; true; true] this'.
Proof.
  apply (the_attributes_asked_for_are_answered (T := PCH string)
    (ipp_with [my_jobs; sample_names]) ["job-id"; "job-uri"]
    ["job-uri"; "job-state"; "job-uri"; "job-id"]).
  reflexivity.
Defined.

Lemma a_number_among_the_names_is_followed_as_a_pointer_witness :
  request_attrs_new (T := PCH string) (ipp_with [my_jobs; mixed_names]) =
    Stopped (SUndef "attr->values[iii].string.text").
Proof.
  apply (a_number_among_the_names_is_followed_as_a_pointer (T := PCH string) _ mixed_names
    [my_jobs]); reflexivity.
Defined.
