(* ===== verification/Acl.v ===== *)
(** Shell-style patterns (src/nonppr_misc/wildmat/gu_wildmat.c), as PPR uses
    them for the names of users and hosts; and the access lists
    (src/libppr/username_match.c, acl.c). *)
From S2P Require Import Prelude.
From S2P Require Import Text.

(** What DoMatch() returns.  The pattern "[a" may lead it behind the end of the
    pattern, of which the language says nothing. *)
Inductive answer := TRUE | FALSE | ABORT | BehindPattern | OutOfFuel.

(** *p == 'c' *)
Definition next_is (c : ascii) (p : string) : bool :=
  match p with
  | EmptyString => false
  | String d _ => Ascii.eqb d c
  end.

(** * \ *)

Definition is_octal (c : ascii) : bool := (48 <=? code c) && (code c <=? 55).

(** The value of the digits, and the pattern behind them. *)
Fixpoint octal (digits : nat) (c : Z) (p : string) : Z * string :=
  match digits, p with
  | S n, String d p' =>
      if is_octal d then octal n (c * 8 + (code d - 48)) p' else (c, p)
  | _, _ => (c, p)
  end.

Fixpoint hex (digits : nat) (c : Z) (p : string) : Z * string :=
  match digits, p with
  | S n, String d p' =>
      if gu_ascii_isxdigit d
      then hex n (Z.lor (Z.shiftl c 4) (gu_ascii_xdigit_value d)) p' else (c, p)
  | _, _ => (c, p)
  end.

Definition control (c : ascii) : option Z :=
  if Ascii.eqb c "a" then Some 7
  else if Ascii.eqb c "b" then Some 8
  else if Ascii.eqb c "f" then Some 12
  else if Ascii.eqb c "n" then Some 10
  else if Ascii.eqb c "r" then Some 13
  else if Ascii.eqb c "t" then Some 9
  else if Ascii.eqb c "v" then Some 11
  else None.

(** The character of the text a backslash stands for; 0, which is no character
    of a text, for one that ends the pattern. *)
Definition escape (p : string) : Z * string :=
  match p with
  | EmptyString => (0, EmptyString)
  | String c p' =>
      if is_octal c then octal 3 0 p
      else if Ascii.eqb c "x" then hex 2 0 p'
      else (default (schar c) (control c), p')
  end.

(** * [] *)

(** for(last = *p; *++p && *p != ']'; last = *p), with the pattern behind
    [last]: is the character of the text in the class, and the pattern from the
    closing bracket on. *)
Fixpoint class_loop (text last : Z) (matched : bool) (p : string) : option (bool * string) :=
  match p with
  | EmptyString => Some (matched, EmptyString)
  | String c p' =>
      if Ascii.eqb c "]" then Some (matched, p)
      else if Ascii.eqb c "-" && negb (next_is "]" p') then
        match p' with
        | EmptyString => None
        | String hi p'' =>
            class_loop text (schar hi)
              (matched || ((text <=? schar hi) && (last <=? text))) p''
        end
      else class_loop text (schar c) (matched || (text =? schar c)) p'
  end.

(** The pattern is that behind the bracket. *)
Definition char_class (text : Z) (p : string) : option (bool * string) :=
  let reverse := next_is "^" p in
  let p := if reverse then str_drop 1 p else p in
  let last := schar (if reverse then "^" else "[") in
  r ← (if next_is "]" p || next_is "-" p then
         match p with
         | String c p' => class_loop text (schar c) (text =? schar c) p'
         | EmptyString => None
         end
       else class_loop text last false p);
  Some (xorb reverse r.1, r.2).

(** * DoMatch() *)

(** The rest of the pattern is tried at every character of the text that is left. *)
Fixpoint star_loop (match_rest : string → answer) (text : string) : answer :=
  match text with
  | EmptyString => ABORT
  | String _ text' =>
      match match_rest text with
      | FALSE => star_loop match_rest text'
      | matched => matched
      end
  end.

Fixpoint DoMatch (fuel : nat) (text p : string) : answer :=
  match fuel with
  | O => OutOfFuel
  | S n =>
      match p with
      | EmptyString =>
          match text with
          | EmptyString => TRUE
          | String _ _ => FALSE
          end
      | String c p' =>
          if Ascii.eqb c "*" then
            let p := drop_while (Ascii.eqb "*") p' in
            match p with
            | EmptyString => TRUE
            | String _ _ => star_loop (λ t, DoMatch n t p) text
            end
          else
            match text with
            | EmptyString => ABORT
            | String t text' =>
                if Ascii.eqb c "\" then
                  let '(k, p) := escape p' in
                  if schar t =? k then DoMatch n text' p else FALSE
                else if Ascii.eqb c "?" then DoMatch n text' p'
                else if Ascii.eqb c "[" then
                  match char_class (schar t) p' with
                  | None => BehindPattern
                  | Some (false, _) => FALSE
                  | Some (true, EmptyString) => BehindPattern
                  | Some (true, String _ p) => DoMatch n text' p
                  end
                else if schar t =? schar c then DoMatch n text' p'
                else FALSE
            end
      end
  end.

(** Every call but the last takes a character of the pattern. *)
Definition gu_wildmat (text p : string) : option bool :=
  if String.eqb p "*" then Some true
  else
    match DoMatch (S (String.length p)) text p with
    | TRUE => Some true
    | FALSE | ABORT => Some false
    | BehindPattern | OutOfFuel => None
    end.

(** * Who may do what: access lists (src/libppr/acl.c) and the patterns for users
    in them (src/libppr/username_match.c). *)

(** The user ids PPR runs under, and the directory of the lists (config.h). *)
Class AclConfig := {
  acl_USER_PPR : string;
  acl_USER_PPRWWW : string;
  ACLDIR : string;
}.

(** * username_match.c *)

Definition localhost_remove (host : option string) : option string :=
  match host with
  | None => None
  | Some h => if String.eqb h "localhost" || String.eqb h "127.0.0.1" then None else Some h
  end.

(** strchr(username, '@'), with a NUL in its place for the time being. *)
Definition split_at_sign (s : string) : string * option string :=
  let '(name, rest) := span (λ c, negb (Ascii.eqb c "@")) s in
  match rest with
  | EmptyString => (name, None)
  | String _ host => (name, Some host)
  end.

(** Nothing when gu_wildmat() reads behind a pattern. *)
Definition username_match (username pattern : string) : option bool :=
  if String.eqb username pattern then Some true
  else
    let '(user, user_at_host) := split_at_sign username in
    let '(pat, pat_at_host) := split_at_sign pattern in
    let username_host := localhost_remove user_at_host in
    let pattern_host := localhost_remove pat_at_host in
    b ← gu_wildmat user pat;
    if negb b then Some false
    else
      match username_host, pattern_host with
      | Some _, None => Some false
      | Some uh, Some ph => gu_wildmat uh ph
      | None, Some ph => Some (String.eqb ph "*")
      | None, None => Some true
      end.

(** * acl.c *)

Section acl.
Context `{AclConfig}.

Definition internal_list : list string := ["root"; acl_USER_PPR; acl_USER_PPRWWW].

(** The files that can be opened. *)
Abbreviation files := (gmap string string).

Definition is_comment (line : string) : bool :=
  match line with
  | String c _ => Ascii.eqb c "#" || Ascii.eqb c ";"
  | EmptyString => false
  end.

Fixpoint some_line_matches (user : string) (lines : list string) : M files bool :=
  match lines with
  | [] => mret false
  | line :: lines' =>
      if is_comment line then some_line_matches user lines'
      else
        match username_match user line with
        | None => undef "gu_wildmat() behind the pattern"
        | Some true => mret true
        | Some false => some_line_matches user lines'
        end
  end.

Definition user_acl_allows (user acl : string) : M files bool :=
  if existsb (String.eqb user) internal_list then mret true
  else
    match ppr_fnamef "%s/%s.allow" [AS ACLDIR; AS acl] with
    | FnameThrow msg => gu_Throw msg
    | Fname fname =>
        f ← gets (λ s : files, s !! fname);
        match f with
        | None => mret false
        | Some text => some_line_matches user (file_lines text)
        end
    end.
End acl.
