(* ===== verification/PropAcl.v ===== *)
(** The search with its shortcut finds what the pattern says, and an access list
    admits whom it describes. *)
From S2P Require Import Prelude.
From S2P Require Import Text.
From S2P Require Import TextFacts.
From S2P Require Import Acl.

(** * What a pattern says *)

(** One character, or any number of them. *)
Inductive token :=
| One (f : ascii → bool)
| Many.

Fixpoint says (l : list token) (s : string) : Prop :=
  match l with
  | [] => s = EmptyString
  | One f :: l' => ∃ c s', s = String c s' ∧ f c = true ∧ says l' s'
  | Many :: l' => ∃ a b, s = a +:+ b ∧ says l' b
  end.

(** The ranges of a class up to its closing bracket, and the pattern behind that;
    a single character is a range. *)
Fixpoint ranges (last : Z) (p : string) : option (list (Z * Z) * string) :=
  match p with
  | EmptyString => None
  | String c p' =>
      if Ascii.eqb c "]" then Some ([], p')
      else
        match p' with
        | String hi p'' =>
            if Ascii.eqb c "-" && negb (Ascii.eqb hi "]")
            then r ← ranges (schar hi) p''; Some ((last, schar hi) :: r.1, r.2)
            else r ← ranges (schar c) p'; Some ((schar c, schar c) :: r.1, r.2)
        | EmptyString => None
        end
  end.

Definition in_ranges (l : list (Z * Z)) (c : Z) : bool :=
  existsb (λ r, (r.1 <=? c) && (c <=? r.2)) l.

(** A bracket or a hyphen that comes first is a character of the class. *)
Definition class_body (last : Z) (p : string) : option (list (Z * Z) * string) :=
  match p with
  | String c p' =>
      if Ascii.eqb c "]" || Ascii.eqb c "-"
      then r ← ranges (schar c) p'; Some ((schar c, schar c) :: r.1, r.2)
      else ranges last p
  | EmptyString => None
  end.

(** Characters are compared as signed numbers. *)
Definition class_of (p : string) : option ((ascii → bool) * string) :=
  if next_is "^" p
  then r ← class_body (schar "^") (str_drop 1 p); Some (λ c, negb (in_ranges r.1 (schar c)), r.2)
  else r ← class_body (schar "[") p; Some (λ c, in_ranges r.1 (schar c), r.2).

(** ** Behind a backslash *)

Fixpoint place (c : ascii) (s : string) : option Z :=
  match s with
  | EmptyString => None
  | String d s' => if Ascii.eqb c d then Some 0 else Z.succ <$> place c s'
  end.

(** The number a digit stands for, letters in either case. *)
Definition digit (base : Z) (c : ascii) : option Z :=
  match place c "0123456789abcdef", place c "0123456789ABCDEF" with
  | Some v, _ | None, Some v => if v <? base then Some v else None
  | None, None => None
  end.

(** The first digits, so many at most, and what stands behind them. *)
Fixpoint digits (base : Z) (most : nat) (p : string) : list Z * string :=
  match most, p with
  | S n, String c p' =>
      match digit base c with
      | Some v => let '(vs, rest) := digits base n p' in (v :: vs, rest)
      | None => ([], p)
      end
  | _, _ => ([], p)
  end.

(** The number the digits are written for. *)
Fixpoint number (base : Z) (vs : list Z) : Z :=
  match vs with
  | [] => 0
  | v :: vs' => v * base ^ Z.of_nat (length vs') + number base vs'
  end.

(** A character by its code.  The program knows no characters with codes above
    0177: it takes those of the text for negative numbers. *)
Definition with_code (k : Z) (c : ascii) : bool := (code c =? k) && (k <? 128).

Definition controls : list (ascii * Z) :=
  [("a"%char, 7); ("b"%char, 8); ("t"%char, 9); ("n"%char, 10); ("v"%char, 11);
   ("f"%char, 12); ("r"%char, 13)].

Definition control_named (c : ascii) : option Z :=
  snd <$> List.find (λ e, Ascii.eqb c e.1) controls.

(** Up to three octal digits, up to two hexadecimal ones behind an x, the letter of
    a control character, or a character that stands for itself; at the end of the
    pattern a NUL, which is no character of a text. *)
Definition backslash (p : string) : (ascii → bool) * string :=
  match p with
  | EmptyString => (with_code 0, EmptyString)
  | String c p' =>
      match digit 8 c with
      | Some _ => let '(vs, rest) := digits 8 3 p in (with_code (number 8 vs), rest)
      | None =>
          if Ascii.eqb c "x"
          then let '(vs, rest) := digits 16 2 p' in (with_code (number 16 vs), rest)
          else
            match control_named c with
            | Some k => (with_code k, p')
            | None => (Ascii.eqb c, p')
            end
      end
  end.

(** The tokens of a pattern whose brackets are closed. *)
Fixpoint tokens_of (fuel : nat) (p : string) : option (list token) :=
  match fuel, p with
  | O, _ => None
  | S _, EmptyString => Some []
  | S n, String c p' =>
      if Ascii.eqb c "*" then cons Many <$> tokens_of n (drop_while (Ascii.eqb "*") p')
      else if Ascii.eqb c "\" then
        let '(f, p) := backslash p' in cons (One f) <$> tokens_of n p
      else if Ascii.eqb c "?" then cons (One (λ _, true)) <$> tokens_of n p'
      else if Ascii.eqb c "[" then
        r ← class_of p'; cons (One r.1) <$> tokens_of n r.2
      else cons (One (Ascii.eqb c)) <$> tokens_of n p'
  end.

Definition pattern (p : string) : option (list token) := tokens_of (S (String.length p)) p.

(** * Classes *)

Lemma class_loop_ranges t last m p l rest :
  ranges last p = Some (l, rest) →
  class_loop t last m p = Some (m || in_ranges l t, String "]" rest).
Proof.
  revert last m p l rest.
  cut (∀ k last m p l rest, (String.length p <= k)%nat → ranges last p = Some (l, rest) →
    class_loop t last m p = Some (m || in_ranges l t, String "]" rest)).
  { intros H *. by apply (H (String.length p)). }
  intros k. induction k as [|k IH]; intros last m [|c p] l rest Hk; simpl in *; try done; [lia|].
  destruct (Ascii.eqb_spec c "]") as [->|Hc].
  { intros [= <- <-]. by rewrite orb_false_r. }
  destruct p as [|hi p]; [done|]. simpl in Hk. cbn [next_is].
  destruct (Ascii.eqb c "-" && negb (Ascii.eqb hi "]")).
  - destruct (ranges (schar hi) p) as [[l' r']|] eqn:Er; [|done].
    intros [= <- <-]. rewrite (IH _ _ p _ _ ltac:(lia) Er). f_equal. f_equal. simpl.
    rewrite (andb_comm (t <=? _)). by rewrite orb_assoc.
  - destruct (ranges (schar c) (String hi p)) as [[l' r']|] eqn:Er; [|done].
    intros [= <- <-]. rewrite (IH _ _ (String hi p) _ _ ltac:(simpl; lia) Er). f_equal. f_equal.
    simpl. rewrite <- orb_assoc. f_equal. f_equal.
    destruct (Z.eqb_spec t (schar c)), (Z.leb_spec (schar c) t), (Z.leb_spec t (schar c)); first [done | exfalso; lia].
Qed.

Lemma class_says t p f rest :
  class_of p = Some (f, rest) → char_class (schar t) p = Some (f t, String "]" rest).
Proof.
  assert (∀ last q l r, class_body last q = Some (l, r) →
    (if next_is "]" q || next_is "-" q then
       match q with
       | String c p' => class_loop (schar t) (schar c) (schar t =? schar c) p'
       | EmptyString => None
       end
     else class_loop (schar t) last false q) = Some (in_ranges l (schar t), String "]" r)) as H.
  { intros last [|c q] l r; [done|]. cbn [class_body next_is].
    destruct (Ascii.eqb c "]" || Ascii.eqb c "-").
    - destruct (ranges (schar c) q) as [[l' r']|] eqn:E; [|done]. intros [= <- <-].
      rewrite (class_loop_ranges _ _ _ _ _ _ E). f_equal. f_equal. simpl. f_equal.
      destruct (Z.eqb_spec (schar t) (schar c)), (Z.leb_spec (schar c) (schar t)), (Z.leb_spec (schar t) (schar c));
        first [done | exfalso; lia].
    - intros E. by rewrite (class_loop_ranges _ _ _ _ _ _ E). }
  unfold class_of, char_class. destruct (next_is "^" p).
  - destruct (class_body _ _) as [[l r]|] eqn:E; [|done]. intros [= <- <-].
    rewrite (H _ _ _ _ E). simpl. by destruct (in_ranges l (schar t)).
  - destruct (class_body _ _) as [[l r]|] eqn:E; [|done]. intros [= <- <-].
    rewrite (H _ _ _ _ E). simpl. by destruct (in_ranges l (schar t)).
Qed.

(** * Codes *)

Lemma schar_with_code k c : 0 <= k → (schar c =? k) = with_code k c.
Proof.
  intros Hk. unfold with_code, schar. pose proof (code_range c). apply eq_true_iff_eq.
  rewrite andb_true_iff, !Z.eqb_eq, Z.ltb_lt. destruct (Z.ltb_spec (code c) 128); lia.
Qed.

Lemma schar_eqb c d : (schar c =? schar d) = Ascii.eqb d c.
Proof.
  destruct (Ascii.eqb_spec d c) as [->|Hne]; [apply Z.eqb_refl|].
  apply Z.eqb_neq. intros E. apply Hne. unfold schar in E.
  pose proof (code_range c). pose proof (code_range d).
  rewrite <- (ascii_N_embedding c), <- (ascii_N_embedding d). f_equal. unfold code in *.
  destruct (Z.ltb_spec (Z.of_N (N_of_ascii c)) 128), (Z.ltb_spec (Z.of_N (N_of_ascii d)) 128); lia.
Qed.

Lemma octal_digit d : digit 8 d = if is_octal d then Some (code d - 48) else None.
Proof. by destruct d as [[] [] [] [] [] [] [] []]. Qed.

Lemma hex_digit d : digit 16 d = if gu_ascii_isxdigit d then Some (gu_ascii_xdigit_value d) else None.
Proof. by destruct d as [[] [] [] [] [] [] [] []]. Qed.

Lemma digit_bound base d v : digit base d = Some v → 0 <= v < 16.
Proof.
  unfold digit. intros E. enough (∀ w, place d "0123456789abcdef" = Some w ∨
    place d "0123456789ABCDEF" = Some w → 0 <= w < 16) as H.
  { destruct (place d "0123456789abcdef") as [w|], (place d "0123456789ABCDEF") as [w'|];
      try case_match; simplify_eq; apply H; auto. }
  clear E. intros w. destruct d as [[] [] [] [] [] [] [] []]; cbn; intros [E|E]; simplify_eq; lia.
Qed.

Lemma number_nonneg base most p : 0 <= base → 0 <= number base (digits base most p).1.
Proof.
  intros Hb. revert p. induction most as [|n IH]; intros [|c p]; try done. cbn [digits].
  destruct (digit base c) as [v|] eqn:E; [|done]. specialize (IH p). apply digit_bound in E.
  destruct (digits base n p) as [vs rest]. simpl in *.
  pose proof (Z.pow_nonneg base (Z.of_nat (length vs)) Hb). nia.
Qed.

Lemma octal_number k c p :
  octal k c p = let '(vs, rest) := digits 8 k p in (c * 8 ^ Z.of_nat (length vs) + number 8 vs, rest).
Proof.
  revert c p. induction k as [|k IH]; intros c [|d p]; cbn [octal digits]; try (simpl; f_equal; lia).
  rewrite octal_digit. destruct (is_octal d); [|simpl; f_equal; lia].
  rewrite IH. destruct (digits 8 k p) as [vs rest]. f_equal. cbn [number length].
  rewrite Nat2Z.inj_succ, Z.pow_succ_r by lia. lia.
Qed.

Lemma hex_number k c p :
  0 <= c →
  hex k c p = let '(vs, rest) := digits 16 k p in (c * 16 ^ Z.of_nat (length vs) + number 16 vs, rest).
Proof.
  revert c p. induction k as [|k IH]; intros c [|d p] Hc; cbn [hex digits]; try (simpl; f_equal; lia).
  pose proof (hex_digit d) as E. destruct (gu_ascii_isxdigit d); rewrite E; [|simpl; f_equal; lia].
  apply digit_bound in E.
  assert (Z.lor (Z.shiftl c 4) (gu_ascii_xdigit_value d) = c * 16 + gu_ascii_xdigit_value d) as ->.
  { rewrite Z.shiftl_mul_pow2 by lia. change (2 ^ 4) with 16.
    rewrite <- Z.add_lor_land.
    assert (Z.land (c * 16) (gu_ascii_xdigit_value d) = 0) as ->; [|lia].
    apply Z.bits_inj'. intros n Hn. rewrite Z.land_spec, Z.bits_0. change 16 with (2 ^ 4).
    destruct (Z.lt_ge_cases n 4).
    - by rewrite Z.mul_pow2_bits_low.
    - rewrite (Z.bits_above_log2 (gu_ascii_xdigit_value d)); [apply andb_false_r | lia |].
      destruct (Z.eq_dec (gu_ascii_xdigit_value d) 0) as [->|]; [simpl; lia|].
      apply Z.log2_lt_pow2; [lia|]. apply (Z.lt_le_trans _ (2 ^ 4)); [lia|]. apply Z.pow_le_mono_r; lia. }
  rewrite IH by lia. destruct (digits 16 k p) as [vs rest]. f_equal. cbn [number length].
  rewrite Nat2Z.inj_succ, Z.pow_succ_r by lia. lia.
Qed.

Lemma control_is_named c : control c = control_named c.
Proof. by destruct c as [[] [] [] [] [] [] [] []]. Qed.

Lemma control_nonneg c k : control c = Some k → 0 <= k.
Proof. unfold control. intros. repeat case_match; simplify_eq; lia. Qed.

(** What the program takes behind a backslash. *)
Lemma escape_backslash p :
  (escape p).2 = (backslash p).2 ∧ ∀ c, (schar c =? (escape p).1) = (backslash p).1 c.
Proof.
  destruct p as [|d p]; [by split; [|intros; apply schar_with_code]|]. unfold escape, backslash.
  rewrite octal_digit. destruct (is_octal d).
  { rewrite octal_number. pose proof (number_nonneg 8 3 (String d p) ltac:(lia)) as Hn.
    destruct (digits 8 3 (String d p)) as [vs rest]. split; [done|]. intros c. by apply schar_with_code. }
  destruct (Ascii.eqb d "x").
  { rewrite hex_number by done. pose proof (number_nonneg 16 2 p ltac:(lia)) as Hn.
    destruct (digits 16 2 p) as [vs rest]. split; [done|]. intros c. by apply schar_with_code. }
  rewrite <- control_is_named. destruct (control d) as [k|] eqn:E; split; try done; intros c.
  - apply schar_with_code. by eapply control_nonneg.
  - apply schar_eqb.
Qed.

(** * The search *)

Definition suffix (b text : string) : Prop := ∃ a, text = a +:+ b.

(** ABORT says more than FALSE: not even what is left of the text later on will do. *)
Definition sound (l : list token) (text : string) (a : answer) : Prop :=
  match a with
  | TRUE => says l text
  | FALSE => ¬ says l text
  | ABORT => ∀ b, suffix b text → ¬ says l b
  | _ => False
  end.

Lemma suffix_cons b c s : suffix b (String c s) → b = String c s ∨ suffix b s.
Proof.
  intros [[|d a] E]; [by left|]. right. rewrite str_cons_app in E. injection E as _ E. by exists a.
Qed.

Lemma suffix_trans a b c : suffix a b → suffix b c → suffix a c.
Proof. intros [x ->] [y ->]. exists (y +:+ x). symmetry. apply str_app_assoc. Qed.

Lemma suffix_nil b : suffix b EmptyString → b = EmptyString.
Proof. intros [[|? ?] E]; [done | by rewrite str_cons_app in E]. Qed.

(** A character that fits, and the rest. *)
Lemma sound_one f l c s a :
  f c = true → sound l s a → sound (One f :: l) (String c s) a.
Proof.
  intros Hf. destruct a; simpl; try done.
  - by exists c, s.
  - intros H (c' & s' & [= <- <-] & _ & Hs). done.
  - intros H b Hb (c' & s' & -> & _ & Hs). apply (H s'); [|done].
    apply suffix_cons in Hb as [[= -> ->]|Hb]; [by exists EmptyString|].
    eapply suffix_trans; [|exact Hb]. by exists (String c' EmptyString).
Qed.

Lemma unfit_one f l c s : f c = false → sound (One f :: l) (String c s) FALSE.
Proof. intros Hf (c' & s' & [= <- <-] & Ht & _). congruence. Qed.

Lemma star_sound l m text :
  (¬ says l EmptyString) → (∀ t, sound l t (m t)) → sound (Many :: l) text (star_loop m text).
Proof.
  intros Hne Hm.
  assert (∀ t, match star_loop m t with
               | TRUE => ∃ b, suffix b t ∧ says l b
               | ABORT => ∀ b, suffix b t → ¬ says l b
               | _ => False
               end) as H.
  { intros t. induction t as [|c t IH]; simpl.
    - intros b ->%suffix_nil. done.
    - specialize (Hm (String c t)). destruct (m (String c t)); simpl in Hm; try done.
      + exists (String c t). split; [by exists EmptyString | done].
      + destruct (star_loop m t); try done.
        * destruct IH as (b & Hb & Hs). exists b. split; [|done].
          eapply suffix_trans; [exact Hb|]. by exists (String c EmptyString).
        * intros b [->|Hb]%suffix_cons; [done | by apply IH]. }
  specialize (H text). destruct (star_loop m text); try done; simpl.
  - destruct H as (b & [a ->] & Hs). by exists a, b.
  - intros b Hb (x & y & -> & Hs). apply (H y); [|done].
    eapply suffix_trans; [|exact Hb]. by exists x.
Qed.

(** What begins with no star takes a character. *)
Lemma says_nonempty n c p l :
  c ≠ "*"%char → tokens_of n (String c p) = Some l → ¬ says l EmptyString.
Proof.
  intros Hc. destruct n as [|n]; [done|]. simpl.
  destruct (Ascii.eqb_spec c "*"); [done|].
  assert (∀ f o, cons (One f) <$> o = Some l → ¬ says l EmptyString) as H.
  { intros f [l'|]; [|done]. intros [= <-] (? & ? & ? & _). done. }
  destruct (Ascii.eqb c "\"); [destruct (backslash p); apply H|].
  destruct (Ascii.eqb c "?"); [apply H|].
  destruct (Ascii.eqb c "["); [|apply H].
  destruct (class_of p) as [[f r]|]; [apply H | done].
Qed.

Lemma drop_stars p : next_is "*" (drop_while (Ascii.eqb "*") p) = false.
Proof.
  unfold drop_while. induction p as [|c p IH]; [done|]. cbn [span].
  destruct (Ascii.eqb_spec "*" c) as [<-|Hc].
  - by destruct (span (Ascii.eqb "*") p).
  - simpl. destruct (Ascii.eqb_spec c "*"); congruence.
Qed.

Lemma DoMatch_sound n p l text : tokens_of n p = Some l → sound l text (DoMatch n text p).
Proof.
  revert p l text. induction n as [|n IH]; intros [|c p] l text; simpl; try done.
  { intros [= <-]. by destruct text. }
  destruct (Ascii.eqb_spec c "*") as [->|Hc].
  { pose proof (drop_stars p) as Hd. destruct (drop_while _ p) as [|d q] eqn:Eq.
    - destruct n as [|n']; [done|]. intros [= <-]. simpl. exists text, EmptyString.
      split; [by rewrite str_app_nil_r | done].
    - destruct (tokens_of n (String d q)) as [l'|] eqn:El; [|done]. intros [= <-].
      apply star_sound; [|intros t; by apply IH].
      apply (says_nonempty n d q); [|done]. intros ->. done. }
  intros Hl. destruct text as [|t text].
  { intros b ->%suffix_nil. apply (says_nonempty (S n) c p); [done|]. simpl.
    destruct (Ascii.eqb_spec c "*"); done. }
  assert (∀ f q (b : bool), cons (One f) <$> tokens_of n q = Some l → f t = b →
    sound l (String t text) (if b then DoMatch n text q else FALSE)) as H.
  { intros f q b Hq Hf. destruct (tokens_of n q) as [l'|] eqn:Eq; [|done]. injection Hq as <-.
    destruct b; [apply sound_one; auto | by apply unfit_one]. }
  destruct (Ascii.eqb c "\").
  { destruct (escape_backslash p) as [E2 E1]. destruct (escape p) as [k q], (backslash p) as [f r].
    simpl in *. subst r. rewrite E1. by apply (H f). }
  destruct (Ascii.eqb c "?"); [by apply (H _ _ true Hl)|].
  destruct (Ascii.eqb c "["); [|rewrite schar_eqb; by apply (H (Ascii.eqb c))].
  destruct (class_of p) as [[f r]|] eqn:Ec; [|done].
  rewrite (class_says t _ _ _ Ec). specialize (H f r _ Hl eq_refl). by destruct (f t).
Qed.

(** * The theorem *)

(** gu_wildmat(), with the shortcut that ends the search as soon as no
    later star can help, finds exactly the texts the pattern describes, for
    every pattern whose brackets are closed. *)
Theorem wildcards_match_as_described text p l :
  pattern p = Some l → ∃ b, gu_wildmat text p = Some b ∧ (b = true ↔ says l text).
Proof.
  unfold pattern, gu_wildmat. intros Hp.
  destruct (String.eqb_spec p "*") as [->|_].
  { injection Hp as <-. exists true. split; [done|]. split; [|done]. intros _.
    exists text, EmptyString. split; [by rewrite str_app_nil_r | done]. }
  pose proof (DoMatch_sound _ _ _ text Hp) as H.
  destruct (DoMatch _ text p); simpl in H; try done.
  - by exists true.
  - by exists false.
  - exists false. split; [done|]. split; [done|]. intros Hs. by destruct (H text); [exists EmptyString|].
Qed.

(** * Patterns without brackets, which are always in order *)

Lemma suffix_length b s : suffix b s → (String.length b <= String.length s)%nat.
Proof. intros [a ->]. rewrite length_app_str. lia. Qed.

Lemma suffix_tail b c s : suffix b s → suffix b (String c s).
Proof. intros H. eapply suffix_trans; [exact H|]. by exists (String c EmptyString). Qed.

Lemma suffix_refl s : suffix s s.
Proof. by exists EmptyString. Qed.

Lemma digits_suffix base k p : suffix (digits base k p).2 p.
Proof.
  revert p. induction k as [|k IH]; intros [|d p]; try apply suffix_refl. cbn [digits].
  destruct (digit base d); [|apply suffix_refl]. specialize (IH p).
  destruct (digits base k p). by apply suffix_tail.
Qed.

Lemma backslash_suffix p : suffix (backslash p).2 p.
Proof.
  destruct p as [|c p]; [apply suffix_refl|]. unfold backslash.
  pose proof (digits_suffix 8 3 (String c p)). pose proof (digits_suffix 16 2 p).
  destruct (digit 8 c); [by destruct (digits 8 3 (String c p))|].
  destruct (Ascii.eqb c "x"); [destruct (digits 16 2 p); by apply suffix_tail|].
  destruct (control_named c); apply suffix_tail, suffix_refl.
Qed.

Lemma drop_while_suffix f p : suffix (drop_while f p) p.
Proof.
  unfold drop_while. induction p as [|c p IH]; [apply suffix_refl|]. simpl.
  destruct (f c); [|apply suffix_refl]. apply suffix_tail. by destruct (span f p).
Qed.

Definition no_bracket (p : string) : Prop := Forall (λ c, c ≠ "["%char) (chars p).

Lemma no_bracket_suffix b p : suffix b p → no_bracket p → no_bracket b.
Proof. intros [a ->]. unfold no_bracket. rewrite chars_app. by intros [_ H]%Forall_app. Qed.

Lemma no_bracket_tokens n p :
  (String.length p < n)%nat → no_bracket p → tokens_of n p ≠ None.
Proof.
  revert p. induction n as [|n IH]; intros [|c p] Hn Hp; simpl in Hn |- *; try (done || lia).
  assert (∀ q t, suffix q p → cons t <$> tokens_of n q ≠ None) as H.
  { intros q t Hq. pose proof (suffix_length _ _ Hq).
    assert (tokens_of n q ≠ None) as Hs; [|by destruct (tokens_of n q)].
    apply IH; [lia|]. eapply no_bracket_suffix; [|exact Hp]. by apply suffix_tail. }
  destruct (Ascii.eqb c "*"); [apply H, drop_while_suffix|].
  destruct (Ascii.eqb c "\").
  { pose proof (backslash_suffix p) as Hs. destruct (backslash p) as [k q]. by apply H. }
  destruct (Ascii.eqb c "?"); [apply H, suffix_refl|].
  inversion Hp as [|? ? Hc _]; subst.
  destruct (Ascii.eqb_spec c "["); [done|]. apply H, suffix_refl.
Qed.

Lemma pattern_no_bracket p : no_bracket p → pattern p ≠ None.
Proof. apply no_bracket_tokens. lia. Qed.

(** A character beyond ASCII is a negative number, its code in a pattern is not:
    they never meet. *)
Theorem codes_beyond_ascii_match_nothing c :
  128 ≤ code c → gu_wildmat (String c EmptyString)
    (String "\" (String "x" (fmt_X 2 (code c)))) = Some false.
Proof.
  destruct c as [b0 b1 b2 b3 b4 b5 b6 b7]. intros Hc.
  destruct b0, b1, b2, b3, b4, b5, b6, b7; first [by vm_compute in Hc | vm_compute; reflexivity].
Qed.

(** * Who is let in by an access list. *)

(** * What the lines of a list grant *)

(** The names by which a computer calls itself. *)
Definition local_hosts : list string := ["localhost"; "127.0.0.1"].

Definition no_at (name : string) : Prop := Forall (λ c, c ≠ "@"%char) (chars name).

(** What a user is called and where he is; the first at sign ends the name. *)
Inductive account : string → string → option string → Prop :=
| local_account name : no_at name → account name name None
| account_here name host :
    no_at name → host ∈ local_hosts → account (name +:+ String "@" host) name None
| account_there name host :
    no_at name → host ∉ local_hosts → account (name +:+ String "@" host) name (Some host).

Definition described (p s : string) : Prop := ∃ l, pattern p = Some l ∧ says l s.

(** A local user is described by a rule for local users or for all hosts; a
    remote one only by a rule that describes his host too. *)
Definition grants (user line : string) : Prop :=
  user = line ∨
  ∃ name host names hosts, account user name host ∧ account line names hosts ∧
    described names name ∧
    match host, hosts with
    | None, None => True
    | None, Some rule => rule = "*"
    | Some host, Some rule => described rule host
    | Some _, None => False
    end.

(** The brackets of a rule are closed, as they are where there are none. *)
Definition closed_rule (line : string) : Prop :=
  ∃ names hosts, account line names hosts ∧ pattern names ≠ None ∧
    match hosts with Some rule => pattern rule ≠ None | None => True end.

Lemma described_wildmat p s :
  pattern p ≠ None → ∃ b, gu_wildmat s p = Some b ∧ (b = true ↔ described p s).
Proof.
  intros Hp. destruct (pattern p) as [l|] eqn:El; [|done].
  destruct (wildcards_match_as_described s p l El) as (b & Hb & Hs). exists b. split; [done|].
  rewrite Hs. unfold described. rewrite El. naive_solver.
Qed.

Lemma split_no_at name : no_at name → split_at_sign name = (name, None).
Proof.
  unfold split_at_sign. induction name as [|c name IH]; [done|]. intros [Hc Hn]%Forall_cons.
  specialize (IH Hn). cbn [span]. destruct (Ascii.eqb_spec c "@"); [done|]. simpl.
  destruct (span _ name) as [a [|? ?]]; by simplify_eq.
Qed.

Lemma split_at_host name host :
  no_at name → split_at_sign (name +:+ String "@" host) = (name, Some host).
Proof.
  unfold split_at_sign. induction name as [|c name IH]; [done|]. intros [Hc Hn]%Forall_cons.
  specialize (IH Hn). rewrite str_cons_app. cbn [span]. destruct (Ascii.eqb_spec c "@"); [done|]. simpl.
  destruct (span _ (name +:+ _)) as [a [|? ?]]; by simplify_eq.
Qed.

Lemma remove_local host : host ∈ local_hosts → localhost_remove (Some host) = None.
Proof. unfold local_hosts. rewrite !elem_of_cons, elem_of_nil. by intros [->|[->|?]]. Qed.

Lemma remove_not_local host : host ∉ local_hosts → localhost_remove (Some host) = Some host.
Proof.
  unfold local_hosts. rewrite !elem_of_cons, elem_of_nil. intros H. unfold localhost_remove.
  destruct (String.eqb_spec host "localhost"), (String.eqb_spec host "127.0.0.1"); naive_solver.
Qed.

(** The program takes a name apart in this way, and in no other. *)
Lemma account_parts s name host :
  account s name host ↔
  (split_at_sign s).1 = name ∧ localhost_remove (split_at_sign s).2 = host.
Proof.
  split.
  - intros [n Hn|n h Hn Hh|n h Hn Hh].
    + by rewrite split_no_at.
    + rewrite split_at_host by done. split; [done | by apply remove_local].
    + rewrite split_at_host by done. split; [done | by apply remove_not_local].
  - intros [<- <-].
    assert (no_at s ∨ ∃ n h, s = n +:+ String "@" h ∧ no_at n) as [Hs|(n & h & -> & Hn)].
    { induction s as [|c s IH]; [left; constructor|].
      destruct (Ascii.eqb_spec c "@") as [->|Hc].
      - right. exists EmptyString, s. split; [done | constructor].
      - destruct IH as [Hs|(n & h & -> & Hn)]; [left; by constructor|].
        right. exists (String c n), h. split; [done | by constructor]. }
    + rewrite split_no_at by done. by constructor.
    + rewrite split_at_host by done. destruct (decide (h ∈ local_hosts)).
      * change (account (n +:+ String "@" h) n (localhost_remove (Some h))).
        rewrite remove_local by done. by constructor.
      * change (account (n +:+ String "@" h) n (localhost_remove (Some h))).
        rewrite remove_not_local by done. by constructor.
Qed.

Lemma username_match_grants user line :
  closed_rule line → ∃ b, username_match user line = Some b ∧ (b = true ↔ grants user line).
Proof.
  unfold closed_rule, grants, username_match. setoid_rewrite account_parts.
  destruct (String.eqb_spec user line) as [->|Hne].
  { exists true. split; [done|]. split; auto. }
  destruct (split_at_sign user) as [u uh], (split_at_sign line) as [p ph].
  cbn [fst snd]. intros (? & ? & [<- <-] & Hp & Hh).
  destruct (described_wildmat p u Hp) as (b & -> & Hb). cbn [mbind option_bind].
  set (Q := match localhost_remove uh, localhost_remove ph with
    | None, None => True | None, Some rule => rule = "*"
    | Some host, Some rule => described rule host | Some _, None => False end).
  assert (∀ b' : bool, (b' = true ↔ Q) →
    ∃ c, (if negb b then Some false else Some b') = Some c
      ∧ (c = true ↔ user = line ∨ ∃ name host names hosts,
           (u = name ∧ localhost_remove uh = host) ∧ (p = names ∧ localhost_remove ph = hosts) ∧
           described names name ∧
           match host, hosts with
           | None, None => True | None, Some rule => rule = "*"
           | Some host, Some rule => described rule host | Some _, None => False end)) as H.
  { intros b' HQ. exists (b && b'). split; [by destruct b|]. rewrite andb_true_iff, Hb, HQ. unfold Q.
    split; [intros [? ?]; right; by exists u, (localhost_remove uh), p, (localhost_remove ph)|].
    intros [?|(? & ? & ? & ? & [<- <-] & [<- <-] & ? & ?)]; [done | by split]. }
  destruct (localhost_remove uh) as [h|], (localhost_remove ph) as [r|].
  - destruct (described_wildmat r h Hh) as (b' & -> & Hb'). by apply H.
  - by apply H.
  - apply H. unfold Q. split; intros E; [by apply String.eqb_eq | by apply String.eqb_eq].
  - by apply H.
Qed.

(** * The theorem *)

Section acl.
Context `{AclConfig}.

Lemma some_line user lines s :
  Forall closed_rule (List.filter (λ l, negb (is_comment l)) lines) →
  ∃ b, some_line_matches user lines s = Done b s ∧
    (b = true ↔ Exists (grants user) (List.filter (λ l, negb (is_comment l)) lines)).
Proof.
  induction lines as [|line lines IH]; simpl.
  { exists false. split; [done|]. split; [done|]. by intros E%Exists_nil. }
  destruct (is_comment line); simpl; [exact IH|]. intros [Hl Hr]%Forall_cons.
  destruct (username_match_grants user line Hl) as (b & -> & Hb).
  setoid_rewrite Exists_cons. destruct b.
  - exists true. split; [done|]. naive_solver.
  - destruct (IH Hr) as (b & -> & Hb'). exists b. split; [done|]. rewrite Hb'. naive_solver.
Qed.

(** C36: user_acl_allows() lets in root, the users PPR runs as, and whomever a
    line of the list, comments aside, describes: the name by its pattern; a
    user of another host only by a rule whose host pattern describes that host.
    It ends for every file whose brackets are closed, and lets nobody else in
    when there is no file.  A pattern is read here by tokens of its own: stars,
    question marks, classes, and backslashes with octal, hexadecimal and control
    codes; a code above 0177 describes no character, since the program's are
    signed.  A user is local without a host, or at localhost or 127.0.0.1. *)
Theorem a_list_admits_whom_it_describes user acl fname s :
  ppr_fnamef "%s/%s.allow" [AS ACLDIR; AS acl] = Fname fname →
  let rules := List.filter (λ l, negb (is_comment l)) (file_lines (default EmptyString (s !! fname))) in
  Forall closed_rule rules →
  ∃ b, user_acl_allows user acl s = Done b s ∧
    (b = true ↔ user ∈ internal_list ∨ Exists (grants user) rules).
Proof.
  intros Hf rules Hr. unfold user_acl_allows.
  destruct (existsb (String.eqb user) internal_list) eqn:Hi.
  { exists true. split; [done|]. split; [|done]. intros _. left.
    apply existsb_exists in Hi as (x & Hx & ->%String.eqb_eq). by apply list_elem_of_In. }
  assert (user ∉ internal_list) as Hni.
  { intros Hx. apply not_true_iff_false in Hi. apply Hi, existsb_exists. exists user.
    split; [by apply list_elem_of_In | apply String.eqb_refl]. }
  rewrite Hf. unfold gets, mbind, M_bind. unfold rules in *. clear rules.
  destruct (s !! fname) as [text|]; simpl in *.
  - destruct (some_line user (file_lines text) s Hr) as (b & -> & Hb). exists b. split; [done|].
    rewrite Hb. naive_solver.
  - exists false. split; [done|]. split; [done|]. intros [?|E]; [done|]. by apply Exists_nil in E.
Qed.
End acl.

(** A user of another host is not let in by a rule that names no host. *)
Theorem remote_users_need_a_host user line name host names :
  account user name (Some host) → account line names None → user ≠ line →
  username_match user line ≠ Some true.
Proof.
  rewrite !account_parts. unfold username_match. intros [_ Hu] [_ Hl] Hne.
  destruct (String.eqb_spec user line) as [|_]; [done|].
  destruct (split_at_sign user) as [u uh], (split_at_sign line) as [p ph]. simpl in *.
  rewrite Hu, Hl. destruct (gu_wildmat u p) as [[]|]; done.
Qed.

(** * Witnesses *)

#[local] Instance sample_acl : AclConfig := {|
  acl_USER_PPR := "ppr"; acl_USER_PPRWWW := "pprwww"; ACLDIR := "/etc/ppr/acl" |}.

Definition sample_list : gmap string string :=
  {[ "/etc/ppr/acl/ppop.allow" :=
     "# operators" +:+ of_chars [chr 10] +:+ "op[0-9]" +:+ of_chars [chr 10] +:+ "*@*.lab" ]}.

Lemma a_list_admits_whom_it_describes_witness :
  ∃ b, user_acl_allows "jane@pc.lab" "ppop" sample_list = Done b sample_list ∧
    (b = true ↔ "jane@pc.lab" ∈ internal_list
      ∨ Exists (grants "jane@pc.lab") ["op[0-9]"; "*@*.lab"]).
Proof.
  apply (a_list_admits_whom_it_describes "jane@pc.lab" "ppop" "/etc/ppr/acl/ppop.allow").
  - vm_compute. reflexivity.
  - change (Forall closed_rule ["op[0-9]"; "*@*.lab"]). repeat apply Forall_cons_2; [..|apply Forall_nil_2].
    + exists "op[0-9]", None. split; [constructor; by repeat constructor | done].
    + exists "*", (Some "*.lab"). split; [|done]. apply (account_there "*" "*.lab"); [by repeat constructor|].
      by intros [|[|?%not_elem_of_nil]%elem_of_cons]%elem_of_cons.
Defined.

Lemma remote_users_need_a_host_witness : username_match "jane@pc.lab" "j*" ≠ Some true.
Proof.
  apply (remote_users_need_a_host _ _ "jane" "pc.lab" "j*"); [| |done].
  - apply (account_there "jane" "pc.lab"); [by repeat constructor|].
    by intros [|[|?%not_elem_of_nil]%elem_of_cons]%elem_of_cons.
  - constructor. by repeat constructor.
Defined.
