(* ===== verification/Tokens.v ===== *)
(** More of what C programs do with strings: gu_strsep() with any delimiters
    (src/libgu/gu_strsep.c), atoi(), strcspn() and the keyword macros of
    src/include/gu.h; the words of a comment (src/libppr/tokenize.c) and quoted
    names (src/libppr/quote.c). *)
From S2P Require Import Prelude.
From S2P Require Import Text.

Definition double_quote : ascii := chr 34.

(** strcspn(s, delims): what comes before the first of the delimiters. *)
Definition before (delim : ascii → bool) (s : string) : string := (span (λ c, negb (delim c)) s).1.

Definition from (delim : ascii → bool) (s : string) : string := (span (λ c, negb (delim c)) s).2.

(** The field, and where the next one begins. *)
Definition strsep (delim : ascii → bool) (p : option string) : option string * option string :=
  match p with
  | None => (None, None)
  | Some s =>
      let '(field, rest) := span (λ c, negb (delim c)) s in
      (Some field, match rest with EmptyString => None | String _ r => Some r end)
  end.

(** while((f = gu_strsep(&p, delims))), from the string on; a field takes a
    character or ends the loop. *)
Fixpoint fields (delim : ascii → bool) (fuel : nat) (s : string) : list string :=
  match fuel with
  | O => []
  | S n =>
      match strsep delim (Some s) with
      | (Some f, Some r) => f :: fields delim n r
      | (Some f, None) => [f]
      | (None, _) => []
      end
  end.

Definition fields_of (delim : ascii → bool) (s : string) : list string :=
  fields delim (S (String.length s)) s.

Definition atoi (s : string) : Z :=
  let value ds := digits_value 10 gu_ascii_digit_value (span gu_ascii_isdigit ds).1 in
  match drop_while gu_ascii_isspace s with
  | String "-" ds => - value ds
  | String "+" ds => value ds
  | ds => value ds
  end.

(** lmatchsp(a, b) *)
Definition lmatchsp (a b : string) : option string :=
  if String.prefix b a then
    let rest := str_drop (String.length b) a in
    match rest with
    | String c _ => if gu_ascii_isspace c then Some (drop_while is_blank rest) else None
    | EmptyString => None
    end
  else None.

(** * Comment lines broken into words (src/libppr/tokenize.c), and words written
    so that they are read back as they are (src/libppr/quote.c). *)

Definition MAX_TOKENIZED : Z := 512.
Definition MAX_TOKENS : nat := 20.

(** The size of tokenized_line[]. *)
Definition tokenized_line : Z := MAX_TOKENIZED + 2.

Definition backslash_char : ascii := chr 92.

(** The levels of PostScript and of Apple quotes. *)
Abbreviation quote_levels := (Z * Z)%type.

(** One word: the characters stored, and what is left of the line.  [first] says
    that it is the first one, which also ends behind a colon; [started] that
    a character of it has been stored, the last one [lastc]. *)
Fixpoint token_word (first started : bool) (lastc : ascii) (levels : quote_levels) (line : string)
    : string * string * quote_levels :=
  let '(qlevel, alevel) := levels in
  match line with
  | EmptyString => (EmptyString, line, levels)
  | String c line' =>
      let store levels :=
        if first && Ascii.eqb c ":" then (String c EmptyString, line', levels)
        else
          let '(word, rest, levels) := token_word first true c levels line' in
          (String c word, rest, levels) in
      let skip levels := token_word first started lastc levels line' in
      if (qlevel =? 0) && (alevel =? 0) && is_blank c then (EmptyString, line, levels)
      else if negb started && Ascii.eqb c "(" && negb (Ascii.eqb lastc backslash_char) then
        if qlevel + 1 =? 1 then skip (qlevel + 1, alevel) else store (qlevel + 1, alevel)
      else if negb (qlevel =? 0) && Ascii.eqb c ")" && negb (Ascii.eqb lastc backslash_char) then
        if qlevel - 1 =? 0 then skip (qlevel - 1, alevel) else store (qlevel - 1, alevel)
      else if (qlevel =? 0) && Ascii.eqb c double_quote then
        if negb started then skip (qlevel, alevel + 1)
        else if negb (alevel =? 0) then skip (qlevel, alevel - 1)
        else store levels
      else store levels
  end.

(** As many words as the array has room for. *)
Fixpoint token_words (room : nat) (first : bool) (levels : quote_levels) (line : string)
    : list string :=
  match room, line with
  | S room', String _ _ =>
      let '(word, rest, levels) := token_word first false (chr 0) levels line in
      word :: token_words room' false levels (drop_while is_blank rest)
  | _, _ => []
  end.

Definition tokenize {S} (line : string) (line_len : Z) : M S (list string) :=
  if MAX_TOKENIZED <? line_len then gu_Throw "tokenize(): line too long"
  else mret (token_words MAX_TOKENS true (0, 0) line).

(** char temp[256] *)
Definition quote (string : string) : Strings.String.string :=
  if existsb is_blank (chars string) || forallb gu_ascii_isdigit (chars string)
  then str_take 255 ("(" +:+ string +:+ ")")
  else string.

Example tokenize_comment :
  token_words MAX_TOKENS true (0, 0) "%%IncludeResource:procset (Adobe ps) 3.1 0"
  = ["%%IncludeResource:"; "procset"; "Adobe ps"; "3.1"; "0"].
Proof. reflexivity. Qed.
