(* ===== verification/ReadPpd.v ===== *)
(** Reading PPD files line by line, with the files they include
    (src/libppr/readppd.c). *)
From S2P Require Import Prelude.
From S2P Require Import Text.
From S2P Require Import Tokens.

Definition MAX_PPD_NEST : Z := 10.

Definition MAX_PPD_LINE : nat := 256.

(** The index of the PPD files and their directory (config.h), and the files
    that can be opened. *)
Class PpdConfig := {
  PPD_INDEX : string;
  PPDDIR : string;
  ppd_files : gmap string string;
}.

(** struct PPDOBJ: the open files, the innermost first, each with its name and
    what is still to be read from it.  The nesting level, which begins at -1, is
    their number less one. *)
Abbreviation PPDOBJ := (list (string * string)).

Definition nest (self : PPDOBJ) : Z := Z.of_nat (length self) - 1.

(** fgets(line, size, f) *)
Fixpoint fgets (size : nat) (text : string) : string * string :=
  match size, text with
  | S (S n), String c text' =>
      if code c =? 10 then (String c EmptyString, text')
      else let '(line, rest) := fgets (S n) text' in (String c line, rest)
  | _, _ => (EmptyString, text)
  end.

(** What is before the last slash. *)
Definition directory_of (path : string) : option string :=
  let '(base, dir) := span (λ c, negb (Ascii.eqb c "/")) (of_chars (rev (chars path))) in
  match dir with
  | EmptyString => None
  | String _ d => Some (of_chars (rev (chars d)))
  end.

(** ppdname[0] == '/' *)
Definition slash_first (ppdname : string) : bool := lmatch ppdname "/".

Section ppd.
Context `{PpdConfig}.

(** The file name in the index entry of a product. *)
Fixpoint search_index (ppdname : string) (lines : list string) : option string :=
  match lines with
  | [] => None
  | line :: lines' =>
      match gu_strsep_all ":" line with
      | f_description :: f_filename :: _ =>
          if String.eqb f_description ppdname then Some f_filename
          else search_index ppdname lines'
      | _ => search_index ppdname lines'
      end
  end.

Definition ppd_find_file {S} (ppdname : string) : M S string :=
  if slash_first ppdname then mret ppdname
  else
    match ppd_files !! PPD_INDEX with
    | None => gu_Throw "can't open the index"
    | Some index =>
        mret (default (PPDDIR +:+ "/" +:+ ppdname) (search_index ppdname (file_lines index)))
    end.

(** The name of the file to be opened inside the one that is open. *)
Definition ppd_path (self : PPDOBJ) (ppdname : string) : M PPDOBJ string :=
  match self with
  | [] => ppd_find_file ppdname
  | (including, _) :: _ =>
      if slash_first ppdname then mret ppdname
      else
        match directory_of including with
        | None => gu_Throw "ppdobj_open(): assertion failed"
        | Some dir => mret (dir +:+ "/" +:+ ppdname)
        end
  end.

Definition ppdobj_open (ppdname : string) : M PPDOBJ unit :=
  self ← gets id;
  if MAX_PPD_NEST <=? nest self + 1 then gu_Throw "PPD files nested too deeply"
  else
    fname ← ppd_path self ppdname;
    match ppd_files !! fname with
    | None => gu_Throw "can't open PPD file"
    | Some text => modify (cons (fname, text))
    end.

Definition ppdobj_new (ppdname : string) : M PPDOBJ unit :=
  modify (λ _, []);; ppdobj_open ppdname.

Definition ppdobj_free : M PPDOBJ unit := modify (λ _, []).

(** A line, a file that has ended, or a file to include is one turn. *)
Fixpoint ppdobj_readline (fuel : nat) : M PPDOBJ (option string) :=
  match fuel with
  | O => λ _, Stopped SFuel
  | S fuel' =>
      self ← gets id;
      match self with
      | [] => mret None
      | (fname, EmptyString) :: outer => modify (λ _, outer);; ppdobj_readline fuel'
      | (fname, text) :: outer =>
          let '(line, rest) := fgets (MAX_PPD_LINE + 2) text in
          modify (λ _, (fname, rest) :: outer);;
          let line := c_string line in
          if lmatch line "*%" then ppdobj_readline fuel'
          else
            match rtrim line with
            | EmptyString => ppdobj_readline fuel'
            | line =>
                match lmatchp line "*Include:" with
                | Some ptr =>
                    ppdobj_open (before (Ascii.eqb double_quote) (drop_while (Ascii.eqb double_quote) ptr));;
                    ppdobj_readline fuel'
                | None => mret (Some line)
                end
            end
      end
  end.

(** Line after line to the end. *)
Fixpoint ppd_lines (fuel : nat) : M PPDOBJ (list string) :=
  match fuel with
  | O => λ _, Stopped SFuel
  | S fuel' =>
      line ← ppdobj_readline fuel;
      match line with
      | None => mret []
      | Some line => lines ← ppd_lines fuel'; mret (line :: lines)
      end
  end.

(** ** Quoted strings *)

(** The lines of the string, put together; a quote at the end of one ends it. *)
Fixpoint quoted_lines (fuel : nat) (text p : string) : M PPDOBJ string :=
  match fuel with
  | O => λ _, Stopped SFuel
  | S fuel' =>
      let text := match text with EmptyString => text | _ => text +:+ of_chars [chr 10] end in
      let '(end_quote, p) :=
        match rev (chars p) with
        | c :: r => if Ascii.eqb c double_quote then (true, of_chars (rev r)) else (false, p)
        | [] => (false, p)
        end in
      let text := text +:+ p in
      if (end_quote : bool) then mret text
      else
        line ← ppdobj_readline fuel;
        match line with
        | None => mret text
        | Some line => quoted_lines fuel' text line
        end
  end.

Definition ppd_finish_quoted_string (fuel : nat) (initial_segment : string) : M PPDOBJ string :=
  quoted_lines fuel EmptyString initial_segment.
End ppd.

(** ** Quoted values *)

(** What the decoder takes a hexadecimal digit for; nothing for another character. *)
Definition hex_value (c : Z) : option Z :=
  if (48 <=? c) && (c <=? 57) then Some (c - 48)
  else if (97 <=? c) && (c <=? 102) then Some (c - (97 + 10))
  else if (65 <=? c) && (c <=? 70) then Some (c - (65 + 10))
  else None.

(** The buffer, with its NUL, and where the next character is stored. *)
Abbreviation Decoder := (list ascii * nat)%type.

(** p[i] *)
Definition fetch (i : nat) : M Decoder ascii := λ s,
  match s.1 !! i with
  | Some c => Done c s
  | None => Stopped (SUndef "p[si]")
  end.

(** p[di++] = c *)
Definition put (c : ascii) : M Decoder unit := λ s,
  if (s.2 <? length s.1)%nat then Done tt (<[s.2 := c]> s.1, S s.2)
  else Stopped (SUndef "p[di++]").

(** while((c = p[si]) && c != '>'): nothing in the loop moves si on. *)
Fixpoint hex_part (fuel si : nat) (count high_nibble : Z) : M Decoder unit :=
  match fuel with
  | O => λ _, Stopped SFuel
  | S fuel' =>
      ch ← fetch si;
      let c := schar ch in
      if (c =? 0) || Ascii.eqb ch ">" then mret tt
      else
        match hex_value c with
        | None => hex_part fuel' si count high_nibble
        | Some c =>
            if Z.rem count 2 =? 0 then hex_part fuel' si (count + 1) c
            else
              put (chr (u8 (high_nibble * 16 + c)));;
              hex_part fuel' si (count + 1) high_nibble
        end
  end.

Fixpoint decode_from (fuel len si : nat) : M Decoder unit :=
  match len with
  | O => mret tt
  | S len' =>
      c ← fetch si;
      if Ascii.eqb c "<" then
        hex_part fuel (S si) 0 0;;
        match len' with
        | O => mret tt
        | S len'' => decode_from fuel len'' (S (S si))
        end
      else put c;; decode_from fuel len' (S si)
  end.

(** The length of what is left, and the string it was edited to. *)
Definition ppd_decode_QuotedValue (fuel : nat) (p : string) : outcome Decoder (nat * string) :=
  match decode_from fuel (String.length p) 0 (chars p ++ [chr 0], O) with
  | Done _ (buf, di) => Done (di, of_chars (take di buf)) (buf, di)
  | Thrown e s => Thrown e s
  | Stopped r => Stopped r
  end.
