(* ===== verification/PropReadPpd.v ===== *)
(** PPD files are read to the end, whatever they include; values with
    hexadecimal parts are not. *)
From S2P Require Import Prelude.
From S2P Require Import Text.
From S2P Require Import TextFacts.
From S2P Require Import Tokens.
From S2P Require Import ReadPpd.

(** * The end of the reading *)

Lemma fgets_le size text : (String.length (fgets size text).2 <= String.length text)%nat.
Proof.
  revert text. induction size as [|[|n] IH]; intros [|c text]; try done. simpl.
  destruct (code c =? 10); simpl; [lia|]. specialize (IH text).
  destruct (fgets (S n) text). simpl in *. lia.
Qed.

Lemma fgets_rest n c text :
  (String.length (fgets (S (S n)) (String c text)).2 <= String.length text)%nat.
Proof.
  change (fgets (S (S n)) (String c text)) with
    (if code c =? 10 then (String c EmptyString, text)
     else let '(line, rest) := fgets (S n) text in (String c line, rest)).
  destruct (code c =? 10); [done|]. pose proof (fgets_le (S n) text).
  by destruct (fgets (S n) text).
Qed.

Lemma sizes_bounded (files : gmap string string) :
  ∃ N, ∀ name text, files !! name = Some text → (String.length text <= N)%nat.
Proof.
  induction files as [|name text files Hn [N IH]] using map_ind.
  { exists 0%nat. intros ? ?. by rewrite lookup_empty. }
  exists (Nat.max N (String.length text)). intros name' text'.
  destruct (decide (name = name')) as [<-|Hne].
  - rewrite lookup_insert_eq. intros [= ->]. lia.
  - rewrite lookup_insert_ne by done. intros Ht. specialize (IH _ _ Ht). lia.
Qed.

Section reading.
Context `{PpdConfig}.

(** What a character costs that stands in a file with so many levels above it:
    it may include a file there. *)
Fixpoint cost (N levels : nat) : nat :=
  match levels with
  | O => 1
  | S k => N * cost N k + 2
  end.

Fixpoint work (N : nat) (self : PPDOBJ) : nat :=
  match self with
  | [] => 0
  | (_, text) :: outer =>
      String.length text * cost N (10 - S (length outer)) + 1 + work N outer
  end.

Context (N : nat).
Hypothesis files_small : ∀ name text, ppd_files !! name = Some text → (String.length text <= N)%nat.

Lemma cost_pos k : (0 < cost N k)%nat.
Proof. destruct k; simpl; lia. Qed.

Lemma open_work ppdname self :
  match ppdobj_open ppdname self with
  | Done _ self' =>
      ∃ file, self' = file :: self ∧
        (length self < 10 ∧ String.length file.2 <= N)%nat
  | Thrown _ _ => True
  | Stopped _ => False
  end.
Proof.
  unfold ppdobj_open, gets, mbind, M_bind, id.
  destruct (Z.leb_spec MAX_PPD_NEST (nest self + 1)) as [|Hn]; [done|].
  assert (match ppd_path self ppdname self with
          | Done _ s => s = self | Thrown _ _ => True | Stopped _ => False end) as Hp.
  { unfold ppd_path, ppd_find_file. destruct self as [|[including ?] outer].
    - destruct (slash_first ppdname); [done|]. by destruct (ppd_files !! PPD_INDEX).
    - destruct (slash_first ppdname); [done|]. by destruct (directory_of including). }
  destruct (ppd_path self ppdname self) as [fname s| |]; [subst s|done|done].
  destruct (ppd_files !! fname) as [text|] eqn:Ef; [|done]. unfold modify.
  exists (fname, text). split; [done|]. unfold nest, MAX_PPD_NEST in Hn. split; [lia|].
  by eapply files_small.
Qed.

(** A turn leaves less work. *)
Lemma work_shorter fname text rest outer :
  (String.length rest < String.length text)%nat →
  (work N ((fname, rest) :: outer) < work N ((fname, text) :: outer))%nat.
Proof. cbn [work]. pose proof (cost_pos (10 - S (length outer))). nia. Qed.

Lemma work_include fname text rest outer file :
  (String.length rest < String.length text)%nat →
  (length ((fname, rest) :: outer) < 10)%nat → (String.length file.2 <= N)%nat →
  (work N (file :: (fname, rest) :: outer) < work N ((fname, text) :: outer))%nat.
Proof.
  destruct file as [n t]. cbn [length snd]. intros Hr Hl Ht. cbn [work length].
  generalize dependent (length outer). intros depth Hl.
  destruct (10 - S depth)%nat as [|k] eqn:Ek; [lia|].
  assert ((10 - S (S depth) = k)%nat) as -> by lia. cbn [cost].
  pose proof (Nat.mul_le_mono_r _ _ (cost N k) Ht) as H1.
  pose proof (Nat.mul_le_mono_r _ _ (N * cost N k + 2) Hr) as H2. lia.
Qed.

Definition settled (self : PPDOBJ) (o : outcome PPDOBJ (option string)) : Prop :=
  match o with
  | Done None self' => True
  | Done (Some _) self' => (work N self' < work N self)%nat
  | Thrown _ _ => True
  | Stopped _ => False
  end.

Lemma settled_weaken self self' o :
  (work N self' <= work N self)%nat → settled self' o → settled self o.
Proof. intros Hw. destruct o as [[] ?| |]; simpl; try done. lia. Qed.

Lemma readline_settles m self :
  (work N self < m)%nat →
  settled self (ppdobj_readline m self) ∧
  ∀ m', (m <= m')%nat → ppdobj_readline m' self = ppdobj_readline m self.
Proof.
  revert self. induction m as [|m IH]; intros self Hm; [lia|].
  assert (∀ self', (work N self' < work N self)%nat →
    settled self (ppdobj_readline m self') ∧
    ∀ m', (m <= m')%nat → ppdobj_readline m' self' = ppdobj_readline m self') as IH'.
  { intros self' Hw. destruct (IH self' ltac:(lia)) as [Hs Hd]. split; [|done].
    eapply settled_weaken; [|exact Hs]. lia. }
  clear IH. destruct self as [|[fname [|c text]] outer].
  - split; [done|]. intros [|m'] Hm'; [lia | done].
  - destruct (IH' outer) as [Hs Hd]; [simpl; lia|]. split; [exact Hs|].
    intros [|m'] Hm'; [lia|]. apply Hd. lia.
  - pose proof (fgets_rest 256 c text) as Hr.
    set (self := (fname, String c text) :: outer) in *.
    assert (∃ line rest, fgets (MAX_PPD_LINE + 2) (String c text) = (line, rest) ∧
      (String.length rest < String.length (String c text))%nat) as (line & rest & Ef & Hl).
    { change (MAX_PPD_LINE + 2)%nat with (S (S 256)). clear -Hr.
      destruct (fgets _ _) as [line rest]. exists line, rest. split; [done|]. simpl in *. lia. }
    destruct (IH' ((fname, rest) :: outer)) as [Hs Hd]; [by apply work_shorter|].
    assert (∀ k, ppdobj_readline (S k) self =
      (if lmatch (c_string line) "*%" then ppdobj_readline k ((fname, rest) :: outer)
       else match rtrim (c_string line) with
            | EmptyString => ppdobj_readline k ((fname, rest) :: outer)
            | String d l =>
                match lmatchp (String d l) "*Include:" with
                | Some ptr =>
                    (ppdobj_open (before (Ascii.eqb double_quote) (drop_while (Ascii.eqb double_quote) ptr));;
                     ppdobj_readline k) ((fname, rest) :: outer)
                | None => Done (Some (String d l)) ((fname, rest) :: outer)
                end
            end)) as Hstep.
    { intros k. cbn [ppdobj_readline]. unfold self, gets, modify, mbind, M_bind, id. rewrite Ef.
      destruct (lmatch _ _); [done|]. destruct (rtrim _) as [|d l]; [done|].
      cbv zeta. by destruct (lmatchp (String d l) _). }
    assert (∀ m', (S m <= m')%nat → ∃ k, m' = S k ∧ (m <= k)%nat) as Hsucc.
    { intros [|k] ?; [lia|]. exists k. split; [done | lia]. }
    split.
    + rewrite Hstep. destruct (lmatch _ _); [exact Hs|]. destruct (rtrim _) as [|d l]; [exact Hs|].
      destruct (lmatchp (String d l) _) as [ptr|]; [|by apply work_shorter].
      unfold mbind, M_bind. pose proof (open_work
        (before (Ascii.eqb double_quote) (drop_while (Ascii.eqb double_quote) ptr)) ((fname, rest) :: outer)) as Ho.
      destruct (ppdobj_open _ _) as [? self'| |]; [|done|done].
      destruct Ho as (file & -> & Hlen & Hf). apply IH'. by apply work_include.
    + intros m' (k & -> & Hk)%Hsucc. rewrite !Hstep.
      destruct (lmatch _ _); [by apply Hd|]. destruct (rtrim _) as [|d l]; [by apply Hd|].
      destruct (lmatchp (String d l) _) as [ptr|]; [|done].
      unfold mbind, M_bind. pose proof (open_work
        (before (Ascii.eqb double_quote) (drop_while (Ascii.eqb double_quote) ptr)) ((fname, rest) :: outer)) as Ho.
      destruct (ppdobj_open _ _) as [? self'| |]; [|done|done].
      destruct Ho as (file & -> & Hlen & Hf). apply IH'; [by apply work_include | done].
Qed.

Definition finished {A} (o : outcome PPDOBJ A) : Prop :=
  match o with Stopped _ => False | _ => True end.

Lemma lines_settle m self :
  (work N self < m)%nat →
  finished (ppd_lines m self) ∧ ∀ m', (m <= m')%nat → ppd_lines m' self = ppd_lines m self.
Proof.
  revert self. induction m as [|m IH]; intros self Hm; [lia|].
  destruct (readline_settles (S m) self Hm) as [Hs Hd].
  assert (∀ k, (m <= k)%nat → ppd_lines (S k) self =
    match ppdobj_readline (S m) self with
    | Done None s => Done [] s
    | Done (Some l) s =>
        match ppd_lines k s with
        | Done ls s' => Done (l :: ls) s'
        | Thrown e s' => Thrown e s'
        | Stopped r => Stopped r
        end
    | Thrown e s => Thrown e s
    | Stopped r => Stopped r
    end) as Hstep.
  { intros k Hk. cbn [ppd_lines]. unfold mbind, M_bind. rewrite (Hd (S k)) by lia.
    by destruct (ppdobj_readline (S m) self) as [[]| |]. }
  split.
  - rewrite Hstep by done. destruct (ppdobj_readline (S m) self) as [[l|] s| |]; try done.
    simpl in Hs. destruct (IH s ltac:(lia)) as [Hf _]. by destruct (ppd_lines m s).
  - intros [|k] Hk; [lia|]. rewrite !Hstep by lia.
    destruct (ppdobj_readline (S m) self) as [[l|] s| |]; try done.
    simpl in Hs. destruct (IH s ltac:(lia)) as [_ He]. by rewrite He by lia.
Qed.
End reading.

Section theorems.
Context `{PpdConfig}.

(** C35: The reading of a PPD file ends, whatever files it includes and in
    whatever circles: with the lines, or with an exception when a file is
    missing or ten levels are not enough. *)
Theorem ppd_files_are_read_to_the_end ppdname :
  ∃ fuel, finished ((ppdobj_new ppdname;; ppd_lines fuel) []) ∧
    ∀ more, (fuel <= more)%nat →
      (ppdobj_new ppdname;; ppd_lines more) [] = (ppdobj_new ppdname;; ppd_lines fuel) [].
Proof.
  destruct (sizes_bounded ppd_files) as [N HN].
  pose proof (open_work N HN ppdname []) as Ho.
  unfold ppdobj_new, modify, mbind, M_bind.
  destruct (ppdobj_open ppdname []) as [u self| |]; [|by exists 0%nat; split; [|by intros] | done].
  exists (S (work N self)). apply (lines_settle N HN). lia.
Qed.
End theorems.

(** * Hexadecimal parts *)

Definition plain (c : ascii) : Prop := Ascii.eqb c "<" = false.

Lemma fetch_at i c buf di :
  buf !! i = Some c → fetch i (buf, di) = Done c (buf, di).
Proof. intros E. unfold fetch. cbn [fst]. by rewrite E. Qed.

(** The copying of characters that stand for themselves changes nothing. *)
Lemma decode_plain fuel len pre s rest :
  Forall plain (chars s) → (String.length s <= len)%nat →
  decode_from fuel len (length pre) (pre ++ chars s ++ rest, length pre)
  = decode_from fuel (len - String.length s) (length pre + String.length s)
      (pre ++ chars s ++ rest, length pre + String.length s)%nat.
Proof.
  revert len pre. induction s as [|c s IH]; intros len pre Hs Hl.
  { simpl. by rewrite Nat.sub_0_r, Nat.add_0_r. }
  inversion Hs as [|? ? Hc Hs']; subst. simpl in Hl. destruct len as [|len]; [lia|].
  cbn [decode_from]. unfold mbind, M_bind.
  assert ((pre ++ chars (String c s) ++ rest) !! length pre = Some c) as Hat.
  { rewrite lookup_app_r by lia. by rewrite Nat.sub_diag. }
  rewrite (fetch_at _ _ _ _ Hat). unfold plain in Hc. rewrite Hc. unfold put. cbn [fst snd].
  assert ((length pre <? length (pre ++ chars (String c s) ++ rest))%nat = true) as ->.
  { apply Nat.ltb_lt. rewrite !length_app. simpl. lia. }
  rewrite list_insert_id by done. specialize (IH len (pre ++ [c]) Hs' ltac:(lia)).
  rewrite length_app in IH. cbn [length] in IH.
  rewrite <- app_assoc in IH. cbn [app] in IH.
  change (pre ++ c :: chars s ++ rest) with (pre ++ chars (String c s) ++ rest) in IH.
  rewrite Nat.add_1_r in IH. rewrite IH. cbn [String.length].
  by rewrite <- Nat.add_succ_comm, Nat.sub_succ.
Qed.

(** Where the loop hangs: at a character that is no digit, or at a digit while
    the characters are stored behind it. *)
Inductive hangs (buf : list ascii) (si di : nat) (count high : Z) : Prop :=
| hangs_here c :
    buf !! si = Some c → (schar c =? 0) = false → Ascii.eqb c ">" = false →
    (hex_value (schar c) = None ∨ (si < di)%nat) → hangs buf si di count high.

Definition returned {A} (o : outcome Decoder A) : bool :=
  match o with Done _ _ => true | _ => false end.

Lemma hangs_forever fuel si count high buf di :
  hangs buf si di count high → returned (hex_part fuel si count high (buf, di)) = false.
Proof.
  revert count high buf di. induction fuel as [|fuel IH]; intros count high buf di [c Hc H0 Hgt Hd];
    [done|]. cbn [hex_part]. unfold mbind, M_bind. rewrite (fetch_at _ _ _ _ Hc), H0, Hgt.
  cbn [orb]. destruct (hex_value (schar c)) as [v|] eqn:Hv.
  - destruct Hd as [|Hd]; [done|]. destruct (Z.rem count 2 =? 0).
    + apply IH. econstructor; eauto.
    + unfold put. cbn [fst snd]. destruct (_ <? _)%nat; [|done]. apply IH.
      econstructor; eauto. by rewrite list_lookup_insert_ne by lia.
  - apply IH. econstructor; eauto.
Qed.

(** The character two equal digits make is neither the end of the part nor that
    of the string, except for two zeros. *)
Lemma digit_pair c v :
  hex_value (schar c) = Some v → c ≠ "0"%char →
  (schar (chr (u8 (v * 16 + v))) =? 0) = false ∧ Ascii.eqb (chr (u8 (v * 16 + v))) ">" = false.
Proof.
  intros Hv Hc. destruct c as [[] [] [] [] [] [] [] []]; vm_compute in Hv; try discriminate;
    injection Hv as <-; try (by destruct Hc); by vm_compute.
Qed.

Section digit.
Context (si : nat) (c : ascii) (v : Z).
Hypothesis not_nul : (schar c =? 0) = false.
Hypothesis not_end : Ascii.eqb c ">" = false.
Hypothesis digit : hex_value (schar c) = Some v.

Lemma first_digit k count high buf di :
  buf !! si = Some c → (Z.rem count 2 =? 0) = true →
  hex_part (S k) si count high (buf, di) = hex_part k si (count + 1) v (buf, di).
Proof.
  intros Hc Hr. cbn [hex_part]. unfold mbind, M_bind.
  rewrite (fetch_at _ _ _ _ Hc), not_nul, not_end. cbn [orb]. by rewrite digit, Hr.
Qed.

Lemma second_digit k count high buf di :
  buf !! si = Some c → (Z.rem count 2 =? 0) = false → (di < length buf)%nat →
  hex_part (S k) si count high (buf, di)
  = hex_part k si (count + 1) high (<[di := chr (u8 (high * 16 + v))]> buf, S di).
Proof.
  intros Hc Hr Hd. cbn [hex_part]. unfold mbind, M_bind.
  rewrite (fetch_at _ _ _ _ Hc), not_nul, not_end. cbn [orb]. rewrite digit, Hr.
  unfold put. cbn [fst snd]. apply Nat.ltb_lt in Hd. by rewrite Hd.
Qed.
End digit.

Lemma hex_part_hangs fuel si c buf :
  buf !! si = Some c → c ≠ ">"%char → c ≠ "0"%char → c ≠ chr 0 → (0 < si)%nat →
  returned (hex_part fuel si 0 0 (buf, si - 1)%nat) = false.
Proof.
  intros Hc Hgt Hz Hn Hsi.
  assert ((schar c =? 0) = false) as H0.
  { destruct c as [[] [] [] [] [] [] [] []]; done. }
  assert (Ascii.eqb c ">" = false) as Hgt' by by apply Ascii.eqb_neq.
  destruct (hex_value (schar c)) as [v|] eqn:Hv.
  2: { apply hangs_forever. econstructor; eauto. }
  destruct (digit_pair c v Hv Hz) as [Hp0 Hpgt].
  assert (si < length buf)%nat as Hlt by by eapply lookup_lt_Some.
  destruct fuel as [|fuel]; [done|]. rewrite (first_digit si c v H0 Hgt' Hv) by done.
  destruct fuel as [|fuel]; [done|]. rewrite (second_digit si c v H0 Hgt' Hv) by (done || lia).
  replace (S (si - 1)) with si by lia.
  assert (<[(si - 1)%nat := chr (u8 (v * 16 + v))]> buf !! si = Some c) as Hc'.
  { by rewrite list_lookup_insert_ne by lia. }
  destruct fuel as [|fuel]; [done|]. rewrite (first_digit si c v H0 Hgt' Hv) by done.
  destruct fuel as [|fuel]; [done|].
  rewrite (second_digit si c v H0 Hgt' Hv) by (done || by rewrite length_insert).
  apply hangs_forever. econstructor; [|exact Hp0 | exact Hpgt | right; lia].
  rewrite list_lookup_insert_eq; [done | by rewrite length_insert].
Qed.

Lemma length_chars s : length (chars s) = String.length s.
Proof. induction s as [|c s IH]; [done|]. simpl. by rewrite IH. Qed.

(** A value without hexadecimal parts is decoded to itself.  With one, the
    decoder never returns: unless the part is empty or begins with a zero, it
    loops for ever or writes behind the string. *)
Theorem hexadecimal_parts_are_never_decoded a c b fuel :
  Forall plain (chars a) →
  (∃ s, ppd_decode_QuotedValue fuel a = Done (String.length a, a) s) ∧
  (c ≠ ">"%char → c ≠ "0"%char → c ≠ chr 0 →
   returned (ppd_decode_QuotedValue fuel (a +:+ "<" +:+ String c b)) = false).
Proof.
  intros Ha. unfold ppd_decode_QuotedValue. split.
  - pose proof (decode_plain fuel (String.length a) [] a [chr 0] Ha ltac:(done)) as E.
    cbn [app length] in E. rewrite E, Nat.sub_diag. cbn [decode_from mret M_ret].
    eexists. f_equal. f_equal. rewrite take_app_length'; [apply of_chars_chars|].
    by rewrite length_chars.
  - intros Hgt Hz Hn. rewrite chars_app, <- app_assoc.
    pose proof (decode_plain fuel (String.length (a +:+ "<" +:+ String c b)) [] a
      (chars ("<" +:+ String c b) ++ [chr 0]) Ha) as E.
    rewrite length_app_str in E |- *. specialize (E ltac:(lia)).
    cbn [app length] in E. rewrite E, Nat.add_sub_swap, Nat.sub_diag by lia.
    rewrite !Nat.add_0_l. change (String.length ("<" +:+ String c b)) with (S (S (String.length b))).
    cbn [decode_from]. unfold mbind, M_bind.
    set (buf := chars a ++ _).
    assert (∀ k, buf !! (String.length a + k)%nat = (chars ("<" +:+ String c b) ++ [chr 0]) !! k) as Hb.
    { intros k. unfold buf. rewrite lookup_app_r by (rewrite length_chars; lia).
      f_equal. rewrite length_chars. lia. }
    rewrite (fetch_at _ "<"%char) by (rewrite <- (Nat.add_0_r (String.length a)); by rewrite Hb).
    assert (Ascii.eqb "<" "<" = true) as -> by done.
    pose proof (hex_part_hangs fuel (S (String.length a)) c buf) as Hh.
    rewrite Nat.sub_succ, Nat.sub_0_r in Hh.
    assert (buf !! S (String.length a) = Some c) as Hc.
    { rewrite <- Nat.add_1_r. by rewrite Hb. }
    specialize (Hh Hc Hgt Hz Hn ltac:(lia)).
    cbv beta iota.
    by destruct (hex_part fuel (S (String.length a)) 0 0 (buf, String.length a)).
Qed.

(** * Witnesses *)

Lemma hexadecimal_parts_are_never_decoded_witness :
  (∃ s, ppd_decode_QuotedValue 9 "LaserJet" = Done (8%nat, "LaserJet") s) ∧
  returned (ppd_decode_QuotedValue 9 "LaserJet<41>") = false.
Proof.
  destruct (hexadecimal_parts_are_never_decoded "LaserJet" "4" "1>" 9) as [H1 H2].
  - repeat constructor.
  - split; [exact H1 | by apply H2].
Defined.
