(* ===== verification/Ppd.v ===== *)
(** What pprdrv learns from the PPD file of its printer
    (src/pprdrv/pprdrv_ppd.c, the part up to read_PPD_file()): features, fonts,
    paper sizes, and how to find them again. *)
From S2P Require Import Prelude.
From S2P Require Import Text.
From S2P Require Import Spooler.
From S2P Require Import Tokens.
From S2P Require Import ReadPpd.

(** * Constants (pprdrv.h, global_defines.h, interface.h) *)

Definition PPD_TABSIZE : Z := 128.
Definition FONT_TABSIZE : Z := 64.
Definition MAX_PPDNAME : nat := 50.
Definition MAX_PPDTEXT : Z := 8192.
Definition MAX_PAPERSIZES : Z := 100.

Definition EXTENSION_DPS : Z := 1.
Definition EXTENSION_CMYK : Z := 2.
Definition EXTENSION_Composite : Z := 4.
Definition EXTENSION_FileSystem : Z := 8.

Definition FAXSUPPORT_NONE : Z := 0.
Definition FAXSUPPORT_Base : Z := 1.

Definition TT_UNKNOWN : Z := 0.
Definition TT_NONE : Z := 1.
Definition TT_ACCEPT68K : Z := 2.
Definition TT_TYPE42 : Z := 3.

(** * Data *)

(** struct FEATURES *)
Record FEATURES := mkFeatures {
  f_ColorDevice : bool;
  f_Extensions : Z;
  f_FaxSupport : Z;
  f_FileSystem : bool;
  f_LanguageLevel : Z;
  f_TTRasterizer : Z;
}.

Record PAPERSIZE := mkPaper {
  ps_name : string;
  ps_width : scanval;
  ps_height : scanval;
  ps_lm : scanval;
  ps_tm : scanval;
  ps_rm : scanval;
  ps_bm : scanval;
}.

(** printer.RIP: its name, the language it makes, its options. *)
Record RIP := mkRIP {
  rip_name : string;
  rip_output_language : string;
  rip_options : option string;
}.

(** The tables, the lexer, and what the file says of the printer.  A bucket of
    strings begins with the entry made first, one of fonts with the last. *)
Record ppd := mkPpd {
  d_reader : PPDOBJ;
  d_ppdstr : list (list (string * string));
  d_ppdfont : list (list string);
  d_ppdname : string;
  d_ppdtext : string;
  d_instring : bool;
  d_Features : FEATURES;
  d_papersize : list PAPERSIZE;
  d_papersizex : nat;
  d_TBCP : bool;
  d_PJL : bool;
  d_OutputOrder : Z;
  d_RIP : option RIP;
  d_cups_raster_filter : option string;
  d_cups_postscript_filter : option string;
  d_errors : list string;
}.

Definition eta_FEATURES (r : FEATURES) : FEATURES :=
  mkFeatures (f_ColorDevice r) (f_Extensions r) (f_FaxSupport r) (f_FileSystem r)
    (f_LanguageLevel r) (f_TTRasterizer r).

Definition set_f_ColorDevice : bool → FEATURES → FEATURES := ltac:(setter eta_FEATURES f_ColorDevice).
Definition set_f_Extensions : Z → FEATURES → FEATURES := ltac:(setter eta_FEATURES f_Extensions).
Definition set_f_FaxSupport : Z → FEATURES → FEATURES := ltac:(setter eta_FEATURES f_FaxSupport).
Definition set_f_FileSystem : bool → FEATURES → FEATURES := ltac:(setter eta_FEATURES f_FileSystem).
Definition set_f_LanguageLevel : Z → FEATURES → FEATURES := ltac:(setter eta_FEATURES f_LanguageLevel).
Definition set_f_TTRasterizer : Z → FEATURES → FEATURES := ltac:(setter eta_FEATURES f_TTRasterizer).

Definition eta_ppd (r : ppd) : ppd :=
  mkPpd (d_reader r) (d_ppdstr r) (d_ppdfont r) (d_ppdname r) (d_ppdtext r) (d_instring r)
    (d_Features r) (d_papersize r) (d_papersizex r) (d_TBCP r) (d_PJL r) (d_OutputOrder r)
    (d_RIP r) (d_cups_raster_filter r) (d_cups_postscript_filter r) (d_errors r).

Definition set_d_reader : PPDOBJ → ppd → ppd := ltac:(setter eta_ppd d_reader).
Definition set_d_ppdstr : list (list (string * string)) → ppd → ppd := ltac:(setter eta_ppd d_ppdstr).
Definition set_d_ppdfont : list (list string) → ppd → ppd := ltac:(setter eta_ppd d_ppdfont).
Definition set_d_ppdname : string → ppd → ppd := ltac:(setter eta_ppd d_ppdname).
Definition set_d_ppdtext : string → ppd → ppd := ltac:(setter eta_ppd d_ppdtext).
Definition set_d_instring : bool → ppd → ppd := ltac:(setter eta_ppd d_instring).
Definition set_d_Features : FEATURES → ppd → ppd := ltac:(setter eta_ppd d_Features).
Definition set_d_papersize : list PAPERSIZE → ppd → ppd := ltac:(setter eta_ppd d_papersize).
Definition set_d_papersizex : nat → ppd → ppd := ltac:(setter eta_ppd d_papersizex).
Definition set_d_TBCP : bool → ppd → ppd := ltac:(setter eta_ppd d_TBCP).
Definition set_d_PJL : bool → ppd → ppd := ltac:(setter eta_ppd d_PJL).
Definition set_d_OutputOrder : Z → ppd → ppd := ltac:(setter eta_ppd d_OutputOrder).
Definition set_d_RIP : option RIP → ppd → ppd := ltac:(setter eta_ppd d_RIP).
Definition set_d_cups_raster_filter : option string → ppd → ppd :=
  ltac:(setter eta_ppd d_cups_raster_filter).
Definition set_d_cups_postscript_filter : option string → ppd → ppd :=
  ltac:(setter eta_ppd d_cups_postscript_filter).
Definition set_d_errors : list string → ppd → ppd := ltac:(setter eta_ppd d_errors).

Abbreviation D := (M ppd).

Definition upd {A} (f : ppd → A) (set : A → ppd → ppd) (g : A → A) : D unit :=
  modify (λ s, set (g (f s)) s).

Definition upd_Features (g : FEATURES → FEATURES) : D unit := upd d_Features set_d_Features g.

(** error(): a line of the log, here its fixed part. *)
Definition ppd_error (msg : string) : D unit := upd d_errors set_d_errors (λ l, l ++ [msg]).

(** * The hash functions *)

(** The arithmetic of unsigned ints, of characters that are signed. *)
Fixpoint hash_on (n : Z) (s : string) : Z :=
  match s with
  | EmptyString => n
  | String c s' => hash_on (u32 (32 * n + schar c)) s'
  end.

Definition hash (s : string) (tabsize : Z) : nat := Z.to_nat (hash_on 0 s mod tabsize).

Definition hash2 (s1 : string) (s2 : option string) (tabsize : Z) : nat :=
  let n := hash_on 0 s1 in
  Z.to_nat
    (match s2 with
     | None => n
     | Some EmptyString => n
     | Some s2 => hash_on (u32 (32 * n + 32)) s2
     end mod tabsize).

(** * The callbacks of the lexer *)

(** The name up to a slash or a colon, runs of spaces made one; [x] characters
    are stored already. *)
Fixpoint clean_name (room : nat) (name : string) : string :=
  match room, name with
  | S n, String c name' =>
      if Ascii.eqb c "/" || Ascii.eqb c ":" then EmptyString
      else if Ascii.eqb c " " then
        match name' with
        | String " " _ => clean_name room name'
        | _ => String c (clean_name n name')
        end
      else String c (clean_name n name')
  | _, _ => EmptyString
  end.

Definition ppd_callback_new_string (name : string) : D unit :=
  modify (set_d_ppdname (clean_name MAX_PPDNAME name));;
  modify (set_d_ppdtext EmptyString);;
  modify (set_d_instring true).

Definition ppd_callback_string_line (string : string) : D unit :=
  text ← gets d_ppdtext;
  let tindex := strlen text in
  let text := if negb (tindex =? 0) && negb (tindex =? MAX_PPDTEXT)
              then text +:+ of_chars [chr 10] else text in
  if MAX_PPDTEXT - strlen text <? strlen string + 1
  then fatal EXIT_PRNERR_NORETRY "ppd_callback_string_line(): text too long"
  else modify (set_d_ppdtext (text +:+ string)).

Definition ppd_callback_end_string : D unit :=
  name ← gets d_ppdname;
  text ← gets d_ppdtext;
  upd d_ppdstr set_d_ppdstr (alter (λ b, b ++ [(name, text)]) (hash name PPD_TABSIZE));;
  modify (set_d_instring false).

Definition zero_float : scanval := VDec 1 0 EmptyString.

Fixpoint find_papersize (name : string) (l : list PAPERSIZE) : nat :=
  match l with
  | [] => O
  | p :: l' => if String.eqb (ps_name p) name then O else S (find_papersize name l')
  end.

(** char name[32] *)
Definition ppd_callback_papersize_moveto (nameline : string) : D unit :=
  let ptr := drop_while is_blank (from is_blank nameline) in
  let name := str_take 31 (before (λ c, is_blank c || Ascii.eqb c ":" || Ascii.eqb c "/") ptr) in
  sizes ← gets d_papersize;
  let x := find_papersize name sizes in
  modify (set_d_papersizex x);;
  when (x =? length sizes)%nat
    (if MAX_PAPERSIZES <=? Z.of_nat x then fatal EXIT_PRNERR_NORETRY "pprdrv: MAX_PAPERSIZES is not large enough"
     else upd d_papersize set_d_papersize (λ l, l ++
       [mkPaper name zero_float zero_float zero_float zero_float zero_float zero_float])).

(** * The lines *)

(** Up to the colon, and what comes after the character behind it, which gives
    its place to a NUL. *)
Definition statement (line : string) : option (string * string) :=
  let p := from (Ascii.eqb ":") line in
  if strlen p <=? 1 then None
  else Some (before (Ascii.eqb ":") line +:+ ":", str_drop 2 p).

Definition is_tab (c : ascii) : bool := Ascii.eqb c (chr 9).

Definition quoted (p : string) : string :=
  before (Ascii.eqb double_quote) (drop_while (Ascii.eqb double_quote) (drop_while is_blank p)).

(** The values gu_sscanf() stored, the rest as it was. *)
Definition store_floats (stores : list (scanval → PAPERSIZE → PAPERSIZE)) (p : string) : D unit :=
  let format := match length stores with 2%nat => "%lf %lf" | _ => "%lf %lf %lf %lf" end in
  match gu_sscanf p format [] with
  | Scanned _ vals =>
      x ← gets d_papersizex;
      upd d_papersize set_d_papersize (alter (λ size,
        foldl (λ size '(set, v), set v size) size (zip stores vals)) x)
  | ScanThrow msg => gu_Throw msg
  | ScanUndef => undef "signed overflow"
  end.

Definition size_line (stores : list (scanval → PAPERSIZE → PAPERSIZE)) (line : string) : D unit :=
  match statement line with
  | None => mret tt
  | Some (nameline, p) =>
      ppd_callback_papersize_moveto nameline;;
      ppd_callback_new_string nameline;;
      store_floats stores (quoted p);;
      ppd_callback_string_line (quoted p);;
      ppd_callback_end_string
  end.

Definition margins : list (scanval → PAPERSIZE → PAPERSIZE) :=
  [λ v p, mkPaper (ps_name p) (ps_width p) (ps_height p) v (ps_tm p) (ps_rm p) (ps_bm p);
   λ v p, mkPaper (ps_name p) (ps_width p) (ps_height p) (ps_lm p) v (ps_rm p) (ps_bm p);
   λ v p, mkPaper (ps_name p) (ps_width p) (ps_height p) (ps_lm p) (ps_tm p) v (ps_bm p);
   λ v p, mkPaper (ps_name p) (ps_width p) (ps_height p) (ps_lm p) (ps_tm p) (ps_rm p) v].

Definition dimensions : list (scanval → PAPERSIZE → PAPERSIZE) :=
  [λ v p, mkPaper (ps_name p) v (ps_height p) (ps_lm p) (ps_tm p) (ps_rm p) (ps_bm p);
   λ v p, mkPaper (ps_name p) (ps_width p) v (ps_lm p) (ps_tm p) (ps_rm p) (ps_bm p)].

(** The fields must be there, the second of digits only; the third may have
    spaces. *)
Definition cupsFilter_line (p : string) : D unit :=
  match p with
  | String q p =>
      if Ascii.eqb q double_quote then
        match strsep is_blank (Some (before (Ascii.eqb double_quote) p)) with
        | (Some f1, rest) =>
            match strsep is_blank rest with
            | (Some f2, rest) =>
                if forallb gu_ascii_isdigit (chars f2) then
                  match strsep is_tab rest with
                  | (Some f3, _) =>
                      raster ← gets d_cups_raster_filter;
                      postscript ← gets d_cups_postscript_filter;
                      if bool_decide (raster = None) && String.eqb f1 "application/vnd.cups-raster"
                      then modify (set_d_cups_raster_filter (Some f3))
                      else
                        when (bool_decide (postscript = None)
                              && String.eqb f1 "application/vnd.cups-postscript")
                          (modify (set_d_cups_postscript_filter (Some f3)))
                  | (None, _) => mret tt
                  end
                else mret tt
            | (None, _) => mret tt
            end
        | (None, _) => mret tt
        end
      else mret tt
  | EmptyString => mret tt
  end.

(** while((p2 = gu_strsep(&p, " \t"))) *)
Fixpoint for_words (words : list string) (body : string → D unit) : D unit :=
  match words with
  | [] => mret tt
  | w :: words' => body w;; for_words words' body
  end.

Definition for_fields (p : string) (body : string → D unit) : D unit :=
  for_words (fields_of is_blank p) body.

Definition extension (p2 : string) : D unit :=
  let add e := upd_Features (λ f, set_f_Extensions (Z.lor (f_Extensions f) e) f) in
  if String.eqb p2 "DPS" then add EXTENSION_DPS
  else if String.eqb p2 "CMYK" then add EXTENSION_CMYK
  else if String.eqb p2 "Composite" then add EXTENSION_Composite
  else if String.eqb p2 "FileSystem" then add EXTENSION_FileSystem
  else ppd_error "Unrecognized *Extensions:".

Definition fax_support (p2 : string) : D unit :=
  if String.eqb p2 "Base"
  then upd_Features (λ f, set_f_FaxSupport (Z.lor (f_FaxSupport f) FAXSUPPORT_Base) f)
  else ppd_error "Unrecognized *FaxSupport:".

Definition rasterizer (p2 : string) : D unit :=
  if String.eqb p2 "None" then upd_Features (set_f_TTRasterizer TT_NONE)
  else if String.eqb p2 "Accept68K" then upd_Features (set_f_TTRasterizer TT_ACCEPT68K)
  else if String.eqb p2 "Type42" then upd_Features (set_f_TTRasterizer TT_TYPE42)
  else ppd_error "Unrecognized *TTRasterozer:".

Definition protocol (p2 : string) : D unit :=
  if String.eqb p2 "TBCP" then modify (set_d_TBCP true)
  else if String.eqb p2 "PJL" then modify (set_d_PJL true)
  else ppd_error "Unrecognized *Protocols:".

Definition color_line (p : string) : D unit :=
  match gu_torf_setBOOL p with
  | Some b => upd_Features (set_f_ColorDevice b)
  | None => ppd_error "Invalid *ColorDevice:"
  end.

Definition output_order (p : string) : D unit :=
  if String.eqb p "Normal" then modify (set_d_OutputOrder 1)
  else if String.eqb p "Reverse" then modify (set_d_OutputOrder (-1))
  else ppd_error "Unrecognized *DefaultOutputOrder:".

Definition file_system (p : string) : D unit :=
  if String.eqb p "True" then upd_Features (set_f_FileSystem true)
  else if String.eqb p "False" then upd_Features (set_f_FileSystem false)
  else ppd_error "Unrecognized *FileSystem:".

Definition font_line (p : string) : D unit :=
  let name := before (Ascii.eqb ":") p in
  upd d_ppdfont set_d_ppdfont (alter (cons name) (hash name FONT_TABSIZE)).

Definition level_line (line p : string) : D unit :=
  match p with
  | String q p =>
      if Ascii.eqb q double_quote then
        let p := before (Ascii.eqb double_quote) p in
        upd_Features (set_f_LanguageLevel (atoi p));;
        ppd_callback_new_string (before (Ascii.eqb ":") line);;
        ppd_callback_string_line p;;
        ppd_callback_end_string
      else ppd_error "Invalid *LanguageLevel:"
  | EmptyString => ppd_error "Invalid *LanguageLevel:"
  end.

Definition rip_line (p : string) : D unit :=
  rip ← gets d_RIP;
  match rip with
  | Some _ => mret tt
  | None =>
      match strsep is_blank (Some p) with
      | (Some name, rest) =>
          match strsep is_blank rest with
          | (Some language, rest) =>
              if existsb (Ascii.eqb "/") (chars name)
              then fatal EXIT_PRNERR_NORETRY "Slashes are not allowed in RIP names"
              else modify (set_d_RIP (Some (mkRIP name language rest)))
          | (None, _) => fatal EXIT_PRNERR_NORETRY "Can't parse RIP information in PPD file."
          end
      | (None, _) => fatal EXIT_PRNERR_NORETRY "Can't parse RIP information in PPD file."
      end
  end.

(** The keywords the program knows, by the second character of the line, and
    what it does at each; the others are stored, if they have a quoted value. *)
Definition keyword_line (line : string) : option (D unit) :=
  let on key (act : string → D unit) (otherwise : option (D unit)) :=
    match lmatchp line key with Some p => Some (act p) | None => otherwise end in
  let on_spaced key (act : string → D unit) (otherwise : option (D unit)) :=
    match lmatchsp line key with Some p => Some (act p) | None => otherwise end in
  let skip (_ : string) : D unit := mret tt in
  match line with
  | String _ (String c _) =>
      if Ascii.eqb c "%" then Some (mret tt)
      else if Ascii.eqb c "c" then on "*cupsFilter:" cupsFilter_line None
      else if Ascii.eqb c "C" then on "*ColorDevice:" color_line None
      else if Ascii.eqb c "D" then on "*DefaultOutputOrder:" output_order None
      else if Ascii.eqb c "E" then on "*Extensions:" (λ p, for_fields p extension) None
      else if Ascii.eqb c "F" then
        on "*FaxSupport:" (λ p, for_fields p fax_support)
          (on "*FileSystem:" file_system (on_spaced "*Font" font_line None))
      else if Ascii.eqb c "I" then
        on_spaced "*ImageableArea" (λ _, size_line margins line) None
      else if Ascii.eqb c "L" then on "*LanguageLevel:" (level_line line) None
      else if Ascii.eqb c "M" then on "*Message:" skip None
      else if Ascii.eqb c "O" then on "*OrderDependency:" skip None
      else if Ascii.eqb c "P" then
        on_spaced "*PaperDimension" (λ _, size_line dimensions line)
          (on "*Protocols:" (λ p, for_fields p protocol) (on "*PrinterError:" skip None))
      else if Ascii.eqb c "p" then on "*pprRIP:" rip_line None
      else if Ascii.eqb c "S" then on "*Source:" skip (on "*Status:" skip None)
      else if Ascii.eqb c "T" then on "*TTRasterizer:" (λ p, for_fields p rasterizer) None
      else None
  | _ => None
  end.

(** A value may go on in the following lines. *)
Definition other_line (line : string) : D unit :=
  match statement line with
  | None => mret tt
  | Some (nameline, p) =>
      match drop_while is_blank p with
      | String q p =>
          when (Ascii.eqb q double_quote)
            (ppd_callback_new_string nameline;;
             ppd_callback_string_line (before (Ascii.eqb double_quote) p);;
             when (existsb (Ascii.eqb double_quote) (chars p)) ppd_callback_end_string)
      | EmptyString => mret tt
      end
  end.

Definition string_line (line : string) : D unit :=
  let text := before (Ascii.eqb double_quote) line in
  when (negb (String.eqb text EmptyString)) (ppd_callback_string_line text);;
  when (existsb (Ascii.eqb double_quote) (chars line)) ppd_callback_end_string.

Definition ppd_line (line : string) : D unit :=
  instring ← gets d_instring;
  if (instring : bool) then string_line line
  else
    match line with
    | String "*" _ =>
        match keyword_line line with
        | Some act => act
        | None => other_line line
        end
    | _ => mret tt
    end.

(** * read_PPD_file() *)

Section read.
Context `{PpdConfig}.

Definition on_reader {A} (m : M PPDOBJ A) : D A := λ s,
  match m (d_reader s) with
  | Done a r => Done a (set_d_reader r s)
  | Thrown e r => Thrown e (set_d_reader r s)
  | Stopped r => Stopped r
  end.

Fixpoint read_lines (fuel : nat) : D unit :=
  match fuel with
  | O => λ _, Stopped SFuel
  | S fuel' =>
      line ← on_reader (ppdobj_readline fuel);
      match line with
      | None => mret tt
      | Some line => ppd_line line;; read_lines fuel'
      end
  end.

Definition no_features : FEATURES := mkFeatures false 0 FAXSUPPORT_NONE false 1 TT_UNKNOWN.

Definition defaults (s : ppd) : ppd :=
  set_d_Features no_features (set_d_TBCP false (set_d_PJL false
    (set_d_ppdstr (replicate (Z.to_nat PPD_TABSIZE) [])
      (set_d_ppdfont (replicate (Z.to_nat FONT_TABSIZE) []) s)))).

(** CUPS filters stand in for a RIP. *)
Definition choose_rip : D unit :=
  s ← gets id;
  match d_RIP s with
  | Some _ => mret tt
  | None =>
      match d_cups_raster_filter s, d_cups_postscript_filter s with
      | Some raster, _ => modify (set_d_RIP (Some (mkRIP "ppr-gs" "PCL" (Some ("cups=" +:+ raster)))))
      | None, Some postscript =>
          when (String.eqb postscript "pstopxl")
            (modify (set_d_RIP (Some (mkRIP "ppr-gs" "PCLXL"
              (Some (if f_ColorDevice (d_Features s) then "-sDEVICE=pxlcolor"
                     else "-sDEVICE=pxlmono"))))))
      | None, None => mret tt
      end
  end.

Definition read_PPD_file (fuel : nat) (ppd_file_name : option string) : D unit :=
  modify defaults;;
  match ppd_file_name with
  | None => mret tt
  | Some name =>
      gu_Try (on_reader (ppdobj_new name)) (λ _, fatal EXIT_PRNERR_NORETRY "can't open PPD file");;
      read_lines fuel;;
      on_reader ppdobj_free;;
      choose_rip
  end.
End read.

(** * Finding what was stored *)

(** strcmp() of a NULL pointer is undefined: an option that is not given must not
    meet a name that has one. *)
Inductive lookup_answer := Found (value : string) | NotFound | NullOption.

Fixpoint search_bucket (featuretype : string) (option : option string)
    (bucket : list (string * string)) : lookup_answer :=
  match bucket with
  | [] => NotFound
  | (name, value) :: bucket' =>
      if String.prefix featuretype name then
        match str_drop (String.length featuretype) name, option with
        | EmptyString, None => Found value
        | String " " _, None => NullOption
        | String " " rest, Some o =>
            if String.eqb rest o then Found value else search_bucket featuretype option bucket'
        | _, _ => search_bucket featuretype option bucket'
        end
      else search_bucket featuretype option bucket'
  end.

Definition lookup_feature (featuretype : string) (option : option string) (s : ppd) : lookup_answer :=
  search_bucket featuretype option
    (nth (hash2 featuretype option PPD_TABSIZE) (d_ppdstr s) []).

Definition find_feature {S} (s : ppd) (featuretype : string) (option : option string)
    : M S (Datatypes.option string) :=
  match lookup_feature featuretype option s with
  | Found value => mret (Some value)
  | NotFound => mret None
  | NullOption => undef "strcmp(..., NULL)"
  end.

Definition ppd_font_present (fontname : string) (s : ppd) : bool :=
  existsb (String.eqb fontname) (nth (hash fontname FONT_TABSIZE) (d_ppdfont s) []).
