(* ===== verification/PropPpd.v ===== *)
(** What a PPD file says of a feature is found under its name. *)
From S2P Require Import Prelude.
From S2P Require Import Text.
From S2P Require Import TextFacts.
From S2P Require Import Spooler.
From S2P Require Import Tokens.
From S2P Require Import ReadPpd.
From S2P Require Import PropReadPpd.
From S2P Require Import Ppd.

(** * Names *)

Definition lacks (f : ascii → bool) (s : string) : Prop := Forall (λ c, f c = false) (chars s).

Definition full_name (t : string) (o : string) : string := t +:+ " " +:+ o.

Lemma lacks_app f a b : lacks f (a +:+ b) ↔ lacks f a ∧ lacks f b.
Proof. unfold lacks. rewrite chars_app. apply Forall_app. Qed.

Lemma span_lacks f a c b :
  lacks f a → f c = true → span (λ d, negb (f d)) (a +:+ String c b) = (a, String c b).
Proof.
  intros Ha Hc. induction a as [|d a IH]; simpl.
  { by rewrite Hc. }
  inversion Ha as [|? ? Hd Ha']; subst. simpl. rewrite Hd. simpl. by rewrite (IH Ha').
Qed.

Lemma span_all f a : lacks f a → span (λ d, negb (f d)) a = (a, EmptyString).
Proof.
  intros Ha. induction a as [|d a IH]; [done|].
  inversion Ha as [|? ? Hd Ha']; subst. simpl. rewrite Hd. simpl. by rewrite (IH Ha').
Qed.

Lemma before_lacks f a c b : lacks f a → f c = true → before f (a +:+ String c b) = a.
Proof. intros. unfold before. by rewrite span_lacks. Qed.

Lemma before_all f a : lacks f a → before f a = a.
Proof. intros. unfold before. by rewrite span_all. Qed.

Lemma from_lacks f a c b : lacks f a → f c = true → from f (a +:+ String c b) = String c b.
Proof. intros. unfold from. by rewrite span_lacks. Qed.

(** The characters that end a name or are changed in one. *)
Definition name_breaks (c : ascii) : bool :=
  Ascii.eqb c "/" || Ascii.eqb c ":" || Ascii.eqb c " ".

Lemma clean_name_word room a b :
  lacks name_breaks a → (String.length a <= room)%nat →
  clean_name room (a +:+ b) = a +:+ clean_name (room - String.length a) b.
Proof.
  revert room. induction a as [|c a IH]; intros room Ha Hl.
  { by rewrite Nat.sub_0_r. }
  inversion Ha as [|? ? Hc Ha']; subst. simpl in Hl. destruct room as [|room]; [lia|].
  rewrite !str_cons_app. cbn [clean_name String.length]. unfold name_breaks in Hc.
  destruct (Ascii.eqb c "/"); [done|]. destruct (Ascii.eqb c ":"); [done|].
  cbn [orb] in Hc |- *. rewrite Hc, IH by (done || lia). done.
Qed.

Lemma clean_name_feature t o rest c :
  lacks name_breaks t → lacks name_breaks o → o ≠ EmptyString →
  c = "/"%char ∨ c = ":"%char →
  (String.length (full_name t o) <= MAX_PPDNAME)%nat →
  clean_name MAX_PPDNAME (full_name t o +:+ String c rest) = full_name t o.
Proof.
  intros Ht Ho Hne Hc Hl. unfold full_name in *. rewrite !length_app_str in Hl.
  rewrite str_app_assoc. cbn [String.length] in Hl.
  rewrite clean_name_word by (done || lia). f_equal.
  rewrite str_app_assoc. destruct (MAX_PPDNAME - String.length t)%nat as [|room] eqn:Er; [lia|].
  change (" " +:+ o +:+ String c rest) with (String " " (o +:+ String c rest)).
  cbn [clean_name]. change (Ascii.eqb " " "/" || Ascii.eqb " " ":") with false.
  change (Ascii.eqb " " " ") with true. cbn match.
  assert (clean_name room (o +:+ String c rest) = o) as E.
  { rewrite clean_name_word by (done || lia).
    assert (clean_name (room - String.length o) (String c rest) = EmptyString) as ->.
    { destruct (room - String.length o)%nat; [done|]. cbn [clean_name].
      destruct Hc as [-> | ->]; done. }
    apply str_app_nil_r. }
  destruct o as [|d o]; [done|]. rewrite str_cons_app in *.
  inversion Ho as [|? ? Hd _]; subst. unfold name_breaks in Hd.
  destruct (Ascii.eqb_spec d " ") as [->|Hds]; [done|].
  destruct d as [[] [] [] [] [] [] [] []]; first [by destruct Hds | by cbv beta iota; rewrite E].
Qed.

(** * The table *)

(** The buckets hold the entries made so far, in their order. *)
Definition placed (entries : list (string * string)) (s : ppd) : Prop :=
  length (d_ppdstr s) = Z.to_nat PPD_TABSIZE ∧
  ∀ h, (h < Z.to_nat PPD_TABSIZE)%nat →
    nth h (d_ppdstr s) [] = List.filter (λ e, (hash e.1 PPD_TABSIZE =? h)%nat) entries.

Lemma hash_on_app n a b : hash_on n (a +:+ b) = hash_on (hash_on n a) b.
Proof. revert n. induction a as [|c a IH]; intros n; [done|]. apply IH. Qed.

(** The two hash functions agree on a name and its option. *)
Lemma hash2_full t o : o ≠ EmptyString → hash2 t (Some o) PPD_TABSIZE = hash (full_name t o) PPD_TABSIZE.
Proof.
  intros Ho. unfold hash2, hash, full_name. rewrite hash_on_app.
  destruct o as [|c o]; [done|]. reflexivity.
Qed.

Lemma hash_bound s : (hash s PPD_TABSIZE < Z.to_nat PPD_TABSIZE)%nat.
Proof.
  unfold hash, PPD_TABSIZE. pose proof (Z.mod_pos_bound (hash_on 0 s) 128 ltac:(lia)). lia.
Qed.

(** The first entry of the name, as in a list. *)
Fixpoint first_named (name : string) (l : list (string * string)) : option string :=
  match l with
  | [] => None
  | (n, v) :: l' => if String.eqb n name then Some v else first_named name l'
  end.

Lemma prefix_of_app t s : String.prefix t (t +:+ s) = true.
Proof. induction t as [|c t IH]; [by destruct s|]. simpl. by destruct (ascii_dec c c). Qed.

Lemma prefix_split t n : String.prefix t n = true → n = t +:+ str_drop (String.length t) n.
Proof.
  revert n. induction t as [|c t IH]; intros [|d n]; try done. simpl.
  destruct (ascii_dec c d) as [<-|]; [|done]. intros H. rewrite str_cons_app. f_equal. by apply IH.
Qed.

Lemma str_app_inj a b c : a +:+ b = a +:+ c → b = c.
Proof. induction a as [|d a IH]; [done|]. rewrite !str_cons_app. intros [= E]. by apply IH. Qed.

Lemma search_bucket_first t o bucket :
  search_bucket t (Some o) bucket =
  match first_named (full_name t o) bucket with Some v => Found v | None => NotFound end.
Proof.
  induction bucket as [|[n v] bucket IH]; [done|]. cbn [search_bucket first_named].
  destruct (String.prefix t n) eqn:Hp.
  - apply prefix_split in Hp. revert Hp. generalize (str_drop (String.length t) n). intros r ->.
    unfold full_name. destruct (String.eqb_spec (t +:+ r) (t +:+ " " +:+ o)) as [E|Hne].
    + apply str_app_inj in E as ->. simpl. by rewrite String.eqb_refl.
    + destruct r as [|c r]; [done|].
      destruct (Ascii.eqb_spec c " ") as [->|Hc].
      * destruct (String.eqb_spec r o) as [->|]; [done | exact IH].
      * destruct c as [[] [] [] [] [] [] [] []]; first [exact IH | by destruct Hc].
  - destruct (String.eqb_spec n (full_name t o)) as [->|]; [|exact IH].
    unfold full_name in Hp. by rewrite prefix_of_app in Hp.
Qed.

Lemma first_named_filter name entries :
  first_named name (List.filter (λ e, (hash e.1 PPD_TABSIZE =? hash name PPD_TABSIZE)%nat) entries)
  = first_named name entries.
Proof.
  induction entries as [|[n v] l IH]; [done|]. cbn [List.filter fst first_named].
  destruct (String.eqb_spec n name) as [->|Hne].
  - rewrite Nat.eqb_refl. cbn [first_named]. by rewrite String.eqb_refl.
  - destruct (_ =? _)%nat; [|exact IH]. cbn [first_named].
    destruct (String.eqb_spec n name); [done | exact IH].
Qed.

Lemma placed_lookup entries s t o :
  placed entries s → o ≠ EmptyString →
  lookup_feature t (Some o) s =
  match first_named (full_name t o) entries with Some v => Found v | None => NotFound end.
Proof.
  intros [_ Hp] Ho. unfold lookup_feature. rewrite search_bucket_first, hash2_full by done.
  rewrite Hp by apply hash_bound. by rewrite first_named_filter.
Qed.

Lemma nth_alter {A} h k (f : list A → list A) (l : list (list A)) :
  (h < length l)%nat → nth k (alter f h l) [] = if (h =? k)%nat then f (nth k l []) else nth k l [].
Proof.
  intros Hh. rewrite !nth_lookup. destruct (Nat.eqb_spec h k) as [->|Hne].
  - rewrite list_lookup_alter_eq. destruct (lookup_lt_is_Some_2 l k Hh) as [x ->]. done.
  - by rewrite list_lookup_alter_ne.
Qed.

Lemma placed_more entries s name value :
  placed entries s →
  placed (entries ++ [(name, value)])
    (set_d_ppdstr (alter (λ b, b ++ [(name, value)]) (hash name PPD_TABSIZE) (d_ppdstr s)) s).
Proof.
  intros [Hl Hp]. split; simpl.
  { by rewrite length_alter. }
  intros h Hh. rewrite nth_alter by (rewrite Hl; apply hash_bound).
  rewrite Hp by done. rewrite List.filter_app. simpl.
  destruct (hash name PPD_TABSIZE =? h)%nat; [done | by rewrite app_nil_r].
Qed.

(** * Statements *)

Definition is_dq (c : ascii) : bool := Ascii.eqb double_quote c.

Definition dquote : string := String double_quote EmptyString.

Definition newline : string := of_chars [chr 10].

(** *Type Option/Translation: "first line, and more of them"; there may be no
    option and no translation. *)
Record feature_code := mkCode {
  c_type : string;
  c_option : string;
  c_translation : option string;
  c_first : string;
  c_more : list string;
}.

Definition c_name (k : feature_code) : string :=
  match c_option k with EmptyString => c_type k | o => full_name (c_type k) o end.

Definition c_label (k : feature_code) : string :=
  match c_translation k with Some t => String "/" t | None => EmptyString end.

(** The lines behind the first: each begins on a new one, but nothing comes of an
    empty first line. *)
Definition add_line (text line : string) : string :=
  match text with EmptyString => line | _ => text +:+ newline +:+ line end.

Definition c_value (k : feature_code) : string := foldl add_line (c_first k) (c_more k).

Fixpoint close_quote (last : string) (more : list string) : list string :=
  match more with
  | [] => [last +:+ dquote]
  | line :: more' => last :: close_quote line more'
  end.

Definition head_of (k : feature_code) : string :=
  c_name k +:+ c_label k +:+ ": " +:+ dquote +:+ c_first k.

Definition code_lines (k : feature_code) : list string := close_quote (head_of k) (c_more k).

Definition good_line (line : string) : Prop := lacks is_dq line ∧ line ≠ EmptyString.

Record well_written (k : feature_code) : Prop := {
  good_star : String.prefix "*" (c_type k) = true;
  good_type : lacks name_breaks (c_type k);
  good_option : lacks name_breaks (c_option k);
  good_length : (String.length (c_name k) <= MAX_PPDNAME)%nat;
  good_translation : lacks (Ascii.eqb ":") (c_label k);
  good_first : lacks is_dq (c_first k);
  good_more : Forall good_line (c_more k);
  good_value : strlen (c_value k) < MAX_PPDTEXT;
}.

(** The keyword is none of those the program has uses of its own for. *)
Record good_code (k : feature_code) : Prop := {
  code_written : well_written k;
  good_keyword : ∀ c rest, c = "/"%char ∨ c = ":"%char → keyword_line (c_name k +:+ String c rest) = None;
}.

Definition stored (k : feature_code) (s : ppd) : ppd :=
  set_d_ppdname (c_name k) (set_d_ppdtext (c_value k) (set_d_instring false
    (set_d_ppdstr (alter (λ b, b ++ [(c_name k, c_value k)]) (hash (c_name k) PPD_TABSIZE)
      (d_ppdstr s)) s))).

Lemma existsb_lacks f s : lacks f s → existsb f (chars s) = false.
Proof.
  intros H. apply not_true_iff_false. intros (c & Hc & E)%existsb_exists.
  unfold lacks in H. rewrite Forall_forall in H. apply list_elem_of_In in Hc.
  rewrite (H c Hc) in E. done.
Qed.

Lemma existsb_quote s : existsb is_dq (chars (s +:+ dquote)) = true.
Proof. apply existsb_exists. exists double_quote. rewrite chars_app. split; [|done]. apply in_or_app. right. by left. Qed.

Lemma add_line_length text line : strlen text <= strlen (add_line text line) ∧ strlen line <= strlen (add_line text line).
Proof.
  unfold add_line. destruct text; [split; [apply strlen_nonneg | done]|].
  rewrite !strlen_app. pose proof (strlen_nonneg newline). pose proof (strlen_nonneg line).
  pose proof (strlen_nonneg (String a text)). lia.
Qed.

Lemma add_lines_length text more : strlen text <= strlen (foldl add_line text more).
Proof.
  revert text. induction more as [|line more IH]; intros text; cbn [foldl]; [lia|].
  pose proof (IH (add_line text line)). pose proof (add_line_length text line). lia.
Qed.

Lemma append_line line s :
  strlen (add_line (d_ppdtext s) line) < MAX_PPDTEXT →
  ppd_callback_string_line line s = Done tt (set_d_ppdtext (add_line (d_ppdtext s) line) s).
Proof.
  intros Hl. unfold ppd_callback_string_line, gets, mbind, M_bind. cbv zeta.
  pose proof (add_line_length (d_ppdtext s) line) as [Ht _].
  assert (negb (strlen (d_ppdtext s) =? MAX_PPDTEXT) = true) as ->.
  { apply negb_true_iff, Z.eqb_neq. lia. }
  unfold add_line in *. fold newline. destruct (d_ppdtext s) as [|c text] eqn:E.
  - change (strlen EmptyString) with 0. cbn [negb andb Z.eqb]. change (strlen "") with 0.
    destruct (Z.ltb_spec (MAX_PPDTEXT - 0) (strlen line + 1)); [lia|]. done.
  - assert ((strlen (String c text) =? 0) = false) as ->.
    { apply Z.eqb_neq. unfold strlen. simpl. lia. }
    cbn [negb andb]. rewrite <- str_app_assoc in Hl |- *. rewrite strlen_app in Hl.
    destruct (Z.ltb_spec (MAX_PPDTEXT - strlen (String c text +:+ newline)) (strlen line + 1)); [lia|].
    done.
Qed.

(** The rest of the lines of a value. *)
Lemma read_continued more last s :
  d_instring s = true → good_line last → Forall good_line more →
  strlen (foldl add_line (d_ppdtext s) (last :: more)) < MAX_PPDTEXT →
  for_words (close_quote last more) ppd_line s
  = Done tt (set_d_instring false (set_d_ppdtext (foldl add_line (d_ppdtext s) (last :: more))
      (set_d_ppdstr (alter (λ b, b ++ [(d_ppdname s, foldl add_line (d_ppdtext s) (last :: more))])
         (hash (d_ppdname s) PPD_TABSIZE) (d_ppdstr s)) s))).
Proof.
  revert last s. induction more as [|line more IH]; intros last s Hi [Hl Hne] Hm Hlen.
  - cbn [close_quote for_words foldl] in *.
    unfold ppd_line, gets, mbind, M_bind. rewrite Hi. cbv iota.
    unfold string_line. change (Ascii.eqb double_quote) with is_dq.
    assert (before is_dq (last +:+ dquote) = last) as -> by by apply before_lacks.
    destruct (String.eqb_spec last EmptyString); [done|]. cbn [negb when]. unfold mbind, M_bind.
    rewrite append_line by done.
    rewrite existsb_quote. cbn [when]. unfold ppd_callback_end_string, upd, gets, modify, mbind, M_bind, mret, M_ret.
    by destruct s.
  - cbn [close_quote for_words]. inversion Hm as [|? ? Hline Hm']; subst.
    assert (ppd_line last s = Done tt (set_d_ppdtext (add_line (d_ppdtext s) last) s)) as E.
    { unfold ppd_line, gets, mbind, M_bind. rewrite Hi. cbv iota.
      unfold string_line. change (Ascii.eqb double_quote) with is_dq.
      rewrite before_all by done. rewrite existsb_lacks by done.
      destruct (String.eqb_spec last EmptyString); [done|]. cbn [negb when]. unfold mbind, M_bind.
      rewrite append_line; [done|]. cbn [foldl] in Hlen.
      pose proof (add_lines_length (add_line (d_ppdtext s) last) (line :: more)) as H. cbn [foldl] in H. lia. }
    unfold mbind at 1, M_bind. rewrite E.
    rewrite IH; [| done | done | done | exact Hlen]. by destruct s.
Qed.

Lemma name_lacks_colon s : lacks name_breaks s → lacks (Ascii.eqb ":") s.
Proof.
  intros H. eapply Forall_impl; [exact H|]. intros c. unfold name_breaks. rewrite (Ascii.eqb_sym ":" c).
  by destruct (Ascii.eqb c ":"), (Ascii.eqb c "/").
Qed.

Lemma full_name_lacks_colon t o :
  lacks name_breaks t → lacks name_breaks o → lacks (Ascii.eqb ":") (full_name t o).
Proof.
  intros Ht Ho. unfold full_name. rewrite !lacks_app. split; [by apply name_lacks_colon|].
  split; [by repeat constructor | by apply name_lacks_colon].
Qed.

Lemma c_name_lacks_colon k : well_written k → lacks (Ascii.eqb ":") (c_name k).
Proof.
  intros [_ Ht Ho _ _ _ _ _]. unfold c_name. destruct (c_option k).
  - by apply name_lacks_colon.
  - by apply full_name_lacks_colon.
Qed.

Lemma c_name_star k : well_written k → ∃ l, c_name k = String "*" l.
Proof.
  intros [Hs _ _ _ _ _ _ _]. apply prefix_split in Hs. unfold c_name, full_name. rewrite Hs.
  destruct (c_option k); simpl; eexists; done.
Qed.

(** A slash or the colon stands behind the name. *)
Lemma behind_name k rest :
  ∃ c r, c_label k +:+ ":" +:+ rest = String c r ∧ (c = "/"%char ∨ c = ":"%char).
Proof. unfold c_label. destruct (c_translation k); simpl; do 2 eexists; split; eauto. Qed.

Lemma clean_head k :
  well_written k → clean_name MAX_PPDNAME (c_name k +:+ c_label k +:+ ":") = c_name k.
Proof.
  intros [_ Ht Ho Hlen _ _ _ _]. destruct (behind_name k EmptyString) as (c & r & E & Hc).
  rewrite str_app_nil_r in E. rewrite E. clear E. unfold c_name in *.
  destruct (c_option k) as [|d o] eqn:Eo.
  - rewrite clean_name_word by done.
    assert (clean_name (MAX_PPDNAME - String.length (c_type k)) (String c r) = EmptyString) as ->.
    { destruct (MAX_PPDNAME - String.length (c_type k))%nat; [done|]. by destruct Hc as [-> | ->]. }
    apply str_app_nil_r.
  - by apply clean_name_feature.
Qed.

Lemma statement_head k rest :
  well_written k →
  statement (c_name k +:+ c_label k +:+ ": " +:+ dquote +:+ rest)
  = Some (c_name k +:+ c_label k +:+ ":", dquote +:+ rest).
Proof.
  intros Hk. unfold statement.
  set (name := c_name k +:+ c_label k).
  assert (lacks (Ascii.eqb ":") name) as Hn.
  { unfold name. rewrite lacks_app. split; [by apply c_name_lacks_colon | apply Hk]. }
  replace (c_name k +:+ c_label k +:+ ": " +:+ dquote +:+ rest)
    with (name +:+ String ":" (" " +:+ dquote +:+ rest)).
  2: { unfold name. by rewrite str_app_assoc. }
  rewrite before_lacks, from_lacks by done. cbv zeta.
  assert ((strlen (String ":" (" " +:+ dquote +:+ rest)) <=? 1) = false) as ->.
  { apply Z.leb_gt. unfold strlen. simpl. lia. }
  f_equal. f_equal. unfold name. by rewrite str_app_assoc.
Qed.

(** The head of a statement: whether its value ends in the line is left to be
    seen from what follows the quote. *)
Lemma read_head k rest s :
  good_code k → d_instring s = false → before is_dq rest = c_first k →
  ppd_line (c_name k +:+ c_label k +:+ ": " +:+ dquote +:+ rest) s =
  (if existsb is_dq (chars rest) then
     Done tt (set_d_ppdname (c_name k) (set_d_ppdtext (c_first k) (set_d_instring false
       (set_d_ppdstr (alter (λ b, b ++ [(c_name k, c_first k)]) (hash (c_name k) PPD_TABSIZE)
         (d_ppdstr s)) s))))
   else
     Done tt (set_d_ppdname (c_name k) (set_d_ppdtext (c_first k) (set_d_instring true s)))).
Proof.
  intros [Hk Hkey] Hi Hb. pose proof (statement_head k rest Hk) as Hst.
  unfold ppd_line, gets, mbind, M_bind. rewrite Hi. cbv iota.
  set (line := c_name k +:+ _) in *.
  assert (∃ line', line = String "*" line') as (line' & El).
  { destruct (c_name_star k Hk) as [l El]. unfold line. rewrite El. by eexists. }
  assert (keyword_line line = None) as Hkl.
  { unfold line. destruct (behind_name k (" " +:+ dquote +:+ rest)) as (c & r & E & Hc).
    change (":" +:+ " " +:+ dquote +:+ rest) with (": " +:+ dquote +:+ rest) in E.
    rewrite E. by apply Hkey. }
  assert ((match line with
    | String "*" _ => match keyword_line line with Some act => act | None => other_line line end
    | _ => mret tt end) s = other_line line s) as ->.
  { rewrite Hkl. by rewrite El. }
  unfold other_line. rewrite Hst.
  change (drop_while is_blank (dquote +:+ rest)) with (String double_quote rest). cbv iota.
  change (Ascii.eqb double_quote double_quote) with true. cbn [when].
  change (Ascii.eqb double_quote) with is_dq. rewrite Hb.
  unfold ppd_callback_new_string, modify, mbind, M_bind.
  rewrite clean_head by done.
  unfold ppd_callback_string_line, gets, mbind, M_bind. cbv zeta.
  cbn [d_ppdtext set_d_ppdtext set_d_instring set_d_ppdname eta_ppd].
  change (strlen EmptyString) with 0. cbn [negb andb Z.eqb].
  assert (strlen (c_first k) < MAX_PPDTEXT) as Hv'.
  { pose proof (good_value k Hk) as Hv. pose proof (add_lines_length (c_first k) (c_more k)). unfold c_value in Hv. lia. }
  change (strlen "") with 0.
  destruct (Z.ltb_spec (MAX_PPDTEXT - 0) (strlen (c_first k) + 1)); [lia|]. unfold modify.
  destruct (existsb is_dq (chars rest)); cbn [when].
  - unfold ppd_callback_end_string, upd, gets, modify, mbind, M_bind, mret, M_ret. by destruct s.
  - unfold mret, M_ret. by destruct s.
Qed.

Lemma read_code k s :
  good_code k → d_instring s = false →
  for_words (code_lines k) ppd_line s = Done tt (stored k s).
Proof.
  intros Hk Hi. unfold code_lines, head_of.
  pose proof (read_head k (c_first k +:+ dquote) s Hk Hi) as H1.
  pose proof (read_head k (c_first k) s Hk Hi) as H2.
  destruct Hk as [[_ _ _ _ _ Hf Hm Hv] _].
  destruct (c_more k) as [|line more] eqn:Em; cbn [close_quote for_words].
  - replace ((c_name k +:+ c_label k +:+ ": " +:+ dquote +:+ c_first k) +:+ dquote)
      with (c_name k +:+ c_label k +:+ ": " +:+ dquote +:+ c_first k +:+ dquote).
    2: { by rewrite !str_app_assoc. }
    unfold mbind, M_bind. rewrite H1 by by apply before_lacks. rewrite existsb_quote.
    unfold mret, M_ret, stored, c_value. rewrite Em. done.
  - unfold mbind at 1, M_bind. rewrite H2 by by apply before_all. rewrite existsb_lacks by done.
    inversion Hm as [|? ? Hline Hm']; subst.
    rewrite read_continued; [| done | done | done |].
    + unfold stored, c_value. rewrite Em. by destruct s.
    + unfold c_value in Hv. rewrite Em in Hv. exact Hv.
Qed.

(** * The other statements *)

(** *PaperDimension and *ImageableArea: the value is kept under the name, and its
    numbers in the table of sizes. *)
Definition size_keywords : list (string * list (scanval → PAPERSIZE → PAPERSIZE) * string) :=
  [("*PaperDimension", dimensions, "%lf %lf"); ("*ImageableArea", margins, "%lf %lf %lf %lf")].

Record good_size (k : feature_code) : Prop := {
  size_written : well_written k;
  size_one_line : c_more k = [];
  size_keyword : ∃ stores format n vals,
    c_option k ≠ EmptyString ∧ (c_type k, stores, format) ∈ size_keywords ∧ gu_sscanf (c_first k) format [] = Scanned n vals;
}.

Definition good_level (value : string) : Prop := lacks is_dq value ∧ strlen value < MAX_PPDTEXT.

Definition level_statement (value : string) : string :=
  "*LanguageLevel: " +:+ dquote +:+ value +:+ dquote.

(** Keywords whose values go elsewhere, or nowhere. *)
Definition silent_keywords : list string :=
  ["*cupsFilter:"; "*ColorDevice:"; "*DefaultOutputOrder:"; "*Extensions:"; "*FaxSupport:";
   "*FileSystem:"; "*Message:"; "*OrderDependency:"; "*Protocols:"; "*PrinterError:";
   "*Source:"; "*Status:"; "*TTRasterizer:"].

Inductive silent : string → Prop :=
| not_a_statement line : String.prefix "*" line = false → silent line
| silent_keyword key rest : key ∈ silent_keywords → silent (key +:+ rest)
| font_name p : silent ("*Font " +:+ p)
| unquoted_value keyword value :
    keyword_line (keyword +:+ ": " +:+ value) = None → lacks (Ascii.eqb ":") keyword →
    String.prefix dquote (drop_while is_blank value) = false →
    silent (keyword +:+ ": " +:+ value)
| no_value keyword :
    keyword_line keyword = None → lacks (Ascii.eqb ":") keyword → silent keyword.

(** What a statement leaves of the state that matters here. *)
Definition put_in (entries : list (string * string)) (s s' : ppd) : Prop :=
  d_ppdstr s' = foldl (λ t e, alter (λ b, b ++ [e]) (hash e.1 PPD_TABSIZE) t) (d_ppdstr s) entries ∧
  d_instring s' = false.

Definition quiet {A} (m : D A) : Prop :=
  ∀ s, ∃ a s', m s = Done a s' ∧ d_ppdstr s' = d_ppdstr s ∧ d_instring s' = d_instring s ∧
    d_papersize s' = d_papersize s.

Lemma quiet_bind {A B} (m : D A) (f : A → D B) : quiet m → (∀ a, quiet (f a)) → quiet (m ≫= f).
Proof.
  intros Hm Hf s. destruct (Hm s) as (a & s1 & E1 & ? & ? & ?).
  destruct (Hf a s1) as (b & s2 & E2 & ? & ? & ?). exists b, s2.
  unfold mbind, M_bind. rewrite E1, E2. split_and!; congruence.
Qed.

Lemma quiet_ret {A} (a : A) : quiet (mret a).
Proof. intros s. exists a, s. done. Qed.

Lemma quiet_gets {A} (f : ppd → A) : quiet (gets f).
Proof. intros s. exists (f s), s. done. Qed.

Lemma quiet_modify (f : ppd → ppd) :
  (∀ s, d_ppdstr (f s) = d_ppdstr s ∧ d_instring (f s) = d_instring s ∧ d_papersize (f s) = d_papersize s) →
  quiet (modify f).
Proof. intros Hf s. exists tt, (f s). by destruct (Hf s) as (? & ? & ?). Qed.

Lemma quiet_when b m : quiet m → quiet (when b m).
Proof. destruct b; [done|]. intros _. apply quiet_ret. Qed.

Lemma quiet_for_words l f : (∀ w, quiet (f w)) → quiet (for_words l f).
Proof. intros Hf. induction l; [apply quiet_ret|]. apply quiet_bind; [apply Hf | done]. Qed.

Ltac quiet_step :=
  first
    [ apply quiet_bind; [|intros]
    | apply quiet_ret
    | apply quiet_gets
    | apply quiet_modify; by intros []
    | apply quiet_when
    | apply quiet_for_words; intros
    | case_match ].

Ltac quiet :=
  unfold cupsFilter_line, color_line, output_order, file_system, font_line, for_fields, extension,
    fax_support, rasterizer, protocol, upd_Features, ppd_error, upd;
  repeat (cbv zeta; quiet_step).

Lemma lmatchp_app key rest : lmatchp (key +:+ rest) key = Some (drop_while is_blank rest).
Proof.
  unfold lmatchp. rewrite prefix_of_app. do 2 f_equal.
  induction key; [by destruct rest | done].
Qed.

(** Where the values go. *)
Lemma keyword_action key rest :
  key ∈ silent_keywords → ∃ act, keyword_line (key +:+ rest) = Some act ∧ quiet act.
Proof.
  intros Hk. unfold silent_keywords in Hk. rewrite !elem_of_cons, elem_of_nil in Hk.
  destruct_or! Hk; try done; subst key; unfold keyword_line; cbv zeta; rewrite lmatchp_app;
    (eexists; split; [reflexivity|]); clear; cbv beta; quiet.
Qed.

Lemma quiet_line line :
  keyword_line line = None → quiet (other_line line) →
  quiet (match line with
    | String "*" _ => match keyword_line line with Some act => act | None => other_line line end
    | _ => mret tt end).
Proof.
  intros E Hq. rewrite E. destruct line as [|c line]; [apply quiet_ret|].
  destruct (Ascii.eqb_spec c "*") as [->|Hne]; [done|].
  destruct c as [[] [] [] [] [] [] [] []]; first [apply quiet_ret | by destruct Hne].
Qed.

Lemma silent_line line :
  silent line → ∀ s, d_instring s = false →
  ∃ s', ppd_line line s = Done tt s' ∧ put_in [] s s' ∧ d_papersize s' = d_papersize s.
Proof.
  intros Hl s Hi. enough (∃ m, quiet m ∧ ppd_line line s = m s) as (m & Hm & ->).
  { destruct (Hm s) as ([] & s' & E & H1 & H2 & H3). exists s'. unfold put_in. rewrite E, H1, H2. done. }
  assert (∀ l, ppd_line l s = match l with
    | String "*" _ => match keyword_line l with Some act => act | None => other_line l end
    | _ => mret tt end s) as Hline.
  { intros l. unfold ppd_line, gets, mbind, M_bind. by rewrite Hi. }
  rewrite Hline. clear Hline Hi.
  eexists. split; [|reflexivity]. destruct Hl as [line Hs|key rest Hk|p|kw value Hk Hc Hv|kw Hk Hc].
  - destruct line as [|c line]; [apply quiet_ret|].
    simpl in Hs. destruct (ascii_dec "*" c) as [<-|Hne]; [by destruct line|].
    destruct c as [[] [] [] [] [] [] [] []]; first [apply quiet_ret | by destruct Hne].
  - destruct (keyword_action key rest Hk) as (act & E & Hq). rewrite E.
    unfold silent_keywords in Hk. rewrite !elem_of_cons, elem_of_nil in Hk.
    by destruct_or! Hk; try done; subst key.
  - change (quiet (font_line (drop_while is_blank (String " " p)))). quiet.
  - apply quiet_line; [done|]. unfold other_line, statement.
    change (": " +:+ value) with (String ":" (" " +:+ value)).
    rewrite before_lacks, from_lacks by done. cbv zeta.
    assert ((strlen (String ":" (" " +:+ value)) <=? 1) = false) as ->.
    { apply Z.leb_gt. unfold strlen. simpl. lia. }
    change (str_drop 2 (String ":" (" " +:+ value))) with value.
    destruct (drop_while is_blank value) as [|q v]; [apply quiet_ret|].
    simpl in Hv. destruct (ascii_dec double_quote q) as [<-|Hne]; [by destruct v|].
    destruct (Ascii.eqb_spec q double_quote) as [->|_]; [by destruct Hne | apply quiet_ret].
  - apply quiet_line; [done|]. unfold other_line, statement.
    assert (from (Ascii.eqb ":") kw = EmptyString) as ->.
    { unfold from. by rewrite span_all. }
    apply quiet_ret.
Qed.

Lemma lmatchsp_app key c rest :
  gu_ascii_isspace c = true → lmatchsp (key +:+ String c rest) key = Some (drop_while is_blank (String c rest)).
Proof.
  intros Hc. unfold lmatchsp. rewrite prefix_of_app.
  assert (str_drop (String.length key) (key +:+ String c rest) = String c rest) as ->.
  { induction key; [by destruct rest | done]. }
  by rewrite Hc.
Qed.

Lemma size_action stores t format rest :
  (t, stores, format) ∈ size_keywords →
  keyword_line (t +:+ String " " rest) = Some (size_line stores (t +:+ String " " rest)) ∧
  (if (length stores =? 2)%nat then "%lf %lf" else "%lf %lf %lf %lf") = format.
Proof.
  unfold size_keywords. rewrite !elem_of_cons, elem_of_nil. intros Hk.
  destruct_or! Hk; try done; simplify_eq; split; try done;
    unfold keyword_line; cbv zeta; by rewrite lmatchsp_app.
Qed.

(** The size has a place in the table, an old one or a new one. *)
Lemma moveto_place nameline s :
  Z.of_nat (length (d_papersize s)) < MAX_PAPERSIZES →
  ∃ s', ppd_callback_papersize_moveto nameline s = Done tt s' ∧ d_ppdstr s' = d_ppdstr s ∧
    (length (d_papersize s') <= S (length (d_papersize s)))%nat.
Proof.
  intros Hn. unfold ppd_callback_papersize_moveto, gets, modify, mbind, M_bind. cbv zeta.
  destruct (Nat.eqb_spec (find_papersize (str_take 31 (before (λ c, is_blank c || Ascii.eqb c ":"
    || Ascii.eqb c "/") (drop_while is_blank (from is_blank nameline)))) (d_papersize s))
    (length (d_papersize s))) as [E|E]; cbn [when].
  - rewrite E. destruct (Z.leb_spec MAX_PAPERSIZES (Z.of_nat (length (d_papersize s)))); [lia|].
    eexists. split; [reflexivity|]. split; [done|]. cbn. rewrite length_app. simpl. lia.
  - eexists. split; [reflexivity|]. split; [done|]. cbn. lia.
Qed.

Lemma quoted_text v : lacks is_dq v → quoted (dquote +:+ v +:+ dquote) = v.
Proof.
  intros Hv. unfold quoted. change (drop_while is_blank (dquote +:+ v +:+ dquote)) with (dquote +:+ v +:+ dquote).
  change (Ascii.eqb double_quote) with is_dq.
  assert (drop_while is_dq (dquote +:+ v +:+ dquote) = drop_while is_dq (v +:+ dquote)) as ->.
  { unfold drop_while. simpl. by destruct (span _ _). }
  destruct v as [|c v]; [done|]. inversion Hv as [|? ? Hc Hv']; subst.
  assert (drop_while is_dq (String c v +:+ dquote) = String c v +:+ dquote) as ->.
  { unfold drop_while. simpl. by rewrite Hc. }
  by apply before_lacks.
Qed.

(** The name and the text go into the table, whatever is stored elsewhere. *)
Lemma store_string name v s :
  strlen v < MAX_PPDTEXT →
  ∃ s', (ppd_callback_new_string name;; ppd_callback_string_line v;; ppd_callback_end_string) s
    = Done tt s' ∧ put_in [(clean_name MAX_PPDNAME name, v)] s s' ∧ d_papersize s' = d_papersize s.
Proof.
  intros Hv. unfold ppd_callback_new_string, modify, mbind, M_bind.
  unfold ppd_callback_string_line, gets, mbind, M_bind. cbv zeta.
  cbn [d_ppdtext set_d_ppdtext set_d_instring set_d_ppdname eta_ppd].
  change (strlen EmptyString) with 0. cbn [negb andb Z.eqb]. change (strlen "") with 0.
  destruct (Z.ltb_spec (MAX_PPDTEXT - 0) (strlen v + 1)); [lia|]. unfold modify.
  unfold ppd_callback_end_string, upd, gets, modify, mbind, M_bind.
  eexists. split; [reflexivity|]. by split.
Qed.

(** So do those of a size. *)
Lemma store_size name v stores format n vals s :
  strlen v < MAX_PPDTEXT →
  (if (length stores =? 2)%nat then "%lf %lf" else "%lf %lf %lf %lf") = format →
  gu_sscanf v format [] = Scanned n vals →
  ∃ s', (ppd_callback_new_string name;; store_floats stores v;; ppd_callback_string_line v;;
         ppd_callback_end_string) s
    = Done tt s' ∧ put_in [(clean_name MAX_PPDNAME name, v)] s s' ∧
    length (d_papersize s') = length (d_papersize s).
Proof.
  intros Hv Hf Hscan.
  assert (∀ t, ∃ g, store_floats stores v t = Done tt (set_d_papersize g t) ∧
    length g = length (d_papersize t)) as Hstore.
  { intros t. unfold store_floats.
    assert (match length stores with 2%nat => "%lf %lf" | _ => "%lf %lf %lf %lf" end = format) as ->.
    { rewrite <- Hf. by destruct (length stores) as [|[|[|?]]]. }
    rewrite Hscan. unfold upd, gets, modify, mbind, M_bind. eexists. split; [reflexivity|].
    apply length_alter. }
  unfold ppd_callback_new_string, modify, mbind, M_bind.
  destruct (Hstore (set_d_instring true (set_d_ppdtext EmptyString
    (set_d_ppdname (clean_name MAX_PPDNAME name) s)))) as (g & -> & Hg).
  unfold ppd_callback_string_line, gets, mbind, M_bind. cbv zeta.
  cbn [d_ppdtext set_d_ppdtext set_d_instring set_d_ppdname set_d_papersize eta_ppd].
  change (strlen EmptyString) with 0. cbn [negb andb Z.eqb]. change (strlen "") with 0.
  destruct (Z.ltb_spec (MAX_PPDTEXT - 0) (strlen v + 1)); [lia|]. unfold modify.
  unfold ppd_callback_end_string, upd, gets, modify, mbind, M_bind.
  eexists. split; [reflexivity|]. by split.
Qed.

Lemma read_size k s :
  good_size k → d_instring s = false → Z.of_nat (length (d_papersize s)) < MAX_PAPERSIZES →
  ∃ s', for_words (code_lines k) ppd_line s = Done tt s' ∧ put_in [(c_name k, c_value k)] s s' ∧
    (length (d_papersize s') <= S (length (d_papersize s)))%nat.
Proof.
  intros [Hk Hone (stores & format & n & vals & Hop & Ht & Hscan)] Hi Hroom.
  pose proof (statement_head k (c_first k +:+ dquote) Hk) as Hst.
  pose proof Hk as [_ _ _ _ _ Hf _ Hv].
  assert (c_value k = c_first k) as Ev.
  { unfold c_value. by rewrite Hone. }
  unfold code_lines, head_of. rewrite Hone. cbn [close_quote for_words].
  replace ((c_name k +:+ c_label k +:+ ": " +:+ dquote +:+ c_first k) +:+ dquote)
    with (c_name k +:+ c_label k +:+ ": " +:+ dquote +:+ c_first k +:+ dquote)
    by by rewrite !str_app_assoc.
  set (line := c_name k +:+ _) in *.
  destruct (size_action stores (c_type k) format
    (c_option k +:+ c_label k +:+ ": " +:+ dquote +:+ c_first k +:+ dquote) Ht) as [Hkey Hfmt].
  assert (c_type k +:+ String " " (c_option k +:+ c_label k +:+ ": " +:+ dquote
    +:+ c_first k +:+ dquote) = line) as El.
  { unfold line, c_name, full_name. destruct (c_option k); [done|]. by rewrite !str_app_assoc. }
  rewrite El in Hkey. clear El.
  assert (∃ line', line = String "*" line') as (line' & El).
  { destruct (c_name_star k Hk) as [l El]. unfold line. rewrite El. by eexists. }
  assert (ppd_line line s = size_line stores line s) as E.
  { unfold ppd_line, gets, mbind, M_bind. rewrite Hi. cbv iota. clearbody line. subst line. by rewrite Hkey. }
  set (name := c_name k +:+ c_label k +:+ ":").
  destruct (moveto_place name s Hroom) as (s1 & E1 & Hs1 & Hp1).
  pose proof (clean_head k Hk : clean_name MAX_PPDNAME name = c_name k) as Hname.
  destruct (store_size name (c_first k) stores format n vals s1) as (s2 & E2 & [Hs2 Hi2] & Hp2).
  { by rewrite Ev in Hv. }
  { done. }
  { done. }
  assert (size_line stores line s = Done tt s2) as E3.
  { unfold size_line. rewrite Hst, quoted_text by done. fold name.
    unfold mbind at 1, M_bind. rewrite E1. exact E2. }
  exists s2. unfold mbind at 1, M_bind. rewrite E, E3. split_and!; [done| |lia].
  split; [|done]. rewrite Hs2, Hname, Hs1. by rewrite Ev.
Qed.

Lemma read_level v s :
  good_level v → d_instring s = false →
  ∃ s', for_words [level_statement v] ppd_line s = Done tt s' ∧ put_in [("*LanguageLevel", v)] s s' ∧
    d_papersize s' = d_papersize s.
Proof.
  intros [Hv Hlen] Hi.
  assert (ppd_line (level_statement v) s
    = level_line (level_statement v) (dquote +:+ v +:+ dquote) s) as E0.
  { unfold ppd_line, gets, mbind, M_bind. rewrite Hi. done. }
  assert (level_line (level_statement v) (dquote +:+ v +:+ dquote) =
    (upd_Features (set_f_LanguageLevel (atoi v));; ppd_callback_new_string "*LanguageLevel";;
     ppd_callback_string_line v;; ppd_callback_end_string)) as E1.
  { change (level_line (level_statement v) (dquote +:+ v +:+ dquote)) with
      (upd_Features (set_f_LanguageLevel (atoi (before is_dq (v +:+ dquote))));;
       ppd_callback_new_string "*LanguageLevel";;
       ppd_callback_string_line (before is_dq (v +:+ dquote));; ppd_callback_end_string).
    assert (before is_dq (v +:+ dquote) = v) as -> by by apply before_lacks. done. }
  destruct (store_string "*LanguageLevel" v (set_d_Features (set_f_LanguageLevel (atoi v)
    (d_Features s)) s) Hlen) as (s' & E & Hp & Hs).
  assert (ppd_line (level_statement v) s = Done tt s') as E2 by (rewrite E0, E1; exact E).
  exists s'. split; [|done]. cbn [for_words]. unfold mbind, M_bind. by rewrite E2.
Qed.

(** * The statements of a file *)

Inductive ppd_item :=
| Code (k : feature_code)
| Size (k : feature_code)
| Level (value : string)
| Other (line : string).

Definition good_item (i : ppd_item) : Prop :=
  match i with
  | Code k => good_code k
  | Size k => good_size k
  | Level v => good_level v
  | Other line => silent line
  end.

Definition item_lines (i : ppd_item) : list string :=
  match i with
  | Code k | Size k => code_lines k
  | Level v => [level_statement v]
  | Other line => [line]
  end.

(** What can be asked for. *)
Definition item_codes (i : ppd_item) : list (string * string) :=
  match i with
  | Code k | Size k => [(c_name k, c_value k)]
  | Level v => [("*LanguageLevel", v)]
  | Other _ => []
  end.

Definition is_size (i : ppd_item) : bool := match i with Size _ => true | _ => false end.

Lemma read_item i s :
  good_item i → d_instring s = false →
  (if is_size i then Z.of_nat (length (d_papersize s)) < MAX_PAPERSIZES else True) →
  ∃ s', for_words (item_lines i) ppd_line s = Done tt s' ∧ put_in (item_codes i) s s' ∧
    (length (d_papersize s') <= (if is_size i then 1 else 0) + length (d_papersize s))%nat.
Proof.
  destruct i as [k|k|v|line]; cbn [good_item is_size item_lines item_codes]; intros Hg Hi Hroom.
  - exists (stored k s). split; [by apply read_code | done].
  - by apply read_size.
  - destruct (read_level v s Hg Hi) as (s' & E & Hp & Hs). exists s'. rewrite Hs. done.
  - destruct (silent_line line Hg s Hi) as (s' & E & Hp & Hs). exists s'. rewrite Hs.
    split; [|done]. cbn [for_words]. unfold mbind, M_bind. by rewrite E.
Qed.

(** * The lexer leaves the reader alone *)

Definition with_reader {A} (r : PPDOBJ) (o : outcome ppd A) : outcome ppd A :=
  match o with
  | Done a s => Done a (set_d_reader r s)
  | Thrown e s => Thrown e (set_d_reader r s)
  | Stopped x => Stopped x
  end.

Definition apart {A} (m : D A) : Prop := ∀ r s, m (set_d_reader r s) = with_reader r (m s).

Lemma apart_bind {A B} (m : D A) (f : A → D B) : apart m → (∀ a, apart (f a)) → apart (m ≫= f).
Proof.
  intros Hm Hf r s. unfold mbind, M_bind. rewrite Hm. destruct (m s); simpl; [apply Hf | done | done].
Qed.

Lemma apart_ret {A} (a : A) : apart (mret a).
Proof. done. Qed.

Lemma apart_gets {A} (f : ppd → A) : (∀ r s, f (set_d_reader r s) = f s) → apart (gets f).
Proof. intros Hf r s. unfold gets. by rewrite Hf. Qed.

Lemma apart_modify f : (∀ r s, f (set_d_reader r s) = set_d_reader r (f s)) → apart (modify f).
Proof. intros Hf r s. unfold modify. by rewrite Hf. Qed.

Lemma apart_upd {A} f set (g : A → A) :
  (∀ r s, f (set_d_reader r s) = f s) →
  (∀ a r s, set a (set_d_reader r s) = set_d_reader r (set a s)) → apart (upd f set g).
Proof. intros Hf Hs. apply apart_modify. intros. by rewrite Hf, Hs. Qed.

Lemma apart_when b m : apart m → apart (when b m).
Proof. intros. by destruct b. Qed.

Lemma apart_for_words l f : (∀ w, apart (f w)) → apart (for_words l f).
Proof. intros Hf. induction l; [done|]. apply apart_bind; [apply Hf | done]. Qed.

Ltac apart_step :=
  first
    [ apply apart_bind; [|intros]
    | apply apart_ret
    | apply apart_gets; by intros ? []
    | apply apart_upd; [by intros ? [] | by intros ? ? []]
    | apply apart_modify; by intros ? []
    | apply apart_when
    | apply apart_for_words; intros
    | by intros ? ?
    | case_match ].

Ltac apart := repeat (cbv zeta; apart_step).

Lemma apart_new_string name : apart (ppd_callback_new_string name).
Proof. unfold ppd_callback_new_string. apart. Qed.

Lemma apart_string_line text : apart (ppd_callback_string_line text).
Proof. unfold ppd_callback_string_line. apart. Qed.

Lemma apart_end_string : apart ppd_callback_end_string.
Proof. unfold ppd_callback_end_string. apart. Qed.

Lemma apart_ppd_line line : apart (ppd_line line).
Proof.
  assert (∀ stores, apart (size_line stores line)) as Hsize.
  { intros stores. unfold size_line, ppd_callback_papersize_moveto, store_floats.
    repeat first [apply apart_new_string | apply apart_string_line | apply apart_end_string | apart_step]. }
  assert (∀ p, apart (level_line line p)) as Hlevel.
  { intros p. unfold level_line, upd_Features, ppd_error.
    repeat first [apply apart_new_string | apply apart_string_line | apply apart_end_string | apart_step]. }
  assert (∀ act, keyword_line line = Some act → apart act) as Hkey.
  { intros act. unfold keyword_line. cbv zeta.
    repeat case_match; intros [= <-]; auto.
    all: unfold cupsFilter_line, color_line, output_order, file_system, font_line, rip_line, for_fields,
      extension, fax_support, rasterizer, protocol, upd_Features, ppd_error; apart. }
  unfold ppd_line, string_line, other_line.
  repeat first [by apply Hkey | apply apart_new_string | apply apart_string_line
    | apply apart_end_string | apart_step].
Qed.

(** * Files *)

Definition is_newline (c : ascii) : bool := code c =? 10.

Definition is_nul (c : ascii) : bool := code c =? 0.

(** A line the reader takes whole, and that does not name a file to be read. *)
Record readable (line : string) : Prop := {
  one_line : lacks is_newline line;
  no_nul : lacks is_nul line;
  not_long : (String.length line <= MAX_PPD_LINE)%nat;
  no_include : lmatchp (rtrim line) "*Include:" = None;
}.

(** Comments and empty lines are not seen by the lexer, nor is the space that ends
    a line. *)
Definition dropped (line : string) : bool :=
  lmatch line "*%" || String.eqb (rtrim line) EmptyString.

Definition seen_lines (lines : list string) : list string :=
  map rtrim (List.filter (λ line, negb (dropped line)) lines).

Definition unlines (lines : list string) : string :=
  foldr (λ line text, line +:+ newline +:+ text) EmptyString lines.

Lemma fgets_whole size line rest :
  lacks is_newline line → (String.length line + 1 < size)%nat →
  fgets size (line +:+ newline +:+ rest) = (line +:+ newline, rest).
Proof.
  revert size. induction line as [|c line IH]; intros size Hn Hs.
  { destruct size as [|[|size]]; simpl in Hs; [lia|lia|]. done. }
  inversion Hn as [|? ? Hc Hn']; subst. simpl in Hs. destruct size as [|[|size]]; [lia|lia|].
  rewrite !str_cons_app. cbn [fgets]. unfold is_newline in Hc. rewrite Hc.
  rewrite IH by (done || lia). done.
Qed.

Lemma c_string_whole s : lacks is_nul s → c_string s = s.
Proof.
  intros H. unfold c_string. induction s as [|c s IH]; [done|].
  inversion H as [|? ? Hc Hs]; subst. simpl. unfold not_nul, is_nul in *.
  destruct (Z.eqb_spec (code c) 0); [done|]. simpl. fold not_nul. specialize (IH Hs).
  destruct (span _ s) as [a b]. simpl in *. by rewrite IH.
Qed.

Lemma lmatch_newline line : lmatch (line +:+ newline) "*%" = lmatch line "*%".
Proof.
  destruct line as [|c [|d line]]; [done| |].
  - unfold lmatch. rewrite str_cons_app. cbn [String.prefix]. destruct (ascii_dec "*" c); [|done]. done.
  - unfold lmatch. rewrite !str_cons_app. cbn [String.prefix].
    destruct (ascii_dec "*" c); [|done]. destruct (ascii_dec "%" d); [|done]. by destruct line.
Qed.

Section reading.
Context `{PpdConfig}.

Lemma readline_line n f line rest :
  readable line →
  ppdobj_readline (S n) [(f, line +:+ newline +:+ rest)] =
  if dropped line then ppdobj_readline n [(f, rest)] else Done (Some (rtrim line)) [(f, rest)].
Proof.
  intros [Hn Hz Hl Hi]. cbn [ppdobj_readline]. unfold mbind, M_bind, gets, modify, id.
  destruct (line +:+ newline +:+ rest) as [|c text] eqn:E; [by destruct line|].
  rewrite <- E. clear E.
  assert (fgets (MAX_PPD_LINE + 2) (line +:+ newline +:+ rest) = (line +:+ newline, rest)) as ->.
  { apply fgets_whole; [done|]. unfold MAX_PPD_LINE in *. lia. }
  cbv zeta. rewrite c_string_whole.
  2: { apply lacks_app. split; [done|]. by repeat constructor. }
  rewrite lmatch_newline. unfold dropped. destruct (lmatch line "*%"); [done|].
  assert (rtrim (line +:+ newline) = rtrim line) as ->.
  { change newline with (String (chr 10) EmptyString). by rewrite rtrim_space. }
  destruct (rtrim line) as [|d line'] eqn:E; [done|].
  change (String.eqb (String d line') EmptyString) with false. cbn [orb]. by rewrite Hi.
Qed.

Lemma readline_end n f : ppdobj_readline (S (S n)) [(f, EmptyString)] = Done None [].
Proof. done. Qed.

Lemma for_words_app a b body s :
  for_words (a ++ b) body s = (for_words a body;; for_words b body) s.
Proof.
  revert s. induction a as [|w a IH]; intros s; [done|]. cbn [app for_words].
  unfold mbind, M_bind. destruct (body w s); [|done|done]. apply IH.
Qed.

(** The next line, with [n] for its reader, and those behind it, with [m]. *)
Definition read_then (n m : nat) : D unit :=
  line ← on_reader (ppdobj_readline n);
  match line with
  | None => mret tt
  | Some line => ppd_line line;; read_lines m
  end.

(** Line after line to the lexer. *)
Lemma read_then_all f lines n m s s' :
  Forall readable lines → (length lines + 2 <= n)%nat → (length lines + 1 <= m)%nat →
  for_words (seen_lines lines) ppd_line s = Done tt s' →
  read_then n m (set_d_reader [(f, unlines lines)] s) = Done tt (set_d_reader [] s').
Proof.
  revert n m s. induction lines as [|line lines IH]; intros n m s Hall Hn Hm E.
  - destruct n as [|[|n]]; simpl in Hn; [lia|lia|]. injection E as <-. by destruct s.
  - inversion Hall as [|? ? Hline Hall']; subst. destruct n as [|n]; simpl in Hn; [lia|].
    unfold read_then, mbind at 1, M_bind, on_reader.
    change (d_reader (set_d_reader ?r s)) with r. cbn [unlines foldr].
    rewrite readline_line by done. unfold seen_lines in E. cbn [List.filter] in E.
    destruct (dropped line); cbn [negb] in E.
    { specialize (IH n m s Hall' ltac:(lia) ltac:(simpl in Hm; lia) E).
      unfold read_then, mbind at 1, M_bind, on_reader in IH. exact IH. }
    cbn [map for_words] in E. unfold mbind at 1, M_bind in E.
    destruct (ppd_line (rtrim line) s) as [[] s1|e s1|r] eqn:E1; [|done|done].
    change (set_d_reader ?r (set_d_reader ?r' s)) with (set_d_reader r s).
    unfold mbind, M_bind. rewrite apart_ppd_line, E1. cbn [with_reader].
    simpl in Hm. destruct m as [|m]; [lia|]. apply IH; [done|lia|lia|done].
Qed.

Lemma read_PPD_file_lines name lines fuel s s' :
  slash_first name = true → ppd_files !! name = Some (unlines lines) →
  Forall readable lines → (length lines + 2 <= fuel)%nat →
  for_words (seen_lines lines) ppd_line (defaults s) = Done tt s' →
  ∃ s'', read_PPD_file fuel (Some name) s = Done tt s'' ∧ d_ppdstr s'' = d_ppdstr s'.
Proof.
  intros Hsl Hf Hl Hfuel E. unfold read_PPD_file, mbind, M_bind, modify, gu_Try, on_reader.
  assert (ppdobj_new name (d_reader (defaults s)) = Done tt [(name, unlines lines)]) as Hnew.
  { unfold ppdobj_new, ppdobj_open, ppd_path, ppd_find_file, gets, modify, mbind, M_bind, id, mret, M_ret.
    change (MAX_PPD_NEST <=? nest [] + 1) with false. cbv iota. by rewrite Hsl, Hf. }
  rewrite Hnew. destruct fuel as [|fuel]; [lia|].
  pose proof (read_then_all name lines (S fuel) fuel _ _ Hl ltac:(lia) ltac:(lia) E) as Er.
  change (read_then (S fuel) fuel) with (read_lines (S fuel)) in Er. rewrite Er.
  unfold ppdobj_free, modify, choose_rip, gets, id, mret, M_ret, mbind, M_bind, when, modify, mret, M_ret.
  repeat case_match; eexists; split; (reflexivity || done).
Qed.
End reading.

(** * Many statements *)

Definition sizes_of (l : list ppd_item) : nat := length (List.filter is_size l).

Lemma placed_put_in entries more s s' :
  placed entries s → put_in more s s' → placed (entries ++ more) s'.
Proof.
  intros Hp [Hs _].
  enough (∀ t, d_ppdstr t = d_ppdstr s' → placed (entries ++ more) t) as Ht by by apply Ht.
  intros t Ht. rewrite Hs in Ht. clear Hs s'. revert entries s t Hp Ht.
  induction more as [|[name value] more IH]; intros entries s t Hp Ht.
  - rewrite app_nil_r. destruct Hp as [Ha Hb]. simpl in Ht. split; rewrite Ht; done.
  - rewrite cons_middle, app_assoc. cbn [foldl fst] in Ht.
    exact (IH _ _ _ (placed_more entries s name value Hp) Ht).
Qed.

Lemma read_items l s entries :
  Forall good_item l → d_instring s = false → placed entries s →
  Z.of_nat (length (d_papersize s) + sizes_of l) <= MAX_PAPERSIZES →
  ∃ s', for_words (concat (map item_lines l)) ppd_line s = Done tt s' ∧
    placed (entries ++ concat (map item_codes l)) s'.
Proof.
  revert s entries. induction l as [|i l IH]; intros s entries Hall Hi Hp Hroom.
  { exists s. by rewrite app_nil_r. }
  inversion Hall as [|? ? Hg Hall']; subst. cbn [map concat].
  unfold sizes_of in *. cbn [List.filter] in Hroom.
  destruct (read_item i s Hg Hi) as (s1 & E1 & Hput & Hsize).
  { destruct (is_size i); simpl in Hroom; [lia | done]. }
  destruct (IH s1 (entries ++ item_codes i)) as (s' & E & Hp').
  { done. }
  { apply Hput. }
  { by eapply placed_put_in. }
  { destruct (is_size i); simpl in *; lia. }
  exists s'. split; [|by rewrite app_assoc].
  rewrite for_words_app. unfold mbind, M_bind. by rewrite E1.
Qed.

Lemma placed_defaults s : placed [] (defaults s).
Proof.
  split; [done|]. intros h Hh. change (d_ppdstr (defaults s)) with (replicate (Z.to_nat PPD_TABSIZE) ([] : list (string * string))).
  rewrite nth_lookup, lookup_replicate_2 by done. done.
Qed.

(** C34: pprdrv finds the code a PPD file gives for each option of a feature.  The
    file may hold comments and empty lines, features' code in quotes over one line
    or more, paper sizes, the language level, the other keywords the program knows
    but *pprRIP:, and statements with values that are not quoted, in any order: it
    is read to its end, and find_feature(), asked for a feature and an option,
    returns the value of the first statement that has this name, whatever the hash
    function made of it, and nothing if there is none.  What is asked of the code:
    that a space follows the colon — behind a quote right after the colon the value
    is lost, which [a_value_right_after_the_colon_is_lost] proves —, that the text
    has no quotes within it, and that it keeps to the lengths of the program's
    buffers.  Files that include others are not covered. *)
Theorem the_code_of_a_feature_is_found `{PpdConfig} name lines (l : list ppd_item) fuel s :
  slash_first name = true → ppd_files !! name = Some (unlines lines) →
  Forall readable lines → seen_lines lines = concat (map item_lines l) → Forall good_item l →
  Z.of_nat (length (d_papersize s) + sizes_of l) <= MAX_PAPERSIZES →
  (length lines + 2 <= fuel)%nat → d_instring s = false →
  ∃ s', read_PPD_file fuel (Some name) s = Done tt s' ∧
    ∀ t o, o ≠ EmptyString →
      lookup_feature t (Some o) s' =
      match first_named (full_name t o) (concat (map item_codes l)) with
      | Some value => Found value
      | None => NotFound
      end.
Proof.
  intros Hsl Hf Hr Hl Hg Hroom Hfuel Hi.
  destruct (read_items l (defaults s) [] Hg Hi (placed_defaults s) Hroom) as (s1 & E & Hp).
  rewrite <- Hl in E.
  destruct (read_PPD_file_lines name _ fuel s s1 Hsl Hf Hr Hfuel E) as (s' & E' & Hs').
  exists s'. split; [done|]. intros t o Ho. apply placed_lookup; [|done].
  destruct Hp as [Ha Hb]. split; by rewrite Hs'.
Qed.

(** ** A file *)

Definition sample_lines : list string :=
  ["*PPD-Adobe: " +:+ dquote +:+ "4.3" +:+ dquote;
   "*% A printer";
   "*LanguageLevel: " +:+ dquote +:+ "2" +:+ dquote;
   "*ColorDevice: False  ";
   "";
   "*OpenUI *Resolution/Dots: PickOne";
   "*DefaultResolution: 600dpi";
   "*Resolution 600dpi/600 dots: " +:+ dquote +:+ "1 dict dup";
   "/HWResolution [600 600] put" +:+ dquote;
   "*CloseUI: *Resolution";
   "*PaperDimension A4/A4: " +:+ dquote +:+ "595 842" +:+ dquote;
   "*Smoothing On: " +:+ dquote; "true setsmooth" +:+ dquote;
   "*End"].

Definition sample_ppd_config : PpdConfig :=
  {| PPD_INDEX := "/index"; PPDDIR := "/ppd"; ppd_files := {["/ppd/printer" := unlines sample_lines]} |}.

Definition sample_items : list ppd_item :=
  [Code (mkCode "*PPD-Adobe" "" None "4.3" []); Level "2"; Other "*ColorDevice: False";
   Other ("*OpenUI *Resolution/Dots" +:+ ": " +:+ "PickOne");
   Other ("*DefaultResolution" +:+ ": " +:+ "600dpi");
   Code (mkCode "*Resolution" "600dpi" (Some "600 dots") "1 dict dup" ["/HWResolution [600 600] put"]);
   Other ("*CloseUI" +:+ ": " +:+ "*Resolution");
   Size (mkCode "*PaperDimension" "A4" (Some "A4") "595 842" []);
   Code (mkCode "*Smoothing" "On" None "" ["true setsmooth"]);
   Other "*End"].

Definition blank_ppd : ppd :=
  mkPpd [] [] [] EmptyString EmptyString false no_features [] 0 false false 0 None None None [].

Ltac written := constructor; repeat constructor; try done; try discriminate; try (apply Nat.leb_le; reflexivity).

Lemma sample_items_good : Forall good_item sample_items.
Proof.
  repeat apply Forall_cons_2; [..|apply Forall_nil_2]; simpl good_item.
  - split; [written | intros ? ? [-> | ->]; reflexivity].
  - split; [by repeat constructor | done].
  - apply (silent_keyword "*ColorDevice:" " False"). by right; left.
  - by apply (unquoted_value "*OpenUI *Resolution/Dots" "PickOne"); [|repeat constructor|].
  - by apply (unquoted_value "*DefaultResolution" "600dpi"); [|repeat constructor|].
  - split; [written | intros ? ? [-> | ->]; reflexivity].
  - by apply (unquoted_value "*CloseUI" "*Resolution"); [|repeat constructor|].
  - split; [written | done |]. exists dimensions. do 3 eexists.
    split; [discriminate|]. split; [left | reflexivity].
  - split; [written | intros ? ? [-> | ->]; reflexivity].
  - by apply (no_value "*End"); [|repeat constructor].
Qed.

Lemma sample_lines_readable : Forall readable sample_lines.
Proof. repeat constructor; try done; try (apply Nat.leb_le; reflexivity). Qed.

Lemma the_code_of_a_feature_is_found_witness :
  ∃ s', read_PPD_file (H := sample_ppd_config) 20 (Some "/ppd/printer") blank_ppd = Done tt s' ∧
    lookup_feature "*Resolution" (Some "600dpi") s'
      = Found ("1 dict dup" +:+ newline +:+ "/HWResolution [600 600] put") ∧
    lookup_feature "*PaperDimension" (Some "A4") s' = Found "595 842" ∧
    lookup_feature "*Smoothing" (Some "Off") s' = NotFound.
Proof.
  destruct (@the_code_of_a_feature_is_found sample_ppd_config "/ppd/printer" sample_lines sample_items 20 blank_ppd)
    as (s' & E & Hs).
  - reflexivity.
  - exact (lookup_singleton_eq _ _).
  - exact sample_lines_readable.
  - reflexivity.
  - exact sample_items_good.
  - done.
  - apply Nat.leb_le. reflexivity.
  - reflexivity.
  - exists s'. split; [exact E|]. split_and!; rewrite Hs by discriminate; reflexivity.
Defined.

(** A value that begins right behind the colon is lost: its quote was
    overwritten. *)
Theorem a_value_right_after_the_colon_is_lost k c rest s :
  good_code k → d_instring s = false → is_blank c = false → is_dq c = false →
  ppd_line (c_name k +:+ c_label k +:+ ":" +:+ dquote +:+ String c rest) s
  = Done tt s.
Proof.
  intros [Hk Hkey] Hi Hb Hd.
  unfold ppd_line, gets, mbind, M_bind. rewrite Hi. cbv iota.
  set (line := c_name k +:+ _) in *.
  assert (∃ line', line = String "*" line') as (line' & El).
  { destruct (c_name_star k Hk) as [l El]. unfold line. rewrite El. by eexists. }
  assert (keyword_line line = None) as Hkl.
  { unfold line. destruct (behind_name k (dquote +:+ String c rest)) as (d & r & E & Hc).
    rewrite E. by apply Hkey. }
  rewrite El in Hkl |- *. rewrite Hkl. rewrite <- El.
  assert (statement line = Some (before (Ascii.eqb ":") line +:+ ":", String c rest)) as Hst.
  { unfold statement.
    set (name := c_name k +:+ c_label k).
    assert (lacks (Ascii.eqb ":") name) as Hn.
    { unfold name. rewrite lacks_app. split; [by apply c_name_lacks_colon | apply Hk]. }
    assert (line = name +:+ String ":" (dquote +:+ String c rest)) as ->.
    { unfold line, name. by rewrite str_app_assoc. }
    rewrite before_lacks, from_lacks by done. cbv zeta.
    assert ((strlen (String ":" (dquote +:+ String c rest)) <=? 1) = false) as ->; [|done].
    apply Z.leb_gt. unfold strlen. simpl. lia. }
  unfold other_line. rewrite Hst.
  assert (drop_while is_blank (String c rest) = String c rest) as ->.
  { unfold drop_while. simpl. by rewrite Hb. }
  unfold is_dq in Hd. by rewrite Ascii.eqb_sym, Hd.
Qed.
