(* ===== verification/PropTokens.v ===== *)
(** Tokens: they fit their buffer, and quoted names come back. *)
From S2P Require Import Prelude.
From S2P Require Import Text.
From S2P Require Import TextFacts.
From S2P Require Import Tokens.

(** * The buffer *)

(** The characters stored for the words, each with its NUL. *)
Fixpoint stored_bytes (words : list string) : Z :=
  match words with
  | [] => 0
  | w :: words' => strlen w + 1 + stored_bytes words'
  end.

Definition at_blank (s : string) : Prop :=
  match s with EmptyString => True | String c _ => is_blank c = true end.

Lemma strlen_cons c s : strlen (String c s) = 1 + strlen s.
Proof. unfold strlen. simpl. lia. Qed.

(** A word is not longer than what it takes of the line; but for the first it
    ends at a blank. *)
Lemma token_word_bound first started lastc levels line :
  let '(word, rest, _) := token_word first started lastc levels line in
  strlen word + strlen rest <= strlen line ∧ (first = false → at_blank rest).
Proof.
  revert started lastc levels. induction line as [|c line IH]; intros started lastc [q a].
  { done. }
  assert (∀ levels,
    let '(word, rest, _) :=
      (if first && Ascii.eqb c ":" then (String c EmptyString, line, levels)
       else let '(word, rest, levels) := token_word first true c levels line in
            (String c word, rest, levels)) in
    strlen word + strlen rest <= strlen (String c line) ∧ (first = false → at_blank rest)) as Hstore.
  { intros levels. specialize (IH true c levels). destruct (first && Ascii.eqb c ":") eqn:Ef.
    - split; [rewrite !strlen_cons; change (strlen EmptyString) with 0; lia|]. by destruct first.
    - destruct (token_word first true c levels line) as [[w r] lv]. rewrite !strlen_cons.
      split; [lia | tauto]. }
  assert (∀ levels,
    let '(word, rest, _) := token_word first started lastc levels line in
    strlen word + strlen rest <= strlen (String c line) ∧ (first = false → at_blank rest)) as Hskip.
  { intros levels. specialize (IH started lastc levels).
    destruct (token_word first started lastc levels line) as [[w r] lv]. rewrite !strlen_cons.
    split; [lia | tauto]. }
  cbn [token_word]. cbv zeta.
  destruct ((q =? 0) && (a =? 0) && is_blank c) eqn:Eb.
  { split; [by rewrite strlen_cons|]. intros _. simpl. by apply andb_true_iff in Eb as [_ ?]. }
  clear Eb. destruct (negb started && _ && _); [destruct (q + 1 =? 1); [apply Hskip | apply Hstore]|].
  destruct (negb (q =? 0) && _ && _); [destruct (q - 1 =? 0); [apply Hskip | apply Hstore]|].
  destruct ((q =? 0) && _); [|apply Hstore].
  destruct (negb started); [apply Hskip|]. destruct (negb (a =? 0)); [apply Hskip | apply Hstore].
Qed.

Lemma drop_blanks line : strlen (drop_while is_blank line) <= strlen line.
Proof.
  unfold drop_while. induction line as [|c line IH]; [done|]. simpl.
  destruct (is_blank c); [|done]. destruct (span is_blank line). simpl in *. rewrite strlen_cons. lia.
Qed.

Lemma drop_a_blank line :
  at_blank line → line ≠ EmptyString → strlen (drop_while is_blank line) + 1 <= strlen line.
Proof.
  destruct line as [|c line]; [done|]. simpl. intros Hc _. pose proof (drop_blanks line) as H.
  unfold drop_while in *. simpl. rewrite Hc. destruct (span is_blank line). simpl in *.
  rewrite strlen_cons. lia.
Qed.

Lemma token_words_line room first levels c line :
  token_words (S room) first levels (String c line) =
  let '(word, rest, levels) := token_word first false (chr 0) levels (String c line) in
  word :: token_words room false levels (drop_while is_blank rest).
Proof. done. Qed.

Lemma token_words_bound room levels line :
  stored_bytes (token_words room false levels line) <= strlen line + 1.
Proof.
  revert levels line. induction room as [|room IH]; intros levels line.
  { pose proof (strlen_nonneg line). simpl. lia. }
  destruct line as [|c line]; [done|]. rewrite token_words_line.
  pose proof (token_word_bound false false (chr 0) levels (String c line)) as H.
  destruct (token_word _ _ _ _ _) as [[w r] lv]. destruct H as [Hl Hb]. cbn [stored_bytes].
  destruct r as [|d r].
  - assert (token_words room false lv (drop_while is_blank EmptyString) = []) as -> by by destruct room.
    pose proof (strlen_nonneg EmptyString). cbn [stored_bytes]. lia.
  - pose proof (drop_a_blank (String d r) (Hb eq_refl) ltac:(discriminate)).
    specialize (IH lv (drop_while is_blank (String d r))). lia.
Qed.

(** Whatever the line, the words tokenize() takes out of it fit into
    tokenized_line[], two characters longer than the longest line it accepts,
    and their pointers into tokens[]: every word but the first and the last is
    paid for by the blank behind it. *)
Theorem the_words_fit_their_buffer {S} line line_len (s : S) :
  strlen line <= line_len →
  match tokenize line line_len s with
  | Done words s' =>
      stored_bytes words <= tokenized_line ∧ (length words <= MAX_TOKENS)%nat ∧ s' = s
  | Thrown _ s' => MAX_TOKENIZED < line_len ∧ s' = s
  | Stopped _ => False
  end.
Proof.
  intros Hlen. unfold tokenize. destruct (Z.ltb_spec MAX_TOKENIZED line_len) as [Hlong|Hshort]; [done|].
  split; [|split; [|done]].
  - change MAX_TOKENS with (Datatypes.S 19%nat). destruct line as [|c line]; [done|]. rewrite token_words_line.
    pose proof (token_word_bound true false (chr 0) (0, 0) (String c line)) as H.
    destruct (token_word _ _ _ _ _) as [[w r] lv]. destruct H as [Hl _].
    pose proof (token_words_bound 19 lv (drop_while is_blank r)).
    pose proof (drop_blanks r). cbn [stored_bytes]. unfold tokenized_line. lia.
  - enough (∀ room first levels line, length (token_words room first levels line) <= room)%nat by done.
    clear. induction room as [|room IH]; intros first levels line; [done|].
    destruct line as [|c line]; [simpl; lia|]. rewrite token_words_line.
    destruct (token_word _ _ _ _ _) as [[w r] lv]. simpl. specialize (IH false lv (drop_while is_blank r)). lia.
Qed.

Lemma the_words_fit_their_buffer_witness :
  match tokenize "%%Pages: 3 1" 12 tt with
  | Done words s' => stored_bytes words <= 514 ∧ (length words <= 20)%nat ∧ s' = tt
  | _ => False
  end.
Proof.
  exact (the_words_fit_their_buffer "%%Pages: 3 1" 12 tt ltac:(unfold strlen; simpl; lia)).
Defined.

(** * Names *)

(** What tokenize() looks for. *)
Definition token_special (c : ascii) : bool :=
  Ascii.eqb c "(" || Ascii.eqb c ")" || Ascii.eqb c double_quote || Ascii.eqb c backslash_char.

Definition ordinary (s : string) : Prop := Forall (λ c, token_special c = false) (chars s).

Definition unspaced (s : string) : Prop := Forall (λ c, is_blank c = false) (chars s).

Lemma special_cases c :
  token_special c = false →
  Ascii.eqb c "(" = false ∧ Ascii.eqb c ")" = false ∧ Ascii.eqb c double_quote = false ∧
  Ascii.eqb c backslash_char = false.
Proof. unfold token_special. by destruct (Ascii.eqb c "("), (Ascii.eqb c ")"), (Ascii.eqb c double_quote). Qed.

Lemma at_blank_stops first started lastc rest :
  at_blank rest → token_word first started lastc (0, 0) rest = (EmptyString, rest, (0, 0)).
Proof. destruct rest as [|c rest]; [done|]. simpl. by intros ->. Qed.

Lemma plain_word started lastc a rest :
  ordinary a → unspaced a → at_blank rest →
  token_word false started lastc (0, 0) (a +:+ rest) = (a, rest, (0, 0)).
Proof.
  revert started lastc. induction a as [|c a IH]; intros started lastc Ho Hu Hr.
  { by apply at_blank_stops. }
  inversion Ho as [|? ? Hc Ho']; inversion Hu as [|? ? Hb Hu']; subst.
  apply special_cases in Hc as (H1 & H2 & H3 & H4). rewrite str_cons_app. cbn [token_word]. cbv zeta.
  rewrite Hb, H1, H2, H3, !andb_false_r. cbn [andb]. by rewrite IH.
Qed.

Lemma quoted_rest started lastc a rest :
  ordinary a → at_blank rest → Ascii.eqb lastc backslash_char = false →
  token_word false started lastc (1, 0) (a +:+ ")" +:+ rest) = (a, rest, (0, 0)).
Proof.
  revert started lastc. induction a as [|c a IH]; intros started lastc Ho Hr Hl.
  { rewrite str_nil_app, str_cons_app, str_nil_app. cbn [token_word]. cbv zeta.
    change (Ascii.eqb ")" "(") with false. change (Ascii.eqb ")" ")") with true.
    rewrite Hl, !andb_false_r. cbn [negb andb Z.eqb Z.sub Z.add Z.opp Z.pos_sub].
    by rewrite at_blank_stops. }
  inversion Ho as [|? ? Hc Ho']; subst.
  apply special_cases in Hc as (H1 & H2 & H3 & H4). rewrite str_cons_app. cbn [token_word]. cbv zeta.
  rewrite H1, H2, H3, !andb_false_r. cbn [andb Z.eqb]. by rewrite IH.
Qed.

(** A name that can be given as a word of a comment. *)
Definition nameable (a : string) : Prop := ordinary a ∧ (String.length a <= 253)%nat.

Lemma quoted_word a rest :
  nameable a → at_blank rest →
  token_word false false (chr 0) (0, 0) (quote a +:+ rest) = (a, rest, (0, 0)).
Proof.
  intros [Ho Hl] Hr. unfold quote.
  destruct (existsb is_blank (chars a) || forallb gu_ascii_isdigit (chars a)) eqn:E.
  - assert (str_take 255 ("(" +:+ a +:+ ")") = "(" +:+ a +:+ ")") as ->.
    { apply str_take_ge. rewrite !length_app_str. simpl. lia. }
    rewrite !str_app_assoc, str_cons_app, str_nil_app. cbn [token_word]. cbv zeta.
    cbn [negb andb Z.eqb Z.add]. rewrite quoted_rest by done. done.
  - apply plain_word; [done | | done]. apply orb_false_iff in E as [E _]. unfold unspaced.
    apply Forall_forall. intros c Hc. apply not_true_iff_false. intros Hb.
    apply not_true_iff_false in E. apply E. apply existsb_exists. exists c. split; [by apply list_elem_of_In|done].
Qed.

(** A keyword, its colon, and the quoted words behind it. *)
Definition words_text (args : list string) : string :=
  foldr (λ a text, " " +:+ quote a +:+ text) EmptyString args.

Definition comment_line (keyword : string) (args : list string) : string :=
  keyword +:+ ":" +:+ words_text args.

Lemma quote_first a : ∃ c q, quote a = String c q ∧ is_blank c = false.
Proof.
  unfold quote. destruct (existsb is_blank (chars a) || forallb gu_ascii_isdigit (chars a)) eqn:E.
  { by eexists _, _. }
  destruct a as [|c a]; [done|]. exists c, a. split; [done|].
  apply orb_false_iff in E as [E _]. simpl in E. by apply orb_false_iff in E as [E _].
Qed.

Lemma words_text_blank args : at_blank (words_text args).
Proof. by destruct args. Qed.

Lemma token_words_args room args :
  Forall nameable args → (length args <= room)%nat →
  token_words room false (0, 0) (drop_while is_blank (words_text args)) = args.
Proof.
  revert room. induction args as [|a args IH]; intros room Ha Hr; [by destruct room|].
  inversion Ha as [|? ? Hn Ha']; subst. destruct room as [|room]; simpl in Hr; [lia|].
  destruct (quote_first a) as (c & q & Hq & Hc).
  assert (drop_while is_blank (words_text (a :: args)) = quote a +:+ words_text args) as ->.
  { cbn [words_text foldr]. rewrite Hq. unfold drop_while. simpl. by rewrite Hc. }
  rewrite Hq at 1. rewrite str_cons_app, token_words_line, <- str_cons_app, <- Hq.
  rewrite quoted_word by (done || apply words_text_blank). by rewrite IH by (done || lia).
Qed.

Definition keyword (k : string) : Prop :=
  ordinary k ∧ unspaced k ∧ Forall (λ c, Ascii.eqb c ":" = false) (chars k).

Lemma keyword_word started lastc k rest :
  keyword k → token_word true started lastc (0, 0) (k +:+ ":" +:+ rest) = (k +:+ ":", rest, (0, 0)).
Proof.
  revert started lastc. induction k as [|c k IH]; intros started lastc (Ho & Hu & Hc).
  { rewrite !str_nil_app, str_cons_app, str_nil_app. cbn [token_word]. cbv zeta.
    change (Ascii.eqb ":" "(") with false. change (Ascii.eqb ":" ")") with false.
    change (Ascii.eqb ":" double_quote) with false. change (is_blank ":") with false.
    rewrite !andb_false_r. done. }
  inversion Ho as [|? ? H Ho']; inversion Hu as [|? ? Hb Hu']; inversion Hc as [|? ? Hn Hc']; subst.
  apply special_cases in H as (H1 & H2 & H3 & H4). rewrite str_cons_app. cbn [token_word]. cbv zeta.
  rewrite Hb, H1, H2, H3, Hn, !andb_false_r. cbn [andb]. by rewrite IH by done.
Qed.

(** What is written with quote() is read back by tokenize().  A comment made of
    a keyword with its colon and up to nineteen names, each through quote(),
    is broken into that keyword and these names, spaces in them, digits only
    or nothing at all notwithstanding, if no name has a parenthesis, a double
    quote or a backslash and the line is not too long. *)
Theorem quoted_names_are_read_back {S} k args (s : S) :
  keyword k → Forall nameable args → (length args < MAX_TOKENS)%nat →
  strlen (comment_line k args) <= MAX_TOKENIZED →
  tokenize (comment_line k args) (strlen (comment_line k args)) s = Done ((k +:+ ":") :: args) s.
Proof.
  intros Hk Ha Hn Hl. unfold tokenize. destruct (Z.ltb_spec MAX_TOKENIZED (strlen (comment_line k args))); [lia|].
  unfold mret, M_ret. f_equal. change MAX_TOKENS with (Datatypes.S 19%nat) in *. unfold comment_line.
  assert (∃ c line, k +:+ ":" +:+ words_text args = String c line) as (c & line & E).
  { destruct k as [|c k]; rewrite ?str_cons_app; by eexists _, _. }
  rewrite E, token_words_line, <- E, keyword_word by done. by rewrite token_words_args by (done || lia).
Qed.

Lemma quoted_names_are_read_back_witness :
  tokenize "%%IncludeResource: procset (Adobe Level 2) (15)" 47 tt
  = Done ["%%IncludeResource:"; "procset"; "Adobe Level 2"; "15"] tt.
Proof.
  apply (quoted_names_are_read_back "%%IncludeResource" ["procset"; "Adobe Level 2"; "15"] tt).
  - repeat constructor.
  - repeat constructor; apply Nat.leb_le; reflexivity.
  - apply Nat.ltb_lt. reflexivity.
  - apply Z.leb_le. reflexivity.
Defined.

(** Parentheses inside a string are not counted: the string ends at the first
    closing one. *)
Theorem nested_parentheses_split_a_string :
  tokenize "%%For: (a (b) c)" 16 tt = Done ["%%For:"; "a (b"; "c)"] tt.
Proof. reflexivity. Qed.
