(* ===== verification/Programs.v ===== *)
(** Programs that do the same in every state, programs that fail in no other way
    than through fatal(), and programs that return. *)
From S2P Require Import Prelude.
From S2P Require Import Text.
From S2P Require Import TextFacts.
From S2P Require Import Spooler.
From S2P Require Import DriverOutput.

Section programs.
Context {S : Type}.

Record alike {A} (m m' : M S A) : Prop := Alike { alike_run : ∀ s, m s = m' s }.

#[export] Instance alike_equivalence {A} : Equivalence (@alike A).
Proof.
  split.
  - by intros m.
  - intros m m' [H]. by split.
  - intros m m' m'' [H1] [H2]. split. intros s. by rewrite H1.
Qed.

#[export] Instance bind_alike {A B} :
  Proper (pointwise_relation A (@alike B) ==> @alike A ==> @alike B) (@mbind (M S) _ A B).
Proof.
  intros f f' Hf m m' [Hm]. split. intros s. unfold mbind, M_bind. rewrite Hm.
  destruct (m' s); [apply Hf | done | done].
Qed.

Lemma alike_assoc {A B C} (m : M S A) (f : A → M S B) (g : B → M S C) :
  alike ((m ≫= f) ≫= g) (m ≫= λ a, f a ≫= g).
Proof. split. intros s. unfold mbind, M_bind. by destruct (m s). Qed.

Lemma ret_bind {A B} (a : A) (f : A → M S B) : alike (mret a ≫= f) (f a).
Proof. by split. Qed.

Lemma alike_ret (m : M S unit) : alike (m;; mret tt) m.
Proof. split. intros s. unfold mbind, M_bind. by destruct (m s) as [[]| |]. Qed.

Lemma bind_under {A B} (m : M S A) (f g : A → M S B) :
  (∀ a, alike (f a) (g a)) → alike (m ≫= f) (m ≫= g).
Proof. intros H. by apply bind_alike. Qed.

(** ** Only fatal() *)

Definition only_fatal {A} (m : M S A) : Prop := ∀ s,
  match m s with
  | Done _ _ => True
  | Thrown _ _ => False
  | Stopped r => ∃ code msg, r = SFatal code msg
  end.

Lemma only_fatal_ret {A} (a : A) : only_fatal (mret a).
Proof. done. Qed.

Lemma only_fatal_fatal {A} code msg : only_fatal (A := A) (fatal code msg).
Proof. intros s. by eexists _, _. Qed.

Lemma only_fatal_gets {A} (f : S → A) : only_fatal (gets f).
Proof. done. Qed.

Lemma only_fatal_modify f : only_fatal (modify f).
Proof. done. Qed.

Lemma only_fatal_bind {A B} (m : M S A) (f : A → M S B) :
  only_fatal m → (∀ a, only_fatal (f a)) → only_fatal (m ≫= f).
Proof.
  intros Hm Hf s. unfold mbind, M_bind. specialize (Hm s). destruct (m s); [apply Hf | done | done].
Qed.

Lemma only_fatal_when b m : only_fatal m → only_fatal (when b m).
Proof. by destruct b. Qed.
End programs.

#[export] Hint Resolve only_fatal_ret only_fatal_fatal only_fatal_gets only_fatal_modify
  only_fatal_when : only_fatal.

(** What a run came to, step by step. *)
Lemma done_bind {S A B} (m : M S A) (f : A → M S B) s b s' :
  (m ≫= f) s = Done b s' → ∃ a s1, m s = Done a s1 ∧ f a s1 = Done b s'.
Proof. unfold mbind, M_bind. destruct (m s); intros; try done. eauto. Qed.

(** * Writing *)

Lemma write_app a b : alike (printer_write (a +:+ b)) (printer_write a;; printer_write b).
Proof.
  induction a as [|c a IH]; [done|]. rewrite str_cons_app. cbn [printer_write].
  rewrite alike_assoc. by apply bind_under.
Qed.

Lemma flush_only_fatal : only_fatal printer_flush.
Proof.
  apply only_fatal_bind; [done|]. intros s. destruct (write_loop _ _ _) as [[sent writes]|];
    [|apply only_fatal_fatal]. apply only_fatal_bind; done.
Qed.

Lemma raw_putc_only_fatal c : only_fatal (raw_printer_putc c).
Proof.
  apply only_fatal_bind; [done|]. intros s. apply only_fatal_bind; [|done].
  apply only_fatal_when, only_fatal_bind; [apply flush_only_fatal | done].
Qed.

Lemma putc_only_fatal c : only_fatal (printer_putc c).
Proof.
  apply only_fatal_bind; [done|]. intros s. unfold tbcp_printer_putc.
  destruct (ob_TBCP s); [|apply raw_putc_only_fatal].
  destruct (tbcp_special c); [|apply raw_putc_only_fatal].
  apply only_fatal_bind; intros; apply raw_putc_only_fatal.
Qed.

Lemma write_only_fatal text : only_fatal (printer_write text).
Proof.
  induction text; [done|]. apply only_fatal_bind; [apply putc_only_fatal | done].
Qed.

#[export] Hint Resolve putc_only_fatal write_only_fatal : only_fatal.

(** * Routines that return *)

Definition returns {S A} (m : M S A) : Prop := ∀ s, m s ≠ Stopped SFuel.

Section returns.
Context {S : Type}.

Lemma returns_ret {A} (a : A) : returns (S := S) (mret a).
Proof. done. Qed.
Lemma returns_gets {A} (f : S → A) : returns (gets f).
Proof. done. Qed.
Lemma returns_modify f : returns (S := S) (modify f).
Proof. done. Qed.
Lemma returns_fatal {A} code msg : returns (S := S) (A := A) (fatal code msg).
Proof. done. Qed.
Lemma returns_undef {A} why : returns (S := S) (A := A) (undef why).
Proof. done. Qed.
Lemma returns_throw {A} msg : returns (S := S) (A := A) (gu_Throw msg).
Proof. done. Qed.

Lemma returns_bind {A B} (m : M S A) (f : A → M S B) :
  returns m → (∀ a, returns (f a)) → returns (m ≫= f).
Proof.
  intros Hm Hf s. unfold mbind, M_bind. specialize (Hm s). destruct (m s); [apply Hf | done | congruence].
Qed.

Lemma returns_when b m : returns (S := S) m → returns (when b m).
Proof. by destruct b. Qed.

Lemma only_fatal_returns {A} (m : M S A) : only_fatal m → returns m.
Proof. intros H s E. specialize (H s). rewrite E in H. by destruct H as (? & ? & ?). Qed.
End returns.

Create HintDb returns.
#[export] Hint Resolve returns_ret returns_gets returns_modify returns_fatal returns_undef
  returns_throw returns_when : returns.

(** The structure of a routine, down to calls that are known to return. *)
Ltac returns :=
  repeat (cbv zeta; first
    [ progress eauto with returns
    | apply returns_bind; [|intros]
    | apply returns_when
    | case_match ]).

Lemma write_returns text : returns (printer_write text).
Proof. apply only_fatal_returns, write_only_fatal. Qed.

Lemma putc_returns c : returns (printer_putc c).
Proof. apply only_fatal_returns, putc_only_fatal. Qed.

#[export] Hint Resolve write_returns putc_returns : returns.

Lemma putline_returns s : returns (printer_putline s).
Proof. unfold printer_putline. returns. Qed.

Lemma printf_returns fmt va : returns (printer_printf fmt va).
Proof.
  revert va. induction fmt as [fmt IH] using (induction_ltof1 _ String.length). unfold ltof in IH.
  intros va. destruct fmt as [|c fmt]; [done|].
  assert (∀ va, returns (printer_printf fmt va)) as H1 by (intros; apply IH; simpl; lia).
  assert (∀ d rest va, fmt = String d rest → returns (printer_printf rest va)) as H2.
  { intros d rest va' ->. apply IH. simpl. lia. }
  destruct (Ascii.eqb_spec c "%") as [->|Hc].
  - destruct fmt as [|d fmt]; [done|]. specialize (H2 d fmt). cbn [printer_printf].
    repeat case_match; returns; by apply H2.
  - assert (printer_printf (String c fmt) va = (printer_putc c;; printer_printf fmt va)) as ->.
    { destruct c as [[] [] [] [] [] [] [] []]; first [reflexivity | by destruct Hc]. }
    returns.
Qed.

#[export] Hint Resolve putline_returns printf_returns : returns.
