(* ===== verification/Fonts.v ===== *)
(** Fonts on their way to the printer: PFB files are expanded
    (src/pprdrv/pprdrv_pfb.c), of a font for the Macintosh the printer gets the
    part that it can use (src/pprdrv/pprdrv_mactt.c). *)
From S2P Require Import Prelude.
From S2P Require Import Text.
From S2P Require Import Spooler.
From S2P Require Import DriverOutput.
From S2P Require Import ReadPpd.
From S2P Require Import Ppd.

(** * PFB *)

Definition pfb_corrupt {A} (defect : Z) : O A :=
  fatal EXIT_PRNERR_NORETRY ("PFB file is corrupt (defect type " +:+ fmt_d defect +:+ ")").

(** The characters of the segment, carriage returns made line feeds; and what is
    behind it. *)
Fixpoint pfb_ascii (length : Z) (file : string) : O string :=
  if length =? 0 then mret file
  else
    match file with
    | EmptyString => pfb_corrupt 3
    | String c file' =>
        printer_putc (if code c =? 13 then chr 10 else c);;
        pfb_ascii (length - 1) file'
    end.

Definition hexchar (n : Z) : ascii :=
  default "0"%char (String.get (Z.to_nat n) "0123456789ABCDEF").

Fixpoint pfb_hex (length linelength : Z) (file : string) : O string :=
  if length =? 0 then mret file
  else
    match file with
    | EmptyString => pfb_corrupt 4
    | String c file' =>
        printer_putc (hexchar (code c / 16));;
        printer_putc (hexchar (code c mod 16));;
        if 40 <=? linelength + 1
        then printer_putc (chr 10);; pfb_hex (length - 1) 0 file'
        else pfb_hex (length - 1) (linelength + 1) file'
    end.

(** Four bytes, the lowest first. *)
Definition pfb_length (file : string) : O (Z * string) :=
  match file with
  | String a (String b (String c (String d file'))) =>
      mret (((code d * 256 + code c) * 256 + code b) * 256 + code a, file')
  | _ => pfb_corrupt 2
  end.

(** A segment takes two bytes at least. *)
Fixpoint pfb_segments (fuel : nat) (file : string) : O unit :=
  match fuel with
  | 0%nat => λ _, Stopped SFuel
  | S fuel' =>
      match file with
      | EmptyString => pfb_corrupt 6
      | String c file =>
          if negb (code c =? 128) then pfb_corrupt 1
          else
            match file with
            | EmptyString => pfb_corrupt 5
            | String segment_type file =>
                if code segment_type =? 1 then
                  '(length, file) ← pfb_length file;
                  file ← pfb_ascii length file;
                  pfb_segments fuel' file
                else if code segment_type =? 2 then
                  '(length, file) ← pfb_length file;
                  file ← pfb_hex length 0 file;
                  pfb_segments fuel' file
                else if code segment_type =? 3 then mret tt
                else pfb_corrupt 5
            end
      end
  end.

Definition send_font_pfb (file : string) : O unit :=
  pfb_segments (S (String.length file)) file.

(** * Macintosh fonts *)

Definition TLINE : nat := 2048.

(** while(fgets(tline, sizeof(tline), f)): a line takes a character. *)
Fixpoint font_lines (fuel : nat) (file : string) : list string :=
  match fuel, file with
  | S fuel', String _ _ =>
      let '(line, rest) := fgets TLINE file in
      c_string line :: font_lines fuel' rest
  | _, _ => []
  end.

Definition ended_line (s : string) : string := s +:+ of_chars [chr 10].

Abbreviation font_place := (string * list string)%type.

(** _copy() and _discard(): what was read must be followed by another line. *)
Fixpoint font_copy (stop tline : string) (lines : list string) : O font_place :=
  printer_write tline;;
  match lines with
  | [] => fatal EXIT_PRNERR_NORETRY "Dual-type font is not complete."
  | line :: lines' =>
      if String.eqb tline stop then mret (line, lines') else font_copy stop line lines'
  end.

Fixpoint font_discard (stop tline : string) (lines : list string) : O font_place :=
  match lines with
  | [] => fatal EXIT_PRNERR_NORETRY "Dual-type font is not complete."
  | line :: lines' =>
      if String.eqb tline stop then mret (line, lines') else font_discard stop line lines'
  end.

Definition font_part (wanted : bool) (stop tline : string) (lines : list string)
    : O font_place :=
  if wanted then font_copy stop tline lines else font_discard stop tline lines.

Definition is_space_char (c : ascii) : bool :=
  is_blank c || (code c =? 13) || (code c =? 10).

Fixpoint font_skipblank (tline : string) (lines : list string) : font_place :=
  if forallb is_space_char (chars tline) then
    match lines with
    | [] => (tline, [])
    | line :: lines' => font_skipblank line lines'
    end
  else (tline, lines).

(** Up to the first [%begin] line, which is then in tline[]; at the end of the
    file tline[] holds the last line. *)
Fixpoint font_head (tline : option string) (lines : list string)
    : O (option string * list string) :=
  match lines with
  | [] => mret (tline, [])
  | line :: lines' =>
      if lmatch line "%begin" then mret (Some line, lines')
      else printer_write line;; font_head (Some line) lines'
  end.

(** fgets() as a statement *)
Definition font_next (tline : string) (lines : list string) : font_place :=
  match lines with [] => (tline, []) | line :: lines' => (line, lines') end.

Definition sfntBC : string :=
  foldr (λ line text, ended_line line +:+ text) EmptyString
    ["%beginsfntBC";
     "truedictknown type42known not and ( %endsfntBC)exch fcheckload";
     "/TrueState 271 string def";
     "TrueDict begin sfnts save 72 0 matrix defaultmatrix dtransform dup mul";
     "exch dup mul add sqrt cvi 0 72 matrix defaultmatrix dtransform dup mul";
     "exch dup mul add sqrt cvi 3 -1 roll restore TrueState initer end";
     "/BuildChar{exch begin Encoding 1 index get CharStrings dup 2 index known";
     "{exch}{exch pop /.notdef}ifelse get dup xcheck{currentdict systemdict";
     "begin begin exec end end}{exch pop TrueDict begin /bander load cvlit";
     "exch TrueState render end}ifelse end} bind def";
     EmptyString;
     " %endsfntBC"].

Fixpoint font_tail (tline : string) (lines : list string) : O unit :=
  printer_write tline;;
  match lines with [] => mret tt | line :: lines' => font_tail line lines' end.

(** The TrueType part: its glyphs, the BuildChar procedure, the definition. *)
Definition font_sfnt (type42_ok : bool) (TTRasterizer : Z) (tline : string) (lines : list string)
    : O font_place :=
  '(tline, lines) ← font_part type42_ok (ended_line " %endsfnt") tline lines;
  let '(tline, lines) := font_skipblank tline lines in
  let emulated := type42_ok && (TTRasterizer =? TT_ACCEPT68K) in
  '(tline, lines) ←
    (if String.eqb tline (ended_line "%beginsfntBC")
     then font_part emulated (ended_line " %endsfntBC") tline lines
     else when emulated (printer_write sfntBC);; mret (tline, lines));
  let '(tline, lines) := font_skipblank tline lines in
  if negb (String.eqb tline (ended_line "%beginsfntdef"))
  then fatal EXIT_PRNERR_NORETRY "Dual-Type font has no sfntdef section."
  else font_part type42_ok (ended_line " %endsfntdef") tline lines.

(** Its second line is sent as a comment. *)
Definition font_type1 (type42_sent : bool) (tline : string) (lines : list string)
    : O font_place :=
  if type42_sent then font_discard (ended_line " %endType1") tline lines
  else
    printer_write tline;;
    let '(tline, lines) := font_next tline lines in
    printer_printf "%%PPR %s" [AS tline];;
    let '(tline, lines) := font_next tline lines in
    font_copy (ended_line " %endType1") tline lines.

Definition send_font_mactt (type42_ok : bool) (TTRasterizer : Z) (file : string) : O unit :=
  '(tline, lines) ← font_head None (font_lines (String.length file) file);
  match tline with
  | None => undef "tline[]"
  | Some tline =>
      let is_sfnt := String.eqb tline (ended_line "%beginsfnt") in
      '(tline, lines) ←
        (if is_sfnt then font_sfnt type42_ok TTRasterizer tline lines else mret (tline, lines));
      let '(tline, lines) := font_skipblank tline lines in
      '(tline, lines) ←
        (if String.eqb tline (ended_line "%beginType1")
         then font_type1 (is_sfnt && type42_ok) tline lines
         else mret (tline, lines));
      font_tail tline lines
  end.
