(* ===== verification/PropFonts.v ===== *)
(** Fonts: a PFB file is expanded, or refused; of a dual font the printer gets one
    form. *)
From S2P Require Import Prelude.
From S2P Require Import Text.
From S2P Require Import TextFacts.
From S2P Require Import Spooler.
From S2P Require Import DriverOutput.
From S2P Require Import Programs.
From S2P Require Import Ppd.
From S2P Require Import Fonts.

(** * PFB files *)

Inductive segment :=
| Plain (text : string)
| Binary (data : string).

Definition contents (seg : segment) : string :=
  match seg with Plain s | Binary s => s end.

Definition segment_length (n : Z) : string :=
  String (chr (n mod 256)) (String (chr (n / 256 mod 256)) (String (chr (n / 65536 mod 256))
    (String (chr (n / 16777216 mod 256)) EmptyString))).

Definition segment_file (seg : segment) : string :=
  String (chr 128) (String (chr (match seg with Plain _ => 1 | Binary _ => 2 end))
    (segment_length (strlen (contents seg)) +:+ contents seg)).

Definition end_of_font : string := String (chr 128) (String (chr 3) EmptyString).

Definition pfb_file (segs : list segment) : string :=
  foldr (λ seg text, segment_file seg +:+ text) EmptyString segs.

Definition small (seg : segment) : Prop := strlen (contents seg) < 4294967296.

(** ** Expanded *)

Fixpoint line_feeds (s : string) : string :=
  match s with
  | EmptyString => EmptyString
  | String c s' => String (if code c =? 13 then chr 10 else c) (line_feeds s')
  end.

Fixpoint hex_pairs (s : string) : string :=
  match s with
  | EmptyString => EmptyString
  | String c s' => String (hexchar (code c / 16)) (String (hexchar (code c mod 16)) (hex_pairs s'))
  end.

(** Forty bytes in a line; after those of the last one it is not ended. *)
Fixpoint hex_lines (fuel : nat) (s : string) : string :=
  match fuel with
  | 0%nat => EmptyString
  | S fuel' =>
      if (String.length s <? 40)%nat then hex_pairs s
      else hex_pairs (str_take 40 s) +:+ String (chr 10) (hex_lines fuel' (str_drop 40 s))
  end.

Definition expanded (seg : segment) : string :=
  match seg with
  | Plain s => line_feeds s
  | Binary s => hex_lines (S (String.length s)) s
  end.

Definition pfa_text (segs : list segment) : string :=
  foldr (λ seg text, expanded seg +:+ text) EmptyString segs.

(** ** Segments *)

Lemma strlen_step c s : (strlen (String c s) =? 0) = false ∧ strlen (String c s) - 1 = strlen s.
Proof. split; [apply Z.eqb_neq|]; unfold strlen; simpl; lia. Qed.

Lemma pfb_ascii_reads s rest :
  alike (pfb_ascii (strlen s) (s +:+ rest)) (printer_write (line_feeds s);; mret rest).
Proof.
  induction s as [|c s IH]; [by destruct rest|]. rewrite str_cons_app.
  destruct (strlen_step c s) as [H0 H1]. cbn [pfb_ascii line_feeds printer_write].
  rewrite H0, H1. rewrite alike_assoc. by apply bind_under.
Qed.

(** The loop as it counts. *)
Fixpoint hex_from (linelength : Z) (s : string) : string :=
  match s with
  | EmptyString => EmptyString
  | String c s' =>
      String (hexchar (code c / 16)) (String (hexchar (code c mod 16))
        (if 40 <=? linelength + 1 then String (chr 10) (hex_from 0 s')
         else hex_from (linelength + 1) s'))
  end.

Lemma pfb_hex_reads linelength s rest :
  alike (pfb_hex (strlen s) linelength (s +:+ rest))
    (printer_write (hex_from linelength s);; mret rest).
Proof.
  revert linelength. induction s as [|c s IH]; intros linelength; [by destruct rest|].
  rewrite str_cons_app. destruct (strlen_step c s) as [H0 H1].
  cbn [pfb_hex hex_from]. rewrite H0, H1. cbn [printer_write]. rewrite alike_assoc. apply bind_under.
  intros []. rewrite alike_assoc. apply bind_under. intros [].
  destruct (40 <=? linelength + 1); cbn [printer_write]; [|apply IH].
  rewrite alike_assoc. by apply bind_under.
Qed.

Lemma hex_from_line k s :
  (k < 40)%nat →
  hex_from (40 - Z.of_nat (S k)) s =
  if (String.length s <? S k)%nat then hex_pairs s
  else hex_pairs (str_take (S k) s) +:+ String (chr 10) (hex_from 0 (str_drop (S k) s)).
Proof.
  revert s. induction k as [|k IH]; intros [|c s] Hk; try done; cbn [hex_from].
  destruct (Z.leb_spec 40 (40 - Z.of_nat (S (S k)) + 1)); [lia|].
  replace (40 - Z.of_nat (S (S k)) + 1) with (40 - Z.of_nat (S k)) by lia.
  rewrite IH by lia.
  change (String.length (String c s) <? S (S k))%nat with (String.length s <? S k)%nat.
  by destruct (String.length s <? S k)%nat.
Qed.

Lemma str_drop_length n s : String.length (str_drop n s) = (String.length s - n)%nat.
Proof. revert s. induction n as [|n IH]; intros [|c s]; try done. simpl. apply IH. Qed.

Lemma hex_from_lines fuel s :
  (String.length s < fuel)%nat → hex_from 0 s = hex_lines fuel s.
Proof.
  revert s. induction fuel as [|fuel IH]; intros s Hf; [lia|]. cbn [hex_lines].
  change (hex_from 0 s) with (hex_from (40 - Z.of_nat (S 39)) s). rewrite hex_from_line by lia.
  change (S 39) with 40%nat. destruct (Nat.ltb_spec (String.length s) 40) as [|Hl]; [done|].
  rewrite IH; [done|]. rewrite str_drop_length. lia.
Qed.

(** ** Lengths *)

Lemma pfb_length_reads n rest s :
  0 <= n < 4294967296 → pfb_length (segment_length n +:+ rest) s = Done (n, rest) s.
Proof.
  intros Hn. unfold segment_length. rewrite !str_cons_app, str_nil_app. cbn [pfb_length].
  rewrite !code_chr by (try apply Z.mod_pos_bound; lia). unfold mret, M_ret. do 2 f_equal.
  replace 65536 with (256 * 256) by done. replace 16777216 with (256 * 256 * 256) by done.
  rewrite <- !Z.div_div by lia. rewrite (Z.mod_small (n / 256 / 256 / 256) 256).
  - pose proof (Z.div_mod n 256). pose proof (Z.div_mod (n / 256) 256).
    pose proof (Z.div_mod (n / 256 / 256) 256). lia.
  - rewrite !Z.div_div by lia. split; [apply Z.div_pos; lia | apply Z.div_lt_upper_bound; lia].
Qed.

Lemma chr_code c : chr (code c) = c.
Proof. unfold chr, code. rewrite N2Z.id. apply ascii_N_embedding. Qed.

Lemma pfb_length_only file n rest s s' :
  pfb_length file s = Done (n, rest) s' →
  file = segment_length n +:+ rest ∧ 0 <= n < 4294967296 ∧ s' = s.
Proof.
  destruct file as [|a [|b [|c [|d file]]]]; try done. cbn [pfb_length]. intros [= <- <- <-].
  pose proof (code_range a). pose proof (code_range b). pose proof (code_range c).
  pose proof (code_range d). split; [|split; [lia|done]].
  unfold segment_length. rewrite !str_cons_app, str_nil_app.
  assert (∀ x y, 0 <= y < 256 → (x * 256 + y) mod 256 = y ∧ (x * 256 + y) / 256 = x) as Hdiv.
  { intros x y Hy. rewrite Z.add_comm. split.
    - rewrite Z_mod_plus_full. by apply Z.mod_small.
    - rewrite Z.div_add by lia. rewrite Z.div_small by lia. lia. }
  replace 65536 with (256 * 256) by done. replace 16777216 with (256 * 256 * 256) by done.
  rewrite <- !Z.div_div by lia.
  rewrite !(proj2 (Hdiv _ (code a) ltac:(done))), !(proj2 (Hdiv _ (code b) ltac:(done))),
    !(proj2 (Hdiv _ (code c) ltac:(done))), (proj1 (Hdiv _ (code a) ltac:(done))),
    (proj1 (Hdiv _ (code b) ltac:(done))), (proj1 (Hdiv _ (code c) ltac:(done))).
  rewrite (Z.mod_small (code d)) by done. by rewrite !chr_code.
Qed.

(** ** Files *)

Lemma segment_step fuel seg tail :
  small seg →
  alike (pfb_segments (S fuel) (segment_file seg +:+ tail))
    (printer_write (expanded seg);; pfb_segments fuel tail).
Proof.
  intros Hs. unfold small in Hs. pose proof (strlen_nonneg (contents seg)) as Hn.
  split. intros st. unfold segment_file. rewrite !str_cons_app, str_app_assoc.
  destruct seg as [text|data]; cbn [pfb_segments contents expanded] in *; cbv iota.
  - change (negb (code (chr 128) =? 128)) with false. change (code (chr 1) =? 1) with true. cbv iota.
    unfold mbind at 1, M_bind. rewrite pfb_length_reads by done.
    refine (alike_run _ _ (_ : alike _ _) st). rewrite pfb_ascii_reads, alike_assoc.
    by setoid_rewrite ret_bind.
  - change (negb (code (chr 128) =? 128)) with false. change (code (chr 2) =? 1) with false.
    change (code (chr 2) =? 2) with true. cbv iota.
    unfold mbind at 1, M_bind. rewrite pfb_length_reads by done.
    refine (alike_run _ _ (_ : alike _ _) st). rewrite pfb_hex_reads, alike_assoc.
    rewrite (hex_from_lines (S (String.length data))) by lia.
    by setoid_rewrite ret_bind.
Qed.

Lemma segment_file_long seg : (2 <= String.length (segment_file seg))%nat.
Proof. unfold segment_file. simpl. lia. Qed.

Lemma segments_read fuel segs rest :
  Forall small segs → (String.length (pfb_file segs +:+ end_of_font +:+ rest) < fuel)%nat →
  alike (pfb_segments fuel (pfb_file segs +:+ end_of_font +:+ rest)) (printer_write (pfa_text segs)).
Proof.
  revert fuel. induction segs as [|seg segs IH]; intros fuel Hs Hf.
  - destruct fuel; [lia|]. by split.
  - inversion Hs as [|? ? Hseg Hs']; subst. cbn [pfb_file foldr pfa_text] in *.
    rewrite str_app_assoc, length_app_str in Hf. pose proof (segment_file_long seg).
    destruct fuel as [|fuel]; [lia|]. rewrite str_app_assoc, segment_step, write_app by done.
    apply bind_under. intros _. apply IH; [done|]. unfold pfb_file. lia.
Qed.

Lemma pfb_ascii_only length file rest s s' :
  0 <= length → pfb_ascii length file s = Done rest s' →
  ∃ text, strlen text = length ∧ file = text +:+ rest.
Proof.
  revert length s. induction file as [|c file IH]; intros length s Hl; cbn [pfb_ascii];
    destruct (Z.eqb_spec length 0) as [->|Hne]; try done.
  1, 2: intros [= <- <-]; by exists EmptyString.
  intros (? & s1 & _ & E)%done_bind. apply IH in E as (text & Ht & ->); [|lia].
  exists (String c text). split; [|done]. destruct (strlen_step c text). lia.
Qed.

Lemma pfb_hex_only length linelength file rest s s' :
  0 <= length → pfb_hex length linelength file s = Done rest s' →
  ∃ data, strlen data = length ∧ file = data +:+ rest.
Proof.
  revert length linelength s. induction file as [|c file IH]; intros length linelength s Hl;
    cbn [pfb_hex]; destruct (Z.eqb_spec length 0) as [->|Hne]; try done.
  1, 2: intros [= <- <-]; by exists EmptyString.
  intros (? & s1 & _ & E)%done_bind. apply done_bind in E as (? & s2 & _ & E).
  assert (∃ ll s3, pfb_hex (length - 1) ll file s3 = Done rest s') as (ll & s3 & E').
  { destruct (40 <=? linelength + 1); [|eauto]. apply done_bind in E as (? & s3 & _ & E). eauto. }
  apply IH in E' as (data & Hd & ->); [|lia].
  exists (String c data). split; [|done]. destruct (strlen_step c data). lia.
Qed.

Lemma segments_only fuel file s s' :
  pfb_segments fuel file s = Done tt s' →
  ∃ segs rest, Forall small segs ∧ file = pfb_file segs +:+ end_of_font +:+ rest.
Proof.
  revert file s. induction fuel as [|fuel IH]; intros file s; [done|].
  destruct file as [|c file]; [done|]. cbn [pfb_segments].
  destruct (Z.eqb_spec (code c) 128) as [Hc|]; [|done]. cbn [negb].
  assert (c = chr 128) as -> by by rewrite <- Hc, chr_code.
  destruct file as [|t file]; [done|].
  assert (∀ seg n rest, strlen (contents seg) = n → 0 <= n < 4294967296 →
    file = segment_length n +:+ contents seg +:+ rest →
    chr (match seg with Plain _ => 1 | Binary _ => 2 end) = t →
    (∃ s1, pfb_segments fuel rest s1 = Done tt s') →
    ∃ segs rest, Forall small segs ∧
      String (chr 128) (String t file) = pfb_file segs +:+ end_of_font +:+ rest) as Hseg.
  { intros seg n rest Hn Hr -> <- (s1 & E). apply IH in E as (segs & rest' & Hs & ->).
    exists (seg :: segs), rest'. split.
    - constructor; [|done]. unfold small. lia.
    - cbn [pfb_file foldr]. unfold segment_file. rewrite Hn.
      by rewrite !str_cons_app, !str_app_assoc. }
  destruct (Z.eqb_spec (code t) 1) as [Ht|H1].
  - intros ([n file1] & s1 & E1 & E)%done_bind. apply pfb_length_only in E1 as (Ef & Hn & ->).
    apply done_bind in E as (file2 & s2 & E2 & E). apply pfb_ascii_only in E2 as (text & Hl & ->); [|lia].
    apply (Hseg (Plain text) n file2); try done; [|by exists s2]. by rewrite <- Ht, chr_code.
  - destruct (Z.eqb_spec (code t) 2) as [Ht|H2].
    + intros ([n file1] & s1 & E1 & E)%done_bind. apply pfb_length_only in E1 as (Ef & Hn & ->).
      apply done_bind in E as (file2 & s2 & E2 & E). apply pfb_hex_only in E2 as (data & Hl & ->); [|lia].
      apply (Hseg (Binary data) n file2); try done; [|by exists s2]. by rewrite <- Ht, chr_code.
    + destruct (Z.eqb_spec (code t) 3) as [Ht|]; [|done]. intros _. exists [], file.
      split; [done|]. assert (t = chr 3) as -> by by rewrite <- Ht, chr_code. done.
Qed.

Lemma pfb_ascii_only_fatal length file : only_fatal (pfb_ascii length file).
Proof.
  revert length. induction file as [|c file IH]; intros length; cbn [pfb_ascii];
    destruct (length =? 0); try done; [apply only_fatal_fatal|].
  apply only_fatal_bind; [auto with only_fatal | done].
Qed.

Lemma pfb_hex_only_fatal length linelength file : only_fatal (pfb_hex length linelength file).
Proof.
  revert length linelength. induction file as [|c file IH]; intros length linelength; cbn [pfb_hex];
    destruct (length =? 0); try done; [apply only_fatal_fatal|].
  do 2 (apply only_fatal_bind; [auto with only_fatal | intros _]).
  destruct (40 <=? linelength + 1); [|done]. apply only_fatal_bind; auto with only_fatal.
Qed.

Lemma segments_settle fuel file : (String.length file < fuel)%nat → only_fatal (pfb_segments fuel file).
Proof.
  revert file. induction fuel as [|fuel IH]; intros file Hf s; [lia|].
  destruct file as [|c file]; [apply only_fatal_fatal|]. cbn [pfb_segments].
  destruct (negb (code c =? 128)); [apply only_fatal_fatal|].
  destruct file as [|t file]; [apply only_fatal_fatal|]. simpl in Hf.
  destruct (code t =? 1); [|destruct (code t =? 2); [|destruct (code t =? 3); [done|apply only_fatal_fatal]]].
  all: unfold mbind, M_bind; destruct (pfb_length file s) as [[n file1] s1|e s1|r] eqn:E1;
    [|by destruct file as [|? [|? [|? [|]]]] | destruct file as [|? [|? [|? [|]]]];
      try done; simpl in E1; injection E1 as <-; by eexists _, _].
  all: apply pfb_length_only in E1 as (-> & Hn & ->).
  - pose proof (pfb_ascii_only_fatal n file1 s) as Ha.
    destruct (pfb_ascii n file1 s) as [file2 s2| |] eqn:E2; [|done|done].
    apply pfb_ascii_only in E2 as (text & _ & ->); [|lia]. apply IH.
    rewrite !length_app_str in Hf. lia.
  - pose proof (pfb_hex_only_fatal n 0 file1 s) as Ha.
    destruct (pfb_hex n 0 file1 s) as [file2 s2| |] eqn:E2; [|done|done].
    apply pfb_hex_only in E2 as (data & _ & ->); [|lia]. apply IH.
    rewrite !length_app_str in Hf. lia.
Qed.

(** C37: A PFB font is expanded or refused.  The driver accepts exactly the files
    made of text and binary segments, each with its length before it, up to an
    end mark; what it sends is then the text, its carriage returns made line
    feeds, and the binary data in hexadecimal, forty bytes in a line.  Every
    other file, cut short or with something else in it, ends the driver with a
    message, as a write that fails does: there is no other way out. *)
Theorem pfb_fonts_are_expanded file :
  only_fatal (send_font_pfb file) ∧
  ∀ s s', send_font_pfb file s = Done tt s' ↔
    ∃ segs rest, Forall small segs ∧ file = pfb_file segs +:+ end_of_font +:+ rest ∧
      printer_write (pfa_text segs) s = Done tt s'.
Proof.
  split; [apply segments_settle; lia|]. intros s s'. unfold send_font_pfb. split.
  - intros E. destruct (segments_only _ _ _ _ E) as (segs & rest & Hs & ->).
    exists segs, rest. split; [done|]. split; [done|].
    rewrite <- E. symmetry. apply segments_read; [done | lia].
  - intros (segs & rest & Hs & -> & E). rewrite <- E. apply segments_read; [done | lia].
Qed.

(** * Macintosh fonts *)

(** What is between two lines, these included. *)
Record section := mkSection { sec_lines : list string; sec_stop : string }.

Definition section_text (sec : section) : list string := sec_lines sec ++ [sec_stop sec].

Definition ends (sec : section) (stop : string) : Prop :=
  sec_stop sec = stop ∧ Forall (λ l, l ≠ stop) (sec_lines sec).

Definition write_lines (lines : list string) : O unit := printer_write (foldr String.append EmptyString lines).

Lemma write_lines_cons line lines : alike (write_lines (line :: lines)) (printer_write line;; write_lines lines).
Proof. apply write_app. Qed.

Lemma write_lines_app a b : alike (write_lines (a ++ b)) (write_lines a;; write_lines b).
Proof.
  induction a as [|line a IH]; [by split|]. cbn [app]. rewrite !write_lines_cons, alike_assoc.
  apply bind_under. by intros [].
Qed.

Definition place_of (lines : list string) : font_place :=
  match lines with [] => (EmptyString, []) | line :: lines' => (line, lines') end.

(** The section is sent or not; the line behind it is then in tline[]. *)
Lemma font_part_section (wanted : bool) stop sec next rest :
  ends sec stop →
  let '(tline, lines) := place_of (section_text sec ++ next :: rest) in
  alike (font_part wanted stop tline lines)
    (when wanted (write_lines (section_text sec));; mret (next, rest)).
Proof.
  intros [<- Hne]. destruct sec as [body stop]. unfold section_text. cbn [sec_lines sec_stop] in *.
  destruct body as [|tline body].
  { cbn [app place_of]. destruct wanted; cbn [font_part font_copy font_discard when];
      rewrite String.eqb_refl; [|by split].
    rewrite write_lines_cons, alike_assoc. apply bind_under. intros []. by split. }
  cbn [app place_of]. revert tline Hne. induction body as [|line body IH]; intros tline Hne;
    inversion Hne as [|? ? Ht Hne']; subst.
  - destruct wanted; cbn [app font_part font_copy font_discard when];
      destruct (String.eqb_spec tline stop); try done; rewrite String.eqb_refl; [|by split].
    rewrite write_lines_cons, alike_assoc. apply bind_under. intros [].
    rewrite write_lines_cons, alike_assoc. apply bind_under. intros []. by split.
  - specialize (IH line Hne'). destruct wanted; cbn [app font_part font_copy font_discard when] in *;
      destruct (String.eqb_spec tline stop); try done.
    rewrite write_lines_cons, alike_assoc. apply bind_under. intros []. exact IH.
Qed.

Lemma font_part_reads (wanted : bool) stop sec R tline lines :
  ends sec stop → R ≠ [] → place_of (section_text sec ++ R) = (tline, lines) →
  alike (font_part wanted stop tline lines)
    (when wanted (write_lines (section_text sec));; mret (place_of R)).
Proof.
  intros He Hr Hp. destruct R as [|next rest]; [done|].
  pose proof (font_part_section wanted stop sec next rest He) as H. by rewrite Hp in H.
Qed.

Definition blank_line (line : string) : bool := forallb is_space_char (chars line).

(** What begins with a line that is not blank. *)
Definition shows (lines : list string) : Prop :=
  match lines with [] => False | line :: _ => blank_line line = false end.

Lemma font_skipblank_reads blanks R tline lines :
  Forall (λ l, blank_line l = true) blanks → shows R → place_of (blanks ++ R) = (tline, lines) →
  font_skipblank tline lines = place_of R.
Proof.
  intros Hb Hr. revert tline lines. induction blanks as [|b blanks IH]; intros tline lines Hp.
  - destruct R as [|line rest]; [done|]. injection Hp as <- <-. simpl in Hr.
    unfold blank_line in Hr. by destruct rest; simpl; rewrite Hr.
  - inversion Hb as [|? ? Hb1 Hb']; subst. injection Hp as <- <-. unfold blank_line in Hb1.
    specialize (IH Hb'). destruct (blanks ++ R) as [|line rest] eqn:E.
    { destruct blanks, R; done. }
    cbn [font_skipblank]. rewrite Hb1. by apply IH.
Qed.

Lemma font_head_reads head line rest t :
  Forall (λ l, lmatch l "%begin" = false) head → lmatch line "%begin" = true →
  alike (font_head t (head ++ line :: rest)) (write_lines head;; mret (Some line, rest)).
Proof.
  intros Hh Hl. revert t. induction head as [|h head IH]; intros t.
  - simpl. rewrite Hl. by split.
  - inversion Hh as [|? ? Hh1 Hh']; subst. cbn [app font_head]. rewrite Hh1, write_lines_cons, alike_assoc.
    apply bind_under. intros []. by apply IH.
Qed.

Lemma font_tail_reads R tline lines :
  R ≠ [] → place_of R = (tline, lines) → alike (font_tail tline lines) (write_lines R).
Proof.
  intros Hne Hp. destruct R as [|line R]; [done|]. injection Hp as <- <-. clear Hne.
  revert line. induction R as [|next R IH]; intros line; cbn [font_tail]; rewrite write_lines_cons;
    apply bind_under; intros []; [by split | apply IH].
Qed.

(** ** A dual font *)

Definition starts (sec : section) (line : string) : Prop :=
  match section_text sec with [] => False | l :: _ => l = line end.

(** The lines of such a font file. *)
Record dual_font := mkDual {
  df_head : list string;
  df_sfnt : section;
  df_blanks : list string;
  df_BC : option section;
  df_blanks2 : list string;
  df_sfntdef : section;
  df_blanks3 : list string;
  df_version : string;
  df_type1 : section;
  df_tail : list string;
}.

Definition BC_text (df : dual_font) : list string :=
  match df_BC df with Some sec => section_text sec | None => [] end.

Definition dual_lines (df : dual_font) : list string :=
  df_head df ++ section_text (df_sfnt df) ++ df_blanks df ++ BC_text df ++ df_blanks2 df ++
  section_text (df_sfntdef df) ++ df_blanks3 df ++
  ended_line "%beginType1" :: df_version df :: section_text (df_type1 df) ++ df_tail df.

Record good_dual (df : dual_font) : Prop := {
  gd_head : Forall (λ l, lmatch l "%begin" = false) (df_head df);
  gd_sfnt : starts (df_sfnt df) (ended_line "%beginsfnt") ∧ ends (df_sfnt df) (ended_line " %endsfnt");
  gd_blanks : Forall (λ l, blank_line l = true) (df_blanks df ++ df_blanks2 df ++ df_blanks3 df);
  gd_BC : match df_BC df with
          | Some sec => starts sec (ended_line "%beginsfntBC") ∧ ends sec (ended_line " %endsfntBC")
          | None => True
          end;
  gd_sfntdef : starts (df_sfntdef df) (ended_line "%beginsfntdef") ∧
               ends (df_sfntdef df) (ended_line " %endsfntdef");
  gd_type1 : ends (df_type1 df) (ended_line " %endType1");
  gd_version : df_version df ≠ ended_line " %endType1";
  gd_BC_blanks : df_BC df = None → df_blanks2 df = [];
  gd_tail : df_tail df ≠ [];
}.

(** The BuildChar procedure for a rasterizer that needs it: the font's own, or
    the driver's. *)
Definition BC_sent (TTRasterizer : Z) (df : dual_font) : list string :=
  if TTRasterizer =? TT_ACCEPT68K then
    match df_BC df with Some sec => section_text sec | None => [sfntBC] end
  else [].

(** The form of the font the printer can use. *)
Definition one_form (type42_ok : bool) (TTRasterizer : Z) (df : dual_font) : list string :=
  if type42_ok then
    section_text (df_sfnt df) ++ BC_sent TTRasterizer df ++ section_text (df_sfntdef df)
  else ended_line "%beginType1" :: ("%PPR " +:+ df_version df) :: section_text (df_type1 df).

Lemma starts_shows sec line R :
  starts sec line → blank_line line = false → shows (section_text sec ++ R).
Proof. unfold starts. destruct (section_text sec); [done|]. by intros ->. Qed.

Lemma place_surjective lines : ∃ tline rest, place_of lines = (tline, rest).
Proof. destruct (place_of lines). eauto. Qed.

(** The BuildChar procedure and the blank lines behind it. *)
Lemma font_BC_reads df emulated R tline lines :
  good_dual df → starts (df_sfntdef df) (ended_line "%beginsfntdef") →
  place_of (BC_text df ++ df_blanks2 df ++ section_text (df_sfntdef df) ++ R)
    = (tline, lines) →
  (df_BC df = None → df_blanks2 df = []) →
  alike (if String.eqb tline (ended_line "%beginsfntBC")
         then font_part emulated (ended_line " %endsfntBC") tline lines
         else when emulated (printer_write sfntBC);; mret (tline, lines))
    (when emulated (write_lines (match df_BC df with Some sec => section_text sec | None => [sfntBC] end));;
     mret (place_of (df_blanks2 df ++ section_text (df_sfntdef df) ++ R))).
Proof.
  intros Hd Hs Hp Hn. pose proof (gd_BC df Hd) as HBC. unfold BC_text in Hp.
  assert (section_text (df_sfntdef df) ++ R ≠ []) as Hne.
  { unfold starts in Hs. by destruct (section_text (df_sfntdef df)). }
  destruct (df_BC df) as [sec|].
  - destruct HBC as [Hst He].
    assert (tline = ended_line "%beginsfntBC") as ->.
    { unfold starts in Hst. destruct (section_text sec); [done|]. injection Hp as <- _. done. }
    rewrite String.eqb_refl. apply font_part_reads; [done | | done]. by destruct (df_blanks2 df).
  - rewrite Hn in Hp |- * by done. simpl in Hp.
    assert (tline = ended_line "%beginsfntdef") as ->.
    { unfold starts in Hs. destruct (section_text (df_sfntdef df)); [done|]. injection Hp as <- _. done. }
    change (String.eqb _ _) with false. cbv iota. cbn [app]. rewrite Hp. destruct emulated; cbn [when]; [|done].
    generalize sfntBC. intros text. rewrite write_lines_cons, alike_assoc. apply bind_under. intros []. by split.
Qed.

Lemma font_sfnt_reads type42_ok TTRasterizer df R tline lines :
  good_dual df → R ≠ [] →
  place_of (section_text (df_sfnt df) ++ df_blanks df ++ BC_text df ++ df_blanks2 df ++
    section_text (df_sfntdef df) ++ R) = (tline, lines) →
  alike (font_sfnt type42_ok TTRasterizer tline lines)
    (when type42_ok (write_lines (section_text (df_sfnt df) ++ BC_sent TTRasterizer df ++
       section_text (df_sfntdef df)));; mret (place_of R)).
Proof.
  intros Hd HR Hp. destruct (gd_sfnt df Hd) as [_ Hsfnt]. pose proof (gd_BC_blanks df Hd) as Hn.
  destruct (gd_sfntdef df Hd) as [Hdef Hdefe]. pose proof (gd_blanks df Hd) as Hb.
  rewrite !Forall_app in Hb. destruct Hb as (Hb1 & Hb2 & _).
  assert (shows (section_text (df_sfntdef df) ++ R)) as Hshow by by eapply starts_shows.
  set (R3 := section_text (df_sfntdef df) ++ R) in *.
  assert (shows (BC_text df ++ df_blanks2 df ++ R3)) as Hshow2.
  { unfold BC_text. destruct (df_BC df) as [sec|] eqn:EB.
    - pose proof (gd_BC df Hd) as HBC. rewrite EB in HBC. by eapply starts_shows; [apply HBC|].
    - by rewrite Hn. }
  assert (df_blanks df ++ BC_text df ++ df_blanks2 df ++ R3 ≠ []) as Hne.
  { destruct (df_blanks df); [|done]. simpl. by destruct (BC_text df ++ df_blanks2 df ++ R3). }
  unfold font_sfnt. rewrite (font_part_reads _ _ _ _ _ _ Hsfnt Hne Hp), alike_assoc.
  transitivity (when type42_ok (write_lines (section_text (df_sfnt df)));;
    when (type42_ok && (TTRasterizer =? TT_ACCEPT68K))
      (write_lines (match df_BC df with Some sec => section_text sec | None => [sfntBC] end));;
    when type42_ok (write_lines (section_text (df_sfntdef df)));; mret (place_of R)).
  - apply bind_under. intros []. rewrite ret_bind. cbv zeta.
    destruct (place_of (df_blanks df ++ BC_text df ++ df_blanks2 df ++ R3)) as [tl1 ls1] eqn:E1.
    rewrite (font_skipblank_reads _ _ _ _ Hb1 Hshow2 E1).
    destruct (place_of (BC_text df ++ df_blanks2 df ++ R3)) as [tl2 ls2] eqn:E2.
    rewrite (font_BC_reads df _ _ _ _ Hd Hdef E2 Hn), alike_assoc. apply bind_under. intros [].
    rewrite ret_bind. fold R3.
    destruct (place_of (df_blanks2 df ++ R3)) as [tl3 ls3] eqn:E3.
    rewrite (font_skipblank_reads _ _ _ _ Hb2 Hshow E3).
    destruct (place_of R3) as [tl4 ls4] eqn:E4.
    assert (tl4 = ended_line "%beginsfntdef") as ->.
    { unfold R3, starts in *. destruct (section_text (df_sfntdef df)); [done|]. by injection E4 as <- _. }
    rewrite String.eqb_refl. exact (font_part_reads _ _ _ _ _ _ Hdefe HR E4).
  - destruct type42_ok; [|by split]. cbn [when andb]. rewrite !write_lines_app, !alike_assoc.
    apply bind_under. intros []. unfold BC_sent. rewrite write_lines_app, alike_assoc.
    destruct (TTRasterizer =? TT_ACCEPT68K); by split.
Qed.

Lemma printf_comment v : alike (printer_printf "%%PPR %s" [AS v]) (printer_write ("%PPR " +:+ v)).
Proof.
  unfold printer_printf. rewrite write_app. cbn [printer_write].
  rewrite !alike_assoc. apply bind_under. intros []. do 4 (rewrite !alike_assoc; apply bind_under; intros []).
  rewrite ret_bind. apply alike_ret.
Qed.

Lemma font_type1_reads type42_ok df tline lines :
  good_dual df →
  place_of (ended_line "%beginType1" :: df_version df :: section_text (df_type1 df) ++ df_tail df)
    = (tline, lines) →
  alike (font_type1 type42_ok tline lines)
    (when (negb type42_ok) (write_lines (ended_line "%beginType1" :: ("%PPR " +:+ df_version df) ::
       section_text (df_type1 df)));; mret (place_of (df_tail df))).
Proof.
  intros Hd Hp. pose proof (gd_type1 df Hd) as Ht. pose proof (gd_tail df Hd) as Hr.
  unfold font_type1. destruct type42_ok; cbn [negb].
  - set (sec := mkSection (ended_line "%beginType1" :: df_version df :: sec_lines (df_type1 df))
      (sec_stop (df_type1 df))).
    assert (ends sec (ended_line " %endType1")) as He.
    { destruct Ht as [Hs Hl]. split; [done|]. constructor; [done|].
      constructor; [apply (gd_version df Hd) | done]. }
    apply (font_part_reads false _ sec (df_tail df) tline lines He Hr). exact Hp.
  - injection Hp as <- <-. cbn [when]. rewrite write_lines_cons, alike_assoc. apply bind_under. intros [].
    destruct (place_of (section_text (df_type1 df) ++ df_tail df)) as [tl ls] eqn:E.
    cbn [font_next]. rewrite printf_comment, write_lines_cons, alike_assoc. apply bind_under. intros [].
    assert (font_next (df_version df) (section_text (df_type1 df) ++ df_tail df) = (tl, ls)) as ->.
    { destruct (section_text (df_type1 df) ++ df_tail df) eqn:E2; [|by injection E as <- <-].
      by destruct (sec_lines (df_type1 df)); unfold section_text in E2; destruct (sec_lines _). }
    exact (font_part_reads true _ _ _ _ _ Ht Hr E).
Qed.

(** C38: Of a font that is there in two forms each printer gets the one it can use.
    From a font file with a TrueType section, its definition and a Type 1
    section, a printer that takes Type 42 fonts gets the TrueType ones, with
    the BuildChar procedure exactly if its rasterizer is the one that needs it,
    and the driver's own if the file has none; every other printer gets the Type 1
    section, its version line made a comment.  What is before and behind the
    sections is sent to both, blank lines between them to neither. *)
Theorem each_printer_gets_one_form type42_ok TTRasterizer file df :
  font_lines (String.length file) file = dual_lines df → good_dual df →
  alike (send_font_mactt type42_ok TTRasterizer file)
    (write_lines (df_head df ++ one_form type42_ok TTRasterizer df ++ df_tail df)).
Proof.
  intros Hf Hd. unfold send_font_mactt. rewrite Hf. unfold dual_lines.
  set (R2 := ended_line "%beginType1" :: _). set (R := df_blanks3 df ++ R2).
  assert (R ≠ []) as HR by by unfold R; destruct (df_blanks3 df).
  destruct (gd_sfnt df Hd) as [Hst _]. pose proof (gd_blanks df Hd) as Hb.
  rewrite !Forall_app in Hb. destruct Hb as (_ & _ & Hb3).
  destruct (place_of (section_text (df_sfnt df) ++ df_blanks df ++ BC_text df ++ df_blanks2 df ++
    section_text (df_sfntdef df) ++ R)) as [tline lines] eqn:E.
  assert (tline = ended_line "%beginsfnt" ∧ section_text (df_sfnt df) ++ df_blanks df ++ BC_text df ++
    df_blanks2 df ++ section_text (df_sfntdef df) ++ R = tline :: lines) as [-> ->].
  { unfold starts in Hst. destruct (section_text (df_sfnt df)); [done|]. subst.
    by injection E as <- <-. }
  rewrite font_head_reads by (done || apply (gd_head df Hd)). rewrite alike_assoc, write_lines_app.
  apply bind_under. intros []. rewrite ret_bind. rewrite String.eqb_refl. cbn [andb].
  rewrite (font_sfnt_reads _ _ df R _ _ Hd HR E), alike_assoc.
  transitivity (when type42_ok (write_lines (section_text (df_sfnt df) ++ BC_sent TTRasterizer df ++
       section_text (df_sfntdef df)));;
    when (negb type42_ok) (write_lines (ended_line "%beginType1" :: ("%PPR " +:+ df_version df) ::
       section_text (df_type1 df)));; write_lines (df_tail df)).
  - apply bind_under. intros []. rewrite ret_bind.
    destruct (place_of R) as [tl1 ls1] eqn:E1.
    rewrite (font_skipblank_reads _ R2 _ _ Hb3 eq_refl E1).
    destruct (place_of R2) as [tl2 ls2] eqn:E2.
    assert (tl2 = ended_line "%beginType1") as -> by by injection E2.
    rewrite String.eqb_refl. rewrite (font_type1_reads type42_ok df _ _ Hd E2), alike_assoc.
    apply bind_under. intros []. rewrite ret_bind.
    destruct (place_of (df_tail df)) as [tl3 ls3] eqn:E3.
    exact (font_tail_reads _ _ _ (gd_tail df Hd) E3).
  - unfold one_form. destruct type42_ok; cbn [when negb].
    + rewrite (write_lines_app _ (df_tail df)). apply bind_under. intros []. by split.
    + rewrite ret_bind. by rewrite (write_lines_app _ (df_tail df)).
Qed.

(** ** A font, and one that is refused *)

Definition sample_dual : dual_font :=
  mkDual [ended_line "%!PS-TrueTypeFont"]
    (mkSection [ended_line "%beginsfnt"; ended_line "/sfnts [<00>] def"] (ended_line " %endsfnt"))
    [ended_line EmptyString] None []
    (mkSection [ended_line "%beginsfntdef"; ended_line "definefont pop"] (ended_line " %endsfntdef"))
    [] (ended_line "%!PS-AdobeFont-1.0")
    (mkSection [ended_line "currentfile eexec"] (ended_line " %endType1"))
    [ended_line "%%EOF"].

Definition sample_dual_file : string := foldr String.append EmptyString (dual_lines sample_dual).

Definition fresh_output : outbuf := mkOut EmptyString BUFSIZE EmptyString 0 false false [].

Lemma sample_dual_good : good_dual sample_dual.
Proof. split; repeat constructor; discriminate. Qed.

Lemma each_printer_gets_one_form_witness :
  ∃ s, send_font_mactt false TT_UNKNOWN sample_dual_file fresh_output = Done tt s ∧
    ob_wbuf s = foldr String.append EmptyString
      [ended_line "%!PS-TrueTypeFont"; ended_line "%beginType1"; ended_line "%PPR %!PS-AdobeFont-1.0";
       ended_line "currentfile eexec"; ended_line " %endType1"; ended_line "%%EOF"].
Proof.
  rewrite (alike_run _ _ (each_printer_gets_one_form false TT_UNKNOWN sample_dual_file sample_dual
    ltac:(vm_compute; reflexivity) sample_dual_good)).
  eexists. split; vm_compute; reflexivity.
Defined.

(** The last line of a section may not be the last one of the file. *)
Theorem a_font_that_ends_with_its_section_is_refused s :
  send_font_mactt false TT_UNKNOWN (ended_line "%beginsfnt" +:+ ended_line " %endsfnt") s
  = Stopped (SFatal EXIT_PRNERR_NORETRY "Dual-type font is not complete.").
Proof. reflexivity. Qed.
