(* ===== verification/TrueType.v ===== *)
(** TrueType fonts made PostScript fonts: the tables of the file, the names, the
    header, and the reduced font inside a Type 42 font (src/libttf/, all but the
    outlines).  The tables are loaded where they are needed; as the file does not
    change it makes no difference that the program keeps them. *)
From S2P Require Import Prelude.
From S2P Require Import Text.
From S2P Require Import Spooler.
From S2P Require Import DriverOutput.
From S2P Require Import ReadPpd.

Inductive TTF_RESULT :=
| TTF_OK | TTF_NOTOBJ | TTF_CANTOPEN | TTF_TBL_NOTFOUND | TTF_TBL_CANTSEEK | TTF_TBL_CANTREAD
| TTF_TBL_TOOBIG | TTF_REQNAME | TTF_UNSUP_LOCA | TTF_UNSUP_GLYF | TTF_UNSUP_POST
| TTF_GLYF_BADPAD | TTF_GLYF_CANTREAD | TTF_GLYF_SIZEINC | TTF_GLYF_BADFLAGS | TTF_LONGPSNAME.

#[export] Instance TTF_RESULT_eq_dec : EqDecision TTF_RESULT.
Proof. solve_decision. Defined.

Definition ttf_strerror (result_code : TTF_RESULT) : string :=
  match result_code with
  | TTF_OK => "No error"
  | TTF_NOTOBJ => "Not a TTF object"
  | TTF_CANTOPEN => "Can't open font file"
  | TTF_TBL_NOTFOUND => "Table not found"
  | TTF_TBL_CANTSEEK => "File error seeking to table start"
  | TTF_TBL_CANTREAD => "File error reading table"
  | TTF_TBL_TOOBIG => "A table is too big"
  | TTF_REQNAME => "Required name missing"
  | TTF_UNSUP_LOCA => "Unsupported 'loca' table format"
  | TTF_UNSUP_GLYF => "Unsupported 'glyf' table format"
  | TTF_UNSUP_POST => "Unsupported 'post' table format"
  | TTF_GLYF_BADPAD => "Glyph with bad padding"
  | TTF_GLYF_CANTREAD => "File error reading a glyph"
  | TTF_GLYF_SIZEINC => "Size inconsistency in 'glyf' table"
  | TTF_GLYF_BADFLAGS => "Invalid flags in a glyph"
  | TTF_LONGPSNAME => "A glyph's PostScript name is too long for the buffer"
  end.

(** * The library's programs *)

(** Output, or an error code: longjmp() leaves what was sent. *)
Definition T (A : Type) : Type := outbuf → outcome outbuf (TTF_RESULT + A).

#[export] Instance T_ret : MRet T := λ A a, mret (M := M outbuf) (inr a).

#[export] Instance T_bind : MBind T := λ A B f m,
  mbind (M := M outbuf) (λ r, match r with inl e => mret (M := M outbuf) (inl e) | inr a => f a end) m.

Definition longjmp {A} (code : TTF_RESULT) : T A := mret (M := M outbuf) (inl code).

(** A routine of the caller's. *)
Definition io {A} (m : O A) : T A := mbind (M := M outbuf) (λ a, mret (M := M outbuf) (inr a)) m.

Definition stuck {A} (why : string) : T A := undef why.

Definition tputs (s : string) : T unit := io (printer_write s).
Definition tputc (c : ascii) : T unit := io (printer_putc c).
Definition tprintf (format : string) (va : list farg) : T unit := io (printer_printf format va).
Definition twhen (b : bool) (m : T unit) : T unit := if b then m else mret tt.

(** "\n" *)
Definition nl : string := of_chars [chr 10].

(** * Bytes in memory *)

Definition BYTE_at (p : string) (i : Z) : T Z :=
  if i <? 0 then stuck "read before a table"
  else
    match String.get (Z.to_nat i) p with
    | Some c => mret (code c)
    | None => stuck "read behind a table"
    end.

Definition getUSHORT (p : string) (i : Z) : T Z :=
  a ← BYTE_at p i;
  b ← BYTE_at p (i + 1);
  mret (a * 256 + b).

Definition getSHORT (p : string) (i : Z) : T Z := n ← getUSHORT p i; mret (i16 n).

Definition getULONG (p : string) (i : Z) : T Z :=
  a ← getUSHORT p i;
  b ← getUSHORT p (i + 2);
  mret (a * 65536 + b).

(** The whole part and the fraction. *)
Definition getFixed (p : string) (i : Z) : T (Z * Z) :=
  whole ← getSHORT p i;
  fraction ← getUSHORT p (i + 2);
  mret (whole, fraction).

(** * The file *)

(** The open file, and what ttf_new() read of it. *)
Record TTFONT := mkTTFONT {
  t_file : string;
  t_numTables : Z;
  t_offset_table : string;
  t_TTVersion : Z * Z;
}.

(** fread() *)
Definition read_block (file : string) (offset length : Z) : T string :=
  if strlen file <? offset + length then longjmp TTF_TBL_CANTREAD
  else mret (str_take (Z.to_nat length) (str_drop (Z.to_nat offset) file)).

Definition ttf_new (file : option string) : T TTFONT :=
  match file with
  | None => longjmp TTF_CANTOPEN
  | Some file =>
      start ← read_block file 0 12;
      numTables ← getUSHORT start 4;
      entries ← read_block file 12 (numTables * 16);
      let offset_table := start +:+ entries in
      TTVersion ← getFixed offset_table 0;
      mret (mkTTFONT file numTables offset_table TTVersion)
  end.

(** A name of four characters as a number: strncmp(., ., 4) orders names as the
    numbers are ordered. *)
Definition tag (name : string) : Z :=
  foldl (λ n c, n * 256 + code c) 0 (chars name).

(** The place of the entry; [n] entries are left. *)
Fixpoint search_tables (n : nat) (font : TTFONT) (name : string) (ptr : Z) : T Z :=
  here ← getULONG (t_offset_table font) ptr;
  if here =? tag name then mret ptr
  else
    match n with
    | 0%nat | 1%nat => longjmp TTF_TBL_NOTFOUND
    | S n' => search_tables n' font name (ptr + 16)
    end.

Definition ttf_LoadTable (font : TTFONT) (name : string) : T string :=
  ptr ← search_tables (Z.to_nat (t_numTables font)) font name 12;
  offset ← getULONG (t_offset_table font) (ptr + 8);
  length ← getULONG (t_offset_table font) (ptr + 12);
  read_block (t_file font) offset length.

(** * head *)

Record head := mkHead {
  h_MfrRevision : Z * Z;
  h_unitsPerEm : Z;
  h_bbox : Z * Z * Z * Z;
  h_indexToLocFormat : Z;
}.

(** topost() *)
Definition topost (unitsPerEm x : Z) : T Z :=
  if unitsPerEm =? 0 then stuck "division by zero"
  else mret (Z.quot (x * 1000 + Z.quot unitsPerEm 2) unitsPerEm).

Definition ttf_Read_head (font : TTFONT) : T head :=
  ptr ← ttf_LoadTable font "head";
  MfrRevision ← getFixed ptr 4;
  unitsPerEm ← getUSHORT ptr 18;
  llx ← getSHORT ptr 36 ≫= topost unitsPerEm;
  lly ← getSHORT ptr 38 ≫= topost unitsPerEm;
  urx ← getSHORT ptr 40 ≫= topost unitsPerEm;
  ury ← getSHORT ptr 42 ≫= topost unitsPerEm;
  indexToLocFormat ← getSHORT ptr 50;
  if negb (indexToLocFormat =? 0) && negb (indexToLocFormat =? 1) then longjmp TTF_UNSUP_LOCA
  else
    glyphDataFormat ← getSHORT ptr 52;
    if negb (glyphDataFormat =? 0) then longjmp TTF_UNSUP_GLYF
    else mret (mkHead MfrRevision unitsPerEm (llx, lly, urx, ury) indexToLocFormat).

(** * name *)

Record names := mkNames {
  n_PostName : option string;
  n_FullName : option string;
  n_FamilyName : option string;
  n_Style : option string;
  n_Copyright : option string;
  n_Trademark : option string;
  n_Version : option string;
}.

Definition no_names : names := mkNames None None None None None None None.

(** gu_strndup(): its strlen() may look on behind the table, which makes no
    difference to the characters copied. *)
Definition gu_strndup (table : string) (p length : Z) : T string :=
  let s := str_take (Z.to_nat length) (str_drop (Z.to_nat p) table) in
  if (strlen s <? length) && (strlen (c_string s) =? strlen s) then stuck "read behind a table"
  else mret (c_string s).

Definition set_name (nameid : Z) (s : string) (n : names) : names :=
  let '(mkNames post full family style copyright trademark version) := n in
  match nameid with
  | 0 => mkNames post full family style (Some s) trademark version
  | 1 => mkNames post full (Some s) style copyright trademark version
  | 2 => mkNames post full family (Some s) copyright trademark version
  | 4 => mkNames post (Some s) family style copyright trademark version
  | 5 => mkNames post full family style copyright trademark (Some s)
  | 6 => mkNames (Some s) full family style copyright trademark version
  | 7 => mkNames post full family style copyright (Some s) version
  | _ => n
  end.

Definition known_nameid (nameid : Z) : bool := existsb (Z.eqb nameid) [0; 1; 2; 4; 5; 6; 7].

(** Platform, name id, length and offset of the record. *)
Definition name_record (table : string) (ptr2 : Z) : T (Z * Z * Z * Z) :=
  platform ← getUSHORT table ptr2;
  encoding ← getUSHORT table (ptr2 + 2);
  language ← getUSHORT table (ptr2 + 4);
  nameid ← getUSHORT table (ptr2 + 6);
  length ← getUSHORT table (ptr2 + 8);
  offset ← getUSHORT table (ptr2 + 10);
  mret (platform, nameid, length, offset).

Fixpoint read_names (n : nat) (table : string) (strings ptr2 : Z) (found : names) : T names :=
  match n with
  | 0%nat => mret found
  | S n' =>
      '(platform, nameid, length, offset) ← name_record table ptr2;
      found ←
        (if (platform =? 1) && known_nameid nameid then
           s ← gu_strndup table (strings + offset) length;
           mret (set_name nameid s found)
         else mret found);
      read_names n' table strings (ptr2 + 12) found
  end.

Definition ttf_Read_name (font : TTFONT) : T names :=
  table ← ttf_LoadTable font "name";
  numrecords ← getUSHORT table 2;
  strings ← getUSHORT table 4;
  found ← read_names (Z.to_nat numrecords) table strings 6 no_names;
  match n_PostName found, n_FullName found, n_FamilyName found, n_Version found with
  | Some _, Some _, Some _, Some _ => mret found
  | _, _, _, _ => longjmp TTF_REQNAME
  end.

Fixpoint search_names (n : nat) (table : string) (strings ptr2 get_platform get_nameid : Z)
    : T (option string) :=
  match n with
  | 0%nat => mret None
  | S n' =>
      '(platform, nameid, length, offset) ← name_record table ptr2;
      if (platform =? get_platform) && (nameid =? get_nameid) then
        s ← gu_strndup table (strings + offset) length;
        mret (Some s)
      else search_names n' table strings (ptr2 + 12) get_platform get_nameid
  end.

Definition ttf_loadname (font : TTFONT) (get_platform get_nameid : Z) : T (option string) :=
  table ← ttf_LoadTable font "name";
  numrecords ← getUSHORT table 2;
  strings ← getUSHORT table 4;
  search_names (Z.to_nat numrecords) table strings 6 get_platform get_nameid.

Definition ttf_get_psname (font : TTFONT) : T (option string) := ttf_loadname font 1 6.

(** * The header *)

Fixpoint ttf_PS_string (s : string) : T unit :=
  match s with
  | EmptyString => mret tt
  | String c s' =>
      let n := code c in
      (if (n =? 40) || (n =? 41) || (n =? 92) then tputc backslash;; tputc c
       else if (32 <=? n) && (n <? 127) then tputc c
       else tprintf (String backslash "%o") [AD n]);;
      ttf_PS_string s'
  end.

(** printf("%s") of a name that may be missing. *)
Definition name_or_crash (name : option string) : T string :=
  match name with
  | Some s => mret s
  | None => stuck "strlen() of NULL"
  end.

Definition type3_procedures : string :=
  foldr (λ line text, line +:+ nl +:+ text) EmptyString
    ["/_d{bind def}bind def";
     "/_m{moveto}_d";
     "/_l{lineto}_d";
     "/_cl{closepath eofill}_d";
     "/_c{curveto}_d";
     "/_sc{7 -1 roll{setcachedevice}{pop pop pop pop pop pop}ifelse}_d";
     "/_e{exec}_d"].

Definition ttf_PS_header (font : TTFONT) (h : head) (n : names) (post_table : string)
    (target_type : Z) : T unit :=
  (if target_type =? 42 then
     tprintf ("%%!PS-TrueTypeFont-%d.%d-%d.%d" +:+ nl)
       [AD (t_TTVersion font).1; AD (t_TTVersion font).2; AD (h_MfrRevision h).1; AD (h_MfrRevision h).2]
   else tputs ("%!PS-Adobe-3.0 Resource-Font" +:+ nl));;
  FullName ← name_or_crash (n_FullName n);
  tprintf ("%%%%Title: %s" +:+ nl) [AS FullName];;
  match n_Copyright n with
  | Some s => tprintf ("%%%%Copyright: %s" +:+ nl) [AS s]
  | None => mret tt
  end;;
  tputs ((if target_type =? 42 then "%%Creator: Converted from TrueType to type 42 by PPR's libttf"
          else "%%Creator: Converted from TrueType by PPR's libttf") +:+ nl);;
  (if target_type =? 42 then
     VMMin ← getULONG post_table 16;
     VMMax ← getULONG post_table 20;
     twhen ((0 <? i32 VMMin) && (0 <? i32 VMMax))
       (tprintf ("%%%%VMUsage: %d %d" +:+ nl) [AD (i32 VMMin); AD (i32 VMMax)])
   else mret tt);;
  (if negb (target_type =? 3) then tputs ("15 dict begin" +:+ nl)
   else tputs ("25 dict begin" +:+ nl);; tputs type3_procedures);;
  PostName ← name_or_crash (n_PostName n);
  tprintf ("/FontName /%s def" +:+ nl) [AS PostName];;
  tputs ("/PaintType 0 def" +:+ nl);;
  tputs ((if target_type =? 42 then "/FontMatrix[1 0 0 1 0 0]def"
          else "/FontMatrix[.001 0 0 .001 0 0]def") +:+ nl);;
  let '(llx, lly, urx, ury) := h_bbox h in
  tprintf ("/FontBBox[%d %d %d %d]def" +:+ nl) [AD llx; AD lly; AD urx; AD ury];;
  tprintf ("/FontType %d def" +:+ nl) [AD target_type].

Definition ttf_PS_encoding : T unit := tputs ("/Encoding StandardEncoding def" +:+ nl).

Definition ttf_PS_FontInfo (n : names) (post_table : string) : T unit :=
  tputs ("/FontInfo 10 dict dup begin" +:+ nl);;
  FamilyName ← name_or_crash (n_FamilyName n);
  tprintf ("/FamilyName (%s) def" +:+ nl) [AS FamilyName];;
  FullName ← name_or_crash (n_FullName n);
  tprintf ("/FullName (%s) def" +:+ nl) [AS FullName];;
  match n_Copyright n, n_Trademark n with
  | None, None => mret tt
  | Some copyright, None => tputs "/Notice (";; ttf_PS_string copyright;; tputs (") def" +:+ nl)
  | None, Some trademark => tputs "/Notice (";; ttf_PS_string trademark;; tputs (") def" +:+ nl)
  | Some copyright, Some trademark =>
      tputs "/Notice (";; ttf_PS_string copyright;; tputc " ";; ttf_PS_string trademark;;
      tputs (") def" +:+ nl)
  end;;
  Style ← name_or_crash (n_Style n);
  tprintf ("/Weight (%s) def" +:+ nl) [AS Style];;
  Version ← name_or_crash (n_Version n);
  tprintf ("/Version (%s) def" +:+ nl) [AS Version];;
  ItalicAngle ← getFixed post_table 4;
  tprintf ("/ItalicAngle %d.%d def" +:+ nl) [AD ItalicAngle.1; AD ItalicAngle.2];;
  isFixedPitch ← getULONG post_table 12;
  tprintf ("/isFixedPitch %s def" +:+ nl) [AS (if isFixedPitch =? 0 then "false" else "true")];;
  UnderlinePosition ← getSHORT post_table 8;
  tprintf ("/UnderlinePosition %d def" +:+ nl) [AD UnderlinePosition];;
  UnderlineThickness ← getSHORT post_table 10;
  tprintf ("/UnderlineThickness %d def" +:+ nl) [AD UnderlineThickness];;
  tputs ("end readonly def" +:+ nl +:+ nl).

(** * The sfnts array *)

(** The static variables. *)
Record sfnts := mkSfnts {
  string_len : Z;
  line_len_sofar : Z;
  in_string : bool;
}.

Definition sfnts_start : T sfnts := tputs "/sfnts[<";; mret (mkSfnts 0 8 true).

Definition hexdigit (n : Z) : ascii :=
  default "0"%char (String.get (Z.to_nat n) "0123456789ABCDEF").

Definition sfnts_pputBYTE (s : sfnts) (n : Z) : T sfnts :=
  s ← (if in_string s then mret s
       else tputc "<";; mret (mkSfnts 0 (line_len_sofar s + 1) true));
  tputc (hexdigit (n / 16));;
  tputc (hexdigit (n mod 16));;
  let line := line_len_sofar s + 2 in
  if 70 <? line then tputc (chr 10);; mret (mkSfnts (string_len s + 1) 0 true)
  else mret (mkSfnts (string_len s + 1) line true).

Fixpoint put_bytes (s : sfnts) (l : list Z) : T sfnts :=
  match l with
  | [] => mret s
  | n :: l' => s ← sfnts_pputBYTE s n; put_bytes s l'
  end.

Definition sfnts_pputUSHORT (s : sfnts) (n : Z) : T sfnts :=
  s ← sfnts_pputBYTE s (n / 256);
  sfnts_pputBYTE s (n mod 256).

Definition sfnts_pputULONG (s : sfnts) (n : Z) : T sfnts :=
  let x1 := n mod 256 in
  let x2 := n / 256 mod 256 in
  let x3 := n / 256 / 256 mod 256 in
  s ← sfnts_pputBYTE s (n / 256 / 256 / 256);
  s ← sfnts_pputBYTE s x3;
  s ← sfnts_pputBYTE s x2;
  sfnts_pputBYTE s x1.

(** The extra byte at the end of the string is counted from 0. *)
Definition sfnts_end_string (s : sfnts) : T sfnts :=
  s ← (if in_string s then
         s ← sfnts_pputBYTE (mkSfnts 0 (line_len_sofar s) true) 0;
         tputc ">";;
         mret (mkSfnts (string_len s) (line_len_sofar s + 1) true)
       else mret s);
  mret (mkSfnts (string_len s) (line_len_sofar s) false).

Definition sfnts_new_table (s : sfnts) (length : Z) : T sfnts :=
  if 65528 <? u32 (string_len s + length) then sfnts_end_string s else mret s.

(** while(length--): bytes of the file from its position on. *)
Fixpoint copy_bytes_of (n : nat) (missing : TTF_RESULT) (s : sfnts) (file : string) : T (sfnts * string) :=
  match n with
  | 0%nat => mret (s, file)
  | S n' =>
      match file with
      | EmptyString => longjmp missing
      | String c file' =>
          s ← sfnts_pputBYTE s (code c);
          copy_bytes_of n' missing s file'
      end
  end.

(** The offset of the glyph in the 'glyf' table, and its length. *)
Definition glyph_place (indexToLocFormat : Z) (loca_table : string) (x : Z) : T (Z * Z) :=
  if indexToLocFormat =? 0 then
    off ← getUSHORT loca_table (x * 2);
    next ← getUSHORT loca_table ((x + 1) * 2);
    mret (off * 2, u32 (next * 2 - off * 2))
  else
    off ← getULONG loca_table (x * 4);
    next ← getULONG loca_table ((x + 1) * 4);
    mret (off, u32 (next - off)).

Fixpoint copy_glyphs (n : nat) (h : head) (loca_table : string) (x : Z) (s : sfnts) (file : string)
    (total : Z) : T (sfnts * Z) :=
  match n with
  | 0%nat => mret (s, total)
  | S n' =>
      '(_, length) ← glyph_place (h_indexToLocFormat h) loca_table x;
      s ← sfnts_new_table s length;
      if negb (length mod 2 =? 0) then longjmp TTF_GLYF_BADPAD
      else
        '(s, file) ← copy_bytes_of (Z.to_nat length) TTF_GLYF_CANTREAD s file;
        copy_glyphs n' h loca_table (x + 1) s file (u32 (total + length))
  end.

Fixpoint zero_bytes (n : nat) (s : sfnts) : T sfnts :=
  match n with
  | 0%nat => mret s
  | S n' => s ← sfnts_pputBYTE s 0; zero_bytes n' s
  end.

Definition sfnts_glyf_table (font : TTFONT) (h : head) (numGlyphs : Z) (oldoffset correct_total_length : Z)
    (s : sfnts) : T sfnts :=
  loca_table ← ttf_LoadTable font "loca";
  '(s, total) ← copy_glyphs (Z.to_nat numGlyphs) h loca_table 0 s
    (str_drop (Z.to_nat oldoffset) (t_file font)) 0;
  s ← zero_bytes (Z.to_nat (correct_total_length - total)) s;
  if correct_total_length <? total then longjmp TTF_GLYF_SIZEINC else mret s.

Definition table_names : list string :=
  ["cvt "; "fpgm"; "glyf"; "head"; "hhea"; "hmtx"; "loca"; "maxp"; "prep"].

(** What is noted of a table; nothing of one that is missing. *)
Record sfnts_table := mkTable {
  tb_oldoffset : Z;
  tb_newoffset : Z;
  tb_length : Z;
  tb_checksum : Z;
}.

(** The directory is searched on and on: its entries are sorted by name, and
    nothing stops the search at its end. *)
Fixpoint find_in_directory (fuel : nat) (offset_table name : string) (ptr : Z) : T (bool * Z) :=
  match fuel with
  | 0%nat => stuck "read behind a table"
  | S fuel' =>
      here ← getULONG offset_table ptr;
      if tag name <? here then mret (false, ptr)
      else if here =? tag name then mret (true, ptr)
      else find_in_directory fuel' offset_table name (ptr + 16)
  end.

(** The tables by name, and how many there are. *)
Fixpoint choose_tables (wanted : list string) (offset_table : string) (ptr nextoffset count : Z)
    : T (list (string * sfnts_table) * Z) :=
  match wanted with
  | [] => mret ([], count)
  | name :: wanted' =>
      '(found, ptr) ← find_in_directory (S (String.length offset_table)) offset_table name ptr;
      if (found : bool) then
        checksum ← getULONG offset_table (ptr + 4);
        oldoffset ← getULONG offset_table (ptr + 8);
        length ← getULONG offset_table (ptr + 12);
        let nextoffset' := u32 (nextoffset + u32 (length + 3) / 4 * 4) in
        '(tables, count) ← choose_tables wanted' offset_table (ptr + 16) nextoffset' (count + 1);
        mret ((name, mkTable oldoffset nextoffset length checksum) :: tables, count)
      else choose_tables wanted' offset_table ptr nextoffset count
  end.

Definition put_entry (count : Z) (s : sfnts) (entry : string * sfnts_table) : T sfnts :=
  let '(name, t) := entry in
  if tb_length t =? 0 then mret s
  else
    s ← put_bytes s (code <$> chars name);
    s ← sfnts_pputULONG s (tb_checksum t);
    s ← sfnts_pputULONG s (u32 (tb_newoffset t + 12 + count * 16));
    sfnts_pputULONG s (tb_length t).

Definition put_table (font : TTFONT) (h : head) (numGlyphs : Z) (s : sfnts)
    (entry : string * sfnts_table) : T sfnts :=
  let '(name, t) := entry in
  if tb_length t =? 0 then mret s
  else
    s ← (if String.eqb name "glyf" then
           sfnts_glyf_table font h numGlyphs (tb_oldoffset t) (tb_length t) s
         else if 65535 <? tb_length t then longjmp TTF_TBL_TOOBIG
         else
           s ← sfnts_new_table s (tb_length t);
           '(s, _) ← copy_bytes_of (Z.to_nat (tb_length t)) TTF_TBL_CANTREAD s
             (str_drop (Z.to_nat (tb_oldoffset t)) (t_file font));
           mret s);
    zero_bytes (Z.to_nat ((- tb_length t) mod 4)) s.

(** for(x=0; x < 9; x++) *)
Fixpoint each_table {A} (body : sfnts → A → T sfnts) (s : sfnts) (tables : list A) : T sfnts :=
  match tables with
  | [] => mret s
  | t :: tables' => s ← body s t; each_table body s tables'
  end.

Definition ttf_PS_sfnts (font : TTFONT) (h : head) (numGlyphs : Z) : T unit :=
  '(tables, count) ← choose_tables table_names (t_offset_table font) 12 0 0;
  s ← sfnts_start;
  s ← put_bytes s (code <$> chars (str_take 4 (t_offset_table font)));
  s ← sfnts_pputUSHORT s count;
  s ← (if count =? 9 then
         s ← sfnts_pputUSHORT s 7;
         s ← sfnts_pputUSHORT s 3;
         sfnts_pputUSHORT s 81
       else mret s);
  s ← each_table (put_entry count) s tables;
  s ← each_table (put_table font h numGlyphs) s tables;
  sfnts_end_string s;;
  tputs ("]def" +:+ nl).
