(* ===== verification/TrueTypeOut.v ===== *)
(** TrueType fonts made PostScript fonts: the names of the glyphs, the outlines of
    a Type 3 font, and the whole conversion (src/libttf/charstrings.c,
    ps_trailer.c and ttf_psout.c, src/nonppr_misc/ps_type3/ps_type3.c). *)
From S2P Require Import Prelude.
From S2P Require Import Text.
From S2P Require Import Spooler.
From S2P Require Import DriverOutput.
From S2P Require Import ReadPpd.
From S2P Require Import TrueType.

(** * The names of the glyphs *)

Definition Apple_CharStrings : list string :=
  [".notdef"; ".null"; "nonmarkingreturn"; "space"; "exclam"; "quotedbl"; "numbersign"; "dollar";
    "percent"; "ampersand"; "quotesingle"; "parenleft"; "parenright"; "asterisk"; "plus"; "comma";
    "hyphen"; "period"; "slash"; "zero"; "one"; "two"; "three"; "four"; "five"; "six"; "seven"; "eight";
    "nine"; "colon"; "semicolon"; "less"; "equal"; "greater"; "question"; "at"; "A"; "B"; "C"; "D"; "E";
    "F"; "G"; "H"; "I"; "J"; "K"; "L"; "M"; "N"; "O"; "P"; "Q"; "R"; "S"; "T"; "U"; "V"; "W"; "X"; "Y";
    "Z"; "bracketleft"; "backslash"; "bracketright"; "asciicircum"; "underscore"; "grave"; "a"; "b";
    "c"; "d"; "e"; "f"; "g"; "h"; "i"; "j"; "k"; "l"; "m"; "n"; "o"; "p"; "q"; "r"; "s"; "t"; "u"; "v";
    "w"; "x"; "y"; "z"; "braceleft"; "bar"; "braceright"; "asciitilde"; "Adieresis"; "Aring";
    "Ccedilla"; "Eacute"; "Ntilde"; "Odieresis"; "Udieresis"; "aacute"; "agrave"; "acircumflex";
    "adieresis"; "atilde"; "aring"; "ccedilla"; "eacute"; "egrave"; "ecircumflex"; "edieresis";
    "iacute"; "igrave"; "icircumflex"; "idieresis"; "ntilde"; "oacute"; "ograve"; "ocircumflex";
    "odieresis"; "otilde"; "uacute"; "ugrave"; "ucircumflex"; "udieresis"; "dagger"; "degree"; "cent";
    "sterling"; "section"; "bullet"; "paragraph"; "germandbls"; "registered"; "copyright"; "trademark";
    "acute"; "dieresis"; "notequal"; "AE"; "Oslash"; "infinity"; "plusminus"; "lessequal";
    "greaterequal"; "yen"; "mu"; "partialdiff"; "summation"; "product"; "pi"; "integral"; "ordfeminine";
    "ordmasculine"; "Omega"; "ae"; "oslash"; "questiondown"; "exclamdown"; "logicalnot"; "radical";
    "florin"; "approxequal"; "Delta"; "guillemotleft"; "guillemotright"; "ellipsis"; "nobreakspace";
    "Agrave"; "Atilde"; "Otilde"; "OE"; "oe"; "endash"; "emdash"; "quotedblleft"; "quotedblright";
    "quoteleft"; "quoteright"; "divide"; "lozenge"; "ydieresis"; "Ydieresis"; "fraction"; "currency";
    "guilsinglleft"; "guilsinglright"; "fi"; "fl"; "daggerdbl"; "periodcentered"; "quotesinglbase";
    "quotedblbase"; "perthousand"; "Acircumflex"; "Ecircumflex"; "Aacute"; "Edieresis"; "Egrave";
    "Iacute"; "Icircumflex"; "Idieresis"; "Igrave"; "Oacute"; "Ocircumflex"; "apple"; "Ograve";
    "Uacute"; "Ucircumflex"; "Ugrave"; "dotlessi"; "circumflex"; "tilde"; "macron"; "breve";
    "dotaccent"; "ring"; "cedilla"; "hungarumlaut"; "ogonek"; "caron"; "Lslash"; "lslash"; "Scaron";
    "scaron"; "Zcaron"; "zcaron"; "brokenbar"; "Eth"; "eth"; "Yacute"; "yacute"; "Thorn"; "thorn";
    "minus"; "multiply"; "onesuperior"; "twosuperior"; "threesuperior"; "onehalf"; "onequarter";
    "threequarters"; "franc"; "Gbreve"; "gbreve"; "Idot"; "Scedilla"; "scedilla"; "Cacute"; "cacute";
    "Ccaron"; "ccaron"; "dmacron"; "markingspace"; "capslock"; "shift"; "propeller"; "enter";
    "markingtabrtol"; "markingtabltor"; "control"; "markingdeleteltor"; "markingdeletertol"; "option";
    "escape"; "parbreakltor"; "parbreakrtol"; "newpage"; "checkmark"; "linebreakltor"; "linebreakrtol";
    "markingnobreakspace"; "diamond"; "appleoutline"].

(** The length and the place of a string, [n] strings further on. *)
Fixpoint pascal_string (n : nat) (post_table : string) (ptr : Z) : T (Z * Z) :=
  len ← BYTE_at post_table ptr;
  match n with
  | 0%nat => mret (len, ptr + 1)
  | S n' => pascal_string n' post_table (ptr + 1 + len)
  end.

Definition ttf_charindex2name (post_table : string) (numGlyphs charindex : Z) : T string :=
  GlyphIndex ← getUSHORT post_table (34 + charindex * 2);
  if GlyphIndex <=? 257 then mret (nth (Z.to_nat GlyphIndex) Apple_CharStrings EmptyString)
  else
    '(len, ptr) ← pascal_string (Z.to_nat (GlyphIndex - 258)) post_table (34 + numGlyphs * 2);
    if 80 <=? len then longjmp TTF_LONGPSNAME
    else gu_strndup post_table ptr len.

(** * Outlines *)

Abbreviation point := (Z * Z)%type.

(** ** Reading a glyph *)

(** The flags of [n] points, and where they end; a flag that is repeated takes
    more than one. *)
Fixpoint read_flags (fuel : nat) (glyf_table : string) (n glyph : Z) : T (list Z * Z) :=
  match fuel with
  | 0%nat => stuck "read behind a table"
  | S fuel' =>
      if n <=? 0 then mret ([], glyph)
      else
        c ← BYTE_at glyf_table glyph;
        if Z.testbit c 3 then
          ct ← BYTE_at glyf_table (glyph + 1);
          if n - 1 <? ct then longjmp TTF_GLYF_BADFLAGS
          else
            '(flags, glyph) ← read_flags fuel' glyf_table (n - 1 - ct) (glyph + 2);
            mret (c :: replicate (Z.to_nat ct) c ++ flags, glyph)
        else
          '(flags, glyph) ← read_flags fuel' glyf_table (n - 1) (glyph + 1);
          mret (c :: flags, glyph)
  end.

(** The differences from point to point: the bits of the flag say that it is one
    byte, and that this is positive, or that there is no difference. *)
Fixpoint read_coords (byte_bit same_bit : Z) (glyf_table : string) (flags : list Z) (glyph : Z)
    : T (list Z * Z) :=
  match flags with
  | [] => mret ([], glyph)
  | f :: flags' =>
      '(d, glyph) ←
        (if Z.testbit f byte_bit then
           c ← BYTE_at glyf_table glyph;
           mret (if Z.testbit f same_bit then c else - c, glyph + 1)
         else if Z.testbit f same_bit then mret (0, glyph)
         else d ← getSHORT glyf_table glyph; mret (d, glyph + 2));
      '(ds, glyph) ← read_coords byte_bit same_bit glyf_table flags' glyph;
      mret (d :: ds, glyph)
  end.

(** Absolute values, as shorts. *)
Fixpoint absolute (before : Z) (ds : list Z) : list Z :=
  match ds with
  | [] => []
  | d :: ds' => let x := i16 (before + d) in x :: absolute x ds'
  end.

Fixpoint to_post (unitsPerEm : Z) (l : list Z) : T (list Z) :=
  match l with
  | [] => mret []
  | x :: l' => x ← topost unitsPerEm x; l' ← to_post unitsPerEm l'; mret (i16 x :: l')
  end.

Fixpoint read_endpoints (n : nat) (glyf_table : string) (glyph : Z) : T (list Z) :=
  match n with
  | 0%nat => mret []
  | S n' =>
      e ← getUSHORT glyf_table glyph;
      es ← read_endpoints n' glyf_table (glyph + 2);
      mret (e :: es)
  end.

(** A point, and whether it is on the curve. *)
Abbreviation tt_point := (bool * point)%type.

(** The endpoints of the contours, and the points. *)
Definition load_char (unitsPerEm : Z) (glyf_table : string) (num_ctr glyph : Z)
    : T (list Z * list tt_point) :=
  epts_ctr ← read_endpoints (Z.to_nat num_ctr) glyf_table glyph;
  let glyph := glyph + num_ctr * 2 in
  let num_pts := default 0 (last epts_ctr) + 1 in
  instructions ← getUSHORT glyf_table glyph;
  '(tt_flags, glyph) ← read_flags (S (Z.to_nat num_pts)) glyf_table num_pts (glyph + 2 + instructions);
  '(dx, glyph) ← read_coords 1 4 glyf_table tt_flags glyph;
  '(dy, _) ← read_coords 2 5 glyf_table tt_flags glyph;
  xcoor ← to_post unitsPerEm (absolute 0 dx);
  ycoor ← to_post unitsPerEm (absolute 0 dy);
  mret (epts_ctr, zip ((λ f, Z.testbit f 0) <$> tt_flags) (zip xcoor ycoor)).

(** The first and the last point of each contour. *)
Fixpoint extents (start : Z) (epts_ctr : list Z) : list (Z * Z) :=
  match epts_ctr with
  | [] => []
  | e :: es => (start, e) :: extents (e + 1) es
  end.

(** A point by its index. *)
Definition pt (points : list tt_point) (i : Z) : T tt_point :=
  if i <? 0 then stuck "before the points"
  else
    match points !! Z.to_nat i with
    | Some p => mret p
    | None => stuck "behind the points"
    end.

(** [n] points from number [i] on. *)
Fixpoint points_from (points : list tt_point) (i : Z) (n : nat) : T (list tt_point) :=
  match n with
  | 0%nat => mret []
  | S n' => p ← pt points i; l ← points_from points (i + 1) n'; mret (p :: l)
  end.

(** ** Areas *)

Definition cross (p q : point) : T Z := io (c_int (p.1 * q.2 - p.2 * q.1)).

Fixpoint path_area (p : point) (path : list point) : T Z :=
  match path with
  | [] => mret 0
  | q :: path' => a ← cross p q; sum ← path_area q path'; mret (a + sum)
  end.

(** Twice the area, negative for an outer contour. *)
Definition area (points : list tt_point) (extent : Z * Z) : T Z :=
  let '(start, e) := extent in
  q ← pt points e;
  p ← pt points start;
  closing ← cross q.2 p.2;
  path ← points_from points (start + 1) (Z.to_nat (e - start));
  sum ← path_area p.2 (snd <$> path);
  mret (closing + sum).

Fixpoint areas (points : list tt_point) (ctrs : list (Z * Z)) : T (list Z) :=
  match ctrs with
  | [] => mret []
  | c :: ctrs' => a ← area points c; l ← areas points ctrs'; mret (a :: l)
  end.

Definition sqr (x : Z) : T Z := io (c_int (x * x)).

Definition distance (p q : point) : T Z :=
  a ← sqr (p.1 - q.1);
  b ← sqr (p.2 - q.2);
  io (c_int (a + b)).

(** The first of the nearest points: [j] is the best one so far, at distance [r1]. *)
Fixpoint nearest (q : point) (i j : Z) (r1 : Z) (path : list tt_point) : T Z :=
  match path with
  | [] => mret j
  | p :: path' =>
      r2 ← distance p.2 q;
      if r2 <? r1 then nearest q (i + 1) i r2 path' else nearest q (i + 1) j r1 path'
  end.

(** The area of the triangle of the first point of the inner contour and the
    neighbours of the nearest point of the outer one.  Before it goes round the
    contour the program reads the places next to the point, of which nothing is
    used then. *)
Definition intest (points : list tt_point) (co ci : Z * Z) : T Z :=
  let '(start, e) := co in
  q ← pt points ci.1;
  s ← pt points start;
  r1 ← distance s.2 q.2;
  path ← points_from points start (Z.to_nat (e + 1 - start));
  j ← nearest q.2 start start r1 path;
  before ← pt points (if j =? start then e else j - 1);
  after ← pt points (if j =? e then start else j + 1);
  closing ← cross after.2 q.2;
  sum ← path_area q.2 [before.2; after.2];
  mret (closing + sum).

(** The outer contour from number [co] on that the point lies most closely
    inside of; [k] is the best one so far. *)
Fixpoint nearout_from (points : list tt_point) (ci : Z * Z) (co k : nat) (a1 : Z)
    (rest : list ((Z * Z) * Z)) : T nat :=
  match rest with
  | [] => mret k
  | (c, area_ctr) :: rest' =>
      if area_ctr <? 0 then
        a ← intest points c ci;
        if (a <? 0) && ((a1 =? 0) || (a1 <? a)) then nearout_from points ci (S co) co a rest'
        else nearout_from points ci (S co) k a1 rest'
      else nearout_from points ci (S co) k a1 rest'
  end.

Definition nearout (points : list tt_point) (all : list ((Z * Z) * Z)) (ci : Z * Z) : T nat :=
  nearout_from points ci 0 0 0 all.

(** ctrset[]: for an inner contour the outer one it belongs to. *)
Fixpoint assign_contours (points : list tt_point) (all rest : list ((Z * Z) * Z))
    : T (list (option nat)) :=
  match rest with
  | [] => mret []
  | (c, area_ctr) :: rest' =>
      out ← (if 0 <? area_ctr then k ← nearout points all c; mret (Some k) else mret None);
      outs ← assign_contours points all rest';
      mret (out :: outs)
  end.

(** ** Drawing *)

(** Procedures are kept short by ending one and beginning the next; the depth is
    kept from point to point. *)
Definition stack (num_pts depth newdepth : Z) : T Z :=
  if 25 <? num_pts then
    (if depth =? 0 then tputs "{" else mret tt);;
    let depth := (if depth =? 0 then 1 else depth) + newdepth in
    if 100 <? depth then tputs "}_e{";; mret (3 + newdepth) else mret depth
  else mret depth.

Definition stack_end (depth : Z) : T unit := twhen (negb (depth =? 0)) (tputs "}_e").

Definition PSMoveto (p : point) : T unit := tprintf ("%d %d _m" +:+ nl) [AD p.1; AD p.2].
Definition PSLineto (p : point) : T unit := tprintf ("%d %d _l" +:+ nl) [AD p.1; AD p.2].

Definition midpoint (p q : point) : point := (Z.quot (p.1 + q.1) 2, Z.quot (p.2 + q.2) 2).

(** A quadratic curve with its ends and its control point, as a cubic one; the
    doubles are cut off to ints. *)
Definition PSCubic (s0 s1 s2 : point) : T unit :=
  tprintf ("%d %d %d %d %d %d _c" +:+ nl)
    [AD (Z.quot (2 * s1.1 + s0.1) 3); AD (Z.quot (2 * s1.2 + s0.2) 3);
     AD (Z.quot (s2.1 + 2 * s1.1) 3); AD (Z.quot (s2.2 + 2 * s1.2) 3); AD s2.1; AD s2.2].

(** From a point over points that are off the curve to one that is on it. *)
Fixpoint PSCurveto (from : point) (off : list point) (to : point) : T unit :=
  match off with
  | [] => mret tt
  | [c] => PSCubic from c to
  | c :: (c' :: _) as off' =>
      PSCubic from c (midpoint c c');;
      PSCurveto (midpoint c c') off' to
  end.

Definition draw_to (num_pts depth : Z) (from : point) (off : list point) (to : point) : T Z :=
  match off with
  | [] => depth ← stack num_pts depth 3; PSLineto to;; mret depth
  | _ => depth ← stack num_pts depth 7; PSCurveto from off to;; mret depth
  end.

(** [off] are the points off the curve since [from]. *)
Fixpoint draw_rest (num_pts depth : Z) (fst from : point) (off : list point) (rest : list tt_point) : T Z :=
  match rest with
  | [] => draw_to num_pts depth from off fst
  | (on, p) :: rest' =>
      if (on : bool) then
        depth ← draw_to num_pts depth from off p;
        draw_rest num_pts depth fst p [] rest'
      else draw_rest num_pts depth fst from (off ++ [p]) rest'
  end.

Definition draw_contour (num_pts depth : Z) (points : list tt_point) (extent : Z * Z) : T Z :=
  let '(start, e) := extent in
  depth ← stack num_pts depth 3;
  fst ← pt points start;
  PSMoveto fst.2;;
  rest ← points_from points (start + 1) (Z.to_nat (e - start));
  draw_rest num_pts depth fst.2 fst.2 [] rest.

(** The first contour with its bit in check_ctr[] clear that is wanted. *)
Fixpoint next_contour (j : nat) (wanted : nat → bool) (check_ctr : list bool) : option nat :=
  match check_ctr with
  | [] => None
  | checked :: check_ctr' =>
      if negb checked && wanted j then Some j else next_contour (S j) wanted check_ctr'
  end.

Definition nextinctr (ctrset : list (option nat)) (check_ctr : list bool) (co : nat) : option nat :=
  next_contour 0 (λ j, bool_decide (ctrset !! j = Some (Some co))) check_ctr.

Definition nextoutctr (area_ctr : list Z) (check_ctr : list bool) : option nat :=
  next_contour 0 (λ j, default 0 (area_ctr !! j) <? 0) check_ctr.

(** Contour [k] is drawn, of those that belong to the outer contour [i]; each is
    marked when it is chosen. *)
Fixpoint draw_contours (fuel : nat) (draw : Z → nat → T Z) (area_ctr : list Z)
    (ctrset : list (option nat)) (check_ctr : list bool) (i k : nat) (depth : Z) : T Z :=
  match fuel with
  | 0%nat => λ _, Stopped SFuel
  | S fuel' =>
      depth ← draw depth k;
      match nextinctr ctrset check_ctr i with
      | Some k => draw_contours fuel' draw area_ctr ctrset (<[k:=true]> check_ctr) i k depth
      | None =>
          match nextoutctr area_ctr check_ctr with
          | Some i => draw_contours fuel' draw area_ctr ctrset (<[i:=true]> check_ctr) i i depth
          | None => mret depth
          end
      end
  end.

Definition PSConvert (points : list tt_point) (ctrs : list (Z * Z)) (depth : Z) : T Z :=
  let num_pts := Z.of_nat (length points) in
  area_ctr ← areas points ctrs;
  ctrset ← assign_contours points (zip ctrs area_ctr) (zip ctrs area_ctr);
  let draw depth k := draw_contour num_pts depth points (nth k ctrs (0, 0)) in
  let check_ctr := <[0%nat:=true]> (replicate (length ctrs) false) in
  depth ← draw_contours (S (length ctrs)) draw area_ctr ctrset check_ctr 0 0 depth;
  depth ← stack num_pts depth 1;
  tputs "_cl";;
  mret depth.

(** ** Composite glyphs *)

(** The bytes of the scale, which is not used. *)
Definition scale_bytes (flags : Z) : Z :=
  if Z.testbit flags 3 then 2
  else if Z.testbit flags 6 then 4
  else if Z.testbit flags 7 then 8
  else 0.

Fixpoint do_composite (fuel : nat) (unitsPerEm : Z) (post_table : string) (numGlyphs : Z)
    (glyf_table : string) (glyph : Z) : T unit :=
  match fuel with
  | 0%nat => stuck "read behind a table"
  | S fuel' =>
      flags ← getUSHORT glyf_table glyph;
      glyphIndex ← getUSHORT glyf_table (glyph + 2);
      let words := Z.testbit flags 0 in
      arg1 ← (if words then getSHORT glyf_table (glyph + 4) else BYTE_at glyf_table (glyph + 4));
      arg2 ← (if words then getSHORT glyf_table (glyph + 6) else BYTE_at glyf_table (glyph + 5));
      let glyph := glyph + (if words then 8 else 6) in
      (match scale_bytes flags with
       | 0 => mret 0
       | n => BYTE_at glyf_table (glyph + n - 1)
       end);;
      let xy := Z.testbit flags 1 in
      let shifted := xy && negb ((arg1 =? 0) && (arg2 =? 0)) in
      (if xy then
         twhen shifted
           (x ← topost unitsPerEm arg1;
            y ← topost unitsPerEm arg2;
            tprintf ("gsave %d %d translate" +:+ nl) [AD x; AD y])
       else tprintf ("%% unimplemented shift, arg1=%d, arg2=%d" +:+ nl) [AD arg1; AD arg2]);;
      name ← ttf_charindex2name post_table numGlyphs glyphIndex;
      tprintf ("false CharStrings /%s get exec" +:+ nl) [AS name];;
      twhen shifted (tputs "grestore ");;
      if Z.testbit flags 5
      then do_composite fuel' unitsPerEm post_table numGlyphs glyf_table (glyph + scale_bytes flags)
      else mret tt
  end.

(** ** A glyph *)

(** The tables a Type 3 font is made from. *)
Record type3_tables := mkType3 {
  y_numberOfHMetrics : Z;
  y_loca_table : string;
  y_glyf_table : string;
  y_hmtx_table : string;
}.

Definition find_glyph_data (h : head) (y : type3_tables) (charindex : Z) : T (option Z) :=
  '(off, length) ← glyph_place (h_indexToLocFormat h) (y_loca_table y) charindex;
  mret (if 0 <? length then Some off else None).

(** The number of contours and the bounding box. *)
Definition glyph_header (y : type3_tables) (glyph : option Z) : T (Z * Z * Z * Z * Z) :=
  match glyph with
  | None => mret (0, 0, 0, 0, 0)
  | Some glyph =>
      num_ctr ← getSHORT (y_glyf_table y) glyph;
      llx ← getSHORT (y_glyf_table y) (glyph + 2);
      lly ← getSHORT (y_glyf_table y) (glyph + 4);
      urx ← getSHORT (y_glyf_table y) (glyph + 6);
      ury ← getSHORT (y_glyf_table y) (glyph + 8);
      mret (num_ctr, llx, lly, urx, ury)
  end.

Definition ttf_PS_type3_charproc (h : head) (post_table : string) (numGlyphs : Z) (y : type3_tables)
    (charindex : Z) : T unit :=
  let em := h_unitsPerEm h in
  glyph ← find_glyph_data h y charindex;
  '(num_ctr, llx, lly, urx, ury) ← glyph_header y glyph;
  let data := default 0 glyph + 10 in
  '(epts_ctr, points) ←
    (if 0 <? num_ctr then load_char em (y_glyf_table y) num_ctr data else mret ([], []));
  let num_pts := Z.of_nat (length points) in
  advance_width ← getUSHORT (y_hmtx_table y)
    ((if charindex <? y_numberOfHMetrics y then charindex else y_numberOfHMetrics y - 1) * 4);
  depth ← stack num_pts 0 7;
  width ← topost em advance_width;
  llx ← topost em llx;
  lly ← topost em lly;
  urx ← topost em urx;
  ury ← topost em ury;
  tprintf ("%d 0 %d %d %d %d _sc" +:+ nl) [AD width; AD llx; AD lly; AD urx; AD ury];;
  depth ←
    (if 0 <? num_ctr then PSConvert points (extents 0 epts_ctr) depth
     else
       twhen (num_ctr <? 0)
         (do_composite (String.length (y_glyf_table y)) em post_table numGlyphs (y_glyf_table y) data);;
       mret depth);
  stack_end depth.

(** * The font *)

Fixpoint charstrings (n : nat) (h : head) (post_table : string) (numGlyphs : Z) (target : option type3_tables)
    (x : Z) : T unit :=
  match n with
  | 0%nat => mret tt
  | S n' =>
      name ← ttf_charindex2name post_table numGlyphs x;
      match target with
      | None => tprintf ("/%s %d def" +:+ nl) [AS name; AD x]
      | Some y =>
          tprintf "/%s{" [AS name];;
          ttf_PS_type3_charproc h post_table numGlyphs y x;;
          tputs ("}_d" +:+ nl)
      end;;
      charstrings n' h post_table numGlyphs target (x + 1)
  end.

(** [target] has the tables of a Type 3 font, [None] is Type 42. *)
Definition ttf_PS_CharStrings (h : head) (post_table : string) (numGlyphs : Z)
    (target : option type3_tables) : T unit :=
  '(whole, fraction) ← getFixed post_table 0;
  if negb (whole =? 2) || negb (fraction =? 0) then longjmp TTF_UNSUP_POST
  else
    tprintf ("/CharStrings %d dict dup begin" +:+ nl) [AD numGlyphs];;
    charstrings (Z.to_nat numGlyphs) h post_table numGlyphs target 0;;
    tputs ("end readonly def" +:+ nl).

Fixpoint tputlines (lines : list string) : T unit :=
  match lines with
  | [] => mret tt
  | line :: lines' => tputs (line +:+ nl);; tputlines lines'
  end.

Definition type3_trailer : list string :=
  ["/BuildGlyph";
   " {exch begin";
   " CharStrings exch";
   " 2 copy known not{pop /.notdef}if";
   " true 3 1 roll get exec";
   " end}_d";
   EmptyString;
   "/BuildChar {";
   " 1 index /Encoding get exch get";
   " 1 index /BuildGlyph get exec";
   "}_d";
   EmptyString].

Definition type42_trailer : list string :=
  ["systemdict/resourcestatus known";
   " {42 /FontType resourcestatus";
   "    {pop pop false}{true}ifelse}";
   " {true}ifelse";
   "{/TrueDict where{pop}{(%%[ Error: no TrueType rasterizer ]%%)= flush}ifelse";
   "/FontType 3 def";
   " /TrueState 271 string def";
   " TrueDict begin sfnts save";
   " 72 0 matrix defaultmatrix dtransform dup";
   " mul exch dup mul add sqrt cvi 0 72 matrix";
   " defaultmatrix dtransform dup mul exch dup";
   " mul add sqrt cvi 3 -1 roll restore";
   " TrueState initer end";
   " /BuildGlyph{exch begin";
   "  CharStrings dup 2 index known";
   "    {exch}{exch pop /.notdef}ifelse";
   "  get dup xcheck";
   "    {currentdict systemdict begin begin exec end end}";
   "    {TrueDict begin /bander load cvlit exch TrueState render end}";
   "    ifelse";
   " end}bind def";
   " /BuildChar{";
   "  1 index /Encoding get exch get";
   "  1 index /BuildGlyph get exec";
   " }bind def";
   "}if";
   EmptyString].

Definition ttf_PS_trailer (target_type : Z) : T unit :=
  (if target_type =? 3 then tputc (chr 10);; tputlines type3_trailer
   else twhen (target_type =? 42) (tputc (chr 10);; tputlines type42_trailer));;
  tputs ("FontName currentdict end definefont pop" +:+ nl);;
  tputs ("%%EOF" +:+ nl).

Definition load_type3 (font : TTFONT) : T type3_tables :=
  hhea ← ttf_LoadTable font "hhea";
  numberOfHMetrics ← getUSHORT hhea 34;
  loca_table ← ttf_LoadTable font "loca";
  glyf_table ← ttf_LoadTable font "glyf";
  hmtx_table ← ttf_LoadTable font "hmtx";
  mret (mkType3 numberOfHMetrics loca_table glyf_table hmtx_table).

(** [target_type] is 42 or 3. *)
Definition ttf_psout (font : TTFONT) (target_type : Z) : T unit :=
  h ← ttf_Read_head font;
  n ← ttf_Read_name font;
  post_table ← ttf_LoadTable font "post";
  numGlyphs ← getUSHORT post_table 32;
  ttf_PS_header font h n post_table target_type;;
  ttf_PS_encoding;;
  ttf_PS_FontInfo n post_table;;
  twhen (target_type =? 42) (ttf_PS_sfnts font h numGlyphs);;
  target ← (if target_type =? 3 then y ← load_type3 font; mret (Some y) else mret None);
  ttf_PS_CharStrings h post_table numGlyphs target;;
  ttf_PS_trailer target_type.

(** * The driver's use of the library (src/pprdrv/pprdrv_tt.c) *)

Definition EXIT_TTFONT : Z := EXIT_JOBERR.

Definition ttf_result {A} (m : T A) : O A :=
  r ← (m : O (TTF_RESULT + A));
  match r with
  | inl code => fatal EXIT_TTFONT (ttf_strerror code)
  | inr a => mret a
  end.

Definition send_ttf (file : option string) (target_type : Z) : O unit :=
  font ← ttf_result (ttf_new file);
  printer_write "%PPR-don't-cache ";;
  ttf_result (ttf_psout font target_type).
