(* ===== verification/PropOutlines.v ===== *)
(** Outlines of TrueType fonts: the conversion comes to an end, and draws every
    contour of a glyph once, the inner ones behind the outer ones they lie in. *)
From S2P Require Import Prelude.
From S2P Require Import Text.
From S2P Require Import Spooler.
From S2P Require Import DriverOutput.
From S2P Require Import Programs.
From S2P Require Import TrueType.
From S2P Require Import TrueTypeOut.

(** * Runs of the library's programs *)

Lemma T_done_bind {A B} (m : T A) (f : A → T B) s b s' :
  (m ≫= f) s = Done (inr b) s' → ∃ a s1, m s = Done (inr a) s1 ∧ f a s1 = Done (inr b) s'.
Proof.
  unfold mbind, T_bind, mbind, M_bind. destruct (m s) as [[e|a] s1| |]; intros; try done. eauto.
Qed.

Lemma T_run_bind {A B} (m : T A) (f : A → T B) s a s' :
  m s = Done (inr a) s' → (m ≫= f) s = f a s'.
Proof. intros E. unfold mbind, T_bind, mbind, M_bind. by rewrite E. Qed.

Lemma T_done_ret {A} (a b : A) s s' : (mret a : T A) s = Done (inr b) s' → a = b ∧ s = s'.
Proof. by intros [= -> ->]. Qed.

(** ** They return *)

Lemma T_returns_bind {A B} (m : T A) (f : A → T B) :
  returns m → (∀ a, returns (f a)) → returns (m ≫= f).
Proof. intros Hm Hf. unfold mbind, T_bind. apply returns_bind; [done|]. intros [e|a]; [done | apply Hf]. Qed.

Lemma T_returns_ret {A} (a : A) : returns (mret a : T A).
Proof. done. Qed.

Lemma longjmp_returns {A} code : returns (longjmp (A := A) code).
Proof. done. Qed.

Lemma stuck_returns {A} why : returns (stuck (A := A) why).
Proof. done. Qed.

Lemma io_returns {A} (m : O A) : returns m → returns (io m).
Proof. intros Hm. by apply returns_bind. Qed.

Lemma tputs_returns s : returns (tputs s).
Proof. apply io_returns, write_returns. Qed.
Lemma tputc_returns c : returns (tputc c).
Proof. apply io_returns, putc_returns. Qed.
Lemma tprintf_returns fmt va : returns (tprintf fmt va).
Proof. apply io_returns, printf_returns. Qed.
Lemma c_int_returns n : returns (S := outbuf) (c_int n).
Proof. intros s. unfold c_int. by case_match. Qed.

Create HintDb treturns.
#[export] Hint Resolve T_returns_ret longjmp_returns stuck_returns io_returns tputs_returns
  tputc_returns tprintf_returns c_int_returns : treturns.

Ltac treturns :=
  repeat (cbv zeta; first
    [ progress eauto with treturns
    | apply T_returns_bind; [|intros]
    | progress unfold twhen, name_or_crash, BYTE_at, getUSHORT, getSHORT, getULONG, getFixed, topost,
        read_block, gu_strndup, glyph_place, pt
    | case_match ]).

Lemma search_tables_returns n font name ptr : returns (search_tables n font name ptr).
Proof. revert ptr. induction n; intros ptr; cbn [search_tables]; treturns. Qed.
#[export] Hint Resolve search_tables_returns : treturns.

Lemma LoadTable_returns font name : returns (ttf_LoadTable font name).
Proof. unfold ttf_LoadTable. treturns. Qed.
#[export] Hint Resolve LoadTable_returns : treturns.

Lemma read_names_returns n table strings ptr found : returns (read_names n table strings ptr found).
Proof.
  revert ptr found. induction n; intros ptr found; cbn [read_names]; unfold name_record; treturns.
Qed.
#[export] Hint Resolve read_names_returns : treturns.

Lemma Read_head_returns font : returns (ttf_Read_head font).
Proof. unfold ttf_Read_head. treturns. Qed.

Lemma Read_name_returns font : returns (ttf_Read_name font).
Proof. unfold ttf_Read_name. treturns. Qed.

Lemma PS_string_returns s : returns (ttf_PS_string s).
Proof. induction s; cbn [ttf_PS_string]; treturns. Qed.
#[export] Hint Resolve Read_head_returns Read_name_returns PS_string_returns : treturns.

Lemma PS_header_returns font h n post t : returns (ttf_PS_header font h n post t).
Proof. unfold ttf_PS_header. treturns. Qed.

Lemma FontInfo_returns n post : returns (ttf_PS_FontInfo n post).
Proof. unfold ttf_PS_FontInfo. treturns. Qed.
#[export] Hint Resolve PS_header_returns FontInfo_returns : treturns.

Lemma pputBYTE_returns s n : returns (sfnts_pputBYTE s n).
Proof. unfold sfnts_pputBYTE. treturns. Qed.
#[export] Hint Resolve pputBYTE_returns : treturns.

Lemma put_bytes_returns s l : returns (put_bytes s l).
Proof. revert s. induction l; intros s; cbn [put_bytes]; treturns. Qed.

Lemma pputUSHORT_returns s n : returns (sfnts_pputUSHORT s n).
Proof. unfold sfnts_pputUSHORT. treturns. Qed.

Lemma pputULONG_returns s n : returns (sfnts_pputULONG s n).
Proof. unfold sfnts_pputULONG. treturns. Qed.

Lemma end_string_returns s : returns (sfnts_end_string s).
Proof. unfold sfnts_end_string. treturns. Qed.
#[export] Hint Resolve put_bytes_returns pputUSHORT_returns pputULONG_returns end_string_returns : treturns.

Lemma copy_bytes_of_returns n missing s file : returns (copy_bytes_of n missing s file).
Proof. revert s file. induction n; intros s file; cbn [copy_bytes_of]; treturns. Qed.
#[export] Hint Resolve copy_bytes_of_returns : treturns.

Lemma copy_glyphs_returns n h loca x s file total : returns (copy_glyphs n h loca x s file total).
Proof.
  revert x s file total. induction n; intros; cbn [copy_glyphs]; unfold sfnts_new_table; treturns.
Qed.

Lemma zero_bytes_returns n s : returns (zero_bytes n s).
Proof. revert s. induction n; intros s; cbn [zero_bytes]; treturns. Qed.

Lemma find_in_directory_returns fuel table name ptr : returns (find_in_directory fuel table name ptr).
Proof. revert ptr. induction fuel; intros ptr; cbn [find_in_directory]; treturns. Qed.
#[export] Hint Resolve copy_glyphs_returns zero_bytes_returns find_in_directory_returns : treturns.

Lemma choose_tables_returns wanted table ptr next count : returns (choose_tables wanted table ptr next count).
Proof. revert ptr next count. induction wanted; intros; cbn [choose_tables]; treturns. Qed.

Lemma each_table_returns {A} (body : sfnts → A → T sfnts) s tables :
  (∀ s t, returns (body s t)) → returns (each_table body s tables).
Proof. intros Hb. revert s. induction tables; intros s; cbn [each_table]; treturns. Qed.
#[export] Hint Resolve choose_tables_returns : treturns.

Lemma PS_sfnts_returns font h numGlyphs : returns (ttf_PS_sfnts font h numGlyphs).
Proof.
  unfold ttf_PS_sfnts, sfnts_start. treturns; apply each_table_returns; intros s' [name t];
    unfold put_entry, put_table, sfnts_glyf_table, sfnts_new_table; treturns.
Qed.
#[export] Hint Resolve PS_sfnts_returns : treturns.

(** ** Glyphs *)

Lemma pascal_string_returns n post ptr : returns (pascal_string n post ptr).
Proof. revert ptr. induction n; intros ptr; cbn [pascal_string]; treturns. Qed.
#[export] Hint Resolve pascal_string_returns : treturns.

Lemma charindex2name_returns post n i : returns (ttf_charindex2name post n i).
Proof. unfold ttf_charindex2name. treturns. Qed.

Lemma read_flags_returns fuel glyf n glyph : returns (read_flags fuel glyf n glyph).
Proof. revert n glyph. induction fuel; intros; cbn [read_flags]; treturns. Qed.

Lemma read_coords_returns b d glyf flags glyph : returns (read_coords b d glyf flags glyph).
Proof. revert glyph. induction flags; intros; cbn [read_coords]; treturns. Qed.

Lemma to_post_returns em l : returns (to_post em l).
Proof. induction l; cbn [to_post]; treturns. Qed.

Lemma read_endpoints_returns n glyf glyph : returns (read_endpoints n glyf glyph).
Proof. revert glyph. induction n; intros; cbn [read_endpoints]; treturns. Qed.

Lemma points_from_returns points i n : returns (points_from points i n).
Proof. revert i. induction n; intros i; cbn [points_from]; treturns. Qed.

Lemma path_area_returns p path : returns (path_area p path).
Proof. revert p. induction path; intros p; cbn [path_area]; unfold cross; treturns. Qed.

Lemma nearest_returns q i j r path : returns (nearest q i j r path).
Proof. revert i j r. induction path; intros; cbn [nearest]; unfold distance, sqr; treturns. Qed.
#[export] Hint Resolve charindex2name_returns read_flags_returns read_coords_returns to_post_returns
  read_endpoints_returns points_from_returns path_area_returns nearest_returns : treturns.

Lemma areas_returns points ctrs : returns (areas points ctrs).
Proof. induction ctrs; cbn [areas]; unfold area, cross; treturns. Qed.

Lemma nearout_returns points ci co k a rest : returns (nearout_from points ci co k a rest).
Proof.
  revert co k a. induction rest; intros; cbn [nearout_from]; unfold intest, distance, sqr, cross; treturns.
Qed.
#[export] Hint Resolve areas_returns nearout_returns : treturns.

Lemma assign_returns points all rest : returns (assign_contours points all rest).
Proof. induction rest; cbn [assign_contours]; unfold nearout; treturns. Qed.

Lemma stack_returns n d e : returns (stack n d e).
Proof. unfold stack. treturns. Qed.

Lemma PSCurveto_returns from off to : returns (PSCurveto from off to).
Proof. revert from. induction off; intros; cbn [PSCurveto]; unfold PSCubic; treturns. Qed.
#[export] Hint Resolve assign_returns stack_returns PSCurveto_returns : treturns.

Lemma draw_rest_returns n d fst from off rest : returns (draw_rest n d fst from off rest).
Proof.
  revert d from off. induction rest; intros; cbn [draw_rest]; unfold draw_to, PSLineto; treturns.
Qed.
#[export] Hint Resolve draw_rest_returns : treturns.

Lemma draw_contour_returns n d points extent : returns (draw_contour n d points extent).
Proof. unfold draw_contour, PSMoveto. treturns. Qed.

Lemma do_composite_returns fuel em post n glyf glyph : returns (do_composite fuel em post n glyf glyph).
Proof. revert glyph. induction fuel; intros; cbn [do_composite]; treturns. Qed.
#[export] Hint Resolve draw_contour_returns do_composite_returns : treturns.

(** * What is computed of a contour *)

(** The points of a contour, in their order. *)
Definition part (points : list tt_point) (extent : Z * Z) : list point :=
  snd <$> take (Z.to_nat (extent.2 + 1 - extent.1)) (drop (Z.to_nat extent.1) points).

(** A contour has a point, at least. *)
Definition proper (extent : Z * Z) : Prop := extent.1 ≤ extent.2.

Definition det (p q : point) : Z := p.1 * q.2 - p.2 * q.1.

(** Each point with the next, the last with the first. *)
Definition around (l : list point) : list point :=
  match l with [] => [] | p :: l' => l' ++ [p] end.

Definition sum (l : list Z) : Z := foldr Z.add 0 l.

(** Twice the area, with its sign. *)
Definition signed_area (l : list point) : Z := sum (zip_with det l (around l)).

Definition apart_by (p q : point) : Z := (p.1 - q.1) * (p.1 - q.1) + (p.2 - q.2) * (p.2 - q.2).

(** Place [j] is the first of those nearest to [q]. *)
Definition nearest_place (l : list point) (q : point) (j : nat) : Prop :=
  ∃ p, l !! j = Some p ∧
    ∀ i r, l !! i = Some r → apart_by p q ≤ apart_by r q ∧ ((i < j)%nat → apart_by p q < apart_by r q).

(** The triangle of a point with those before and behind the point of the contour
    that is nearest: its area is negative where the point lies inside. *)
Definition triangle_at (l : list point) (q : point) (a : Z) : Prop :=
  ∃ j before after, nearest_place l q j ∧
    l !! ((j + length l - 1) mod length l)%nat = Some before ∧
    l !! ((j + 1) mod length l)%nat = Some after ∧
    a = signed_area [q; before; after].

Lemma nearest_place_one l q j j' : nearest_place l q j → nearest_place l q j' → j = j'.
Proof.
  intros (p & Hp & H) (p' & Hp' & H'). destruct (H _ _ Hp') as [H1 H2]. destruct (H' _ _ Hp) as [H3 H4].
  destruct (Nat.lt_trichotomy j j') as [Hlt|[|Hlt]]; [specialize (H4 Hlt); lia|done|specialize (H2 Hlt); lia].
Qed.

Lemma triangle_at_one l q a a' : triangle_at l q a → triangle_at l q a' → a = a'.
Proof.
  intros (j & b & c & Hj & Hb & Hc & ->) (j' & b' & c' & Hj' & Hb' & Hc' & ->).
  pose proof (nearest_place_one _ _ _ _ Hj Hj') as <-. by simplify_eq.
Qed.

Lemma c_int_done n (s s' : outbuf) a : io (c_int n) s = Done (inr a) s' → a = n ∧ s' = s.
Proof.
  unfold io, mbind, M_bind, c_int, undef. destruct (_ && _); [by intros [= <- <-] | done].
Qed.

Lemma cross_done p q s a s' : cross p q s = Done (inr a) s' → a = det p q ∧ s' = s.
Proof. apply c_int_done. Qed.

Lemma distance_done p q s a s' : distance p q s = Done (inr a) s' → a = apart_by p q ∧ s' = s.
Proof.
  unfold distance, sqr. intros (x & s1 & [-> ->]%c_int_done & (y & s2 & [-> ->]%c_int_done & H)%T_done_bind)%T_done_bind.
  by apply c_int_done in H as [-> ->].
Qed.

Lemma pt_done points i s p s' :
  pt points i s = Done (inr p) s' → 0 ≤ i ∧ points !! Z.to_nat i = Some p ∧ s' = s.
Proof.
  unfold pt. destruct (Z.ltb_spec i 0); [done|]. destruct (points !! Z.to_nat i); [|done].
  by intros [-> ->]%T_done_ret.
Qed.

Lemma points_from_done points i n s l s' :
  0 ≤ i → points_from points i n s = Done (inr l) s' →
  l = take n (drop (Z.to_nat i) points) ∧ length l = n ∧ s' = s.
Proof.
  revert i l s s'. induction n as [|n IH]; intros i l s s' Hi; cbn [points_from].
  { by intros [<- ->]%T_done_ret. }
  intros (p & s1 & (_ & Hp & ->)%pt_done & (l' & s2 & Hl & [<- ->]%T_done_ret)%T_done_bind)%T_done_bind.
  apply IH in Hl as (-> & Hlen & ->); [|lia].
  rewrite (drop_S _ _ _ Hp). replace (S (Z.to_nat i)) with (Z.to_nat (i + 1)) by lia.
  split_and!; [done | cbn; by f_equal | done].
Qed.

Lemma path_area_done p path s a s' :
  path_area p path s = Done (inr a) s' → a = sum (zip_with det (p :: path) path) ∧ s' = s.
Proof.
  revert p a s s'. induction path as [|q path IH]; intros p a s s'; cbn [path_area].
  { by intros [<- ->]%T_done_ret. }
  intros (x & s1 & [-> ->]%cross_done & (y & s2 & [-> ->]%IH & [<- ->]%T_done_ret)%T_done_bind)%T_done_bind.
  done.
Qed.

Lemma zip_around p path :
  sum (zip_with det (p :: path) (path ++ [p])) =
  det (default p (last path)) p + sum (zip_with det (p :: path) path).
Proof.
  enough (∀ x, sum (zip_with det (x :: path) (path ++ [p])) =
    det (default x (last path)) p + sum (zip_with det (x :: path) path)) as H by apply H.
  induction path as [|y path IH]; intros x; [done|].
  change (sum (zip_with det (x :: y :: path) ((y :: path) ++ [p]))) with
    (det x y + sum (zip_with det (y :: path) (path ++ [p]))).
  change (sum (zip_with det (x :: y :: path) (y :: path))) with (det x y + sum (zip_with det (y :: path) path)).
  rewrite IH. rewrite last_cons. destruct (last path); simpl; lia.
Qed.

(** A contour by its first point and the others. *)
Lemma part_cons points c p :
  0 ≤ c.1 → proper c → points !! Z.to_nat c.1 = Some p →
  part points c = p.2 :: (snd <$> take (Z.to_nat (c.2 - c.1)) (drop (Z.to_nat (c.1 + 1)) points)).
Proof.
  unfold proper. intros H0 Hc Hp. unfold part. rewrite (drop_S _ _ _ Hp).
  replace (Z.to_nat (c.2 + 1 - c.1)) with (S (Z.to_nat (c.2 - c.1))) by lia. cbn [take fmap list_fmap].
  do 4 f_equal. lia.
Qed.

Lemma part_lookup points c (i : nat) :
  0 ≤ c.1 → Z.of_nat i ≤ c.2 - c.1 → part points c !! i = snd <$> points !! (Z.to_nat c.1 + i)%nat.
Proof.
  intros H0 Hi. unfold part. rewrite list_lookup_fmap, lookup_take_lt by lia. by rewrite lookup_drop.
Qed.

Lemma part_length points c p :
  0 ≤ c.1 → proper c → points !! Z.to_nat c.2 = Some p → Z.of_nat (length (part points c)) = c.2 + 1 - c.1.
Proof.
  unfold proper. intros H0 Hc Hp%lookup_lt_Some. unfold part. rewrite length_fmap, length_take, length_drop. lia.
Qed.

Lemma area_done points c s a s' :
  proper c → area points c s = Done (inr a) s' → a = signed_area (part points c) ∧ s' = s.
Proof.
  destruct c as [start e]. intros Hc. assert (start ≤ e) as Hle by exact Hc. unfold area.
  intros (q & s1 & (He & Hq & ->)%pt_done & H)%T_done_bind.
  apply T_done_bind in H as (p & s2 & (Hs & Hp & ->)%pt_done & H).
  apply T_done_bind in H as (x & s3 & [-> ->]%cross_done & H).
  apply T_done_bind in H as (path & s4 & Hpath & H).
  apply points_from_done in Hpath as (-> & _ & ->); [|lia].
  apply T_done_bind in H as (y & s5 & [-> ->]%path_area_done & H).
  apply T_done_ret in H as [<- ->]. split; [|done].
  rewrite (part_cons points (start, e) p) by done. unfold signed_area, around. rewrite zip_around.
  set (path := _ <$> take _ _). f_equal. f_equal.
  pose proof (part_length points (start, e) q Hs Hc Hq) as Hl.
  pose proof (part_lookup points (start, e) (Z.to_nat (e - start)) Hs ltac:(simpl; lia)) as Hlast.
  simpl in Hl, Hlast. replace (Z.to_nat start + Z.to_nat (e - start))%nat with (Z.to_nat e) in Hlast by lia.
  rewrite Hq in Hlast. rewrite (part_cons points (start, e) p) in Hl, Hlast by done. cbn [fst snd] in *. fold path in Hl, Hlast.
  destruct (decide (e = start)) as [->|Hne].
  - simpl in Hl. destruct path; [|simpl in Hl; lia]. rewrite Z.sub_diag in Hlast. simpl in Hlast. by simplify_eq.
  - rewrite last_lookup. simpl in Hl.
    replace (Z.to_nat (e - start)) with (S (pred (length path))) in Hlast by lia. simpl in Hlast. by rewrite Hlast.
Qed.

(** The search so far: [i] places seen, [j] the first of the nearest among them. *)
Lemma nearest_done q l done_ rest (j : nat) p s j' s' :
  l = done_ ++ (snd <$> rest) → l !! j = Some p →
  (∀ i r, done_ !! i = Some r → apart_by p q ≤ apart_by r q ∧ ((i < j)%nat → apart_by p q < apart_by r q)) →
  (j < length done_)%nat ∨ done_ = [] ∧ j = 0%nat →
  ∀ start,
  nearest q (start + Z.of_nat (length done_)) (start + Z.of_nat j) (apart_by p q) rest s = Done (inr j') s' →
  s' = s ∧ ∃ n, j' = start + Z.of_nat n ∧ nearest_place l q n.
Proof.
  intros -> . revert done_ j p s. induction rest as [|[on r] rest IH]; intros done_ j p s Hp Hbest Hj start; cbn [nearest].
  - intros [<- ->]%T_done_ret. split; [done|]. exists j. split; [done|]. exists p. split; [done|].
    intros i r. cbn. rewrite app_nil_r. apply Hbest.
  - intros (d & s1 & [-> ->]%distance_done & H)%T_done_bind. cbn [snd] in H.
    replace (done_ ++ (snd <$> (on, r) :: rest)) with ((done_ ++ [r]) ++ (snd <$> rest)) in *
      by by rewrite <- app_assoc.
    assert (start + Z.of_nat (length done_) + 1 = start + Z.of_nat (length (done_ ++ [r]))) as El.
    { rewrite length_app. simpl. lia. }
    rewrite El in H.
    assert (∀ i x, (done_ ++ [r]) !! i = Some x → done_ !! i = Some x ∨ i = length done_ ∧ x = r) as Hsplit.
    { intros i x [?|[? Hx]]%lookup_app_Some; [by left|]. right.
      destruct (i - length done_)%nat eqn:E; [|done]. simpl in Hx. simplify_eq. split; [lia|done]. }
    destruct (Z.ltb_spec (apart_by r q) (apart_by p q)) as [Hlt|Hge].
    + apply (IH (done_ ++ [r]) (length done_) r) in H; [done| | |].
      * rewrite <- app_assoc. by apply list_lookup_middle.
      * intros i x [Hi|[-> ->]]%Hsplit; [|split; [done|lia]].
        destruct (Hbest i x Hi) as [? _]. split; lia.
      * left. rewrite length_app. simpl. lia.
    + apply (IH (done_ ++ [r]) j p) in H; [done|done| |].
      * intros i x [Hi|[-> ->]]%Hsplit; [by apply Hbest|]. split; [done|]. destruct Hj as [|[-> ->]]; [lia|]. simpl. lia.
      * left. rewrite length_app. simpl. destruct Hj as [|[-> ->]]; simpl; lia.
Qed.

(** The first point of a contour. *)
Definition first_point (points : list tt_point) (c : Z * Z) : option point := part points c !! 0%nat.

Lemma next_place (n len : nat) : (n < len)%nat → ((n + 1) mod len = if (S n =? len) then 0 else S n)%nat.
Proof.
  intros Hn. destruct (Nat.eqb_spec (S n) len) as [<-|].
  - rewrite Nat.add_1_r. apply Nat.Div0.mod_same.
  - rewrite Nat.mod_small; lia.
Qed.

Lemma place_before (n len : nat) : (n < len)%nat → ((n + len - 1) mod len = if (n =? 0) then len - 1 else n - 1)%nat.
Proof.
  intros Hn. destruct (Nat.eqb_spec n 0) as [->|].
  - rewrite Nat.mod_small; lia.
  - replace (n + len - 1)%nat with (n - 1 + 1 * len)%nat by lia. rewrite Nat.Div0.mod_add. apply Nat.mod_small. lia.
Qed.

Lemma intest_done points co ci s a s' :
  proper co → proper ci → intest points co ci s = Done (inr a) s' →
  s' = s ∧ ∃ q, first_point points ci = Some q ∧ triangle_at (part points co) q a.
Proof.
  destruct co as [start e]. intros Hc Hci. assert (start ≤ e) as Hle by exact Hc. unfold intest.
  intros (q & s1 & (Hi & Hq & ->)%pt_done & H)%T_done_bind.
  apply T_done_bind in H as (p & s2 & (Hs & Hp & ->)%pt_done & H).
  apply T_done_bind in H as (r1 & s3 & [-> ->]%distance_done & H).
  apply T_done_bind in H as (path & s4 & (-> & Hlen & ->)%points_from_done & H); [|done].
  apply T_done_bind in H as (j & s5 & Hj & H).
  assert (part points (start, e) !! 0%nat = Some p.2) as Hp0 by by rewrite (part_cons points (start, e) p).
  replace start with (start + Z.of_nat 0) in Hj at 2 by lia.
  replace (start) with (start + Z.of_nat (length (@nil point))) in Hj at 1 by (simpl; lia).
  eapply (nearest_done q.2 (part points (start, e)) [] _ 0 p.2) in Hj; [|done|done|done|by right].
  destruct Hj as (-> & n & -> & Hn). pose proof Hn as (near & Hnear & _). pose proof (lookup_lt_Some _ _ _ Hnear) as Hlt.
  apply T_done_bind in H as (b & s6 & (_ & Hb & ->)%pt_done & H).
  apply T_done_bind in H as (c & s7 & (_ & Hcc & ->)%pt_done & H).
  apply T_done_bind in H as (x & s8 & [-> ->]%cross_done & H).
  apply T_done_bind in H as (y & s9 & [-> ->]%path_area_done & H).
  apply T_done_ret in H as [<- ->]. split; [done|]. exists q.2. split.
  { unfold first_point. by rewrite (part_cons points ci q). }
  assert (length (part points (start, e)) = Z.to_nat (e + 1 - start)) as Hlen'.
  { unfold part. by rewrite length_fmap. }
  exists n, b.2, c.2. split; [done|]. rewrite place_before, next_place by done.
  pose proof (part_lookup points (start, e)) as Hlook. cbn [fst snd] in Hlook.
  split_and!.
  - replace (start + Z.of_nat n =? start) with (n =? 0)%nat in Hb.
    2: { destruct (Nat.eqb_spec n 0), (Z.eqb_spec (start + Z.of_nat n) start); done || lia. }
    rewrite Hlook by (destruct (n =? 0)%nat; lia).
    replace (Z.to_nat start + _)%nat with (Z.to_nat (if (n =? 0)%nat then e else start + Z.of_nat n - 1)); [by rewrite Hb|].
    destruct (Nat.eqb_spec n 0); lia.
  - replace (start + Z.of_nat n =? e) with (S n =? length (part points (start, e)))%nat in Hcc.
    2: { destruct (Nat.eqb_spec (S n) (length (part points (start, e)))), (Z.eqb_spec (start + Z.of_nat n) e); done || lia. }
    rewrite Hlook by (destruct (Nat.eqb_spec (S n) (length (part points (start, e)))); lia).
    replace (Z.to_nat start + _)%nat with (Z.to_nat (if (S n =? length (part points (start, e)))%nat then start
      else start + Z.of_nat n + 1)); [by rewrite Hcc|].
    destruct (Nat.eqb_spec (S n) (length (part points (start, e)))); lia.
  - unfold signed_area. cbn. lia.
Qed.

(** The point lies inside of the outer contour [o], more closely the greater the
    area is. *)
Definition lies_in (points : list tt_point) (all : list ((Z * Z) * Z)) (q : point) (o : nat) (a : Z) : Prop :=
  ∃ c b, all !! o = Some (c, b) ∧ b < 0 ∧ triangle_at (part points c) q a ∧ a < 0.

(** Contour [k] is the outer one that contour [c] belongs to: of those it lies
    inside of the first one it lies most closely inside of; the first contour of
    the glyph if there is none. *)
Definition belongs (points : list tt_point) (all : list ((Z * Z) * Z)) (c : Z * Z) (k : nat) : Prop :=
  ∃ q, first_point points c = Some q ∧
    ((∃ a, lies_in points all q k a ∧
        ∀ o a', lies_in points all q o a' → a' ≤ a ∧ ((o < k)%nat → a' < a))
     ∨ k = 0%nat ∧ ∀ o a', ¬ lies_in points all q o a').

Definition best_of (points : list tt_point) (all : list ((Z * Z) * Z)) (q : point) (n k : nat) (a1 : Z) : Prop :=
  (lies_in points all q k a1 ∧ (k < n)%nat ∧
     ∀ o a', (o < n)%nat → lies_in points all q o a' → a' ≤ a1 ∧ ((o < k)%nat → a' < a1))
  ∨ a1 = 0 ∧ k = 0%nat ∧ ∀ o a', (o < n)%nat → ¬ lies_in points all q o a'.

Lemma nearout_done points all c q rest n k a1 k' s s' :
  Forall (λ e, proper e.1) all → proper c → first_point points c = Some q →
  rest = drop n all → best_of points all q n k a1 →
  nearout_from points c n k a1 rest s = Done (inr k') s' →
  s' = s ∧ ∃ a', best_of points all q (length all) k' a'.
Proof.
  intros Hall Hc Hq. revert n k a1 s. induction rest as [|[e b] rest IH]; intros n k a1 s Hrest Hbest;
    cbn [nearout_from].
  { intros [<- ->]%T_done_ret. split; [done|]. exists a1.
    assert (length all ≤ n)%nat as Hn by (symmetry in Hrest; apply (f_equal length) in Hrest;
      rewrite length_drop in Hrest; simpl in Hrest; lia).
    assert (∀ o a', lies_in points all q o a' → (o < length all)%nat) as Hl
      by (intros o a' (? & ? & ?%lookup_lt_Some & _); done).
    destruct Hbest as [(H1 & H2 & H3)|(-> & -> & H)]; [left|right]; split_and!; eauto.
    - intros o a' Ho. apply H3. lia.
    - intros o a' Ho. apply H. lia. }
  assert (all !! n = Some (e, b)) as Hn.
  { rewrite <- (Nat.add_0_r n), <- lookup_drop, <- Hrest. done. }
  assert (rest = drop (S n) all) as Hrest'.
  { rewrite (drop_S _ _ _ Hn) in Hrest. congruence. }
  assert (∀ o, (o < S n)%nat → (o < n)%nat ∨ o = n) as Hcase by lia.
  assert ((∀ a', ¬ lies_in points all q n a') → best_of points all q (S n) k a1) as Hskip.
  { intros Hno. destruct Hbest as [(H1 & H2 & H3)|(-> & -> & H)]; [left|right].
    - split_and!; [done|lia|]. intros o a' [Ho| ->]%Hcase Hl; [by apply H3 | by destruct (Hno a')].
    - split_and!; [done..|]. intros o a' [Ho| ->]%Hcase Hl; [by apply (H o a') | by destruct (Hno a')]. }
  destruct (Z.ltb_spec b 0) as [Hb|Hb].
  2: { apply (IH (S n)); [done|]. apply Hskip. intros a' (? & ? & ? & ? & _). simplify_eq. lia. }
  intros (a & s1 & Ha & H)%T_done_bind.
  rewrite Forall_forall in Hall. pose proof (Hall (e, b) (list_elem_of_lookup_2 _ _ _ Hn)) as He.
  apply intest_done in Ha as (-> & q' & Hq' & Ha); [|done..]. simplify_eq.
  assert (∀ a', lies_in points all q n a' → a' = a ∧ a < 0) as Hone.
  { intros a' (? & ? & ? & _ & Ht & ?). simplify_eq. pose proof (triangle_at_one _ _ _ _ Ht Ha). by subst. }
  destruct (Z.ltb_spec a 0) as [Hneg|]; cbn [andb] in H.
  2: { apply (IH (S n) k a1) in H; [done|done|]. apply Hskip. intros a' [_ ?]%Hone. lia. }
  assert (lies_in points all q n a) as Hl by by exists e, b.
  destruct ((a1 =? 0) || (a1 <? a)) eqn:Hcmp.
  - apply (IH (S n) n a) in H; [done|done|]. left. split_and!; [done|lia|].
    intros o a' [Ho| ->]%Hcase Ho'; [|apply Hone in Ho' as [-> _]; lia].
    destruct Hbest as [((? & ? & _ & _ & _ & ?) & _ & H3)|(-> & -> & H0)]; [|by destruct (H0 o a' Ho)].
    destruct (H3 o a' Ho Ho') as [? _].
    destruct (Z.eqb_spec a1 0), (Z.ltb_spec a1 a); try done; lia.
  - apply (IH (S n) k a1) in H; [done|done|].
    apply orb_false_iff in Hcmp as [Hz%Z.eqb_neq Hlt%Z.ltb_ge].
    destruct Hbest as [(H1 & H2 & H3)|(-> & _)]; [|done]. left. split_and!; [done|lia|].
    intros o a' [Ho| ->]%Hcase Ho'; [by apply H3|]. apply Hone in Ho' as [-> _]. lia.
Qed.

Lemma nearout_belongs points all c q k s s' :
  Forall (λ e, proper e.1) all → proper c → first_point points c = Some q →
  nearout points all c s = Done (inr k) s' → s' = s ∧ belongs points all c k.
Proof.
  intros Hall Hc Hq H. unfold nearout in H.
  apply (nearout_done points all c q) in H as (-> & a & Hbest); try done.
  2: { right. split_and!; [done..|]. lia. }
  split; [done|]. exists q. split; [done|].
  assert (∀ o a', lies_in points all q o a' → (o < length all)%nat) as Hl
    by (intros o a' (? & ? & ?%lookup_lt_Some & _); done).
  destruct Hbest as [(H1 & _ & H3)|(-> & -> & H)]; [left; exists a|right]; (split; [done|]); intros o a' Ho.
  - apply H3; [by eapply Hl | done].
  - apply (H o a'); [by eapply Hl | done].
Qed.

(** * The order of the contours *)

Lemma next_contour_some j0 wanted check j :
  next_contour j0 wanted check = Some j →
  ∃ n, j = (j0 + n)%nat ∧ check !! n = Some false ∧ wanted j = true.
Proof.
  revert j0. induction check as [|[] check IH]; intros j0; cbn [next_contour negb andb]; [done| |].
  - intros (n & -> & Hn & Hw)%IH. exists (S n). split; [lia | done].
  - destruct (wanted j0) eqn:E; [intros [= <-]; exists 0%nat; split; [lia|done]|].
    intros (n & -> & Hn & Hw)%IH. exists (S n). split; [lia | done].
Qed.

(** The contours drawn after the first. *)
Fixpoint contour_order (fuel : nat) (area_ctr : list Z) (ctrset : list (option nat)) (check_ctr : list bool)
    (i : nat) : option (list nat) :=
  match fuel with
  | 0%nat => None
  | S fuel' =>
      match nextinctr ctrset check_ctr i with
      | Some k => cons k <$> contour_order fuel' area_ctr ctrset (<[k:=true]> check_ctr) i
      | None =>
          match nextoutctr area_ctr check_ctr with
          | Some i => cons i <$> contour_order fuel' area_ctr ctrset (<[i:=true]> check_ctr) i
          | None => Some []
          end
      end
  end.

Fixpoint draw_all (draw : Z → nat → T Z) (l : list nat) (depth : Z) : T Z :=
  match l with
  | [] => mret depth
  | k :: l' => depth ← draw depth k; draw_all draw l' depth
  end.

Lemma draw_contours_order fuel draw area_ctr ctrset check i k depth l s :
  contour_order fuel area_ctr ctrset check i = Some l →
  draw_contours fuel draw area_ctr ctrset check i k depth s = draw_all draw (k :: l) depth s.
Proof.
  revert check i k depth l s. induction fuel as [|fuel IH]; intros check i k depth l s; [done|].
  cbn [contour_order draw_contours].
  assert (∀ m m' : Z → T Z, (∀ d s1, m d s1 = m' d s1) →
    (draw depth k ≫= m) s = (draw depth k ≫= m') s) as Hbind.
  { intros m m' Hm. unfold mbind, T_bind, mbind, M_bind. by destruct (draw depth k s) as [[]| |]. }
  intros Hl. cbn [draw_all]. apply Hbind. intros d s1.
  destruct (nextinctr ctrset check i) as [k'|].
  - apply fmap_Some in Hl as (l' & Hl' & ->). by rewrite (IH _ _ _ _ _ _ Hl').
  - destruct (nextoutctr area_ctr check) as [i'|]; [|by injection Hl as <-].
    apply fmap_Some in Hl as (l' & Hl' & ->). by rewrite (IH _ _ _ _ _ _ Hl').
Qed.

(** ** It ends *)

Definition unchecked (check : list bool) : nat := length (filter (λ b, b = false) check).

Lemma check_one check k :
  check !! k = Some false → unchecked check = S (unchecked (<[k:=true]> check)).
Proof.
  unfold unchecked. revert k. induction check as [|b check IH]; intros [|k]; [done..| |]; cbn.
  - intros [= ->]. by rewrite decide_True, decide_False.
  - intros Hk%IH. destruct b; [by rewrite !decide_False|].
    rewrite !decide_True by done. cbn. by f_equal.
Qed.

Lemma contour_order_ends fuel area_ctr ctrset check i :
  (unchecked check < fuel)%nat → ∃ l, contour_order fuel area_ctr ctrset check i = Some l.
Proof.
  revert check i. induction fuel as [|fuel IH]; intros check i Hf; [lia|]. cbn [contour_order].
  destruct (nextinctr ctrset check i) as [k|] eqn:Ei.
  - apply next_contour_some in Ei as (n & -> & Hk & _). apply check_one in Hk.
    destruct (IH (<[n:=true]> check) i) as [l Hl]; [lia|]. simpl. rewrite Hl. by eexists.
  - destruct (nextoutctr area_ctr check) as [k|] eqn:Eo; [|by eexists].
    apply next_contour_some in Eo as (n & -> & Hk & _). apply check_one in Hk.
    destruct (IH (<[n:=true]> check) n) as [l Hl]; [lia|]. simpl. rewrite Hl. by eexists.
Qed.

Lemma unchecked_start n : (unchecked (<[0%nat:=true]> (replicate n false)) < S n)%nat.
Proof.
  unfold unchecked.
  pose proof (length_filter (λ b, b = false) (<[0%nat:=true]> (replicate n false))) as Hf.
  rewrite length_insert, length_replicate in Hf. lia.
Qed.

(** ** What is drawn *)

(** The contours from [j0] on that are wanted and not yet drawn. *)
Fixpoint pending (j0 : nat) (wanted : nat → bool) (check : list bool) : list nat :=
  match check with
  | [] => []
  | checked :: check' =>
      (if negb checked && wanted j0 then [j0] else []) ++ pending (S j0) wanted check'
  end.

Lemma next_pending j0 wanted check : next_contour j0 wanted check = hd_error (pending j0 wanted check).
Proof.
  revert j0. induction check as [|b check IH]; intros j0; [done|]. cbn [next_contour pending].
  by destruct (negb b && wanted j0).
Qed.

Lemma pending_elem j0 wanted check j :
  j ∈ pending j0 wanted check ↔ ∃ n, j = (j0 + n)%nat ∧ check !! n = Some false ∧ wanted j = true.
Proof.
  revert j0. induction check as [|b check IH]; intros j0; cbn [pending].
  { split; [by intros ?%elem_of_nil | by intros (n & _ & ? & _)]. }
  rewrite elem_of_app, IH. split.
  - intros [Hj|(n & -> & Hn & Hw)]; [|exists (S n); split_and!; [lia|done..]].
    destruct b; cbn in Hj; [by apply elem_of_nil in Hj|].
    destruct (wanted j0) eqn:E; [|by apply elem_of_nil in Hj]. apply list_elem_of_singleton in Hj as ->.
    exists 0%nat. split_and!; [lia|done..].
  - intros ([|n] & -> & Hn & Hw); [left|right; exists n; split_and!; [lia|done..]].
    rewrite Nat.add_0_r in *. injection Hn as ->. cbn. rewrite Hw. by left.
Qed.

(** Drawing the first of them leaves the rest. *)
Lemma pending_mark j0 wanted check k l :
  pending j0 wanted check = k :: l → pending j0 wanted (<[(k - j0)%nat:=true]> check) = l.
Proof.
  revert j0. induction check as [|b check IH]; intros j0; [done|]. cbn [pending].
  destruct (negb b && wanted j0) eqn:E; cbn [app].
  - intros [= <- <-]. by rewrite Nat.sub_diag.
  - intros Hp. assert (k ∈ pending (S j0) wanted check) as Hk by (rewrite Hp; left).
    apply pending_elem in Hk as (n & -> & _).
    replace (S j0 + n - j0)%nat with (S n) by lia. cbn [insert list_insert pending]. rewrite E. cbn [app].
    rewrite <- (IH (S j0) Hp). f_equal. f_equal. lia.
Qed.

(** Drawing one that is not wanted changes nothing. *)
Lemma pending_mark_other j0 wanted check k :
  wanted (j0 + k)%nat = false → pending j0 wanted (<[k:=true]> check) = pending j0 wanted check.
Proof.
  revert j0 k. induction check as [|b check IH]; intros j0 k Hw; [done|].
  destruct k as [|k]; cbn [insert list_insert pending].
  - rewrite Nat.add_0_r in Hw. by rewrite Hw, !andb_false_r.
  - f_equal. apply IH. rewrite <- Hw. f_equal. lia.
Qed.

Lemma pending_fresh j0 wanted n : pending j0 wanted (replicate n false) = List.filter wanted (seq j0 n).
Proof.
  revert j0. induction n as [|n IH]; intros j0; [done|]. cbn. rewrite IH. by destruct (wanted j0).
Qed.

(** Contour [j] belongs to the outer contour [co]. *)
Definition inside (ctrset : list (option nat)) (co j : nat) : bool := bool_decide (ctrset !! j = Some (Some co)).

(** An outer contour. *)
Definition outer (area_ctr : list Z) (j : nat) : bool := default 0 (area_ctr !! j) <? 0.

Lemma contour_order_groups fuel area_ctr ctrset check i l :
  (∀ j co, inside ctrset co j = true → outer area_ctr j = false) → check !! i ≠ Some false →
  contour_order fuel area_ctr ctrset check i = Some l →
  l = pending 0 (inside ctrset i) check ++
      concat (map (λ o, o :: pending 0 (inside ctrset o) check) (pending 0 (outer area_ctr) check)).
Proof.
  intros Hin. revert check i l. induction fuel as [|fuel IH]; intros check i l Hi; [done|].
  cbn [contour_order].
  change (nextinctr ctrset check i) with (next_contour 0 (inside ctrset i) check).
  change (nextoutctr area_ctr check) with (next_contour 0 (outer area_ctr) check).
  rewrite !next_pending. destruct (pending 0 (inside ctrset i) check) as [|k rest] eqn:Ei; cbn [hd_error].
  - destruct (pending 0 (outer area_ctr) check) as [|o rest] eqn:Eo; cbn [hd_error]; [by intros [= <-]|].
    assert (o ∈ pending 0 (outer area_ctr) check) as Ho by (rewrite Eo; left).
    apply pending_elem in Ho as (n & Hn & Hc & Ho). simpl in Hn. subst n.
    intros (l' & E & ->)%fmap_Some. apply IH in E as ->.
    2: { by rewrite list_lookup_insert_eq by by eapply lookup_lt_Some. }
    cbn [app map concat]. f_equal.
    assert (∀ co, pending 0 (inside ctrset co) (<[o:=true]> check) = pending 0 (inside ctrset co) check) as Hsame.
    { intros co. apply pending_mark_other. simpl. apply not_true_iff_false. intros Hio%Hin. congruence. }
    pose proof (pending_mark _ _ _ _ _ Eo) as Hrest. rewrite Nat.sub_0_r in Hrest. rewrite Hrest, Hsame.
    f_equal. f_equal. apply map_ext. intros o'. by rewrite Hsame.
  - assert (k ∈ pending 0 (inside ctrset i) check) as Hk by (rewrite Ei; left).
    apply pending_elem in Hk as (n & Hn & Hc & Hk). simpl in Hn. subst n.
    intros (l' & E & ->)%fmap_Some. apply IH in E as ->.
    2: { destruct (decide (k = i)) as [->|]; [by rewrite list_lookup_insert_eq by by eapply lookup_lt_Some|].
         by rewrite list_lookup_insert_ne. }
    pose proof (pending_mark _ _ _ _ _ Ei) as Hrest. rewrite Nat.sub_0_r in Hrest. rewrite Hrest. cbn [app]. f_equal.
    f_equal. rewrite pending_mark_other by (simpl; by eapply Hin).
    f_equal. apply map_ext_in. intros o Ho%list_elem_of_In. f_equal.
    apply pending_elem in Ho as (n & -> & Hno & _). apply pending_mark_other. simpl.
    apply bool_decide_eq_false. apply bool_decide_eq_true in Hk. rewrite Hk. intros [= ->]. done.
Qed.

(** A glyph's contours, the first one first: each outer one, and behind it those
    that belong to it. *)
Definition glyph_order (n : nat) (area_ctr : list Z) (ctrset : list (option nat)) : list nat :=
  concat (map (λ o, o :: List.filter (inside ctrset o) (seq 1 (n - 1)))
    (0%nat :: List.filter (outer area_ctr) (seq 1 (n - 1)))).

Lemma order_of_glyph fuel area_ctr ctrset n l :
  (0 < n)%nat → (∀ j co, inside ctrset co j = true → outer area_ctr j = false) →
  contour_order fuel area_ctr ctrset (<[0%nat:=true]> (replicate n false)) 0 = Some l →
  0%nat :: l = glyph_order n area_ctr ctrset.
Proof.
  intros Hn Hin E. destruct n as [|n]; [lia|]. cbn [replicate insert list_insert] in E.
  apply contour_order_groups in E as ->; [|done|done]. unfold glyph_order.
  cbn [pending negb andb app map concat Nat.sub]. rewrite Nat.sub_0_r, !pending_fresh.
  f_equal. f_equal. f_equal. apply map_ext. intros o. cbn [pending negb andb app]. by rewrite pending_fresh.
Qed.

(** ** The contours of a glyph *)

Lemma area_first points c s a s' :
  proper c → area points c s = Done (inr a) s' → first_point points c ≠ None.
Proof.
  destruct c as [start e]. intros Hc. unfold area.
  intros (q & s1 & _ & (p & s2 & (Hs & Hp & _)%pt_done & _)%T_done_bind)%T_done_bind.
  unfold first_point. by rewrite (part_cons points (start, e) p).
Qed.


Lemma areas_length points ctrs l s s' : areas points ctrs s = Done (inr l) s' → length l = length ctrs.
Proof.
  revert l s s'. induction ctrs as [|c ctrs IH]; intros l s s'; cbn [areas]; [by intros [<- _]%T_done_ret|].
  intros (a & s1 & _ & (l' & s2 & Hl & Hr)%T_done_bind)%T_done_bind.
  apply T_done_ret in Hr as [<- _]. cbn. f_equal. eauto.
Qed.

Lemma areas_done points ctrs l s s' :
  Forall proper ctrs → areas points ctrs s = Done (inr l) s' →
  s' = s ∧ l = map (λ c, signed_area (part points c)) ctrs ∧
  ∀ c, c ∈ ctrs → first_point points c ≠ None.
Proof.
  intros Hc. revert l s s'. induction Hc as [|c ctrs Hc _ IH]; intros l s s'; cbn [areas].
  { intros [<- ->]%T_done_ret. split; [done|]. split; [done|]. intros c Hc'. by apply elem_of_nil in Hc'. }
  intros (a & s1 & Ha & (l' & s2 & (-> & -> & Hf)%IH & [<- ->]%T_done_ret)%T_done_bind)%T_done_bind.
  pose proof (area_first _ _ _ _ _ Hc Ha) as Hp. apply area_done in Ha as [-> ->]; [|done].
  split_and!; [done..|]. intros c' [->|Hc']%elem_of_cons; [done | by apply Hf].
Qed.

Lemma assign_done points all rest l s s' :
  Forall (λ e, proper e.1) all → Forall (λ e, proper e.1 ∧ first_point points e.1 ≠ None) rest →
  assign_contours points all rest s = Done (inr l) s' →
  s' = s ∧ ∀ j, match rest !! j with
    | Some (c, a) => if 0 <? a then ∃ k, l !! j = Some (Some k) ∧ belongs points all c k
                     else l !! j = Some None
    | None => l !! j = None
    end.
Proof.
  intros Hall Hr. revert l s s'. induction Hr as [|[c a] rest [Hc Hf] _ IH]; intros l s s'; cbn [assign_contours].
  - by intros [<- ->]%T_done_ret.
  - intros (o & s1 & Ho & (os & s2 & Hos & [<- ->]%T_done_ret)%T_done_bind)%T_done_bind.
    apply IH in Hos as [-> Hrest]. cbn [fst] in Hc, Hf.
    destruct (first_point points c) as [q|] eqn:Eq; [|done].
    destruct (0 <? a) eqn:Ha.
    + apply T_done_bind in Ho as (k & s3 & Hk & [<- ->]%T_done_ret).
      apply (nearout_belongs points all c q) in Hk as [-> Hk]; [|done..].
      split; [done|]. intros [|j]; [|apply Hrest]. cbn. rewrite Ha. by exists k.
    + apply T_done_ret in Ho as [<- ->]. split; [done|]. intros [|j]; [|apply Hrest]. cbn. by rewrite Ha.
Qed.

Lemma elem_of_groups {A} (x : A) (l : list (list A)) : x ∈ concat l ↔ ∃ g, x ∈ g ∧ g ∈ l.
Proof.
  rewrite list_elem_of_In, in_concat. split; intros (g & ? & ?); exists g;
    rewrite !list_elem_of_In in *; done.
Qed.

Lemma NoDup_groups {A B} (f : A → list B) (l : list A) :
  NoDup l → (∀ a, a ∈ l → NoDup (f a)) →
  (∀ a b x, a ∈ l → b ∈ l → x ∈ f a → x ∈ f b → a = b) → NoDup (concat (map f l)).
Proof.
  induction 1 as [|a l Ha _ IH]; intros Hf Hone; cbn; [constructor|].
  apply NoDup_app. split_and!.
  - apply Hf. left.
  - intros x Hx (y & Hy & (b & -> & Hb)%list_elem_of_fmap)%elem_of_groups.
    rewrite (Hone a b x) in Ha; [done|left|by right|done|done].
  - apply IH; [intros b Hb; apply Hf; by right|].
    intros b c x Hb Hc. apply Hone; by right.
Qed.

(** Each contour with an area stands in the order once. *)
Lemma glyph_order_contours n area_ctr ctrset :
  (0 < n)%nat → length area_ctr = n →
  (∀ j a, area_ctr !! j = Some a →
     if 0 <? a then ∃ k, ctrset !! j = Some (Some k) ∧ (k = 0%nat ∨ outer area_ctr k = true)
     else ctrset !! j = Some None) →
  NoDup (glyph_order n area_ctr ctrset) ∧
  ∀ j, j ∈ glyph_order n area_ctr ctrset ↔ (j < n)%nat ∧ (j = 0%nat ∨ area_ctr !! j ≠ Some 0).
Proof.
  intros Hn Hlen Hset. unfold glyph_order.
  assert (∀ (f : nat → bool) j, j ∈ List.filter f (seq 1 (n - 1)) ↔ (1 ≤ j < n)%nat ∧ f j = true) as Hf.
  { intros f j. rewrite list_elem_of_In, filter_In, in_seq. split; intros [? ?]; split; done || lia. }
  assert (∀ f : nat → bool, NoDup (List.filter f (seq 1 (n - 1)))) as Hnd.
  { intros f. apply NoDup_ListNoDup, List.NoDup_filter, seq_NoDup. }
  assert (∀ o j, inside ctrset o j = true → (j < n)%nat → outer area_ctr j = false) as Hin.
  { intros o j Ho%bool_decide_eq_true Hj. destruct (lookup_lt_is_Some_2 area_ctr j) as [a Ha]; [lia|].
    specialize (Hset j a Ha). unfold outer. rewrite Ha. cbn.
    destruct (Z.ltb_spec 0 a); [|congruence]. apply Z.ltb_ge. lia. }
  split.
  - apply NoDup_groups.
    + constructor; [rewrite Hf; lia | apply Hnd].
    + intros o Ho. constructor; [|apply Hnd]. rewrite Hf. intros [? Hi].
      apply elem_of_cons in Ho as [->|[_ Ho]%Hf]; [lia|]. apply Hin in Hi; [congruence|lia].
    + intros a b x Ha Hb [->|[? Hxa]%Hf]%elem_of_cons [->|[? Hxb]%Hf]%elem_of_cons.
      * done.
      * apply elem_of_cons in Ha as [->|[_ Ha]%Hf]; [lia|]. apply Hin in Hxb; [congruence|lia].
      * apply elem_of_cons in Hb as [->|[_ Hb]%Hf]; [lia|]. apply Hin in Hxa; [congruence|lia].
      * apply bool_decide_eq_true in Hxa, Hxb. congruence.
  - intros j. rewrite elem_of_groups. split.
    + intros (g & Hj & (o & -> & Ho)%list_elem_of_fmap).
      apply elem_of_cons in Hj as [->|[? Hj]%Hf].
      * apply elem_of_cons in Ho as [->|[? Ho]%Hf]; [split; [lia | by left]|]. split; [lia|]. right. intros E.
        unfold outer in Ho. by rewrite E in Ho.
      * split; [lia|]. right. intros E. specialize (Hset j 0 E). cbn in Hset.
        apply bool_decide_eq_true in Hj. congruence.
    + intros [Hj Hwhy]. destruct (decide (j = 0%nat)) as [->|Hj0].
      { eexists. split; [|left]. left. }
      destruct Hwhy as [|Ha]; [done|]. destruct (lookup_lt_is_Some_2 area_ctr j) as [a Ea]; [lia|].
      pose proof (Hset j a Ea) as Hs. destruct (Z.ltb_spec 0 a).
      * destruct Hs as (k & Hk & Hko). exists (k :: List.filter (inside ctrset k) (seq 1 (n - 1))). split.
        { right. apply Hf. split; [lia|]. by apply bool_decide_eq_true. }
        apply list_elem_of_fmap. exists k. split; [done|]. destruct (decide (k = 0%nat)) as [->|]; [left|right].
        apply Hf. destruct Hko as [|Hko]; [done|]. split; [|done]. split; [lia|].
        destruct (decide (k < n)%nat); [done|]. unfold outer in Hko. by rewrite lookup_ge_None_2 in Hko by lia.
      * exists (j :: List.filter (inside ctrset j) (seq 1 (n - 1))). split; [left|].
        apply list_elem_of_fmap. exists j. split; [done|]. right. apply Hf. split; [lia|].
        unfold outer. rewrite Ea. apply Z.ltb_lt. cbn. assert (a ≠ 0) by congruence. lia.
Qed.

(** The drawing of contour [k] of a glyph. *)
Definition draw_of (points : list tt_point) (ctrs : list (Z * Z)) (depth : Z) (k : nat) : T Z :=
  draw_contour (Z.of_nat (length points)) depth points (nth k ctrs (0, 0)).

(** C40: A glyph whose contours have points each, and whose areas are ints, is drawn
    contour by contour, each that has an area once, and then the path is closed.  First comes the first
    contour, then the outer ones in their order, which are those whose area is
    negative; right behind an outer contour come the inner ones, with positive
    areas, that belong to it.  An inner contour belongs to the outer one that its
    first point lies in most closely, by the triangle of that point and the
    neighbours of the outer contour's point nearest to it; to the first contour, if
    it lies in none. *)
Theorem every_contour_is_drawn_once points ctrs depth s area_ctr s1 ctrset s2 :
  ctrs ≠ [] → Forall proper ctrs →
  areas points ctrs s = Done (inr area_ctr) s1 →
  assign_contours points (zip ctrs area_ctr) (zip ctrs area_ctr) s1 = Done (inr ctrset) s2 →
  area_ctr = map (λ c, signed_area (part points c)) ctrs ∧
  (∀ j c a, ctrs !! j = Some c → area_ctr !! j = Some a →
     if 0 <? a then ∃ o, ctrset !! j = Some (Some o) ∧ belongs points (zip ctrs area_ctr) c o
     else ctrset !! j = Some None) ∧
  let order := glyph_order (length ctrs) area_ctr ctrset in
  NoDup order ∧
  (∀ j, j ∈ order ↔ (j < length ctrs)%nat ∧ (j = 0%nat ∨ area_ctr !! j ≠ Some 0)) ∧
  PSConvert points ctrs depth s =
    (depth ← draw_all (draw_of points ctrs) order depth;
     depth ← stack (Z.of_nat (length points)) depth 1;
     tputs "_cl";;
     mret depth) s.
Proof.
  intros Hne Hproper Hareas Hassign.
  pose proof (areas_done _ _ _ _ _ Hproper Hareas) as (-> & Ea & Hfirst).
  pose proof (areas_length _ _ _ _ _ Hareas) as Hlen.
  pose proof (proj1 (Forall_forall _ _) Hproper) as Hprop.
  assert (∀ j c a, zip ctrs area_ctr !! j = Some (c, a) ↔ ctrs !! j = Some c ∧ area_ctr !! j = Some a) as Hzip.
  { intros j c a. rewrite lookup_zip_with_Some. naive_solver. }
  destruct (assign_done points (zip ctrs area_ctr) (zip ctrs area_ctr) ctrset s s2) as [-> Hset]; [| |done|].
  { apply Forall_forall. intros [c a] [j [Hc _]%Hzip]%list_elem_of_lookup.
    by eapply Hprop, list_elem_of_lookup_2. }
  { apply Forall_forall. intros [c a] [j [Hc _]%Hzip]%list_elem_of_lookup.
    split; [eapply Hprop | apply Hfirst]; by eapply list_elem_of_lookup_2. }
  split; [done|]. split.
  { intros j c a Hc Ha. specialize (Hset j). by rewrite (proj2 (Hzip j c a)) in Hset. }
  assert (0 < length ctrs)%nat as Hpos by (destruct ctrs; [done|cbn; lia]).
  destruct (glyph_order_contours (length ctrs) area_ctr ctrset) as [Hd Hin]; [done..| |].
  { intros j a Ha. destruct (lookup_lt_is_Some_2 ctrs j) as [c Hc]; [apply lookup_lt_Some in Ha; lia|].
    specialize (Hset j). rewrite (proj2 (Hzip j c a)) in Hset by done.
    destruct (0 <? a); [|done]. destruct Hset as (k & Hk & Hb). exists k. split; [done|].
    destruct Hb as (q & _ & [(x & (c' & b & [_ Hb]%Hzip & Hneg & _) & _)|[-> _]]); [right | by left].
    unfold outer. rewrite Hb. by apply Z.ltb_lt. }
  split; [done|]. split; [done|].
  destruct (contour_order_ends (S (length ctrs)) area_ctr ctrset (<[0%nat:=true]> (replicate (length ctrs) false)) 0)
    as [l Hl]; [apply unchecked_start|].
  unfold PSConvert. rewrite (T_run_bind _ _ _ _ _ Hareas). cbv beta. rewrite (T_run_bind _ _ _ _ _ Hassign).
  cbv beta zeta. unfold mbind, T_bind, mbind, M_bind.
  rewrite (draw_contours_order _ _ _ _ _ _ _ _ _ _ Hl). rewrite (order_of_glyph _ _ _ _ _ Hpos) with (2 := Hl); [done|].
  intros j co Hj%bool_decide_eq_true. specialize (Hset j). unfold outer.
  destruct (zip ctrs area_ctr !! j) as [[c a]|] eqn:Ez; [|congruence].
  apply Hzip in Ez as [_ ->]. cbn. destruct (Z.ltb_spec 0 a); [|congruence]. apply Z.ltb_ge. lia.
Qed.

(** A square with a hole, and a triangle beside it. *)
Definition ring : list tt_point :=
  [(true, (0, 0)); (true, (0, 100)); (true, (100, 100)); (true, (100, 0));
   (true, (200, 0)); (true, (200, 50)); (true, (250, 0));
   (true, (20, 20)); (true, (80, 20)); (true, (80, 80)); (true, (20, 80))].
Definition ring_contours : list (Z * Z) := [(0, 3); (4, 6); (7, 10)].

Definition nothing_sent : outbuf := mkOut EmptyString BUFSIZE EmptyString 0 false false [].

Lemma every_contour_is_drawn_once_witness :
  let order := glyph_order 3 [-20000; -2500; 7200] [None; None; Some 0%nat] in
  order = [0; 2; 1]%nat ∧
  PSConvert ring ring_contours 0 nothing_sent =
    (depth ← draw_all (draw_of ring ring_contours) order 0;
     depth ← stack 11 depth 1;
     tputs "_cl";;
     mret depth) nothing_sent.
Proof.
  split; [reflexivity|].
  apply (every_contour_is_drawn_once ring ring_contours 0 nothing_sent [-20000; -2500; 7200] nothing_sent
    [None; None; Some 0%nat] nothing_sent);
    [done | by repeat constructor | vm_compute; reflexivity | vm_compute; reflexivity].
Defined.

(** * The conversion returns *)

Lemma draw_contours_returns draw area_ctr ctrset fuel check i k depth :
  (∀ d k, returns (draw d k)) → (unchecked check < fuel)%nat →
  returns (draw_contours fuel draw area_ctr ctrset check i k depth).
Proof.
  intros Hdraw Hf s. destruct (contour_order_ends fuel area_ctr ctrset check i Hf) as [l Hl].
  rewrite (draw_contours_order _ _ _ _ _ _ _ _ _ _ Hl). clear Hl.
  assert (∀ l depth, returns (draw_all draw l depth)) as Hall.
  { clear -Hdraw. intros l. induction l; intros; cbn [draw_all]; treturns. }
  apply Hall.
Qed.

Lemma PSConvert_returns points ctrs depth : returns (PSConvert points ctrs depth).
Proof.
  apply T_returns_bind; [treturns|intros area_ctr]. apply T_returns_bind; [treturns|intros ctrset].
  apply T_returns_bind; [|intros d; treturns]. apply draw_contours_returns; [treturns | apply unchecked_start].
Qed.
#[export] Hint Resolve PSConvert_returns : treturns.

Lemma charproc_returns h post n y i : returns (ttf_PS_type3_charproc h post n y i).
Proof. unfold ttf_PS_type3_charproc, find_glyph_data, glyph_header, load_char, stack_end. treturns. Qed.
#[export] Hint Resolve charproc_returns : treturns.

Lemma charstrings_returns n h post numGlyphs target x : returns (charstrings n h post numGlyphs target x).
Proof. revert x. induction n; intros; cbn [charstrings]; treturns. Qed.
Lemma tputlines_returns l : returns (tputlines l).
Proof. induction l; cbn [tputlines]; treturns. Qed.
#[export] Hint Resolve charstrings_returns tputlines_returns : treturns.

Lemma ttf_psout_returns font target_type : returns (ttf_psout font target_type).
Proof. unfold ttf_psout, load_type3, ttf_PS_CharStrings, ttf_PS_trailer. treturns. Qed.

Lemma ttf_result_returns {A} (m : T A) : returns m → returns (ttf_result m).
Proof. intros Hm. apply returns_bind; [done|]. by intros []. Qed.

Lemma send_ttf_returns file target_type : returns (send_ttf file target_type).
Proof.
  apply returns_bind; [apply ttf_result_returns; unfold ttf_new; treturns|]. intros font.
  apply returns_bind; [apply write_returns|]. intros _. apply ttf_result_returns, ttf_psout_returns.
Qed.
#[export] Hint Resolve send_ttf_returns : returns.
