(* ===== verification/PropTrueType.v ===== *)
(** TrueType fonts as Type 42 fonts: the array of strings that is sent is a font
    with the tables of the file, at the places its directory says. *)
From S2P Require Import Prelude.
From S2P Require Import Text.
From S2P Require Import TextFacts.
From S2P Require Import Spooler.
From S2P Require Import DriverOutput.
From S2P Require Import Programs.
From S2P Require Import TrueType.
From S2P Require Import PropOutlines.

Local Ltac Zify.zify_post_hook ::= Z.to_euclidean_division_equations.

(** * A font as bytes *)

Definition bytes_of (s : string) : list Z := code <$> chars s.

(** Numbers with the high byte first. *)
Definition be16 (n : Z) : list Z := [n / 256; n mod 256].
Definition be32 (n : Z) : list Z := [n / 256 / 256 / 256; n / 256 / 256 mod 256; n / 256 mod 256; n mod 256].

Definition get16 (l : list Z) : Z := nth 0 l 0 * 256 + nth 1 l 0.
Definition get32 (l : list Z) : Z := get16 l * 65536 + get16 (drop 2 l).

(** ** What a reader of the font finds *)

(** Offset and length, by the first [n] entries of a directory. *)
Fixpoint find_entry (n : nat) (name : Z) (directory : list Z) : option (Z * Z) :=
  match n with
  | 0%nat => None
  | S n' =>
      if get32 directory =? name then Some (get32 (drop 8 directory), get32 (drop 12 directory))
      else find_entry n' name (drop 16 directory)
  end.

(** The table of a font. *)
Definition font_table (font : list Z) (name : string) : option (list Z) :=
  '(offset, length) ← find_entry (Z.to_nat (get16 (drop 4 font))) (tag name) (drop 12 font);
  if Z.of_nat (List.length font) <? offset + length then None
  else Some (take (Z.to_nat length) (drop (Z.to_nat offset) font)).

(** ** Its directory *)

Record dir_entry := mkEntry {
  d_tag : Z;
  d_checksum : Z;
  d_offset : Z;
  d_length : Z;
}.

Definition entry_bytes (e : dir_entry) : list Z :=
  be32 (d_tag e) ++ be32 (d_checksum e) ++ be32 (d_offset e) ++ be32 (d_length e).

Definition ulong (n : Z) : Prop := 0 ≤ n < 2 ^ 32.

Definition entry_ok (e : dir_entry) : Prop :=
  ulong (d_tag e) ∧ ulong (d_checksum e) ∧ ulong (d_offset e) ∧ ulong (d_length e).

(** * PostScript's hexadecimal strings *)

(** The strings that are complete, the bytes of the one that is open, and a
    digit without its fellow. *)
Record reader := mkReader {
  rd_strings : list (list Z);
  rd_open : option (list Z);
  rd_digit : option Z;
}.

Definition hex_value (c : ascii) : option Z :=
  let n := code c in
  if (48 <=? n) && (n <=? 57) then Some (n - 48)
  else if (65 <=? n) && (n <=? 70) then Some (n - 55)
  else None.

Definition read_char (r : option reader) (c : ascii) : option reader :=
  r ← r;
  match rd_open r with
  | None => if Ascii.eqb c "<" then Some (mkReader (rd_strings r) (Some []) None) else None
  | Some l =>
      if code c =? 10 then Some r
      else if Ascii.eqb c ">" then
        match rd_digit r with
        | None => Some (mkReader (rd_strings r ++ [l]) None None)
        | Some _ => None
        end
      else
        v ← hex_value c;
        match rd_digit r with
        | None => Some (mkReader (rd_strings r) (Some l) (Some v))
        | Some d => Some (mkReader (rd_strings r) (Some (l ++ [d * 16 + v])) None)
        end
  end.

Definition ps_strings (text : string) : option (list (list Z)) :=
  r ← foldl read_char (Some (mkReader [] None None)) (chars text);
  match rd_open r with None => Some (rd_strings r) | Some _ => None end.

(** A string of the array: not longer than PostScript allows, and with a byte at
    its end that does not count. *)
Definition sfnts_string (l : list Z) : Prop := (length l <= Z.to_nat 65535)%nat ∧ last l = Some 0.

(** The bytes that count. *)
Definition string_bytes (l : list Z) : list Z := removelast l.

(** * Bytes read *)

Lemma bytes_length s : length (bytes_of s) = String.length s.
Proof. unfold bytes_of, chars. rewrite length_fmap. induction s; cbn; congruence. Qed.

Lemma bytes_app s t : bytes_of (s +:+ t) = bytes_of s ++ bytes_of t.
Proof. unfold bytes_of. by rewrite chars_app, fmap_app. Qed.

Lemma bytes_drop n s : bytes_of (str_drop n s) = drop n (bytes_of s).
Proof. revert s. induction n as [|n IH]; intros [|c s]; [done..|apply IH]. Qed.

Lemma bytes_take n s : bytes_of (str_take n s) = take n (bytes_of s).
Proof. revert s. induction n as [|n IH]; intros [|c s]; [done..|]. cbn. f_equal. apply IH. Qed.

Lemma bytes_get s i : bytes_of s !! i = code <$> String.get i s.
Proof. revert i. induction s as [|c s IH]; intros [|i]; [done..|apply IH]. Qed.

Lemma bytes_range s : Forall (λ n, 0 ≤ n < 256) (bytes_of s).
Proof.
  unfold bytes_of. apply Forall_fmap, Forall_true. intros c. apply code_range.
Qed.

Lemma BYTE_at_is s i b : bytes_of s !! i = Some b → BYTE_at s (Z.of_nat i) = mret b.
Proof.
  rewrite bytes_get. unfold BYTE_at. destruct (Z.ltb_spec (Z.of_nat i) 0); [lia|]. rewrite Nat2Z.id.
  destruct (String.get i s); [|done]. by intros [= ->].
Qed.

Lemma getUSHORT_is s i a b l :
  drop i (bytes_of s) = a :: b :: l → getUSHORT s (Z.of_nat i) = mret (a * 256 + b).
Proof.
  intros E. unfold getUSHORT. replace (Z.of_nat i + 1) with (Z.of_nat (S i)) by lia.
  assert (∀ k, bytes_of s !! (i + k)%nat = (a :: b :: l) !! k) as Hk by (intros k; by rewrite <-lookup_drop, E).
  rewrite (BYTE_at_is s i a), (BYTE_at_is s (S i) b); [done| |].
  - rewrite <-Nat.add_1_r. apply (Hk 1%nat).
  - rewrite <-(Nat.add_0_r i). apply (Hk 0%nat).
Qed.

Lemma be32_value n : ulong n → (n / 256 / 256 / 256 * 256 + n / 256 / 256 mod 256) * 65536 +
  (n / 256 mod 256 * 256 + n mod 256) = n.
Proof.
  intros _. pose proof (Z.div_mod n 256). pose proof (Z.div_mod (n / 256) 256).
  pose proof (Z.div_mod (n / 256 / 256) 256). lia.
Qed.

Lemma getULONG_is s i n l :
  ulong n → drop i (bytes_of s) = be32 n ++ l → getULONG s (Z.of_nat i) = mret n.
Proof.
  intros Hn E. transitivity (mret (M := T) ((n / 256 / 256 / 256 * 256 + n / 256 / 256 mod 256) * 65536 +
    (n / 256 mod 256 * 256 + n mod 256))); [|by rewrite be32_value].
  unfold getULONG. replace (Z.of_nat i + 2) with (Z.of_nat (i + 2)) by lia.
  rewrite (getUSHORT_is s i _ _ _ E).
  by rewrite (getUSHORT_is s (i + 2) (n / 256 mod 256) (n mod 256) l) by by rewrite <-drop_drop, E.
Qed.

(** * The directory *)

(** What is noted of the tables: they come one after the other, each from a
    multiple of four on. *)
Fixpoint placed (nextoffset : Z) (es : list (string * dir_entry)) : list (string * sfnts_table) :=
  match es with
  | [] => []
  | (name, e) :: es' =>
      (name, mkTable (d_offset e) nextoffset (d_length e) (d_checksum e)) ::
      placed (nextoffset + (d_length e + 3) / 4 * 4) es'
  end.

Fixpoint all_padded (es : list (string * dir_entry)) : Z :=
  match es with
  | [] => 0
  | (_, e) :: es' => (d_length e + 3) / 4 * 4 + all_padded es'
  end.

Lemma padded_pos es : Forall (λ e, 0 ≤ d_length e.2) es → 0 ≤ all_padded es.
Proof. induction 1 as [|[name e] es H0 _ IH]; cbn in *; lia. Qed.

Section directory.
Context (table : string) (start rest : list Z) (dir : list dir_entry).
Hypothesis start_12 : length start = 12%nat.
Hypothesis table_is : bytes_of table = start ++ concat (entry_bytes <$> dir) ++ rest.
Hypothesis dir_ok : Forall entry_ok dir.
Hypothesis dir_sorted : ∀ i j e e', (i < j)%nat → dir !! i = Some e → dir !! j = Some e' → d_tag e < d_tag e'.

Lemma entries_drop j :
  drop (16 * j) (concat (entry_bytes <$> dir) ++ rest) = concat (entry_bytes <$> drop j dir) ++ rest ∨
  (length dir < j)%nat.
Proof.
  clear dir_ok dir_sorted table_is. destruct (decide (j <= length dir)%nat) as [Hj|]; [left|right; lia].
  revert j Hj. induction dir as [|e dir' IH]; intros [|j] Hj; [done| cbn in Hj; lia | done|].
  replace (16 * S j)%nat with (16 + 16 * j)%nat by lia. cbn in Hj. cbn [fmap list_fmap concat drop].
  rewrite <-app_assoc, <-drop_drop. apply (IH j). lia.
Qed.

Lemma entry_at j e :
  dir !! j = Some e →
  ∃ l, drop (12 + 16 * j) (bytes_of table) = entry_bytes e ++ l.
Proof.
  intros He. rewrite table_is, <-drop_drop, (drop_app_length' start) by done.
  destruct (entries_drop j) as [->|Hj]; [|apply lookup_lt_Some in He; lia].
  rewrite (drop_S _ _ _ He). cbn [fmap list_fmap concat]. rewrite <-app_assoc. by eexists.
Qed.

Lemma entry_reads j e :
  dir !! j = Some e →
  let ptr := Z.of_nat (12 + 16 * j) in
  getULONG table ptr = mret (d_tag e) ∧
  getULONG table (ptr + 4) = mret (d_checksum e) ∧
  getULONG table (ptr + 8) = mret (d_offset e) ∧
  getULONG table (ptr + 12) = mret (d_length e).
Proof.
  intros He ptr. destruct (entry_at j e He) as [l Hl].
  pose proof (Forall_lookup_1 _ _ _ _ dir_ok He) as (Ht & Hc & Ho & Hn).
  assert (∀ n v l', ulong v → drop n (entry_bytes e ++ l) = be32 v ++ l' →
    getULONG table (ptr + Z.of_nat n) = mret v) as Hread.
  { intros n v l' Hv Hd. unfold ptr. rewrite <-Nat2Z.inj_add. eapply getULONG_is; [done|].
    rewrite <-drop_drop, Hl. exact Hd. }
  repeat split.
  - rewrite <-(Z.add_0_r ptr). by eapply (Hread 0%nat).
  - by eapply (Hread 4%nat).
  - by eapply (Hread 8%nat).
  - by eapply (Hread 12%nat).
Qed.


Abbreviation place j := (Z.of_nat (12 + 16 * j)).

Lemma place_next j : place j + 16 = place (S j).
Proof. lia. Qed.

Lemma find_in_directory_is name fuel i j e :
  (i <= j)%nat → (j - i < fuel)%nat → dir !! j = Some e → d_tag e = tag name →
  find_in_directory fuel table name (place i) = mret (true, place j).
Proof.
  revert i. induction fuel as [|fuel IH]; intros i Hij Hf He Hn; [lia|]. cbn [find_in_directory].
  destruct (lookup_lt_is_Some_2 dir i) as [e' He']; [apply lookup_lt_Some in He; lia|].
  destruct (entry_reads i e' He') as (-> & _).
  change (mret (d_tag e') ≫= ?f) with (f (d_tag e')). cbv beta. rewrite <-Hn.
  destruct (decide (i = j)) as [->|Hne].
  - rewrite He in He'. injection He' as <-. by rewrite Z.ltb_irrefl, Z.eqb_refl.
  - pose proof (dir_sorted i j e' e ltac:(lia) He' He).
    destruct (Z.ltb_spec (d_tag e) (d_tag e')); [lia|]. destruct (Z.eqb_spec (d_tag e') (d_tag e)); [lia|].
    rewrite place_next. apply IH; [lia..|done|done].
Qed.

(** The entries of the tables wanted, in their order. *)
Fixpoint entries_for (before : Z) (es : list (string * dir_entry)) : Prop :=
  match es with
  | [] => True
  | (name, e) :: es' => e ∈ dir ∧ d_tag e = tag name ∧ before < tag name ∧ entries_for (tag name) es'
  end.

Lemma choose_tables_is es before i next count :
  entries_for before es →
  (∀ k e, (k < i)%nat → dir !! k = Some e → d_tag e ≤ before) →
  0 ≤ next → next + all_padded es + 3 < 2 ^ 32 →
  choose_tables es.*1 table (place i) next count = mret (placed next es, count + Z.of_nat (length es)).
Proof.
  revert before i next count. induction es as [|[name e] es IH]; intros before i next count Hes Hi Hn Hsum.
  { cbn. by rewrite Z.add_0_r. }
  cbn [entries_for] in Hes. destruct Hes as (He & Ht & Hb & Hes). cbn [all_padded] in Hsum.
  apply list_elem_of_lookup in He as [j He].
  assert (i <= j)%nat as Hij.
  { destruct (decide (i <= j)%nat); [done|]. pose proof (Hi j e ltac:(lia) He). lia. }
  assert (j - i < S (String.length table))%nat as Hf.
  { rewrite <-bytes_length. destruct (entry_at j e He) as [l Hl]. apply (f_equal length) in Hl.
    rewrite length_drop in Hl. cbn in Hl. lia. }
  cbn [fmap list_fmap fst choose_tables].
  rewrite (find_in_directory_is name _ i j e Hij Hf He Ht).
  change (mret (M := T) ?a ≫= ?f) with (f a). cbv beta iota.
  destruct (entry_reads j e He) as (_ & -> & -> & ->). change (mret (M := T) ?a ≫= ?f) with (f a). cbv beta iota.
  change (mret (M := T) ?a ≫= ?f) with (f a). cbv beta iota.
  change (mret (M := T) ?a ≫= ?f) with (f a). cbv beta iota zeta.
  pose proof (Forall_lookup_1 _ _ _ _ dir_ok He) as (_ & _ & _ & Hlen). unfold ulong in Hlen.
  assert (Forall (λ e, 0 ≤ d_length e.2) es) as Hpos.
  { clear -Hes dir_ok. revert Hes. generalize (tag name). induction es as [|[n e] es IH]; intros b; [by constructor|].
    cbn. intros (He & _ & _ & Hes). constructor; [|by eapply IH].
    rewrite Forall_forall in dir_ok. apply dir_ok in He as (_ & _ & _ & ? & _). done. }
  pose proof (padded_pos es Hpos).
  assert (u32 (next + u32 (d_length e + 3) / 4 * 4) = next + (d_length e + 3) / 4 * 4) as ->.
  { unfold u32, unsigned_wrap. rewrite (Z.mod_small (d_length e + 3)), Z.mod_small by lia. done. }
  rewrite place_next, (IH (tag name) (S j)); [|done| |lia|lia].
  - change (mret (M := T) ?a ≫= ?f) with (f a). cbv beta iota. cbn [placed length].
    by replace (count + 1 + Z.of_nat (length es)) with (count + Z.of_nat (S (length es))) by lia.
  - intros k e' Hk He'. destruct (decide (k = j)) as [->|]; [rewrite He in He'; injection He' as <-; lia|].
    pose proof (dir_sorted k j e' e ltac:(lia) He' He). lia.
Qed.
End directory.

(** * What is written *)

(** A run that writes a text and gives a result. *)
Definition outputs {A} (m : T A) (text : string) (a : A) : Prop := ∀ s,
  m s =
  match printer_write text s with
  | Done _ s' => Done (inr a) s'
  | Thrown e s' => Thrown e s'
  | Stopped r => Stopped r
  end.

Lemma outputs_ret {A} (a : A) : outputs (mret a) EmptyString a.
Proof. done. Qed.

Lemma outputs_tputs text : outputs (tputs text) text tt.
Proof. intros s. unfold tputs, io, mbind, M_bind. by destruct (printer_write text s) as [[]| |]. Qed.

Lemma outputs_tputc c : outputs (tputc c) (String c EmptyString) tt.
Proof.
  intros s. cbn [printer_write]. unfold tputc, io, mbind, M_bind.
  by destruct (printer_putc c s) as [[]| |].
Qed.

Lemma outputs_bind {A B} (m : T A) (f : A → T B) t1 t2 a b :
  outputs m t1 a → outputs (f a) t2 b → outputs (m ≫= f) (t1 +:+ t2) b.
Proof.
  intros Hm Hf s. rewrite (alike_run _ _ (write_app t1 t2) s). unfold mbind, T_bind, mbind, M_bind. rewrite Hm.
  destruct (printer_write t1 s) as [u s1| |]; [apply Hf|done|done].
Qed.

(** The strings read of the text so far, and the open one. *)
Abbreviation read_state := (list (list Z) * option (list Z))%type.

Definition to_reader (r : read_state) : reader := mkReader r.1 r.2 None.

(** The program writes a text that takes the reader of the strings from [r] on. *)
Definition conveys {A} (m : T A) (r : read_state) (Q : A → read_state → Prop) : Prop :=
  ∃ text a r', outputs m text a ∧ foldl read_char (Some (to_reader r)) (chars text) = Some (to_reader r') ∧ Q a r'.

Lemma conveys_ret {A} (a : A) r (Q : A → read_state → Prop) : Q a r → conveys (mret a) r Q.
Proof. intros HQ. exists EmptyString, a, r. by split; [apply outputs_ret|]. Qed.

Lemma conveys_bind {A B} (m : T A) (f : A → T B) r Q (Q' : B → read_state → Prop) :
  conveys m r Q → (∀ a r', Q a r' → conveys (f a) r' Q') → conveys (m ≫= f) r Q'.
Proof.
  intros (t1 & a & r1 & Ho1 & Hr1 & HQ) Hf. destruct (Hf a r1 HQ) as (t2 & b & r2 & Ho2 & Hr2 & HQ').
  exists (t1 +:+ t2), b, r2. split; [by eapply outputs_bind|]. split; [|done].
  by rewrite chars_app, foldl_app, Hr1.
Qed.

Lemma conveys_known {A B} (m : T A) (f : A → T B) a r Q :
  (∀ s, m s = Done (inr a) s) → conveys (f a) r Q → conveys (m ≫= f) r Q.
Proof.
  intros Hm Hf. apply (conveys_bind _ _ r (λ b r', b = a ∧ r' = r)); [|by intros ?? [-> ->]].
  exists EmptyString, a, r. split; [|done]. intros s. apply Hm.
Qed.

Lemma conveys_weaken {A} (m : T A) r (Q Q' : A → read_state → Prop) :
  (∀ a r', Q a r' → Q' a r') → conveys m r Q → conveys m r Q'.
Proof. intros HQ (t & a & r' & Ho & Hr & H). exists t, a, r'. auto. Qed.

(** A program that ends by writing a text that the reader does not get. *)
Definition conveys_then (m : T unit) (r : read_state) (end_text : string) (Q : read_state → Prop) : Prop :=
  ∃ text r', outputs m (text +:+ end_text) tt ∧
    foldl read_char (Some (to_reader r)) (chars text) = Some (to_reader r') ∧ Q r'.

Lemma conveys_then_tputs {A} (m : T A) r end_text (Q : A → read_state → Prop) Q' :
  conveys m r Q → (∀ a r', Q a r' → Q' r') → conveys_then (m;; tputs end_text) r end_text Q'.
Proof.
  intros (t & a & r' & Ho & Hr & HQ) HQ'. exists t, r'. split; [|eauto].
  eapply outputs_bind; [exact Ho | apply outputs_tputs].
Qed.

Lemma conveys_then_bind {A} (m : T A) (f : A → T unit) r end_text Q Q' :
  conveys m r Q → (∀ a r', Q a r' → conveys_then (f a) r' end_text Q') → conveys_then (m ≫= f) r end_text Q'.
Proof.
  intros (t1 & a & r1 & Ho1 & Hr1 & HQ) Hf. destruct (Hf a r1 HQ) as (t2 & r2 & Ho2 & Hr2 & HQ').
  exists (t1 +:+ t2), r2. split; [|split; [|done]]; [|by rewrite chars_app, foldl_app, Hr1].
  rewrite str_app_assoc. by eapply outputs_bind.
Qed.

(** The library's variables are right about the string that is open. *)
Definition agrees (s : sfnts) (r : read_state) : Prop :=
  match r.2 with
  | None => in_string s = false
  | Some l => in_string s = true ∧ string_len s = Z.of_nat (length l)
  end.

(** The strings carry [font]; the open one has at most [k] bytes. *)
Definition carries (font : list Z) (k : Z) (r : read_state) : Prop :=
  concat (string_bytes <$> r.1) ++ default [] r.2 = font ∧
  Forall sfnts_string r.1 ∧
  Z.of_nat (length (default [] r.2)) ≤ k.

Definition written (font : list Z) (k : Z) (s : sfnts) (r : read_state) : Prop := agrees s r ∧ carries font k r.

(** ** Bytes *)

Lemma hexdigit_value n : 0 ≤ n < 16 →
  hex_value (hexdigit n) = Some n ∧ code (hexdigit n) ≠ 10 ∧ hexdigit n ≠ ">"%char.
Proof.
  intros Hn. assert (n = 0 ∨ n = 1 ∨ n = 2 ∨ n = 3 ∨ n = 4 ∨ n = 5 ∨ n = 6 ∨ n = 7 ∨ n = 8 ∨ n = 9 ∨ n = 10 ∨
    n = 11 ∨ n = 12 ∨ n = 13 ∨ n = 14 ∨ n = 15) as Hall by lia.
  repeat (destruct Hall as [->|Hall]; [done|]). by subst.
Qed.

(** Two digits, and a new line perhaps. *)
Lemma read_byte strs l n end_of_line :
  0 ≤ n < 256 → end_of_line = EmptyString ∨ end_of_line = String (chr 10) EmptyString →
  foldl read_char (Some (to_reader (strs, Some l)))
    (chars (String (hexdigit (n / 16)) (String (hexdigit (n mod 16)) end_of_line))) =
  Some (to_reader (strs, Some (l ++ [n]))).
Proof.
  intros Hn He. destruct (hexdigit_value (n / 16)) as (E1 & N1 & G1); [lia|].
  destruct (hexdigit_value (n mod 16)) as (E2 & N2 & G2); [lia|].
  assert (n / 16 * 16 + n mod 16 = n) as Hn' by lia. revert E1 N1 G1 E2 N2 G2 Hn'.
  generalize (hexdigit (n / 16)) (hexdigit (n mod 16)). intros c1 c2. generalize (n / 16) (n mod 16).
  intros v1 v2 E1 N1%Z.eqb_neq G1%Ascii.eqb_neq E2 N2%Z.eqb_neq G2%Ascii.eqb_neq <-.
  set (start := Some (to_reader (strs, Some l))).
  change (foldl read_char start (chars (String c1 (String c2 end_of_line)))) with
    (foldl read_char (read_char (read_char start c1) c2) (chars end_of_line)). subst start.
  assert (read_char (Some (to_reader (strs, Some l))) c1 = Some (mkReader strs (Some l) (Some v1))) as ->.
  { cbn. by rewrite N1, G1, E1. }
  assert (read_char (Some (mkReader strs (Some l) (Some v1))) c2 =
    Some (to_reader (strs, Some (l ++ [v1 * 16 + v2])))) as ->.
  { cbn. by rewrite N2, G2, E2. }
  by destruct He as [-> | ->].
Qed.

Lemma carries_add strs o l font k :
  carries font k (strs, o) → carries (font ++ l) (k + Z.of_nat (length l)) (strs, Some (default [] o ++ l)).
Proof.
  intros (<- & Hs & Hk). cbn in *. split; [by cbn; rewrite app_assoc|]. split; [done|]. cbn. rewrite length_app. lia.
Qed.

Lemma pputBYTE_conveys s strs o n :
  in_string s = bool_decide (is_Some o) → 0 ≤ n < 256 →
  conveys (sfnts_pputBYTE s n) (strs, o) (λ s' r',
    r' = (strs, Some (default [] o ++ [n])) ∧ in_string s' = true ∧
    string_len s' = (if in_string s then string_len s else 0) + 1).
Proof.
  intros Hi Hn. set (l := default [] o).
  assert (∃ t s1, outputs (if in_string s then mret s
    else tputc "<";; mret (mkSfnts 0 (line_len_sofar s + 1) true)) t s1 ∧
    string_len s1 = (if in_string s then string_len s else 0) ∧
    foldl read_char (Some (to_reader (strs, o))) (chars t) = Some (to_reader (strs, Some l)))
    as (t1 & s1 & Ho1 & Hl1 & Hr1).
  { rewrite Hi. destruct o as [l'|]; cbn.
    - exists EmptyString, s. split; [apply outputs_ret|]. done.
    - eexists _, _. split; [eapply outputs_bind; [apply outputs_tputc|apply outputs_ret]|]. done. }
  set (eol := if 70 <? line_len_sofar s1 + 2 then String (chr 10) EmptyString else EmptyString).
  exists (t1 +:+ String (hexdigit (n / 16)) (String (hexdigit (n mod 16)) eol)).
  exists (mkSfnts (string_len s1 + 1) (if 70 <? line_len_sofar s1 + 2 then 0 else line_len_sofar s1 + 2) true).
  exists (strs, Some (l ++ [n])). split; [|split].
  - unfold sfnts_pputBYTE. eapply outputs_bind; [exact Ho1|]. cbv beta zeta.
    apply (outputs_bind _ _ (String _ EmptyString) _ tt); [apply outputs_tputc|].
    apply (outputs_bind _ _ (String _ EmptyString) _ tt); [apply outputs_tputc|].
    subst eol. destruct (70 <? line_len_sofar s1 + 2); [|apply outputs_ret].
    apply (outputs_bind _ _ (String _ EmptyString) EmptyString tt); [apply outputs_tputc | apply outputs_ret].
  - rewrite chars_app, foldl_app, Hr1. apply read_byte; [done|]. subst eol.
    destruct (70 <? _); auto.
  - cbn. by rewrite Hl1.
Qed.

Lemma agrees_in_string s strs o : agrees s (strs, o) → in_string s = bool_decide (is_Some o).
Proof. destruct o; [by intros [-> _] | by intros ->]. Qed.

Lemma pputBYTE_writes s r n font k :
  written font k s r → 0 ≤ n < 256 → conveys (sfnts_pputBYTE s n) r (written (font ++ [n]) (k + 1)).
Proof.
  intros [Ha Hc] Hn. destruct r as [strs o].
  eapply conveys_weaken; [|by apply pputBYTE_conveys; [eapply agrees_in_string|]].
  intros s' r' (-> & Hi & Hl). split; [|by apply carries_add]. cbn. split; [done|].
  rewrite Hl, length_app. destruct o; cbn in Ha; [destruct Ha as [-> ->]|rewrite Ha]; cbn; lia.
Qed.

Lemma put_bytes_writes l s r font k :
  written font k s r → Forall (λ n, 0 ≤ n < 256) l →
  conveys (put_bytes s l) r (written (font ++ l) (k + Z.of_nat (length l))).
Proof.
  revert s r font k. induction l as [|n l IH]; intros s r font k Hw Hl; cbn [put_bytes].
  - apply conveys_ret. by rewrite app_nil_r, Z.add_0_r.
  - inversion Hl; subst. eapply conveys_bind; [by apply pputBYTE_writes|]. intros s1 r1 Hw1.
    eapply conveys_weaken; [|by apply IH]. intros s2 r2. rewrite <-app_assoc. cbn [app length].
    by replace (k + 1 + Z.of_nat (length l)) with (k + Z.of_nat (S (length l))) by lia.
Qed.

Lemma pputUSHORT_writes s r n font k :
  written font k s r → 0 ≤ n < 65536 → conveys (sfnts_pputUSHORT s n) r (written (font ++ be16 n) (k + 2)).
Proof.
  intros Hw Hn. eapply conveys_bind; [apply pputBYTE_writes; [done|lia]|]. intros s1 r1 Hw1.
  eapply conveys_weaken; [|apply pputBYTE_writes; [done|lia]]. intros s2 r2.
  rewrite <-app_assoc. by replace (k + 1 + 1) with (k + 2) by lia.
Qed.

Lemma pputULONG_writes s r n font k :
  written font k s r → ulong n → conveys (sfnts_pputULONG s n) r (written (font ++ be32 n) (k + 4)).
Proof.
  unfold ulong. intros Hw Hn. unfold sfnts_pputULONG. cbv zeta.
  eapply conveys_bind; [apply pputBYTE_writes; [done|lia]|]. intros s1 r1 Hw1.
  eapply conveys_bind; [apply pputBYTE_writes; [done|lia]|]. intros s2 r2 Hw2.
  eapply conveys_bind; [apply pputBYTE_writes; [done|lia]|]. intros s3 r3 Hw3.
  eapply conveys_weaken; [|apply pputBYTE_writes; [done|lia]]. intros s4 r4.
  rewrite <-!app_assoc. by replace (k + 1 + 1 + 1 + 1) with (k + 4) by lia.
Qed.

(** The end of a string. *)
Lemma end_string_writes s r font k :
  written font k s r → k ≤ 65534 →
  conveys (sfnts_end_string s) r (λ s' r', written font 0 s' r' ∧ r'.2 = None).
Proof.
  intros [Ha Hc] Hk. destruct r as [strs [l|]]; cbn in Ha; unfold sfnts_end_string.
  - destruct Ha as [Hi Hl]. rewrite Hi. eapply conveys_bind; [|intros s1 r1 HQ; apply conveys_ret; exact HQ].
    eapply conveys_bind; [by apply (pputBYTE_conveys _ strs (Some l))|]. cbv beta. intros s1 r1 (-> & Hi1 & _).
    cbn. eexists ">", _, (strs ++ [l ++ [0]], None).
    split; [|split; [reflexivity|split; [|done]]].
    + apply (outputs_bind _ _ ">" EmptyString tt); [apply outputs_tputc | apply outputs_ret].
    + destruct Hc as (<- & Hs & Hlen). cbn in Hlen. split; [done|]. split; [|split].
      * assert (string_bytes (l ++ [0]) = l) as Hb by apply removelast_last.
        cbn. rewrite fmap_app, concat_app. cbn. by rewrite Hb, !app_nil_r.
      * apply Forall_app. split; [done|]. constructor; [|done]. split; [|by rewrite last_snoc].
        rewrite length_app. cbn. lia.
      * done.
  - rewrite Ha. apply (conveys_ret (mkSfnts (string_len s) (line_len_sofar s) false)). split; [|done].
    split; [done|]. destruct Hc as (<- & Hs & _). done.
Qed.

Lemma new_table_writes s r n font k :
  written font k s r → k ≤ 65534 → 0 ≤ n ≤ 65528 →
  conveys (sfnts_new_table s n) r (written font (65528 - n)).
Proof.
  intros Hw Hk Hn. unfold sfnts_new_table.
  assert (conveys (sfnts_end_string s) r (written font (65528 - n))) as Hend.
  { eapply conveys_weaken; [|by eapply end_string_writes]. intros s1 r1 [[Ha (Hf & Hs & Hl)] _].
    split; [done|]. repeat split; [done..|lia]. }
  case_match eqn:E; [done|]. apply conveys_ret. destruct Hw as [Ha (Hf & Hs & Hl)].
  split; [done|]. split; [done|]. split; [done|]. apply Z.ltb_ge in E. destruct r as [strs [l|]]; [|cbn; lia].
  cbn in Ha, Hl |- *. destruct Ha as [_ Hlen]. rewrite Hlen in E. unfold u32, unsigned_wrap in E.
  rewrite Z.mod_small in E by lia. lia.
Qed.

(** Bytes of the file. *)
Lemma copy_bytes_writes n missing s r file font k :
  written font k s r → (n <= String.length file)%nat →
  conveys (copy_bytes_of n missing s file) r (λ '(s', file') r',
    written (font ++ take n (bytes_of file)) (k + Z.of_nat n) s' r' ∧ file' = str_drop n file).
Proof.
  revert s r file font k. induction n as [|n IH]; intros s r file font k Hw Hn; cbn [copy_bytes_of].
  - apply conveys_ret. by rewrite take_0, app_nil_r, Z.add_0_r.
  - destruct file as [|c file]; cbn in Hn; [lia|].
    eapply conveys_bind; [apply pputBYTE_writes; [done|apply code_range]|]. intros s1 r1 Hw1.
    eapply conveys_weaken; [|apply IH; [done|lia]]. intros [s2 file2] r2. rewrite <-app_assoc. cbn.
    by replace (k + 1 + Z.of_nat n) with (k + Z.of_nat (S n)) by lia.
Qed.

Lemma zero_bytes_writes n s r font k :
  written font k s r → conveys (zero_bytes n s) r (written (font ++ replicate n 0) (k + Z.of_nat n)).
Proof.
  revert s r font k. induction n as [|n IH]; intros s r font k Hw; cbn [zero_bytes].
  - apply conveys_ret. by rewrite app_nil_r, Z.add_0_r.
  - eapply conveys_bind; [by apply pputBYTE_writes|]. intros s1 r1 Hw1.
    eapply conveys_weaken; [|by apply IH]. intros s2 r2. rewrite <-app_assoc.
    by replace (k + 1 + Z.of_nat n) with (k + Z.of_nat (S n)) by lia.
Qed.

(** ** Glyphs *)

(** The lengths of the glyphs from number [x] on, by the table of their places. *)
Fixpoint glyph_lengths (format : Z) (loca_table : string) (x : Z) (lengths : list Z) : Prop :=
  match lengths with
  | [] => True
  | l :: lengths' =>
      (∃ offset, ∀ s, glyph_place format loca_table x s = Done (inr (offset, l)) s) ∧
      0 ≤ l ≤ 65528 ∧ l mod 2 = 0 ∧
      glyph_lengths format loca_table (x + 1) lengths'
  end.

Definition sum_of (l : list Z) : Z := foldr Z.add 0 l.

Lemma glyph_lengths_pos format loca_table x lengths : glyph_lengths format loca_table x lengths → 0 ≤ sum_of lengths.
Proof.
  revert x. induction lengths as [|l lengths IH]; intros x; cbn; [done|].
  intros (_ & ? & _ & ?%IH). unfold sum_of in *. lia.
Qed.

Lemma copy_glyphs_writes h loca_table lengths x s r file total font k :
  glyph_lengths (h_indexToLocFormat h) loca_table x lengths →
  written font k s r → k ≤ 65534 → sum_of lengths ≤ strlen file →
  0 ≤ total → total + sum_of lengths < 2 ^ 32 →
  conveys (copy_glyphs (length lengths) h loca_table x s file total) r (λ '(s', total') r',
    written (font ++ take (Z.to_nat (sum_of lengths)) (bytes_of file))
      (match lengths with [] => k | _ => 65528 end) s' r' ∧ total' = total + sum_of lengths).
Proof.
  revert x s r file total font k. induction lengths as [|l lengths IH];
    intros x s r file total font k Hl Hw Hk Hfile Ht Hsum; cbn [copy_glyphs length].
  - apply conveys_ret. cbn. by rewrite take_0, app_nil_r, Z.add_0_r.
  - cbn [glyph_lengths] in Hl. destruct Hl as ((off & Hp) & Hr & He & Hl). cbn [sum_of foldr] in Hfile, Hsum.
    pose proof (glyph_lengths_pos _ _ _ _ Hl) as Hpos. fold (sum_of lengths) in *. unfold strlen in Hfile.
    apply (conveys_known _ _ (off, l)); [exact Hp|]. cbv beta iota.
    eapply conveys_bind; [by apply (new_table_writes s r l font k)|]. intros s1 r1 Hw1. rewrite He. cbn [negb Z.eqb].
    eapply conveys_bind; [apply (copy_bytes_writes (Z.to_nat l)); [exact Hw1|lia]|].
    intros [s2 file2] r2 [Hw2 ->]. replace (65528 - l + Z.of_nat (Z.to_nat l)) with 65528 in Hw2 by lia.
    assert (u32 (total + l) = total + l) as -> by (unfold u32, unsigned_wrap; apply Z.mod_small; lia).
    eapply conveys_weaken; [|eapply (IH (x + 1)); [exact Hl | exact Hw2 | done | | lia | lia]].
    + intros [s3 total3] r3 [Hw3 ->]. split; [|cbn; fold (sum_of lengths); lia].
      cbn [sum_of foldr]. fold (sum_of lengths). rewrite bytes_drop, <-app_assoc, take_take_drop in Hw3.
      rewrite Z2Nat.inj_add by lia. by destruct lengths.
    + unfold strlen. rewrite <-bytes_length, bytes_drop, length_drop, bytes_length. lia.
Qed.

(** ** Tables *)

(** The table of the file. *)
Definition table_bytes (file : string) (e : dir_entry) : list Z :=
  take (Z.to_nat (d_length e)) (drop (Z.to_nat (d_offset e)) (bytes_of file)).

(** A table that begins at a multiple of four ends at one. *)
Definition padded (l : list Z) : list Z := l ++ replicate (Z.to_nat ((- Z.of_nat (length l)) mod 4)) 0.

Lemma length_padded l : Z.of_nat (length (padded l)) = (Z.of_nat (length l) + 3) / 4 * 4.
Proof. unfold padded. rewrite length_app, length_replicate. lia. Qed.

Section tables.
Context (font : TTFONT) (h : head) (numGlyphs : Z) (loca_table : string) (lengths : list Z).
Hypothesis loca_loads : ∀ s, ttf_LoadTable font "loca" s = Done (inr loca_table) s.
Hypothesis glyphs_ok : glyph_lengths (h_indexToLocFormat h) loca_table 0 lengths.
Hypothesis glyphs_all : numGlyphs = Z.of_nat (length lengths).

(** A table that can be copied: not too long for one string, or made of glyphs
    that are not. *)
Definition can_copy (name : string) (e : dir_entry) : Prop :=
  entry_ok e ∧ 0 < d_length e ∧ d_offset e + d_length e ≤ strlen (t_file font) ∧
  if String.eqb name "glyf" then sum_of lengths = d_length e else d_length e ≤ 65528.

Lemma table_bytes_length name e : can_copy name e → Z.of_nat (length (table_bytes (t_file font) e)) = d_length e.
Proof.
  intros ((_ & _ & Ho & Hl) & Hp & Hf & _). unfold table_bytes, ulong, strlen in *.
  rewrite length_take, length_drop, bytes_length. lia.
Qed.

Lemma glyf_table_writes e s r F k :
  can_copy "glyf" e → written F k s r → k ≤ 65534 →
  conveys (sfnts_glyf_table font h numGlyphs (d_offset e) (d_length e) s) r
    (written (F ++ table_bytes (t_file font) e) 65528).
Proof.
  intros ((_ & _ & Ho & Hn) & Hpos & Hf & Hsum) Hw Hk. cbn [String.eqb Ascii.eqb] in Hsum.
  change (sum_of lengths = d_length e) in Hsum. unfold ulong, strlen in *.
  unfold sfnts_glyf_table. eapply conveys_known; [exact loca_loads|]. cbv beta.
  rewrite glyphs_all, Nat2Z.id.
  eapply conveys_bind.
  { eapply copy_glyphs_writes; [exact glyphs_ok | exact Hw | exact Hk | | done | rewrite Hsum; lia].
    unfold strlen. rewrite <-bytes_length, bytes_drop, length_drop, bytes_length, Hsum. lia. }
  intros [s1 total] r1 [Hw1 ->]. rewrite Hsum in *. rewrite bytes_drop in Hw1.
  replace (d_length e - (0 + d_length e)) with 0 by lia. cbn [Z.to_nat zero_bytes].
  destruct (Z.ltb_spec (d_length e) (0 + d_length e)); [lia|].
  apply (conveys_ret s1). destruct lengths; [cbn in Hsum; lia|exact Hw1].
Qed.

Lemma put_table_writes name e next s r F k :
  can_copy name e → written F k s r → k ≤ 65534 →
  conveys (put_table font h numGlyphs s (name, mkTable (d_offset e) next (d_length e) (d_checksum e))) r
    (written (F ++ padded (table_bytes (t_file font) e)) 65534).
Proof.
  intros Hc Hw Hk. pose proof (table_bytes_length name e Hc) as Hlen. unfold padded. rewrite Hlen.
  pose proof Hc as ((_ & _ & Ho & Hn) & Hpos & Hf & Hsize). unfold put_table. cbn [tb_length tb_oldoffset].
  destruct (Z.eqb_spec (d_length e) 0); [lia|].
  eapply (conveys_bind _ _ _ (written (F ++ table_bytes (t_file font) e) 65528)).
  - destruct (String.eqb_spec name "glyf") as [->|]; [by eapply glyf_table_writes|].
    destruct (Z.ltb_spec 65535 (d_length e)); [lia|]. unfold ulong, strlen in *.
    eapply conveys_bind; [apply (new_table_writes s r (d_length e) F k); [done|done|lia]|]. intros s1 r1 Hw1.
    eapply conveys_bind; [eapply copy_bytes_writes; [exact Hw1|]|].
    { rewrite <-bytes_length, bytes_drop, length_drop, bytes_length. lia. }
    intros [s2 file2] r2 [Hw2 _]. apply conveys_ret. rewrite bytes_drop in Hw2.
    by replace (65528 - d_length e + Z.of_nat (Z.to_nat (d_length e))) with 65528 in Hw2 by lia.
  - intros s1 r1 Hw1. eapply conveys_weaken; [|by apply zero_bytes_writes]. intros s2 r2 [Ha (Hf2 & Hs & Hk2)].
    split; [done|]. rewrite app_assoc. split; [done|]. split; [done|lia].
Qed.

(** All tables. *)
Definition all_tables (es : list (string * dir_entry)) : list Z :=
  concat ((λ e, padded (table_bytes (t_file font) e.2)) <$> es).

Lemma put_tables_writes es next s r F k :
  Forall (λ e, can_copy e.1 e.2) es → written F k s r → k ≤ 65534 →
  conveys (each_table (put_table font h numGlyphs) s (placed next es)) r (written (F ++ all_tables es) 65534).
Proof.
  intros Hes. revert next s r F k. induction Hes as [|[name e] es Hc _ IH]; intros next s r F k Hw Hk;
    cbn [placed each_table].
  - apply conveys_ret. cbn. rewrite app_nil_r. destruct Hw as [Ha (Hf & Hs & Hk2)].
    split; [done|]. split; [done|]. split; [done|lia].
  - eapply conveys_bind; [by eapply put_table_writes|]. intros s1 r1 Hw1.
    eapply conveys_weaken; [|by eapply IH]. intros s2 r2. by rewrite <-app_assoc.
Qed.
End tables.

(** ** The new directory *)

(** The entry of a table in the font that is sent, which has nine of them. *)
Definition new_entry (entry : string * sfnts_table) : dir_entry :=
  mkEntry (tag entry.1) (tb_checksum entry.2) (tb_newoffset entry.2 + 12 + 9 * 16) (tb_length entry.2).

Lemma name_bytes name :
  String.length name = 4%nat → code <$> chars name = be32 (tag name) ∧ ulong (tag name).
Proof.
  destruct name as [|a [|b [|c [|d [|]]]]]; try done. intros _. unfold tag, be32, ulong. cbn.
  pose proof (code_range a). pose proof (code_range b). pose proof (code_range c). pose proof (code_range d).
  split; [|lia]. generalize dependent (code a). generalize dependent (code b).
  generalize dependent (code c). generalize dependent (code d). intros v4 H4 v3 H3 v2 H2 v1 H1.
  assert ((((0 * 256 + v1) * 256 + v2) * 256 + v3) * 256 + v4 = ((v1 * 256 + v2) * 256 + v3) * 256 + v4) as -> by lia.
  assert ((((v1 * 256 + v2) * 256 + v3) * 256 + v4) / 256 = (v1 * 256 + v2) * 256 + v3) as -> by lia.
  assert (((v1 * 256 + v2) * 256 + v3) / 256 = v1 * 256 + v2) as -> by lia.
  repeat (f_equal; try lia).
Qed.

Lemma put_entry_writes name e next s r F k :
  entry_ok e → 0 < d_length e → String.length name = 4%nat → 0 ≤ next → next + 156 < 2 ^ 32 →
  written F k s r →
  conveys (put_entry 9 s (name, mkTable (d_offset e) next (d_length e) (d_checksum e))) r
    (written (F ++ entry_bytes (new_entry (name, mkTable (d_offset e) next (d_length e) (d_checksum e)))) (k + 16)).
Proof.
  intros (_ & Hc & _ & Hl) Hpos Hname Hn Hn' Hw. unfold put_entry. cbn [tb_length tb_checksum tb_newoffset].
  destruct (Z.eqb_spec (d_length e) 0); [lia|]. destruct (name_bytes name Hname) as [-> Htag].
  assert (u32 (next + 12 + 9 * 16) = next + 12 + 9 * 16) as ->.
  { unfold u32, unsigned_wrap. apply Z.mod_small. lia. }
  unfold entry_bytes, new_entry. cbn [d_tag d_checksum d_offset d_length fst snd tb_checksum tb_newoffset tb_length].
  eapply conveys_bind; [apply put_bytes_writes; [exact Hw|]|].
  { unfold be32, ulong in *. repeat constructor; lia. }
  intros s1 r1 Hw1. eapply conveys_bind; [by apply pputULONG_writes|]. intros s2 r2 Hw2.
  eapply conveys_bind; [apply pputULONG_writes; [done|unfold ulong; lia]|]. intros s3 r3 Hw3.
  eapply conveys_weaken; [|by apply pputULONG_writes]. intros s4 r4. rewrite <-!app_assoc.
  cbn [length be32]. by replace (k + Z.of_nat 4 + 4 + 4 + 4) with (k + 16) by lia.
Qed.

Lemma put_entries_writes es next s r F k :
  Forall (λ e, entry_ok e.2 ∧ 0 < d_length e.2 ∧ String.length e.1 = 4%nat) es →
  0 ≤ next → next + all_padded es + 156 < 2 ^ 32 → written F k s r →
  conveys (each_table (put_entry 9) s (placed next es)) r
    (written (F ++ concat (entry_bytes ∘ new_entry <$> placed next es)) (k + 16 * Z.of_nat (length es))).
Proof.
  intros Hes. revert next s r F k. induction Hes as [|[name e] es (He & Hp & Hn) Hes IH];
    intros next s r F k Hpos Hsum Hw; cbn [placed each_table].
  - apply conveys_ret. cbn. by rewrite app_nil_r, Z.add_0_r.
  - cbn in Hp, Hn. cbn [all_padded] in Hsum.
    assert (0 ≤ all_padded es) by (apply padded_pos; eapply Forall_impl; [exact Hes|]; cbn; lia).
    eapply conveys_bind; [by apply put_entry_writes; try lia|]. intros s1 r1 Hw1.
    eapply conveys_weaken; [|apply IH; [lia|lia|exact Hw1]]. intros s2 r2. rewrite <-app_assoc. cbn [fmap list_fmap concat length].
    by replace (k + 16 + 16 * Z.of_nat (length es)) with (k + 16 * Z.of_nat (S (length es))) by lia.
Qed.

(** ** Finding a table *)

Lemma get32_be32 n l : ulong n → get32 (be32 n ++ l) = n.
Proof. apply be32_value. Qed.

Lemma entry_fields e l : entry_ok e →
  get32 (entry_bytes e ++ l) = d_tag e ∧ get32 (drop 8 (entry_bytes e ++ l)) = d_offset e ∧
  get32 (drop 12 (entry_bytes e ++ l)) = d_length e.
Proof.
  intros (Ht & _ & Ho & Hl). split; [by apply get32_be32|]. split.
  - by apply (get32_be32 _ (be32 (d_length e) ++ l)).
  - by apply (get32_be32 _ l).
Qed.

Lemma find_entry_is dir j e rest :
  Forall entry_ok dir → dir !! j = Some e → (∀ i e', (i < j)%nat → dir !! i = Some e' → d_tag e' ≠ d_tag e) →
  find_entry (length dir) (d_tag e) (concat (entry_bytes <$> dir) ++ rest) = Some (d_offset e, d_length e).
Proof.
  intros Hd. revert j. induction Hd as [|e0 dir He0 _ IH]; intros j Hj Hne; [done|].
  cbn [fmap list_fmap concat length find_entry]. rewrite <-app_assoc.
  destruct (entry_fields e0 (concat (entry_bytes <$> dir) ++ rest) He0) as (-> & -> & ->).
  destruct j as [|j]; [injection Hj as ->; by rewrite Z.eqb_refl|].
  pose proof (Hne 0%nat e0 ltac:(lia) eq_refl). destruct (Z.eqb_spec (d_tag e0) (d_tag e)); [done|].
  rewrite drop_app_length' by done. apply (IH j Hj). intros i e' Hi. apply (Hne (S i)). lia.
Qed.

(** The table of a font by its directory. *)
Lemma font_table_is start dir rest j e name :
  length start = 12%nat → get16 (drop 4 start) = Z.of_nat (length dir) → Forall entry_ok dir →
  dir !! j = Some e → (∀ i e', (i < j)%nat → dir !! i = Some e' → d_tag e' ≠ d_tag e) → tag name = d_tag e →
  d_offset e + d_length e ≤ Z.of_nat (length (start ++ concat (entry_bytes <$> dir) ++ rest)) →
  font_table (start ++ concat (entry_bytes <$> dir) ++ rest) name =
  Some (take (Z.to_nat (d_length e)) (drop (Z.to_nat (d_offset e)) (start ++ concat (entry_bytes <$> dir) ++ rest))).
Proof.
  intros Hstart Hn Hd Hj Hne Hname Hlen. unfold font_table.
  rewrite (drop_app_length' start _ 12) by done.
  assert (get16 (drop 4 (start ++ concat (entry_bytes <$> dir) ++ rest)) = Z.of_nat (length dir)) as ->.
  { rewrite <-Hn. by destruct start as [|? [|? [|? [|? [|? [|? ?]]]]]]. }
  rewrite Nat2Z.id, Hname, (find_entry_is dir j) by done. cbn.
  destruct (Z.ltb_spec (Z.of_nat (length (start ++ concat (entry_bytes <$> dir) ++ rest))) (d_offset e + d_length e));
    [lia|done].
Qed.

(** ** The font that is sent *)

(** A font file: twelve bytes, the directory in the order of the names, the rest. *)
Record font_file (file : string) (start : list Z) (dir : list dir_entry) (rest : list Z) : Prop := mkFontFile {
  ff_bytes : bytes_of file = start ++ concat (entry_bytes <$> dir) ++ rest;
  ff_start : length start = 12%nat;
  ff_count : get16 (drop 4 start) = Z.of_nat (length dir);
  ff_entries : Forall entry_ok dir;
  ff_sorted : ∀ i j e e', (i < j)%nat → dir !! i = Some e → dir !! j = Some e' → d_tag e < d_tag e';
}.

Lemma read_block_done file offset length b s s' :
  read_block file offset length s = Done (inr b) s' →
  b = str_take (Z.to_nat length) (str_drop (Z.to_nat offset) file).
Proof. unfold read_block. case_match; [done|]. by intros [<- _]%T_done_ret. Qed.

Lemma entries_length dir : length (concat (entry_bytes <$> dir)) = (16 * length dir)%nat.
Proof. induction dir as [|e dir IH]; [done|]. cbn [fmap list_fmap concat length]. rewrite length_app, IH. cbn. lia. Qed.

Lemma ttf_new_opens file start dir rest font s s' :
  font_file file start dir rest → ttf_new (Some file) s = Done (inr font) s' →
  t_file font = file ∧ bytes_of (t_offset_table font) = start ++ concat (entry_bytes <$> dir).
Proof.
  intros Hf H. cbn [ttf_new] in H. apply T_done_bind in H as (b1 & s1 & H1%read_block_done & H).
  assert (bytes_of b1 = start) as Hb1.
  { rewrite H1, bytes_take, bytes_drop, (ff_bytes _ _ _ _ Hf), drop_0.
    by rewrite (take_app_length' start) by by rewrite (ff_start _ _ _ _ Hf). }
  assert (getUSHORT b1 4 = mret (Z.of_nat (length dir))) as Hcount.
  { rewrite <-(ff_count _ _ _ _ Hf). pose proof (ff_start _ _ _ _ Hf) as Hl. rewrite <-Hb1 in Hl |- *.
    destruct (drop 4 (bytes_of b1)) as [|a [|b l]] eqn:E.
    - apply (f_equal length) in E. rewrite length_drop, Hl in E. done.
    - apply (f_equal length) in E. rewrite length_drop, Hl in E. done.
    - exact (getUSHORT_is b1 4 a b l E). }
  rewrite Hcount in H. apply T_done_bind in H as (n & s2 & [<- _]%T_done_ret & H).
  apply T_done_bind in H as (b2 & s3 & H2%read_block_done & H).
  apply T_done_bind in H as (v & s4 & _ & [<- _]%T_done_ret). split; [done|].
  cbn [t_offset_table]. rewrite bytes_app, Hb1. f_equal.
  rewrite H2, bytes_take, bytes_drop, (ff_bytes _ _ _ _ Hf).
  rewrite (drop_app_length' start _ (Z.to_nat 12)) by by rewrite (ff_start _ _ _ _ Hf).
  rewrite take_app_length'; [done|]. rewrite entries_length. lia.
Qed.

(** The names are in the order of the directory. *)
Fixpoint tags_rise (before : Z) (names : list string) : bool :=
  match names with
  | [] => true
  | name :: names' => (before <? tag name) && tags_rise (tag name) names'
  end.

Lemma entries_for_rise dir before es :
  tags_rise before es.*1 = true → Forall (λ e, e.2 ∈ dir ∧ d_tag e.2 = tag e.1) es → entries_for dir before es.
Proof.
  intros Hr Hes. revert before Hr. induction Hes as [|[name e] es [Hd Ht] _ IH]; intros before; cbn; [done|].
  intros [?%Z.ltb_lt ?]%andb_prop. auto.
Qed.

Lemma lookup_placed es next j name e :
  es !! j = Some (name, e) →
  placed next es !! j =
    Some (name, mkTable (d_offset e) (next + all_padded (take j es)) (d_length e) (d_checksum e)).
Proof.
  revert es next. induction j as [|j IH]; intros [|[name' e'] es] next; try done; cbn [lookup list_lookup].
  - intros [= -> ->]. cbn. by rewrite Z.add_0_r.
  - intros Hj. cbn [placed lookup list_lookup take all_padded]. rewrite (IH es _ Hj). by rewrite Z.add_assoc.
Qed.

Lemma length_placed es next : length (placed next es) = length es.
Proof. revert next. induction es as [|[name e] es IH]; intros next; cbn; [done|]. by rewrite IH. Qed.

Section sent.
Context (file : string) (start rest : list Z) (dir : list dir_entry) (font : TTFONT) (h : head).
Context (loca_table : string) (lengths : list Z) (es : list (string * dir_entry)).
Hypothesis file_ok : font_file file start dir rest.
Hypothesis font_is : t_file font = file ∧ bytes_of (t_offset_table font) = start ++ concat (entry_bytes <$> dir).
Hypothesis es_names : es.*1 = table_names.
Hypothesis es_ok : Forall (λ e, e.2 ∈ dir ∧ d_tag e.2 = tag e.1 ∧ can_copy font lengths e.1 e.2) es.

(** The font that is sent. *)
Definition sent_font : list Z :=
  (take 4 start ++ be16 9 ++ be16 7 ++ be16 3 ++ be16 81) ++
  concat (entry_bytes <$> (new_entry <$> placed 0 es)) ++ all_tables font es.

Lemma es_length : length es = 9%nat.
Proof. by rewrite <-(length_fmap fst), es_names. Qed.

Lemma all_padded_bound : strlen file < 2 ^ 31 → 0 ≤ all_padded es ∧ all_padded es + 200 < 2 ^ 32.
Proof.
  intros Hfile. split.
  { apply padded_pos. eapply Forall_impl; [exact es_ok|]. intros [name e] (_ & _ & _ & ? & _). cbn in *. lia. }
  clear -es_names es_ok Hfile font_is. destruct font_is as [Ht _]. revert es_names es_ok. generalize es.
  intros l es_names es_ok.
  do 9 (destruct l as [|[? ?] l]; [done|]). destruct l; [|done].
  cbn in es_names. injection es_names as -> -> -> -> -> -> -> -> ->.
  repeat match goal with H : Forall _ (_ :: _) |- _ => inversion H; clear H; subst end.
  repeat match goal with H : _ ∧ _ ∧ can_copy _ _ _ _ |- _ => destruct H as (_ & _ & ((_ & _ & ? & _) & _ & ? & ?)) end.
  unfold ulong in *. cbn in *. lia.
Qed.

Lemma tables_length l : Forall (λ e, can_copy font lengths e.1 e.2) l →
  Z.of_nat (length (all_tables font l)) = all_padded l.
Proof.
  induction 1 as [|[name e] l Hc _ IH]; [done|]. unfold all_tables in *. cbn [fmap list_fmap concat all_padded].
  rewrite length_app, Nat2Z.inj_add, IH, length_padded. cbn [fst snd] in *. by erewrite table_bytes_length.
Qed.
Lemma es_can_copy : Forall (λ e, can_copy font lengths e.1 e.2) es.
Proof. eapply Forall_impl; [exact es_ok|]. tauto. Qed.

Lemma placed_ok : strlen file < 2 ^ 31 → Forall entry_ok (new_entry <$> placed 0 es).
Proof.
  intros Hfile. destruct (all_padded_bound Hfile) as [_ Hsum]. apply Forall_fmap, Forall_lookup_2.
  intros j [name t] Hj. pose proof (lookup_lt_Some _ _ _ Hj) as Hlt. rewrite length_placed in Hlt.
  destruct (lookup_lt_is_Some_2 es j Hlt) as [[name' e] He].
  rewrite (lookup_placed _ _ _ _ _ He) in Hj. injection Hj as <- <-.
  pose proof (Forall_lookup_1 _ _ _ _ es_can_copy He) as ((Htag & Hc & _ & Hl) & _).
  pose proof (Forall_lookup_1 _ _ _ _ es_ok He) as (_ & Ht & _). cbn in *.
  assert (0 ≤ all_padded (take j es) ≤ all_padded es) as Hle.
  { pose proof es_can_copy as Hall. rewrite <-(take_drop j es), Forall_app in Hall. destruct Hall as [H1 H2].
    pose proof (tables_length _ H1). pose proof (tables_length _ H2). pose proof (tables_length _ es_can_copy) as H3.
    rewrite <-(take_drop j es) in H3 at 1. unfold all_tables in *. rewrite fmap_app, concat_app, length_app in H3. lia. }
  unfold entry_ok, new_entry. cbn. rewrite <-Ht. split; [done|]. split; [done|]. split; [|done]. unfold ulong. lia.
Qed.

Lemma tables_drop j name e :
  es !! j = Some (name, e) →
  ∃ l, drop (Z.to_nat (all_padded (take j es))) (all_tables font es) = table_bytes file e ++ l.
Proof.
  intros He. pose proof es_can_copy as Hall. rewrite <-(take_drop j es), Forall_app in Hall. destruct Hall as [H1 _].
  pose proof (tables_length _ H1) as Hlen.
  assert (all_tables font es = all_tables font (take j es) ++ all_tables font (drop j es)) as ->.
  { unfold all_tables. by rewrite <-concat_app, <-fmap_app, take_drop. }
  rewrite drop_app_length' by lia. rewrite (drop_S _ _ _ He). unfold all_tables, padded. cbn.
  destruct font_is as [-> _]. rewrite <-app_assoc. by eexists.
Qed.

(** It has the tables of the file. *)
Lemma sent_tables j name e :
  strlen file < 2 ^ 31 → es !! j = Some (name, e) → font_table sent_font name = Some (table_bytes file e).
Proof.
  intros Hfile He. set (start' := take 4 start ++ be16 9 ++ be16 7 ++ be16 3 ++ be16 81).
  assert (length start' = 12%nat) as Hstart.
  { unfold start'. rewrite length_app, length_take, (ff_start _ _ _ _ file_ok). done. }
  pose proof (lookup_placed _ 0 _ _ _ He) as Hp.
  destruct (tables_drop j name e He) as [l Hl].
  pose proof (Forall_lookup_1 _ _ _ _ es_can_copy He) as Hc. cbn in Hc.
  pose proof (table_bytes_length font lengths name e Hc) as Hlen. destruct font_is as [Hft _]. rewrite Hft in Hlen.
  pose proof Hc as ((_ & _ & _ & Hln) & Hpos & _). unfold ulong in Hln.
  assert (0 ≤ all_padded (take j es)) as Hpad.
  { apply padded_pos, Forall_take. eapply Forall_impl; [exact es_can_copy|]. intros [n e'] (_ & ? & _). cbn in *. lia. }
  set (new := new_entry (name, mkTable (d_offset e) (0 + all_padded (take j es)) (d_length e) (d_checksum e))).
  set (dir' := new_entry <$> placed 0 es).
  assert (length dir' = 9%nat) as Hdir by (unfold dir'; by rewrite length_fmap, length_placed, es_length).
  set (F := start' ++ concat (entry_bytes <$> dir') ++ all_tables font es).
  assert (drop (Z.to_nat (d_offset new)) F = table_bytes file e ++ l) as Hdrop.
  { unfold new, new_entry. cbn [d_offset fst snd tb_newoffset].
    replace (Z.to_nat (0 + all_padded (take j es) + 12 + 9 * 16))
      with (12 + (16 * length dir' + Z.to_nat (all_padded (take j es))))%nat by lia.
    unfold F. rewrite <-drop_drop, (drop_app_length' start') by done.
    by rewrite <-drop_drop, drop_app_length' by by rewrite entries_length. }
  change sent_font with F.
  assert (Z.to_nat (d_length new) = length (table_bytes file e)) as Hln' by (cbn; lia).
  unfold F. rewrite (font_table_is start' dir' (all_tables font es) j new).
  - fold F. rewrite Hdrop. by rewrite take_app_length'.
  - done.
  - rewrite Hdir. unfold start'. rewrite drop_app_length'; [done|].
    rewrite length_take, (ff_start _ _ _ _ file_ok). done.
  - by apply placed_ok.
  - unfold dir'. by rewrite list_lookup_fmap, Hp.
  - intros i e' Hi He'. unfold dir' in He'. rewrite list_lookup_fmap in He'.
    apply fmap_Some in He' as ([name' t] & Hi' & ->). pose proof (lookup_lt_Some _ _ _ Hi') as Hlt.
    rewrite length_placed in Hlt. destruct (lookup_lt_is_Some_2 es i Hlt) as [[n' e''] He''].
    rewrite (lookup_placed _ _ _ _ _ He'') in Hi'. injection Hi' as <- <-. cbn. intros Ht.
    assert (NoDup (tag <$> table_names)) as Hnd by by apply (bool_decide_eq_true_1 (NoDup (tag <$> table_names))).
    rewrite <-es_names in Hnd. assert (i = j) as ->; [|lia].
    eapply NoDup_lookup; [exact Hnd| |]; rewrite !list_lookup_fmap; [by rewrite He''|]. rewrite He. cbn. by rewrite Ht.
  - done.
  - fold F. apply (f_equal length) in Hdrop. rewrite length_drop, length_app in Hdrop.
    unfold new, new_entry in *. cbn [d_offset d_length fst snd tb_newoffset tb_length] in *. lia.
Qed.
End sent.

Lemma file_table file start dir rest name e :
  font_file file start dir rest → e ∈ dir → d_tag e = tag name → d_offset e + d_length e ≤ strlen file →
  font_table (bytes_of file) name = Some (table_bytes file e).
Proof.
  intros Hf [j Hj]%list_elem_of_lookup Ht Hlen. unfold table_bytes, strlen in *. rewrite <-bytes_length in Hlen.
  rewrite (ff_bytes _ _ _ _ Hf) in Hlen |- *. destruct Hf as [_ Hs Hc He Hsort].
  apply (font_table_is start dir rest j); try done. intros i e' Hi He'. pose proof (Hsort i j e' e Hi He' Hj). lia.
Qed.

(** The array, from the state of the reader behind "<". *)
Lemma sfnts_writes file start dir rest font h loca_table lengths es :
  font_file file start dir rest →
  t_file font = file ∧ bytes_of (t_offset_table font) = start ++ concat (entry_bytes <$> dir) →
  (∀ s, ttf_LoadTable font "loca" s = Done (inr loca_table) s) →
  glyph_lengths (h_indexToLocFormat h) loca_table 0 lengths →
  es.*1 = table_names →
  Forall (λ e, e.2 ∈ dir ∧ d_tag e.2 = tag e.1 ∧ can_copy font lengths e.1 e.2) es →
  strlen file < 2 ^ 31 →
  ∃ text strings,
    outputs (ttf_PS_sfnts font h (Z.of_nat (length lengths))) ("/sfnts[<" +:+ text +:+ "]def" +:+ nl) tt ∧
    foldl read_char (Some (to_reader ([], Some []))) (chars text) = Some (to_reader (strings, None)) ∧
    Forall sfnts_string strings ∧ concat (string_bytes <$> strings) = sent_font start font es.
Proof.
  intros Hf Hfont Hloca Hglyphs Hnames Hes Hfile. pose proof Hfont as [Hft Hot].
  pose proof (es_length es Hnames) as Hlen.
  assert (0 ≤ all_padded es ∧ all_padded es + 200 < 2 ^ 32) as [Hpad0 Hpad] by by eapply all_padded_bound.
  assert (Forall (λ e, can_copy font lengths e.1 e.2) es) as Hcopy by (eapply Forall_impl; [exact Hes | tauto]).
  assert (choose_tables table_names (t_offset_table font) 12 0 0 = mret (placed 0 es, 9)) as Hchoose.
  { rewrite <-Hnames. change 9 with (Z.of_nat 9). rewrite <-Hlen.
    apply (choose_tables_is (t_offset_table font) start [] dir (ff_start _ _ _ _ Hf)
      ltac:(by rewrite app_nil_r) (ff_entries _ _ _ _ Hf) (ff_sorted _ _ _ _ Hf) es (-1) 0 0 0); [|lia|done|lia].
    apply entries_for_rise; [rewrite Hnames; reflexivity|]. eapply Forall_impl; [exact Hes|]. tauto. }
  assert (Forall (λ name, String.length name = 4%nat) es.*1) as H4 by (rewrite Hnames; by repeat constructor).
  rewrite Forall_fmap in H4.
  set (end_text := "]def" +:+ nl).
  assert (conveys_then (s ← put_bytes (mkSfnts 0 8 true) (code <$> chars (str_take 4 (t_offset_table font)));
    s ← sfnts_pputUSHORT s 9;
    s ← (s ← sfnts_pputUSHORT s 7; s ← sfnts_pputUSHORT s 3; sfnts_pputUSHORT s 81);
    s ← each_table (put_entry 9) s (placed 0 es);
    s ← each_table (put_table font h (Z.of_nat (length lengths))) s (placed 0 es);
    sfnts_end_string s;; tputs end_text) ([], Some []) end_text
    (λ r', carries (sent_font start font es) 0 r' ∧ r'.2 = None)) as (text & [strings o] & Ho & Hr & Hw & Hn).
  { eapply conveys_then_bind; [apply (put_bytes_writes _ _ _ [] 0); [done|apply bytes_range]|].
    change (code <$> chars (str_take 4 (t_offset_table font))) with (bytes_of (str_take 4 (t_offset_table font))).
    rewrite bytes_take, Hot, take_app_le by (rewrite (ff_start _ _ _ _ Hf); lia). cbn [app].
    rewrite length_take, (ff_start _ _ _ _ Hf). change (0 + Z.of_nat (4 `min` 12)) with 4.
    intros s1 r1 Hw1. eapply conveys_then_bind; [by apply pputUSHORT_writes|]. intros s2 r2 Hw2.
    eapply conveys_then_bind.
    { eapply conveys_bind; [by apply pputUSHORT_writes|]. intros s3 r3 Hw3.
      eapply conveys_bind; [by apply pputUSHORT_writes|]. intros s4 r4 Hw4. by apply pputUSHORT_writes. }
    intros s3 r3 Hw3. eapply conveys_then_bind.
    { apply put_entries_writes; [|lia|lia|exact Hw3].
      eapply Forall_impl; [apply Forall_and; split; [exact Hcopy | exact H4]|].
      cbn. intros [name e] [(? & ? & _) ?]. done. }
    rewrite Hlen. change (16 * Z.of_nat 9) with 144. intros s4 r4 Hw4. eapply conveys_then_bind.
    { eapply put_tables_writes; [exact Hloca | exact Hglyphs | done | exact Hcopy | exact Hw4 | lia]. }
    intros s5 r5 Hw5. eapply conveys_then_tputs; [by eapply end_string_writes|]. intros s6 r6 [[_ Hw6] Hn6].
    split; [|done]. revert Hw6. unfold sent_font. by rewrite list_fmap_compose, <-!app_assoc. }
  destruct Hw as (HF & Hs & _). cbn in Hn, HF, Hs. subst o. rewrite app_nil_r in HF.
  exists text, strings. split; [|done]. unfold ttf_PS_sfnts. rewrite Hchoose.
  change (mret (M := T) ?a ≫= ?f) with (f a). cbv beta iota.
  eapply outputs_bind; [|exact Ho].
  exact (outputs_bind _ _ _ EmptyString _ _ (outputs_tputs "/sfnts[<") (outputs_ret (mkSfnts 0 8 true))).
Qed.

Lemma choose_entries (names : list string) (P : string → dir_entry → Prop) :
  (∀ name, name ∈ names → ∃ e, P name e) → ∃ es, es.*1 = names ∧ Forall (λ e, P e.1 e.2) es.
Proof.
  induction names as [|name names IH]; intros H; [by exists []|].
  destruct IH as (es & <- & Hes); [intros n Hn; apply H; by right|].
  destruct (H name ltac:(by left)) as [e He]. exists ((name, e) :: es). split; [done|]. by constructor.
Qed.

(** C39: The sfnts array of a Type 42 font.  When the font file has the nine tables
    that a printer needs, none of them empty, each short enough for a string of
    PostScript or made of glyphs that are, then what is written is an array of
    strings, none longer than 65535 bytes and each with the extra byte 0; and the
    bytes of the strings make up a font in which whoever looks up one of the nine
    tables in the directory finds the same bytes as in the file. *)
Theorem type42_font_has_the_tables file start dir rest font h loca_table lengths s0 s1 :
  font_file file start dir rest → strlen file < 2 ^ 31 →
  ttf_new (Some file) s0 = Done (inr font) s1 →
  (∀ s, ttf_LoadTable font "loca" s = Done (inr loca_table) s) →
  glyph_lengths (h_indexToLocFormat h) loca_table 0 lengths →
  (∀ name, name ∈ table_names → ∃ e, e ∈ dir ∧ d_tag e = tag name ∧ can_copy font lengths name e) →
  ∃ array strings,
    (∀ s, ttf_PS_sfnts font h (Z.of_nat (length lengths)) s = tputs ("/sfnts[" +:+ array +:+ "]def" +:+ nl) s) ∧
    ps_strings array = Some strings ∧ Forall sfnts_string strings ∧
    ∀ name, name ∈ table_names → ∃ table,
      font_table (bytes_of file) name = Some table ∧
      font_table (concat (string_bytes <$> strings)) name = Some table.
Proof.
  intros Hf Hfile Hnew Hloca Hglyphs Htables. pose proof (ttf_new_opens _ _ _ _ _ _ _ Hf Hnew) as Hfont.
  apply choose_entries in Htables as (es & Hnames & Hes).
  destruct (sfnts_writes file start dir rest font h loca_table lengths es) as (text & strings & Ho & Hr & Hs & HF);
    [done..|].
  exists ("<" +:+ text), strings. split; [|split; [|split; [done|]]].
  - intros s. rewrite (Ho s). symmetry. apply (outputs_tputs ("/sfnts[<" +:+ text +:+ "]def" +:+ nl)).
  - unfold ps_strings. change (chars ("<" +:+ text)) with ("<"%char :: chars text). cbn [foldl].
    change (read_char (Some (mkReader [] None None)) "<") with (Some (to_reader ([], Some []))). by rewrite Hr.
  - intros name Hin. rewrite <-Hnames in Hin. apply list_elem_of_fmap in Hin as ([name' e] & -> & He).
    apply list_elem_of_lookup in He as [j He]. pose proof (Forall_lookup_1 _ _ _ _ Hes He) as (Hd & Ht & Hc).
    exists (table_bytes file e). split.
    + eapply file_table; [done..|]. destruct Hfont as [Hft _]. destruct Hc as (_ & _ & Hc & _). by rewrite Hft in Hc.
    + rewrite HF. by eapply sent_tables.
Qed.

(** A font of one glyph, with two tables that are left out. *)
Definition sample_tables : list (string * list Z) :=
  [("OS/2", [1; 2]); ("cvt ", [3; 4; 5]); ("fpgm", [6]); ("glyf", [0; 1; 2; 3; 4; 5]); ("head", [7; 8; 9; 10]);
   ("hhea", [11; 12]); ("hmtx", [13; 14]); ("loca", [0; 0; 0; 3]); ("maxp", [15]); ("name", [16; 17]);
   ("prep", [18; 19; 20; 21; 22])].

Fixpoint laid_out (offset : Z) (tables : list (string * list Z)) : list dir_entry :=
  match tables with
  | [] => []
  | (name, bytes) :: tables' =>
      let n := Z.of_nat (length bytes) in
      mkEntry (tag name) 0 offset n :: laid_out (offset + n) tables'
  end.

Definition sample_start : list Z := [0; 1; 0; 0] ++ be16 11 ++ [0; 128; 0; 3; 0; 48].
Definition sample_entries : list dir_entry := laid_out (12 + 16 * 11) sample_tables.
Definition sample_rest : list Z := concat sample_tables.*2.
Definition sample_font_file : string :=
  of_chars (chr <$> sample_start ++ concat (entry_bytes <$> sample_entries) ++ sample_rest).
Definition sample_font : TTFONT :=
  mkTTFONT sample_font_file 11 (str_take 188 sample_font_file) (1, 0).
Definition sample_head : head := mkHead (0, 0) 1000 (0, 0, 0, 0) 0.

Lemma sample_font_ok : font_file sample_font_file sample_start sample_entries sample_rest.
Proof.
  split; [vm_compute; reflexivity | reflexivity | reflexivity | |].
  - repeat (constructor; [repeat split; done|]). constructor.
  - intros i j e e' Hij Hi Hj.
    do 11 (destruct i as [|i];
      [do 11 (destruct j as [|j]; [first [lia | injection Hi as <-; injection Hj as <-; reflexivity]|]); done|]).
    done.
Qed.

Lemma sample_entry j name :
  (j < 11)%nat → (let e := nth j sample_entries (mkEntry 0 0 0 0) in
    (d_tag e =? tag name) && (0 <? d_length e) && (d_offset e + d_length e <=? strlen sample_font_file) &&
    if String.eqb name "glyf" then 6 =? d_length e else d_length e <=? 65528) = true →
  ∃ e, e ∈ sample_entries ∧ d_tag e = tag name ∧ can_copy sample_font [6] name e.
Proof.
  intros Hj H. set (e := nth j sample_entries (mkEntry 0 0 0 0)) in H.
  assert (e ∈ sample_entries) as He by (apply list_elem_of_In, nth_In; exact Hj).
  exists e. split; [done|]. cbv zeta in H. apply andb_prop in H as [H Hsize]. apply andb_prop in H as [H Hin].
  apply andb_prop in H as [Ht%Z.eqb_eq Hp%Z.ltb_lt]. apply Z.leb_le in Hin. split; [done|].
  split; [|split; [done|split; [done|]]].
  - pose proof (ff_entries _ _ _ _ sample_font_ok) as Hall. rewrite Forall_forall in Hall. by apply Hall.
  - destruct (String.eqb name "glyf"); [by apply Z.eqb_eq in Hsize | by apply Z.leb_le in Hsize].
Qed.

Lemma sample_has name :
  name ∈ table_names → ∃ e, e ∈ sample_entries ∧ d_tag e = tag name ∧ can_copy sample_font [6] name e.
Proof.
  intros [k Hk]%list_elem_of_lookup.
  destruct k as [|[|[|[|[|[|[|[|[|k]]]]]]]]]; [..|done]; injection Hk as <-;
    [apply (sample_entry 1) | apply (sample_entry 2) | apply (sample_entry 3) | apply (sample_entry 4) |
     apply (sample_entry 5) | apply (sample_entry 6) | apply (sample_entry 7) | apply (sample_entry 8) |
     apply (sample_entry 10)]; (lia || (vm_compute; reflexivity)).
Qed.

Definition empty_out : outbuf := mkOut EmptyString BUFSIZE EmptyString 0 false false [].

Lemma type42_font_has_the_tables_witness :
  ∃ array strings,
    (∀ s, ttf_PS_sfnts sample_font sample_head 1 s = tputs ("/sfnts[" +:+ array +:+ "]def" +:+ nl) s) ∧
    ps_strings array = Some strings ∧ Forall sfnts_string strings ∧
    ∀ name, name ∈ table_names → ∃ table,
      font_table (bytes_of sample_font_file) name = Some table ∧
      font_table (concat (string_bytes <$> strings)) name = Some table.
Proof.
  apply (type42_font_has_the_tables sample_font_file sample_start sample_entries sample_rest sample_font
    sample_head (of_chars (chr <$> [0; 0; 0; 3])) [6] empty_out empty_out).
  - exact sample_font_ok.
  - vm_compute. reflexivity.
  - vm_compute. reflexivity.
  - intros s'. vm_compute. reflexivity.
  - split; [|done]. exists 0. intros s'. vm_compute. reflexivity.
  - apply sample_has.
Defined.

(** The same font without the table 'fpgm', which many fonts do not have. *)
Definition fewer_tables : list (string * list Z) :=
  filter (λ t, String.eqb t.1 "fpgm" = false) sample_tables.
Definition fewer_file : string :=
  of_chars (chr <$> ([0; 1; 0; 0] ++ be16 10 ++ [0; 128; 0; 3; 0; 32]) ++
    concat (entry_bytes <$> laid_out (12 + 16 * 10) fewer_tables) ++ concat fewer_tables.*2).

(** What is sent of a file, as a font. *)
Definition sent_of (file : string) : option (list Z) :=
  match (font ← ttf_new (Some file); ttf_PS_sfnts font sample_head 1)
    empty_out with
  | Done (inr _) out =>
      let text := ob_sent out +:+ ob_wbuf out in
      strings ← ps_strings (str_take (String.length text - 12) (str_drop 7 text));
      Some (concat (string_bytes <$> strings))
  | _ => None
  end.

(** With fewer than nine tables the directory of what is sent begins six bytes
    too early, and its offsets are those of a directory at its place: nothing
    is found. *)
Lemma fewer_tables_are_lost :
  font_table (bytes_of fewer_file) "head" = Some [7; 8; 9; 10] ∧
  (sent_of sample_font_file ≫= λ sent, font_table sent "head") = Some [7; 8; 9; 10] ∧
  is_Some (sent_of fewer_file) ∧
  (sent_of fewer_file ≫= λ sent, font_table sent "head") = None.
Proof.
  split; [vm_compute; reflexivity|]. split; [vm_compute; reflexivity|]. split; [|vm_compute; reflexivity].
  vm_compute. by eexists.
Qed.
