(* ===== verification/Document.v ===== *)
(** A job on its way through pprdrv, line by line: the variables of the driver's
    document routines and the reading of its files (src/pprdrv/pprdrv.c, up to
    dgetline_read()); and the code for the printer's features, put in, replaced
    and left out (src/pprdrv/pprdrv_ppd.c). *)
From S2P Require Import Prelude.
From S2P Require Import Text.
From S2P Require Import Spooler.
From S2P Require Import DriverOutput.
From S2P Require Import JobFile.
From S2P Require Import QueueFile.
From S2P Require Import Tokens.
From S2P Require Import ReadPpd.
From S2P Require Import Ppd.

Definition MAX_LINE : nat := 1024.

(** struct DRVRES (pprdrv.h).  A version is the number as it was read. *)
Record DRVRES := mkRes {
  r_needed : bool;
  r_type : string;
  r_name : string;
  r_version : scanval;
  r_revision : Z;
  r_former_name : option string;
  r_subst_code : option string;
  r_filename : option string;
  r_dot_ttf : bool;
  r_mactt : bool;
  r_force_into_docsetup : bool;
  r_force_into_prolog : bool;
}.

Definition eta_DRVRES (r : DRVRES) : DRVRES :=
  mkRes (r_needed r) (r_type r) (r_name r) (r_version r) (r_revision r) (r_former_name r)
    (r_subst_code r) (r_filename r) (r_dot_ttf r) (r_mactt r) (r_force_into_docsetup r)
    (r_force_into_prolog r).

Definition set_r_filename : option string → DRVRES → DRVRES := ltac:(setter eta_DRVRES r_filename).
Definition set_r_force_into_docsetup : bool → DRVRES → DRVRES :=
  ltac:(setter eta_DRVRES r_force_into_docsetup).
Definition set_r_force_into_prolog : bool → DRVRES → DRVRES :=
  ltac:(setter eta_DRVRES r_force_into_prolog).

(** The files of the job. *)
Inductive job_file := COMMENTS | PAGES | TEXT.

(** The driver's variables.  Of each file there is what is still to be read,
    line[] is [v_line], the "-log" file gets [v_warnings], the queue file
    [v_reasons]. *)
Record doc := mkDoc {
  v_out : outbuf;
  v_comments : string;
  v_page_comments : string;
  v_text : string;
  v_line : string;
  v_line_len : nat;
  v_line_overflow : bool;
  v_tokens : list string;
  v_level : Z;
  v_strip_binselects : bool;
  v_strip_signature : bool;
  v_copies_auto : Z;
  v_copies_auto_collate : Z;
  v_duplex_code : option string;
  v_doing_prolog : bool;
  v_doing_docsetup : bool;
  v_drvres : list DRVRES;
  v_ttrasterizer_decided : bool;
  v_type42_ok : bool;
  v_default_pagemedia : string;
  v_warnings : list string;
  v_reasons : list string;
}.

Definition eta_doc (v : doc) : doc :=
  mkDoc (v_out v) (v_comments v) (v_page_comments v) (v_text v) (v_line v) (v_line_len v)
    (v_line_overflow v) (v_tokens v) (v_level v) (v_strip_binselects v) (v_strip_signature v)
    (v_copies_auto v) (v_copies_auto_collate v) (v_duplex_code v) (v_doing_prolog v)
    (v_doing_docsetup v) (v_drvres v) (v_ttrasterizer_decided v) (v_type42_ok v)
    (v_default_pagemedia v) (v_warnings v) (v_reasons v).

Definition set_v_out : outbuf → doc → doc := ltac:(setter eta_doc v_out).
Definition set_v_comments : string → doc → doc := ltac:(setter eta_doc v_comments).
Definition set_v_page_comments : string → doc → doc := ltac:(setter eta_doc v_page_comments).
Definition set_v_text : string → doc → doc := ltac:(setter eta_doc v_text).
Definition set_v_line : string → doc → doc := ltac:(setter eta_doc v_line).
Definition set_v_line_len : nat → doc → doc := ltac:(setter eta_doc v_line_len).
Definition set_v_line_overflow : bool → doc → doc := ltac:(setter eta_doc v_line_overflow).
Definition set_v_tokens : list string → doc → doc := ltac:(setter eta_doc v_tokens).
Definition set_v_level : Z → doc → doc := ltac:(setter eta_doc v_level).
Definition set_v_strip_binselects : bool → doc → doc := ltac:(setter eta_doc v_strip_binselects).
Definition set_v_strip_signature : bool → doc → doc := ltac:(setter eta_doc v_strip_signature).
Definition set_v_copies_auto_collate : Z → doc → doc := ltac:(setter eta_doc v_copies_auto_collate).
Definition set_v_duplex_code : option string → doc → doc := ltac:(setter eta_doc v_duplex_code).
Definition set_v_doing_prolog : bool → doc → doc := ltac:(setter eta_doc v_doing_prolog).
Definition set_v_doing_docsetup : bool → doc → doc := ltac:(setter eta_doc v_doing_docsetup).
Definition set_v_drvres : list DRVRES → doc → doc := ltac:(setter eta_doc v_drvres).
Definition set_v_ttrasterizer_decided : bool → doc → doc :=
  ltac:(setter eta_doc v_ttrasterizer_decided).
Definition set_v_type42_ok : bool → doc → doc := ltac:(setter eta_doc v_type42_ok).
Definition set_v_default_pagemedia : string → doc → doc := ltac:(setter eta_doc v_default_pagemedia).
Definition set_v_warnings : list string → doc → doc := ltac:(setter eta_doc v_warnings).
Definition set_v_reasons : list string → doc → doc := ltac:(setter eta_doc v_reasons).

Abbreviation V := (M doc).

(** A routine of pprdrv_buf.c. *)
Definition out {A} (m : O A) : V A := λ v,
  match m (v_out v) with
  | Done a o => Done a (set_v_out o v)
  | Thrown e o => Thrown e (set_v_out o v)
  | Stopped r => Stopped r
  end.

Definition puts (text : string) : V unit := out (printer_write text).
Definition putline (text : string) : V unit := out (printer_putline text).
Definition putc (c : ascii) : V unit := out (printer_putc c).
Definition printf (fmt : string) (va : list farg) : V unit := out (printer_printf fmt va).

(** feature_warning() *)
Definition feature_warning (message : string) : V unit :=
  modify (λ v, set_v_warnings (v_warnings v ++ [message]) v).

(** give_reason() (src/pprdrv/pprdrv_reason.c) *)
Definition give_reason (reason : string) : V unit :=
  modify (λ v, set_v_reasons (v_reasons v ++ [reason]) v).

(** * Lines *)

Definition rest_of (infile : job_file) (v : doc) : string :=
  match infile with COMMENTS => v_comments v | PAGES => v_page_comments v | TEXT => v_text v end.

Definition set_rest (infile : job_file) (rest : string) (v : doc) : doc :=
  match infile with
  | COMMENTS => set_v_comments rest v
  | PAGES => set_v_page_comments rest v
  | TEXT => set_v_text rest v
  end.

(** The characters up to the end of the line or of the buffer, what follows, and
    whether the line was too long for the buffer. *)
Fixpoint read_line (room : nat) (file : string) : string * string * bool :=
  match room, file with
  | 0%nat, _ => (EmptyString, file, true)
  | S _, EmptyString => (EmptyString, EmptyString, false)
  | S room', String c file' =>
      if code c =? 10 then (EmptyString, file', false)
      else let '(line, rest, overflow) := read_line room' file' in (String c line, rest, overflow)
  end.

(** Whether there was a line; at the end of the file line[] keeps what it holds. *)
Definition dgetline_read (infile : job_file) : V bool :=
  modify (set_v_line_overflow false);;
  file ← gets (rest_of infile);
  match file with
  | EmptyString => modify (set_v_line_len 0);; mret false
  | _ =>
      let '(line, rest, overflow) := read_line MAX_LINE file in
      modify (set_rest infile rest);;
      modify (set_v_line line);;
      modify (set_v_line_len (String.length line));;
      modify (set_v_line_overflow overflow);;
      mret true
  end.

(** The line as the string functions see it. *)
Definition the_line : V string := v ← gets v_line; mret (c_string v).

(** printer_write(line, line_len), and the end of a line that is whole *)
Definition write_line : V unit :=
  v ← gets id;
  puts (str_take (v_line_len v) (v_line v));;
  when (negb (v_line_overflow v)) (putc (chr 10)).

(** tokenize() of line[]; a nested call replaces the tokens, but nobody looks at
    his own after one. *)
Definition tokenize_line : V unit :=
  line ← the_line;
  len ← gets v_line_len;
  tokens ← tokenize line (Z.of_nat len);
  modify (set_v_tokens tokens).

Definition token (i : nat) : V (option string) := tokens ← gets v_tokens; mret (tokens !! i).

(** * Data *)

(** while(len--): a negative number of them is as many as there are. *)
Fixpoint copy_lines (fuel : nat) (infile : job_file) (len : Z) : V unit :=
  match fuel with
  | 0%nat => λ _, Stopped SFuel
  | S fuel' =>
      if len =? 0 then mret tt
      else
        file ← gets (rest_of infile);
        match file with
        | EmptyString => mret tt
        | _ =>
            let '(line, rest) := fgets (MAX_LINE + 1) file in
            modify (set_rest infile rest);;
            modify (set_v_line line);;
            puts (c_string line);;
            copy_lines fuel' infile (len - 1)
        end
  end.

Fixpoint copy_bytes (len : Z) (file : string) : O string :=
  if len =? 0 then mret file
  else
    match file with
    | EmptyString => mret EmptyString
    | String c file' => printer_putc c;; copy_bytes (len - 1) file'
    end.

Definition copy_data (infile : job_file) : V unit :=
  line ← the_line;
  putline line;;
  count ← token 1;
  kind ← token 2;
  unit_ ← token 3;
  match count, kind, unit_ with
  | Some count, Some _, Some unit_ =>
      len ←
        match gu_sscanf count "%ld" [] with
        | Scanned _ (VInt n :: _) => mret n
        | Scanned _ _ => mret 0
        | ScanThrow msg => gu_Throw msg
        | ScanUndef => undef "signed overflow"
        end;
      file ← gets (rest_of infile);
      if String.eqb unit_ "Lines" then copy_lines (S (String.length file)) infile len
      else
        rest ← out (copy_bytes len file);
        modify (set_rest infile rest)
  | _, _, _ => mret tt
  end.

(** * The code of printer features put into the job
    (src/pprdrv/pprdrv_ppd.c, from feature_change() on). *)

(** What a run of the driver is given: the job, and what the PPD file said. *)
Class DriverConfig := {
  dc_job : QEntryFile;
  dc_ppd : ppd;
}.

Section features.
Context `{DriverConfig}.

(** The feature and the option to use instead, nothing if there shall be none. *)
Definition feature_change (featuretype : string) (option : Datatypes.option string)
    : V (Datatypes.option (string * Datatypes.option string)) :=
  v ← gets id;
  let named := String.eqb featuretype in
  if v_strip_binselects v && (named "*InputSlot" || named "*TraySwitch") then mret None
  else if v_strip_binselects v && named "*PageSize" then mret (Some ("*PageRegion", option))
  else if v_strip_signature v && (named "*Signature" || named "*Booklet") then mret None
  else if negb (v_copies_auto_collate v =? 0) && named "*Collate" then
    if negb (v_copies_auto_collate v =? -1) then
      modify (set_v_copies_auto_collate (-1));;
      mret (Some (featuretype,
        Some (if 0 <? v_copies_auto_collate v then "True" else "False")))
    else mret (Some (featuretype, option))
  else mret (Some (featuretype, option)).

(** A string for [%s], nothing if there is none. *)
Definition or_nothing (s : option string) : string := default EmptyString s.

Definition comment_with (keyword featuretype : string) (option : Datatypes.option string) : V unit :=
  match option with
  | Some o => printf (keyword +:+ " %s %s" +:+ of_chars [chr 10]) [AS featuretype; AS o]
  | None => printf (keyword +:+ " %s" +:+ of_chars [chr 10]) [AS featuretype]
  end.

(** Code that belongs to an option is text, other code a QuotedValue. *)
Definition put_code (option : Datatypes.option string) (code : string) : V unit :=
  match option with
  | Some _ => puts code
  | None => out (printer_puts_QuotedValue code)
  end.

Definition end_feature : string := of_chars [chr 10] +:+ "%%EndFeature" +:+ of_chars [chr 10].

Fixpoint puts_lower (s : string) : O unit :=
  match s with
  | EmptyString => mret tt
  | String c s' => printer_putc (tolower c);; puts_lower s'
  end.

Definition include_feature (featuretype : option string) (option : Datatypes.option string) : V unit :=
  match featuretype with
  | None => mret tt
  | Some featuretype =>
      if bool_decide (option = Some EmptyString)
      then fatal EXIT_PRNERR_NORETRY "include_feature(): assertion failed"
      else
        changed ← feature_change featuretype option;
        match changed with
        | None => mret tt
        | Some (featuretype, option) =>
            string ← find_feature dc_ppd featuretype option;
            match string with
            | Some string =>
                comment_with "%%%%BeginFeature:" featuretype option;;
                put_code option string;;
                puts end_feature
            | None =>
                match option with
                | Some o =>
                    if negb (j_N dc_job =? 1) && String.eqb featuretype "*PageRegion" then
                      printf ("%%%%BeginFeature: *PageRegion %s" +:+ of_chars [chr 10]) [AS o];;
                      out (puts_lower o);;
                      puts o;;
                      puts end_feature
                    else
                      feature_warning "The PPD file doesn't contain code, skipping it.";;
                      printf ("%%%%IncludeFeature: %s%s%s" +:+ of_chars [chr 10])
                        [AS featuretype; AS " "; AS o]
                | None =>
                    feature_warning "The PPD file doesn't contain code, skipping it.";;
                    printf ("%%%%IncludeFeature: %s%s%s" +:+ of_chars [chr 10])
                      [AS featuretype; AS EmptyString; AS EmptyString]
                end
            end
        end
  end.

Definition retained_notice : list string :=
  ["% PPR retained the following feature code despite fact that no such";
   "% feature is listed in the PPD file.  Use ppr's -K switch to change";
   "% this behavior."].

Definition removed_notice : list string :=
  ["% The code for this printer feature was removed by PPR because";
   "% there is no such feature listed in the PPD file.  Use ppr's -K";
   "% switch to change this behavior."].

Fixpoint putlines (lines : list string) : V unit :=
  match lines with [] => mret tt | line :: lines' => putline line;; putlines lines' end.

(** The lines up to the one that ends the code; [next] is dgetline(infile). *)
Fixpoint code_lines (fuel : nat) (next : V bool) (ending reason : string) (keep : bool) : V unit :=
  match fuel with
  | 0%nat => λ _, Stopped SFuel
  | S fuel' =>
      got ← next;
      if negb (got : bool) then
        give_reason reason;;
        fatal EXIT_JOBERR "unterminated code"
      else
        line ← the_line;
        if String.eqb line ending then mret tt
        else
          when keep (putline line);;
          code_lines fuel' next ending reason keep
  end.

Definition begin_feature (fuel : nat) (next : V bool) (featuretype : option string)
    (option : Datatypes.option string) : V unit :=
  match featuretype with
  | None => mret tt
  | Some featuretype =>
      changed ← feature_change featuretype option;
      '(string, keep) ←
        match changed with
        | None => mret (None, false)
        | Some (featuretype, option) =>
            comment_with "%%%%BeginFeature:" featuretype option;;
            string ← find_feature dc_ppd featuretype option;
            match string with
            | Some _ => mret (string, false)
            | None =>
                if truth (j_keep_badfeatures dc_job) then
                  feature_warning "The PPD file doesn't contain code, retaining old code.";;
                  putlines retained_notice;;
                  mret (None, true)
                else
                  feature_warning "The PPD file doesn't contain code, removing existing code.";;
                  putlines removed_notice;;
                  mret (None, false)
            end
        end;
      code_lines fuel next "%%EndFeature" "defective feature invokation" keep;;
      match string with
      | Some string =>
          put_code (changed ≫= snd) string;;
          putc (chr 10)
      | None => mret tt
      end;;
      putline (match changed with Some _ => "%%EndFeature" | None => "% %%EndFeature" end)
  end.

Definition begin_stopped : V unit := putline "[ { %PPR".

Definition end_stopped (feature : string) (option : Datatypes.option string) : V unit :=
  printf ("} stopped {(PPD error: %s %s failed" +:+ String backslash "n)print} if cleartomark %%PPR"
    +:+ of_chars [chr 10]) [AS feature; AS (or_nothing option)].

(** ** The features of the queue file *)

(** The lines up to "EndSetups"; what is behind it, and whether a bin was
    selected.  gu_getline() takes white space off the end of a line. *)
Fixpoint feature_lines (fuel : nat) (qstream : string) (set_strip : bool) : V (string * bool) :=
  match fuel with
  | 0%nat => λ _, Stopped SFuel
  | S fuel' =>
      match gu_getline qstream with
      | None => mret (qstream, set_strip)
      | Some (line, rest) =>
          if String.eqb line "EndSetups" then mret (rest, set_strip)
          else
            match lmatchp line "Feature:" with
            | None => feature_lines fuel' rest set_strip
            | Some feature =>
                let feature_type := before is_blank feature in
                let feature_option :=
                  match from is_blank feature with
                  | EmptyString => None
                  | String _ o => Some o
                  end in
                if String.eqb feature_type "*Duplex" && bool_decide (feature_option ≠ None) then
                  modify (set_v_duplex_code feature_option);;
                  feature_lines fuel' rest set_strip
                else
                  begin_stopped;;
                  include_feature (Some feature_type) feature_option;;
                  end_stopped feature_type feature_option;;
                  feature_lines fuel' rest (set_strip || String.eqb feature_type "*InputSlot")
            end
      end
  end.

Definition insert_features (qstream : string) (set : Z) : V string :=
  if (set <? 1) || (2 <? set) then fatal EXIT_PRNERR_NORETRY "insert_features(): assertion failed"
  else
    duplex_code ← gets v_duplex_code;
    match duplex_code with
    | Some code =>
        if set =? 2 then
          putline "{currentpoint} stopped %PPR";;
          putline "[0 0 0 0 0 0] currentmatrix %PPR";;
          begin_stopped;;
          include_feature (Some "*Duplex") duplex_code;;
          end_stopped "*Duplex" duplex_code;;
          putline "setmatrix %PPR";;
          putline "not {moveto} if %PPR";;
          modify (set_v_duplex_code None);;
          mret qstream
        else fatal EXIT_PRNERR_NORETRY "insert_features(): assertion failed"
    | None =>
        if set =? 2 then mret qstream
        else
          '(rest, set_strip) ← feature_lines (S (String.length qstream)) qstream false;
          when (set_strip : bool) (modify (set_v_strip_binselects true));;
          mret rest
    end.

(** set_collate() *)
Definition set_collate (collate : bool) : V unit :=
  when collate
    (begin_stopped;;
     include_feature (Some "*Collate") (Some "True");;
     end_stopped "*Collate" (Some "True")).
End features.
