(* ===== verification/Resources.v ===== *)
(** Fonts, procedure sets and other resources of a job: what the job has, what the
    driver brings, and where in the job each is sent (src/pprdrv/pprdrv_res.c,
    src/libppr/findres.c, the decision of src/pprdrv/pprdrv_tt.c). *)
From S2P Require Import Prelude.
From S2P Require Import Text.
From S2P Require Import Spooler.
From S2P Require Import DriverOutput.
From S2P Require Import JobFile.
From S2P Require Import QueueFile.
From S2P Require Import Tokens.
From S2P Require Import Ppd.
From S2P Require Import Fonts.
From S2P Require Import TrueTypeOut.
From S2P Require Import Document.

(** The index of the fonts and the directory of the other resources, and the files
    that can be opened. *)
Class ResourceConfig := {
  FONT_INDEX : option string;
  RESOURCEDIR : string;
  resource_files : gmap string string;
}.

(** * Versions *)

(** gu_getdouble() *)
Definition gu_getdouble (s : string) : scanval :=
  let s := drop_while is_blank s in
  let '(sign, s) :=
    match s with
    | String "+" s' => (1, s')
    | String "-" s' => (-1, s')
    | _ => (1, s)
    end in
  let '(ds, rest) := span gu_ascii_isdigit s in
  VDec sign (digits_value 10 gu_ascii_digit_value ds)
    (match rest with
     | String "." s' => (span gu_ascii_isdigit s').1
     | _ => EmptyString
     end).

(** A decimal as a numerator over a power of ten. *)
Definition decimal (v : scanval) : Z * Z :=
  match v with
  | VDec sign whole fraction =>
      let scale := 10 ^ strlen fraction in
      (sign * (whole * scale + digits_value 10 gu_ascii_digit_value fraction), scale)
  | VInt n => (n, 1)
  | VStr _ => (0, 1)
  end.

(** d->version == version *)
Definition same_version (a b : scanval) : bool :=
  let '(n, d) := decimal a in
  let '(m, e) := decimal b in
  n * e =? m * d.

Definition zero_version : scanval := VDec 1 0 EmptyString.

Section resources.
Context `{DriverConfig} `{ResourceConfig}.

(** * findres.c *)

Definition ppr_fname {S} (pattern : string) (va : list farg) : M S string :=
  match ppr_fnamef pattern va with
  | Fname name => mret name
  | FnameThrow msg => gu_Throw msg
  end.

Definition try_resource_dir {S} (cachedir res_type res_name : string) (version : scanval)
    (revision : Z) : M S (option string) :=
  resource_fname ←
    (if String.eqb res_type "procset"
     then ppr_fname "%s/procset/%s-%s-%d" [AS cachedir; AS res_name; AS (dtostr version); AD revision]
     else ppr_fname "%s/%s/%s" [AS cachedir; AS res_type; AS res_name]);
  mret (if bool_decide (is_Some (resource_files !! resource_fname)) then Some resource_fname else None).

(** The features and the file of the font's entry; one that is not complete is
    passed over. *)
Fixpoint search_fontindex (res_name : string) (lines : list string) : option (Z * string) :=
  match lines with
  | [] => None
  | line :: lines' =>
      if String.prefix "#" line then search_fontindex res_name lines'
      else
        match gu_strsep_all ":" line with
        | f1 :: fields =>
            if String.eqb f1 res_name then
              match fields with
              | (String _ _ as f2) :: (String _ _ as f3) :: _ => Some (atoi f2, f3)
              | _ => search_fontindex res_name lines'
              end
            else search_fontindex res_name lines'
        | [] => search_fontindex res_name lines'
        end
  end.

Definition try_fontindex (res_name : string) : option (Z * string) :=
  FONT_INDEX ≫= λ index, search_fontindex res_name (file_lines index).

(** The file, and the features of a font. *)
Definition find_resource {S} (res_type res_name : string) (version : scanval) (revision : Z)
    : M S (option string * Z) :=
  if String.eqb res_type "font" then
    match try_fontindex res_name with
    | Some (features, fname) => mret (Some fname, features)
    | None => mret (None, 0)
    end
  else
    fname ← try_resource_dir RESOURCEDIR res_type res_name version revision;
    mret (fname, 0).

(** * The list *)

Definition add_drvres (needed fixinclude : bool) (type name : string) (version : scanval)
    (revision : Z) (d : DRVRES → DRVRES) : V unit :=
  let font := String.eqb type "font" in
  modify (λ v, set_v_drvres (v_drvres v ++
    [d (mkRes needed type name version revision None None None false false
      (fixinclude && font) (fixinclude && negb font))]) v).

(** Where it will be sent, wherever it was. *)
Definition force (type : string) (d : DRVRES) : DRVRES :=
  if String.eqb type "font" then set_r_force_into_docsetup true d
  else set_r_force_into_prolog true d.

Fixpoint find_drvres (type name : string) (l : list DRVRES) : option nat :=
  match l with
  | [] => None
  | d :: l' =>
      if String.eqb (r_type d) type && String.eqb (r_name d) name then Some 0%nat
      else S <$> find_drvres type name l'
  end.

Definition add_resource (type name : string) (version : scanval) (revision : Z) : V Z :=
  drvres ← gets v_drvres;
  match find_drvres type name drvres with
  | Some x => modify (set_v_drvres (alter (force type) x drvres));; mret 0
  | None =>
      let add fnptr :=
        add_drvres false false type name version revision (λ d, force type (set_r_filename fnptr d));;
        mret 0 in
      if String.eqb type "font" && ppd_font_present name dc_ppd then add None
      else
        '(fnptr, _) ← find_resource type name version revision;
        match fnptr with
        | Some _ => add fnptr
        | None => mret (-1)
        end
  end.

(** want_ttrasterizer(): a static variable says that it was decided before. *)
Definition want_ttrasterizer : V unit :=
  decided ← gets v_ttrasterizer_decided;
  when (negb decided)
    (modify (set_v_ttrasterizer_decided true);;
     let TTRasterizer := f_TTRasterizer (d_Features dc_ppd) in
     if TTRasterizer =? TT_TYPE42 then modify (set_v_type42_ok true)
     else if TTRasterizer =? TT_ACCEPT68K then
       drvres ← gets v_drvres;
       match find_drvres "file" "adobe_psp_TrueType" drvres with
       | Some _ => modify (set_v_type42_ok true)
       | None =>
           added ← add_resource "procset" "TrueDict" (VDec 1 27 EmptyString) 0;
           modify (set_v_type42_ok (added =? 0))
       end
     else modify (set_v_type42_ok false)).

(** * Sending a resource *)

Definition send_font_tt (filename : string) : V unit :=
  type42_ok ← gets v_type42_ok;
  out (send_ttf (resource_files !! filename) (if (type42_ok : bool) then 42 else 3)).

Definition open_resource (filename : string) : V string :=
  match resource_files !! filename with
  | Some file => mret file
  | None => fatal EXIT_JOBERR "The resource file can't be opened"
  end.

(** The name and, of a procedure set, the version. *)
Definition name_resource (start type name : string) (version : scanval) (revision : Z) : V unit :=
  if String.eqb type "procset"
  then printf (start +:+ "%s %s %s %d" +:+ of_chars [chr 10])
         [AS type; AS (quote name); AS (dtostr version); AD revision]
  else printf (start +:+ "%s %s" +:+ of_chars [chr 10]) [AS type; AS (quote name)].

Definition resource_content (d : DRVRES) (type name filename : string) (version : scanval)
    (revision : Z) : V unit :=
  if r_dot_ttf d then
    printf ("%%%%BeginResource: font %s" +:+ of_chars [chr 10]) [AS (quote name)];;
    send_font_tt filename;;
    putline "%%EndResource"
  else if r_mactt d then
    printf ("%%%%BeginResource: font %s" +:+ of_chars [chr 10]) [AS (quote name)];;
    file ← open_resource filename;
    type42_ok ← gets v_type42_ok;
    out (send_font_mactt type42_ok (f_TTRasterizer (d_Features dc_ppd)) file);;
    putline "%%EndResource"
  else
    name_resource "%%%%BeginResource: " type name version revision;;
    file ← open_resource filename;
    match file with
    | EmptyString => mret tt
    | String c _ =>
        if code c =? 128 then out (send_font_pfb file) else puts file
    end;;
    putline "%%EndResource".

(** A font under the name of another one. *)
Definition substitution (former_name name : string) (subst_code : option string) : V unit :=
  printf ("/%s /%s findfont %%PPR" +:+ of_chars [chr 10]) [AS former_name; AS name];;
  match subst_code with
  | Some subst_code =>
      printf ("%s makefont %%PPR user supplied matrix" +:+ of_chars [chr 10]) [AS subst_code]
  | None => mret tt
  end;;
  putlines
    ["dup maxlength 1 add dict /ppr_subfont exch def %PPR";
     "{exch dup /FID ne %PPR";
     " {exch ppr_subfont 3 1 roll put} %PPR";
     " {pop pop} %PPR";
     " ifelse %PPR";
     "} forall %PPR";
     "ppr_subfont %PPR";
     "definefont pop %PPR"].

Definition is_resource (type name : string) (version : scanval) (revision : Z) (d : DRVRES) : bool :=
  String.eqb (r_type d) type
  && (String.eqb (r_name d) name || bool_decide (r_former_name d = Some name))
  && same_version (r_version d) version && (r_revision d =? revision).

Definition include_resource_2 (type name : string) (version : scanval) (revision : Z)
    (forcing_prolog forcing_docsetup : bool) : V unit :=
  drvres ← gets v_drvres;
  match List.find (is_resource type name version revision) drvres with
  | None => fatal EXIT_JOBERR "include_resource_2(): not in the resource list"
  | Some d =>
      if negb forcing_prolog && r_force_into_prolog d then mret tt
      else if negb forcing_docsetup && r_force_into_docsetup d then mret tt
      else
        let name := match r_former_name d with Some _ => r_name d | None => name end in
        match r_filename d with
        | Some filename => resource_content d type name filename version revision
        | None => name_resource "%%%%IncludeResource: " type name version revision
        end;;
        match r_former_name d with
        | Some former_name => substitution former_name (r_name d) (r_subst_code d)
        | None => mret tt
        end
  end.

Definition include_resource : V unit :=
  type ← token 1;
  name ← token 2;
  version ← token 3;
  revision ← token 4;
  match type, name with
  | Some type, Some name =>
      match version, revision with
      | Some version, Some revision =>
          if String.eqb type "procset"
          then include_resource_2 type name (gu_getdouble version) (atoi revision) false false
          else include_resource_2 type name zero_version 0 false false
      | _, _ => include_resource_2 type name zero_version 0 false false
      end
  | _, _ => mret tt
  end.

(** * Resources in the job *)

(** The loops up to the end of the resource; [next] is dgetline(infile). *)
Fixpoint resource_lines (fuel : nat) (next : V bool) (keep : bool) : V unit :=
  match fuel with
  | 0%nat => λ _, Stopped SFuel
  | S fuel' =>
      when keep write_line;;
      line ← the_line;
      if String.eqb line "%%EndResource" then mret tt
      else
        got ← next;
        when got (resource_lines fuel' next keep)
  end.

(** The entry of the resource; if there is none, d is left at the last one. *)
Definition drvres_or_last (type name : string) (drvres : list DRVRES) : option DRVRES :=
  match find_drvres type name drvres with
  | Some x => drvres !! x
  | None => last drvres
  end.

Definition begin_resource (fuel : nat) (next : V bool) : V unit :=
  type ← token 1;
  name ← token 2;
  v ← gets id;
  match type, name with
  | Some type, Some name =>
      match drvres_or_last type name (v_drvres v) with
      | None => fatal EXIT_JOBERR "begin_resource(): assertion failed"
      | Some d =>
          if (r_force_into_prolog d && negb (v_doing_prolog v))
             || (r_force_into_docsetup d && negb (v_doing_docsetup v))
             || (truth (j_StripPrinter dc_job) && String.eqb type "font"
                 && ppd_font_present name dc_ppd)
          then
            printf ("%%%%IncludeResource: %s %s" +:+ of_chars [chr 10]) [AS type; AS name];;
            resource_lines fuel next false
          else resource_lines fuel next true
      end
  | _, _ => resource_lines fuel next true
  end.

(** * Resources that are moved *)

Fixpoint insert_each (which : DRVRES → bool) (forcing_prolog forcing_docsetup : bool)
    (drvres : list DRVRES) : V unit :=
  match drvres with
  | [] => mret tt
  | d :: drvres' =>
      when (which d)
        (include_resource_2 (r_type d) (r_name d) (r_version d) (r_revision d)
           forcing_prolog forcing_docsetup);;
      insert_each which forcing_prolog forcing_docsetup drvres'
  end.

Definition insert_extra_prolog_resources : V unit :=
  drvres ← gets v_drvres;
  insert_each r_force_into_prolog true false drvres.

Definition insert_noinclude_fonts : V unit :=
  drvres ← gets v_drvres;
  insert_each r_force_into_docsetup false true drvres.

(** * The comments of the header *)

(** A list that begins with one comment and goes on with "%%+". *)
Fixpoint resource_list (heading : string) (started : bool) (drvres : list DRVRES) : V unit :=
  match drvres with
  | [] => mret tt
  | d :: drvres' =>
      puts (if started then "%%+ " else heading);;
      name_resource EmptyString (r_type d) (r_name d) (r_version d) (r_revision d);;
      resource_list heading true drvres'
  end.

Definition write_resource_comments : V unit :=
  drvres ← gets v_drvres;
  resource_list "%%DocumentNeededResources: " false (List.filter r_needed drvres);;
  resource_list "%%DocumentSuppliedResources: " false (List.filter (λ d, negb (r_needed d)) drvres).
End resources.
