(* ===== verification/Capable.v ===== *)
(** Whether the printer can print the job (src/pprdrv/pprdrv_capable.c): the
    resources it needs, which are looked for, and substituted; its requirements;
    language level, colour, codes and limits; and what the log and the queue file
    are told. *)
From S2P Require Import Prelude.
From S2P Require Import Text.
From S2P Require Import Spooler.
From S2P Require Import DriverOutput.
From S2P Require Import JobFile.
From S2P Require Import QueueFile.
From S2P Require Import Tokens.
From S2P Require Import ReadPpd.
From S2P Require Import Ppd.
From S2P Require Import Document.
From S2P Require Import Resources.

(** * gu_strsep_quoted() (src/libgu/gu_strsep2.c), without a list of what to
    discard *)

(** Up to the closing quote, which must come: the copy, and what is behind. *)
Fixpoint quoted_field (si : string) : option (string * string) :=
  match si with
  | EmptyString => None
  | String c si' =>
      if Ascii.eqb c double_quote then Some (EmptyString, si')
      else if Ascii.eqb c "\" then
        match si' with
        | EmptyString => None
        | String d si'' =>
            '(copy, rest) ← quoted_field si'';
            Some (String d copy, rest)
        end
      else
        '(copy, rest) ← quoted_field si';
        Some (String c copy, rest)
  end.

Definition strsep_quoted (delim : ascii → bool) (p : option string) : option string * option string :=
  match p with
  | None => (None, None)
  | Some s =>
      match s with
      | String c si =>
          if Ascii.eqb c double_quote then
            match quoted_field si with
            | None => (None, Some s)
            | Some (copy, rest) =>
                (Some copy,
                 match rest with
                 | String d rest' => if delim d then Some rest' else None
                 | EmptyString => None
                 end)
            end
          else strsep delim p
      | EmptyString => strsep delim p
      end
  end.

(** * The printer, and the state *)

Definition PROOFMODE_NOTIFYME : Z := -1.
Definition PROOFMODE_SUBSTITUTE : Z := 0.
Definition PROOFMODE_TRUSTME : Z := 1.

Definition CODES_DEFAULT : Z := -1.
Definition CODES_UNKNOWN : Z := 0.
Definition CODES_Clean7Bit : Z := 1.
Definition CODES_Clean8Bit : Z := 2.
Definition CODES_Binary : Z := 3.
Definition CODES_TBCP : Z := 4.

Definition FONT_TYPE_1 : Z := 1.
Definition FONT_TYPE_42 : Z := 4.
Definition FONT_MACTRUETYPE : Z := 8.
Definition FONT_TYPE_TTF : Z := 16.

Definition MAX_DRVREQ : nat := 40.

(** What the function uses of the printer's configuration, and the file of the
    substitutions if it can be opened. *)
Class CapableConfig := {
  cc_Name : string;
  cc_GrayOK : bool;
  cc_Codes : Z;
  cc_limit_pages : Z * Z;
  cc_limit_kilobytes : Z * Z;
  cc_FONTSUB : option string;
}.

(** The driver's variables, the log, and the variables of the function and of
    its file. *)
Record capable := mkCap {
  k_doc : doc;
  k_log : string;
  k_said_incapable : bool;
  k_said_willtry : bool;
  k_drvreq : list string;
  k_incapable : bool;
  k_fonts : Z;
  k_resources : Z;
  k_requirements : Z;
  k_prohibitions : Z;
  k_codes : Z;
  k_pageslimit : Z;
  k_kilobyteslimit : Z;
  k_color_document : bool;
}.

Definition eta_capable (k : capable) : capable :=
  mkCap (k_doc k) (k_log k) (k_said_incapable k) (k_said_willtry k) (k_drvreq k) (k_incapable k)
    (k_fonts k) (k_resources k) (k_requirements k) (k_prohibitions k) (k_codes k) (k_pageslimit k)
    (k_kilobyteslimit k) (k_color_document k).

Definition set_k_doc : doc → capable → capable := ltac:(setter eta_capable k_doc).
Definition set_k_log : string → capable → capable := ltac:(setter eta_capable k_log).
Definition set_k_said_incapable : bool → capable → capable := ltac:(setter eta_capable k_said_incapable).
Definition set_k_said_willtry : bool → capable → capable := ltac:(setter eta_capable k_said_willtry).
Definition set_k_drvreq : list string → capable → capable := ltac:(setter eta_capable k_drvreq).
Definition set_k_incapable : bool → capable → capable := ltac:(setter eta_capable k_incapable).
Definition set_k_fonts : Z → capable → capable := ltac:(setter eta_capable k_fonts).
Definition set_k_resources : Z → capable → capable := ltac:(setter eta_capable k_resources).
Definition set_k_requirements : Z → capable → capable := ltac:(setter eta_capable k_requirements).
Definition set_k_prohibitions : Z → capable → capable := ltac:(setter eta_capable k_prohibitions).
Definition set_k_codes : Z → capable → capable := ltac:(setter eta_capable k_codes).
Definition set_k_pageslimit : Z → capable → capable := ltac:(setter eta_capable k_pageslimit).
Definition set_k_kilobyteslimit : Z → capable → capable := ltac:(setter eta_capable k_kilobyteslimit).
Definition set_k_color_document : bool → capable → capable := ltac:(setter eta_capable k_color_document).

Definition set_r_needed : bool → DRVRES → DRVRES := ltac:(setter eta_DRVRES r_needed).
Definition set_r_name : string → DRVRES → DRVRES := ltac:(setter eta_DRVRES r_name).
Definition set_r_former_name : option string → DRVRES → DRVRES := ltac:(setter eta_DRVRES r_former_name).
Definition set_r_subst_code : option string → DRVRES → DRVRES := ltac:(setter eta_DRVRES r_subst_code).
Definition set_r_dot_ttf : bool → DRVRES → DRVRES := ltac:(setter eta_DRVRES r_dot_ttf).
Definition set_r_mactt : bool → DRVRES → DRVRES := ltac:(setter eta_DRVRES r_mactt).

Abbreviation C := (M capable).

(** A routine of the driver's other files. *)
Definition dv {A} (m : V A) : C A := λ k,
  match m (k_doc k) with
  | Done a v => Done a (set_k_doc v k)
  | Thrown e v => Thrown e (set_k_doc v k)
  | Stopped r => Stopped r
  end.

(** variable++ *)
Definition count (get : capable → Z) (set : Z → capable → capable) : C unit :=
  modify (λ k, set (get k + 1) k).

Section capable.
Context `{DriverConfig} `{ResourceConfig} `{CapableConfig} (group_pass : Z).

(** * The log *)

Definition log_printf (text : string) : C unit := modify (λ k, set_k_log (k_log k +:+ text) k).

Definition line_end : string := of_chars [chr 10].
Definition in_quotes (s : string) : string := String double_quote (s +:+ String double_quote EmptyString).

(** Nothing ever sets log_started. *)
Definition start_incapable_log : C unit :=
  if group_pass =? 0 then mret tt
  else if group_pass =? 1 then log_printf ("+Pass 1" +:+ line_end)
  else
    log_printf ("+Pass " +:+ fmt_d group_pass +:+ ", ProofMode=" +:+
      (if j_proofmode dc_job =? PROOFMODE_TRUSTME then "TrustMe"
       else if j_proofmode dc_job =? PROOFMODE_SUBSTITUTE then "Substitute" else "NotifyMe") +:+ line_end).

Definition log_reason (reason : string) : C unit := log_printf ("+" +:+ reason +:+ line_end).

Definition incapable_log (reason : string) : C unit :=
  start_incapable_log;;
  said ← gets k_said_incapable;
  when (negb said)
    (log_printf ("+Job turned away from printer " +:+ in_quotes cc_Name +:+
       " for the following reason(s):" +:+ line_end);;
     modify (set_k_said_incapable true));;
  log_reason reason.

Definition incapable_log_willtry (reason : string) : C unit :=
  start_incapable_log;;
  said_willtry ← gets k_said_willtry;
  said_incapable ← gets k_said_incapable;
  when (negb said_willtry && negb said_incapable)
    (log_printf ("+Printer " +:+ in_quotes cc_Name +:+
       " may not print this job correctly for the following reason(s):" +:+ line_end);;
     modify (set_k_said_willtry true));;
  log_reason reason.

(** A reason not to print the job. *)
Definition turn_away (reason : string) : C unit :=
  incapable_log reason;;
  modify (set_k_incapable true).

(** * Resources *)

Definition internal_resources : list (string * string * Z) :=
  [("encoding", "StandardEncoding", 1);
   ("encoding", "SymbolEncoding", 1);
   ("encoding", "ISOLatin1Encoding", 2);
   ("procset", "CIDInit", 3);
   ("ProcSet", "CIDInit", 3)].

Definition is_internal (type name : string) : bool :=
  existsb (λ '(t, n, minlevel),
    String.eqb type t && String.eqb name n && (minlevel <=? f_LanguageLevel (d_Features dc_ppd)))
    internal_resources.

(** The entry the pointer [d] points at. *)
Definition upd_res (d : nat) (f : DRVRES → DRVRES) : C unit :=
  modify (λ k, set_k_doc (set_v_drvres (alter f d (v_drvres (k_doc k))) (k_doc k)) k).

(** want_ttrasterizer() may add to the array; when that has no room left it is
    moved, and [d] points nowhere. *)
Definition want_rasterizer : C bool :=
  before ← gets (λ k, length (v_drvres (k_doc k)));
  dv want_ttrasterizer;;
  after ← gets (λ k, length (v_drvres (k_doc k)));
  if negb (Nat.eqb before after) && (Z.of_nat before mod 100 =? 0)
  then undef "d points into an array that has been moved"
  else gets (λ k, v_type42_ok (k_doc k)).

Definition has_type (type features : Z) : bool := negb (Z.land features type =? 0).

(** What the features of a font that was found ask for: nothing will do ([false])
    when it has only a Type 42 form and the printer no rasterizer. *)
Definition font_form (d : nat) (features : Z) : C bool :=
  if has_type FONT_TYPE_42 features then
    type42_ok ← want_rasterizer;
    mret ((type42_ok : bool) || has_type FONT_TYPE_1 features)
  else if has_type FONT_TYPE_TTF features then
    want_rasterizer;;
    upd_res d (set_r_dot_ttf true);;
    mret true
  else mret true.

Definition use_file (d : nat) (fnptr : string) (features : Z) : C unit :=
  upd_res d (set_r_filename (Some fnptr));;
  when (has_type FONT_MACTRUETYPE features) (upd_res d (set_r_mactt true)).

(** ** Substitution *)

Definition sub_space (c : ascii) : bool := is_blank c || (code c =? 10).

Definition is_comment (temp : string) : bool :=
  String.prefix ";" temp || String.prefix "#" temp
  || match drop_while sub_space temp with EmptyString => true | _ => false end.

Definition heading (temp : string) : bool :=
  match temp with String c _ => negb (gu_ascii_isspace c) | EmptyString => true end.

(** The font, and the code, of a line of an entry; a line that ends with the name
    is read on behind its end. *)
Definition candidate (temp : string) : option (string * string) :=
  let ptr := drop_while is_blank temp in
  match from sub_space ptr with
  | EmptyString => None
  | String _ codeptr =>
      Some (before sub_space ptr, before (λ c, code c =? 10) (drop_while sub_space codeptr))
  end.

Definition substitute_with (d : nat) (oldname name codeptr : string) : C bool :=
  upd_res d (λ r, set_r_needed false (set_r_name name (set_r_former_name (Some (r_name r)) r)));;
  when (negb (String.eqb codeptr EmptyString)) (upd_res d (set_r_subst_code (Some codeptr)));;
  incapable_log_willtry ("Font " +:+ in_quotes name +:+ " substituted for " +:+ in_quotes oldname);;
  mret true.

Fixpoint font_substitution (fuel : nat) (d : nat) (name : string) (in_entry : bool) (subfile : string)
    : C bool :=
  match fuel with
  | 0%nat => λ _, Stopped SFuel
  | S fuel' =>
      match subfile with
      | EmptyString => mret false
      | _ =>
          let '(temp, subfile) := fgets 80 subfile in
          if is_comment temp then font_substitution fuel' d name in_entry subfile
          else if negb in_entry then
            font_substitution fuel' d name
              (heading temp && String.eqb name (before sub_space temp)) subfile
          else if heading temp then mret false
          else
            match candidate temp with
            | None => undef "behind the line"
            | Some (ptr, codeptr) =>
                if ppd_font_present ptr dc_ppd then substitute_with d name ptr codeptr
                else
                  '(fnptr, features) ← dv (find_resource "font" ptr zero_version 0);
                  match fnptr with
                  | None => font_substitution fuel' d name true subfile
                  | Some fnptr =>
                      ok ← font_form d features;
                      if (ok : bool) then
                        use_file d fnptr features;;
                        substitute_with d name ptr codeptr
                      else
                        incapable_log_willtry ("Can't substitute " +:+ in_quotes ptr +:+ " for " +:+
                          in_quotes name +:+ " because it has no Type1 section.");;
                        font_substitution fuel' d name true subfile
                  end
            end
      end
  end.

(** ** A resource that was not found *)

Definition not_available (r : DRVRES) : string :=
  "Resource " +:+ in_quotes (r_type r +:+ " " +:+ r_name r +:+
    (if String.eqb (r_type r) "procset"
     then " " +:+ dtostr (r_version r) +:+ " " +:+ fmt_d (r_revision r) else EmptyString)) +:+
  " not available.".

(** Can the job be tried without it? *)
Definition may_go_without (font : bool) : bool :=
  negb (j_proofmode dc_job =? PROOFMODE_NOTIFYME)
  && ((j_proofmode dc_job =? PROOFMODE_TRUSTME) || font)
  && negb (group_pass =? 1).

Definition missing_resource (font : bool) (r : DRVRES) : C unit :=
  (if font then count k_fonts set_k_fonts else count k_resources set_k_resources);;
  if may_go_without font then incapable_log_willtry (not_available r)
  else turn_away (not_available r).

(** ** A resource *)

Definition try_substitution (d : nat) (font : bool) (name : string) : C bool :=
  if font && (j_proofmode dc_job =? PROOFMODE_SUBSTITUTE) then
    match cc_FONTSUB with
    | Some subfile => font_substitution (S (String.length subfile)) d name false subfile
    | None => mret false
    end
  else mret false.

Definition seek_resource (d : nat) (r : DRVRES) : C unit :=
  let font := String.eqb (r_type r) "font" in
  if font && ppd_font_present (r_name r) dc_ppd then mret tt
  else if is_internal (r_type r) (r_name r) then mret tt
  else
    '(fnptr, features) ← dv (find_resource (r_type r) (r_name r) (r_version r) (r_revision r));
    match fnptr with
    | Some fnptr =>
        ok ← font_form d features;
        if (ok : bool) then
          upd_res d (set_r_filename (Some fnptr));;
          upd_res d (set_r_needed false);;
          when (has_type FONT_MACTRUETYPE features) (upd_res d (set_r_mactt true))
        else
          turn_away ("Font " +:+ in_quotes (r_name r) +:+
            " has no Type1 section and printer has no TT rasterizer")
    | None =>
        done ← try_substitution d font (r_name r);
        if (done : bool) then mret tt else missing_resource font r
    end.

(** The fields of a "Res:" line. *)
Definition res_line (qline : string) : option (string * string * string * string * string * string) :=
  let space := Ascii.eqb " " in
  let '(f0, p) := strsep space (Some qline) in
  let '(f1, p) := strsep space p in
  let '(f2, p) := strsep space p in
  let '(f3, p) := strsep space p in
  let '(f4, p) := strsep_quoted space p in
  let '(f5, p) := strsep space p in
  let '(f6, _) := strsep space p in
  _ ← f0; f1 ← f1; f2 ← f2; f3 ← f3; f4 ← f4; f5 ← f5; f6 ← f6;
  Some (f1, f2, f3, f4, f5, f6).

(** gu_strsep() has put a NUL behind the first field. *)
Definition too_few {A} (qline : string) : C A :=
  fatal EXIT_JOBERR ("Queue file line has too few arguments: " +:+
    before (Ascii.eqb " ") qline).

Fixpoint check_resources (qfile : list string) : C (list string) :=
  match qfile with
  | [] => mret []
  | qline :: qfile' =>
      if String.eqb qline "EndRes" then mret qfile'
      else if negb (String.prefix "Res:" qline)
      then fatal EXIT_JOBERR ("Queue file does not begin with " +:+ in_quotes "Res:" +:+ ": " +:+ qline)
      else
        match res_line qline with
        | None => too_few qline
        | Some (f1, f2, type, name, version, revision) =>
            d ← gets (λ k, length (v_drvres (k_doc k)));
            let needed := truth (atoi f1) in
            dv (add_drvres needed (truth (atoi f2)) type name (gu_getdouble version) (atoi revision) id);;
            r ← gets (λ k, v_drvres (k_doc k) !! d);
            match r with
            | Some r => when needed (seek_resource d r)
            | None => mret tt
            end;;
            check_resources qfile'
        end
  end.

(** * Requirements *)

(** Whether the printer meets it; colour is noted. *)
Definition meets (req : string) : C bool :=
  let Features := d_Features dc_ppd in
  if String.eqb req "color" then
    modify (set_k_color_document true);;
    mret (f_ColorDevice Features)
  else if String.eqb req "duplex" then
    code ← find_feature dc_ppd "*Duplex" (Some "None");
    mret (bool_decide (is_Some code))
  else if String.eqb req "duplex(tumble)" then
    code ← find_feature dc_ppd "*Duplex" (Some "DuplexTumble");
    mret (bool_decide (is_Some code))
  else if String.eqb req "fax" then mret (negb (f_FaxSupport Features =? FAXSUPPORT_NONE))
  else mret true.

Definition unmet_requirement (req : string) : C unit :=
  count k_requirements set_k_requirements;;
  let reason := "Requirement " +:+ in_quotes req +:+ " can't be met." in
  if (j_proofmode dc_job =? PROOFMODE_NOTIFYME) || (group_pass =? 1)
  then turn_away reason
  else incapable_log_willtry reason.

(** The second field of the line. *)
Definition req_line (qline : string) : option string :=
  let '(_, p) := strsep (Ascii.eqb " ") (Some qline) in
  (strsep (Ascii.eqb " ") p).1.

Fixpoint check_requirements (qfile : list string) : C unit :=
  match qfile with
  | [] => mret tt
  | qline :: qfile' =>
      if String.eqb qline "EndReq" then mret tt
      else
        drvreq ← gets k_drvreq;
        if Nat.leb MAX_DRVREQ (length drvreq)
        then fatal EXIT_JOBERR "internal pprdrv error: DRVREQ overflow"
        else if negb (String.prefix "Req:" qline)
        then fatal EXIT_JOBERR ("Queue file line does not begin with " +:+ in_quotes "Req:" +:+ ": " +:+ qline)
        else
          match req_line qline with
          | None => too_few qline
          | Some req =>
              modify (set_k_drvreq (drvreq ++ [req]));;
              met ← meets req;
              when (negb met) (unmet_requirement req);;
              check_requirements qfile'
          end
  end.

(** * Other attributes of the job *)

Definition check_language : C unit :=
  let Features := d_Features dc_ppd in
  when (f_LanguageLevel Features <? j_langlevel dc_job)
    (turn_away ("Required language level (" +:+ fmt_d (j_langlevel dc_job) +:+
       ") exceeds printer's language level (" +:+ fmt_d (f_LanguageLevel Features) +:+ ").");;
     count k_requirements set_k_requirements);;
  when ((f_LanguageLevel Features <? 2)
        && negb (Z.land (j_extensions dc_job) (Z.lnot (f_Extensions Features)) =? 0))
    (turn_away "Printer does not have all required extensions.";;
     count k_requirements set_k_requirements).

Definition check_colour : C unit :=
  color_document ← gets k_color_document;
  when (negb color_document && negb cc_GrayOK)
    (turn_away "Printer is not permitted to print grayscale documents.";;
     count k_prohibitions set_k_prohibitions).

Definition required_codes : C Z :=
  let docdata := j_docdata dc_job in
  if docdata =? CODES_UNKNOWN then mret 0
  else if docdata =? CODES_Clean7Bit then mret 1
  else if docdata =? CODES_Clean8Bit then mret 2
  else if docdata =? CODES_Binary then mret 3
  else if (docdata =? CODES_TBCP) || (docdata =? CODES_DEFAULT)
  then fatal EXIT_PRNERR_NORETRY "check_if_capable(): assertion failed"
  else undef "required is not set".

Definition available_codes : C Z :=
  if cc_Codes =? CODES_UNKNOWN then mret 100
  else if cc_Codes =? CODES_Clean7Bit then mret 1
  else if cc_Codes =? CODES_Clean8Bit then mret 2
  else if (cc_Codes =? CODES_Binary) || (cc_Codes =? CODES_TBCP) then mret 3
  else if cc_Codes =? CODES_DEFAULT
  then fatal EXIT_PRNERR_NORETRY "check_if_capable(): assertion failed"
  else undef "available is not set".

Definition check_codes : C unit :=
  required ← required_codes;
  available ← available_codes;
  when (available <? required)
    (turn_away "Communications channel cannot pass required codes.";;
     count k_codes set_k_codes).

Definition outside (n : Z) (limits : Z * Z) : bool :=
  (n <? limits.1) || ((0 <? limits.2) && (limits.2 <? n)).

Definition allowed (limits : Z * Z) : string :=
  " but allowed range for this printer is " +:+ fmt_d limits.1 +:+ "--" +:+ fmt_d limits.2 +:+ ".".

Definition check_limits : C unit :=
  let pages := j_pages dc_job in
  when ((0 <? pages) && outside pages cc_limit_pages)
    (turn_away ("Job has " +:+ fmt_d pages +:+ " pages" +:+ allowed cc_limit_pages);;
     count k_pageslimit set_k_pageslimit);;
  let kilobytes := i32 (Z.quot (j_postscript_bytes dc_job) 1024) in
  when (outside kilobytes cc_limit_kilobytes)
    (turn_away ("Job is " +:+ fmt_d kilobytes +:+ " kilobytes long" +:+ allowed cc_limit_kilobytes);;
     count k_kilobyteslimit set_k_kilobyteslimit).

(** * The reason *)

(** Parts separated by commas; the number of prohibitions is given as that of
    requirements, but there is never more than one. *)
Definition parts_of_reason (k : capable) : list string :=
  (if k_fonts k =? 0 then []
   else [if 1 <? k_fonts k then fmt_d (k_fonts k) +:+ " missing fonts" else "1 missing font"]) ++
  (let other := if k_fonts k =? 0 then EmptyString else "other " in
   if k_resources k =? 0 then []
   else [if 1 <? k_resources k then fmt_d (k_resources k) +:+ " " +:+ other +:+ "missing rsrcs"
         else "1 " +:+ other +:+ "missing rsrc"]) ++
  (if k_requirements k =? 0 then []
   else [if 1 <? k_requirements k then fmt_d (k_requirements k) +:+ " ptr incompatibilities"
         else "1 ptr incompatiblity"]) ++
  (if k_prohibitions k =? 0 then []
   else [if 1 <? k_prohibitions k then fmt_d (k_requirements k) +:+ " ptr prohibitions"
         else "1 ptr prohibition"]) ++
  (if k_codes k =? 0 then [] else ["unpassable codes"]) ++
  (if k_pageslimit k =? 0 then [] else ["outside pages limits"]) ++
  (if k_kilobyteslimit k =? 0 then [] else ["outside kilobytes limits"]).

Definition say_why : C unit :=
  k ← gets id;
  when (k_incapable k && (group_pass <? 2))
    (match parts_of_reason k with
     | [] => mret tt
     | parts => dv (give_reason (String.concat "," parts))
     end).

(** * check_if_capable() *)

(** The variables when the function is called, for it is called once. *)
Definition capable_start (v : doc) : capable := mkCap v EmptyString false false [] false 0 0 0 0 0 0 0 false.

(** [qfile] are the lines of the queue file from its resources on. *)
Definition check_if_capable (qfile : list string) : C bool :=
  qfile ← check_resources qfile;
  check_requirements qfile;;
  check_language;;
  check_colour;;
  check_codes;;
  check_limits;;
  say_why;;
  gets k_incapable.
End capable.
