(* ===== verification/Things.v ===== *)
(** What ppr gathers of a job: the resources, media and requirements it names
    (src/ppr/ppr_res.c, ppr_media.c, ppr_req.c, ppr_things.c), the nesting of
    documents (ppr_nest.c), and the division of a job into parts (ppr_split.c).
    What is printed for debugging is left out. *)
From S2P Require Import Prelude.
From S2P Require Import Text.
From S2P Require Import Spooler.
From S2P Require Import JobFile.
From S2P Require Import QueueFile.
From S2P Require Import Tokens.
From S2P Require Import ReadPpd.
From S2P Require Import Document.
From S2P Require Import Resources.
From S2P Require Import Capable.

(** * Data *)

Definition REREF_NEEDED : Z := 1.
Definition REREF_SUPPLIED : Z := 2.
Definition REREF_INCLUDE : Z := 4.
Definition REREF_REALLY_SUPPLIED : Z := 8.
Definition REREF_PAGE : Z := 16.
Definition REREF_UNCLEAR : Z := 32.
Definition REREF_REMOVED : Z := 64.
Definition REREF_FIXINCLUDE : Z := 128.

Definition MREF_DOC : Z := 1.
Definition MREF_PAGE : Z := 2.

Definition REQ_DOC : Z := 1.
Definition REQ_PAGE : Z := 2.
Definition REQ_DELETED : Z := 4.

Definition WARNING_PEEVE : Z := 0.
Definition WARNING_SEVERE : Z := 1.

Definition PPREXIT_NOMATCH : Z := 8.
Definition PPREXIT_OTHERERR : Z := 12.
Definition PPREXIT_CONFIG : Z := 13.

Definition NEST_NONE : Z := 0.
Definition NEST_RES : Z := 1.
Definition NEST_DOC : Z := 2.
Definition NEST_BADEPS : Z := 3.
Definition NEST_BADRES : Z := 4.

Definition OUTERMOST_UNDEFINED : Z := 0.
Definition OUTERMOST_PROLOG : Z := 2.

Definition MAX_COLOURNAME : nat := 16.
Definition MAX_TYPENAME : nat := 16.

Record Resource := mkResource {
  R_Type : string;
  R_Name : string;
  R_Version : scanval;
  R_Revision : Z;
}.

(** The strings are padded with blanks. *)
Record Media := mkMedia {
  medianame : string;
  width : scanval;
  height : scanval;
  weight : scanval;
  colour : string;
  type : string;
}.

Inductive thing_kind :=
| TH_RESOURCE (r : Resource)
| TH_MEDIA (m : Media)
| TH_REQUIREMENT (name : string).

Record Thing := mkThing {
  th : thing_kind;
  R_Flags : Z;
}.

Definition set_R_Flags (flags : Z) (t : Thing) : Thing := mkThing (th t) flags.

(** The arguments of a warning, which gives them to printf(). *)
Inductive warg := WS (s : string) | WD (n : Z) | WF (v : scanval).

(** The variables of ppr: things[], what was said, what goes to the -pages file,
    two options of the job, the levels of nesting, the innermost first, and the
    part of the document. *)
Record sub := mkSub {
  s_things : list Thing;
  s_warnings : list (Z * string * list warg);
  s_page_comments : string;
  s_collate : bool;
  s_copies : Z;
  s_nest_stack : list Z;
  s_outermost : Z;
}.

Definition eta_sub (s : sub) : sub :=
  mkSub (s_things s) (s_warnings s) (s_page_comments s) (s_collate s) (s_copies s) (s_nest_stack s) (s_outermost s).

Definition set_s_things : list Thing → sub → sub := ltac:(setter eta_sub s_things).
Definition set_s_warnings : list (Z * string * list warg) → sub → sub := ltac:(setter eta_sub s_warnings).
Definition set_s_page_comments : string → sub → sub := ltac:(setter eta_sub s_page_comments).
Definition set_s_collate : bool → sub → sub := ltac:(setter eta_sub s_collate).
Definition set_s_copies : Z → sub → sub := ltac:(setter eta_sub s_copies).
Definition set_s_nest_stack : list Z → sub → sub := ltac:(setter eta_sub s_nest_stack).
Definition set_s_outermost : Z → sub → sub := ltac:(setter eta_sub s_outermost).

Abbreviation J := (M sub).

(** What ppr was told: options, the levels the document claims, the page it is
    at, the media file, the medium the options name, or the one of ppr.conf or
    what is wrong with it, and what the features of the document make one guess. *)
Class SubConfig := {
  su_DSClevel : scanval;
  su_proofmode : Z;
  su_read_copies : bool;
  su_splitting : bool;
  su_pagenumber : Z;
  su_media_file : list Media;
  su_default_medium : option string;
  su_conf_medium : string + Media;
  su_guess_media : Media;
}.

Definition warning (level : Z) (message : string) (args : list warg) : J unit :=
  modify (λ s, set_s_warnings (s_warnings s ++ [(level, message, args)]) s).

Definition page_puts (text : string) : J unit :=
  modify (λ s, set_s_page_comments (s_page_comments s +:+ text) s).

Definition has (bit flags : Z) : bool := negb (Z.land flags bit =? 0).
Definition clear_bit (bit flags : Z) : Z := Z.land flags (Z.lnot bit).

(** The first of the things that is meant. *)
Fixpoint find_thing (p : Thing → bool) (l : list Thing) : option nat :=
  match l with
  | [] => None
  | t :: l' => if p t then Some 0%nat else S <$> find_thing p l'
  end.

Definition upd_thing (x : nat) (f : Thing → Thing) : J unit :=
  modify (λ s, set_s_things (alter f x (s_things s)) s).

Definition add_thing (t : Thing) : J unit :=
  modify (λ s, set_s_things (s_things s ++ [t]) s).

Definition mark (reftype : Z) (t : Thing) : Thing := set_R_Flags (Z.lor (R_Flags t) reftype) t.

(** * Nesting (ppr_nest.c) *)

Definition str_nest_types (nesttype : Z) : string :=
  if nesttype =? NEST_RES then "resource"
  else if nesttype =? NEST_DOC then "document"
  else if nesttype =? NEST_BADEPS then "bad EPS"
  else if nesttype =? NEST_BADRES then "bad resource"
  else "<INVALID>".

Definition nest_push (leveltype : Z) : J unit :=
  modify (λ s, set_s_nest_stack (leveltype :: s_nest_stack s) s).

(** An end that does not fit is ignored. *)
Definition nest_pop (leveltype : Z) : J unit :=
  nest_stack ← gets s_nest_stack;
  match nest_stack with
  | [] => fatal PPREXIT_OTHERERR "ppr_nest.c: nest_pop(): stack underflow"
  | top :: below =>
      if leveltype =? top then modify (set_s_nest_stack below)
      else warning WARNING_SEVERE "Bad nesting, %s terminated as though it were a %s"
             [WS (str_nest_types top); WS (str_nest_types leveltype)]
  end.

Definition nest_level : J Z := gets (λ s, Z.of_nat (length (s_nest_stack s))).

Definition nest_inermost_type : J Z := gets (λ s, default NEST_NONE (head (s_nest_stack s))).

Definition str_outermost_types (nesttype : Z) : string :=
  if nesttype <? 0 then "<INVALID>"
  else
    nth (Z.to_nat nesttype)
      ["UNDEFINED"; "header comments"; "prolog"; "defaults"; "setup"; "script"; "trailer"] "<INVALID>".

Definition outermost_start (sectioncode : Z) : J unit :=
  outermost ← gets s_outermost;
  when (outermost =? sectioncode)
    (warning WARNING_SEVERE "redundant Begin %s comment" [WS (str_outermost_types sectioncode)]);;
  modify (set_s_outermost sectioncode).

Definition outermost_end (sectioncode : Z) : J unit :=
  outermost ← gets s_outermost;
  when (negb (sectioncode =? outermost))
    (if outermost =? OUTERMOST_UNDEFINED then
       when (negb (sectioncode =? OUTERMOST_PROLOG))
         (warning WARNING_SEVERE "maked end of %s section without marked begin"
            [WS (str_outermost_types sectioncode)])
     else
       warning WARNING_SEVERE "marked end of %s section in %s section"
         [WS (str_outermost_types sectioncode); WS (str_outermost_types outermost)]);;
  modify (set_s_outermost OUTERMOST_UNDEFINED).

Section things.
Context `{SubConfig}.

(** DSClevel >= level *)
Definition DSClevel_reaches (level : Z) : bool :=
  let '(n, d) := decimal su_DSClevel in
  level * d <=? n.

(** ** What a part of the job needs (ppr_split.c): the code that would tell is
    missing. *)
Definition set_thing_bit (bitoffset : nat) : J unit := mret tt.

Definition is_thing_in_current_fragment (thing_number : nat) (fragment : Z) : bool :=
  if negb su_splitting then true
  else if fragment =? 0 then true
  else true.

(** The things of a kind, with the places they have in the array. *)
Definition select {A} (kind : Thing → option A) (fragment : Z) (l : list Thing) : list A :=
  omap (λ '(x, t), if is_thing_in_current_fragment x fragment then kind t else None)
    (zip (seq 0 (length l)) l).

(** * Resources (ppr_res.c) *)

Definition resname_to_str (r : Resource) : string :=
  if String.eqb (R_Type r) "procset"
  then R_Type r +:+ " " +:+ R_Name r +:+ " " +:+ dtostr (R_Version r) +:+ " " +:+ fmt_d (R_Revision r)
  else R_Type r +:+ " " +:+ R_Name r.

Definition all_of (p : ascii → bool) (s : string) : bool := forallb p (chars s).
Definition is_digit_or_point (c : ascii) : bool := gu_ascii_isdigit c || Ascii.eqb c ".".

Definition resource_of (t : Thing) : option Resource := match th t with TH_RESOURCE r => Some r | _ => None end.

Definition same_resource (restype resname : string) (version : scanval) (revision : Z) (t : Thing) : bool :=
  match th t with
  | TH_RESOURCE r =>
      String.eqb (R_Type r) restype && String.eqb (R_Name r) resname
      && same_version (R_Version r) version && (R_Revision r =? revision)
  | _ => false
  end.

(** The version and the revision that follow the name, and the words taken. *)
Definition resource_version (tokens : list string) (restype resname : string) (first : nat)
    : J (scanval * Z * Z) :=
  if String.eqb restype "procset" then
    match tokens !! (first + 1)%nat with
    | Some ptr =>
        if all_of is_digit_or_point ptr then
          match tokens !! (first + 2)%nat with
          | Some ptr2 =>
              if all_of gu_ascii_isdigit ptr2 then mret (gu_getdouble ptr, atoi ptr2, 3)
              else mret (gu_getdouble ptr, 0, 2)
          | None => mret (gu_getdouble ptr, 0, 2)
          end
        else
          warning WARNING_SEVERE ("Procset " +:+ in_quotes "%s" +:+ " has no version and revision numbers") [WS resname];;
          mret (zero_version, 0, 1)
    | None =>
        warning WARNING_SEVERE ("Procset " +:+ in_quotes "%s" +:+ " has no version and revision numbers") [WS resname];;
        mret (zero_version, 0, 1)
    end
  else mret (zero_version, 0, 1).

(** A NULL pointer ends the tokens. *)
Definition resource (tokens : list string) (reftype : Z) (restype : option string) (first : nat) : J Z :=
  match restype, tokens !! first with
  | Some restype, Some resname =>
      '(version, revision, rval) ← resource_version tokens restype resname first;
      things ← gets s_things;
      x ← (match find_thing (same_resource restype resname version revision) things with
           | Some x => mret x
           | None =>
               add_thing (mkThing (TH_RESOURCE (mkResource restype resname version revision)) 0);;
               mret (length things)
           end);
      upd_thing x (mark reftype);;
      when (has REREF_PAGE reftype) (set_thing_bit x);;
      mret rval
  | _, _ => mret 1
  end.

(** for(x = first; tokens[x]; x += resource(...)) *)
Fixpoint resources (fuel : nat) (tokens : list string) (reftype : Z) (restype : option string) (x : nat) : J unit :=
  match fuel with
  | 0%nat => λ _, Stopped SFuel
  | S fuel' =>
      match tokens !! x with
      | None => mret tt
      | Some _ =>
          eaten ← resource tokens reftype restype x;
          resources fuel' tokens reftype restype (x + Z.to_nat eaten)
      end
  end.

Definition resource_clear (reftype : Z) (restype : option string) : J unit :=
  modify (λ s, set_s_things
    ((λ t, match th t with
           | TH_RESOURCE r =>
               if match restype with None => true | Some restype => String.eqb restype (R_Type r) end
               then set_R_Flags (clear_bit reftype (R_Flags t)) t
               else t
           | _ => t
           end) <$> s_things s) s).

(** The type and the name, with the version of a procedure set. *)
Definition resource_comment (r : Resource) : string :=
  if String.eqb (R_Type r) "procset"
  then R_Type r +:+ " " +:+ quote (R_Name r) +:+ " " +:+ dtostr (R_Version r) +:+ " " +:+ fmt_d (R_Revision r)
  else R_Type r +:+ " " +:+ quote (R_Name r).

(** The first has the keyword, the others go to continuation lines. *)
Fixpoint comment_lines (keyword : string) (items : list string) : string :=
  match items with
  | [] => EmptyString
  | item :: items => keyword +:+ item +:+ line_end +:+ comment_lines "%%+ " items
  end.

Definition page_resource (t : Thing) : option Resource :=
  match th t with
  | TH_RESOURCE r => if has REREF_PAGE (R_Flags t) then Some r else None
  | _ => None
  end.

Definition dump_page_resources : J unit :=
  things ← gets s_things;
  page_puts (comment_lines "%%PageResources: " (resource_comment <$> omap page_resource things));;
  modify (set_s_things
    ((λ t, match th t with TH_RESOURCE _ => set_R_Flags (clear_bit REREF_PAGE (R_Flags t)) t | _ => t end) <$> things)).

(** ** Is it clear which resources are there, and which are to come? *)

(** What is said, and the flags that are set. *)
Definition rationalize_resource (r : Resource) (flags : Z) : list (Z * string * list warg) * Z :=
  let name := WS (resname_to_str r) in
  let severe b message := if (b : bool) then [(WARNING_SEVERE, message, [name])] else [] in
  let peeve b message := if (b : bool) then [(WARNING_PEEVE, message, [name])] else [] in
  let both_ways := has REREF_INCLUDE flags && has REREF_REALLY_SUPPLIED flags in
  let both_listed := has REREF_NEEDED flags && has REREF_SUPPLIED flags in
  let not_supplied := has REREF_SUPPLIED flags && negb (has REREF_REALLY_SUPPLIED flags) in
  let flags := if not_supplied then clear_bit REREF_SUPPLIED flags else flags in
  let not_included := has REREF_NEEDED flags && negb (has REREF_INCLUDE flags) in
  let flags := if not_included then Z.lor flags REREF_FIXINCLUDE else flags in
  let unclear := has REREF_UNCLEAR flags && negb (has REREF_NEEDED flags || has REREF_SUPPLIED flags) in
  let '(guessed, flags) :=
    if unclear then
      if has REREF_REALLY_SUPPLIED flags then ([], Z.lor flags REREF_SUPPLIED)
      else if has REREF_INCLUDE flags then ([], Z.lor flags REREF_NEEDED)
      else if String.eqb (R_Type r) "font" then
        (if DSClevel_reaches 2
         then [(WARNING_SEVERE, ("No %%%%IncludeFont for font " +:+ in_quotes "%s"), [WS (R_Name r)])] else [],
         Z.lor (Z.lor flags REREF_NEEDED) REREF_FIXINCLUDE)
      else (severe true ("Resource " +:+ in_quotes "%s" +:+ " has no %%%%Begin or %%%%Include"), flags)
    else ([], flags) in
  let not_needed := has REREF_INCLUDE flags && negb (has REREF_NEEDED flags) in
  let flags := if not_needed then Z.lor flags REREF_NEEDED else flags in
  let not_listed := has REREF_REALLY_SUPPLIED flags && negb (has REREF_SUPPLIED flags) in
  let flags := if not_listed then Z.lor flags REREF_SUPPLIED else flags in
  let flags :=
    if has REREF_REMOVED flags then Z.lor (clear_bit REREF_SUPPLIED flags) REREF_NEEDED else flags in
  (severe both_ways ("Resource " +:+ in_quotes "%s" +:+ " has both %%%%Include and %%%%Begin") ++
   severe both_listed ("Resource " +:+ in_quotes "%s" +:+ " listed as both supplied and needed") ++
   severe not_supplied ("Resource " +:+ in_quotes "%s" +:+ " listed as supplied but it isn't actually supplied") ++
   severe not_included ("Resource " +:+ in_quotes "%s" +:+ " listed as needed but there is no %%%%Include") ++
   guessed ++
   peeve not_needed ("Resource " +:+ in_quotes "%s" +:+ " has an %%%%Include but isn't listed as needed") ++
   peeve not_listed ("Resource " +:+ in_quotes "%s" +:+ " is supplied but isn't listed as supplied"), flags).

(** Things without a flag come from comments that were superseded. *)
Definition rationalize_thing (t : Thing) : list (Z * string * list warg) * Thing :=
  match th t with
  | TH_RESOURCE r =>
      if R_Flags t =? 0 then ([], t)
      else let '(said, flags) := rationalize_resource r (R_Flags t) in (said, set_R_Flags flags t)
  | _ => ([], t)
  end.

Definition rationalize_resources : J unit :=
  modify (λ s,
    let done := rationalize_thing <$> s_things s in
    set_s_warnings (s_warnings s ++ concat done.*1) (set_s_things done.*2 s)).

(** ** The queue file *)

Fixpoint escape_name (name : string) : string :=
  match name with
  | EmptyString => EmptyString
  | String c name' =>
      if Ascii.eqb c "\" || Ascii.eqb c double_quote then String "\" (String c (escape_name name'))
      else String c (escape_name name')
  end.

Definition bit_of (b : bool) : string := if b then "1" else "0".

Definition resource_line (flags : Z) (r : Resource) : string :=
  "Res: " +:+ bit_of (has REREF_NEEDED flags) +:+ " " +:+ bit_of (has REREF_FIXINCLUDE flags) +:+ " " +:+
  R_Type r +:+ " " +:+ String double_quote (escape_name (R_Name r)) +:+ String double_quote " " +:+
  dtostr (R_Version r) +:+ " " +:+ fmt_d (R_Revision r).

Definition listed_resource (t : Thing) : option (Z * Resource) :=
  match th t with
  | TH_RESOURCE r => if R_Flags t =? 0 then None else Some (R_Flags t, r)
  | _ => None
  end.

Definition write_resource_lines (things : list Thing) (fragment : Z) : string :=
  String.concat EmptyString
    ((λ '(flags, r), resource_line flags r +:+ line_end) <$> select listed_resource fragment things).

(** * Requirements (ppr_req.c) *)

(** char scratch[9] *)
Definition new_punch (req_name : string) : option Z :=
  match gu_sscanf req_name "punch%d" [] with
  | Scanned 1 [VInt x] => if x <? 10 then Some x else None
  | _ => None
  end.

Definition same_requirement (req_name : string) (t : Thing) : bool :=
  match th t with TH_REQUIREMENT name => String.eqb name req_name | _ => false end.

Definition requirement (reftype : Z) (req_name : string) : J unit :=
  req_name ← (match new_punch req_name with
              | Some x =>
                  when (DSClevel_reaches 3)
                    (warning WARNING_PEEVE "Requirement punch%d should be punch(%d) in DSC >= 3.0" [WD x; WD x]);;
                  mret (str_take 8 ("punch(" +:+ fmt_d x +:+ ")"))
              | None => mret req_name
              end);
  if String.eqb req_name "collate" then when su_read_copies (modify (set_s_collate true))
  else if String.prefix "numcopies(" req_name then
    when su_read_copies
      (let x := atoi (str_drop 10 req_name) in
       if x <? 1 then warning WARNING_SEVERE ("Unreasonable requirement " +:+ in_quotes "%s" +:+ " ignored") [WS req_name]
       else modify (set_s_copies x))
  else
    things ← gets s_things;
    x ← (match find_thing (same_requirement req_name) things with
         | Some x => upd_thing x (mark reftype);; mret x
         | None =>
             when (reftype =? REQ_PAGE)
               (warning WARNING_PEEVE ("Requirement " +:+ in_quotes "%s" +:+ " missing from " +:+ in_quotes "%%%%Requirements:" +:+ " comment") [WS req_name]);;
             add_thing (mkThing (TH_REQUIREMENT req_name) reftype);;
             mret (length things)
         end);
    when (reftype =? REQ_PAGE) (set_thing_bit x).

(** Whether the comparison of the two names marks the first as deleted; nothing
    when it reads behind the end of the second. *)
Fixpoint deletes (sptr nptr : string) : option bool :=
  match sptr, nptr with
  | EmptyString, EmptyString => Some true
  | EmptyString, String n _ => Some (Ascii.eqb n "(")
  | String _ EmptyString, EmptyString => None
  | String _ _, EmptyString => Some false
  | String s sptr', String n nptr' =>
      if Ascii.eqb s n then deletes sptr' nptr'
      else
        match sptr' with
        | EmptyString => Some (match nptr' with EmptyString => true | String n' _ => Ascii.eqb n' "(" end)
        | String _ _ => Some false
        end
  end.

Fixpoint delete_things (req_name : string) (l : list Thing) : option (list Thing) :=
  match l with
  | [] => Some []
  | t :: l' =>
      t ← (match th t with
           | TH_REQUIREMENT name =>
               (λ b : bool, if b then mark REQ_DELETED t else t) <$> deletes name req_name
           | _ => Some t
           end);
      (t ::.) <$> delete_things req_name l'
  end.

Definition delete_requirement (req_name : string) : J unit :=
  things ← gets s_things;
  match delete_things req_name things with
  | Some things => modify (set_s_things things)
  | None => undef "behind the name of the requirement"
  end.

Definition page_requirement (t : Thing) : option string :=
  match th t with
  | TH_REQUIREMENT name =>
      if negb (has REQ_DELETED (R_Flags t)) && has REQ_PAGE (R_Flags t) then Some name else None
  | _ => None
  end.

Definition dump_page_requirements : J unit :=
  things ← gets s_things;
  page_puts (comment_lines "%%PageRequirements: " (omap page_requirement things));;
  modify (set_s_things
    ((λ t, match page_requirement t with
           | Some _ => set_R_Flags (clear_bit REQ_PAGE (R_Flags t)) t
           | None => t
           end) <$> things)).

Definition requirement_of (t : Thing) : option string :=
  match th t with TH_REQUIREMENT name => Some name | _ => None end.

(** Also those that were deleted. *)
Definition write_requirement_lines (things : list Thing) (fragment : Z) : string :=
  String.concat EmptyString ((λ name, "Req: " +:+ name +:+ line_end) <$> select requirement_of fragment things).

(** * Media (ppr_media.c) *)

Definition number (v : scanval) : Z * Z := decimal v.

(** The difference of two numbers, over a denominator that is not negative. *)
Definition difference (a b : scanval) : Z * Z :=
  let '(n, d) := number a in
  let '(m, e) := number b in
  (n * e - m * d, d * e).

Definition is_zero (v : scanval) : bool := (number v).1 =? 0.

(** FABS(a - b) < 1.0 *)
Definition within_one (a b : scanval) : bool :=
  let '(n, d) := difference a b in
  Z.abs n <? d.

(** abs((int)(a - b)) < limit *)
Definition within (limit : Z) (a b : scanval) : J bool :=
  let '(n, d) := difference a b in
  let whole := Z.abs (Z.quot n d) in
  if int_max <? whole then undef "too large for an int" else mret (whole <? limit).

Definition media_of (t : Thing) : option Media := match th t with TH_MEDIA m => Some m | _ => None end.

Definition same_medium (name : string) (t : Thing) : bool :=
  match th t with TH_MEDIA m => padded_cmp name (medianame m) | _ => false end.

Definition media_doc (tokens : list string) (first : nat) : J unit :=
  match tokens !! first, tokens !! (first + 1)%nat, tokens !! (first + 2)%nat,
        tokens !! (first + 3)%nat, tokens !! (first + 4)%nat, tokens !! (first + 5)%nat with
  | Some name, Some width, Some height, Some weight, Some colour, Some type =>
      add_thing (mkThing (TH_MEDIA (mkMedia (ASCIIZ_to_padded name MAX_MEDIANAME) (gu_getdouble width)
        (gu_getdouble height) (gu_getdouble weight) (ASCIIZ_to_padded colour MAX_COLOURNAME)
        (ASCIIZ_to_padded type MAX_TYPENAME))) MREF_DOC)
  | _, _, _, _, _, _ =>
      warning WARNING_SEVERE
        ("Invalid " +:+ in_quotes "%%%%DocumentMedia:" +:+ " line, insufficient parameters") []
  end.

(** A comment that names no medium hands a NULL pointer on. *)
Definition media_page (tokens : list string) (first : nat) : J unit :=
  match tokens !! first with
  | None => undef "ASCIIZ_to_padded(medianame, NULL)"
  | Some name =>
      let same := same_medium (ASCIIZ_to_padded name MAX_MEDIANAME) in
      found ← gets (λ s, existsb same (s_things s));
      modify (λ s, set_s_things ((λ t, if same t then mark MREF_PAGE t else t) <$> s_things s) s);;
      when (negb found)
        (warning WARNING_SEVERE
           (in_quotes "%%PageMedia:" +:+ " comment on page %d names undefined medium " +:+ in_quotes "%s")
           [WD su_pagenumber; WS name])
  end.

Definition media (tokens : list string) (reftype : Z) (first : nat) : J unit :=
  if reftype =? MREF_DOC then media_doc tokens first
  else if reftype =? MREF_PAGE then media_page tokens first
  else fatal PPREXIT_OTHERERR ("ppr_media.c: media(): invalid reference type: " +:+ fmt_d reftype).

Definition medium_comment (m : Media) : string :=
  padded_to_ASCIIZ (medianame m) +:+ " " +:+ dtostr (width m) +:+ " " +:+ dtostr (height m) +:+ " " +:+
  dtostr (weight m) +:+ " " +:+ quote (padded_to_ASCIIZ (colour m)) +:+ " " +:+ quote (padded_to_ASCIIZ (type m)).

Definition dump_document_media (things : list Thing) (frag : Z) : string :=
  comment_lines "%%DocumentMedia: " (medium_comment <$> select media_of frag things).

(** Only the first medium of the page is named, and unmarked. *)
Fixpoint page_medium (l : list Thing) : string * list Thing :=
  match l with
  | [] => (EmptyString, [])
  | t :: l' =>
      let '(rest, l'') := page_medium l' in
      match th t with
      | TH_MEDIA m =>
          if has MREF_PAGE (R_Flags t) then
            ("%%PageMedia: " +:+ padded_to_ASCIIZ (medianame m) +:+ line_end,
             set_R_Flags (clear_bit MREF_PAGE (R_Flags t)) t :: l')
          else (rest, t :: l'')
      | _ => (rest, t :: l'')
      end
  end.

Definition dump_page_media : J unit :=
  things ← gets s_things;
  let '(comment, things) := page_medium things in
  page_puts comment;;
  modify (set_s_things things).

(** ** The media file *)

Fixpoint first_medium (test : Media → J bool) (mfile : list Media) : J (option Media) :=
  match mfile with
  | [] => mret None
  | km :: mfile' =>
      ok ← test km;
      if (ok : bool) then mret (Some km) else first_medium test mfile'
  end.

(** m->colour[0] == ' ' *)
Definition blank_first (s : string) : bool := String.prefix " " s.

Definition exact_match (m km : Media) : J bool :=
  mret (within_one (height m) (height km) && within_one (width m) (width km)
    && (is_zero (weight m) || same_version (weight m) (weight km))
    && ((blank_first (colour m) && String.prefix "white " (colour km)) || padded_cmp (colour m) (colour km))
    && padded_cmp (type m) (type km)).

Definition close_match (limit : Z) (right_type : bool) (m km : Media) : J bool :=
  high ← within limit (height m) (height km);
  if (high : bool) then
    wide ← within limit (width m) (width km);
    mret ((wide : bool) && right_type)
  else mret false.

(** A colour or a type that fills its field is taken to end there. *)
Definition described (m : Media) : list warg :=
  let len s := Z.of_nat (String.length (before is_space s)) in
  [WF (width m); WF (height m); WF (weight m); WD (len (colour m)); WS (colour m); WD (len (type m)); WS (type m)].

(** The format of a medium in the warnings. *)
Definition media_format : string := in_quotes "%s %.1f %.1f %.1f (%.*s) (%.*s)".

Definition poor_match (how : string) (m km : Media) : J unit :=
  warning WARNING_SEVERE ("Closest medium (" +:+ media_format +:+ ") is " +:+ how +:+ media_format)
    (WS (padded_to_ASCIIZ (medianame km)) :: described km ++
     WS (padded_to_ASCIIZ (medianame m)) :: described m).

(** The line, if a medium was found. *)
Definition write_media_line (m : Media) : J (option string) :=
  let psmediumname := padded_to_ASCIIZ (medianame m) in
  let line km := Some ("Media: " +:+ padded_to_ASCIIZ (medianame km) +:+ " " +:+ psmediumname +:+ line_end) in
  exact ← first_medium (exact_match m) su_media_file;
  match exact with
  | Some km => mret (line km)
  | None =>
      close ← first_medium (λ km, close_match 20 (padded_icmp (type m) (type km)) m km) su_media_file;
      match close with
      | Some km =>
          poor_match ("an" +:+ line_end +:+ of_chars [chr 9] +:+ "imperfect match for ") m km;;
          mret (line km)
      | None =>
          if su_proofmode =? PROOFMODE_NOTIFYME then fatal PPREXIT_NOMATCH psmediumname
          else
            poor ← first_medium (λ km, close_match 36 (blank_first (type km)) m km) su_media_file;
            match poor with
            | Some km =>
                poor_match ("a" +:+ line_end +:+ of_chars [chr 9] +:+ "very poor match for ") m km;;
                mret (line km)
            | None => mret None
            end
      end
  end.

(** The lines, and how many there are. *)
Fixpoint media_lines (media : list Media) : J (string * Z) :=
  match media with
  | [] => mret (EmptyString, 0)
  | m :: media' =>
      line ← write_media_line m;
      match line with
      | Some line =>
          '(lines, match_count) ← media_lines media';
          mret (line +:+ lines, match_count + 1)
      | None =>
          warning WARNING_SEVERE "Requested medium is not listed in the media database" [];;
          media_lines media'
      end
  end.

(** The medium of the options or the configuration. *)
Definition default_media : J Media :=
  match su_default_medium with
  | Some default_medium =>
      let padded_default := ASCIIZ_to_padded default_medium MAX_MEDIANAME in
      def ← first_medium (λ km, mret (String.eqb (medianame km) padded_default)) su_media_file;
      match def with
      | Some def => mret def
      | None => fatal PPREXIT_NOMATCH ("default medium " +:+ in_quotes default_medium +:+ " does not exist")
      end
  | None =>
      match su_conf_medium with
      | inl error_message => fatal PPREXIT_CONFIG error_message
      | inr def => mret def
      end
  end.

Definition is_set (guess def : string) : bool :=
  negb (String.eqb guess EmptyString) && negb (String.eqb guess def).

(** Changed by what the features of the document say. *)
Definition guessed_media (def : Media) : Media :=
  let guess := su_guess_media in
  let sized := negb (is_zero (width guess)) && negb (is_zero (height guess))
    && (negb (same_version (width guess) (width def)) || negb (same_version (height guess) (height def))) in
  let weighed := negb (is_zero (weight guess)) && negb (same_version (weight guess) (weight def)) in
  mkMedia (ASCIIZ_to_padded "NULL" MAX_MEDIANAME)
    (if sized then width guess else width def)
    (if sized then height guess else height def)
    (if weighed then weight guess else weight def)
    (if is_set (colour guess) (colour def) then colour guess else colour def)
    (if is_set (type guess) (type def) then type guess else type def).

Definition write_media_lines (frag : Z) : J string :=
  things ← gets s_things;
  '(lines, match_count) ← media_lines (select media_of frag things);
  if match_count =? 0 then
    def ← default_media;
    let def := guessed_media def in
    line ← write_media_line def;
    match line with
    | Some line => mret (lines +:+ line)
    | None =>
        warning WARNING_SEVERE
          ("Default medium as overridden (" +:+ in_quotes "%.1f %.1f %.1f (%.*s) (%.*s)" +:+ ")" +:+ line_end +:+
           of_chars [chr 9] +:+ "does not exist, will call for fictitious medium " +:+ in_quotes "UNRECOGNIZED")
          (described def);;
        mret (lines +:+ "Media: UNRECOGNIZED NULL" +:+ line_end)
    end
  else mret lines.

(** What write_queue_file() (src/ppr/ppr_main.c) writes of the things. *)
Definition write_things (subid : Z) : J string :=
  media ← write_media_lines subid;
  things ← gets s_things;
  mret (media +:+ "EndMedia" +:+ line_end +:+ write_resource_lines things subid +:+ "EndRes" +:+ line_end +:+
    write_requirement_lines things subid +:+ "EndReq" +:+ line_end).

(** * Dividing a job (ppr_split.c) *)

Definition MAX_SEGMENTS : Z := 10.

(** The part of every page, and how many there are. *)
Fixpoint assign_pages (pages : nat) (pages_per_fragment this_frag segments_created : Z) : list Z * Z :=
  match pages with
  | 0%nat => ([], segments_created)
  | S pages' =>
      let '(segments_created, this_frag) :=
        if pages_per_fragment <? this_frag then (segments_created + 1, 0)
        else (segments_created, this_frag + 1) in
      let '(assignments, created) := assign_pages pages' pages_per_fragment this_frag segments_created in
      (u8 segments_created :: assignments, created)
  end.

Definition pages_per_fragment (pagenumber segments pagefactor : Z) : Z :=
  Z.quot (Z.quot pagenumber segments + pagefactor - 1) pagefactor * pagefactor.

(** fputs(line, segfiles[x]) *)
Definition put_segment (x : nat) (line : string) (segfiles : list string) : list string :=
  alter (λ file, file +:+ line) x segfiles.

Definition put_all (line : string) (segfiles : list string) : list string := (λ file, file +:+ line) <$> segfiles.

Definition LINE : nat := 512.

(** strncmp(a, b, n) == 0 *)
Definition strncmp_0 (n : nat) (a b : string) : bool := String.eqb (str_take n a) (str_take n b).

Definition internal_error {A} : J A := fatal PPREXIT_OTHERERR "ppr: ppr_split.c: split_job(): internal error".

(** if(!fgets(line, sizeof(line), pages)) fatal(...) *)
Definition next_line (pages : string) : J (string * string) :=
  match pages with EmptyString => internal_error | _ => mret (fgets LINE pages) end.

(** The document defaults go to every part. *)
Fixpoint copy_defaults (fuel : nat) (line pages : string) (segfiles : list string)
    : J (string * string * list string) :=
  match fuel with
  | 0%nat => λ _, Stopped SFuel
  | S fuel' =>
      let segfiles := put_all line segfiles in
      let done := strncmp_0 14 line "%%EndDefaults" in
      '(line, pages) ← next_line pages;
      if (done : bool) then mret (line, pages, segfiles) else copy_defaults fuel' line pages segfiles
  end.

(** A page, up to the line that begins the next one or the trailer. *)
Fixpoint copy_record (fuel : nat) (segment : nat) (line pages : string) (segfiles : list string)
    : J (string * string * list string) :=
  match fuel with
  | 0%nat => λ _, Stopped SFuel
  | S fuel' =>
      let segfiles := put_segment segment line segfiles in
      '(line, pages) ← next_line pages;
      if String.prefix "%%Page:" line || String.prefix "%%Trailer" line then mret (line, pages, segfiles)
      else copy_record fuel' segment line pages segfiles
  end.

Fixpoint copy_records (fuel : nat) (assignments : list Z) (line pages : string) (segfiles : list string)
    : J (string * string * list string) :=
  match assignments with
  | [] => mret (line, pages, segfiles)
  | a :: assignments' =>
      '(line, pages, segfiles) ← copy_record fuel (Z.to_nat (a - 1)) line pages segfiles;
      copy_records fuel assignments' line pages segfiles
  end.

(** The trailer goes to every part. *)
Fixpoint copy_trailer (fuel : nat) (line pages : string) (segfiles : list string) : J (list string) :=
  match fuel with
  | 0%nat => λ _, Stopped SFuel
  | S fuel' =>
      let segfiles := put_all line segfiles in
      match pages with
      | EmptyString => mret segfiles
      | _ => let '(line, pages) := fgets LINE pages in copy_trailer fuel' line pages segfiles
      end
  end.

(** The -pages files of the parts. *)
Definition split_pages (assignments : list Z) (segments_created : Z) (pages : string) : J (list string) :=
  let fuel := S (String.length pages) in
  let segfiles := replicate (Z.to_nat segments_created) EmptyString in
  match pages with
  | EmptyString => undef "line was not read"
  | _ =>
      let '(line, pages) := fgets LINE pages in
      '(line, pages, segfiles) ←
        (if strncmp_0 16 line "%%BeginDefaults" then copy_defaults fuel line pages segfiles
         else mret (line, pages, segfiles));
      '(line, pages, segfiles) ← copy_records fuel assignments line pages segfiles;
      copy_trailer fuel line pages segfiles
  end.

(** The -comments file of a part, but for the media. *)
Fixpoint other_comments (fuel : nat) (comments : string) : string :=
  match fuel, comments with
  | S fuel', String _ _ =>
      let '(line, comments) := fgets LINE comments in
      (if strncmp_0 16 line "%%DocumentMedia:" then EmptyString else line) +:+ other_comments fuel' comments
  | _, _ => EmptyString
  end.

Record fragment := mkFragment {
  f_subid : Z;
  f_pages : Z;
  f_page_comments : string;
  f_comments : string;
}.

(** The parts that are written and submitted; none when the job is not split.
    The note in the log, and the links to the -text and -log files, which the
    parts share, are left out. *)
Definition split_job (segments pagefactor pageorder : Z) (pages comments : string) : J (list fragment) :=
  if negb su_splitting then mret []
  else if su_pagenumber =? 0 then
    warning WARNING_SEVERE "No delimited pages, splitting is impossible." [];;
    mret []
  else if pageorder =? PAGEORDER_SPECIAL then
    warning WARNING_SEVERE ("PageOrder is " +:+ in_quotes "Special" +:+ ", splitting is impossible.") [];;
    mret []
  else if su_pagenumber <=? pagefactor then
    warning WARNING_SEVERE "%d pages present, at least %d needed to split job."
      [WD su_pagenumber; WD pagefactor];;
    mret []
  else if segments =? 0 then mret []
  else if pagefactor =? 0 then undef "division by zero"
  else
    let '(assignments, segments_created) :=
      assign_pages (Z.to_nat su_pagenumber) (pages_per_fragment su_pagenumber segments pagefactor) 0 1 in
    if segments_created <=? 1 then mret []
    else
      segfiles ← split_pages assignments segments_created pages;
      things ← gets s_things;
      mret ((λ '(x, file),
        mkFragment (Z.of_nat x + 1) (Z.of_nat (length (filter (λ a, a = Z.of_nat x + 1) assignments)))
          file (other_comments (String.length comments) comments
                +:+ dump_document_media things (Z.of_nat x + 1)))
        <$> zip (seq 0 (length segfiles)) segfiles).
End things.
