(* ===== verification/Insertions.v ===== *)
(** What the driver puts into a job of its own accord: the job's name, copies,
    time limits, N-Up, the bin of a medium, patches, comments, what a custom
    hook prints (src/pprdrv/pprdrv_notppd.c, pprdrv_userparams.c, pprdrv_nup.c,
    pprdrv_media.c, pprdrv_req.c, pprdrv_custom_hook.c, and jobpatchfile() of
    pprdrv_patch.c). *)
From S2P Require Import Prelude.
From S2P Require Import Text.
From S2P Require Import Spooler.
From S2P Require Import DriverOutput.
From S2P Require Import JobFile.
From S2P Require Import QueueFile.
From S2P Require Import Tokens.
From S2P Require Import Ppd.
From S2P Require Import Document.
From S2P Require Import Resources.

Definition MAX_BINS : nat := 10.

Definition CUSTOM_HOOK_COMMENTS : Z := 4.
Definition CUSTOM_HOOK_PROLOG : Z := 8.
Definition CUSTOM_HOOK_DOCSETUP : Z := 16.

(** The printer's settings, the job's media, the file of the mounted media, the
    hook: what the program at its path prints for a code; what the page
    computations came to; and the "-pages" and "-text" files, to go back in. *)
Class SectionConfig := {
  sc_QueueFile : string;
  sc_drvreq : list string;
  sc_media_xlate : list (string * string);
  sc_mounted_file : option string;
  sc_JobTimeout : Z;
  sc_WaitTimeout : Z;
  sc_ManualfeedTimeout : Z;
  sc_DoPrintErrors : Z;
  sc_hook_flags : Z;
  sc_hook_path : option string;
  sc_hook_executable : bool;
  sc_hook_output : string → Z → string;
  sc_sheetcount : Z;
  sc_copies_pages_countdown : Z;
  sc_print_direction : Z;
  sc_current_job_direction : Z;
  sc_pages : string;
  sc_text : string;
}.

Definition line_end : string := of_chars [chr 10].

Section insertions.
Context `{DriverConfig} `{ResourceConfig} `{SectionConfig}.

Definition LanguageLevel : Z := f_LanguageLevel (d_Features dc_ppd).

(** * pprdrv_notppd.c *)

Definition set_jobname (jobname : string) : V unit :=
  if LanguageLevel <? 2 then
    puts "/statusdict where {pop statusdict /jobname (";;
    out (printer_puts_escaped jobname);;
    puts (") put } if % PPR" +:+ line_end)
  else
    puts "<< /JobName (";;
    out (printer_puts_escaped jobname);;
    puts (") >> setuserparams % PPR" +:+ line_end).

Definition set_numcopies_bare (copies : Z) : V unit :=
  if LanguageLevel <? 2 then printf ("/#copies %d def %%PPR" +:+ line_end) [AD copies]
  else
    begin_stopped;;
    printf ("<< /NumCopies %d >> setpagedevice %%PPR" +:+ line_end) [AD copies];;
    end_stopped "NumCopies" (Some (fmt_d copies)).

Definition set_numcopies (copies : Z) : V unit :=
  printf ("%%%%BeginNonPPDFeature: NumCopies %d" +:+ line_end) [AD copies];;
  putline "[0 0 0 0 0 0] currentmatrix %PPR";;
  set_numcopies_bare copies;;
  putline "setmatrix %PPR";;
  putline ("%%EndNonPPDFeature" +:+ line_end).

Definition begin_nonppd_feature (fuel : nat) (next : V bool) (feature_name feature_value : option string)
    : V unit :=
  match feature_name, feature_value with
  | Some name, Some value =>
      v ← gets id;
      let replaced := String.eqb name "NumCopies" && negb (v_copies_auto v =? -1) in
      (if replaced then
         printf ("%% %%%%BeginNonPPDFeature: %s %s" +:+ line_end) [AS name; AS value];;
         printf ("%%%%BeginNonPPDFeature: %s %d" +:+ line_end) [AS name; AD (v_copies_auto v)]
       else printf ("%%%%BeginNonPPDFeature: %s %s" +:+ line_end) [AS name; AS value]);;
      code_lines fuel next "%%EndNonPPDFeature" "defective NonPPDFeature invokation" (negb replaced);;
      when replaced (set_numcopies_bare (v_copies_auto v));;
      puts ("%%EndNonPPDFeature" +:+ line_end)
  | _, _ => mret tt
  end.

(** * pprdrv_userparams.c *)

Definition pre (setting : string) (value : Z) : V unit :=
  printf ("%%%%BeginNonPPDFeature: %s %d" +:+ line_end) [AS setting; AD value];;
  putline "[{".

Definition pre_str (setting value : string) : V unit :=
  printf ("%%%%BeginNonPPDFeature: %s %s" +:+ line_end) [AS setting; AS value];;
  putline "[{".

Definition post (setting : string) : V unit :=
  printf ("}stopped{(Failed to set %s" +:+ String backslash "n)print}if cleartomark" +:+ line_end)
    [AS setting];;
  putline "%%EndNonPPDFeature".

Definition by_level (level2 level1 : string) (value : Z) : V unit :=
  printf ((if 2 <=? LanguageLevel then level2 else level1) +:+ line_end) [AD value].

Definition insert_userparams : V unit :=
  when (0 <=? sc_WaitTimeout)
    (pre "WaitTimeout" sc_WaitTimeout;;
     by_level "<</WaitTimeout %d>>setuserparams %%PPR" "%d statusdict /setwaittimeout get exec"
       sc_WaitTimeout;;
     post "WaitTimeout");;
  when (0 <=? sc_ManualfeedTimeout)
    (pre "ManualfeedTimeout" sc_ManualfeedTimeout;;
     by_level "<</ManualFeedTimeout %d>>setpagedevice %%PPR"
       "%d statusdict /setmanualfeedtimeout get exec %%PPR" sc_ManualfeedTimeout;;
     post "ManualfeedTimeout");;
  when (negb (sc_DoPrintErrors =? -1) && (2 <=? LanguageLevel))
    (pre_str "DoPrintErrors" (if truth sc_DoPrintErrors then "True" else "False");;
     printf ("<</DoPrintErrors %s>>setuserparams %%PPR" +:+ line_end)
       [AS (if truth sc_DoPrintErrors then "true" else "false")];;
     post "WaitTimeout").

Definition insert_userparams_jobtimeout : V unit :=
  when (0 <=? sc_JobTimeout)
    (pre "JobTimeout" sc_JobTimeout;;
     by_level "<</JobTimeout %d>>setuserparams %%PPR" "%d statusdict /setjobtimeout get exec %%PPR"
       sc_JobTimeout;;
     post "JobTimeout").

(** * pprdrv_nup.c *)

Definition draft_notice_font : string := "Helvetica-Bold".

Definition n_up_needed : bool :=
  negb (truth (j_job_does_n_up dc_job))
  && (negb (j_N dc_job =? 1) || bool_decide (j_draft_notice dc_job ≠ None)).

Definition prestart_N_Up_hook : V unit :=
  when n_up_needed
    (added ← add_resource "procset" "TrinColl-PPR-dmm-nup" (VDec 1 3 "0") 7;
     when (added =? -1) (fatal EXIT_JOBERR "The procset is not available"));;
  when (negb (truth (j_job_does_n_up dc_job)) && bool_decide (j_draft_notice dc_job ≠ None))
    (added ← add_resource "font" draft_notice_font zero_version 0;
     when (added =? -1) (fatal EXIT_JOBERR "The font for the draft notice is not available.")).

(** (pages + pagefactor - 1) / pagefactor, the sides of a sheet, and which way *)
Definition pp_total : V Z :=
  if (j_pagefactor dc_job =? 0) || (j_N dc_job =? 0) then undef "division by zero"
  else mret (Z.quot (j_pages dc_job + j_pagefactor dc_job - 1) (j_pagefactor dc_job)
             * Z.quot (j_pagefactor dc_job) (j_N dc_job) * sc_print_direction).

Definition invoke_N_Up : V unit :=
  when n_up_needed
    (printf "%d true %s false false %d ("
       [AD (j_N dc_job); AS (if j_orientation dc_job =? 2 then "true" else "false");
        AD (if truth (j_borders dc_job) then 0 else -1)];;
     match j_draft_notice dc_job with
     | Some notice => out (printer_puts_escaped notice)
     | None => mret tt
     end;;
     printf (") /%s DMM-nup-pre %%PPR" +:+ line_end) [AS draft_notice_font];;
     match j_Title dc_job with
     | Some title =>
         puts "statusdict /jobname (";;
         out (printer_puts_escaped title);;
         puts (") put %PPR" +:+ line_end)
     | None => mret tt
     end;;
     when (negb (j_N dc_job =? 1))
       (total ← pp_total;
        printf ("DMM-nup-state /pp-total %d put %%PPR" +:+ line_end) [AD total]);;
     when (j_pagefactor dc_job =? j_N dc_job * 2)
       (putline "DMM-nup-state /pp-duplex true put %PPR")).

Definition close_N_Up : V unit :=
  when n_up_needed
    (putline "% do N-Up package end of job processing";;
     putline "DMM-nup-post").

(** * pprdrv_media.c *)

(** struct MOUNTED: the bin and the medium in it, sixteen characters each. *)
Fixpoint mounted_records (n : nat) (file : string) : list (string * string) :=
  match n with
  | 0%nat => []
  | S n' =>
      if (String.length file <? 32)%nat then []
      else (str_take 16 file, str_take 16 (str_drop 16 file)) :: mounted_records n' (str_drop 32 file)
  end.

Definition load_mountedlist : option (list (string * string)) :=
  mounted_records MAX_BINS <$> sc_mounted_file.

(** Code that selects, between the comments of a feature. *)
Definition select_code (feature option fptr : string) : V unit :=
  begin_stopped;;
  printf ("%%%%BeginFeature: " +:+ feature +:+ " %s" +:+ line_end) [AS option];;
  puts fptr;;
  puts end_feature;;
  end_stopped feature (Some option).

Definition find_and_select (feature option : string) : V bool :=
  fptr ← find_feature dc_ppd feature (Some option);
  match fptr with
  | Some fptr => select_code feature option fptr;; mret true
  | None => mret false
  end.

(** The bins from the first one that has the medium on; the search for another
    one looks at the name of the bin found, which is "Upper" or "Lower". *)
Fixpoint select_bin (pname : string) (bins : list (string * string)) (AutoSelect_exists : bool)
    : V unit :=
  match bins with
  | [] => when AutoSelect_exists (find_and_select "*InputSlot" "AutoSelect";; mret tt)
  | (bin, media) :: bins' =>
      let abin := padded_to_ASCIIZ bin in
      if String.eqb abin "AutoSelect" then select_bin pname bins' true
      else if padded_cmp media pname then
        found ← find_and_select "*InputSlot" abin;
        when (found && (String.eqb abin "Upper" || String.eqb abin "Lower"))
          (let tf :=
             if existsb (λ '(_, media'), padded_cmp media' pname) bins' then "True" else "False" in
           find_and_select "*TraySwitch" tf;;
           mret tt)
      else select_bin pname bins' AutoSelect_exists
  end.

Definition select_medium (name : string) : V bool :=
  match load_mountedlist with
  | Some (bin :: bins) => select_bin (ASCIIZ_to_padded name 16) (bin :: bins) false;; mret true
  | _ => mret false
  end.

(** The answer is always no. *)
Fixpoint select_by_name (media : string) (xlate : list (string * string)) : V bool :=
  match xlate with
  | [] => mret false
  | (pprname, dscname) :: xlate' =>
      if String.eqb dscname media then select_medium pprname;; mret false
      else select_by_name media xlate'
  end.

Definition select_medium_by_dsc_name (media : string) : V bool :=
  select_by_name media sc_media_xlate.

(** * pprdrv_req.c *)

Fixpoint requirement_lines (first : bool) (drvreq : list string) : V unit :=
  match drvreq with
  | [] => mret tt
  | req :: drvreq' =>
      printf ((if first then "%%%%Requirements: %s" else "%%%%+ %s") +:+ line_end) [AS req];;
      requirement_lines false drvreq'
  end.

Definition write_requirement_comments : V unit :=
  requirement_lines true sc_drvreq;;
  v ← gets id;
  when (1 <? v_copies_auto v)
    (puts (match sc_drvreq with [] => "%%Requirements:" | _ => "%%+" end);;
     printf " numcopies(%d)" [AD (j_copies dc_job)];;
     when (negb (v_copies_auto_collate v =? 0)) (puts " collate");;
     putc (chr 10)).

(** * jobpatchfile() *)

Fixpoint patch_from (n : nat) (x : Z) : V unit :=
  match n with
  | 0%nat => mret tt
  | S n' =>
      code ← find_feature dc_ppd "*JobPatchFile" (Some (fmt_d x));
      match code with
      | None => mret tt
      | Some code =>
          printf ("%% start of *JobPatchFile %d" +:+ line_end) [AD x];;
          puts code;;
          printf (line_end +:+ "%% end of *JobPatchFile %d" +:+ line_end) [AD x];;
          patch_from n' (x + 1)
      end
  end.

Definition jobpatchfile : V unit := patch_from 9 1.

(** * pprdrv_custom_hook.c *)

Fixpoint hook_lines (lines : list string) : V unit :=
  match lines with
  | [] => mret tt
  | line :: lines' =>
      (if String.prefix "%" line then
         match gu_sscanf line "%%%%IncludeFeature: %S %S" [] with
         | Scanned _ [VStr feature; VStr option] => include_feature (Some feature) (Some option)
         | Scanned _ [VStr feature] => include_feature (Some feature) None
         | Scanned _ _ => putline line
         | ScanThrow msg => gu_Throw msg
         | ScanUndef => undef "signed overflow"
         end
       else putline line);;
      hook_lines lines'
  end.

(** For the codes of comments and sections; those of banners and trailers make
    whole documents. *)
Definition custom_hook (code : Z) : V bool :=
  if Z.land code sc_hook_flags =? 0 then mret false
  else
    match sc_hook_path with
    | None => fatal EXIT_PRNERR "CustomHook path not defined"
    | Some path =>
        if negb sc_hook_executable then fatal EXIT_PRNERR "CustomHook program not executable"
        else
          hook_lines (file_lines (sc_hook_output path code));;
          mret true
    end.
End insertions.
