(* ===== verification/Sections.v ===== *)
(** The parts of a job put together again: header, defaults, prolog, setup, pages
    and trailer (src/pprdrv/pprdrv.c, from dgetline_parse() to copy_trailer()). *)
From S2P Require Import Prelude.
From S2P Require Import Text.
From S2P Require Import Spooler.
From S2P Require Import DriverOutput.
From S2P Require Import JobFile.
From S2P Require Import Pages.
From S2P Require Import QueueFile.
From S2P Require Import Tokens.
From S2P Require Import ReadPpd.
From S2P Require Import Ppd.
From S2P Require Import Document.
From S2P Require Import Resources.
From S2P Require Import Insertions.

(** What the reader does with a line itself: the comments whose matter it copies,
    replaces or leaves out. *)
Inductive line_kind :=
| BeginFeature | IncludeFeature | BeginNonPPDFeature | IncludeResource | BeginResource | BeginData
| BeginDocument | EndDocument | Ordinary.

Definition kind_of (line : string) : line_kind :=
  if lmatch line "%%BeginFeature:" then BeginFeature
  else if lmatch line "%%IncludeFeature:" then IncludeFeature
  else if lmatch line "%%BeginNonPPDFeature:" then BeginNonPPDFeature
  else if lmatch line "%%IncludeResource:" then IncludeResource
  else if lmatch line "%%BeginResource:" then BeginResource
  else if lmatch line "%%BeginData:" then BeginData
  else if lmatch line "%%BeginDocument:" then BeginDocument
  else if String.eqb line "%%EndDocument" then EndDocument
  else Ordinary.

Section sections.
Context `{DriverConfig} `{ResourceConfig} `{SectionConfig}.

(** Whether the next line is to be read; [next] is dgetline(infile), for the
    lines inside. *)
Definition dgetline_parse (fuel : nat) (next : V bool) (infile : job_file) : V bool :=
  line ← the_line;
  match kind_of line with
  | BeginFeature =>
      tokenize_line;;
      featuretype ← token 1;
      option ← token 2;
      begin_feature fuel next featuretype option;;
      mret true
  | IncludeFeature =>
      tokenize_line;;
      featuretype ← token 1;
      option ← token 2;
      include_feature featuretype option;;
      mret true
  | BeginNonPPDFeature =>
      tokenize_line;;
      name ← token 1;
      value ← token 2;
      begin_nonppd_feature fuel next name value;;
      mret true
  | IncludeResource => tokenize_line;; include_resource;; mret true
  | BeginResource => tokenize_line;; begin_resource fuel next;; mret true
  | BeginData => tokenize_line;; copy_data infile;; mret true
  | BeginDocument => modify (λ v, set_v_level (v_level v + 1) v);; mret false
  | EndDocument =>
      modify (λ v, if v_level v =? 0 then v else set_v_level (v_level v - 1) v);; mret false
  | Ordinary => mret false
  end.

(** Every line read takes a character of the file. *)
Fixpoint dgetline (fuel : nat) (infile : job_file) : V bool :=
  match fuel with
  | 0%nat => λ _, Stopped SFuel
  | S fuel' =>
      got ← dgetline_read infile;
      if negb (got : bool) then mret false
      else
        line ← the_line;
        match line with
        | EmptyString => mret true
        | _ =>
            handled ← dgetline_parse fuel' (dgetline fuel' infile) infile;
            if (handled : bool) then dgetline fuel' infile else mret true
        end
  end.

Definition line_is (s : string) : V bool := line ← the_line; mret (String.eqb line s).

Definition line_begins (s : string) : V bool := line ← the_line; mret (lmatch line s).

(** ** The header *)

(** while(dgetline(comments)) *)
Fixpoint copy_comments (fuel : nat) : V unit :=
  match fuel with
  | 0%nat => λ _, Stopped SFuel
  | S fuel' =>
      got ← dgetline fuel COMMENTS;
      when got (line ← the_line; putline line;; copy_comments fuel')
  end.

(** [%.1f] *)
Definition one_decimal (v : scanval) : string :=
  let '(n, d) := decimal v in
  let tenths := (n * 20 + d) / (2 * d) in
  fmt_d (tenths / 10) +:+ "." +:+ fmt_d (tenths mod 10).

Definition DSC_level (v : scanval) : string :=
  let '(n, d) := decimal v in
  str_take 7 (if n <? 3 * d then "3.0" else one_decimal v).

Definition field_line (name : string) (value : option string) (closing : string) : V unit :=
  match value with
  | Some s => printf ("%%%%" +:+ name +:+ "%s" +:+ closing +:+ line_end) [AS s]
  | None => mret tt
  end.

Definition pageorder_comment : V unit :=
  when ((sc_print_direction =? 1) || (j_pagefactor dc_job =? 1))
    (let order := j_pageorder dc_job * sc_current_job_direction * sc_print_direction in
     if order =? PAGEORDER_ASCEND then puts ("%%PageOrder: Ascend" +:+ line_end)
     else if order =? PAGEORDER_DESCEND then puts ("%%PageOrder: Descend" +:+ line_end)
     else when (order =? PAGEORDER_SPECIAL) (puts ("%%PageOrder: Special" +:+ line_end))).

Definition one_of (n : Z) (choices : list (Z * string)) : V unit :=
  match List.find (λ '(k, _), n =? k) choices with
  | Some (_, text) => puts (text +:+ line_end)
  | None => mret tt
  end.

Definition first_line : V unit :=
  let level := j_DSClevel dc_job in
  if ((decimal level).1 =? 0) && (j_pages dc_job <? 1) then putline "%!"
  else
    match j_DSC_job_type dc_job with
    | Some type => printf ("%%!PS-Adobe-%s %s" +:+ line_end) [AS (DSC_level level); AS type]
    | None => printf ("%%!PS-Adobe-%s" +:+ line_end) [AS (DSC_level level)]
    end.

Definition copy_header (fuel : nat) : V unit :=
  first_line;;
  copy_comments fuel;;
  custom_hook CUSTOM_HOOK_COMMENTS;;
  printf ("%%%%For: (%s)" +:+ line_end) [AS (default "???" (j_For dc_job))];;
  field_line "Creator: (" (j_Creator dc_job) ")";;
  field_line "Routing: " (j_Routing dc_job) EmptyString;;
  field_line "Title: (" (j_Title dc_job) ")";;
  when (negb (j_pages dc_job =? -1))
    (let pages := pagemask_count dc_job in
     total ← c_int (sc_sheetcount * pages * (sc_copies_pages_countdown - 1) + pages);
     printf ("%%%%Pages: %d" +:+ line_end) [AD total]);;
  pageorder_comment;;
  one_of (j_orientation dc_job) [(1, "%%Orientation: Portrait"); (2, "%%Orienation: Landscape")];;
  write_resource_comments;;
  write_requirement_comments;;
  one_of (j_proofmode dc_job)
    [(1, "%%ProofMode: TrustMe"); (0, "%%ProofMode: Substitute"); (-1, "%%ProofMode: NotifyMe")];;
  one_of (j_docdata dc_job)
    [(1, "%%DocumentData: Clean7Bit"); (2, "%%DocumentData: Clean8Bit"); (3, "%%DocumentData: Binary")];;
  puts ("%TCHCTSpooler: PPR-" +:+ SHORT_VERSION +:+ line_end);;
  puts ("%%EndComments" +:+ line_end).

(** ** The defaults *)

(** The medium a %%PageMedia comment names; char[17]. *)
Definition page_media (line : string) (old : string) : V string :=
  match gu_sscanf line "%%%%PageMedia: %@s" [17] with
  | Scanned _ [VStr media] => mret media
  | Scanned _ _ => mret old
  | ScanThrow msg => gu_Throw msg
  | ScanUndef => undef "signed overflow"
  end.

Fixpoint copy_defaults (fuel : nat) (defaults : bool) : V unit :=
  match fuel with
  | 0%nat => λ _, Stopped SFuel
  | S fuel' =>
      got ← dgetline fuel PAGES;
      when got
        (begins ← line_is "%%BeginDefaults";
         if negb defaults && negb begins then modify (set_rest PAGES sc_pages)
         else
           when (negb defaults) (putc (chr 10));;
           line ← the_line;
           printf ("%s" +:+ line_end) [AS line];;
           old ← gets v_default_pagemedia;
           media ← page_media line old;
           modify (set_v_default_pagemedia media);;
           if lmatch line "%%EndDefaults" then mret tt else copy_defaults fuel' true)
  end.

(** ** The prolog *)

(** while(dgetline_read(text) && *line == '\0') *)
Fixpoint copy_blank_lines (fuel : nat) : V unit :=
  match fuel with
  | 0%nat => λ _, Stopped SFuel
  | S fuel' =>
      got ← dgetline_read TEXT;
      line ← the_line;
      when (got && String.eqb line EmptyString) (putline line;; copy_blank_lines fuel')
  end.

(** The line in the buffer, which was not looked at when it was read. *)
Fixpoint parse_pending (fuel : nat) : V unit :=
  match fuel with
  | 0%nat => λ _, Stopped SFuel
  | S fuel' =>
      handled ← dgetline_parse fuel (dgetline fuel TEXT) TEXT;
      when handled (got ← dgetline_read TEXT; when got (parse_pending fuel'))
  end.

Fixpoint copy_prolog_lines (fuel : nat) : V bool :=
  match fuel with
  | 0%nat => λ _, Stopped SFuel
  | S fuel' =>
      line ← the_line;
      level ← gets v_level;
      let here := level =? 0 in
      if here && String.eqb line "%%BeginSetup" then mret true
      else if here && lmatch line "%%Page:" then mret true
      else if here && String.eqb line "%%Trailer" then mret false
      else if here && lmatch line "%%EndProlog" then dgetline fuel TEXT;; mret true
      else
        write_line;;
        got ← dgetline fuel TEXT;
        if (got : bool) then copy_prolog_lines fuel' else mret false
  end.

Definition structured : bool :=
  truth (j_docsetup dc_job) || truth (j_script dc_job).

Definition copy_prolog (fuel : nat) : V bool :=
  let write_prolog_tags := truth (j_prolog dc_job) || structured in
  modify (set_v_doing_prolog true);;
  copy_blank_lines fuel;;
  (if write_prolog_tags then
     putline "%%BeginProlog";;
     begins ← line_is "%%BeginProlog";
     when begins (dgetline_read TEXT;; mret tt)
   else puts ("% No DSC prolog, PPR will add code here ---v" +:+ line_end));;
  jobpatchfile;;
  insert_extra_prolog_resources;;
  retval ←
    (if write_prolog_tags then
       parse_pending fuel;;
       retval ← copy_prolog_lines fuel;
       custom_hook CUSTOM_HOOK_PROLOG;;
       puts ("%%EndProlog" +:+ line_end);;
       mret retval
     else
       puts ("% ^--- End of non-DSC prolog" +:+ line_end);;
       mret true);
  modify (set_v_doing_prolog false);;
  mret retval.

(** ** The setup *)

(** while( *line == '\0') *)
Fixpoint copy_more_blank_lines (fuel : nat) : V unit :=
  match fuel with
  | 0%nat => λ _, Stopped SFuel
  | S fuel' =>
      line ← the_line;
      when (String.eqb line EmptyString)
        (putline line;;
         got ← dgetline_read TEXT;
         when got (copy_more_blank_lines fuel'))
  end.

(** Blank lines behind "%%EndSetup" are eaten; at the end of the file line[] stays
    as it is. *)
Fixpoint eat_blank_lines (fuel : nat) : V unit :=
  match fuel with
  | 0%nat => λ _, Stopped SFuel
  | S fuel' =>
      dgetline fuel TEXT;;
      blank ← line_is EmptyString;
      when blank (eat_blank_lines fuel')
  end.

Fixpoint copy_setup_lines (fuel : nat) : V unit :=
  match fuel with
  | 0%nat => λ _, Stopped SFuel
  | S fuel' =>
      line ← the_line;
      if String.eqb line "%%EndSetup" then eat_blank_lines fuel
      else if lmatch line "%%Page:" then mret tt
      else
        write_line;;
        got ← dgetline fuel TEXT;
        when got (copy_setup_lines fuel')
  end.

Definition copy_setup (fuel : nat) (qstream : string) : V string :=
  modify (set_v_doing_docsetup true);;
  copy_more_blank_lines fuel;;
  (if structured then
     putline "%%BeginSetup";;
     begins ← line_is "%%BeginSetup";
     when begins (dgetline_read TEXT;; mret tt)
   else puts ("% No DSC document setup, PPR will add code here ---v" +:+ line_end));;
  set_jobname sc_QueueFile;;
  insert_noinclude_fonts;;
  match sc_media_xlate with
  | [(pprname, _)] =>
      when (truth (j_binselect dc_job))
        (stripped ← select_medium pprname; modify (set_v_strip_binselects stripped))
  | _ => mret tt
  end;;
  modify (set_v_strip_signature (truth (j_sigsheets dc_job)));;
  qstream ← insert_features qstream 1;
  invoke_N_Up;;
  parse_pending fuel;;
  when structured (copy_setup_lines fuel);;
  qstream ← insert_features qstream 2;
  copies_auto ← gets v_copies_auto;
  when (negb (copies_auto =? -1)) (set_numcopies copies_auto);;
  collate ← gets v_copies_auto_collate;
  when (negb (collate =? -1)) (set_collate (negb (collate =? 0)));;
  insert_userparams;;
  custom_hook CUSTOM_HOOK_DOCSETUP;;
  puts (if structured then "%%EndSetup" +:+ line_end +:+ line_end
        else "% ^--- end of non-DSC document setup" +:+ line_end +:+ line_end);;
  modify (set_v_strip_binselects false);;
  modify (set_v_strip_signature false);;
  modify (set_v_doing_docsetup false);;
  mret qstream.

(** ** Pages *)

(** Whether the trailer, or the end, has come. *)
Fixpoint copy_nonpages (fuel : nat) : V bool :=
  match fuel with
  | 0%nat => λ _, Stopped SFuel
  | S fuel' =>
      line ← the_line;
      level ← gets v_level;
      let here := level =? 0 in
      if here && String.eqb line "%%Trailer" then mret true
      else if here && lmatch line "%%Page:" then mret false
      else
        write_line;;
        got ← dgetline fuel TEXT;
        if (got : bool) then copy_nonpages fuel' else mret true
  end.

(** pline[256], its last character off; [None] at the end of the "-pages" file. *)
Definition getpline : V (option string) :=
  file ← gets v_page_comments;
  match file with
  | EmptyString => mret None
  | _ =>
      let '(line, rest) := fgets 256 file in
      modify (set_v_page_comments rest);;
      let line := c_string line in
      mret (Some (str_take (String.length line - 1) line))
  end.

(** The comments of the page, and the medium they name. *)
Fixpoint copy_page_comments (fuel : nat) (pagemedia : string) : V string :=
  match fuel with
  | 0%nat => λ _, Stopped SFuel
  | S fuel' =>
      pline ← getpline;
      match pline with
      | Some (String _ _ as pline) =>
          printf ("%s" +:+ line_end) [AS pline];;
          pagemedia ← page_media pline pagemedia;
          copy_page_comments fuel' pagemedia
      | _ => mret pagemedia
      end
  end.

(** Whether there is a line that is not blank. *)
Fixpoint copy_page_blank_lines (fuel : nat) : V bool :=
  match fuel with
  | 0%nat => λ _, Stopped SFuel
  | S fuel' =>
      got ← dgetline fuel TEXT;
      blank ← line_is EmptyString;
      if got && blank then putc (chr 10);; copy_page_blank_lines fuel' else mret got
  end.

Fixpoint copy_page_lines (fuel : nat) (got : bool) : V unit :=
  match fuel with
  | 0%nat => λ _, Stopped SFuel
  | S fuel' =>
      line ← the_line;
      level ← gets v_level;
      when (got && (negb (level =? 0)
                    || negb (lmatch line "%%Page:") && negb (String.eqb line "%%Trailer")))
        (write_line;;
         got ← dgetline fuel TEXT;
         copy_page_lines fuel' got)
  end.

(** strncmp() looks at the first fifteen characters of "%%BeginPageSetup". *)
Definition copy_a_page (fuel : nat) (newnumber : Z) : V unit :=
  dgetline fuel TEXT;;
  tokenize_line;;
  label ← token 1;
  printf ("%%%%Page: %s %d" +:+ line_end) [AS (default "?" label); AD newnumber];;
  pagemedia ← copy_page_comments fuel EmptyString;
  got ← copy_page_blank_lines fuel;
  begins ← line_begins "%%BeginPageSetu";
  got ←
    (if (begins : bool) then line ← the_line; putline line;; dgetline fuel TEXT
     else mret got);
  insert_userparams_jobtimeout;;
  default_pagemedia ← gets v_default_pagemedia;
  let media := if String.eqb pagemedia EmptyString then default_pagemedia else pagemedia in
  when ((1 <? length sc_media_xlate)%nat && truth (j_binselect dc_job)
        && negb (String.eqb media EmptyString))
    (stripped ← select_medium_by_dsc_name media;
     modify (set_v_strip_binselects stripped));;
  copy_page_lines fuel got;;
  modify (set_v_strip_binselects false).

(** fseek() from the start of the file *)
Definition seek (infile : job_file) (content : string) (offset : Z) : V unit :=
  if offset <? 0 then fatal EXIT_JOBERR "fseek() error"
  else modify (set_rest infile (str_drop (Z.to_nat offset) content)).

(** What copy_pages() does for a page it has chosen. *)
Definition send_page (fuel : nat) (page : sent_page) : V unit :=
  match page with
  | Page entry newnumber =>
      seek PAGES sc_pages (pages_offset entry);;
      seek TEXT sc_text (text_offset entry);;
      copy_a_page fuel newnumber
  | Dummy newnumber =>
      printf ("%%%%Page: dummy %d" +:+ line_end) [AD newnumber];;
      puts ("showpage" +:+ line_end +:+ line_end)
  end.

Fixpoint send_pages (fuel : nat) (pages : list sent_page) : V unit :=
  match pages with
  | [] => mret tt
  | page :: pages' => send_page fuel page;; send_pages fuel pages'
  end.

(** ** The trailer *)

Fixpoint copy_trailer_lines (fuel : nat) : V unit :=
  match fuel with
  | 0%nat => λ _, Stopped SFuel
  | S fuel' =>
      got ← dgetline fuel TEXT;
      when got
        (write_line;;
         level ← gets v_level;
         line ← the_line;
         if (level =? 0) && String.eqb line "%%EOF" then mret tt else copy_trailer_lines fuel')
  end.

Definition copy_trailer (fuel : nat) : V unit :=
  pline ← getpline;
  match pline with
  | None => fatal EXIT_JOBERR "copy_trailer(): bad job: got EOF"
  | Some pline =>
      if negb (String.eqb pline "%%Trailer") then fatal EXIT_JOBERR "copy_trailer(): bad job"
      else
        pline ← getpline;
        match pline with
        | None => fatal EXIT_JOBERR "copy_trailer(): bad job: got EOF"
        | Some pline =>
            match gu_sscanf pline "Offset: %ld" [] with
            | Scanned 1 [VInt temp_offset] =>
                seek TEXT sc_text temp_offset;;
                copy_trailer_lines fuel;;
                close_N_Up;;
                puts ("%%EOF" +:+ line_end)
            | Scanned _ _ => fatal EXIT_JOBERR "copy_trailer(): bad job"
            | ScanThrow msg => gu_Throw msg
            | ScanUndef => undef "signed overflow"
            end
        end
  end.
End sections.
