(* ===== verification/PropReader.v ===== *)
(** The reader of a job's lines comes to an end. *)
From S2P Require Import Prelude.
From S2P Require Import Text.
From S2P Require Import TextFacts.
From S2P Require Import Spooler.
From S2P Require Import DriverOutput.
From S2P Require Import JobFile.
From S2P Require Import Tokens.
From S2P Require Import ReadPpd.
From S2P Require Import PropReadPpd.
From S2P Require Import Ppd.
From S2P Require Import Fonts.
From S2P Require Import Programs.
From S2P Require Import PropOutlines.
From S2P Require Import PropFonts.
From S2P Require Import Document.
From S2P Require Import Resources.
From S2P Require Import Insertions.
From S2P Require Import Sections.

(** * Routines that return *)

Lemma puts_lower_returns s : returns (puts_lower s).
Proof. induction s; cbn [puts_lower]; returns. Qed.

Lemma putc_escaped_returns c : returns (printer_putc_escaped c).
Proof.
  unfold printer_putc_escaped. pose proof printf_returns. returns.
Qed.

Lemma raw_putc_returns c : returns (raw_printer_putc c).
Proof. apply only_fatal_returns, raw_putc_only_fatal. Qed.

#[export] Hint Resolve puts_lower_returns putc_escaped_returns
  raw_putc_returns : returns.

Lemma puts_escaped_returns s : returns (printer_puts_escaped s).
Proof. induction s; cbn [printer_puts_escaped]; returns. Qed.

Lemma puts_QuotedValue_returns hex s : returns (puts_QuotedValue_in hex s).
Proof.
  revert hex. induction s as [|c s IH]; intros hex; cbn [puts_QuotedValue_in]; [returns|].
  unfold printer_putc_int. returns.
Qed.

Lemma copy_bytes_returns len file : returns (copy_bytes len file).
Proof. revert len. induction file; intros len; cbn [copy_bytes]; returns. Qed.

Lemma pfb_returns file : returns (send_font_pfb file).
Proof. apply only_fatal_returns, segments_settle. lia. Qed.

Lemma font_copy_returns stop tline lines : returns (font_copy stop tline lines).
Proof. revert tline. induction lines; intros tline; cbn [font_copy]; returns. Qed.

Lemma font_discard_returns stop tline lines : returns (font_discard stop tline lines).
Proof. revert tline. induction lines; intros tline; cbn [font_discard]; returns. Qed.

Lemma font_head_returns tline lines : returns (font_head tline lines).
Proof. revert tline. induction lines; intros tline; cbn [font_head]; returns. Qed.

Lemma font_tail_returns tline lines : returns (font_tail tline lines).
Proof. revert tline. induction lines; intros tline; cbn [font_tail]; returns. Qed.

#[export] Hint Resolve puts_escaped_returns puts_QuotedValue_returns copy_bytes_returns pfb_returns
  font_copy_returns font_discard_returns font_head_returns font_tail_returns : returns.

Lemma mactt_returns type42_ok TTRasterizer file : returns (send_font_mactt type42_ok TTRasterizer file).
Proof.
  unfold send_font_mactt, font_sfnt, font_type1, font_part. generalize sfntBC. intros text. returns.
Qed.

#[export] Hint Resolve mactt_returns : returns.

(** * Routines that read no backwards *)

Definition left_over (infile : job_file) (v : doc) : nat := String.length (rest_of infile v).

(** With less than [n] characters to be read in the file, the routine comes to an
    end, and afterwards there are no more. *)
Definition reads (infile : job_file) (n : nat) {A} (m : V A) : Prop := ∀ v,
  (left_over infile v < n)%nat →
  match m v with
  | Done _ v' => (left_over infile v' <= left_over infile v)%nat
  | Thrown _ _ => True
  | Stopped r => r ≠ SFuel
  end.

(** A line, if there is one, has been taken from the file. *)
Definition reads_line (infile : job_file) (n : nat) (m : V bool) : Prop := ∀ v,
  (left_over infile v < n)%nat →
  match m v with
  | Done got v' =>
      (left_over infile v' <= left_over infile v)%nat ∧
      (got = true → left_over infile v' < left_over infile v)%nat
  | Thrown _ _ => True
  | Stopped r => r ≠ SFuel
  end.

Section reads.
Context (infile : job_file) (n : nat).

Lemma file_reads_ret {A} (a : A) : reads infile n (mret a).
Proof. intros v _. simpl. lia. Qed.
Lemma file_reads_gets {A} (f : doc → A) : reads infile n (gets f).
Proof. intros v _. simpl. lia. Qed.
Lemma file_reads_fatal {A} code msg : reads infile n (A := A) (fatal code msg).
Proof. by intros v _. Qed.
Lemma file_reads_undef {A} why : reads infile n (A := A) (undef why).
Proof. by intros v _. Qed.
Lemma file_reads_throw {A} msg : reads infile n (A := A) (gu_Throw msg).
Proof. by intros v _. Qed.

Lemma reads_modify f :
  (∀ v, left_over infile (f v) <= left_over infile v)%nat → reads infile n (modify f).
Proof. intros Hf v _. apply Hf. Qed.

Lemma file_reads_bind {A B} (m : V A) (f : A → V B) :
  reads infile n m → (∀ a, reads infile n (f a)) → reads infile n (m ≫= f).
Proof.
  intros Hm Hf v Hv. unfold mbind, M_bind. specialize (Hm v Hv). destruct (m v) as [a v1| |]; [|done|done].
  specialize (Hf a v1 ltac:(lia)). destruct (f a v1); [lia | done | done].
Qed.

Lemma file_reads_when b m : reads infile n m → reads infile n (when b m).
Proof. destruct b; [done | intros _; apply file_reads_ret]. Qed.

Lemma reads_out {A} (m : O A) : returns m → reads infile n (out m).
Proof.
  intros Hm v _. unfold out. specialize (Hm (v_out v)). destruct (m (v_out v)); [|done | congruence].
  unfold left_over. destruct infile, v; apply le_n.
Qed.
End reads.

Create HintDb from_file.
#[export] Hint Resolve file_reads_ret file_reads_gets file_reads_fatal file_reads_undef file_reads_throw reads_out : from_file.

Ltac reads_modify :=
  apply reads_modify; let v := fresh "v" in intros v; unfold left_over;
  match goal with |- context [rest_of ?i _] => destruct i, v; apply le_n end.

Ltac reads :=
  repeat (cbv zeta; first
    [ progress eauto with from_file returns
    | apply reads_out; solve [returns]
    | reads_modify
    | apply file_reads_bind; [|intros]
    | apply file_reads_when
    | case_match ]).

Section operations.
Context `{DriverConfig} `{ResourceConfig} `{SectionConfig} (infile : job_file) (n : nat).

Lemma reads_puts text : reads infile n (puts text).
Proof. unfold puts. reads. Qed.
Lemma reads_putline text : reads infile n (putline text).
Proof. unfold putline. reads. Qed.
Lemma reads_putc c : reads infile n (putc c).
Proof. unfold putc. reads. Qed.
Lemma reads_printf fmt va : reads infile n (printf fmt va).
Proof. unfold printf. reads. Qed.
Lemma reads_warning msg : reads infile n (feature_warning msg).
Proof. unfold feature_warning. reads. Qed.
Lemma reads_reason msg : reads infile n (give_reason msg).
Proof. unfold give_reason. reads. Qed.
Hint Resolve reads_puts reads_putline reads_putc reads_printf reads_warning reads_reason : from_file.

Lemma reads_putlines lines : reads infile n (putlines lines).
Proof. induction lines; cbn [putlines]; reads. Qed.

Lemma reads_the_line : reads infile n the_line.
Proof. unfold the_line. reads. Qed.
Lemma reads_token i : reads infile n (token i).
Proof. unfold token. reads. Qed.
Hint Resolve reads_putlines reads_the_line reads_token : from_file.

Lemma reads_tokenize : reads infile n tokenize_line.
Proof.
  unfold tokenize_line, tokenize. apply file_reads_bind; [reads|intros]. reads.
Qed.
Lemma reads_write_line : reads infile n write_line.
Proof. unfold write_line. reads. Qed.
Lemma reads_find_feature featuretype option : reads infile n (find_feature dc_ppd featuretype option).
Proof. unfold find_feature. reads. Qed.
Lemma reads_feature_change featuretype option : reads infile n (feature_change featuretype option).
Proof. unfold feature_change. reads. Qed.
Lemma reads_comment_with k f o : reads infile n (comment_with k f o).
Proof. unfold comment_with. reads. Qed.
Lemma reads_put_code o code : reads infile n (put_code o code).
Proof. unfold put_code, printer_puts_QuotedValue. reads. Qed.
Hint Resolve reads_tokenize reads_write_line reads_find_feature reads_feature_change
  reads_comment_with reads_put_code : from_file.

Lemma reads_include_feature featuretype option : reads infile n (include_feature featuretype option).
Proof. unfold include_feature. reads. Qed.
Lemma reads_begin_stopped : reads infile n begin_stopped.
Proof. unfold begin_stopped. reads. Qed.
Lemma reads_end_stopped f o : reads infile n (end_stopped f o).
Proof. unfold end_stopped. reads. Qed.
Hint Resolve reads_include_feature reads_begin_stopped reads_end_stopped : from_file.

Lemma reads_name_resource start type name version revision :
  reads infile n (name_resource start type name version revision).
Proof. unfold name_resource. reads. Qed.
Lemma reads_open filename : reads infile n (open_resource filename).
Proof. unfold open_resource. reads. Qed.
Hint Resolve reads_name_resource reads_open : from_file.

Lemma reads_resource_content d type name filename version revision :
  reads infile n (resource_content d type name filename version revision).
Proof. unfold resource_content, send_font_tt. reads. Qed.
Lemma reads_substitution a b c : reads infile n (substitution a b c).
Proof. unfold substitution. reads. Qed.
Hint Resolve reads_resource_content reads_substitution : from_file.

Lemma reads_include_resource_2 type name version revision a b :
  reads infile n (include_resource_2 type name version revision a b).
Proof. unfold include_resource_2. reads. Qed.
Hint Resolve reads_include_resource_2 : from_file.
Lemma reads_include_resource : reads infile n include_resource.
Proof. unfold include_resource. reads. Qed.
End operations.

#[export] Hint Resolve reads_puts reads_putline reads_putc reads_printf reads_warning reads_reason
  reads_putlines reads_the_line reads_token reads_tokenize reads_write_line reads_find_feature
  reads_feature_change reads_comment_with reads_put_code reads_include_feature
  reads_begin_stopped reads_end_stopped reads_include_resource reads_include_resource_2 : from_file.

(** * Lines *)

Lemma read_line_shorter room file :
  (String.length (read_line room file).1.2 <= String.length file)%nat.
Proof.
  revert file. induction room as [|room IH]; intros [|c file]; try (simpl; lia). cbn [read_line].
  destruct (code c =? 10); [simpl; lia|]. specialize (IH file).
  destruct (read_line room file) as [[line rest] overflow]. simpl in *. lia.
Qed.

Lemma read_line_takes room c file :
  (String.length (read_line (S room) (String c file)).1.2 <= String.length file)%nat.
Proof.
  cbn [read_line]. destruct (code c =? 10); [simpl; lia|]. pose proof (read_line_shorter room file) as H.
  destruct (read_line room file) as [[line rest] overflow]. exact H.
Qed.

Lemma rest_of_set infile rest v : rest_of infile (set_rest infile rest v) = rest.
Proof. by destruct infile. Qed.

(** Reading a line changes the file's position and the line's variables. *)
Lemma dgetline_read_runs infile v :
  dgetline_read infile v =
  match rest_of infile v with
  | EmptyString => Done false (set_v_line_len 0 (set_v_line_overflow false v))
  | file =>
      let '(line, rest, overflow) := read_line MAX_LINE file in
      Done true (set_v_line_overflow overflow (set_v_line_len (String.length line)
        (set_v_line line (set_rest infile rest (set_v_line_overflow false v)))))
  end.
Proof.
  unfold dgetline_read, modify, gets, mbind, M_bind.
  assert (rest_of infile (set_v_line_overflow false v) = rest_of infile v) as ->
    by by destruct infile.
  destruct (rest_of infile v) as [|c file]; [done|].
  by destruct (read_line MAX_LINE (String c file)) as [[line rest] overflow].
Qed.

Lemma left_over_line infile line len overflow rest v :
  left_over infile (set_v_line_overflow overflow (set_v_line_len len (set_v_line line
    (set_rest infile rest (set_v_line_overflow false v))))) = String.length rest.
Proof. unfold left_over. by destruct infile. Qed.

Lemma dgetline_read_takes infile n : reads_line infile n (dgetline_read infile).
Proof.
  intros v _. rewrite dgetline_read_runs. destruct (rest_of infile v) as [|c file] eqn:E.
  { split; [|done]. unfold left_over.
    assert (rest_of infile (set_v_line_len 0 (set_v_line_overflow false v)) = rest_of infile v) as ->
      by by destruct infile. apply le_n. }
  pose proof (read_line_takes 1023 c file) as H. change (S 1023) with MAX_LINE in H.
  revert H. destruct (read_line MAX_LINE (String c file)) as [[line rest] overflow]. cbn [fst snd].
  intros H. rewrite left_over_line. unfold left_over. rewrite E. simpl. split; [lia|]. intros _. lia.
Qed.

Lemma reads_line_weaken infile n m (k : V bool) : (m <= n)%nat → reads_line infile n k → reads_line infile m k.
Proof. intros Hm Hk v Hv. apply Hk. lia. Qed.

Section lines.
Context `{DriverConfig} `{ResourceConfig} `{SectionConfig} (infile : job_file).

(** A loop that begins each turn with a line. *)
Lemma reads_after_line {A} fuel next (body : bool → V A) :
  reads_line infile (S fuel) next → reads infile (S fuel) (body false) →
  reads infile fuel (body true) → reads infile (S fuel) (next ≫= body).
Proof.
  intros Hn Hf Ht v Hv. unfold mbind, M_bind. specialize (Hn v Hv).
  destruct (next v) as [[] v1| |]; [| |done|done].
  - destruct Hn as [_ Hn]. specialize (Ht v1 ltac:(specialize (Hn eq_refl); lia)).
    specialize (Hn eq_refl). destruct (body true v1); [lia|done|done].
  - destruct Hn as [Hn _]. specialize (Hf v1 ltac:(lia)). destruct (body false v1); [lia|done|done].
Qed.

Lemma code_lines_end fuel next ending reason keep :
  reads_line infile fuel next → reads infile fuel (code_lines fuel next ending reason keep).
Proof.
  induction fuel as [|fuel IH]; intros Hn.
  { intros v Hv. lia. }
  cbn [code_lines]. apply reads_after_line; [done | |].
  - cbn [negb]. reads.
  - cbn [negb]. specialize (IH (reads_line_weaken infile (S fuel) fuel next ltac:(lia) Hn)). reads.
Qed.

Lemma resource_lines_end fuel next keep :
  reads_line infile fuel next → reads infile fuel (resource_lines fuel next keep).
Proof.
  induction fuel as [|fuel IH]; intros Hn.
  { intros v Hv. lia. }
  specialize (IH (reads_line_weaken infile (S fuel) fuel next ltac:(lia) Hn)).
  cbn [resource_lines]. apply file_reads_bind; [reads|intros _]. apply file_reads_bind; [reads|intros line].
  destruct (String.eqb line "%%EndResource"); [reads|].
  apply reads_after_line; [done | reads | exact IH].
Qed.

Lemma begin_feature_ends fuel next featuretype option :
  reads_line infile fuel next → reads infile fuel (begin_feature fuel next featuretype option).
Proof.
  intros Hn. pose proof (code_lines_end fuel next "%%EndFeature" "defective feature invokation") as Hc.
  assert (∀ keep, reads infile fuel (code_lines fuel next "%%EndFeature"
    "defective feature invokation" keep)) by auto.
  unfold begin_feature. reads.
Qed.

Lemma begin_nonppd_feature_ends fuel next name value :
  reads_line infile fuel next → reads infile fuel (begin_nonppd_feature fuel next name value).
Proof.
  intros Hn. assert (∀ ending reason keep, reads infile fuel (code_lines fuel next ending reason keep))
    by (intros; by apply code_lines_end).
  unfold begin_nonppd_feature, set_numcopies_bare. reads.
Qed.

Lemma begin_resource_ends fuel next :
  reads_line infile fuel next → reads infile fuel (begin_resource fuel next).
Proof.
  intros Hn. assert (∀ keep, reads infile fuel (resource_lines fuel next keep))
    by (intros; by apply resource_lines_end).
  unfold begin_resource. reads.
Qed.

Lemma fgets_takes size c text : (String.length (fgets (S (S size)) (String c text)).2 <= String.length text)%nat.
Proof. apply fgets_rest. Qed.

Lemma copy_lines_ends fuel len : reads infile fuel (copy_lines fuel infile len).
Proof.
  revert len. induction fuel as [|fuel IH]; intros len v Hv; [lia|]. cbn [copy_lines].
  destruct (len =? 0); [apply (file_reads_ret infile (S fuel)); exact Hv|].
  unfold mbind at 1, M_bind, gets. unfold left_over in Hv.
  destruct (rest_of infile v) as [|c file] eqn:E.
  { apply (file_reads_ret infile (S fuel)). unfold left_over. by rewrite E. }
  pose proof (fgets_takes 1023 c file) as Hf. change (S (S 1023)) with (MAX_LINE + 1)%nat in Hf.
  revert Hf. destruct (fgets (MAX_LINE + 1) (String c file)) as [line rest]. cbn [snd]. intros Hf.
  simpl in Hv. unfold modify, mbind, M_bind.
  set (v1 := set_v_line line (set_rest infile rest v)).
  assert (left_over infile v1 = String.length rest) as Hv1 by (unfold v1, left_over; by destruct infile).
  assert (reads infile fuel (puts (c_string line);; copy_lines fuel infile (len - 1))) as Hr.
  { apply file_reads_bind; [reads | intros; apply IH]. }
  specialize (Hr v1 ltac:(lia)). unfold mbind, M_bind in Hr. unfold left_over at 2. rewrite E. simpl.
  destruct (puts (c_string line) v1) as [[] v2| |]; [|done|done].
  destruct (copy_lines fuel infile (len - 1) v2); [lia|done|done].
Qed.
End lines.

Lemma copy_bytes_shorter len file s rest s' :
  copy_bytes len file s = Done rest s' → (String.length rest <= String.length file)%nat.
Proof.
  revert len s. induction file as [|c file IH]; intros len s; cbn [copy_bytes];
    destruct (len =? 0); try (intros [= <- <-]; simpl; lia).
  intros (? & s1 & _ & E)%done_bind. apply IH in E. simpl. lia.
Qed.

Section reader.
Context `{DriverConfig} `{ResourceConfig} `{SectionConfig} (infile : job_file).

Lemma copy_data_ends n : reads infile n (copy_data infile).
Proof.
  unfold copy_data. apply file_reads_bind; [reads|intros line]. apply file_reads_bind; [reads|intros _].
  do 3 (apply file_reads_bind; [reads|intros ?]). case_match; [|reads]. case_match; [|reads].
  case_match; [|reads]. apply file_reads_bind; [reads|intros len].
  intros v Hv. unfold mbind at 1, M_bind, gets.
  destruct (String.eqb _ "Lines").
  - apply copy_lines_ends. unfold left_over. lia.
  - unfold mbind, M_bind, out. pose proof (copy_bytes_returns len (rest_of infile v) (v_out v)) as Hr.
    destruct (copy_bytes len (rest_of infile v) (v_out v)) as [rest o|e o|r] eqn:E;
      [|done | by intros ->].
    apply copy_bytes_shorter in E. unfold modify, left_over. rewrite rest_of_set.
    exact E.
Qed.

Lemma dgetline_parse_ends fuel next :
  reads_line infile fuel next → reads infile fuel (dgetline_parse fuel next infile).
Proof.
  intros Hn. pose proof (copy_data_ends fuel).
  assert (∀ t o, reads infile fuel (begin_feature fuel next t o)) by (intros; by apply begin_feature_ends).
  assert (∀ t o, reads infile fuel (begin_nonppd_feature fuel next t o))
    by (intros; by apply begin_nonppd_feature_ends).
  assert (reads infile fuel (begin_resource fuel next)) by by apply begin_resource_ends.
  unfold dgetline_parse. apply file_reads_bind; [reads|intros line]. destruct (kind_of line); reads.
  apply reads_modify. intros v. unfold left_over. destruct (v_level v =? 0); destruct infile; apply le_n.
Qed.

Lemma dgetline_ends fuel : reads_line infile fuel (dgetline fuel infile).
Proof.
  induction fuel as [|fuel IH]; intros v Hv; [lia|]. cbn [dgetline].
  unfold mbind at 1, M_bind. pose proof (dgetline_read_takes infile (S fuel) v Hv) as Hg.
  destruct (dgetline_read infile v) as [[] v1| |]; [|by destruct Hg|done|done].
  destruct Hg as [_ Hg]. specialize (Hg eq_refl). cbn [negb].
  assert (v1 = v1) as _ by done. unfold mbind at 1, M_bind, the_line, gets, mret, M_ret.
  unfold mbind at 1, M_bind. destruct (c_string (v_line v1)) as [|c line].
  { split; [lia | by intros _]. }
  unfold mbind, M_bind.
  pose proof (dgetline_parse_ends fuel (dgetline fuel infile) IH v1 ltac:(lia)) as Hp.
  destruct (dgetline_parse fuel (dgetline fuel infile) infile v1) as [handled v2| |]; [|done|done].
  destruct handled; [|split; [lia | intros _; lia]].
  specialize (IH v2 ltac:(lia)). destruct (dgetline fuel infile v2) as [got v3| |]; [|done|done].
  destruct IH as [IH1 IH2]. split; [lia | intros ->; specialize (IH2 eq_refl); lia].
Qed.
End reader.
