(* ===== verification/PropSections.v ===== *)
(** A printer, its PPD file and a job's files, for the examples; and the
    properties of the copying of the sections of a job. *)
From S2P Require Import Prelude.
From S2P Require Import Text.
From S2P Require Import TextFacts.
From S2P Require Import Spooler.
From S2P Require Import DriverOutput.
From S2P Require Import JobFile.
From S2P Require Import Pages.
From S2P Require Import Tokens.
From S2P Require Import ReadPpd.
From S2P Require Import Ppd.
From S2P Require Import PropPpd.
From S2P Require Import PropTokens.
From S2P Require Import Fonts.
From S2P Require Import Programs.
From S2P Require Import PropFonts.
From S2P Require Import Document.
From S2P Require Import Resources.
From S2P Require Import Insertions.
From S2P Require Import Sections.
From S2P Require Import PropReader.

(** The code for one option of one feature. *)
Definition sample_ppd : ppd :=
  mkPpd [] (alter (λ b, b ++ [("*Resolution 600dpi", "600 setres")]) (hash "*Resolution 600dpi" PPD_TABSIZE)
      (replicate (Z.to_nat PPD_TABSIZE) []))
    (replicate (Z.to_nat FONT_TABSIZE) []) EmptyString EmptyString false
    (mkFeatures false 0 FAXSUPPORT_NONE false 2 TT_UNKNOWN) [] 0 false false 0 None None None [].

Definition sample_config (job : QEntryFile) : DriverConfig := {| dc_job := job; dc_ppd := sample_ppd |}.

Definition sample_resources : ResourceConfig :=
  {| FONT_INDEX := None; RESOURCEDIR := "/res"; resource_files := ∅ |}.

Definition sample_sections (pages text : string) : SectionConfig :=
  {| sc_QueueFile := "dummy-1000.0"; sc_drvreq := []; sc_media_xlate := []; sc_mounted_file := None;
     sc_JobTimeout := -1; sc_WaitTimeout := -1; sc_ManualfeedTimeout := -1; sc_DoPrintErrors := -1;
     sc_hook_flags := 0; sc_hook_path := None; sc_hook_executable := false;
     sc_hook_output := λ _ _, EmptyString; sc_sheetcount := 1; sc_copies_pages_countdown := 1;
     sc_print_direction := 1; sc_current_job_direction := 1; sc_pages := pages; sc_text := text |}.

Definition sample_output : outbuf := mkOut EmptyString BUFSIZE EmptyString 0 false false [].

(** The driver with these files before it. *)
Definition sample_doc (comments pages text : string) : doc :=
  mkDoc sample_output comments pages text EmptyString 0 false [] 0 false false (-1) 0 None false false
    [] false false EmptyString [] [].

(** * What the parts of a job become on their way to the printer. *)

(** * The pieces of a text *)

(** Every line ends, the last one too. *)
Fixpoint closed (s : string) : bool :=
  match s with
  | EmptyString => true
  | String c EmptyString => code c =? 10
  | String _ s' => closed s'
  end.

(** What read_line() makes of a text: its lines, those that are too long for
    line[] in parts. *)
Fixpoint pieces (n : nat) (text : string) : list string :=
  match n, text with
  | S n', String _ _ =>
      let '(line, rest, _) := read_line MAX_LINE text in line :: pieces n' rest
  | _, _ => []
  end.

Definition break_of (overflow : bool) : string := if overflow then EmptyString else newline.

Lemma closed_tail c a : a ≠ EmptyString → closed (String c a) = closed a.
Proof. by destruct a. Qed.

Lemma read_line_step room c s :
  read_line (S room) (String c s) =
  if code c =? 10 then (EmptyString, s, false)
  else let '(line, rest, overflow) := read_line room s in (String c line, rest, overflow).
Proof. done. Qed.

Lemma newline_char c s : code c = 10 → String c s = newline +:+ s.
Proof. intros E. change newline with (String (chr 10) EmptyString). by rewrite <- (chr_code c), E. Qed.

(** A line of a text is a line of every text that goes on behind it. *)
Lemma read_line_app room a b :
  closed a = true → a ≠ EmptyString →
  let '(line, rest, overflow) := read_line (S room) a in
  read_line (S room) (a +:+ b) = (line, rest +:+ b, overflow) ∧
  a = line +:+ break_of overflow +:+ rest ∧ closed rest = true.
Proof.
  revert a. induction room as [|room IH]; intros [|c a] Hc Hne; try done;
    rewrite str_cons_app, !read_line_step; destruct (Z.eqb_spec (code c) 10) as [E|E].
  1, 3: split; [done|]; split; [by rewrite (newline_char c a E) | by destruct a].
  - split; [done|]. split; [done|]. destruct a; [|done]. simpl in Hc. by apply Z.eqb_eq in Hc.
  - assert (a ≠ EmptyString) as Ha.
    { intros ->. simpl in Hc. by apply Z.eqb_eq in Hc. }
    rewrite closed_tail in Hc by done. specialize (IH a Hc Ha).
    destruct (read_line (S room) a) as [[l r] o]. destruct IH as (-> & E2 & E3).
    split; [done|]. split; [by rewrite E2 at 1 | done].
Qed.

Lemma read_line_long room a :
  a ≠ EmptyString → (0 < room)%nat →
  (String.length (read_line room a).1.2 < String.length a)%nat.
Proof.
  destruct a as [|c a]; [done|]. destruct room as [|room]; [lia|]. intros _ _.
  pose proof (read_line_takes room c a). change (String.length (String c a)) with (S (String.length a)). lia.
Qed.

(** * Lines that are copied *)

(** The state behind a line. *)
Definition after (infile : job_file) (line rest : string) (overflow : bool) (v : doc) : doc :=
  set_v_line_overflow overflow (set_v_line_len (String.length line) (set_v_line line
    (set_rest infile rest (set_v_line_overflow false v)))).

Lemma out_app {A} (m : O unit) (k : O A) v :
  out (m;; k) v = (out m;; out k) v.
Proof.
  unfold out, mbind, M_bind. destruct (m (v_out v)); [|done|done]. simpl.
  by destruct (k s).
Qed.

Lemma out_alike {A} (m m' : O A) v : alike m m' → out m v = out m' v.
Proof. intros [H]. unfold out. by rewrite H. Qed.

Lemma write_line_puts line overflow v :
  v_line v = line → v_line_len v = String.length line → v_line_overflow v = overflow →
  write_line v = puts (line +:+ break_of overflow) v.
Proof.
  intros El En Eo. unfold write_line, mbind at 1, M_bind, gets, id.
  rewrite En, El, Eo, str_take_ge by lia.
  unfold puts, putc. destruct overflow; cbn [negb when break_of].
  - rewrite str_app_nil_r. unfold mbind, M_bind. destruct (out _ _) as [[] ?| |]; done.
  - rewrite <- out_app. apply out_alike. rewrite write_app.
    apply bind_under. intros []. split. intros s. unfold newline, of_chars. simpl.
    unfold mbind, M_bind. by destruct (printer_putc _ s) as [[]| |].
Qed.

(** Lines that the reader hands on: ordinary ones, and those around a document
    inside the document, which change the level. *)
Definition handed_on (k : line_kind) : Prop := k = Ordinary ∨ k = BeginDocument ∨ k = EndDocument.

Definition level_after (k : line_kind) (level : Z) : Z :=
  match k with
  | BeginDocument => level + 1
  | EndDocument => if level =? 0 then 0 else level - 1
  | _ => level
  end.

Definition seen (line rest : string) (overflow : bool) (v : doc) : doc :=
  set_v_level (level_after (kind_of (c_string line)) (v_level v)) (after TEXT line rest overflow v).

Lemma seen_ordinary line rest overflow v :
  kind_of (c_string line) = Ordinary → seen line rest overflow v = after TEXT line rest overflow v.
Proof. intros Hk. unfold seen. rewrite Hk. by destruct v. Qed.

Section copying.
Context `{DriverConfig} `{ResourceConfig} `{SectionConfig}.

Lemma dgetline_read_line infile v line rest overflow :
  rest_of infile v ≠ EmptyString → read_line MAX_LINE (rest_of infile v) = (line, rest, overflow) →
  dgetline_read infile v = Done true (after infile line rest overflow v).
Proof.
  intros Hne Hr. rewrite dgetline_read_runs. destruct (rest_of infile v) as [|c file]; [done|]. by rewrite Hr.
Qed.

Lemma dgetline_ordinary fuel infile v line rest overflow :
  rest_of infile v ≠ EmptyString → read_line MAX_LINE (rest_of infile v) = (line, rest, overflow) →
  kind_of (c_string line) = Ordinary →
  dgetline (S fuel) infile v = Done true (after infile line rest overflow v).
Proof.
  intros Hne Hr Hk. cbn [dgetline]. unfold mbind at 1, M_bind.
  rewrite (dgetline_read_line _ _ line rest overflow) by done. cbn [negb]. set (v' := after _ _ _ _ v).
  assert (the_line v' = Done (c_string line) v') as Hl by (unfold v'; by destruct infile).
  unfold mbind at 1, M_bind. rewrite Hl. destruct (c_string line) as [|d l] eqn:E; [done|].
  unfold mbind, M_bind, dgetline_parse, mbind, M_bind. rewrite Hl, Hk. done.
Qed.

Lemma dgetline_handed_on fuel v line rest overflow :
  v_text v ≠ EmptyString → read_line MAX_LINE (v_text v) = (line, rest, overflow) →
  handed_on (kind_of (c_string line)) →
  dgetline (S fuel) TEXT v = Done true (seen line rest overflow v).
Proof.
  intros Hne Hr Hk. cbn [dgetline]. unfold mbind at 1, M_bind.
  rewrite (dgetline_read_line TEXT v line rest overflow) by done. cbn [negb]. set (v' := after _ _ _ _ v).
  assert (the_line v' = Done (c_string line) v') as Hl by done.
  unfold mbind at 1, M_bind. rewrite Hl. unfold seen.
  destruct (c_string line) as [|d l] eqn:E; [by destruct v|].
  unfold mbind, M_bind, dgetline_parse, mbind, M_bind. rewrite Hl.
  destruct Hk as [-> | [-> | ->]]; [by destruct v | done |].
  unfold modify. cbn [level_after]. change (v_level v') with (v_level v).
  destruct (Z.eqb_spec (v_level v) 0) as [E0|]; [|done]. unfold v'. rewrite <-E0. by destruct v.
Qed.
End copying.

Lemma puts_done text v o :
  printer_write text (v_out v) = Done tt o → puts text v = Done tt (set_v_out o v).
Proof. intros E. unfold puts, out. by rewrite E. Qed.

Lemma write_split a b s o :
  printer_write (a +:+ b) s = Done tt o →
  ∃ o1, printer_write a s = Done tt o1 ∧ printer_write b o1 = Done tt o.
Proof.
  rewrite (alike_run _ _ (write_app a b)). intros ([] & o1 & E1 & E2)%done_bind. eauto.
Qed.

Lemma read_line_whole room line rest :
  lacks is_newline line → (String.length line < room)%nat →
  read_line room (line +:+ newline +:+ rest) = (line, rest, false).
Proof.
  revert room. induction line as [|c line IH]; intros room Hn Hr.
  - destruct room; [simpl in Hr; lia|]. done.
  - inversion Hn as [|? ? Hc Hn']; subst. simpl in Hr. destruct room as [|room]; [lia|].
    rewrite str_cons_app, read_line_step. unfold is_newline in Hc. rewrite Hc, IH by (done || lia). done.
Qed.

Section pages.
Context `{DriverConfig} `{ResourceConfig} `{SectionConfig}.

(** A line that would end the page, were it not inside a document of its own. *)
Definition ending (line : string) : bool :=
  lmatch (c_string line) "%%Page:" || String.eqb (c_string line) "%%Trailer".

(** The lines inside a page: documents may be nested there, but their ends are
    there too; the lines that end a page stand inside them only. *)
Fixpoint page_lines (level : Z) (lines : list string) : bool :=
  match lines with
  | [] => level =? 0
  | line :: lines' =>
      match kind_of (c_string line) with
      | BeginDocument => page_lines (level + 1) lines'
      | EndDocument => page_lines (if level =? 0 then 0 else level - 1) lines'
      | Ordinary => (negb (level =? 0) || negb (ending line)) && page_lines level lines'
      | _ => false
      end
  end.

Lemma page_lines_cons level line lines :
  0 ≤ level → page_lines level (line :: lines) = true →
  let level' := level_after (kind_of (c_string line)) level in
  handed_on (kind_of (c_string line)) ∧ 0 ≤ level' ∧ page_lines level' lines = true ∧
  negb (level' =? 0) || negb (ending line) = true.
Proof.
  intros Hlev. cbn [page_lines]. unfold handed_on. destruct (kind_of (c_string line)) eqn:Hk; try done; intros Hl;
    cbn [level_after].
  - rewrite (proj2 (Z.eqb_neq (level + 1) 0)) by lia. split_and!; [tauto | lia | done | done].
  - assert (c_string line = "%%EndDocument") as Ec.
    { unfold kind_of in Hk. do 7 (destruct (lmatch _ _); [discriminate|]).
      destruct (String.eqb_spec (c_string line) "%%EndDocument"); [done | discriminate]. }
    unfold ending. rewrite Ec, orb_true_r. split_and!; [tauto | | done | done].
    destruct (Z.eqb_spec level 0); lia.
  - apply andb_true_iff in Hl as [Hon Hl]. by split_and!; [tauto | ..].
Qed.

Record ends_page (line : string) : Prop := {
  ep_ordinary : kind_of line = Ordinary;
  ep_mark : lmatch line "%%Page:" || String.eqb line "%%Trailer" = true;
  ep_line : lacks is_newline line ∧ lacks is_nul line;
  ep_length : (String.length line < MAX_LINE)%nat;
}.

Lemma copy_page_stop stop rest v f1 f2 :
  ends_page stop → v_level v = 0 → v_text v = stop +:+ newline +:+ rest →
  (got ← dgetline (S f1) TEXT; copy_page_lines (S f2) got) v = Done tt (after TEXT stop rest false v).
Proof.
  intros [Hk Hm [Hn Hz] Hlen] Hlev Ht.
  assert (rest_of TEXT v = stop +:+ newline +:+ rest) as Hr by exact Ht.
  unfold mbind at 1, M_bind. rewrite (dgetline_ordinary f1 TEXT v stop rest false).
  - set (v1 := after TEXT stop rest false v). cbn [copy_page_lines].
    unfold mbind, M_bind, the_line, gets, mret, M_ret, mbind, M_bind.
    change (v_line v1) with stop. change (v_level v1) with (v_level v).
    rewrite c_string_whole, Hlev by done. cbn [Z.eqb negb orb andb]. by rewrite <- negb_orb, Hm.
  - rewrite Hr. by destruct stop.
  - rewrite Hr. by apply read_line_whole.
  - by rewrite c_string_whole.
Qed.

Lemma copy_page_body stop rest n body v f1 f2 o :
  (String.length body <= n)%nat → (n < f2)%nat → ends_page stop → closed body = true →
  0 ≤ v_level v → page_lines (v_level v) (pieces n body) = true →
  v_text v = body +:+ stop +:+ newline +:+ rest →
  printer_write body (v_out v) = Done tt o →
  ∃ v', (got ← dgetline (S f1) TEXT; copy_page_lines f2 got) v = Done tt v' ∧
    v_out v' = o ∧ v_line v' = stop ∧ v_text v' = rest ∧ v_level v' = 0.
Proof.
  intros Hl Hf Hs. revert body v f1 f2 Hl Hf. induction n as [|n IH];
    intros body v f1 f2 Hl Hf Hc Hlev Hp Ht Hw; (destruct f2 as [|f2]; [lia|]).
  all: destruct (decide (body = EmptyString)) as [->|Hne].
  1, 3: injection Hw as <-; apply Z.eqb_eq in Hp; exists (after TEXT stop rest false v);
    split; [by apply copy_page_stop | done].
  { destruct body; [done | simpl in Hl; lia]. }
  pose proof (read_line_app 1023 body (stop +:+ newline +:+ rest) Hc Hne) as Hr.
  pose proof (read_line_long MAX_LINE body Hne ltac:(apply Nat.ltb_lt; reflexivity)) as Hshort.
  change (S 1023) with MAX_LINE in Hr. rewrite <- Ht in Hr.
  assert (pieces (S n) body = let '(line, r, _) := read_line MAX_LINE body in line :: pieces n r) as Hpc
    by by destruct body.
  rewrite Hpc in Hp. clear Hpc.
  destruct (read_line MAX_LINE body) as [[line r] overflow]. destruct Hr as (Hr & Hb & Hcr).
  apply (page_lines_cons _ _ _ Hlev) in Hp as (Hk & Hlev' & Hp' & Hon). subst body. cbn [fst snd] in Hshort.
  assert (v_text v ≠ EmptyString) as Hv.
  { rewrite Ht. by destruct (line +:+ break_of overflow +:+ r). }
  unfold mbind at 1, M_bind. rewrite (dgetline_handed_on f1 v line _ overflow Hv Hr Hk).
  set (v1 := seen line (r +:+ stop +:+ newline +:+ rest) overflow v).
  rewrite <- str_app_assoc in Hw. apply write_split in Hw as (o1 & Hw1 & Hw2).
  assert (write_line v1 = Done tt (set_v_out o1 v1)) as Hwl.
  { rewrite (write_line_puts line overflow v1) by done. apply puts_done. exact Hw1. }
  destruct (IH r (set_v_out o1 v1) f2 f2) as (v' & E & Hv'); try done; [lia | lia |].
  exists v'. split; [|done]. rewrite <- E. cbn [copy_page_lines].
  unfold mbind, M_bind, the_line, gets, mret, M_ret, mbind, M_bind.
  change (v_line v1) with line. change (v_level v1) with (level_after (kind_of (c_string line)) (v_level v)).
  unfold ending in Hon. rewrite negb_orb in Hon. rewrite Hon. cbn [andb when]. rewrite Hwl. done.
Qed.
End pages.

(** * What a routine sends *)

(** If the text can be written, the routine returns [a], has sent the text, and
    leaves the rest of the variables as in [v']. *)
Definition sends {A} (m : V A) (text : string) (a : A) (v v' : doc) : Prop := ∀ o,
  printer_write text (v_out v) = Done tt o → m v = Done a (set_v_out o v').

Lemma sends_bind {A B} (m : V A) (k : A → V B) t1 t2 a b v v1 v2 :
  sends m t1 a v v1 → (∀ o, sends (k a) t2 b (set_v_out o v1) v2) → sends (m ≫= k) (t1 +:+ t2) b v v2.
Proof.
  intros Hm Hk o Hw. apply write_split in Hw as (o1 & Hw1 & Hw2). unfold mbind, M_bind.
  rewrite (Hm o1 Hw1). by apply Hk.
Qed.

Lemma set_v_out_same v o : v_out v = o → set_v_out o v = v.
Proof. intros <-. by destruct v. Qed.

(** A step that sends nothing. *)
Lemma sends_quiet {A} (m : V A) a v v' :
  m v = Done a v' → v_out v' = v_out v → sends m EmptyString a v v'.
Proof. intros E Ho o [= <-]. by rewrite E, set_v_out_same. Qed.

Lemma sends_step {A B} (m : V A) (k : A → V B) t a b v v1 v2 :
  m v = Done a v1 → sends (k a) t b v1 v2 → v_out v1 = v_out v → sends (m ≫= k) t b v v2.
Proof. intros E Hk Ho o Hw. unfold mbind, M_bind. rewrite E. apply Hk. by rewrite Ho. Qed.

Lemma sends_puts text v : sends (puts text) text tt v v.
Proof. intros o Hw. by apply puts_done. Qed.

Lemma write_newline : alike (printer_putc (chr 10)) (printer_write newline).
Proof.
  split. intros s. unfold newline, of_chars. simpl. unfold mbind, M_bind.
  by destruct (printer_putc _ s) as [[]| |].
Qed.

Lemma sends_putc_newline v : sends (putc (chr 10)) newline tt v v.
Proof.
  intros o Hw. unfold putc. rewrite (out_alike _ _ _ write_newline). by apply puts_done.
Qed.

Lemma sends_putline text v : sends (putline text) (text +:+ newline) tt v v.
Proof.
  intros o Hw. unfold putline, printer_putline.
  assert (alike (printer_write text;; printer_putc (chr 10)) (printer_write (text +:+ newline))) as E.
  { rewrite write_app. apply bind_under. intros []. apply write_newline. }
  rewrite (out_alike _ _ _ E). by apply puts_done.
Qed.

(** ** printf *)

Fixpoint format (fmt : string) (va : list farg) : option string :=
  match fmt with
  | EmptyString => Some EmptyString
  | String "%" (String spec fmt') =>
      match spec, va with
      | "%"%char, _ => String "%" <$> format fmt' va
      | "s"%char, AS s :: va' => String.append s <$> format fmt' va'
      | "d"%char, AD n :: va' => String.append (fmt_d n) <$> format fmt' va'
      | _, _ => None
      end
  | String "%" EmptyString => None
  | String c fmt' => String c <$> format fmt' va
  end.

Lemma format_printf fmt va text :
  format fmt va = Some text → alike (printer_printf fmt va) (printer_write text).
Proof.
  revert va text. induction fmt as [fmt IH] using (induction_ltof1 _ String.length). unfold ltof in IH.
  intros va text. destruct fmt as [|c fmt]; [by intros [= <-]|].
  assert (∀ d rest va text, fmt = String d rest → format rest va = Some text →
    alike (printer_printf rest va) (printer_write text)) as H2.
  { intros d rest va' text' ->. apply IH. simpl. lia. }
  destruct (Ascii.eqb_spec c "%") as [->|Hc].
  - destruct fmt as [|d fmt]; [done|]. specialize (H2 d fmt). cbn [printer_printf format].
    repeat case_match; try done; intros (t & E & ->)%fmap_Some; specialize (H2 _ t eq_refl E);
      rewrite ?write_app; cbn [printer_write]; apply bind_under; intros []; exact H2.
  - assert (printer_printf (String c fmt) va = (printer_putc c;; printer_printf fmt va)) as ->.
    { destruct c as [[] [] [] [] [] [] [] []]; first [reflexivity | by destruct Hc]. }
    assert (format (String c fmt) va = String c <$> format fmt va) as ->.
    { destruct c as [[] [] [] [] [] [] [] []]; first [reflexivity | by destruct Hc]. }
    intros (t & E & ->)%fmap_Some. cbn [printer_write]. apply bind_under. intros [].
    apply IH; [simpl; lia | done].
Qed.

Lemma sends_printf fmt va text v : format fmt va = Some text → sends (printf fmt va) text tt v v.
Proof.
  intros E o Hw. unfold printf. rewrite (out_alike _ _ _ (format_printf _ _ _ E)). by apply puts_done.
Qed.

(** * A page *)

Definition newlines (k : nat) : string := Nat.iter k (String.append newline) EmptyString.

Lemma newlines_length k : String.length (newlines k) = k.
Proof.
  induction k as [|k IH]; [done|]. change (newlines (S k)) with (newline +:+ newlines k).
  by rewrite length_app_str, IH.
Qed.

Record page_comment (c : string) : Prop := {
  pc_line : lacks is_newline c ∧ lacks is_nul c ∧ c ≠ EmptyString;
  pc_length : (String.length c <= 254)%nat;
  pc_media : gu_sscanf c "%%%%PageMedia: %@s" [17] = Scanned 0 [];
}.

Lemma getpline_first c rest v :
  lacks is_newline c → lacks is_nul c → (String.length c <= 254)%nat →
  v_page_comments v = c +:+ newline +:+ rest →
  getpline v = Done (Some c) (set_v_page_comments rest v).
Proof.
  intros Hn Hz Hl E. unfold getpline, mbind at 1, M_bind, gets. rewrite E.
  assert (∃ d file, c +:+ newline +:+ rest = String d file) as (d & file & Ef).
  { destruct c; by eexists _, _. }
  rewrite Ef, <- Ef. rewrite (fgets_whole 256) by (done || lia).
  unfold modify, mbind, M_bind, mret, M_ret. rewrite c_string_whole.
  2: { apply lacks_app. split; [done|]. by repeat constructor. }
  rewrite length_app_str. change (String.length newline) with 1%nat.
  replace (String.length c + 1 - 1)%nat with (String.length c) by lia. by rewrite str_take_app.
Qed.

Section one_page.
Context `{DriverConfig} `{ResourceConfig} `{SectionConfig}.

Lemma sends_page_comments cs rest fuel v :
  Forall page_comment cs → (length cs < fuel)%nat →
  v_page_comments v = unlines cs +:+ newline +:+ rest →
  sends (copy_page_comments fuel EmptyString) (unlines cs) EmptyString v (set_v_page_comments rest v).
Proof.
  revert fuel v. induction cs as [|c cs IH]; intros fuel v Hc Hf E.
  - destruct fuel as [|fuel]; [simpl in Hf; lia|]. cbn [copy_page_comments].
    eapply (sends_step _ _ _ (Some EmptyString)); [ | | ].
    { apply (getpline_first EmptyString rest v); [constructor | constructor | simpl; lia | exact E]. }
    { by apply sends_quiet. }
    done.
  - inversion Hc as [|? ? [[Hn [Hz Hne]] Hl Hm] Hc']; subst. destruct fuel as [|fuel]; [simpl in Hf; lia|].
    cbn [copy_page_comments unlines foldr] in *.
    eapply (sends_step _ _ _ (Some c)); [apply getpline_first; try done; by rewrite E, !str_app_assoc | | done].
    destruct c as [|d c]; [done|]. rewrite <- str_app_assoc. eapply sends_bind.
    { by apply sends_printf. }
    intros o. eapply (sends_step _ _ _ EmptyString).
    { unfold page_media. by rewrite Hm. }
    { intros o2 Hw. simpl in Hf. erewrite IH; [by destruct v | done | lia | reflexivity | exact Hw]. }
    done.
Qed.

Lemma sends_blank_lines k line R overflow T fuel v :
  (k < fuel)%nat → v_text v = newlines k +:+ T → T ≠ EmptyString →
  read_line MAX_LINE T = (line, R, overflow) → handed_on (kind_of (c_string line)) →
  c_string line ≠ EmptyString →
  sends (copy_page_blank_lines fuel) (newlines k) true v (seen line R overflow v).
Proof.
  revert fuel v. induction k as [|k IH]; intros fuel v Hf E HT Hr Hk Hne;
    (destruct fuel as [|fuel]; [lia|]); cbn [copy_page_blank_lines].
  - eapply (sends_step _ _ _ true).
    { assert (v_text v = T) as Er by exact E.
      apply dgetline_handed_on; [by rewrite Er | by rewrite Er | done]. }
    { apply sends_quiet; [|done]. unfold line_is, the_line, gets, mret, M_ret, mbind, M_bind.
      change (v_line (seen line R overflow v)) with line. by destruct (c_string line). }
    done.
  - eapply (sends_step _ _ _ true).
    { assert (rest_of TEXT v = newline +:+ newlines k +:+ T) as Er by exact E.
      apply (dgetline_ordinary fuel TEXT v EmptyString (newlines k +:+ T) false);
        [by rewrite Er | by rewrite Er | done]. }
    { eapply (sends_step _ _ _ true); [reflexivity | | done]. cbn [andb].
      change (newlines (S k)) with (newline +:+ newlines k). eapply sends_bind; [apply sends_putc_newline|].
      intros o o2 Hw. erewrite IH; [by destruct v | lia | reflexivity | done..]. }
    done.
Qed.

(** A routine that sends the text and ends in a state with [Q]. *)
Definition sends_to {A} (m : V A) (text : string) (Q : doc → Prop) (v : doc) : Prop := ∀ o,
  printer_write text (v_out v) = Done tt o → ∃ a v', m v = Done a v' ∧ v_out v' = o ∧ Q v'.

Lemma sends_to_bind {A B} (m : V A) (k : A → V B) t1 t2 a Q v v1 :
  sends m t1 a v v1 → (∀ o, sends_to (k a) t2 Q (set_v_out o v1)) → sends_to (m ≫= k) (t1 +:+ t2) Q v.
Proof.
  intros Hm Hk o Hw. apply write_split in Hw as (o1 & Hw1 & Hw2).
  destruct (Hk o1 o Hw2) as (b & v' & E & Hv'). exists b, v'. split; [|done].
  unfold mbind, M_bind. by rewrite (Hm o1 Hw1).
Qed.

Lemma sends_to_step {A B} (m : V A) (k : A → V B) t a Q v v1 :
  m v = Done a v1 → v_out v1 = v_out v → sends_to (k a) t Q v1 → sends_to (m ≫= k) t Q v.
Proof.
  intros E Ho Hk o Hw. destruct (Hk o ltac:(by rewrite Ho)) as (b & v' & E2 & Hv').
  exists b, v'. split; [|done]. unfold mbind, M_bind. by rewrite E.
Qed.

(** The lines of the page, with the first one in line[]. *)
Lemma sends_page_lines body stop rest fuel w line R overflow :
  ends_page stop → closed body = true → page_lines 0 (pieces (String.length body) body) = true →
  (String.length body < fuel)%nat → v_level w = 0 →
  v_text w = body +:+ stop +:+ newline +:+ rest →
  read_line MAX_LINE (v_text w) = (line, R, overflow) → handed_on (kind_of (c_string line)) →
  sends_to (copy_page_lines fuel true;; modify (set_v_strip_binselects false)) body
    (λ v', v_line v' = stop ∧ v_text v' = rest ∧ v_level v' = 0) (seen line R overflow w).
Proof.
  intros Hs Hc Hp Hf Hl Ht Hr Hk o Hw. change (v_out (seen line R overflow w)) with (v_out w) in Hw.
  rewrite <- Hl in Hp. destruct (copy_page_body stop rest _ body w 0 fuel o (le_n _) Hf Hs Hc ltac:(lia) Hp Ht Hw)
    as (v' & E & Hv').
  unfold mbind, M_bind in E. rewrite (dgetline_handed_on 0 w line R overflow) in E; [|  | done..].
  - exists tt, (set_v_strip_binselects false v'). split; [|by destruct v'].
    unfold mbind, M_bind. by rewrite E.
  - rewrite Ht. by destruct body, stop.
Qed.
End one_page.

(** A page as it is in the files of the job. *)
Record page := mkPage {
  pg_line : string;
  pg_label : string;
  pg_comments : list string;
  pg_blanks : nat;
  pg_setup : option string;
  pg_body : string;
  pg_stop : string;
}.

Definition setup_text (pg : page) : string :=
  match pg_setup pg with Some s => s +:+ newline | None => EmptyString end.

Definition page_text (pg : page) (rest : string) : string :=
  pg_line pg +:+ newline +:+ newlines (pg_blanks pg) +:+ setup_text pg +:+ pg_body pg +:+
  pg_stop pg +:+ newline +:+ rest.

(** What is sent: the page under its new number. *)
Definition page_sent (pg : page) (newnumber : Z) : string :=
  ("%%Page: " +:+ pg_label pg +:+ " " +:+ fmt_d newnumber +:+ newline) +:+ unlines (pg_comments pg) +:+
  newlines (pg_blanks pg) +:+ setup_text pg +:+ pg_body pg.

(** A line that is not cut and has no NUL. *)
Definition whole_line (line : string) : Prop :=
  lacks is_newline line ∧ lacks is_nul line ∧ (String.length line < MAX_LINE)%nat ∧ line ≠ EmptyString.

(** The first line of the rest of the page. *)
Definition first_piece (pg : page) : string :=
  match pieces (String.length (pg_body pg)) (pg_body pg) with [] => pg_stop pg | l :: _ => l end.

Record good_page (pg : page) : Prop := {
  gp_line : whole_line (pg_line pg) ∧ kind_of (pg_line pg) = Ordinary;
  gp_label : (String.length (pg_line pg) <= 512)%nat ∧
    token_words MAX_TOKENS true (0, 0) (pg_line pg) !! 1%nat = Some (pg_label pg);
  gp_comments : Forall page_comment (pg_comments pg);
  gp_setup : match pg_setup pg with
             | Some s => whole_line s ∧ lmatch s "%%BeginPageSetu" = true ∧ kind_of s = Ordinary
             | None => c_string (first_piece pg) ≠ EmptyString ∧
                       lmatch (c_string (first_piece pg)) "%%BeginPageSetu" = false
             end;
  gp_body : closed (pg_body pg) = true ∧
    page_lines 0 (pieces (String.length (pg_body pg)) (pg_body pg)) = true;
  gp_stop : ends_page (pg_stop pg) ∧ pg_stop pg ≠ EmptyString;
}.

Lemma first_piece_read pg rest :
  good_page pg →
  ∃ R overflow, read_line MAX_LINE (pg_body pg +:+ pg_stop pg +:+ newline +:+ rest)
      = (first_piece pg, R, overflow) ∧ handed_on (kind_of (c_string (first_piece pg))).
Proof.
  intros [_ _ _ _ [Hc Hp] [[Hk _ [Hn Hz] Hl] _]]. unfold first_piece.
  destruct (pg_body pg) as [|c body].
  - exists rest, false. split; [by apply read_line_whole | left; by rewrite c_string_whole].
  - pose proof (read_line_app 1023 (String c body) (pg_stop pg +:+ newline +:+ rest) Hc ltac:(discriminate)) as Hr.
    change (S 1023) with MAX_LINE in Hr. cbn [String.length pieces] in *.
    destruct (read_line MAX_LINE (String c body)) as [[l r] ov]. destruct Hr as [Hr _].
    apply page_lines_cons in Hp as (Hk1 & _); [|done]. by eexists _, _.
Qed.

Section copy_page.
Context `{DriverConfig} `{ResourceConfig} `{SectionConfig}.
Context (pg : page) (newnumber : Z) (rest prest : string) (fuel : nat).
Hypothesis good : good_page pg.
Hypothesis no_timeout : sc_JobTimeout < 0.
Hypothesis one_medium : (length sc_media_xlate <= 1)%nat.
Hypothesis enough : (String.length (page_text pg rest) + length (pg_comments pg) < fuel)%nat.

Let body_text := pg_body pg +:+ pg_stop pg +:+ newline +:+ rest.

(** From the first line that is not blank on. *)
Definition page_rest (got : bool) : V unit :=
  begins ← line_begins "%%BeginPageSetu";
  got ← (if (begins : bool) then line ← the_line; putline line;; dgetline fuel TEXT else mret got);
  insert_userparams_jobtimeout;;
  default_pagemedia ← gets v_default_pagemedia;
  when ((1 <? length sc_media_xlate)%nat && truth (j_binselect dc_job)
        && negb (String.eqb default_pagemedia EmptyString))
    (stripped ← select_medium_by_dsc_name default_pagemedia;
     modify (set_v_strip_binselects stripped));;
  copy_page_lines fuel got;;
  modify (set_v_strip_binselects false).

Lemma fuel_body : (String.length (pg_body pg) < fuel)%nat.
Proof.
  revert enough. unfold page_text. rewrite !length_app_str. lia.
Qed.

Lemma sends_page_end R overflow w :
  v_level w = 0 → v_text w = body_text → read_line MAX_LINE body_text = (first_piece pg, R, overflow) →
  sends_to (insert_userparams_jobtimeout;;
    default_pagemedia ← gets v_default_pagemedia;
    when ((1 <? length sc_media_xlate)%nat && truth (j_binselect dc_job)
          && negb (String.eqb default_pagemedia EmptyString))
      (stripped ← select_medium_by_dsc_name default_pagemedia;
       modify (set_v_strip_binselects stripped));;
    copy_page_lines fuel true;;
    modify (set_v_strip_binselects false)) (pg_body pg)
    (λ v', v_line v' = pg_stop pg ∧ v_text v' = rest ∧ v_level v' = 0) (seen (first_piece pg) R overflow w).
Proof.
  intros Hl Ht Hr. unfold insert_userparams_jobtimeout.
  destruct (Z.leb_spec 0 sc_JobTimeout); [lia|].
  eapply sends_to_step; [reflexivity | done |]. eapply sends_to_step; [reflexivity | done |].
  destruct (Nat.ltb_spec 1 (length sc_media_xlate)); [lia|].
  eapply sends_to_step; [reflexivity | done |].
  destruct (first_piece_read pg rest good) as (R' & o' & Hr' & Hk).
  destruct good as [_ _ _ _ [Hc Hp] [Hs _]].
  eapply sends_page_lines; try done; [apply fuel_body | by rewrite Ht].
Qed.

Lemma sends_page_rest k w :
  v_level w = 0 → v_text w = newlines k +:+ setup_text pg +:+ body_text → (k < fuel)%nat →
  sends_to (got ← copy_page_blank_lines fuel; page_rest got)
    (newlines k +:+ setup_text pg +:+ pg_body pg)
    (λ v', v_line v' = pg_stop pg ∧ v_text v' = rest ∧ v_level v' = 0) w.
Proof.
  intros Hl Ht Hf. destruct (first_piece_read pg rest good) as (R & ov & Hr & Hk).
  pose proof (gp_setup pg good) as Hs. pose proof fuel_body as Hfb. unfold setup_text in *.
  assert (∃ f, fuel = S f) as [f Ef] by (destruct fuel; [lia | eauto]).
  destruct (pg_setup pg) as [s|].
  - destruct Hs as ((Hn & Hz & Hlen & Hne) & Hb & Hks).
    set (X := after TEXT s body_text false w).
    assert (∀ o o2, sends (dgetline fuel TEXT) EmptyString true (set_v_out o2 (set_v_out o X))
      (seen (first_piece pg) R ov X)) as Hd.
    { intros o o2 o4 [= <-]. rewrite Ef, (dgetline_handed_on f _ (first_piece pg) R ov); [done | |exact Hr|exact Hk].
      change (body_text ≠ EmptyString). unfold body_text. by destruct (pg_body pg), (pg_stop pg). }
    eapply sends_to_bind.
    { eapply (sends_blank_lines k s body_text false (s +:+ newline +:+ body_text)); try done.
      - by rewrite Ht, !str_app_assoc.
      - by destruct s.
      - by apply read_line_whole.
      - left. by rewrite c_string_whole.
      - by rewrite c_string_whole. }
    rewrite seen_ordinary by (by rewrite c_string_whole).
    intros o. unfold page_rest.
    eapply (sends_to_step _ _ _ true); [| done |].
    { unfold line_begins, the_line, gets, mret, M_ret, mbind, M_bind.
      change (v_line (set_v_out o (after TEXT s body_text false w))) with s.
      by rewrite c_string_whole, Hb. }
    eapply sends_to_bind.
    { eapply (sends_step _ _ _ s); [|  | done].
      { unfold the_line, gets, mret, M_ret, mbind, M_bind.
        change (v_line (set_v_out o (after TEXT s body_text false w))) with s.
        by rewrite c_string_whole. }
      rewrite <- (str_app_nil_r (s +:+ newline)). eapply sends_bind; [apply sends_putline|]. intros o2.
      exact (Hd o o2). }
    intros o3. by apply (sends_page_end R ov (set_v_out o3 X)).
  - destruct Hs as [Hne Hb]. eapply sends_to_bind.
    { by eapply (sends_blank_lines k (first_piece pg) R ov body_text);
        try done; unfold body_text; destruct (pg_body pg), (pg_stop pg). }
    intros o. unfold page_rest.
    eapply (sends_to_step _ _ _ false); [| done |].
    { unfold line_begins, the_line, gets, mret, M_ret, mbind, M_bind.
      change (v_line (set_v_out o (seen (first_piece pg) R ov w))) with (first_piece pg).
      by rewrite Hb. }
    eapply sends_to_step; [reflexivity | done |].
    exact (sends_page_end R ov (set_v_text body_text (set_v_out o w)) Hl eq_refl Hr).
Qed.
End copy_page.

Section whole_page.
Context `{DriverConfig} `{ResourceConfig} `{SectionConfig}.

(** C31: A page of the job is sent as it is, under its new number.  From the place of
    the page in the "-text" file, and of its comments in the "-pages" file,
    copy_a_page() sends a %%Page comment with the page's label and the number
    it is given, the comments, and then every line of the page, blank ones,
    those too long for the line buffer and those with NULs included, up to the
    next page or the trailer, whose first line it has then read.  A page may
    contain documents, with documents in them: their pages and trailers do not
    end it.  This is for a page that has no feature, resource or binary data
    between comments, and when no time limit or medium is to be set. *)
Theorem a_page_is_sent_under_its_new_number pg newnumber rest prest fuel v o :
  good_page pg → sc_JobTimeout < 0 → (length sc_media_xlate <= 1)%nat → v_level v = 0 →
  v_text v = page_text pg rest → v_page_comments v = unlines (pg_comments pg) +:+ newline +:+ prest →
  (String.length (page_text pg rest) + length (pg_comments pg) < fuel)%nat →
  printer_write (page_sent pg newnumber) (v_out v) = Done tt o →
  ∃ v', copy_a_page fuel newnumber v = Done tt v' ∧ v_out v' = o ∧
    v_line v' = pg_stop pg ∧ v_text v' = rest ∧ v_level v' = 0.
Proof.
  intros Hg Ht Hm Hl Htext Hpages Hf Hw.
  enough (sends_to (copy_a_page fuel newnumber) (page_sent pg newnumber)
    (λ v', v_line v' = pg_stop pg ∧ v_text v' = rest ∧ v_level v' = 0) v) as Hs.
  { destruct (Hs o Hw) as ([] & v' & E & Hv'). eauto. }
  assert (∃ f, fuel = S f) as [f Ef] by (destruct fuel; [lia | eauto]).
  destruct (gp_line pg Hg) as [(Hn & Hz & Hlen & Hne) Hk]. destruct (gp_label pg Hg) as [H512 Hlab].
  unfold copy_a_page, page_sent.
  set (T1 := newlines (pg_blanks pg) +:+ setup_text pg +:+ pg_body pg +:+ pg_stop pg +:+ newline +:+ rest).
  eapply (sends_to_step _ _ _ true _ _ (after TEXT (pg_line pg) T1 false v)); [|done|].
  { rewrite Ef. apply (dgetline_ordinary f TEXT v (pg_line pg) T1 false).
    - change (rest_of TEXT v) with (v_text v). rewrite Htext. unfold page_text. by destruct (pg_line pg).
    - change (rest_of TEXT v) with (v_text v). rewrite Htext. by apply read_line_whole.
    - by rewrite c_string_whole. }
  set (toks := token_words MAX_TOKENS true (0, 0) (pg_line pg)).
  eapply (sends_to_step _ _ _ tt _ _ (set_v_tokens toks (after TEXT (pg_line pg) T1 false v))); [|done|].
  { unfold tokenize_line, the_line, gets, mret, M_ret, mbind, M_bind, tokenize.
    change (v_line (after TEXT (pg_line pg) T1 false v)) with (pg_line pg).
    change (v_line_len (after TEXT (pg_line pg) T1 false v)) with (String.length (pg_line pg)).
    rewrite c_string_whole by done. unfold MAX_TOKENIZED.
    destruct (Z.ltb_spec 512 (Z.of_nat (String.length (pg_line pg)))); [lia|done]. }
  eapply (sends_to_step _ _ _ (Some (pg_label pg))); [|done|].
  { unfold token, gets, mret, M_ret, mbind, M_bind.
    change (v_tokens (set_v_tokens toks (after TEXT (pg_line pg) T1 false v))) with toks.
    by rewrite <- Hlab. }
  eapply sends_to_bind; [by apply sends_printf|]. intros o1.
  eapply sends_to_bind.
  { apply (sends_page_comments (pg_comments pg) prest); [apply (gp_comments pg Hg) | lia | exact Hpages]. }
  intros o2. cbn [String.eqb]. apply (sends_page_rest pg rest fuel); try done.
  - unfold page_text in Hf. rewrite !length_app_str, newlines_length in Hf. lia.
Qed.
End whole_page.

Definition sample_page : page :=
  mkPage "%%Page: iv 4" "iv" ["%%PageBoundingBox: 0 0 612 792"] 1 (Some "%%BeginPageSetup")
    (unlines ["%%BeginDocument: logo.eps"; "%%Page: 1 1"; "0 0 moveto"; "%%EndDocument"; "showpage"])
    "%%Trailer".

Lemma sample_page_good : good_page sample_page.
Proof.
  split.
  - split; [|reflexivity]. repeat constructor; try discriminate; apply Nat.ltb_lt; reflexivity.
  - split; [apply Nat.leb_le; reflexivity | reflexivity].
  - repeat constructor; try discriminate; apply Nat.leb_le; reflexivity.
  - split; [|done]. repeat constructor; try discriminate; apply Nat.ltb_lt; reflexivity.
  - split; [reflexivity|]. vm_compute. repeat constructor.
  - split; [|discriminate]. repeat constructor; apply Nat.ltb_lt; reflexivity.
Qed.

Lemma a_page_is_sent_under_its_new_number_witness :
  ∃ v', @copy_a_page (sample_config sample_job) sample_resources (sample_sections EmptyString EmptyString)
      200 2 (sample_doc EmptyString (unlines (pg_comments sample_page) +:+ newline +:+ EmptyString)
               (page_text sample_page EmptyString)) = Done tt v' ∧
    ob_wbuf (v_out v') = unlines
      ["%%Page: iv 2"; "%%PageBoundingBox: 0 0 612 792"; EmptyString; "%%BeginPageSetup";
       "%%BeginDocument: logo.eps"; "%%Page: 1 1"; "0 0 moveto"; "%%EndDocument"; "showpage"].
Proof.
  destruct (@a_page_is_sent_under_its_new_number (sample_config sample_job) sample_resources
    (sample_sections EmptyString EmptyString) sample_page 2 EmptyString EmptyString 200
    (sample_doc EmptyString (unlines (pg_comments sample_page) +:+ newline +:+ EmptyString)
       (page_text sample_page EmptyString))
    (mkOut (page_sent sample_page 2) (BUFSIZE - strlen (page_sent sample_page 2)) EmptyString 0 false false []))
    as (v' & E & Ho & _).
  - exact sample_page_good.
  - reflexivity.
  - apply Nat.leb_le. reflexivity.
  - reflexivity.
  - reflexivity.
  - reflexivity.
  - apply Nat.ltb_lt. reflexivity.
  - reflexivity.
  - exists v'. split; [exact E|]. rewrite Ho. reflexivity.
Defined.

(** C33: Every line is read at last.  dgetline(), which goes on by itself behind the
    lines whose matter it puts in or leaves out, and is called again for the lines
    inside a feature, a resource or binary data, comes back for every file that is
    left and every state of the driver, or stops the driver with an error; and
    when it has found a line there is less left to read than there was. *)
Theorem every_line_is_read_at_last `{DriverConfig} `{ResourceConfig} infile fuel v :
  (left_over infile v < fuel)%nat →
  match dgetline fuel infile v with
  | Done got v' =>
      (left_over infile v' <= left_over infile v)%nat ∧
      (got = true → (left_over infile v' < left_over infile v)%nat)
  | Thrown _ _ => True
  | Stopped r => r ≠ SFuel
  end.
Proof. intros Hv. by apply (dgetline_ends infile fuel). Qed.

(** A feature without an end: the job is refused. *)
Lemma every_line_is_read_at_last_witness :
  match @dgetline (sample_config sample_job) sample_resources 100 TEXT
    (sample_doc EmptyString EmptyString (unlines ["%%BeginFeature: *Resolution 600dpi"; "a"; "b"])) with
  | Done got v' => True
  | Thrown _ _ => True
  | Stopped r => r ≠ SFuel
  end.
Proof.
  pose proof (@every_line_is_read_at_last (sample_config sample_job) sample_resources TEXT 100
    (sample_doc EmptyString EmptyString (unlines ["%%BeginFeature: *Resolution 600dpi"; "a"; "b"]))) as Hr.
  destruct (@dgetline _ _ _ _ _) as [got v'|e v'|r]; [done|done|]. apply Hr.
  apply Nat.ltb_lt. reflexivity.
Defined.
