(* ===== verification/PropFeatures.v ===== *)
(** The code of features: what is put in its place. *)
From S2P Require Import Prelude.
From S2P Require Import Text.
From S2P Require Import TextFacts.
From S2P Require Import Spooler.
From S2P Require Import DriverOutput.
From S2P Require Import JobFile.
From S2P Require Import Pages.
From S2P Require Import Tokens.
From S2P Require Import Ppd.
From S2P Require Import PropPpd.
From S2P Require Import Fonts.
From S2P Require Import Programs.
From S2P Require Import PropFonts.
From S2P Require Import Document.
From S2P Require Import Resources.
From S2P Require Import Insertions.
From S2P Require Import Sections.
From S2P Require Import PropReader.
From S2P Require Import PropSections.

(** An option is asked for, so that strcmp() never sees a NULL pointer. *)
Lemma lookup_defined t o s : lookup_feature t (Some o) s ≠ NullOption.
Proof.
  unfold lookup_feature. induction (nth _ (d_ppdstr s) []) as [|[name value] bucket IH]; [done|].
  cbn [search_bucket]. destruct (String.prefix t name); [|exact IH].
  destruct (str_drop (String.length t) name) as [|c rest]; [exact IH|].
  destruct c as [[] [] [] [] [] [] [] []]; try exact IH. by destruct (String.eqb rest o).
Qed.

(** The old code of a feature: lines that are whole and ask for nothing. *)
Definition old_line (line : string) : Prop :=
  lacks is_newline line ∧ lacks is_nul line ∧ (String.length line < MAX_LINE)%nat ∧
  kind_of line = Ordinary ∧ String.eqb line "%%EndFeature" = false.

(** A line that begins the code of a feature. *)
Record feature_line (line t o : string) : Prop := {
  fl_line : whole_line line ∧ (String.length line <= 512)%nat;
  fl_kind : kind_of line = BeginFeature;
  fl_type : token_words MAX_TOKENS true (0, 0) line !! 1%nat = Some t;
  fl_option : token_words MAX_TOKENS true (0, 0) line !! 2%nat = Some o;
}.

Lemma run_step {S A B} (m : M S A) (k : A → M S B) a (s s' : S) : m s = Done a s' → (m ≫= k) s = k a s'.
Proof. intros E. unfold mbind, M_bind. by rewrite E. Qed.

Section code.
Context `{DriverConfig} `{ResourceConfig} `{SectionConfig}.

Lemma dgetline_line fuel w line rest :
  lacks is_newline line → lacks is_nul line → (String.length line < MAX_LINE)%nat →
  kind_of line = Ordinary → v_text w = line +:+ newline +:+ rest →
  dgetline (S fuel) TEXT w = Done true (after TEXT line rest false w).
Proof.
  intros Hn Hz Hl Hk Ht. assert (rest_of TEXT w = line +:+ newline +:+ rest) as Hr by exact Ht.
  apply dgetline_ordinary; [| |by rewrite c_string_whole].
  - rewrite Hr. by destruct line.
  - rewrite Hr. by apply read_line_whole.
Qed.

Lemma the_line_whole line rest w :
  lacks is_nul line → the_line (after TEXT line rest false w) = Done line (after TEXT line rest false w).
Proof.
  intros Hz. unfold the_line, gets, mret, M_ret, mbind, M_bind.
  change (v_line (after TEXT line rest false w)) with line. by rewrite c_string_whole.
Qed.

Lemma code_lines_sent olds rest keep reason f g w :
  Forall old_line olds → (length olds < f)%nat →
  v_text w = unlines olds +:+ "%%EndFeature" +:+ newline +:+ rest →
  sends (code_lines f (dgetline (S g) TEXT) "%%EndFeature" reason keep)
    (if keep then unlines olds else EmptyString) tt w (after TEXT "%%EndFeature" rest false w).
Proof.
  revert f w. induction olds as [|old olds IH]; intros f w Ho Hf Ht;
    (destruct f as [|f]; [simpl in Hf; lia|]); cbn [code_lines].
  - eapply (sends_step _ _ _ true).
    { apply (dgetline_line g w "%%EndFeature" rest); [by repeat constructor.. | | done | exact Ht].
      apply Nat.ltb_lt. reflexivity. }
    { destruct keep; by apply sends_quiet. }
    done.
  - inversion Ho as [|? ? (Hn & Hz & Hl & Hk & He) Ho']; subst. cbn [unlines foldr] in *.
    eapply (sends_step _ _ _ true).
    { apply (dgetline_line g w old (unlines olds +:+ "%%EndFeature" +:+ newline +:+ rest)); try done.
      by rewrite Ht, !str_app_assoc. }
    2: done.
    cbn [negb]. eapply (sends_step _ _ _ old).
    { by apply the_line_whole. }
    2: done.
    rewrite He. destruct keep; cbn [when].
    + rewrite <- str_app_assoc. eapply sends_bind; [apply sends_putline|]. intros o o2 Hw.
      erewrite IH; [by destruct w | done | simpl in Hf; lia | reflexivity | exact Hw].
    + eapply (sends_step _ _ _ tt); [reflexivity | | done]. intros o2 Hw.
      erewrite IH; [by destruct w | done | simpl in Hf; lia | reflexivity | exact Hw].
Qed.

Lemma sends_putlines lines v : sends (putlines lines) (unlines lines) tt v v.
Proof.
  revert v. induction lines as [|line lines IH]; intros v; cbn [putlines unlines foldr].
  - by apply sends_quiet.
  - rewrite <- str_app_assoc. eapply sends_bind; [apply sends_putline|]. intros o o2 Hw.
    rewrite (IH (set_v_out o v) o2 Hw). by destruct v.
Qed.

(** What becomes of the code of a feature. *)
Definition replacement (t o : string) (olds : list string) : string :=
  match lookup_feature t (Some o) dc_ppd with
  | Found code => code +:+ newline
  | _ =>
      if truth (j_keep_badfeatures dc_job) then unlines retained_notice +:+ unlines olds
      else unlines removed_notice
  end.

Definition feature_sent (t o : string) (olds : list string) : string :=
  ("%%BeginFeature: " +:+ t +:+ " " +:+ o +:+ newline) +:+ replacement t o olds +:+
  "%%EndFeature" +:+ newline.

Definition warned (t o : string) (v : doc) : doc :=
  match lookup_feature t (Some o) dc_ppd with
  | Found _ => v
  | _ =>
      set_v_warnings (v_warnings v ++
        [if truth (j_keep_badfeatures dc_job)
         then "The PPD file doesn't contain code, retaining old code."
         else "The PPD file doesn't contain code, removing existing code."]) v
  end.

(** Nothing is to be stripped or changed. *)
Definition unchanged (v : doc) : Prop :=
  v_strip_binselects v = false ∧ v_strip_signature v = false ∧ v_copies_auto_collate v = 0.

Lemma feature_change_unchanged t o v :
  unchanged v → feature_change t o v = Done (Some (t, o)) v.
Proof.
  intros (E1 & E2 & E3). unfold feature_change, gets, id, mbind, M_bind. by rewrite E1, E2, E3.
Qed.

Lemma sends_assoc {A} (m : V A) a b c x v v' :
  sends m (a +:+ b +:+ c) x v v' → sends m ((a +:+ b) +:+ c) x v v'.
Proof. by rewrite str_app_assoc. Qed.

Lemma sends_out {A} (m : V A) text a o v :
  sends m text a (set_v_out o v) (set_v_out o v) → sends m text a (set_v_out o v) v.
Proof. intros Hm o2 Hw. rewrite (Hm o2 Hw). by destruct v. Qed.

Definition retained : string := "The PPD file doesn't contain code, retaining old code.".

Definition removed : string := "The PPD file doesn't contain code, removing existing code.".

Lemma head_sent t o v :
  sends (comment_with "%%%%BeginFeature:" t (Some o)) ("%%BeginFeature: " +:+ t +:+ " " +:+ o +:+ newline) tt v v.
Proof. by apply sends_printf. Qed.

Lemma code_passed olds rest keep g w o1 :
  Forall old_line olds → (length olds < S g)%nat →
  v_text w = unlines olds +:+ "%%EndFeature" +:+ newline +:+ rest →
  sends (code_lines (S g) (dgetline (S g) TEXT) "%%EndFeature" "defective feature invokation" keep)
    (if keep then unlines olds else EmptyString) tt (set_v_out o1 w) (after TEXT "%%EndFeature" rest false w).
Proof.
  intros Ho Hf Ht o2 Hw. rewrite (code_lines_sent olds rest keep _ _ g (set_v_out o1 w) Ho Hf Ht o2 Hw).
  by destruct w.
Qed.

Lemma notice_sent t o notice (keep : bool) msg v :
  sends (comment_with "%%%%BeginFeature:" t (Some o);; feature_warning msg;; putlines notice;;
         mret (None (A := string), keep))
    (("%%BeginFeature: " +:+ t +:+ " " +:+ o +:+ newline) +:+ unlines notice) (None, keep)
    v (set_v_warnings (v_warnings v ++ [msg]) v).
Proof.
  eapply sends_bind; [apply head_sent|]. intros o1. eapply (sends_step _ _ _ tt); [reflexivity | | done].
  rewrite <- (str_app_nil_r (unlines notice)). eapply sends_bind; [apply sends_putlines|].
  intros o2 o3 [= <-]. reflexivity.
Qed.

(** No code for the feature: a notice, and the old code if it is to be kept. *)
Lemma no_code_sent t o olds rest g w notice (keep : bool) msg k :
  k (None, keep) =
    (code_lines (S g) (dgetline (S g) TEXT) "%%EndFeature" "defective feature invokation" keep;;
     mret tt;; putline "%%EndFeature") →
  Forall old_line olds → (length olds < S g)%nat →
  v_text w = unlines olds +:+ "%%EndFeature" +:+ newline +:+ rest →
  sends ((comment_with "%%%%BeginFeature:" t (Some o);; feature_warning msg;; putlines notice;;
          mret (None (A := string), keep)) ≫= k)
    ((("%%BeginFeature: " +:+ t +:+ " " +:+ o +:+ newline) +:+ unlines notice) +:+
     (if keep then unlines olds else EmptyString) +:+ "%%EndFeature" +:+ newline) tt w
    (after TEXT "%%EndFeature" rest false (set_v_warnings (v_warnings w ++ [msg]) w)).
Proof.
  intros Hk Ho Hf Ht. eapply sends_bind; [apply notice_sent|]. intros o1. rewrite Hk. eapply sends_bind.
  { by apply (code_passed olds rest keep g (set_v_warnings (v_warnings w ++ [msg]) w)). }
  intros o2. eapply (sends_step _ _ _ tt); [reflexivity | | done].
  intros o3 Hw. exact (sends_putline "%%EndFeature" _ o3 Hw).
Qed.

Lemma begin_feature_sent t o olds rest g w :
  unchanged w → Forall old_line olds → (length olds < S g)%nat →
  v_text w = unlines olds +:+ "%%EndFeature" +:+ newline +:+ rest →
  sends (begin_feature (S g) (dgetline (S g) TEXT) (Some t) (Some o)) (feature_sent t o olds) tt w
    (after TEXT "%%EndFeature" rest false (warned t o w)).
Proof.
  intros Hu Ho Hf Ht. unfold begin_feature, feature_sent.
  eapply sends_step; [by apply feature_change_unchanged | | done].
  pose proof (lookup_defined t o dc_ppd) as Hnull. unfold replacement, warned, find_feature.
  destruct (lookup_feature t (Some o) dc_ppd) as [code| |]; [| |done].
  - eapply (sends_bind _ _ _ _ (Some code, false) _ _ w).
    { intros o1 Hw. unfold mbind, M_bind. by rewrite (head_sent t o w o1 Hw). }
    intros o1. apply (sends_bind _ _ EmptyString _ tt _ _ (after TEXT "%%EndFeature" rest false w)).
    { by apply (code_passed olds rest false). }
    intros o2. apply (sends_bind _ _ (code +:+ newline) _ tt _ _ (after TEXT "%%EndFeature" rest false w)).
    { eapply sends_bind; [apply sends_puts|]. intros o3 o4 Hw. exact (sends_putc_newline _ o4 Hw). }
    intros o3 o4 Hw. exact (sends_putline "%%EndFeature" _ o4 Hw).
  - destruct (truth (j_keep_badfeatures dc_job)).
    + rewrite (str_app_assoc (unlines retained_notice)), <- (str_app_assoc ("%%BeginFeature: " +:+ _)).
      by eapply (no_code_sent t o olds rest g w retained_notice true retained).
    + rewrite <- (str_app_assoc ("%%BeginFeature: " +:+ _)).
      by eapply (no_code_sent t o olds rest g w removed_notice false removed).
Qed.

(** C32: The printer's own code replaces the job's.  A feature the job invokes, the
    lines from %%BeginFeature to %%EndFeature, is passed over by the reader and
    in its place the code the PPD file has for the option is sent, between the
    same comments; where the PPD file has none, a notice is sent, a warning is
    given, and the job's own code is kept or left out as the job asks.  The
    reader then goes on behind the feature. *)
Theorem the_printers_own_code_replaces_the_jobs line t o olds rest g v out :
  feature_line line t o → Forall old_line olds → unchanged v → (length olds < S g)%nat →
  v_text v = line +:+ newline +:+ unlines olds +:+ "%%EndFeature" +:+ newline +:+ rest →
  printer_write (feature_sent t o olds) (v_out v) = Done tt out →
  ∃ v', dgetline (S (S g)) TEXT v = dgetline (S g) TEXT v' ∧
    v_out v' = out ∧ v_text v' = rest ∧ v_warnings v' = v_warnings (warned t o v).
Proof.
  intros [[(Hn & Hz & Hl & Hne) H512] Hk Htype Hoption] Ho Hu Hf Ht Hw.
  set (T := unlines olds +:+ "%%EndFeature" +:+ newline +:+ rest).
  set (toks := token_words MAX_TOKENS true (0, 0) line).
  set (w := set_v_tokens toks (after TEXT line T false v)).
  assert (dgetline_read TEXT v = Done true (after TEXT line T false v)) as Hread.
  { apply dgetline_read_line; change (rest_of TEXT v) with (v_text v); rewrite Ht.
    - by destruct line.
    - by apply read_line_whole. }
  assert (tokenize_line (after TEXT line T false v) = Done tt w) as Htok.
  { unfold tokenize_line, mbind at 1, M_bind. rewrite the_line_whole by done.
    unfold gets, mbind, M_bind, tokenize.
    change (v_line_len (after TEXT line T false v)) with (String.length line). unfold MAX_TOKENIZED.
    destruct (Z.ltb_spec 512 (Z.of_nat (String.length line))); [lia|done]. }
  exists (set_v_out out (after TEXT "%%EndFeature" rest false (warned t o w))). split_and!; [|done..|].
  2: { unfold warned. by destruct (lookup_feature t (Some o) dc_ppd). }
  assert (dgetline_parse (S g) (dgetline (S g) TEXT) TEXT (after TEXT line T false v) =
    Done true (set_v_out out (after TEXT "%%EndFeature" rest false (warned t o w)))) as Hp.
  { unfold dgetline_parse. rewrite (run_step _ _ line _ _ (the_line_whole _ _ _ Hz)), Hk.
    rewrite (run_step _ _ _ _ _ Htok), (run_step _ _ (Some t) w w), (run_step _ _ (Some o) w w).
    - by rewrite (run_step _ _ _ _ _ (begin_feature_sent t o olds rest g w Hu Ho Hf eq_refl out Hw)).
    - change (Done (toks !! 2%nat) w = Done (Some o) w). by f_equal.
    - change (Done (toks !! 1%nat) w = Done (Some t) w). by f_equal. }
  cbn [dgetline]. rewrite (run_step _ _ _ _ _ Hread). cbn [negb].
  rewrite (run_step _ _ _ _ _ (the_line_whole _ _ _ Hz)). destruct line; [done|].
  by rewrite (run_step _ _ _ _ _ Hp).
Qed.
End code.

(** The printer of the example has code for its resolution and none for its trays. *)
Lemma the_printers_own_code_replaces_the_jobs_witness :
  ∃ v', @dgetline (sample_config sample_job) sample_resources 4 TEXT
      (sample_doc EmptyString EmptyString (unlines
         ["%%BeginFeature: *Resolution 600dpi"; "old code"; "%%EndFeature"; "showpage"])) =
    @dgetline (sample_config sample_job) sample_resources 3 TEXT v' ∧
    ob_wbuf (v_out v') = unlines ["%%BeginFeature: *Resolution 600dpi"; "600 setres"; "%%EndFeature"] ∧
    v_text v' = unlines ["showpage"].
Proof.
  set (text := @feature_sent (sample_config sample_job) "*Resolution" "600dpi" ["old code"]).
  destruct (@the_printers_own_code_replaces_the_jobs (sample_config sample_job) sample_resources
    "%%BeginFeature: *Resolution 600dpi" "*Resolution" "600dpi"
    ["old code"] (unlines ["showpage"]) 2
    (sample_doc EmptyString EmptyString (unlines
         ["%%BeginFeature: *Resolution 600dpi"; "old code"; "%%EndFeature"; "showpage"]))
    (mkOut text (BUFSIZE - strlen text) EmptyString 0 false false []))
    as (v' & E & Ho & Ht & _).
  - split; [|reflexivity..]. split; [|apply Nat.leb_le; reflexivity].
    repeat constructor; try discriminate; apply Nat.ltb_lt; reflexivity.
  - repeat constructor; apply Nat.ltb_lt; reflexivity.
  - repeat constructor.
  - apply Nat.ltb_lt. reflexivity.
  - reflexivity.
  - vm_compute. reflexivity.
  - exists v'. split; [exact E|]. rewrite Ho, Ht. split; vm_compute; reflexivity.
Defined.
