(* ===== verification/PropCapable.v ===== *)
(** The test of capability: a job is turned away exactly when there is a reason,
    resources that were found are sent, and a reason is given. *)
From S2P Require Import Prelude.
From S2P Require Import Text.
From S2P Require Import TextFacts.
From S2P Require Import Spooler.
From S2P Require Import DriverOutput.
From S2P Require Import JobFile.
From S2P Require Import QueueFile.
From S2P Require Import Tokens.
From S2P Require Import Ppd.
From S2P Require Import Document.
From S2P Require Import Resources.
From S2P Require Import Pages.
From S2P Require Import PropFeatures.
From S2P Require Import PropSections.
From S2P Require Import Capable.

(** A run that ends, and what it ends with. *)
Abbreviation ends m Q k := (wp m Q (λ _ _, False) (λ _, False) k).

(** All but the log. *)
Definition unlogged (k : capable) : capable :=
  set_k_log EmptyString (set_k_said_incapable false (set_k_said_willtry false k)).

Section capable.
Context `{DriverConfig} `{ResourceConfig} `{CapableConfig} (group_pass : Z).

(** * The verdict *)

Definition is_font (r : DRVRES) : bool := String.eqb (r_type r) "font".

Definition in_printer (r : DRVRES) : bool :=
  (is_font r && ppd_font_present (r_name r) dc_ppd) || is_internal (r_type r) (r_name r).

(** What a search for the resource finds, with the features of a font. *)
Definition finds (found : DRVRES → option (string * Z)) (r : DRVRES) : Prop := ∀ v : doc,
  r_needed r = true → in_printer r = false →
  find_resource (r_type r) (r_name r) (r_version r) (r_revision r) v =
  Done (match found r with Some (file, features) => (Some file, features) | None => (None, 0) end) v.

Definition sought (r : DRVRES) : bool := r_needed r && negb (in_printer r).

(** The printer has a TrueType rasterizer, which need not be sent. *)
Definition has_rasterizer : bool := f_TTRasterizer (d_Features dc_ppd) =? TT_TYPE42.

(** A font with nothing that this printer can print. *)
Definition no_form (features : Z) : bool :=
  has_type FONT_TYPE_42 features && negb has_rasterizer && negb (has_type FONT_TYPE_1 features).

Definition missing (found : DRVRES → option (string * Z)) (r : DRVRES) : bool :=
  sought r && match found r with None => true | Some _ => false end.

Definition useless (found : DRVRES → option (string * Z)) (r : DRVRES) : bool :=
  sought r && match found r with None => false | Some (_, features) => no_form features end.

(** The entry of a resource in the end: one that has to be sent has its file. *)
Definition with_file (file : string) (features : Z) (r : DRVRES) : DRVRES :=
  let r := if negb (has_type FONT_TYPE_42 features) && has_type FONT_TYPE_TTF features
           then set_r_dot_ttf true r else r in
  let r := set_r_needed false (set_r_filename (Some file) r) in
  if has_type FONT_MACTRUETYPE features then set_r_mactt true r else r.

Definition obtained (found : DRVRES → option (string * Z)) (r : DRVRES) : DRVRES :=
  if sought r then
    match found r with
    | Some (file, features) => if no_form features then r else with_file file features r
    | None => r
    end
  else r.

(** A resource may be missing when the user does not mind, or when it is a font
    and Courier will do; but first all printers of a group are asked. *)
Definition tolerated (r : DRVRES) : bool :=
  if (group_pass =? 1) || (j_proofmode dc_job =? PROOFMODE_NOTIFYME) then false
  else (j_proofmode dc_job =? PROOFMODE_TRUSTME) || is_font r.

Lemma tolerated_may r : tolerated r = may_go_without group_pass (is_font r).
Proof.
  unfold tolerated, may_go_without. destruct (group_pass =? 1), (_ =? PROOFMODE_NOTIFYME); cbn;
    by rewrite ?andb_true_r, ?andb_false_r.
Qed.

(** A resource without which the job must not be tried. *)
Definition stops (found : DRVRES → option (string * Z)) (r : DRVRES) : bool :=
  useless found r || (missing found r && negb (tolerated r)).

(** A requirement that is not met. *)
Definition has_code (option : string) : bool :=
  match lookup_feature "*Duplex" (Some option) dc_ppd with Found _ => true | _ => false end.

Definition unmet (req : string) : bool :=
  let Features := d_Features dc_ppd in
  if String.eqb req "color" then negb (f_ColorDevice Features)
  else if String.eqb req "duplex" then negb (has_code "None")
  else if String.eqb req "duplex(tumble)" then negb (has_code "DuplexTumble")
  else if String.eqb req "fax" then f_FaxSupport Features =? FAXSUPPORT_NONE
  else false.

Definition strict : bool := (j_proofmode dc_job =? PROOFMODE_NOTIFYME) || (group_pass =? 1).

(** What else there may be against the job on this printer. *)
Definition low_level : bool := f_LanguageLevel (d_Features dc_ppd) <? j_langlevel dc_job.

Definition lacks_extensions : bool :=
  (f_LanguageLevel (d_Features dc_ppd) <? 2)
  && negb (Z.land (j_extensions dc_job) (Z.lnot (f_Extensions (d_Features dc_ppd))) =? 0).

Definition no_grey (reqs : list string) : bool := negb (existsb (String.eqb "color") reqs) && negb cc_GrayOK.

Definition cannot_pass : bool :=
  (if cc_Codes =? CODES_UNKNOWN then 100 else Z.min cc_Codes 3) <? j_docdata dc_job.

Definition bad_pages : bool := (0 <? j_pages dc_job) && outside (j_pages dc_job) cc_limit_pages.

Definition bad_size : bool := outside (i32 (Z.quot (j_postscript_bytes dc_job) 1024)) cc_limit_kilobytes.

Definition other_reasons (reqs : list string) : bool :=
  low_level || lacks_extensions || no_grey reqs || cannot_pass || bad_pages || bad_size.

Definition turned_away (found : DRVRES → option (string * Z)) (rs : list DRVRES) (reqs : list string) : bool :=
  existsb (stops found) rs || (existsb unmet reqs && strict) || other_reasons reqs.

(** What is counted: with only a font without a form there is nothing to say. *)
Definition explained (found : DRVRES → option (string * Z)) (rs : list DRVRES) (reqs : list string) : bool :=
  existsb (missing found) rs || existsb unmet reqs || other_reasons reqs.

(** ** How often there was a reason *)

Definition one (b : bool) : Z := if b then 1 else 0.

Definition count_of {A} (p : A → bool) (l : list A) : Z := Z.of_nat (length (List.filter p l)).

Definition missing_font (found : DRVRES → option (string * Z)) (r : DRVRES) : bool := missing found r && is_font r.
Definition missing_other (found : DRVRES → option (string * Z)) (r : DRVRES) : bool := missing found r && negb (is_font r).

Definition counts (found : DRVRES → option (string * Z)) (rs : list DRVRES) (reqs : list string) : list Z :=
  [count_of (missing_font found) rs; count_of (missing_other found) rs;
   count_of unmet reqs + one low_level + one lacks_extensions; one (no_grey reqs); one cannot_pass;
   one bad_pages; one bad_size].

Definition counted (k : capable) : list Z :=
  [k_fonts k; k_resources k; k_requirements k; k_prohibitions k; k_codes k; k_pageslimit k; k_kilobyteslimit k].

(** ** The text of the reason

    What there is to say about the numbers: so many fonts, so many other
    resources, called so only beside fonts, and so many things this printer
    cannot do, in the singular or the plural; and what there is one of. *)
Definition amount (n : Z) (singular plural : string) : string :=
  if n =? 1 then "1 " +:+ singular else fmt_d n +:+ " " +:+ plural.

Definition listed (items : list (bool * string)) : string :=
  String.concat "," (snd <$> List.filter fst items).

Definition reason_text (found : DRVRES → option (string * Z)) (rs : list DRVRES) (reqs : list string) : string :=
  let fonts := count_of (missing_font found) rs in
  let others := count_of (missing_other found) rs in
  let unable := count_of unmet reqs + one low_level + one lacks_extensions in
  listed
    [(0 <? fonts, amount fonts "missing font" "missing fonts");
     (0 <? others,
      if 0 <? fonts then amount others "other missing rsrc" "other missing rsrcs"
      else amount others "missing rsrc" "missing rsrcs");
     (0 <? unable, amount unable "ptr incompatiblity" "ptr incompatibilities");
     (no_grey reqs, "1 ptr prohibition");
     (cannot_pass, "unpassable codes");
     (bad_pages, "outside pages limits");
     (bad_size, "outside kilobytes limits")].

(** * The lines of the queue file *)

Definition res_entry (fields : string * string * string * string * string * string) : DRVRES :=
  let '(needed, fixinclude, type, name, version, revision) := fields in
  let font := String.eqb type "font" in
  mkRes (truth (atoi needed)) type name (gu_getdouble version) (atoi revision) None None None false false
    (truth (atoi fixinclude) && font) (truth (atoi fixinclude) && negb font).

Definition asks_resource (line : string) (r : DRVRES) : Prop :=
  line ≠ "EndRes" ∧ String.prefix "Res:" line = true ∧ res_entry <$> res_line line = Some r.

Definition asks_requirement (line : string) (req : string) : Prop :=
  line ≠ "EndReq" ∧ String.prefix "Req:" line = true ∧ req_line line = Some req.

(** * The log *)

Lemma unlogged_printf text k : unlogged (set_k_log text k) = unlogged k.
Proof. by destruct k. Qed.

Lemma ends_log_printf text k (Q : unit → capable → Prop) :
  (∀ k', unlogged k' = unlogged k → Q tt k') → ends (log_printf text) Q k.
Proof. intros HQ. apply wp_modify, HQ. by destruct k. Qed.

Lemma ends_start k (Q : unit → capable → Prop) :
  (∀ k', unlogged k' = unlogged k → Q tt k') → ends (start_incapable_log group_pass) Q k.
Proof.
  intros HQ. unfold start_incapable_log. repeat case_match; [by apply HQ | by apply ends_log_printf..].
Qed.

Lemma ends_incapable_log reason k (Q : unit → capable → Prop) :
  (∀ k', unlogged k' = unlogged k → Q tt k') → ends (incapable_log group_pass reason) Q k.
Proof.
  intros HQ. apply wp_bind, ends_start. intros k1 E1. apply wp_bind, wp_gets, wp_bind, wp_when; intros _.
  - apply wp_bind, ends_log_printf. intros k2 E2. apply wp_modify, ends_log_printf.
    intros k3 E3. apply HQ. rewrite E3, <-E1, <-E2. by destruct k2.
  - apply ends_log_printf. intros k2 E2. apply HQ. by rewrite E2.
Qed.

Lemma ends_willtry reason k (Q : unit → capable → Prop) :
  (∀ k', unlogged k' = unlogged k → Q tt k') → ends (incapable_log_willtry group_pass reason) Q k.
Proof.
  intros HQ. apply wp_bind, ends_start. intros k1 E1.
  apply wp_bind, wp_gets, wp_bind, wp_gets, wp_bind, wp_when; intros _.
  - apply wp_bind, ends_log_printf. intros k2 E2. apply wp_modify, ends_log_printf.
    intros k3 E3. apply HQ. rewrite E3, <-E1, <-E2. by destruct k2.
  - apply ends_log_printf. intros k2 E2. apply HQ. by rewrite E2.
Qed.

Lemma ends_turn_away reason k (Q : unit → capable → Prop) :
  (∀ k', unlogged k' = set_k_incapable true (unlogged k) → Q tt k') → ends (turn_away group_pass reason) Q k.
Proof.
  intros HQ. apply wp_bind, ends_incapable_log. intros k1 E1. apply wp_modify, HQ. rewrite <-E1. by destruct k1.
Qed.

Lemma ends_count get set k (Q : unit → capable → Prop) : Q tt (set (get k + 1) k) → ends (count get set) Q k.
Proof. by intros HQ; apply wp_modify. Qed.

(** * What is known after some of the lines *)

(** The entries, the verdict so far and the numbers; nothing else is counted. *)
Record looks (reasons : list string) (entries : list DRVRES) (verdict : bool) (fonts resources : Z)
    (reqs : list string) (requirements : Z) (colour : bool) (k : capable) : Prop := {
  l_drvres : v_drvres (k_doc k) = entries;
  l_reasons : v_reasons (k_doc k) = reasons;
  l_raster : v_ttrasterizer_decided (k_doc k) = true → v_type42_ok (k_doc k) = has_rasterizer;
  l_verdict : k_incapable k = verdict;
  l_fonts : k_fonts k = fonts;
  l_resources : k_resources k = resources;
  l_drvreq : k_drvreq k = reqs;
  l_requirements : k_requirements k = requirements;
  l_colour : k_color_document k = colour;
  l_others : k_prohibitions k = 0 ∧ k_codes k = 0 ∧ k_pageslimit k = 0 ∧ k_kilobyteslimit k = 0;
}.

(** Only the log is different. *)
Lemma looks_log w l b f n qs m c k k' : unlogged k' = unlogged k → looks w l b f n qs m c k → looks w l b f n qs m c k'.
Proof. intros E [????????? ?]. destruct k, k'; injection E as <- <- <- <- <- <- <- <- <- <- <-. by split. Qed.

Lemma looks_turn_away reason w l b f n qs m c k (Q : unit → capable → Prop) :
  looks w l b f n qs m c k → (∀ k', looks w l true f n qs m c k' → Q tt k') → ends (turn_away group_pass reason) Q k.
Proof.
  intros Hl HQ. apply ends_turn_away. intros k' E. apply HQ.
  refine (looks_log _ _ _ _ _ _ _ _ (set_k_incapable true k) _ _ _); [by destruct k|].
  by destruct Hl; split.
Qed.

Lemma looks_willtry reason w l b f n qs m c k (Q : unit → capable → Prop) :
  looks w l b f n qs m c k → (∀ k', looks w l b f n qs m c k' → Q tt k') →
  ends (incapable_log_willtry group_pass reason) Q k.
Proof. intros Hl HQ. apply ends_willtry. intros k' E. apply HQ. by eapply looks_log. Qed.

(** The entry that was added last. *)
Lemma looks_upd g pre r w b f n qs m c k (Q : unit → capable → Prop) :
  looks w (pre ++ [r]) b f n qs m c k → (∀ k', looks w (pre ++ [g r]) b f n qs m c k' → Q tt k') →
  ends (upd_res (length pre) g) Q k.
Proof.
  intros [Hd ?????????] HQ. apply wp_modify, HQ. rewrite Hd.
  split; try done. cbn. rewrite alter_app_r_alt by done. by rewrite Nat.sub_diag.
Qed.

(** ** A resource *)

Hypothesis no_download : f_TTRasterizer (d_Features dc_ppd) ≠ TT_ACCEPT68K.

Lemma looks_rasterizer w l b f n qs m c k (Q : bool → capable → Prop) :
  looks w l b f n qs m c k → (∀ k', looks w l b f n qs m c k' → Q has_rasterizer k') → ends want_rasterizer Q k.
Proof.
  intros Hl HQ. unfold want_rasterizer. apply wp_bind, wp_gets, wp_bind.
  unfold wp, dv, want_ttrasterizer, mbind, M_bind, gets at 1. cbn.
  destruct Hl as [Hd Hr Hras ? ? ? ? ? ? ?]. unfold has_rasterizer in *.
  destruct (v_ttrasterizer_decided (k_doc k)) eqn:Edec; cbn.
  - rewrite Nat.eqb_refl. cbn. rewrite Hras by done. apply HQ. destruct k; split; auto.
  - unfold when. destruct (_ =? TT_TYPE42) eqn:E42; cbn.
    + rewrite Nat.eqb_refl. cbn. apply HQ. by split.
    + destruct (_ =? TT_ACCEPT68K) eqn:E68; [by apply Z.eqb_eq in E68|]. cbn.
      rewrite Nat.eqb_refl. cbn. apply HQ. by split.
Qed.

Lemma looks_form pre r features w b f n qs m c k (Q : bool → capable → Prop) :
  looks w (pre ++ [r]) b f n qs m c k →
  (∀ k', looks w (pre ++ [if negb (has_type FONT_TYPE_42 features) && has_type FONT_TYPE_TTF features
     then set_r_dot_ttf true r else r]) b f n qs m c k' → Q (negb (no_form features)) k') →
  ends (font_form (length pre) features) Q k.
Proof.
  intros Hl HQ. unfold font_form, no_form in *. destruct (has_type FONT_TYPE_42 features); cbn in HQ |- *.
  - apply wp_bind. eapply looks_rasterizer; [done|]. intros k' Hl'. apply wp_ret.
    rewrite negb_andb, !negb_involutive in HQ. by apply HQ.
  - destruct (has_type FONT_TYPE_TTF features); [|by apply wp_ret, HQ].
    apply wp_bind. eapply looks_rasterizer; [done|]. intros k' Hl'.
    apply wp_bind. eapply looks_upd; [done|]. intros k'' Hl''. by apply wp_ret, HQ.
Qed.

Lemma looks_use pre r fnptr features w b f n qs m c k (Q : unit → capable → Prop) :
  looks w (pre ++ [r]) b f n qs m c k →
  (∀ k', looks w (pre ++ [let r' := set_r_needed false (set_r_filename (Some fnptr) r) in
     if has_type FONT_MACTRUETYPE features then set_r_mactt true r' else r']) b f n qs m c k' → Q tt k') →
  ends (upd_res (length pre) (set_r_filename (Some fnptr));;
        upd_res (length pre) (set_r_needed false);;
        when (has_type FONT_MACTRUETYPE features) (upd_res (length pre) (set_r_mactt true))) Q k.
Proof.
  intros Hl HQ. apply wp_bind. eapply looks_upd; [done|]. intros k1 Hl1.
  apply wp_bind. eapply looks_upd; [done|]. intros k2 Hl2. cbn in HQ.
  apply wp_when; intros E; rewrite E in HQ; [|by apply HQ]. by eapply looks_upd.
Qed.

Lemma looks_missing r w l b f n qs m c k (Q : unit → capable → Prop) :
  looks w l b f n qs m c k →
  (∀ k', looks w l (b || negb (tolerated r))
     (f + one (is_font r)) (n + one (negb (is_font r))) qs m c k' → Q tt k') →
  ends (missing_resource group_pass (is_font r) r) Q k.
Proof.
  intros Hl HQ. rewrite tolerated_may in HQ. unfold missing_resource. apply wp_bind.
  assert (∀ k', looks w l b (f + one (is_font r)) (n + one (negb (is_font r))) qs m c k' →
    ends (if may_go_without group_pass (is_font r) then incapable_log_willtry group_pass (not_available r)
          else turn_away group_pass (not_available r)) Q k') as Hrest.
  { intros k' Hk. destruct (may_go_without group_pass (is_font r)).
    - eapply looks_willtry; [done|]. intros k'' Hk'. apply HQ. by rewrite orb_false_r.
    - eapply looks_turn_away; [done|]. intros k'' Hk'. apply HQ. by rewrite orb_true_r. }
  destruct Hl. destruct (is_font r); apply ends_count, Hrest; split; cbn; auto; lia.
Qed.

(** No substitutes. *)
Hypothesis no_substitute : j_proofmode dc_job = PROOFMODE_SUBSTITUTE → cc_FONTSUB = None.

Variable found : DRVRES → option (string * Z).

Lemma looks_seek pre r w b f n qs m c k (Q : unit → capable → Prop) :
  finds found r → r_needed r = true →
  looks w (pre ++ [r]) b f n qs m c k →
  (∀ k', looks w (pre ++ [obtained found r]) (b || stops found r)
     (f + one (missing found r && is_font r)) (n + one (missing found r && negb (is_font r))) qs m c k' → Q tt k') →
  ends (seek_resource group_pass (length pre) r) Q k.
Proof.
  intros Hf Hneeded Hl HQ. unfold stops, useless, missing, obtained, sought in *. rewrite Hneeded in HQ.
  unfold seek_resource. fold (is_font r). destruct (in_printer r) eqn:Hin.
  - assert (Q tt k) as Hk by (apply HQ; cbn; by rewrite orb_false_r, !Z.add_0_r).
    apply orb_true_iff in Hin as [->| ->]; [by apply wp_ret|].
    by destruct (_ && ppd_font_present _ _); apply wp_ret.
  - pose proof Hin as Hin'. apply orb_false_iff in Hin as [Hfont Hint]. rewrite Hfont, Hint.
    apply wp_bind. unfold wp at 1, dv. rewrite Hf by done. cbn in HQ.
    assert (looks w (pre ++ [r]) b f n qs m c (set_k_doc (k_doc k) k)) as Hl' by (by destruct k, Hl; split).
    destruct (found r) as [[file features]|].
    + apply wp_bind. eapply looks_form; [done|]. intros k1 Hl1. cbn in HQ.
      destruct (no_form features) eqn:Hform; cbn in HQ |- *.
      * unfold no_form in Hform. destruct (has_type FONT_TYPE_42 features); [|done].
        eapply looks_turn_away; [done|]. intros k2 Hl2. apply HQ. by rewrite orb_true_r, !Z.add_0_r.
      * eapply looks_use; [done|]. intros k2 Hl2. apply HQ. by rewrite orb_false_r, !Z.add_0_r.
    + apply wp_bind. unfold try_substitution.
      assert (∀ k', looks w (pre ++ [r]) b f n qs m c k' → ends (missing_resource group_pass (is_font r) r) Q k')
        as Hmiss by (intros k' Hk; eapply looks_missing; [done|]; intros k2 Hl2; by apply HQ).
      destruct (is_font r && (j_proofmode dc_job =? PROOFMODE_SUBSTITUTE)) eqn:Es; [|by apply wp_ret, Hmiss].
      apply andb_true_iff in Es as [_ Es%Z.eqb_eq]. rewrite no_substitute by done. by apply wp_ret, Hmiss.
Qed.

(** ** All of them *)

Lemma count_of_cons {A} (p : A → bool) x l : count_of p (x :: l) = one (p x) + count_of p l.
Proof. unfold count_of. cbn. destruct (p x); cbn -[Z.of_nat]; lia. Qed.

Lemma count_of_none {A} (p : A → bool) l : (count_of p l =? 0) = negb (existsb p l).
Proof.
  induction l as [|x l IH]; [done|]. rewrite count_of_cons. cbn. destruct (p x); cbn; [|done].
  apply Z.eqb_neq. unfold count_of. lia.
Qed.

Lemma looks_add f1 f2 type name version revision w l b f n qs m c k (Q : unit → capable → Prop) :
  looks w l b f n qs m c k →
  (∀ k', looks w (l ++ [res_entry (f1, f2, type, name, version, revision)]) b f n qs m c k' → Q tt k') →
  ends (dv (add_drvres (truth (atoi f1)) (truth (atoi f2)) type name (gu_getdouble version) (atoi revision) id)) Q k.
Proof. intros [<- ?????????] HQ. unfold wp, dv, add_drvres, modify. apply HQ. by split. Qed.

Lemma looks_resources lines rs rest pre w b f n qs m c k (Q : list string → capable → Prop) :
  Forall2 asks_resource lines rs → Forall (finds found) rs →
  looks w pre b f n qs m c k →
  (∀ k', looks w (pre ++ (obtained found <$> rs)) (b || existsb (stops found) rs)
     (f + count_of (missing_font found) rs) (n + count_of (missing_other found) rs) qs m c k' → Q rest k') →
  ends (check_resources group_pass (lines ++ "EndRes" :: rest)) Q k.
Proof.
  intros Hlines. revert pre b f n k Q.
  induction Hlines as [|line r lines rs (Hend & Hres & Hfields) _ IH]; intros pre b f n k Q Hfind Hl HQ.
  { apply wp_ret, HQ. unfold count_of. cbn. by rewrite app_nil_r, orb_false_r, !Z.add_0_r. }
  inversion_clear Hfind as [|?? Hr Hrs]. cbn [app check_resources].
  apply String.eqb_neq in Hend. rewrite Hend, Hres. cbn [negb].
  destruct (res_line line) as [[[[[[f1 f2] type] name] version] revision]|]; [|done]. apply (inj Some) in Hfields as Hentry.
  apply wp_bind, wp_gets, wp_bind. eapply looks_add; [done|]. rewrite Hentry. intros k1 Hl1.
  apply wp_bind, wp_gets. rewrite (l_drvres _ _ _ _ _ _ _ _ _ Hl), (l_drvres _ _ _ _ _ _ _ _ _ Hl1).
  rewrite list_lookup_middle by done.
  assert (truth (atoi f1) = r_needed r) as -> by by rewrite <-Hentry.
  apply wp_bind, wp_when; intros Hneeded.
  - eapply looks_seek; [done..|]. intros k' Hk. eapply IH; [done..|]. intros k'' Hk'. apply HQ.
    cbn [fmap list_fmap existsb]. rewrite !count_of_cons. unfold missing_font at 1, missing_other at 1.
    by rewrite cons_middle, app_assoc, orb_assoc, !Z.add_assoc.
  - eapply IH; [done..|]. intros k'' Hk'. apply HQ. cbn [fmap list_fmap existsb]. rewrite !count_of_cons.
    unfold stops, useless, missing_font at 1, missing_other at 1, missing, obtained at 1, sought at 1.
    unfold sought. rewrite Hneeded. cbn [andb orb one].
    rewrite !Z.add_0_l. by rewrite cons_middle, app_assoc.
Qed.

(** ** Requirements *)

Lemma looks_feature option k (Q : bool → capable → Prop) :
  Q (has_code option) k →
  ends (code ← find_feature dc_ppd "*Duplex" (Some option); mret (bool_decide (is_Some code))) Q k.
Proof.
  unfold has_code, find_feature. pose proof (lookup_defined "*Duplex" option dc_ppd).
  by destruct (lookup_feature "*Duplex" (Some option) dc_ppd); intros HQ; [apply wp_bind, wp_ret, wp_ret..|].
Qed.

Lemma looks_meets req w l b f n qs m c k (Q : bool → capable → Prop) :
  looks w l b f n qs m c k →
  (∀ k', looks w l b f n qs m (c || String.eqb "color" req) k' → Q (negb (unmet req)) k') → ends (meets req) Q k.
Proof.
  intros Hl HQ. unfold meets, unmet in *. rewrite (String.eqb_sym "color") in HQ.
  destruct (String.eqb req "color").
  { apply wp_bind, wp_modify, wp_ret. rewrite negb_involutive in HQ. apply HQ. rewrite orb_true_r.
    destruct Hl; by split. }
  rewrite orb_false_r in HQ. specialize (HQ _ Hl).
  destruct (String.eqb req "duplex"); [by apply looks_feature; rewrite negb_involutive in HQ|].
  destruct (String.eqb req "duplex(tumble)"); [by apply looks_feature; rewrite negb_involutive in HQ|].
  by destruct (String.eqb req "fax"); apply wp_ret.
Qed.

Lemma looks_requirement req w l b f n qs m c k (Q : unit → capable → Prop) :
  looks w l b f n qs m c k →
  (∀ k', looks w l (b || (unmet req && strict)) f n qs (m + one (unmet req)) c k' → Q tt k') →
  ends (when (negb (negb (unmet req))) (unmet_requirement group_pass req)) Q k.
Proof.
  intros Hl HQ. rewrite negb_involutive. apply wp_when; intros E; rewrite E in HQ; cbn in HQ.
  2: { apply HQ. by rewrite orb_false_r, Z.add_0_r. }
  apply wp_bind, ends_count. unfold strict in HQ.
  assert (looks w l b f n qs (m + 1) c (set_k_requirements (k_requirements k + 1) k)) as Hl1
    by (destruct Hl; split; cbn; auto; lia).
  destruct (_ || (group_pass =? 1)).
  - eapply looks_turn_away; [done|]. intros k' Hk. apply HQ. by rewrite orb_true_r.
  - eapply looks_willtry; [done|]. intros k' Hk. apply HQ. by rewrite orb_false_r.
Qed.

Lemma looks_requirements lines reqs rest w l b f n qs m c k (Q : unit → capable → Prop) :
  Forall2 asks_requirement lines reqs → (length (qs ++ reqs) ≤ MAX_DRVREQ)%nat →
  looks w l b f n qs m c k →
  (∀ k', looks w l (b || (existsb unmet reqs && strict)) f n (qs ++ reqs) (m + count_of unmet reqs)
     (c || existsb (String.eqb "color") reqs) k' → Q tt k') →
  ends (check_requirements group_pass (lines ++ "EndReq" :: rest)) Q k.
Proof.
  intros Hlines. revert qs b m c k Q.
  induction Hlines as [|line req lines reqs (Hend & Hreq & Hfield) _ IH]; intros qs b m c k Q Hmax Hl HQ.
  { apply wp_ret, HQ. unfold count_of. cbn. by rewrite app_nil_r, !orb_false_r, Z.add_0_r. }
  cbn [app check_requirements]. apply String.eqb_neq in Hend. rewrite Hend, Hreq, Hfield. cbn [negb].
  apply wp_bind, wp_gets. rewrite (l_drvreq _ _ _ _ _ _ _ _ _ Hl).
  rewrite (proj2 (Nat.leb_gt _ _)) by (rewrite length_app in Hmax; cbn in Hmax; lia).
  apply wp_bind, wp_modify, wp_bind.
  assert (looks w l b f n (qs ++ [req]) m c (set_k_drvreq (qs ++ [req]) k)) as Hl1 by (destruct Hl; by split).
  eapply looks_meets; [done|]. intros k2 Hl2. apply wp_bind.
  eapply looks_requirement; [done|]. intros k3 Hl3.
  eapply (IH (qs ++ [req])); [by rewrite <-app_assoc | done |]. intros k4 Hl4. apply HQ. cbn [existsb].
  rewrite count_of_cons, cons_middle, app_assoc, Z.add_assoc, andb_orb_distrib_l, !orb_assoc.
  by rewrite <-(app_assoc _ _ reqs) in *.
Qed.

(** ** The other objections *)

Definition objected (get : capable → Z) (set : Z → capable → capable) (b : bool) (k : capable) : capable :=
  if b then (let k := set_k_incapable true k in set (get k + 1) k) else k.

Lemma ends_objection b reason get set k (Q : unit → capable → Prop) :
  (∀ z k, unlogged (set z k) = set z (unlogged k)) → (∀ k, get (unlogged k) = get k) →
  (∀ k', unlogged k' = objected get set b (unlogged k) → Q tt k') →
  ends (when b (turn_away group_pass reason;; count get set)) Q k.
Proof.
  intros Hset Hget HQ. apply wp_when; intros ->; [|by apply HQ].
  apply wp_bind, ends_turn_away. intros k' E. apply ends_count, HQ. cbn.
  by rewrite Hset, E, <-(Hget k'), E.
Qed.

Lemma ends_language k (Q : unit → capable → Prop) :
  (∀ k', unlogged k' = objected k_requirements set_k_requirements lacks_extensions
     (objected k_requirements set_k_requirements low_level (unlogged k)) → Q tt k') →
  ends (check_language group_pass) Q k.
Proof.
  intros HQ. apply wp_bind, ends_objection; [done..|]. intros k1 E1.
  apply ends_objection; [done..|]. intros k2 E2. apply HQ. by rewrite E2, E1.
Qed.

Lemma ends_colour k (Q : unit → capable → Prop) :
  (∀ k', unlogged k' = objected k_prohibitions set_k_prohibitions
     (negb (k_color_document k) && negb cc_GrayOK) (unlogged k) → Q tt k') →
  ends (check_colour group_pass) Q k.
Proof. intros HQ. apply wp_bind, wp_gets. by apply ends_objection. Qed.

Lemma ends_limits k (Q : unit → capable → Prop) :
  (∀ k', unlogged k' = objected k_kilobyteslimit set_k_kilobyteslimit bad_size
     (objected k_pageslimit set_k_pageslimit bad_pages (unlogged k)) → Q tt k') →
  ends (check_limits group_pass) Q k.
Proof.
  intros HQ. apply wp_bind, ends_objection; [done..|]. intros k1 E1.
  apply ends_objection; [done..|]. intros k2 E2. apply HQ. by rewrite E2, E1.
Qed.

Hypothesis known_data : 0 ≤ j_docdata dc_job ≤ 3.
Hypothesis known_codes : 0 ≤ cc_Codes ≤ 4.

Lemma ends_codes k (Q : unit → capable → Prop) :
  (∀ k', unlogged k' = objected k_codes set_k_codes cannot_pass (unlogged k) → Q tt k') →
  ends (check_codes group_pass) Q k.
Proof.
  intros HQ. assert (∀ Q, Q (j_docdata dc_job) k → ends required_codes Q k) as Hreq.
  { intros R HR. unfold required_codes.
    assert (j_docdata dc_job = 0 ∨ j_docdata dc_job = 1 ∨ j_docdata dc_job = 2 ∨ j_docdata dc_job = 3)
      as [E|[E|[E|E]]] by lia; rewrite E in *; by apply wp_ret. }
  assert (∀ Q : Z → capable → Prop, Q (if cc_Codes =? CODES_UNKNOWN then 100 else Z.min cc_Codes 3) k →
    ends available_codes Q k) as Hav.
  { intros R HR. unfold available_codes.
    assert (cc_Codes = 0 ∨ cc_Codes = 1 ∨ cc_Codes = 2 ∨ cc_Codes = 3 ∨ cc_Codes = 4)
      as [E|[E|[E|[E|E]]]] by lia; rewrite E in *; by apply wp_ret. }
  apply wp_bind, Hreq, wp_bind, Hav. by apply ends_objection.
Qed.

(** ** The reason *)

Definition told (k : capable) : list string :=
  if k_incapable k && (group_pass <? 2) && negb (forallb (Z.eqb 0) (counted k))
  then [String.concat "," (parts_of_reason k)] else [].

Lemma no_parts k : parts_of_reason k = [] ↔ forallb (Z.eqb 0) (counted k) = true.
Proof.
  unfold parts_of_reason, counted. cbn [forallb]. rewrite !(Z.eqb_sym 0).
  destruct (k_fonts k =? 0), (k_resources k =? 0), (k_requirements k =? 0), (k_prohibitions k =? 0),
    (k_codes k =? 0), (k_pageslimit k =? 0), (k_kilobyteslimit k =? 0); done.
Qed.

Lemma ends_say_why k (Q : unit → capable → Prop) :
  (∀ k', k_doc k' = set_v_reasons (v_reasons (k_doc k) ++ told k) (k_doc k) → k_incapable k' = k_incapable k →
     counted k' = counted k → k_drvreq k' = k_drvreq k → parts_of_reason k' = parts_of_reason k → Q tt k') →
  ends (say_why group_pass) Q k.
Proof.
  intros HQ. unfold told in HQ. apply wp_bind, wp_gets. cbn [id].
  assert (k_doc k = set_v_reasons (v_reasons (k_doc k) ++ []) (k_doc k)) as Hsame
    by (rewrite app_nil_r; by destruct (k_doc k)).
  apply wp_when; intros E; rewrite E in HQ; [|by apply HQ].
  destruct (forallb _ _) eqn:Ecount.
  - apply no_parts in Ecount as ->. by apply wp_ret, HQ.
  - destruct (parts_of_reason k) eqn:Eparts; [by apply no_parts in Eparts; congruence|].
    unfold wp, dv, give_reason, modify. by apply HQ.
Qed.

(** ** All of it *)

Lemma count_of_split p q (l : list DRVRES) :
  existsb p l = existsb (λ r, p r && q r) l || existsb (λ r, p r && negb (q r)) l.
Proof. induction l as [|r l IH]; [done|]. cbn. rewrite IH. by destruct (p r), (q r), (existsb _ l), (existsb _ l). Qed.

Lemma counts_nothing rs reqs : forallb (Z.eqb 0) (counts found rs reqs) = negb (explained found rs reqs).
Proof.
  unfold counts, explained, other_reasons. cbn [forallb]. rewrite !(Z.eqb_sym 0), !count_of_none.
  rewrite (count_of_split (missing found) is_font). unfold missing_font, missing_other.
  assert ((count_of unmet reqs + one low_level + one lacks_extensions =? 0)
    = negb (existsb unmet reqs || low_level || lacks_extensions)) as ->.
  { rewrite !negb_orb, <-(count_of_none unmet). assert (0 <= count_of unmet reqs) by (unfold count_of; lia).
    destruct low_level, lacks_extensions; cbn; rewrite ?andb_false_r, ?andb_true_r, ?Z.add_0_r; try done;
      apply Z.eqb_neq; lia. }
  destruct (existsb _ rs), (existsb _ rs), (existsb unmet reqs), low_level, lacks_extensions, (no_grey reqs),
    cannot_pass, bad_pages, bad_size; done.
Qed.

Definition reason_given (rs : list DRVRES) (reqs : list string) : bool :=
  turned_away found rs reqs && (group_pass <? 2) && explained found rs reqs.

(** What the last four tests do to what is known. *)
Lemma judged w l b f n qs m c k k' :
  looks w l b f n qs m c k →
  unlogged k' =
    objected k_kilobyteslimit set_k_kilobyteslimit bad_size
      (objected k_pageslimit set_k_pageslimit bad_pages
        (objected k_codes set_k_codes cannot_pass
          (objected k_prohibitions set_k_prohibitions (negb c && negb cc_GrayOK)
            (objected k_requirements set_k_requirements lacks_extensions
              (objected k_requirements set_k_requirements low_level (unlogged k)))))) →
  v_drvres (k_doc k') = l ∧ v_reasons (k_doc k') = w ∧ k_drvreq k' = qs ∧
  k_incapable k' = b || (low_level || lacks_extensions || (negb c && negb cc_GrayOK) || cannot_pass
    || bad_pages || bad_size) ∧
  counted k' = [f; n; m + one low_level + one lacks_extensions; one (negb c && negb cc_GrayOK);
    one cannot_pass; one bad_pages; one bad_size].
Proof.
  intros [<- <- _ <- <- <- <- <- _ (Hp & Hc & Hpl & Hkb)] E.
  change (k_doc k') with (k_doc (unlogged k')). change (k_drvreq k') with (k_drvreq (unlogged k')).
  change (k_incapable k') with (k_incapable (unlogged k')). change (counted k') with (counted (unlogged k')).
  rewrite E. clear E. unfold counted.
  destruct low_level, lacks_extensions, (negb c && negb cc_GrayOK), cannot_pass, bad_pages, bad_size;
    cbn -[Z.add]; rewrite ?Hp, ?Hc, ?Hpl, ?Hkb, ?Z.add_0_r, ?orb_true_r, ?orb_false_r; done.
Qed.

(** The parts are those of the text. *)
Lemma listed_cons (b : bool) (text : string) items :
  (if b then [text] else []) ++ (snd <$> List.filter fst items) = (snd <$> List.filter fst ((b, text) :: items)).
Proof. by destruct b. Qed.

Lemma count_of_nonneg {A} (p : A → bool) l : 0 ≤ count_of p l.
Proof. unfold count_of. lia. Qed.

Lemma some_part n (one_of many_of : string) :
  0 ≤ n →
  (if n =? 0 then [] else [if 1 <? n then fmt_d n +:+ " " +:+ many_of else "1 " +:+ one_of])
  = (if 0 <? n then [amount n one_of many_of] else []).
Proof.
  intros Hn. unfold amount.
  destruct (Z.eqb_spec n 0), (Z.ltb_spec 0 n), (Z.ltb_spec 1 n), (Z.eqb_spec n 1); done || lia.
Qed.

Lemma parts_text rs reqs k :
  counted k = counts found rs reqs → String.concat "," (parts_of_reason k) = reason_text found rs reqs.
Proof.
  intros E. injection E as Ef Er Eq Ep Ec El Ek. unfold reason_text, listed. f_equal.
  unfold parts_of_reason. rewrite Ef, Er, Eq, Ep, Ec, El, Ek.
  pose proof (count_of_nonneg (missing_font found) rs) as Hf.
  pose proof (count_of_nonneg (missing_other found) rs) as Ho.
  pose proof (count_of_nonneg unmet reqs) as Hu.
  assert (0 ≤ count_of unmet reqs + one low_level + one lacks_extensions) as Hn
    by (destruct low_level, lacks_extensions; unfold one; lia).
  rewrite <-!listed_cons. repeat f_equal.
  - by apply (some_part _ "missing font" "missing fonts").
  - destruct (Z.eqb_spec (count_of (missing_font found) rs) 0) as [->|Hne].
    + by apply (some_part _ "missing rsrc" "missing rsrcs").
    + rewrite (proj2 (Z.ltb_lt 0 (count_of (missing_font found) rs))) by lia.
      by apply (some_part _ "other missing rsrc" "other missing rsrcs").
  - by apply (some_part _ "ptr incompatiblity" "ptr incompatibilities").
  - by destruct (no_grey reqs).
  - by destruct cannot_pass.
  - by destruct bad_pages.
  - by destruct bad_size.
Qed.

Lemma capable_result lines rs reqlines reqs rest v :
  Forall2 asks_resource lines rs → Forall (finds found) rs →
  Forall2 asks_requirement reqlines reqs → (length reqs ≤ MAX_DRVREQ)%nat →
  v_drvres v = [] → v_ttrasterizer_decided v = false →
  ends (check_if_capable group_pass (lines ++ "EndRes" :: reqlines ++ "EndReq" :: rest))
    (λ verdict k,
       verdict = turned_away found rs reqs ∧ v_drvres (k_doc k) = obtained found <$> rs ∧ k_drvreq k = reqs ∧
       counted k = counts found rs reqs ∧
       v_reasons (k_doc k) = v_reasons v ++
         (if reason_given rs reqs then [reason_text found rs reqs] else [])) (capable_start v).
Proof.
  intros Hlines Hfind Hreqs Hmax Hnone Hraster.
  assert (looks (v_reasons v) [] false 0 0 [] 0 false (capable_start v)) as Hl0 by (by split; cbn; rewrite ?Hraster).
  apply wp_bind. eapply looks_resources; [exact Hlines | exact Hfind | exact Hl0 |]. intros k1 Hl1. apply wp_bind.
  eapply looks_requirements; [exact Hreqs | | exact Hl1 |]; [exact Hmax|]. intros k2 Hl2. rewrite !app_nil_l, !orb_false_l, !Z.add_0_l in Hl2.
  apply wp_bind, ends_language. intros k3 E3. apply wp_bind, ends_colour. intros k4 E4.
  apply wp_bind, ends_codes. intros k5 E5. apply wp_bind, ends_limits. intros k6 E6.
  assert (k_color_document k3 = existsb (String.eqb "color") reqs) as Hcolour.
  { change (k_color_document (unlogged k3) = existsb (String.eqb "color") reqs). rewrite E3.
    rewrite <-(l_colour _ _ _ _ _ _ _ _ _ Hl2). by destruct low_level, lacks_extensions. }
  rewrite Hcolour in E4. rewrite E5, E4, E3 in E6.
  destruct (judged _ _ _ _ _ _ _ _ _ _ Hl2 E6) as (Hd & Hw & Hq & Hinc & Hcount).
  fold (no_grey reqs) in Hinc, Hcount. fold (other_reasons reqs) in Hinc. fold (turned_away found rs reqs) in Hinc.
  fold (counts found rs reqs) in Hcount.
  apply wp_bind, ends_say_why. intros k7 Edoc Einc Ecount Eq Eparts. apply wp_gets.
  rewrite Edoc, Einc, Ecount, Eq, Hinc, Hcount. split_and!; [done..|].
  cbn [v_reasons set_v_reasons]. rewrite Hw. f_equal. unfold told.
  by rewrite (parts_text _ _ _ Hcount), Hinc, Hcount, counts_nothing, negb_involutive.
Qed.
End capable.

(** C14: check_if_capable() (src/pprdrv/pprdrv_capable.c) turns a job away from a
    printer exactly when there is a reason to: a resource that the job still
    needs, that is neither in the printer nor found, and that the proof mode or
    the pass over the group does not let it go without; a font in Type 42 form
    only, on a printer without a TrueType rasterizer; an unmet requirement, if
    the user wants to know or another printer may do; a language level or
    extension the printer lacks, a grayscale job on a printer for colour only,
    codes that the channel cannot pass, or pages or kilobytes out of range.  The
    list of resources then has an entry for each line, with the file for each
    that has to be sent; the requirements are listed; and if the job is turned
    away before the second pass, one reason is added to the queue file: how many
    fonts and other resources are missing, what the printer cannot do, and the
    codes and limits that stand against it.  No reason is added when the fonts in
    Type 42 form only are all there was: they are not counted, and stand in the
    log alone.  All this for printers to which no rasterizer is downloaded, those
    whose rasterizer is not given as Accept68K, and without a file of font
    substitutes where the proof mode would make use of it. *)
Theorem a_job_is_turned_away_for_a_reason `{DriverConfig} `{ResourceConfig} `{CapableConfig} group_pass
    found lines rs reqlines reqs rest v :
  f_TTRasterizer (d_Features dc_ppd) ≠ TT_ACCEPT68K →
  (j_proofmode dc_job = PROOFMODE_SUBSTITUTE → cc_FONTSUB = None) →
  0 ≤ j_docdata dc_job ≤ 3 → 0 ≤ cc_Codes ≤ 4 →
  Forall2 asks_resource lines rs → Forall (finds found) rs →
  Forall2 asks_requirement reqlines reqs → (length reqs ≤ MAX_DRVREQ)%nat →
  v_drvres v = [] → v_ttrasterizer_decided v = false →
  ∃ k,
    check_if_capable group_pass (lines ++ "EndRes" :: reqlines ++ "EndReq" :: rest) (capable_start v) =
      Done (turned_away group_pass found rs reqs) k ∧
    v_drvres (k_doc k) = obtained found <$> rs ∧ k_drvreq k = reqs ∧ counted k = counts found rs reqs ∧
    v_reasons (k_doc k) = v_reasons v ++
      (if reason_given group_pass found rs reqs then [reason_text found rs reqs] else []).
Proof.
  intros Hras Hsub Hdata Hcodes Hl Hf Hq Hmax Hd Ht.
  pose proof (capable_result group_pass Hras Hsub found Hdata Hcodes _ _ _ _ rest _ Hl Hf Hq Hmax Hd Ht) as Hr.
  unfold wp in Hr. destruct (check_if_capable _ _ _) as [verdict k|? ?|?]; [|done..].
  destruct Hr as (-> & Hr). eauto.
Qed.

(** Two fonts of the index, of which one has only a Type 42 form, one font that
    nobody has, and a printer that cannot print on both sides. *)
Definition proof_job (mode : Z) : QEntryFile :=
  set_j_proofmode mode (set_j_docdata CODES_Clean7Bit (set_j_langlevel 2 sample_job)).

Definition font_resources : ResourceConfig :=
  {| FONT_INDEX := Some ("Times:1:/fonts/times" +:+ line_end +:+ "Arial:4:/fonts/arial" +:+ line_end);
     RESOURCEDIR := "/res"; resource_files := {["/res/procset/Ps-1-2" := "% a procset"]} |}.

Definition grey_printer : CapableConfig :=
  {| cc_Name := "mouse"; cc_GrayOK := true; cc_Codes := CODES_Clean7Bit; cc_limit_pages := (0, 0);
     cc_limit_kilobytes := (0, 0); cc_FONTSUB := None |}.

Definition font_lines : list string :=
  ["Res: 1 0 font Times 0 0"; "Res: 1 1 font Arial 0 0"; "Res: 1 0 font Unknown 0 0";
   "Res: 1 0 procset Ps 1.0 2"; "Res: 0 0 font Enclosed 0 0"; "Res: 1 0 encoding StandardEncoding 0 0"].

Definition lines_found (r : DRVRES) : option (string * Z) :=
  if String.eqb (r_name r) "Times" then Some ("/fonts/times", FONT_TYPE_1)
  else if String.eqb (r_name r) "Arial" then Some ("/fonts/arial", FONT_TYPE_42)
  else if String.eqb (r_name r) "Ps" then Some ("/res/procset/Ps-1-2", 0)
  else None.

Definition font_entries : list DRVRES :=
  omap (λ line, res_entry <$> res_line line) font_lines.

Lemma a_job_is_turned_away_for_a_reason_witness :
  let job := sample_config (proof_job PROOFMODE_NOTIFYME) in
  ∃ k,
    @check_if_capable job font_resources grey_printer 0
      (font_lines ++ "EndRes" :: ["Req: color"; "Req: duplex"] ++ ["EndReq"])
      (capable_start (sample_doc EmptyString EmptyString EmptyString)) = Done true k ∧
    r_filename <$> v_drvres (k_doc k) =
      [Some "/fonts/times"; None; None; Some "/res/procset/Ps-1-2"; None; None] ∧
    v_reasons (k_doc k) = ["1 missing font,2 ptr incompatibilities"].
Proof.
  intros job.
  destruct (@a_job_is_turned_away_for_a_reason job font_resources grey_printer 0 lines_found font_lines font_entries
    ["Req: color"; "Req: duplex"] ["color"; "duplex"] [] (sample_doc EmptyString EmptyString EmptyString))
    as (k & Hk & Hd & Hq & Hc & Hw).
  - by vm_compute.
  - done.
  - by vm_compute.
  - by vm_compute.
  - repeat constructor; try done; vm_compute; reflexivity.
  - apply Forall_forall. intros r Hr v Hn Hp. vm_compute in Hr.
    repeat (apply elem_of_cons in Hr as [->|Hr]; [try discriminate; reflexivity|]). by apply not_elem_of_nil in Hr.
  - repeat constructor; done.
  - vm_compute. lia.
  - done.
  - done.
  - exists k. rewrite Hd, Hw. split; [exact Hk|]. split; [vm_compute; reflexivity|].
    vm_compute. reflexivity.
Defined.

(** A job whose only trouble is such a font is turned away without a reason. *)
Lemma turned_away_without_a_reason :
  match @check_if_capable (sample_config (proof_job PROOFMODE_TRUSTME)) font_resources grey_printer 0
    ["Res: 1 0 font Arial 0 0"; "EndRes"; "EndReq"] (capable_start (sample_doc EmptyString EmptyString EmptyString)) with
  | Done verdict k => verdict = true ∧ v_reasons (k_doc k) = []
  | _ => False
  end.
Proof. vm_compute. split; reflexivity. Qed.

(** The heading of a second pass stands before every line of the log. *)
Lemma the_heading_is_repeated :
  match @check_if_capable (sample_config (proof_job PROOFMODE_TRUSTME)) font_resources grey_printer 2
    ["Res: 1 0 font Unknown 0 0"; "EndRes"; "Req: duplex"; "EndReq"]
    (capable_start (sample_doc EmptyString EmptyString EmptyString)) with
  | Done verdict k => verdict = false ∧ file_lines (k_log k) =
      ["+Pass 2, ProofMode=TrustMe";
       "+Printer " +:+ in_quotes "mouse" +:+ " may not print this job correctly for the following reason(s):";
       "+Resource " +:+ in_quotes "font Unknown" +:+ " not available.";
       "+Pass 2, ProofMode=TrustMe";
       "+Requirement " +:+ in_quotes "duplex" +:+ " can't be met."]
  | _ => False
  end.
Proof. vm_compute. split; reflexivity. Qed.
