(* ===== verification/PropThings.v ===== *)
(** What ppr writes of a job's resources and requirements is what pprdrv reads;
    what the rationalized flags mean; and the parts a job is divided into. *)
From S2P Require Import Prelude.
From S2P Require Import Text.
From S2P Require Import TextFacts.
From S2P Require Import Spooler.
From S2P Require Import JobFile.
From S2P Require Import QueueFile.
From S2P Require Import PropQueueFile.
From S2P Require Import Tokens.
From S2P Require Import PropPpd.
From S2P Require Import ReadPpd.
From S2P Require Import Document.
From S2P Require Import Resources.
From S2P Require Import Capable.
From S2P Require Import PropCapable.
From S2P Require Import Things.

(** * Numbers *)

(** All strings of at most so many digits. *)
Fixpoint digit_strings (n : nat) : list string :=
  match n with
  | 0%nat => [EmptyString]
  | S n' =>
      EmptyString :: (d ← chars "0123456789"; String d <$> digit_strings n')
  end.

Lemma digits_listed n s :
  forallb gu_ascii_isdigit (chars s) = true → (String.length s <= n)%nat → s ∈ digit_strings n.
Proof.
  revert s. induction n as [|n IH]; intros [|c s] Hd Hl; cbn in *; try lia; [by left..|].
  apply andb_true_iff in Hd as [Hc Hd]. right.
  assert (∀ d, String d s ∈ (String d <$> digit_strings n)) as Hs
    by (intros d; apply list_elem_of_fmap_2, IH; [done | lia]).
  rewrite !elem_of_app. clear -Hc Hs.
  destruct c as [[] [] [] [] [] [] [] []]; try discriminate Hc; eauto 12.
Qed.

(** The fraction that is written: a zero at the end is left out. *)
Definition fraction_written (f : string) : string := four_digits 4 (ten_thousandths f) EmptyString.

Definition fraction_ok (f : string) : bool :=
  let value := digits_value 10 gu_ascii_digit_value in
  forallb gu_ascii_isdigit (chars (fraction_written f))
  && (value (fraction_written f) * 10 ^ strlen f =? value f * 10 ^ strlen (fraction_written f)).

Lemma fraction_checked f :
  forallb gu_ascii_isdigit (chars f) = true → (String.length f <= 4)%nat → fraction_ok f = true.
Proof.
  intros Hd Hl. pose proof (digits_listed 4 f Hd Hl) as Hf.
  assert (forallb fraction_ok (digit_strings 4) = true) as Hall by (vm_compute; reflexivity).
  rewrite forallb_forall in Hall. by apply Hall, list_elem_of_In.
Qed.

(** A version number with at most four digits behind the point. *)
Definition plain_version (v : scanval) : Prop :=
  ∃ w f, v = VDec 1 w f ∧ 0 ≤ w ≤ 999999999 ∧
    forallb gu_ascii_isdigit (chars f) = true ∧ (String.length f <= 4)%nat.

Lemma gu_getdouble_unsigned c s :
  gu_ascii_isdigit c = true →
  gu_getdouble (String c s) =
  let '(ds, rest) := span gu_ascii_isdigit (String c s) in
  VDec 1 (digits_value 10 gu_ascii_digit_value ds)
    (match rest with String "." s' => (span gu_ascii_isdigit s').1 | _ => EmptyString end).
Proof. intros Hc. destruct c as [[] [] [] [] [] [] [] []]; try discriminate Hc; reflexivity. Qed.

Lemma version_text w f :
  0 ≤ w ≤ 999999999 →
  dtostr (VDec 1 w f) = fmt_u false 10 w +:+
    (if String.eqb (fraction_written f) EmptyString then EmptyString else String "." (fraction_written f)).
Proof.
  intros Hw. unfold dtostr, gu_dtostr, fraction_written. rewrite (proj2 (Z.ltb_ge 999999999 w)) by lia.
  cbn [Z.ltb Z.compare andb]. unfold fmt_d. by rewrite (proj2 (Z.ltb_ge w 0)) by lia.
Qed.

Lemma digits_all s : forallb gu_ascii_isdigit (chars s) = true → Forall (λ c, gu_ascii_isdigit c = true) (chars s).
Proof. intros Hs. apply Forall_forall. intros c Hc. rewrite forallb_forall in Hs. by apply Hs, list_elem_of_In. Qed.

(** A version is read back as the same number. *)
Lemma version_read_back v :
  plain_version v → same_version (gu_getdouble (dtostr v)) v = true ∧ word (dtostr v).
Proof.
  intros (w & f & -> & Hw & Hd & Hl). pose proof (fraction_checked f Hd Hl) as Hok.
  apply andb_true_iff in Hok as [Hdigits Hvalue%Z.eqb_eq]. rewrite version_text by done.
  pose proof (fmt_u_digits false 10 _ _ ltac:(lia) dec_digits w ltac:(lia)) as Hws.
  pose proof (fmt_u_value false 10 _ _ ltac:(lia) dec_digits w ltac:(lia)) as Hval.
  destruct (fmt_u_cons false 10 _ _ ltac:(lia) dec_digits w ltac:(lia)) as (c & u & E & Hc).
  remember (fraction_written f) as f' eqn:Ef. split.
  - assert (gu_getdouble (fmt_u false 10 w +:+ (if String.eqb f' EmptyString then EmptyString else String "." f'))
      = VDec 1 w f') as ->.
    { rewrite E, str_cons_app, gu_getdouble_unsigned, <-str_cons_app, <-E by done.
      rewrite span_app by (done || by destruct (String.eqb_spec f' EmptyString)). rewrite Hval.
      destruct (String.eqb_spec f' EmptyString) as [->|_]; [done|].
      pose proof (span_app gu_ascii_isdigit f' EmptyString (digits_all _ Hdigits) I) as Hs.
      rewrite str_app_nil_r in Hs. by rewrite Hs. }
    unfold same_version, decimal. apply Z.eqb_eq. rewrite !Z.mul_1_l. nia.
  - destruct (word_text _ (fmt_d_word w)) as (Hne & _). split.
    + rewrite E. by rewrite str_cons_app.
    + rewrite chars_app. apply Forall_app. split.
      * eapply Forall_impl; [exact Hws|]. apply digit_not_space.
      * destruct (String.eqb f' EmptyString); [constructor|]. cbn. constructor; [done|].
        eapply Forall_impl; [by apply digits_all|]. apply digit_not_space.
Qed.

(** * Fields *)

Abbreviation space := (Ascii.eqb " ").

Definition no_space (s : string) : Prop := Forall (λ c, space c = false) (chars s).

Lemma word_no_space s : word s → no_space s.
Proof.
  intros [_ Hs]. eapply Forall_impl; [exact Hs|]. intros c Hc. apply Ascii.eqb_neq.
  intros <-. discriminate Hc.
Qed.

Lemma strsep_field f rest : no_space f → strsep space (Some (f +:+ String " " rest)) = (Some f, Some rest).
Proof.
  intros Hf. unfold strsep. rewrite span_app; [done | | done].
  eapply Forall_impl; [exact Hf|]. by intros c ->.
Qed.

Lemma strsep_last f : no_space f → strsep space (Some f) = (Some f, None).
Proof.
  intros Hf. unfold strsep. pose proof (span_app (λ c, negb (space c)) f EmptyString) as Hs.
  rewrite str_app_nil_r in Hs. rewrite Hs; [done | | done].
  eapply Forall_impl; [exact Hf|]. by intros c ->.
Qed.

Lemma quoted_field_backslash c s :
  quoted_field (String "\" (String c s)) = ('(copy, rest) ← quoted_field s; Some (String c copy, rest)).
Proof. done. Qed.

(** gu_strsep_quoted() undoes the quotes and backslashes. *)
Lemma quoted_field_escaped name rest :
  quoted_field (escape_name name +:+ String double_quote rest) = Some (name, rest).
Proof.
  induction name as [|c name IH]; [done|]. cbn [escape_name].
  destruct (Ascii.eqb_spec c "\") as [->|Hb]; [by cbn [orb]; rewrite !str_cons_app, quoted_field_backslash, IH|].
  destruct (Ascii.eqb_spec c double_quote) as [->|Hq]; [by cbn [orb]; rewrite !str_cons_app, quoted_field_backslash, IH|].
  cbn [orb]. rewrite str_cons_app. cbn [quoted_field].
  apply Ascii.eqb_neq in Hb, Hq. by rewrite Hb, Hq, IH.
Qed.

Lemma strsep_quoted_name name rest :
  strsep_quoted space (Some (String double_quote (escape_name name +:+ String double_quote (String " " rest))))
  = (Some name, Some rest).
Proof. unfold strsep_quoted. rewrite Ascii.eqb_refl, quoted_field_escaped. done. Qed.

(** * Lines *)

Lemma whole_cons x l : String.concat EmptyString (x :: l) = x +:+ String.concat EmptyString l.
Proof. destruct l; cbn; [by rewrite str_app_nil_r | done]. Qed.

Lemma whole_app l l' :
  String.concat EmptyString (l ++ l') = String.concat EmptyString l +:+ String.concat EmptyString l'.
Proof. induction l as [|x l IH]; [done|]. cbn [app]. by rewrite !whole_cons, IH, str_app_assoc. Qed.

Definition ended (line : string) : string := line +:+ line_end.

(** A text of such lines is read line by line. *)
Lemma lines_read lines fuel :
  Forall text lines →
  (String.length (String.concat EmptyString (ended <$> lines)) <= fuel)%nat →
  gu_getlines fuel (String.concat EmptyString (ended <$> lines)) = lines.
Proof.
  intros Hl. revert fuel. induction Hl as [|line lines (Hne & Hsolid & Hnl) _ IH]; intros fuel Hf.
  { by destruct fuel. }
  rewrite fmap_cons, whole_cons in Hf |- *. rewrite length_app_str in Hf. unfold ended at 1 in Hf.
  rewrite length_app_str in Hf. unfold ended at 1. rewrite str_app_assoc.
  destruct fuel as [|fuel]; [change (String.length line_end) with 1%nat in Hf; lia|].
  destruct line as [|c line]; [done|]. rewrite str_cons_app. cbn [gu_getlines]. rewrite <-str_cons_app.
  unfold fgets_line. change (line_end +:+ ?r) with (String (chr 10) r). rewrite span_app; [| |done].
  - rewrite IH by (change (String.length line_end) with 1%nat in Hf; cbn in Hf; lia).
    by rewrite rtrim_space, rtrim_solid.
  - eapply Forall_impl; [exact Hnl|]. intros d Hd. by apply negb_true_iff, Z.eqb_neq.
Qed.

Lemma file_lines_read lines : Forall text lines → file_lines (String.concat EmptyString (ended <$> lines)) = lines.
Proof. intros Hl. by apply lines_read. Qed.

(** * What is listed *)

Section listed.
Context `{SubConfig}.

Lemma in_every_fragment x fragment : is_thing_in_current_fragment x fragment = true.
Proof. unfold is_thing_in_current_fragment. by destruct su_splitting, (fragment =? 0). Qed.

Lemma select_all {A} (kind : Thing → option A) fragment l : select kind fragment l = omap kind l.
Proof.
  unfold select. generalize 0%nat. induction l as [|t l IH]; intros n; [done|]. cbn.
  rewrite in_every_fragment. destruct (kind t); [by f_equal|]; apply IH.
Qed.

(** Things as the tokens of a document make them. *)
Definition listable (t : Thing) : Prop :=
  match th t with
  | TH_RESOURCE r => word (R_Type r) ∧ no_newline (R_Name r) ∧ plain_version (R_Version r) ∧ 0 ≤ R_Revision r
  | TH_MEDIA _ => True
  | TH_REQUIREMENT name => word name
  end.

(** The entry pprdrv makes of a resource: the version is as it was written. *)
Definition entry_of (flags : Z) (r : Resource) : DRVRES :=
  let fix_include := has REREF_FIXINCLUDE flags in
  let font := String.eqb (R_Type r) "font" in
  mkRes (has REREF_NEEDED flags) (R_Type r) (R_Name r) (gu_getdouble (dtostr (R_Version r))) (R_Revision r)
    None None None false false (fix_include && font) (fix_include && negb font).

Lemma bit_of_read b : no_space (bit_of b) ∧ truth (atoi (bit_of b)) = b.
Proof. destruct b; (split; [by repeat constructor | done]). Qed.

Lemma atoi_unsigned c s :
  gu_ascii_isdigit c = true →
  atoi (String c s) = digits_value 10 gu_ascii_digit_value (span gu_ascii_isdigit (String c s)).1.
Proof. intros Hc. destruct c as [[] [] [] [] [] [] [] []]; try discriminate Hc; reflexivity. Qed.

Lemma revision_read n : 0 ≤ n → atoi (fmt_d n) = n.
Proof.
  intros Hn. unfold fmt_d. rewrite (proj2 (Z.ltb_ge _ _)) by lia.
  pose proof (fmt_u_digits false 10 _ _ ltac:(lia) dec_digits n Hn) as Hws.
  pose proof (fmt_u_value false 10 _ _ ltac:(lia) dec_digits n Hn) as Hval.
  destruct (fmt_u_cons false 10 _ _ ltac:(lia) dec_digits n Hn) as (c & u & E & Hc).
  pose proof (span_app gu_ascii_isdigit (fmt_u false 10 n) EmptyString Hws I) as Hs. rewrite str_app_nil_r in Hs.
  by rewrite E, atoi_unsigned, <-E, Hs by done.
Qed.

Lemma resource_line_read flags r :
  word (R_Type r) → plain_version (R_Version r) → 0 ≤ R_Revision r →
  asks_resource (resource_line flags r) (entry_of flags r).
Proof.
  intros Ht Hv Hr. split; [done|]. split; [done|].
  destruct (bit_of_read (has REREF_NEEDED flags)) as [Hs1 Hb1].
  destruct (bit_of_read (has REREF_FIXINCLUDE flags)) as [Hs2 Hb2].
  destruct (version_read_back _ Hv) as [_ Hw].
  unfold resource_line, res_line. rewrite ?str_app_assoc.
  change ("Res: " +:+ ?r) with ("Res:" +:+ String " " r). rewrite strsep_field by by repeat constructor.
  change (" " +:+ ?r) with (String " " r). rewrite strsep_field by done.
  change (" " +:+ ?r) with (String " " r). rewrite strsep_field by done.
  change (" " +:+ ?r) with (String " " r). rewrite strsep_field by by apply word_no_space.
  change (String double_quote (escape_name ?n) +:+ ?r) with (String double_quote (escape_name n +:+ r)).
  change (String double_quote " " +:+ ?r) with (String double_quote (String " " r)).
  rewrite strsep_quoted_name. change (" " +:+ ?r) with (String " " r).
  rewrite strsep_field by by apply word_no_space. rewrite strsep_last by apply word_no_space, fmt_d_word.
  cbn -[truth atoi gu_getdouble dtostr fmt_d bit_of]. by rewrite Hb1, Hb2, revision_read.
Qed.

Lemma no_newline_escape name : no_newline name → no_newline (escape_name name).
Proof.
  unfold no_newline. induction name as [|c name IH]; [done|]. intros [Hc Hn]%Forall_cons. cbn.
  destruct (_ || _); cbn; repeat constructor; auto.
Qed.

Lemma resource_line_text flags r :
  word (R_Type r) → no_newline (R_Name r) → plain_version (R_Version r) → text (resource_line flags r).
Proof.
  intros Ht Hn Hv. destruct (version_read_back _ Hv) as [_ Hw]. unfold resource_line.
  assert (∀ b, no_newline (bit_of b)) as Hb by (intros []; by apply no_newline_check).
  assert (no_newline "Res: " ∧ no_newline " ") as [Hres Hsp] by (by split; apply no_newline_check).
  assert (no_newline (String double_quote (escape_name (R_Name r)))) as Hq
    by (constructor; [done|]; by apply no_newline_escape).
  assert (no_newline (String double_quote " ")) as Hq' by by apply no_newline_check.
  repeat (apply text_app; [first [apply Hres | apply Hsp | apply Hb | exact Hq | exact Hq'
    | by apply word_no_newline] |]). apply fmt_d_text.
Qed.

Lemma requirement_line_read name :
  word name → asks_requirement ("Req: " +:+ name) name.
Proof.
  intros Hw. split; [done|]. split; [done|]. unfold req_line.
  change ("Req: " +:+ name) with ("Req:" +:+ String " " name). rewrite strsep_field by by repeat constructor.
  by rewrite strsep_last by by apply word_no_space.
Qed.

Lemma resource_lines_written things fragment :
  write_resource_lines things fragment =
  String.concat EmptyString (ended <$> ((λ '(flags, r), resource_line flags r) <$> omap listed_resource things)).
Proof.
  unfold write_resource_lines. rewrite select_all, <-list_fmap_compose. f_equal.
  apply list_fmap_ext. by intros _ [flags r] _.
Qed.

Lemma requirement_lines_written things fragment :
  write_requirement_lines things fragment =
  String.concat EmptyString (ended <$> ((λ name, "Req: " +:+ name) <$> omap requirement_of things)).
Proof.
  unfold write_requirement_lines. by rewrite select_all, <-list_fmap_compose.
Qed.

Lemma listed_resources things :
  Forall listable things →
  Forall (λ '(flags, r), word (R_Type r) ∧ no_newline (R_Name r) ∧ plain_version (R_Version r) ∧ 0 ≤ R_Revision r)
    (omap listed_resource things).
Proof.
  induction 1 as [|[[r|m|name] flags] things Ht _ IH]; [done|..]; cbn; [|done..].
  destruct (flags =? 0); by try constructor.
Qed.

Lemma listed_requirements things : Forall listable things → Forall word (omap requirement_of things).
Proof. by induction 1 as [|[[r|m|name] flags] things Ht _ IH]; [|cbn; try constructor..]. Qed.
End listed.

(** What the queue file has behind the media. *)
Definition things_text `{SubConfig} (things : list Thing) (fragment : Z) : string :=
  write_resource_lines things fragment +:+ "EndRes" +:+ line_end +:+
  write_requirement_lines things fragment +:+ "EndReq" +:+ line_end.

(** What ppr writes of the resources and requirements of a job
    (write_resource_lines() and write_requirement_lines(), src/ppr/ppr_res.c and
    ppr_req.c), pprdrv reads (check_if_capable(), src/pprdrv/pprdrv_capable.c):
    line by line the queue file has one entry for each resource that is still
    referred to, with the type, the name whatever characters of a line it has,
    the revision, a version that is the same number, and the flags that say
    whether it is needed and where it is to be put in; then one for each
    requirement. *)
Theorem what_ppr_lists_pprdrv_reads `{SubConfig} things fragment :
  Forall listable things →
  ∃ lines reqlines,
    file_lines (things_text things fragment) = lines ++ "EndRes" :: reqlines ++ ["EndReq"] ∧
    Forall2 asks_resource lines ((λ '(flags, r), entry_of flags r) <$> omap listed_resource things) ∧
    Forall2 asks_requirement reqlines (omap requirement_of things) ∧
    Forall (λ '(flags, r), same_version (r_version (entry_of flags r)) (R_Version r) = true)
      (omap listed_resource things).
Proof.
  intros Hl. pose proof (listed_resources things Hl) as Hres. pose proof (listed_requirements things Hl) as Hreq.
  exists ((λ '(flags, r), resource_line flags r) <$> omap listed_resource things),
    ((λ name, "Req: " +:+ name) <$> omap requirement_of things).
  split_and!.
  - rewrite <-file_lines_read.
    + f_equal. unfold things_text. rewrite resource_lines_written, requirement_lines_written.
      rewrite !fmap_app, fmap_cons, fmap_app, whole_app, whole_cons, whole_app.
      change (ended "EndRes") with ("EndRes" +:+ line_end). by rewrite !str_app_assoc.
    + assert (text "EndRes" ∧ text "EndReq") as [Hendres Hendreq]
        by (by split; (split; [done|split; [done|by apply no_newline_check]])).
      apply Forall_app; split; [|constructor; [exact Hendres|]; apply Forall_app; split; [|by constructor]].
      * apply Forall_fmap. eapply Forall_impl; [exact Hres|]. intros [flags r] (Ht & Hn & Hv & _).
        by apply resource_line_text.
      * apply Forall_fmap. eapply Forall_impl; [exact Hreq|]. intros name Hw.
        apply text_app; [by apply no_newline_check | by apply word_text].
  - apply Forall2_fmap_2. apply Forall_Forall2_diag. eapply Forall_impl; [exact Hres|].
    intros [flags r] (Ht & _ & Hv & Hr). by apply resource_line_read.
  - apply Forall2_fmap_l. apply Forall_Forall2_diag. eapply Forall_impl; [exact Hreq|].
    intros name Hw. by apply requirement_line_read.
  - eapply Forall_impl; [exact Hres|]. intros [flags r] (_ & _ & Hv & _). by apply version_read_back.
Qed.

Lemma word_check s : negb (String.eqb s EmptyString) && forallb (λ c, negb (gu_ascii_isspace c)) (chars s) = true → word s.
Proof.
  intros [Hne Hs]%andb_true_iff. split; [by destruct s|]. apply Forall_forall. intros c Hc.
  rewrite forallb_forall in Hs. by apply negb_true_iff, Hs, list_elem_of_In.
Qed.

(** A procedure set with quotes and a backslash in its name, and a font. *)
Definition sample_things : list Thing :=
  [mkThing (TH_RESOURCE (mkResource "procset" "A (bc) \d" (VDec 1 3 "10") 2)) REREF_NEEDED;
   mkThing (TH_REQUIREMENT "duplex(tumble)") REQ_DOC;
   mkThing (TH_RESOURCE (mkResource "font" (String double_quote "x") zero_version 0)) REREF_SUPPLIED;
   mkThing (TH_RESOURCE (mkResource "font" "superseded" zero_version 0)) 0].

Definition no_medium : Media := mkMedia EmptyString zero_version zero_version zero_version EmptyString EmptyString.

Definition sample_submission : SubConfig :=
  {| su_DSClevel := VDec 1 3 "0"; su_proofmode := PROOFMODE_SUBSTITUTE; su_read_copies := true;
     su_splitting := false; su_pagenumber := 0; su_media_file := []; su_default_medium := None;
     su_conf_medium := inr no_medium; su_guess_media := no_medium |}.

Lemma what_ppr_lists_pprdrv_reads_witness :
  ∃ lines reqlines,
    file_lines (@things_text sample_submission sample_things 0) = lines ++ "EndRes" :: reqlines ++ ["EndReq"] ∧
    Forall2 asks_resource lines
      [mkRes true "procset" "A (bc) \d" (VDec 1 3 "1") 2 None None None false false false false;
       mkRes false "font" (String double_quote "x") zero_version 0 None None None false false false false] ∧
    Forall2 asks_requirement reqlines ["duplex(tumble)"].
Proof.
  destruct (@what_ppr_lists_pprdrv_reads sample_submission sample_things 0) as (lines & reqlines & Hf & Hl & Hr & _).
  - assert (∀ w f, 0 ≤ w ≤ 9 → f ∈ ["10"; EmptyString] → plain_version (VDec 1 w f)) as Hv.
    { intros w f Hw Hf. exists w, f. split; [done|]. split; [lia|].
      repeat apply elem_of_cons in Hf as [->|Hf]; [by split; [|cbn; lia]..|by apply not_elem_of_nil in Hf]. }
    repeat apply Forall_cons_2; [..|apply Forall_nil_2]; cbn;
      repeat match goal with
      | |- _ ∧ _ => split
      | |- word _ => by apply word_check
      | |- no_newline _ => by apply no_newline_check
      | |- plain_version _ => apply Hv; [lia | set_solver]
      | |- _ ≤ _ => lia
      end.
  - exists lines, reqlines. split; [exact Hf|]. split; [exact Hl | exact Hr].
Defined.

(** * Flags *)

Section flags.
Context `{SubConfig}.

(** The flags, without what is said. *)
Definition rationalized (font : bool) (flags : Z) : Z :=
  let flags := if has REREF_SUPPLIED flags && negb (has REREF_REALLY_SUPPLIED flags)
               then clear_bit REREF_SUPPLIED flags else flags in
  let flags := if has REREF_NEEDED flags && negb (has REREF_INCLUDE flags)
               then Z.lor flags REREF_FIXINCLUDE else flags in
  let flags :=
    if has REREF_UNCLEAR flags && negb (has REREF_NEEDED flags || has REREF_SUPPLIED flags) then
      if has REREF_REALLY_SUPPLIED flags then Z.lor flags REREF_SUPPLIED
      else if has REREF_INCLUDE flags then Z.lor flags REREF_NEEDED
      else if font then Z.lor (Z.lor flags REREF_NEEDED) REREF_FIXINCLUDE else flags
    else flags in
  let flags := if has REREF_INCLUDE flags && negb (has REREF_NEEDED flags) then Z.lor flags REREF_NEEDED else flags in
  let flags := if has REREF_REALLY_SUPPLIED flags && negb (has REREF_SUPPLIED flags)
               then Z.lor flags REREF_SUPPLIED else flags in
  if has REREF_REMOVED flags then Z.lor (clear_bit REREF_SUPPLIED flags) REREF_NEEDED else flags.

Lemma rationalize_flags r flags :
  (rationalize_resource r flags).2 = rationalized (String.eqb (R_Type r) "font") flags.
Proof.
  unfold rationalize_resource, rationalized. cbv zeta.
  match goal with |- context [if ?b then (if ?c then ([], _) else _) else ([], _)] =>
    destruct b; [destruct c|] end; [reflexivity| |reflexivity].
  match goal with |- context [if ?c then ([], _) else _] => destruct c end; [reflexivity|].
  by destruct (String.eqb (R_Type r) "font").
Qed.

(** A resource that is sent for is needed; supplied are those that are there and
    have not been taken out; one that is needed has a place; and it is known of a
    font that is declared whether it is there. *)
Definition settled (font : bool) (flags : Z) : bool :=
  implb (has REREF_INCLUDE flags) (has REREF_NEEDED flags)
  && Bool.eqb (has REREF_SUPPLIED flags) (has REREF_REALLY_SUPPLIED flags && negb (has REREF_REMOVED flags))
  && implb (has REREF_NEEDED flags)
       (has REREF_INCLUDE flags || has REREF_FIXINCLUDE flags || has REREF_REMOVED flags)
  && implb (font && has REREF_UNCLEAR flags) (has REREF_NEEDED flags || has REREF_SUPPLIED flags).

Lemma rationalized_settled font flags : 0 ≤ flags < 256 → settled font (rationalized font flags) = true.
Proof.
  intros Hf. assert (forallb (λ n, settled font (rationalized font (Z.of_nat n))) (seq 0 256) = true) as Hall
    by (destruct font; vm_compute; reflexivity).
  rewrite forallb_forall in Hall. specialize (Hall (Z.to_nat flags)). rewrite Z2Nat.id in Hall by lia.
  apply Hall, in_seq. lia.
Qed.
End flags.

(** The flags of a reference are eight bits. *)
Definition flagged (t : Thing) : Prop :=
  match th t with TH_RESOURCE _ => 0 ≤ R_Flags t < 256 | _ => True end.

Definition thing_settled (t : Thing) : Prop :=
  match th t with
  | TH_RESOURCE r => R_Flags t ≠ 0 → settled (String.eqb (R_Type r) "font") (R_Flags t) = true
  | _ => True
  end.

(** rationalize_resources() (src/ppr/ppr_res.c) leaves no contradiction,
    whatever the comments of the document claim: it returns, with the same
    things; a resource that is to be included is needed; supplied are exactly
    those that the document really has and that ppr did not take out; each one
    that is needed has a place where it is put in; and a font that was declared
    without saying so is either needed or supplied. *)
Theorem rationalized_resources_have_their_place `{SubConfig} s :
  Forall flagged (s_things s) →
  ∃ s', rationalize_resources s = Done tt s' ∧
    th <$> s_things s' = th <$> s_things s ∧ Forall thing_settled (s_things s').
Proof.
  intros Hs. eexists. split; [reflexivity|]. cbn [s_things set_s_things set_s_warnings].
  assert (∀ t, th (rationalize_thing t).2 = th t ∧ (flagged t → thing_settled (rationalize_thing t).2)) as Ht.
  { intros [[r|m|name] flags]; [|done..]. unfold rationalize_thing. cbn [th R_Flags].
    destruct (Z.eqb_spec flags 0) as [->|Hn]; [split; [done|]; intros _ Hc; by destruct Hc|].
    destruct (rationalize_resource r flags) as [said flags'] eqn:E. split; [done|]. intros Hf _. cbn.
    pose proof (rationalize_flags r flags) as Hr. rewrite E in Hr. cbn in Hr. rewrite Hr. by apply rationalized_settled. }
  split.
  - rewrite <-!list_fmap_compose. apply list_fmap_ext. intros _ t _. apply Ht.
  - rewrite <-list_fmap_compose. apply Forall_fmap. eapply Forall_impl; [exact Hs|]. intros t. apply Ht.
Qed.

Definition fresh_sub (things : list Thing) : sub := mkSub things [] EmptyString false 1 [] 0.

Lemma rationalized_resources_have_their_place_witness :
  ∃ s', @rationalize_resources sample_submission (fresh_sub sample_things) = Done tt s' ∧
    th <$> s_things s' = th <$> sample_things ∧ Forall thing_settled (s_things s').
Proof.
  apply (@rationalized_resources_have_their_place sample_submission (fresh_sub sample_things)).
  unfold fresh_sub, sample_things, REREF_NEEDED, REREF_SUPPLIED.
  repeat apply Forall_cons_2; [cbn; lia | done | cbn; lia | cbn; lia | apply Forall_nil_2].
Defined.

(** * The parts of a job *)

(** Parts of so many pages, numbered from the one behind [c]. *)
Fixpoint spread (c : Z) (sizes : list nat) : list Z :=
  match sizes with
  | [] => []
  | n :: sizes' => replicate n (c + 1) ++ spread (c + 1) sizes'
  end.

Definition total (sizes : list nat) : nat := list_sum sizes.

(** The pages that still belong to the part begun, and the parts that follow: a
    part but the last has more than the number of pages that was computed. *)
Lemma assign_pages_parts n p this_frag c :
  0 ≤ this_frag ≤ p + 1 → 0 ≤ p →
  ∃ m sizes,
    assign_pages n p this_frag c = (u8 <$> (replicate m c ++ spread c sizes), c + Z.of_nat (length sizes)) ∧
    (m + total sizes = n)%nat ∧ Forall (λ k, 0 < k)%nat sizes ∧
    (this_frag ≤ p → (0 < n)%nat → (0 < m)%nat) ∧
    (sizes ≠ [] → p + 1 - this_frag + (Z.of_nat (length sizes) - 1) * (p + 1) + 1 ≤ Z.of_nat n).
Proof.
  intros Ht Hp. revert this_frag c Ht. induction n as [|n IH]; intros this_frag c Ht.
  { exists 0%nat, []. cbn. rewrite Z.add_0_r. repeat split; try done; lia. }
  cbn [assign_pages]. destruct (Z.ltb_spec p this_frag) as [Hlt|Hge].
  - destruct (IH 0 (c + 1)) as (m & sizes & E & Hsum & Hpos & Hm & Hbound); [lia..|]. rewrite E.
    exists 0%nat, (S m :: sizes). split_and!.
    + cbn [length spread]. cbn. f_equal. lia.
    + change (total (S m :: sizes)) with (S m + total sizes)%nat. lia.
    + constructor; [lia | done].
    + lia.
    + intros _. destruct sizes as [|k sizes]; [cbn [length]; lia|]. specialize (Hbound ltac:(done)).
      cbn [length] in *. nia.
  - destruct (IH (this_frag + 1) c) as (m & sizes & E & Hsum & Hpos & Hm & Hbound); [lia..|]. rewrite E.
    exists (S m), sizes. split_and!.
    + done.
    + lia.
    + done.
    + lia.
    + intros Hne. specialize (Hbound Hne). lia.
Qed.

Lemma pages_per_fragment_enough pages segments pagefactor :
  0 ≤ pages → 0 < segments → 0 < pagefactor → pages < segments * (pages_per_fragment pages segments pagefactor + 1).
Proof.
  intros Hp Hs Hf. unfold pages_per_fragment. rewrite (Z.quot_div_nonneg pages segments) by lia.
  pose proof (Z.div_pos pages segments Hp Hs). pose proof (Z.mul_succ_div_gt pages segments Hs).
  rewrite Z.quot_div_nonneg by lia.
  pose proof (Z.mul_succ_div_gt (pages / segments + pagefactor - 1) pagefactor Hf). nia.
Qed.

(** There are never more parts than were asked for, and none is empty. *)
Lemma assigned_parts n segments pagefactor :
  (0 < n)%nat → 2 ≤ segments ≤ MAX_SEGMENTS → 0 < pagefactor →
  ∃ sizes,
    assign_pages n (pages_per_fragment (Z.of_nat n) segments pagefactor) 0 1 =
      (spread 0 sizes, Z.of_nat (length sizes)) ∧
    total sizes = n ∧ Forall (λ k, 0 < k)%nat sizes ∧ Z.of_nat (length sizes) ≤ segments.
Proof.
  intros Hn Hs Hf. pose proof (pages_per_fragment_enough (Z.of_nat n) segments pagefactor ltac:(lia) ltac:(lia) Hf) as He.
  set (p := pages_per_fragment (Z.of_nat n) segments pagefactor) in *. assert (0 ≤ p) as Hp by nia.
  destruct (assign_pages_parts n p 0 1) as (m & sizes & E & Hsum & Hpos & Hm & Hbound); [lia|done|].
  assert (Z.of_nat (length (m :: sizes)) ≤ segments) as Hlen.
  { destruct sizes as [|k sizes]; [cbn; lia|]. specialize (Hbound ltac:(done)). cbn [length] in *. nia. }
  exists (m :: sizes). split_and!.
  - rewrite E. cbn [length] in *. f_equal; [|lia]. change (spread 0 (m :: sizes)) with (replicate m 1 ++ spread 1 sizes).
    assert (∀ x, x ∈ replicate m 1 ++ spread 1 sizes → 0 ≤ x < 256) as Hall.
    { intros x [Hx|Hx]%elem_of_app; [apply elem_of_replicate in Hx as [-> _]; lia|].
      assert (∀ sizes c, x ∈ spread c sizes → c ≤ x ≤ c + Z.of_nat (length sizes)) as Hspread.
      { clear. induction sizes as [|k sizes IH]; intros c Hx; [by apply not_elem_of_nil in Hx|].
        cbn [spread length] in *. apply elem_of_app in Hx as [Hx|Hx]; [apply elem_of_replicate in Hx as [-> _]; lia|].
        specialize (IH _ Hx). lia. }
      specialize (Hspread _ _ Hx). unfold MAX_SEGMENTS in Hs. lia. }
    clear -Hall. induction (replicate m 1 ++ spread 1 sizes) as [|x l IH]; [done|]. cbn.
    rewrite u8_small by (apply Hall; by left). f_equal. apply IH. intros y Hy. apply Hall. by right.
  - done.
  - constructor; [by apply Hm | done].
  - done.
Qed.

(** ** The file of the pages *)

(** A line that fgets() reads whole. *)
Definition file_line (line : string) : Prop :=
  ∃ l, line = ended l ∧ no_newline l ∧ (String.length l <= 510)%nat.

Definition starts_part (line : string) : bool := String.prefix "%%Page:" line || String.prefix "%%Trailer" line.

(** The lines of a page, and of the trailer. *)
Definition page_lines (lines : list string) : Prop :=
  ∃ first rest, lines = first :: rest ∧ String.prefix "%%Page:" first = true ∧
    Forall (λ l, starts_part l = false) rest ∧ Forall file_line lines.

Definition trailer_lines (lines : list string) : Prop :=
  ∃ first rest, lines = first :: rest ∧ String.prefix "%%Trailer" first = true ∧ Forall file_line lines.

Abbreviation whole := (String.concat EmptyString).

Lemma fgets_file_line line rest : file_line line → fgets LINE (line +:+ rest) = (line, rest).
Proof.
  intros (l & -> & Hn & Hl). unfold ended. rewrite str_app_assoc. unfold LINE.
  assert (String.length l + 1 < 512)%nat as Hs by lia. revert Hs. clear Hl. generalize 512%nat. revert Hn.
  induction l as [|c l IH]; intros Hn size Hs; (destruct size as [|[|size]]; [cbn in Hs; lia..|]); [done|].
  apply Forall_cons in Hn as [Hc Hn]. rewrite !str_cons_app. cbn [fgets]. apply Z.eqb_neq in Hc. rewrite Hc.
  rewrite (IH Hn (S size)) by (cbn in Hs; lia). done.
Qed.

Lemma file_line_not_empty line rest : file_line line → line +:+ rest ≠ EmptyString.
Proof. intros (l & -> & _). by destruct l. Qed.

Lemma put_twice k a b segfiles : put_segment k b (put_segment k a segfiles) = put_segment k (a +:+ b) segfiles.
Proof.
  unfold put_segment. rewrite list_alter_alter_eq. apply list_alter_ext; [|done].
  intros x _. cbn. by rewrite str_app_assoc.
Qed.

Section parts.
Context `{SubConfig}.

Lemma next_file_line line rest s : file_line line → next_line (line +:+ rest) s = Done (line, rest) s.
Proof.
  intros Hl. unfold next_line. pose proof (file_line_not_empty line rest Hl).
  destruct (line +:+ rest) eqn:E; [done|]. by rewrite <-E, fgets_file_line.
Qed.

(** A page goes to its part. *)
Lemma copies_record fuel k first rest next r segfiles s :
  (length rest < fuel)%nat → Forall (λ l, starts_part l = false) rest → Forall file_line rest →
  file_line next → starts_part next = true →
  copy_record fuel k first (whole rest +:+ next +:+ r) segfiles s =
  Done (next, r, put_segment k (first +:+ whole rest) segfiles) s.
Proof.
  intros Hf Hrest Hlines Hnext Hstart. revert first fuel segfiles Hf.
  induction Hrest as [|line rest Hline _ IH]; intros first fuel segfiles Hf;
    (destruct fuel as [|fuel]; [cbn in Hf; lia|]); cbn [copy_record]; unfold mbind, M_bind.
  - change (whole []) with EmptyString. rewrite str_nil_app, next_file_line, str_app_nil_r by done.
    fold (starts_part next). by rewrite Hstart.
  - apply Forall_cons in Hlines as [Hl Hlines]. rewrite whole_cons, str_app_assoc, next_file_line by done.
    fold (starts_part line). rewrite Hline. specialize (IH Hlines line fuel (put_segment k first segfiles)).
    unfold mbind, M_bind in IH. rewrite IH by (cbn in Hf; lia).
    by rewrite put_twice.
Qed.

(** The pages of a part are copied one after the other. *)
Lemma copies_group fuel k group next r segfiles s assignments :
  Forall page_lines group → (length (concat group) <= fuel)%nat →
  file_line next → starts_part next = true → group ≠ [] →
  ∃ line rest, concat group = line :: rest ∧
    copy_records fuel (replicate (length group) (Z.of_nat k + 1) ++ assignments) line
      (whole rest +:+ next +:+ r) segfiles s =
    copy_records fuel assignments next r (put_segment k (whole (concat group)) segfiles) s.
Proof.
  intros Hg Hf Hnext Hstart. revert segfiles.
  induction Hg as [|lines group (first & rest & -> & Hfirst & Hrest & Hlines) Hg IH]; intros segfiles Hne; [done|].
  exists first, (rest ++ concat group). split; [done|]. cbn [length replicate app copy_records].
  rewrite Z.add_simpl_r, Nat2Z.id. unfold mbind, M_bind.
  apply Forall_cons in Hlines as [Hl Hlines]. cbn in Hf. rewrite length_app in Hf.
  destruct group as [|lines group].
  - cbn [concat app length replicate]. rewrite !app_nil_r, copies_record by (done || lia). by rewrite whole_cons.
  - destruct (IH ltac:(lia) (put_segment k (first +:+ whole rest) segfiles) ltac:(done)) as (line & rest' & E & Hcopy).
    inversion Hg as [|? ? (first' & tail & Elines & Hpage & _ & Hfile) _]; subst.
    rewrite E, whole_app, whole_cons, !str_app_assoc.
    assert (line = first') as -> by by injection E.
    rewrite copies_record; [|lia|done..|by inversion Hfile|by unfold starts_part; rewrite Hpage].
    unfold mbind, M_bind in Hcopy. rewrite Hcopy, put_twice. do 2 f_equal.
    cbn [concat] in E |- *. by rewrite E, whole_app, !whole_cons, !str_app_assoc.
Qed.

(** What follows a group begins a page or is the trailer. *)
Lemma next_starts groups next line rest :
  Forall (Forall page_lines) groups → Forall (λ g, g ≠ []) groups → file_line next → starts_part next = true →
  concat (concat groups) ++ [next] = line :: rest → file_line line ∧ starts_part line = true.
Proof.
  intros Hg Hne Hf Hs E. destruct groups as [|[|lines group] groups].
  - by injection E as <- <-.
  - by inversion Hne.
  - inversion Hg as [|? ? Hgroup _]; subst. inversion Hgroup as [|? ? (first & tail & -> & Hpage & _ & Hfile) _]; subst.
    injection E as <- _. split; [by inversion Hfile | by unfold starts_part; rewrite Hpage].
Qed.

(** Every part gets its pages. *)
Lemma copies_groups fuel groups next r s line rest pre :
  Forall (Forall page_lines) groups → Forall (λ g, g ≠ []) groups →
  (length (concat (concat groups)) <= fuel)%nat → file_line next → starts_part next = true →
  concat (concat groups) ++ [next] = line :: rest →
  copy_records fuel (spread (Z.of_nat (length pre)) (length <$> groups)) line (whole rest +:+ r)
    (pre ++ replicate (length groups) EmptyString) s =
  Done (next, r, pre ++ ((λ g, whole (concat g)) <$> groups)) s.
Proof.
  intros Hg Hne Hf Hnext Hstart. revert line rest pre.
  induction Hg as [|group groups Hgroup Hg IH]; intros line rest pre E.
  { injection E as <- <-. cbn. by rewrite str_nil_app. }
  apply Forall_cons in Hne as [Hne1 Hne].
  cbn [concat] in E, Hf. rewrite concat_app, length_app in Hf. rewrite concat_app, <-app_assoc in E.
  destruct (concat (concat groups) ++ [next]) as [|line' rest'] eqn:E'; [by destruct (concat (concat groups))|].
  destruct (next_starts _ _ _ _ Hg Hne Hnext Hstart E') as [Hline' Hstart'].
  destruct (copies_group fuel (length pre) group line' (whole rest' +:+ r)
    (pre ++ replicate (length (group :: groups)) EmptyString) s
    (spread (Z.of_nat (length pre) + 1) (length <$> groups)) Hgroup) as (line1 & rest1 & E1 & Hcopy); [lia|done..|].
  rewrite E1 in E. injection E as <- <-. cbn [fmap list_fmap spread].
  rewrite whole_app, whole_cons, !str_app_assoc, Hcopy. clear Hcopy.
  specialize (IH ltac:(done) ltac:(lia) line' rest' (pre ++ [whole (concat group)]) eq_refl).
  rewrite length_app, Nat2Z.inj_add in IH. rewrite <-!app_assoc in IH. cbn [app] in IH.
  rewrite <-IH. f_equal.
  unfold put_segment. rewrite alter_app_r_alt by done. rewrite Nat.sub_diag. cbn. by rewrite str_nil_app.
Qed.

(** Every part gets the trailer. *)
Lemma copies_trailer fuel line rest segfiles s :
  (length rest < fuel)%nat → Forall file_line rest →
  copy_trailer fuel line (whole rest) segfiles s = Done (put_all (line +:+ whole rest) segfiles) s.
Proof.
  intros Hf Hl. revert line fuel segfiles Hf.
  induction Hl as [|line' rest Hline _ IH]; intros line fuel segfiles Hf;
    (destruct fuel as [|fuel]; [cbn in Hf; lia|]); cbn [copy_trailer].
  - change (whole []) with EmptyString. by rewrite str_app_nil_r.
  - rewrite whole_cons. pose proof (file_line_not_empty line' (whole rest) Hline).
    destruct (line' +:+ whole rest) eqn:E; [done|]. rewrite <-E, fgets_file_line, IH by (done || cbn in Hf; lia).
    f_equal. unfold put_all. rewrite <-list_fmap_compose. apply list_fmap_ext. intros _ x _. cbn.
    by rewrite !str_app_assoc.
Qed.

Lemma groups_of {A} (l : list A) sizes :
  total sizes = length l → ∃ groups, concat groups = l ∧ length <$> groups = sizes.
Proof.
  revert l. induction sizes as [|n sizes IH]; intros l Hl.
  - destruct l; [|done]. by exists [].
  - change (total (n :: sizes)) with (n + total sizes)%nat in Hl.
    destruct (IH (drop n l)) as (groups & E & Hsizes); [rewrite length_drop; lia|].
    exists (take n l :: groups). split; [by cbn; rewrite E, take_drop|]. cbn. rewrite Hsizes, length_take. f_equal. lia.
Qed.

(** The pages counted for a part are those it has. *)
Lemma pages_counted (groups : list (list (list string))) x group c :
  groups !! x = Some group →
  length (filter (λ a, a = c + Z.of_nat x + 1) (spread c (length <$> groups))) = length group.
Proof.
  assert (∀ sizes c y, y ≤ c → filter (λ a, a = y) (spread c sizes) = []) as Hbefore.
  { clear. induction sizes as [|n sizes IH]; intros c y Hy; [done|]. cbn [spread].
    rewrite filter_app, IH, app_nil_r by lia. induction n as [|n IHn]; [done|]. cbn [replicate].
    by rewrite filter_cons_False by lia. }
  revert x c. induction groups as [|g groups IH]; intros [|x] c Hx; [done..| |]; cbn in Hx;
    cbn [fmap list_fmap spread]; rewrite filter_app, length_app.
  - injection Hx as ->. rewrite Hbefore by lia. cbn [length]. rewrite Nat.add_0_r. clear.
    induction (length group) as [|n IHn]; [done|]. cbn [replicate]. rewrite filter_cons_True by lia.
    cbn [length]. by rewrite IHn.
  - rewrite <-(IH x (c + 1) Hx). replace (c + Z.of_nat (S x) + 1) with (c + 1 + Z.of_nat x + 1) by lia.
    assert (filter (λ a, a = c + 1 + Z.of_nat x + 1) (replicate (length g) (c + 1)) = []) as ->; [|done].
    clear. induction (length g) as [|n IHn]; [done|]. cbn [replicate]. by rewrite filter_cons_False by lia.
Qed.

Lemma zip_imap {A B} (f : nat * A → B) l k : f <$> zip (seq k (length l)) l = imap (λ x a, f (k + x, a)%nat) l.
Proof.
  revert k. induction l as [|a l IH]; intros k; [done|]. cbn [length seq zip_with fmap list_fmap imap].
  rewrite Nat.add_0_r. f_equal. fold (zip (seq (S k) (length l)) l). rewrite IH. apply imap_ext.
  intros i x _. cbn. by rewrite Nat.add_succ_r.
Qed.

Lemma lines_not_longer lines : Forall file_line lines → (length lines <= String.length (whole lines))%nat.
Proof.
  induction 1 as [|line lines (l & -> & _) _ IH]; [done|]. rewrite whole_cons, length_app_str. unfold ended.
  rewrite length_app_str. change (String.length line_end) with 1%nat. cbn [length]. lia.
Qed.

Lemma page_not_defaults line : String.prefix "%%Page:" line = true → strncmp_0 16 line "%%BeginDefaults" = false.
Proof.
  intros Hp. apply prefix_split in Hp. rewrite Hp. generalize (str_drop (String.length "%%Page:") line). intros r. done.
Qed.
End parts.

(** The files of the parts. *)
Lemma splits_pages `{SubConfig} groups next tail s :
  Forall (Forall page_lines) groups → Forall (λ g, g ≠ []) groups → groups ≠ [] →
  Forall file_line (next :: tail) → starts_part next = true →
  split_pages (spread 0 (length <$> groups)) (Z.of_nat (length groups))
    (whole (concat (concat groups) ++ next :: tail)) s =
  Done ((λ g, whole (concat g ++ next :: tail)) <$> groups) s.
Proof.
  intros Hg Hne Hsome Hfile Hstart. apply Forall_cons in Hfile as [Hnext Htail].
  assert (Forall file_line (concat (concat groups) ++ next :: tail)) as Hall.
  { apply Forall_app. split; [|by constructor]. apply Forall_concat, Forall_concat.
    eapply Forall_impl; [exact Hg|]. intros g Hlines. eapply Forall_impl; [exact Hlines|].
    by intros l (? & ? & _ & _ & _ & Hl). }
  pose proof (lines_not_longer _ Hall) as Hlen. rewrite length_app in Hlen. cbn [length] in Hlen.
  destruct (concat (concat groups) ++ [next]) as [|line rest] eqn:E; [by destruct (concat (concat groups))|].
  destruct (next_starts _ _ _ _ Hg Hne Hnext Hstart E) as [Hline _].
  assert (String.prefix "%%Page:" line = true) as Hpage.
  { destruct groups as [|[|lines g] groups]; [done|by inversion Hne|].
    inversion Hg as [|? ? Hlines _]; subst. inversion Hlines as [|? ? (first & t & -> & Hp & _) _]; subst.
    by injection E as <- _. }
  assert (concat (concat groups) ++ next :: tail = line :: rest ++ tail) as Eall
    by (rewrite cons_middle, app_assoc, E; done).
  rewrite Eall in Hlen |- *. rewrite whole_cons in Hlen |- *. unfold split_pages.
  pose proof (file_line_not_empty line (whole (rest ++ tail)) Hline).
  destruct (line +:+ whole (rest ++ tail)) eqn:Etext; [done|]. rewrite <-Etext in Hlen |- *.
  rewrite fgets_file_line, page_not_defaults by done. unfold mbind, M_bind, mret, M_ret.
  remember (S (String.length (line +:+ whole (rest ++ tail)))) as fuel eqn:Ef. rewrite whole_app, Nat2Z.id.
  pose proof (copies_groups fuel groups next (whole tail) s line rest [] Hg Hne ltac:(lia) Hnext Hstart E) as Hcopy.
  cbn [length app] in Hcopy. change (Z.of_nat 0) with 0 in Hcopy. rewrite Hcopy.
  rewrite copies_trailer by (done || lia). f_equal. unfold put_all. rewrite <-list_fmap_compose.
  apply list_fmap_ext. intros _ g _. cbn. by rewrite whole_app, whole_cons.
Qed.

(** split_job() (src/ppr/ppr_split.c) divides a job by its pages: whatever
    number of parts is asked for, it returns, and either leaves the job whole, or
    makes at least two and at most that many parts, none of them empty; put one
    behind the other the parts have every page once, in order; each part has the
    whole trailer, knows how many pages it has, and has the comments of the job
    with the media named anew.  (The -pages file has no defaults section, no line
    longer than the buffer, and as many pages as ppr counted.) *)
Theorem a_divided_job_has_every_page_once `{SubConfig} records trailer segments pagefactor pageorder comments s :
  su_splitting = true → su_pagenumber = Z.of_nat (length records) →
  Forall page_lines records → trailer_lines trailer →
  pageorder ≠ PAGEORDER_SPECIAL → 0 < pagefactor < su_pagenumber → 2 ≤ segments ≤ MAX_SEGMENTS →
  ∃ parts,
    split_job segments pagefactor pageorder (whole (concat records ++ trailer)) comments s = Done parts s ∧
    (parts = [] ∨ ∃ groups : list (list (list string)),
      concat groups = records ∧ Forall (λ g, g ≠ []) groups ∧ 2 ≤ Z.of_nat (length groups) ≤ segments ∧
      parts = imap (λ x g,
        mkFragment (Z.of_nat x + 1) (Z.of_nat (length g)) (whole (concat g ++ trailer))
          (other_comments (String.length comments) comments
           +:+ dump_document_media (s_things s) (Z.of_nat x + 1))) groups).
Proof.
  intros Hsplit Hn Hrecords (next & tail & -> & Htrailer & Hfile) Horder Hfactor Hsegments.
  unfold split_job. rewrite Hsplit, Hn. cbn [negb]. rewrite Hn in Hfactor.
  rewrite (proj2 (Z.eqb_neq _ 0)), (proj2 (Z.eqb_neq _ _) Horder), (proj2 (Z.leb_gt _ _)), (proj2 (Z.eqb_neq segments 0)),
    (proj2 (Z.eqb_neq pagefactor 0)), Nat2Z.id by lia.
  destruct (assigned_parts (length records) segments pagefactor) as (sizes & E & Hsum & Hpos & Hlen); [lia|done|lia|].
  rewrite E. destruct (Z.leb_spec (Z.of_nat (length sizes)) 1) as [|Hmany]; [by exists []; split; [|left]|].
  destruct (groups_of records sizes Hsum) as (groups & <- & <-). rewrite length_fmap in *.
  assert (Forall (Forall page_lines) groups) as Hgroups.
  { apply Forall_forall. intros g Hg. apply Forall_forall. intros l Hl. rewrite Forall_forall in Hrecords.
    apply Hrecords. apply list_elem_of_In, in_concat. exists g. by rewrite <-!list_elem_of_In. }
  assert (Forall (λ g, g ≠ []) groups) as Hne.
  { rewrite Forall_fmap in Hpos. eapply Forall_impl; [exact Hpos|]. intros [|? ?] Hg; [cbn in Hg; lia | done]. }
  assert (starts_part next = true) as Hstart by (unfold starts_part; by rewrite Htrailer, orb_true_r).
  unfold mbind, M_bind. rewrite splits_pages by (done || by intros ->). cbn [gets].
  eexists. split; [reflexivity|]. right. exists groups. split_and!; [done..|lia| |].
  - lia.
  - rewrite zip_imap. rewrite imap_fmap. apply imap_ext. intros x g Hx. cbn [compose]. rewrite Nat.add_0_l.
    f_equal. rewrite <-(pages_counted groups x g 0 Hx). by rewrite Z.add_0_l.
Qed.

Definition five_pages : list (list string) :=
  (λ n, ended ("%%Page: " +:+ n +:+ " " +:+ n) :: [ended "%%PageMedia: letter"]) <$> ["1"; "2"; "3"; "4"; "5"].

Definition split_config (pages : Z) : SubConfig :=
  {| su_DSClevel := VDec 1 3 "0"; su_proofmode := PROOFMODE_SUBSTITUTE; su_read_copies := true;
     su_splitting := true; su_pagenumber := pages; su_media_file := []; su_default_medium := None;
     su_conf_medium := inr no_medium; su_guess_media := no_medium |}.

Lemma a_divided_job_has_every_page_once_witness :
  ∃ parts,
    @split_job (split_config 5) 2 1 1 (whole (concat five_pages ++ [ended "%%Trailer"])) EmptyString (fresh_sub [])
      = Done parts (fresh_sub []) ∧
    (parts = [] ∨ ∃ groups : list (list (list string)),
      concat groups = five_pages ∧ Forall (λ g, g ≠ []) groups ∧ 2 ≤ Z.of_nat (length groups) ≤ 2 ∧
      parts = imap (λ x g,
        mkFragment (Z.of_nat x + 1) (Z.of_nat (length g)) (whole (concat g ++ [ended "%%Trailer"]))
          (other_comments (String.length EmptyString) EmptyString
           +:+ @dump_document_media (split_config 5) (s_things (fresh_sub [])) (Z.of_nat x + 1))) groups).
Proof.
  assert (∀ l, forallb (λ c, negb (code c =? 10)) (chars l) = true → (String.length l <= 510)%nat → file_line (ended l))
    as Hline by (intros l Hn Hl; exists l; split; [done|split; [by apply no_newline_check | done]]).
  apply (@a_divided_job_has_every_page_once (split_config 5) five_pages [ended "%%Trailer"] 2 1 1 EmptyString
    (fresh_sub [])); [done | done | | | done | done | done].
  - apply Forall_fmap. repeat apply Forall_cons_2; [..|apply Forall_nil_2];
      (eexists _, _; split; [reflexivity|]; split; [reflexivity|]; split;
       [apply Forall_cons_2; [reflexivity | apply Forall_nil_2] | repeat apply Forall_cons_2; [apply Hline; [reflexivity | apply Nat.leb_le; reflexivity]..|apply Forall_nil_2]]).
  - eexists _, _. split; [reflexivity|]. split; [reflexivity|].
    apply Forall_cons_2; [apply Hline; [reflexivity | apply Nat.leb_le; reflexivity] | apply Forall_nil_2].
Defined.

(** * The lists of resources *)

Lemma version_words tokens restype resname first s :
  ∃ version revision n s', resource_version tokens restype resname first s = Done (version, revision, n) s' ∧ 1 ≤ n.
Proof.
  unfold resource_version. destruct (String.eqb _ _); [|do 4 eexists; by split].
  destruct (tokens !! (first + 1)%nat) as [ptr|]; [|do 4 eexists; by split].
  destruct (all_of is_digit_or_point ptr); [|do 4 eexists; by split].
  destruct (tokens !! (first + 2)%nat) as [ptr2|]; [|do 4 eexists; by split].
  destruct (all_of gu_ascii_isdigit ptr2); do 4 eexists; by split.
Qed.

(** Every resource of a list takes a word, at least. *)
Lemma resource_eats tokens reftype restype first s :
  ∃ n s', resource tokens reftype restype first s = Done n s' ∧ 1 ≤ n.
Proof.
  unfold resource. destruct restype as [restype|]; [|by exists 1, s].
  destruct (tokens !! first) as [resname|]; [|by exists 1, s].
  destruct (version_words tokens restype resname first s) as (version & revision & n & s1 & E & Hn).
  unfold mbind at 1, M_bind. rewrite E. exists n.
  unfold gets, mbind, M_bind. destruct (find_thing _ _); cbn; destruct (has REREF_PAGE reftype); by eexists.
Qed.

(** The loop over the resources of a comment ends, whatever the words are. *)
Theorem every_list_of_resources_ends fuel tokens reftype restype x s :
  (length tokens - x < fuel)%nat → ∃ s', resources fuel tokens reftype restype x s = Done tt s'.
Proof.
  revert x s. induction fuel as [|fuel IH]; intros x s Hf; cbn [resources]; [lia|].
  destruct (tokens !! x) as [w|] eqn:E; [|by eexists]. apply lookup_lt_Some in E.
  destruct (resource_eats tokens reftype restype x s) as (n & s1 & E1 & Hn).
  unfold mbind, M_bind. rewrite E1. apply IH. lia.
Qed.

(** * What the code does otherwise than it says *)

(** Eight pages in sheets of four, in two parts: neither is a number of sheets. *)
Lemma parts_are_no_whole_sheets :
  (assign_pages 8 (pages_per_fragment 8 2 4) 0 1).1 = [1; 1; 1; 1; 1; 2; 2; 2].
Proof. reflexivity. Qed.

(** The defaults count as the first page, and the last page goes to both parts. *)
Lemma defaults_count_as_a_page :
  split_pages [1; 2] 2
    (whole (ended <$> ["%%BeginDefaults"; "%%EndDefaults"; "%%Page: 1 1"; "%%Page: 2 2"; "%%Trailer"])) (fresh_sub []) =
  Done [whole (ended <$> ["%%BeginDefaults"; "%%EndDefaults"; "%%Page: 2 2"; "%%Trailer"]);
        whole (ended <$> ["%%Page: 1 1"; "%%Page: 2 2"; "%%Trailer"])] (fresh_sub []).
Proof. vm_compute. reflexivity. Qed.

(** The lines that continue the list of the media stay when it is taken out. *)
Lemma media_continuation_stays :
  other_comments 100 (whole (ended <$> ["%%DocumentMedia: a 1 2 3 () ()"; "%%+ b 1 2 3 () ()"; "%%Pages: 1"])) =
  whole (ended <$> ["%%+ b 1 2 3 () ()"; "%%Pages: 1"]).
Proof. vm_compute. reflexivity. Qed.

(** The variants of a requirement are not deleted with it, but another one that
    differs in its last character is. *)
Lemma other_requirements_are_deleted :
  deletes "duplex(tumble)" "duplex" = Some false ∧ deletes "fay" "fax" = Some true.
Proof. by split. Qed.

(** A requirement that was deleted is asked for all the same. *)
Lemma a_deleted_requirement_is_asked_for :
  delete_things "duplex" [mkThing (TH_REQUIREMENT "duplex") REQ_DOC] =
    Some [mkThing (TH_REQUIREMENT "duplex") (Z.lor REQ_DOC REQ_DELETED)] ∧
  @write_requirement_lines sample_submission [mkThing (TH_REQUIREMENT "duplex") (Z.lor REQ_DOC REQ_DELETED)] 0 =
    ended "Req: duplex".
Proof. by split. Qed.
